(* ===== verification/_CoqProject ===== *)
-Q . S2P
Prelude.v
Rtp.v
GoStrings.v
Sha.v
Hex.v
Float64.v
JitterBuffer.v
JitterInv.v
JitterProps.v
JitterSpec.v
JitterOrder.v
JitterCount.v
JitterTheorems.v
Sequencer.v
NetIP.v
Sdp.v
SdpProps.v
Codec.v
MediaSdp.v
MediaSdpProps.v
Base64.v
MediaSession.v
MediaNegotiation.v
MediaExchange.v
MediaLifecycle.v
MediaIO.v
MediaSecurity.v
MediaPorts.v
Dtls.v
DtlsProps.v
DtlsConn.v
IceMux.v
IceMuxProps.v
IceAgent.v
PacketIO.v
Dtmf.v
SessionTimer.v
RtpSession.v
RtpSessionProps.v
Pcm.v
MixLoop.v
MixProps.v
BridgeMix.v
Register.v
Refer.v
ReferProps.v
ReInvite.v
ReInviteProps.v
Method.v
Answer.v
AnswerLaws.v
AnswerProps.v
AnswerTheorems.v
TwoParty.v
TwoPartyProps.v
MediaUpdate.v
MediaUpdateLaws.v
MediaUpdateInv.v
MediaUpdateSpecs.v
MediaUpdateTheorems.v
Client.v
ClientLaws.v
ClientTheorems.v
RealTime.v
PcmCoding.v
Wav.v
Recorder.v
Transports.v
Serving.v
DialogCache.v
Routing.v
RoutingProps.v
DigestAuth.v
ReferTarget.v
Registering.v
Playback.v
DtmfBridge.v
AudioPipeline.v
Listening.v
OwnReInvite.v
