(* ===== verification/Prelude.v ===== *)
(** * Verification of diago

    diago is a SIP and media library: it answers and places calls, negotiates
    their audio by SDP, secures it with SDES or DTLS-SRTP, reads and writes RTP
    and RTCP, and bridges, mixes and records the audio. This development models
    its own logic as executable functions and transition systems, translated from
    the Go sources under [src/], and proves what the rest of the program relies
    on.

    ** How the model is made

    Integers are [Z] with the wrap-around of their width written out ([u16],
    [u32], [i64], ...); [float64] is binary64 of the Standard Library's
    [SpecFloat]; durations and times are counts of nanoseconds; strings are Rocq
    strings and byte slices lists of integers; Go maps are stdpp's [gmap] and
    [gset]; structs are records with an update notation [r <| f := v |>]. A
    method that changes its receiver returns the receiver after it; an error is a
    value of [error]; an index out of range, where the code can reach one, is a
    result of its own. A loop over a socket, a channel or a timer is a recursive
    function over what these give, in order, or a step relation. Code outside the
    repository (pion's RTP, SRTP, DTLS and ICE, the sipgo client, codecs) is an
    argument of the definitions that call it, with what is assumed of it stated
    as hypotheses of the theorems. Where goroutines share state under a lock, the
    stretches that run under the lock are the definitions and a step relation
    interleaves them.

    Recursion is structural throughout: on the packets, lines, attempts or rounds
    given. Where a source loop has no such argument the model takes a bound and
    proves it enough: the playout loops of the jitter buffer run for the size of
    its ring and [jitter_loops_end] shows that they stop within it; [digits_of]
    and the like take the number of digits of their argument; the silence and the
    interleaving of a recording take as many turns as there are samples and bytes,
    which [stereo_recording] shows to be enough, and a buffered write two
    ([bufio_loop_ends]).

    ** The parts and their files

    A name below is a file and the module in it. Some files hold
    their theorems as a second module: [SessionTimerProps], [BridgeMixProps],
    [RegisterProps], [RegisteringProps], [RecorderProps], [PlaybackProps],
    [OwnReInviteProps] and [AudioPipelineProps] are in the file named without the
    ending, [ClientProps] is in [ClientLaws] and [ClientEarly] in [ClientTheorems].

    - Foundations: this file (integers, time, errors, records, bytes), [Rtp] (the
      packet), [GoStrings] (strings and strconv), [Float64], [NetIP] (net.IP),
      [Base64], [Sha], [Hex].
    - Jitter buffer, [media/rtp_jitter_buffer.go]: [JitterBuffer] is the code,
      [JitterInv] the invariant of its ring and free list, [JitterSpec] the
      abstract buffer it implements, [JitterOrder] and [JitterCount] the order and
      the accounting of packets, [JitterProps] runs of its goroutines,
      [JitterTheorems] the theorems.
    - Sequence numbers, [media/rtp_sequencer.go]: [Sequencer].
    - SDP, [media/sdp/]: [Sdp] reads bodies line by line into sections and
      descriptions; [SdpProps].
    - Codecs, [media/codec.go]: [Codec].
    - Media session, [media/media_session.go]: [MediaSdp] holds the pure helpers
      and the writing of bodies, [MediaSdpProps] that they are read back;
      [MediaSession] the state with [LocalSDP] and [RemoteSDP];
      [MediaNegotiation] and [MediaExchange] an offer/answer exchange of two
      sessions; [MediaLifecycle] sockets, forks, finalization and SRTP keying;
      [MediaIO] the packets in and out, with [media/rtp_parse.go];
      [MediaSecurity] and [MediaPorts] their theorems.
    - DTLS and ICE transports: [Sha] and [Hex] are the hash functions and the
      notation of fingerprints; [Dtls] is [media/dtls.go], with [DtlsProps] on
      certificates and [DtlsConn] on the lent socket; [IceMux] is
      [media/ice_mux.go], over an interface to the packet buffer, with
      [IceMuxProps]; [IceAgent] is [media/ice.go].
    - Packets, [media/rtp_packet_writer.go] and [rtp_packet_reader.go]:
      [PacketIO], over [MediaIO]'s packets. DTMF, [media/rtp_dtmf*.go]: [Dtmf],
      over [PacketIO]'s writer.
    - RTP session, [media/rtp_session.go]: [RtpSession] over the reads of
      [MediaIO], with the sequence numbers of [Sequencer]; [RtpSessionProps].
    - Session timers, [session_timers.go] and their use in
      [dialog_server_session.go]: [SessionTimer]; [SessionTimerProps] has the
      timed loop.
    - Conference bridge, [bridge.go] and [audio/utils.go]: [Pcm] mixes samples,
      [MixLoop] is the mix loop, [MixProps] what participants hear; [BridgeMix]
      the joins, leaves and media updates of concurrent goroutines,
      [BridgeMixProps] their invariant.
    - Registration, [register_transaction.go], [register_keepalive.go] and
      [Diago.Register]: [Register] has the refreshes, [RegisterProps] their theorems;
      [Registering] the first REGISTER, with its contact behind a NAT, and the last,
      with [RegisteringProps].
    - REFER and its subscription, in [dialog_media.go] and [dialog_session.go]:
      [Refer] has the attempts, their timers, the routing of NOTIFYs and the steps
      of the caller; [ReferProps].

    - Re-INVITEs, in [dialog_media.go] with the handlers of both session files:
      [ReInvite] has the answer of the peer's re-INVITE against a BYE, the
      retransmission of its 2xx until the ACK, and the turns both sides take;
      [ReInviteProps]. [OwnReInvite] has ours, of [ReInvite], [Hold], [Unhold] and the
      session refresh: each is a run of the steps of [MediaUpdate] with the requests,
      waits and the hangup between them, and any steps of the others.

    - Answering a call, in [dialog_server_session.go]: [Method] is the monad the
      methods of a dialog are written in, with its weakest preconditions; [Answer]
      has early media, the answers and the ACK, over an interface to the media
      session; [AnswerLaws] what that interface promises, [AnswerProps] the
      specification of each method, [AnswerTheorems] the theorems.

    - Media updates, in [dialog_media.go] and [reInviteMediaOnce] of both session
      files: [MediaUpdate] has the forks of the media session that re-INVITEs
      negotiate on, their installation, [Close], and a step relation of the
      stretches under the lock; [MediaUpdateLaws] what they rely on in a session,
      [MediaUpdateInv] the invariant, [MediaUpdateSpecs] that each method keeps it,
      [MediaUpdateTheorems] the theorems.

    - Two-party bridge, [bridge.go] and [media/rtp_utils.go]: [TwoParty] has the
      joins, the copy loop and the proxy with its end; [TwoPartyProps].

    - Placing a call, [dialog_client_session.go] with [Invite] and [InviteBridge] of
      [diago.go]: [Client] has the offer, early media, the answer, the ACK and the
      end of a call that fails; [ClientLaws] and [ClientProps] the specifications of
      its methods, [ClientTheorems] and [ClientEarly] the theorems.

    - The agent, [diago.go]: [Transports] loads transports and chooses one for a
      dialog; [Serving] brings their listeners up; [DialogCache] is the interface of
      [dialog_cache.go] with its map; [Routing] has the handlers of requests and the
      phases of a call, over that interface, [RoutingProps] their theorems.
      [DigestAuth] is [digest_auth.go]. [ReferTarget] answers the REFER of a peer
      ([dialog_session.go]) and reports on the call it asks for.

    - Audio: [RealTime] is [media/rtp_realtime_reader.go]; [PcmCoding] the coders of
      [audio/pcm_encoder.go] and [audio/g711.go]; [Wav] the writers of WAV files;
      [Recorder] the monitors and the stereo recording of [audio/monitor_pcm.go],
      with [RecorderProps].

    - Audio of a dialog: [Playback] is [playback.go], [playback_control.go] and
      [playback_url.go], over [PcmCoding]'s coders, with [PlaybackProps];
      [AudioPipeline] the readers and writers a dialog gives out, with their
      interceptors ([dialog_media.go]), and [AudioPipelineProps]; [DtmfBridge] the
      readers and writers of digits and the proxy of [bridge.go] that passes digits
      on, over [Dtmf]; [Listening] the loops that read a call until a deadline, and
      the ringtone ([audio_ringtone.go]).

    ** What the theorems show

    - Jitter buffer: every run keeps the ring consistent and bounded
      ([jitter_run_safe]); filing and playout implement an abstract buffer
      ([handleSlot_refines], [decide_playout_refines]), but for packets dropped where
      the window reaches past the wrap and its size does not divide 2^16; packets come out in order
      ([jitter_in_order]) and each is accounted for once ([jitter_accounting]);
      its loops end ([jitter_loops_end]) and a closed buffer stays closed
      ([jitter_done_final]); a reordering wider than the ring loses packets
      ([jitter_wrap_drops]).
    - Negotiation: two sessions that exchange offer and answer agree
      ([offer_answer_converges]); what is accepted is usable
      ([accepted_is_usable]), but that an offer of DTLS is accepted by a session that
      does not do it, without keys ([dtls_offer_unkeyed]); bodies are read back as written
      ([generated_body_reads_back], [media_line_roundtrip],
      [sections_partition_body]); fingerprint sets are canonical
      ([fingerprint_set_canonical]); a repeated rtpmap panics
      ([duplicate_rtpmap_panics]).
    - Security: no plaintext once a handshake is being finalized
      ([within_never_plaintext]), except after a failed [FinalizeContext]
      ([failed_finalize_sends_plaintext]); both ends derive the same keys
      ([dtls_ends_agree]); a renegotiation continues or replaces the association
      as a whole ([association_continued_or_replaced]); forged datagrams are
      skipped ([read_takes_first_authentic]); the source lock admits one source
      ([source_lock_admits_one_source]).
    - Transports: the handshake accepts exactly the certificates announced in the
      SDP ([announced_certificates_accepted]); the socket lent to it is used as
      it should be ([lent_socket_safe]); the streams of the ICE mux are
      independent ([mux_streams]); the socket of an agent is closed once
      ([socket_closed_once]).
    - Ports: the first free pair of the range is taken ([port_range_first_fit]),
      and the search does not wrap ([port_range_never_wraps]).
    - Media: packets sent form one stream ([writer_implements_stream]); payloads
      are reassembled ([reads_reassemble_payload]); digits are heard
      ([dialled_digits_heard]), but not back to back
      ([back_to_back_digit_lost]); sequence numbers are extended correctly
      ([extended_sequence_is_highest]); reports count what was received
      ([reception_report_counts]).
    - Conferences: everyone hears the others ([mix_hears_others]), unless the sum of
      them overflows ([loud_pair_garbled]); the mix goes on
      without whoever leaves ([mix_loop_survives]); the bridge stays consistent
      under every interleaving ([conference_stays_consistent]), no operation waits
      for good ([conference_no_lost_wakeup]), and operations return what they did
      ([join_and_leave_results]).
    - Timers: a silent peer is hung up on and no other
      ([silent_peer_expires], [timer_calls_due]); both sides of a refresh agree
      ([refresh_sides_agree]); intervals respect both minima
      ([negotiate_respects_floors]). A registration is refreshed in time
      ([refresh_before_expiry], by computation for grants of up to an hour) and an
      outage is escalated when the binding has lapsed
      ([outage_escalates_when_lapsed]).

    - REFER: every observation has an end, and success is a final 2xx NOTIFY
      ([refer_outcome]); a subscription ends in bounded time
      ([refer_subscription_bounded]); a NOTIFY goes to the REFER it reports on, but
      for one race ([refer_notify_routing], [refer_late_notify_misrouted]);
      attempts stay consistent under every interleaving
      ([refer_attempts_consistent]).

    - Re-INVITEs: each is answered once ([reinvites_answered_once]), no 2xx follows
      the 200 to a BYE ([no_ok_after_bye]), a 2xx is retransmitted until its ACK or
      for 64 T1 ([ok_retransmitted_until_ack]), and one re-INVITE is in progress at
      a time ([one_reinvite_at_a_time]). One of ours is retried and acknowledged, hangs
      up or installs its fork, by steps of the media updates ([own_reinvite]), and a
      refresh sends two at most ([refresh_ends]).

    - Answers: a call that is answered has one 2xx, settled media and the timer
      negotiated ([answer_settles_call]); one that fails has sent at most one final
      response ([answer_fails_once]); the 200 repeats the 183
      ([early_media_answered]); the ACK to an offer of ours decides the call
      ([late_answer_settled]); an answer after a failed [ProgressMedia] has no media
      ([answer_after_failed_progress]).

    - Media updates: the call runs on open sockets until it is closed
      ([media_runs_on_open_sockets]), closing leaves none open
      ([no_socket_left_open]) when the monitors stop and start and the deadlines carry
      over, and returns the port last ([port_returned_last]); an offer is installed,
      left to be keyed, or refused ([offer_installed_or_refused]).

    - Two-party bridge: a proxy is started between two answered dialogs of one codec
      ([join_starts_sound_proxy]); it passes frames on in order
      ([copy_forwards_in_order]), ends when it has a reason to ([proxy_ends]) and
      then leaves both dialogs to their owner ([proxy_returns_dialogs]).

    - Placed calls: a call that is returned is set up on the session of its offer
      ([call_placed]); one that fails leaves nothing open ([failed_call_left]); early
      media stands until the ACK ([early_answer_stands]).

    - The agent: a request reaches the dialog it names or is refused once, whatever
      runs beside it ([requests_reach_their_dialog]); a call runs its course and is
      closed once ([calls_run_their_course]); a new INVITE is refused for exactly
      what it lacks ([new_invite_settled]); [ready] is called once, when all
      listeners are up, and clients send from ports we hold
      ([ready_after_listeners]); a request is authorized exactly when it answers a
      live challenge ([authorized_iff_answered]); who asks for a transfer is told
      what came of it ([transfer_outcome_told]).

    - Audio: what the realtime reader hands on is in real time
      ([delivered_in_real_time]) and a stream in pace is delivered whole
      ([paced_stream_delivered]); what a direction of a recording has taken is the
      beginning of its timeline, all of it until a file fails ([direction_prefix]), with
      silence for gaps ([silence_fills_gap]), and a recording that is closed has the two
      timelines as its channels ([stereo_recording]), for buffers of a size that is a
      multiple of four ([odd_half_panics], [no_half_never_ends]); a WAV file reads back
      ([wav_reads_back]).

    - Audio of a dialog: a read through any interceptors that are used once takes one
      packet, whatever media updates came ([pipeline_reads]), and no deadline outlives what set it
      ([listening_clears_deadline], [ringtone_stops]); what is played is heard as its
      control has it ([played_as_controlled]), also when it is fetched by ranges
      ([ranges_played_as_whole]); digits cross a bridge ([digits_cross_bridge]).

    - Registrations: all requests after the first answer have the contact the NAT
      gave, and the last removes the binding ([registration_life]).

    ** Not modelled

    Of the dialogs ([dialog_media.go], [dialog_server_session.go],
    [dialog_client_session.go]) the accessors, writing through interceptors, and the
    re-INVITE without a description that only tests send ([reInviteKeepAlive]). Opus
    and the reading of WAV files are the libraries', and ringtones are sines in
    floating point. The headers of requests are sipgo's. Logs, examples and test
    helpers have no logic of their own. *)
From stdpp Require Export base numbers list gmap strings.
From Stdlib Require Export ZArith Lia.

Ltac Zify.zify_post_hook ::= Z.div_mod_to_equations.

Declare Scope go_scope.
Delimit Scope go_scope with go.
#[global] Open Scope Z_scope.

(** ** Machine integers

    Go integers are [Z]; every arithmetic result that can leave its width goes
    through the conversion of that width. *)

Definition u8 (z : Z) : Z := z mod 2 ^ 8.
Definition u16 (z : Z) : Z := z mod 2 ^ 16.
Definition u32 (z : Z) : Z := z mod 2 ^ 32.
Definition u64 (z : Z) : Z := z mod 2 ^ 64.
Definition i16 (z : Z) : Z := (z + 2 ^ 15) mod 2 ^ 16 - 2 ^ 15.
Definition i32 (z : Z) : Z := (z + 2 ^ 31) mod 2 ^ 32 - 2 ^ 31.
Definition i64 (z : Z) : Z := (z + 2 ^ 63) mod 2 ^ 64 - 2 ^ 63.
#[global] Arguments u8 : simpl never.
#[global] Arguments u16 : simpl never.
#[global] Arguments u32 : simpl never.
#[global] Arguments u64 : simpl never.
#[global] Arguments i16 : simpl never.
#[global] Arguments i32 : simpl never.
#[global] Arguments i64 : simpl never.

Ltac wrap_unfold := unfold u8, u16, u32, u64, i16, i32, i64 in *.
Ltac wrap_lia := wrap_unfold; lia.

(** ** Hint databases

    [go] holds the resolution hints of the development, [gorw] the rewriting
    equations its [autorewrite] calls use. *)

Create HintDb go discriminated.
Create Rewrite HintDb gorw.

Lemma u16_range z : 0 <= u16 z < 2 ^ 16.
Proof. wrap_lia. Qed.
Lemma u32_range z : 0 <= u32 z < 2 ^ 32.
Proof. wrap_lia. Qed.
Lemma u64_range z : 0 <= u64 z < 2 ^ 64.
Proof. wrap_lia. Qed.
Lemma u16_small z : 0 <= z < 2 ^ 16 -> u16 z = z.
Proof. wrap_lia. Qed.
Lemma u32_small z : 0 <= z < 2 ^ 32 -> u32 z = z.
Proof. wrap_lia. Qed.
Lemma u64_small z : 0 <= z < 2 ^ 64 -> u64 z = z.
Proof. wrap_lia. Qed.
Lemma i64_small z : - 2 ^ 63 <= z < 2 ^ 63 -> i64 z = z.
Proof. wrap_lia. Qed.
Lemma i32_small z : - 2 ^ 31 <= z < 2 ^ 31 -> i32 z = z.
Proof. wrap_lia. Qed.
Lemma i16_u16 z : i16 (u16 z) = i16 z.
Proof. wrap_lia. Qed.
#[export] Hint Resolve u16_range u32_range u64_range : go.

(** ** Durations and times

    A [time.Duration] is an int64 count of nanoseconds. A [time.Time] is the
    count of nanoseconds since Go's zero time, so the zero value is [0] and
    every reading of the clock is positive. *)

Definition Nanosecond : Z := 1.
Definition Millisecond : Z := 1000000.
Definition Second : Z := 1000000000.
Definition Minute : Z := 60 * Second.
Definition time_zero : Z := 0.
Definition IsZero (t : Z) : bool := t =? time_zero.

(** ** Errors

    An error value: a leaf with its text, or one that wraps others
    ([fmt.Errorf] with [%w], [errors.Join]). [errors_Is] is [errors.Is] on the
    package-level sentinels, which are leaves. *)

Inductive error :=
| ErrNew (msg : string)
| ErrWrap (msg : string) (e : error)
| ErrJoin (e1 e2 : error).

#[global] Instance error_eq_dec : EqDecision error.
Proof. solve_decision. Defined.

Fixpoint errors_Is (e target : error) : bool :=
  bool_decide (e = target) ||
  match e with
  | ErrNew _ => false
  | ErrWrap _ e' => errors_Is e' target
  | ErrJoin e1 e2 => errors_Is e1 target || errors_Is e2 target
  end.

Definition io_EOF : error := ErrNew "EOF".
Definition io_ErrShortBuffer : error := ErrNew "short buffer".
Definition io_ErrShortWrite : error := ErrNew "short write".
Definition io_ErrClosedPipe : error := ErrNew "io: read/write on closed pipe".
Definition net_ErrClosed : error := ErrNew "use of closed network connection".

(** ** Record field update

    [r <| f := v |>] is [r] with its field [f] set to [v]. A record declares its
    field-wise identity with an [Eta] instance; the update of each field is
    derived from it. *)

Class Eta (R : Type) := eta : R -> R.
Class FieldUpdate {R T : Type} (proj : R -> T) := field_update : (T -> T) -> R -> R.
#[global] Arguments field_update {R T} proj {_} _ _ /.

Ltac derive_update :=
  lazymatch goal with
  | |- @FieldUpdate ?R ?T ?proj =>
    let i := constr:(_ : Eta R) in
    let e := eval hnf in (i : R -> R) in
    lazymatch eval pattern proj in e with
    | ?F _ => exact (fun f r => F (fun x => f (proj x)) r)
    end
  end.
#[export] Hint Extern 1 (FieldUpdate _) => derive_update : typeclass_instances.

#[export] Set Warnings "-postfix-notation-not-level-1,-clear-no-such-hyp".
Notation "r <| p := v |>" := (field_update p (fun _ => v) r)
  (at level 12, left associativity, p at level 99, v at level 200,
   format "r  <| p  :=  v |>") : go_scope.
#[global] Open Scope go_scope.

(** ** Bytes *)

Abbreviation bytes := (list Z).
Definition len {A} (l : list A) : Z := Z.of_nat (length l).
#[global] Arguments len {_} _ : simpl never.

Lemma len_nonneg {A} (l : list A) : 0 <= len l.
Proof. unfold len. lia. Qed.
Lemma len_app {A} (l k : list A) : len (l ++ k) = len l + len k.
Proof. unfold len. rewrite length_app. lia. Qed.
Lemma len_cons {A} (x : A) l : len (x :: l) = 1 + len l.
Proof. unfold len. simpl. lia. Qed.
#[export] Hint Resolve len_nonneg : go.
#[export] Hint Rewrite @len_app @len_cons : gorw.
