(* ===== verification/Rtp.v ===== *)
(** * RTP packets

    The fields of pion's [rtp.Header] and [rtp.Packet] that diago reads and
    writes. The codec of that library, [Packet.Unmarshal] and
    [Header.MarshalSize], is not part of the repository and is a parameter of
    the definitions that call it. *)
From S2P Require Import Prelude.

Record rtp_header := {
  Version : Z;
  Padding : bool;
  Marker : bool;
  PayloadType : Z;
  SequenceNumber : Z;
  Timestamp : Z;
  SSRC : Z;
  PaddingSize : Z }.

Record rtp_packet := {
  Header : rtp_header;
  Payload : bytes }.

#[export] Instance eta_rtp_header : Eta rtp_header := fun h =>
  {| Version := Version h; Padding := Padding h; Marker := Marker h;
     PayloadType := PayloadType h; SequenceNumber := SequenceNumber h;
     Timestamp := Timestamp h; SSRC := SSRC h; PaddingSize := PaddingSize h |}.
#[export] Instance eta_rtp_packet : Eta rtp_packet := fun p =>
  {| Header := Header p; Payload := Payload p |}.

Definition rtp_header_zero : rtp_header :=
  {| Version := 0; Padding := false; Marker := false; PayloadType := 0;
     SequenceNumber := 0; Timestamp := 0; SSRC := 0; PaddingSize := 0 |}.
Definition rtp_packet_zero : rtp_packet := {| Header := rtp_header_zero; Payload := [] |}.
#[export] Instance rtp_packet_inhabited : Inhabited rtp_packet := populate rtp_packet_zero.

(** The header fields fit their widths, as they do in a packet parsed off the
    wire. *)
Definition rtp_header_wf (h : rtp_header) : Prop :=
  0 <= SequenceNumber h < 2 ^ 16 /\ 0 <= Timestamp h < 2 ^ 32 /\
  0 <= SSRC h < 2 ^ 32 /\ 0 <= PayloadType h < 2 ^ 7.
