(* ===== verification/GoStrings.v ===== *)
(** * Strings and numbers as text

    The functions of Go's [strings] and [strconv] packages that the code calls.
    A Go string is its bytes. The functions that Go defines over Unicode
    ([TrimSpace], [Fields], [ToLower], [EqualFold]) are modelled on the ASCII
    range, which is all the header and SDP grammars of the code admit: a byte
    above 127 is neither a space nor a letter here. *)
From Stdlib Require Export Ascii.
From S2P Require Import Prelude.

#[global] Open Scope Z_scope.
#[global] Arguments String.append : simpl nomatch.

Module GoStrings.

(** ** Searching and splitting *)

Definition HasPrefix (s pref : string) : bool := String.prefix pref s.

(** [s] without its first [n] bytes. *)
Fixpoint str_drop (n : nat) (s : string) : string :=
  match n, s with
  | S n, String _ s => str_drop n s
  | _, _ => s
  end.

Definition CutPrefix (s pref : string) : string * bool :=
  if HasPrefix s pref then (str_drop (String.length pref) s, true) else (s, false).
Definition TrimPrefix (s pref : string) : string := (CutPrefix s pref).1.

(** [strings.Cut] at a one byte separator. *)
Fixpoint Cut (s : string) (sep : ascii) : string * string * bool :=
  match s with
  | EmptyString => (EmptyString, EmptyString, false)
  | String c s' =>
    if Ascii.eqb c sep then (EmptyString, s', true)
    else let '(a, b, found) := Cut s' sep in (String c a, b, found)
  end.

(** [strings.Split] at a one byte separator: one more part than separators. *)
Fixpoint Split (s : string) (sep : ascii) : list string :=
  match s with
  | EmptyString => [EmptyString]
  | String c s' =>
    if Ascii.eqb c sep then EmptyString :: Split s' sep
    else match Split s' sep with
         | [] => [String c EmptyString]
         | p :: ps => String c p :: ps
         end
  end.

(** [s] up to the first byte that is one of [chars] ([strings.IndexAny]). *)
Fixpoint until_any (s : string) (chars : list ascii) : string :=
  match s with
  | EmptyString => EmptyString
  | String c s' => if existsb (Ascii.eqb c) chars then EmptyString else String c (until_any s' chars)
  end.

Fixpoint Join (l : list string) (sep : string) : string :=
  match l with
  | [] => EmptyString
  | [s] => s
  | s :: l => s +:+ sep +:+ Join l sep
  end.

(** ** White space *)

Definition is_space (c : ascii) : bool :=
  let n := nat_of_ascii c in (n =? 32)%nat || ((9 <=? n)%nat && (n <=? 13)%nat).

Fixpoint trim_left (s : string) : string :=
  match s with
  | String c s' => if is_space c then trim_left s' else s
  | EmptyString => EmptyString
  end.

Fixpoint trim_right (s : string) : string :=
  match s with
  | EmptyString => EmptyString
  | String c s' =>
    match trim_right s' with
    | EmptyString => if is_space c then EmptyString else String c EmptyString
    | t => String c t
    end
  end.

Definition TrimSpace (s : string) : string := trim_right (trim_left s).

(** The maximal runs of bytes that are not white space. [cur] is the run being
    read, if any. *)
Fixpoint fields_from (s : string) (cur : string) : list string :=
  match s with
  | EmptyString => if String.eqb cur EmptyString then [] else [cur]
  | String c s' =>
    if is_space c then
      if String.eqb cur EmptyString then fields_from s' EmptyString
      else cur :: fields_from s' EmptyString
    else fields_from s' (cur +:+ String c EmptyString)
  end.
Definition Fields (s : string) : list string := fields_from s EmptyString.

(** ** Case *)

Definition lower (c : ascii) : ascii :=
  let n := nat_of_ascii c in
  if (65 <=? n)%nat && (n <=? 90)%nat then ascii_of_nat (n + 32) else c.
Definition upper (c : ascii) : ascii :=
  let n := nat_of_ascii c in
  if (97 <=? n)%nat && (n <=? 122)%nat then ascii_of_nat (n - 32) else c.

Fixpoint str_map (f : ascii -> ascii) (s : string) : string :=
  match s with
  | EmptyString => EmptyString
  | String c s => String (f c) (str_map f s)
  end.
Definition ToLower : string -> string := str_map lower.
Definition ToUpper : string -> string := str_map upper.
Definition EqualFold (s t : string) : bool := String.eqb (ToLower s) (ToLower t).

(** ** Numbers *)

Inductive num_error := ErrSyntax | ErrRange.
Definition num_error_value (e : num_error) : error :=
  match e with
  | ErrSyntax => ErrNew "invalid syntax"
  | ErrRange => ErrNew "value out of range"
  end.

Definition digit (c : ascii) : option Z :=
  let n := Z.of_nat (nat_of_ascii c) in
  if (48 <=? n) && (n <=? 57) then Some (n - 48) else None.

(** The loop of [strconv.ParseUint] in base 10: it stops at the first byte that
    is not a digit, or where the value leaves the range. *)
Fixpoint parse_digits (maxv : Z) (s : string) (n : Z) : Z * option num_error :=
  match s with
  | EmptyString => (n, None)
  | String c s' =>
    match digit c with
    | None => (0, Some ErrSyntax)
    | Some d =>
      let n1 := n * 10 + d in
      if maxv <? n1 then (maxv, Some ErrRange) else parse_digits maxv s' n1
    end
  end.

Definition ParseUint (s : string) (bits : Z) : Z * option num_error :=
  if String.eqb s EmptyString then (0, Some ErrSyntax) else parse_digits (2 ^ bits - 1) s 0.

(** [strconv.Atoi]: [ParseInt] in base 10 at 64 bits. A value out of range is
    returned clamped, with the error. *)
Definition Atoi (s : string) : Z * option num_error :=
  let '(neg, digits) :=
    match s with
    | String "-" s' => (true, s')
    | String "+" s' => (false, s')
    | _ => (false, s)
    end in
  match ParseUint digits 64 with
  | (_, Some ErrSyntax) => (0, Some ErrSyntax)
  | (un, e) =>
    if negb neg && (2 ^ 63 <=? un) then (2 ^ 63 - 1, Some ErrRange)
    else if neg && (2 ^ 63 <? un) then (- 2 ^ 63, Some ErrRange)
    else (if neg then - un else un, e)
  end.

Definition digit_char (d : Z) : ascii := ascii_of_nat (Z.to_nat (48 + d)).

(** The decimal digits of [n], in front of [acc]. *)
Fixpoint digits_of (fuel : nat) (n : Z) (acc : string) : string :=
  match fuel with
  | O => acc
  | S fuel =>
    let acc := String (digit_char (n mod 10)) acc in
    if n <? 10 then acc else digits_of fuel (n / 10) acc
  end.

Definition FormatUint (n : Z) : string := digits_of (S (Z.to_nat (Z.log2 n))) n EmptyString.
Definition Itoa (n : Z) : string :=
  if n <? 0 then String "-" (FormatUint (- n)) else FormatUint n.
#[global] Arguments FormatUint : simpl never.
#[global] Arguments Itoa : simpl never.

(** ** Lemmas *)

Lemma str_nil_l s : EmptyString +:+ s = s.
Proof. done. Qed.
Lemma str_nil_r s : s +:+ EmptyString = s.
Proof. induction s as [|c s IH]; simpl; [done|by rewrite IH]. Qed.
Lemma app_assoc_str (a b c : string) : a +:+ (b +:+ c) = (a +:+ b) +:+ c.
Proof. induction a as [|x a IH]; simpl; [done|by rewrite IH]. Qed.
Lemma app_cons_str c (a b : string) : String c a +:+ b = String c (a +:+ b).
Proof. done. Qed.

(** The bytes of a string, and predicates on all of them. *)
Fixpoint str_forall (P : ascii -> bool) (s : string) : bool :=
  match s with
  | EmptyString => true
  | String c s => P c && str_forall P s
  end.

Lemma str_forall_app P a b : str_forall P (a +:+ b) = str_forall P a && str_forall P b.
Proof. induction a as [|c a IH]; simpl; [done|]. by rewrite IH, andb_assoc. Qed.

Lemma str_forall_impl (P Q : ascii -> bool) s : (forall c, P c = true -> Q c = true) ->
  str_forall P s = true -> str_forall Q s = true.
Proof.
  intros H. induction s as [|c s IH]; simpl; [done|]. rewrite !andb_true_iff. naive_solver.
Qed.

Definition not_char (sep c : ascii) : bool := negb (Ascii.eqb c sep).

Lemma Cut_no s sep : str_forall (not_char sep) s = true -> Cut s sep = (s, EmptyString, false).
Proof.
  induction s as [|c s IH]; simpl; [done|]. unfold not_char at 1. destruct (Ascii.eqb c sep); [done|].
  intros H. by rewrite IH.
Qed.

Lemma Cut_app s t sep : str_forall (not_char sep) s = true ->
  Cut (s +:+ String sep t) sep = (s, t, true).
Proof.
  induction s as [|c s IH]; simpl; [by rewrite Ascii.eqb_refl|].
  unfold not_char at 1. destruct (Ascii.eqb c sep); [done|]. intros H. by rewrite IH.
Qed.

Lemma Split_no s sep : str_forall (not_char sep) s = true -> Split s sep = [s].
Proof.
  induction s as [|c s IH]; simpl; [done|]. unfold not_char at 1. destruct (Ascii.eqb c sep); [done|].
  intros H. by rewrite IH.
Qed.

Lemma Split_app s t sep : str_forall (not_char sep) s = true ->
  Split (s +:+ String sep t) sep = s :: Split t sep.
Proof.
  induction s as [|c s IH]; simpl; [by rewrite Ascii.eqb_refl|].
  unfold not_char at 1. destruct (Ascii.eqb c sep); [done|]. intros H. by rewrite IH.
Qed.

Definition no_space (s : string) : bool := str_forall (fun c => negb (is_space c)) s.

(** A word: not empty and without white space. *)
Definition word (s : string) : bool := negb (String.eqb s EmptyString) && no_space s.

Lemma fields_word s t cur : no_space s = true ->
  fields_from (s +:+ t) cur = fields_from t (cur +:+ s).
Proof.
  unfold no_space. revert cur. induction s as [|c s IH]; intros cur; simpl; [by rewrite str_nil_r|].
  destruct (is_space c); [done|]. simpl. intros H. rewrite IH by done. by rewrite <- app_assoc_str.
Qed.

Lemma eqb_app_empty a b : String.eqb b EmptyString = false -> String.eqb (a +:+ b) EmptyString = false.
Proof. by destruct a, b. Qed.

Lemma Fields_join ws : forallb word ws = true -> Fields (Join ws " ") = ws.
Proof.
  unfold Fields. induction ws as [|w ws IH]; [done|]. intros H. apply andb_true_iff in H as [Hw Hws].
  apply andb_true_iff in Hw as [Hne Hsp]. apply negb_true_iff in Hne. destruct ws as [|v ws].
  - change (Join [w] " ") with w. rewrite <- (str_nil_r w) at 1.
    rewrite (fields_word w EmptyString EmptyString) by done. simpl. by rewrite Hne.
  - change (Join (w :: v :: ws) " ") with (w +:+ String " " (Join (v :: ws) " ")).
    rewrite fields_word by done. rewrite str_nil_l. cbn [fields_from].
    change (is_space " ") with true. cbn [andb]. rewrite Hne. by rewrite IH.
Qed.

Lemma Join_nonempty w ws sep : String.eqb w EmptyString = false -> String.eqb (Join (w :: ws) sep) EmptyString = false.
Proof. intros H. destruct ws as [|v ws]; [done|]. by destruct w. Qed.

(** *** Decimal numbers *)

Lemma digit_char_spec d : 0 <= d < 10 -> digit (digit_char d) = Some d.
Proof.
  intros Hd. unfold digit, digit_char.
  rewrite nat_ascii_embedding by lia. rewrite Z2Nat.id by lia.
  replace (48 <=? 48 + d) with true by lia. replace (48 + d <=? 57) with true by lia.
  simpl. f_equal. lia.
Qed.

Lemma digit_range c d : digit c = Some d -> 0 <= d < 10.
Proof. unfold digit. cbv zeta. case_match eqn:E; [|done]. intros [= <-]. lia. Qed.

Lemma parse_digits_of fuel maxv n acc : 0 <= n <= maxv -> n < 2 ^ Z.of_nat fuel -> (0 < fuel)%nat ->
  parse_digits maxv (digits_of fuel n acc) 0 = parse_digits maxv acc n.
Proof.
  revert n acc. induction fuel as [|fuel IH]; intros n acc Hn Hf H0; [lia|]. cbn [digits_of].
  destruct (n <? 10) eqn:E.
  - cbn [parse_digits]. rewrite digit_char_spec by lia. replace (0 * 10 + n mod 10) with n by lia.
    by replace (maxv <? n) with false by lia.
  - assert (n < 2 * 2 ^ Z.of_nat fuel).
    { replace (Z.of_nat (S fuel)) with (Z.of_nat fuel + 1) in Hf by lia. rewrite Z.pow_add_r in Hf; lia. }
    assert (fuel <> 0%nat) by (intros ->; simpl in *; lia).
    rewrite IH by lia. cbn [parse_digits]. rewrite digit_char_spec by lia.
    replace (n / 10 * 10 + n mod 10) with n by lia. by replace (maxv <? n) with false by lia.
Qed.

Lemma digits_of_app fuel n acc : digits_of fuel n acc = digits_of fuel n EmptyString +:+ acc.
Proof.
  revert n acc. induction fuel as [|fuel IH]; intros n acc; cbn [digits_of]; [done|].
  destruct (n <? 10); [done|]. rewrite IH, (IH (n / 10) (String _ EmptyString)).
  by rewrite <- app_assoc_str.
Qed.

Lemma FormatUint_fuel n : 0 <= n -> n < 2 ^ Z.of_nat (S (Z.to_nat (Z.log2 n))).
Proof.
  intros Hn. pose proof (Z.log2_nonneg n). replace (Z.of_nat _) with (Z.succ (Z.log2 n)) by lia.
  destruct (Z.eq_dec n 0) as [->|]; [done|]. apply Z.log2_spec. lia.
Qed.

Lemma digits_of_nonempty fuel n acc : (0 < fuel)%nat -> String.eqb (digits_of fuel n acc) EmptyString = false.
Proof.
  revert n acc. induction fuel as [|[|fuel] IH]; intros n acc H; [lia| |].
  - simpl. by case_match.
  - cbn [digits_of] in *. destruct (n <? 10); [done|]. apply IH. lia.
Qed.

Lemma FormatUint_nonempty n : String.eqb (FormatUint n) EmptyString = false.
Proof. apply digits_of_nonempty. lia. Qed.

Lemma ParseUint_FormatUint n bits : 0 <= n < 2 ^ bits -> ParseUint (FormatUint n) bits = (n, None).
Proof.
  intros Hn. unfold ParseUint. rewrite FormatUint_nonempty. unfold FormatUint.
  rewrite parse_digits_of; [done|lia|apply FormatUint_fuel; lia|lia].
Qed.

Definition is_digit (c : ascii) : bool := match digit c with Some _ => true | None => false end.

Lemma digits_of_digits fuel n acc : 0 <= n ->
  str_forall is_digit acc = true -> str_forall is_digit (digits_of fuel n acc) = true.
Proof.
  revert n acc. induction fuel as [|fuel IH]; intros n acc Hn Ha; cbn [digits_of]; [done|].
  assert (is_digit (digit_char (n mod 10)) = true) as Hd.
  { unfold is_digit. by rewrite digit_char_spec by lia. }
  destruct (n <? 10); [|apply IH; [lia|]]; simpl; by rewrite Hd.
Qed.

Lemma FormatUint_digits n : 0 <= n -> str_forall is_digit (FormatUint n) = true.
Proof. intros. by apply digits_of_digits. Qed.

Lemma digit_facts c : is_digit c = true ->
  is_space c = false /\ Ascii.eqb c "/" = false /\ Ascii.eqb c "-" = false /\ Ascii.eqb c "+" = false /\
  Ascii.eqb c "=" = false /\ Ascii.eqb c ";" = false.
Proof. destruct c as [[] [] [] [] [] [] [] []]; by vm_compute. Qed.

Lemma digits_not_char c s : is_digit c = false -> str_forall is_digit s = true -> str_forall (not_char c) s = true.
Proof.
  intros Hc. apply str_forall_impl. intros b Hb. unfold not_char.
  destruct (Ascii.eqb_spec b c); [|done]. congruence.
Qed.

Lemma digits_no_space s : str_forall is_digit s = true -> no_space s = true.
Proof. apply str_forall_impl. intros b Hb. by destruct (digit_facts b Hb) as [-> _]. Qed.

Lemma Atoi_FormatUint n : 0 <= n < 2 ^ 63 -> Atoi (FormatUint n) = (n, None).
Proof.
  intros Hn. unfold Atoi. pose proof (FormatUint_digits n ltac:(lia)) as Hd.
  pose proof (ParseUint_FormatUint n 64 ltac:(lia)) as HP.
  destruct (FormatUint n) as [|c s] eqn:E; [by rewrite <- E in *; pose proof (FormatUint_nonempty n); rewrite E in *|].
  simpl in Hd. apply andb_true_iff in Hd as [Hc _].
  apply digit_facts in Hc as (_ & _ & Hm & Hp & _).
  replace (match String c s with String "-" s' => (true, s') | String "+" s' => (false, s') | _ => (false, String c s) end)
    with (false, String c s).
  - rewrite HP. simpl. by replace (2 ^ 63 <=? n) with false by lia.
  - destruct c as [[] [] [] [] [] [] [] []]; done.
Qed.

Lemma Itoa_nonneg n : 0 <= n -> Itoa n = FormatUint n.
Proof. intros. unfold Itoa. by replace (n <? 0) with false by lia. Qed.

Lemma Atoi_Itoa n : 0 <= n < 2 ^ 63 -> Atoi (Itoa n) = (n, None).
Proof. intros. rewrite Itoa_nonneg by lia. by apply Atoi_FormatUint. Qed.

Lemma Itoa_word n : 0 <= n -> word (Itoa n) = true.
Proof.
  intros. rewrite Itoa_nonneg by done. unfold word. rewrite FormatUint_nonempty.
  by rewrite digits_no_space by (by apply FormatUint_digits).
Qed.

(** *** Case and trimming *)

Lemma EqualFold_refl s : EqualFold s s = true.
Proof. apply String.eqb_refl. Qed.
Lemma EqualFold_sym s t : EqualFold s t = EqualFold t s.
Proof. apply String.eqb_sym. Qed.
Lemma EqualFold_trans s t u : EqualFold s t = true -> EqualFold t u = true -> EqualFold s u = true.
Proof. unfold EqualFold. rewrite !String.eqb_eq. congruence. Qed.

Lemma trim_left_no s : no_space s = true -> trim_left s = s.
Proof. destruct s as [|c s]; [done|]. unfold no_space. simpl. by destruct (is_space c). Qed.

Lemma trim_right_no s : no_space s = true -> trim_right s = s.
Proof.
  unfold no_space. induction s as [|c s IH]; simpl; [done|].
  destruct (is_space c) eqn:E; [done|]. simpl. intros H. rewrite IH by done. by destruct s.
Qed.

Lemma TrimSpace_no s : no_space s = true -> TrimSpace s = s.
Proof. intros H. unfold TrimSpace. by rewrite trim_left_no, trim_right_no. Qed.

Lemma HasPrefix_app p s : HasPrefix (p +:+ s) p = true.
Proof.
  unfold HasPrefix. induction p as [|c p IH]; simpl; [by destruct s|]. by destruct (Ascii.ascii_dec c c).
Qed.

Lemma str_drop_app p s : str_drop (String.length p) (p +:+ s) = s.
Proof. induction p as [|c p IH]; simpl; [by destruct s|done]. Qed.

Lemma CutPrefix_app p s : CutPrefix (p +:+ s) p = (s, true).
Proof. unfold CutPrefix. by rewrite HasPrefix_app, str_drop_app. Qed.

End GoStrings.
