(* ===== verification/Sha.v ===== *)
(** * The SHA hash functions

    The hash functions of Go's [crypto/sha1], [crypto/sha256] and
    [crypto/sha512] that an a=fingerprint names (FIPS 180-4), on lists of bytes.
    SHA-256 and SHA-224 take the upper halves of the constants of SHA-512, and
    SHA-224 starts from the lower halves of those of SHA-384. *)
From S2P Require Import Prelude.

Module Sha.

(** ** Words of [w] bits *)

Definition wadd (w x y : Z) : Z := (x + y) mod 2 ^ w.
Definition rotr (w x : Z) (n : Z) : Z := Z.lor (Z.shiftr x n) (Z.shiftl x (w - n) mod 2 ^ w).
Definition rotl (w x : Z) (n : Z) : Z := rotr w x (w - n).
Definition word_not (w x : Z) : Z := Z.lxor x (2 ^ w - 1).
Definition Ch (w x y z : Z) : Z := Z.lxor (Z.land x y) (Z.land (word_not w x) z).
Definition Maj (x y z : Z) : Z := Z.lxor (Z.lxor (Z.land x y) (Z.land x z)) (Z.land y z).
Definition Parity (x y z : Z) : Z := Z.lxor (Z.lxor x y) z.

(** The big-endian word of some bytes, and the [n] bytes of a word. *)
Definition be_word (b : bytes) : Z := fold_left (fun acc x => acc * 256 + x) b 0.
Fixpoint be_bytes (n : nat) (x : Z) : bytes :=
  match n with
  | O => []
  | S n => u8 (x / 256 ^ Z.of_nat n) :: be_bytes n x
  end.

(** ** Padding and blocks

    A one bit, zeros, and the length in bits in [2 * w] bits, to a whole number
    of blocks of sixteen words. *)
Definition padding (w : Z) (b : bytes) : bytes :=
  let block := 2 * w in
  let lenlen := w / 4 in
  let zeros := (block - (len b + 1 + lenlen) mod block) mod block in
  b ++ [128] ++ repeat 0 (Z.to_nat zeros) ++ be_bytes (Z.to_nat lenlen) (8 * len b).

(** The pieces of [n] elements of a list; [fuel] is at least their number. *)
Fixpoint chunks {A} (fuel : nat) (n : nat) (l : list A) : list (list A) :=
  match fuel, l with
  | S fuel, _ :: _ => take n l :: chunks fuel n (drop n l)
  | _, _ => []
  end.
Definition blocks (w : Z) (b : bytes) : list (list Z) :=
  (fun blk => be_word <$> chunks (length blk) (Z.to_nat (w / 8)) blk) <$>
  chunks (length b) (Z.to_nat (2 * w)) b.

(** ** SHA-2 *)

(** The rotation amounts and round constants of one word size. *)
Record sha2 := {
  s_w : Z;
  s_S0 : Z * Z * Z;
  s_S1 : Z * Z * Z;
  s_s0 : Z * Z * Z;
  s_s1 : Z * Z * Z;
  s_K : list Z }.

Definition big (p : sha2) (r : Z * Z * Z) (x : Z) : Z :=
  let '(a, b, c) := r in Z.lxor (Z.lxor (rotr (s_w p) x a) (rotr (s_w p) x b)) (rotr (s_w p) x c).
Definition small (p : sha2) (r : Z * Z * Z) (x : Z) : Z :=
  let '(a, b, c) := r in Z.lxor (Z.lxor (rotr (s_w p) x a) (rotr (s_w p) x b)) (Z.shiftr x c).

(** The next word of the message schedule, from the last sixteen, oldest first. *)
Definition schedule_word (p : sha2) (win : list Z) : Z :=
  let W i := nth i win 0 in
  let w := s_w p in
  wadd w (wadd w (small p (s_s1 p) (W 14%nat)) (W 9%nat)) (wadd w (small p (s_s0 p) (W 1%nat)) (W 0%nat)).

Definition round2 (p : sha2) (k wt : Z) (st : list Z) : list Z :=
  match st with
  | [a; b; c; d; e; f; g; h] =>
    let w := s_w p in
    let t1 := wadd w (wadd w (wadd w h (big p (s_S1 p) e)) (wadd w (Ch w e f g) k)) wt in
    let t2 := wadd w (big p (s_S0 p) a) (Maj a b c) in
    [wadd w t1 t2; a; b; c; wadd w d t1; e; f; g]
  | _ => st
  end.

Fixpoint rounds2 (p : sha2) (ks : list Z) (win : list Z) (st : list Z) : list Z :=
  match ks, win with
  | k :: ks, wt :: rest => rounds2 p ks (rest ++ [schedule_word p win]) (round2 p k wt st)
  | _, _ => st
  end.

Definition block2 (p : sha2) (H : list Z) (blk : list Z) : list Z :=
  zip_with (wadd (s_w p)) H (rounds2 p (s_K p) blk H).

Definition Sum2 (p : sha2) (H : list Z) (size : nat) (b : bytes) : bytes :=
  take size (flat_map (be_bytes (Z.to_nat (s_w p / 8)))
                      (fold_left (block2 p) (blocks (s_w p) (padding (s_w p) b)) H)).

(** The cube roots of the first eighty primes, and the square roots of the
    first sixteen: 64 bits of their fractional parts. *)
Definition K512 : list Z :=
  [0x428a2f98d728ae22; 0x7137449123ef65cd; 0xb5c0fbcfec4d3b2f; 0xe9b5dba58189dbbc;
   0x3956c25bf348b538; 0x59f111f1b605d019; 0x923f82a4af194f9b; 0xab1c5ed5da6d8118;
   0xd807aa98a3030242; 0x12835b0145706fbe; 0x243185be4ee4b28c; 0x550c7dc3d5ffb4e2;
   0x72be5d74f27b896f; 0x80deb1fe3b1696b1; 0x9bdc06a725c71235; 0xc19bf174cf692694;
   0xe49b69c19ef14ad2; 0xefbe4786384f25e3; 0x0fc19dc68b8cd5b5; 0x240ca1cc77ac9c65;
   0x2de92c6f592b0275; 0x4a7484aa6ea6e483; 0x5cb0a9dcbd41fbd4; 0x76f988da831153b5;
   0x983e5152ee66dfab; 0xa831c66d2db43210; 0xb00327c898fb213f; 0xbf597fc7beef0ee4;
   0xc6e00bf33da88fc2; 0xd5a79147930aa725; 0x06ca6351e003826f; 0x142929670a0e6e70;
   0x27b70a8546d22ffc; 0x2e1b21385c26c926; 0x4d2c6dfc5ac42aed; 0x53380d139d95b3df;
   0x650a73548baf63de; 0x766a0abb3c77b2a8; 0x81c2c92e47edaee6; 0x92722c851482353b;
   0xa2bfe8a14cf10364; 0xa81a664bbc423001; 0xc24b8b70d0f89791; 0xc76c51a30654be30;
   0xd192e819d6ef5218; 0xd69906245565a910; 0xf40e35855771202a; 0x106aa07032bbd1b8;
   0x19a4c116b8d2d0c8; 0x1e376c085141ab53; 0x2748774cdf8eeb99; 0x34b0bcb5e19b48a8;
   0x391c0cb3c5c95a63; 0x4ed8aa4ae3418acb; 0x5b9cca4f7763e373; 0x682e6ff3d6b2b8a3;
   0x748f82ee5defb2fc; 0x78a5636f43172f60; 0x84c87814a1f0ab72; 0x8cc702081a6439ec;
   0x90befffa23631e28; 0xa4506cebde82bde9; 0xbef9a3f7b2c67915; 0xc67178f2e372532b;
   0xca273eceea26619c; 0xd186b8c721c0c207; 0xeada7dd6cde0eb1e; 0xf57d4f7fee6ed178;
   0x06f067aa72176fba; 0x0a637dc5a2c898a6; 0x113f9804bef90dae; 0x1b710b35131c471b;
   0x28db77f523047d84; 0x32caab7b40c72493; 0x3c9ebe0a15c9bebc; 0x431d67c49c100d4c;
   0x4cc5d4becb3e42b6; 0x597f299cfc657e2a; 0x5fcb6fab3ad6faec; 0x6c44198c4a475817].
Definition H512 : list Z :=
  [0x6a09e667f3bcc908; 0xbb67ae8584caa73b; 0x3c6ef372fe94f82b; 0xa54ff53a5f1d36f1;
   0x510e527fade682d1; 0x9b05688c2b3e6c1f; 0x1f83d9abfb41bd6b; 0x5be0cd19137e2179].
Definition H384 : list Z :=
  [0xcbbb9d5dc1059ed8; 0x629a292a367cd507; 0x9159015a3070dd17; 0x152fecd8f70e5939;
   0x67332667ffc00b31; 0x8eb44a8768581511; 0xdb0c2e0d64f98fa7; 0x47b5481dbefa4fa4].

Definition upper32 (x : Z) : Z := x / 2 ^ 32.
Definition lower32 (x : Z) : Z := u32 x.

Definition p512 : sha2 :=
  {| s_w := 64; s_S0 := (28, 34, 39); s_S1 := (14, 18, 41); s_s0 := (1, 8, 7); s_s1 := (19, 61, 6); s_K := K512 |}.
Definition p256 : sha2 :=
  {| s_w := 32; s_S0 := (2, 13, 22); s_S1 := (6, 11, 25); s_s0 := (7, 18, 3); s_s1 := (17, 19, 10);
     s_K := upper32 <$> take 64 K512 |}.

Definition sha256 : bytes -> bytes := Sum2 p256 (upper32 <$> H512) 32.
Definition sha224 : bytes -> bytes := Sum2 p256 (lower32 <$> H384) 28.
Definition sha512 : bytes -> bytes := Sum2 p512 H512 64.
Definition sha384 : bytes -> bytes := Sum2 p512 H384 48.

(** ** SHA-1 *)

Definition round1 (t : nat) (wt : Z) (st : list Z) : list Z :=
  match st with
  | [a; b; c; d; e] =>
    let '(f, k) :=
      if (t <? 20)%nat then (Ch 32 b c d, 0x5a827999)
      else if (t <? 40)%nat then (Parity b c d, 0x6ed9eba1)
      else if (t <? 60)%nat then (Maj b c d, 0x8f1bbcdc)
      else (Parity b c d, 0xca62c1d6) in
    [wadd 32 (wadd 32 (rotl 32 a 5) f) (wadd 32 (wadd 32 e k) wt); a; rotl 32 b 30; c; d]
  | _ => st
  end.

Fixpoint rounds1 (ts : list nat) (win : list Z) (st : list Z) : list Z :=
  match ts, win with
  | t :: ts, wt :: rest =>
    let W i := nth i win 0 in
    let next := rotl 32 (Z.lxor (Z.lxor (W 13%nat) (W 8%nat)) (Z.lxor (W 2%nat) (W 0%nat))) 1 in
    rounds1 ts (rest ++ [next]) (round1 t wt st)
  | _, _ => st
  end.

Definition block1 (H : list Z) (blk : list Z) : list Z :=
  zip_with (wadd 32) H (rounds1 (seq 0 80) blk H).

Definition H1 : list Z := [0x67452301; 0xefcdab89; 0x98badcfe; 0x10325476; 0xc3d2e1f0].
Definition sha1 (b : bytes) : bytes :=
  flat_map (be_bytes 4) (fold_left block1 (blocks 32 (padding 32 b)) H1).

(** ** Sums are bytes *)

Definition is_bytes (b : bytes) : Prop := Forall (fun x => 0 <= x < 256) b.

Lemma be_bytes_range n x : is_bytes (be_bytes n x).
Proof. induction n; constructor; [wrap_lia|done]. Qed.

Lemma flat_map_range n l : is_bytes (flat_map (be_bytes n) l).
Proof.
  induction l as [|x l IH]; [constructor|]. cbn [flat_map]. apply Forall_app. split; [apply be_bytes_range|done].
Qed.

Lemma Sum2_range p H size b : is_bytes (Sum2 p H size b).
Proof. apply Forall_take, flat_map_range. Qed.

Lemma sha1_range b : is_bytes (sha1 b).
Proof. apply flat_map_range. Qed.

(** ** Their lengths *)

Lemma be_bytes_length n x : length (be_bytes n x) = n.
Proof. induction n; simpl; [done|]. by f_equal. Qed.

Lemma flat_map_length n l : length (flat_map (be_bytes n) l) = (length l * n)%nat.
Proof. induction l as [|x l IH]; [done|]. cbn [flat_map length]. rewrite length_app, be_bytes_length, IH. lia. Qed.

Lemma fold_length {A} (f : list Z -> A -> list Z) n l st :
  (forall st x, length st = n -> length (f st x) = n) -> length st = n -> length (fold_left f l st) = n.
Proof. intros Hf. revert st. induction l as [|x l IH]; [done|]. intros st Hst. by apply IH, Hf. Qed.

Lemma rounds2_length p ks win st : length (rounds2 p ks win st) = length st.
Proof.
  revert win st. induction ks as [|k ks IH]; [done|]. intros [|wt win] st; [done|]. cbn [rounds2]. rewrite IH.
  by destruct st as [|? [|? [|? [|? [|? [|? [|? [|? [|? ?]]]]]]]]].
Qed.

Lemma rounds1_length ts win st : length (rounds1 ts win st) = length st.
Proof.
  revert win st. induction ts as [|t ts IH]; [done|]. intros [|wt win] st; [done|]. cbn [rounds1]. rewrite IH.
  destruct st as [|? [|? [|? [|? [|? [|? ?]]]]]]; try done. cbn [round1]. by repeat case_match.
Qed.

Lemma Sum2_length p H size b : (size <= length H * Z.to_nat (s_w p / 8))%nat -> length (Sum2 p H size b) = size.
Proof.
  intros Hs. unfold Sum2. rewrite length_take, flat_map_length.
  rewrite (fold_length _ (length H)); [lia| |done].
  intros st blk Hst. unfold block2. rewrite length_zip_with, rounds2_length. lia.
Qed.

Lemma sha1_length b : length (sha1 b) = 20%nat.
Proof.
  unfold sha1. rewrite flat_map_length, (fold_length _ 5); [done| |done].
  intros st blk Hst. unfold block1. rewrite length_zip_with, rounds1_length. lia.
Qed.

(** ** The vectors of FIPS 180-4 for abc, and two blocks of SHA-256 *)

Definition abc : bytes := [97; 98; 99].
Example sha1_abc : sha1 abc = be_bytes 20 0xa9993e364706816aba3e25717850c26c9cd0d89d.
Proof. vm_compute. reflexivity. Qed.
Example sha224_abc : sha224 abc = be_bytes 28 0x23097d223405d8228642a477bda255b32aadbce4bda0b3f7e36c9da7.
Proof. vm_compute. reflexivity. Qed.
Example sha256_abc : sha256 abc = be_bytes 32 0xba7816bf8f01cfea414140de5dae2223b00361a396177a9cb410ff61f20015ad.
Proof. vm_compute. reflexivity. Qed.
Example sha384_abc : sha384 abc = be_bytes 48
  0xcb00753f45a35e8bb5a03d699ac65007272c32ab0eded1631a8b605a43ff5bed8086072ba1e7cc2358baeca134c825a7.
Proof. vm_compute. reflexivity. Qed.
Example sha512_abc : sha512 abc = be_bytes 64
  0xddaf35a193617abacc417349ae20413112e6fa4e89a97ea20a9eeee64b55d39a2192992a274fc1a836ba3c23a3feebbd454d4423643ce80e2a9ac94fa54ca49f.
Proof. vm_compute. reflexivity. Qed.
Example sha256_two_blocks : sha256 (repeat 97 100) = be_bytes 32 0x2816597888e4a0d3a36b82b83316ab32680eb8f00f8cd3b904d681246d285a0e.
Proof. vm_compute. reflexivity. Qed.

End Sha.
