(* ===== verification/Hex.v ===== *)
(** * Hexadecimal text

    Go's [encoding/hex.EncodeToString], and the octet notation of an
    a=fingerprint: two hexadecimal digits each, separated by colons, whose
    reader takes either case. *)
From S2P Require Import Prelude GoStrings Sha.
Import GoStrings Sha.

Module Hex.

(** The digit of a value below sixteen, in lower case. *)
Definition hex_char (d : Z) : ascii := ascii_of_nat (Z.to_nat (if d <? 10 then 48 + d else 87 + d)).

Fixpoint EncodeToString (b : bytes) : string :=
  match b with
  | [] => EmptyString
  | x :: b => String (hex_char (x / 16)) (String (hex_char (x mod 16)) (EncodeToString b))
  end.

(** The value of a digit in either case. *)
Definition hex_value (c : ascii) : option Z :=
  let n := Z.of_nat (nat_of_ascii c) in
  if (48 <=? n) && (n <=? 57) then Some (n - 48)
  else if (65 <=? n) && (n <=? 70) then Some (n - 55)
  else if (97 <=? n) && (n <=? 102) then Some (n - 87)
  else None.

(** The octets a text denotes: at least one, two digits each, with a colon
    between. *)
Fixpoint octets (s : string) : option bytes :=
  match s with
  | String a (String b s) =>
    match hex_value a, hex_value b with
    | Some x, Some y =>
      match s with
      | EmptyString => Some [16 * x + y]
      | String c s => if Ascii.eqb c ":" then cons (16 * x + y) <$> octets s else None
      end
    | _, _ => None
    end
  | _ => None
  end.

(** [hexStr] cut in pairs with a colon before every pair but the first. *)
Fixpoint colons (first : bool) (hexStr : string) : string :=
  match hexStr with
  | String a (String b s) =>
    let pair := String a (String b (colons false s)) in
    if first then pair else String ":" pair
  | _ => EmptyString
  end.

(** ** Digits *)

(** What holds of each of the 256 characters holds of all. *)
Lemma all_ascii (P : ascii -> Prop) `{!forall c, Decision (P c)} :
  forallb (fun n => bool_decide (P (ascii_of_nat n))) (seq 0 256) = true -> forall c, P c.
Proof.
  rewrite forallb_forall. intros HP c. rewrite <- (ascii_nat_embedding c).
  eapply bool_decide_eq_true_1. apply HP, in_seq. pose proof (nat_ascii_bounded c). lia.
Qed.

Lemma hex_char_value d : 0 <= d < 16 -> hex_value (hex_char d) = Some d.
Proof.
  intros Hd. assert (d ∈ seqZ 0 16) as Hin by (apply elem_of_seqZ; lia). clear Hd. revert d Hin.
  apply Forall_forall, (bool_decide_unpack _). by vm_compute.
Qed.

Lemma hex_value_range c d : hex_value c = Some d -> 0 <= d < 16.
Proof. unfold hex_value. repeat case_match; intros [= <-]; rewrite ?andb_true_iff in *; lia. Qed.

Lemma hex_value_lower c : hex_value (lower c) = hex_value c.
Proof. revert c. apply (all_ascii _). by vm_compute. Qed.
Lemma hex_value_upper c : hex_value (upper c) = hex_value c.
Proof. revert c. apply (all_ascii _). by vm_compute. Qed.
Lemma colon_lower c : Ascii.eqb (lower c) ":" = Ascii.eqb c ":".
Proof. revert c. apply (all_ascii _). by vm_compute. Qed.

(** A digit is known by its value, up to case. *)
Definition known_by_value (c : ascii) : Prop := match hex_value c with Some d => lower c = hex_char d | None => True end.
Instance known_by_value_dec c : Decision (known_by_value c).
Proof. unfold known_by_value. destruct (hex_value c); apply _. Defined.
Lemma hex_value_char c d : hex_value c = Some d -> lower c = hex_char d.
Proof.
  assert (known_by_value c) as H by (revert c; apply (all_ascii known_by_value); by vm_compute).
  unfold known_by_value in H. intros E. by rewrite E in H.
Qed.

(** ** Texts *)

Lemma pair_ind (P : string -> Prop) : P EmptyString -> (forall a, P (String a EmptyString)) ->
  (forall a b s, P s -> P (String a (String b s))) -> forall s, P s.
Proof.
  intros H0 H1 H2 s. enough (P s /\ forall a, P (String a s)) by tauto.
  induction s as [|c s [IH1 IH2]]; split; auto.
Qed.

Lemma octets_lower s : octets (ToLower s) = octets s.
Proof.
  remember (String.length s) as n. revert s Heqn. induction (lt_wf n) as [n _ IH]. intros s ->.
  destruct s as [|a [|b [|c s]]]; cbn [ToLower str_map octets]; rewrite ?hex_value_lower; try done.
  destruct (hex_value a), (hex_value b); try done. rewrite colon_lower. destruct (Ascii.eqb c ":"); [|done].
  f_equal. change (str_map lower s) with (ToLower s). eapply IH; [|done]. simpl. lia.
Qed.

Lemma octets_not_nil s : octets s <> Some [].
Proof.
  destruct s as [|a [|b [|c s]]]; cbn [octets]; try done; destruct (hex_value a), (hex_value b); try done.
  destruct (Ascii.eqb c ":"); [|done]. by destruct (octets s).
Qed.

(** Two texts of the same octets differ in case alone. *)
Lemma octets_inj s t b : octets s = Some b -> octets t = Some b -> ToLower s = ToLower t.
Proof.
  revert s t. induction b as [|x b IH]; intros s t Hs Ht.
  - by apply octets_not_nil in Hs.
  - assert (forall s, octets s = Some (x :: b) -> exists p q r, s = String p (String q r) /\
      lower p = hex_char (x / 16) /\ lower q = hex_char (x mod 16) /\
      (r = EmptyString /\ b = [] \/ exists r', r = String ":" r' /\ octets r' = Some b)) as Hinv.
    { intros u Hu. destruct u as [|p [|q r]]; cbn [octets] in Hu; try done. exists p, q, r.
      destruct (hex_value p) as [v|] eqn:Ep; [|done]. destruct (hex_value q) as [w|] eqn:Eq; [|done].
      pose proof (hex_value_range _ _ Ep). pose proof (hex_value_range _ _ Eq).
      assert (16 * v + w = x /\ (r = EmptyString /\ b = [] \/ exists r', r = String ":" r' /\ octets r' = Some b)) as [<- Hr].
      { destruct r as [|c r]; [simplify_eq; auto|]. destruct (Ascii.eqb_spec c ":") as [->|]; [|done].
        destruct (octets r) eqn:Er; [|done]. simplify_eq/=. eauto 10. }
      split; [done|]. rewrite (hex_value_char _ _ Ep), (hex_value_char _ _ Eq).
      split; [f_equal; lia|]. split; [f_equal; lia|done]. }
    destruct (Hinv s Hs) as (p & q & r & -> & Hp & Hq & Hr), (Hinv t Ht) as (p' & q' & r' & -> & Hp' & Hq' & Hr').
    cbn [ToLower str_map]. rewrite Hp, Hq, Hp', Hq'. do 2 f_equal.
    destruct Hr as [[-> Eb]|(u & -> & Hu)], Hr' as [[-> Eb']|(u' & -> & Hu')]; [done|subst b..|].
    + by apply octets_not_nil in Hu'.
    + by apply octets_not_nil in Hu.
    + cbn [ToLower str_map]. f_equal. by apply IH.
Qed.

Lemma ToUpper_cons c s : ToUpper (String c s) = String (upper c) (ToUpper s).
Proof. done. Qed.

(** The upper case octets of some bytes denote them. *)
Lemma octets_colons b : is_bytes b -> b <> [] -> octets (colons true (ToUpper (EncodeToString b))) = Some b.
Proof.
  induction 1 as [|x b Hx Hb IH]; [done|]. intros _.
  assert (0 <= x / 16 < 16 /\ 0 <= x mod 16 < 16) as [H1 H2] by lia.
  cbn [EncodeToString]. rewrite !ToUpper_cons. cbn [colons octets].
  rewrite !hex_value_upper, !hex_char_value by done.
  replace (16 * (x / 16) + x mod 16) with x by lia.
  destruct b as [|y b]; [done|]. cbn [EncodeToString] in *. rewrite !ToUpper_cons in *. cbn [colons] in *.
  rewrite Ascii.eqb_refl, IH by done. done.
Qed.

(** A text is case-insensitively the octets of some bytes exactly when it
    denotes them. *)
Lemma EqualFold_octets s b : is_bytes b -> b <> [] ->
  EqualFold s (colons true (ToUpper (EncodeToString b))) = true <-> octets s = Some b.
Proof.
  intros Hb Hn. unfold EqualFold. rewrite String.eqb_eq. split; intros H.
  - rewrite <- octets_lower, H, octets_lower. by apply octets_colons.
  - eapply octets_inj; [done|]. by apply octets_colons.
Qed.

Lemma EncodeToString_length b : String.length (EncodeToString b) = (2 * length b)%nat.
Proof. induction b as [|x b IH]; [done|]. cbn [EncodeToString String.length length]. lia. Qed.

Lemma colons_no_space first s : no_space s = true -> no_space (colons first s) = true.
Proof.
  revert first. induction s as [|a|a b s IH] using pair_ind; intros first H; [done..|].
  unfold no_space in *. cbn [str_forall] in H. rewrite !andb_true_iff in H. destruct H as (Ha & Hb & Hs).
  destruct first; cbn [colons str_forall]; rewrite Ha, Hb, IH by done; done.
Qed.

Lemma digit_no_space c : is_Some (hex_value c) -> is_space c = false.
Proof. revert c. apply (all_ascii (fun c => is_Some (hex_value c) -> is_space c = false)). by vm_compute. Qed.

Lemma EncodeToString_no_space b : is_bytes b -> no_space (ToUpper (EncodeToString b)) = true.
Proof.
  induction 1 as [|x b Hx Hb IH]; [done|]. cbn [EncodeToString]. rewrite !ToUpper_cons.
  unfold no_space in *. cbn [str_forall]. rewrite IH.
  rewrite !digit_no_space by (rewrite hex_value_upper, hex_char_value by lia; eauto). done.
Qed.

(** The fingerprint of some bytes: a word that denotes them. *)
Definition fingerprint_of (b : bytes) : string := colons true (ToUpper (EncodeToString b)).
Lemma fingerprint_of_word b : is_bytes b -> b <> [] -> word (fingerprint_of b) = true.
Proof.
  intros Hb Hn. unfold word, fingerprint_of. rewrite colons_no_space by by apply EncodeToString_no_space.
  by destruct b as [|x b].
Qed.

End Hex.
