(* ===== verification/Float64.v ===== *)
(** * Double-precision arithmetic

    Go's [float64] is IEEE 754 binary64, here the executable specification of the
    Standard Library ([SpecFloat]) at precision 53 and maximal exponent 1024. The
    operations are the ones the code uses: conversion from and to integers,
    addition, multiplication and division, comparison, and the seconds of a
    [time.Duration]. *)
From Stdlib Require Import SpecFloat.
From S2P Require Import Prelude.

Module Float64.

Definition float64 : Type := spec_float.

Definition prec : Z := 53.
Definition emax : Z := 1024.

Definition of_Z (z : Z) : float64 := binary_normalize prec emax z 0 false.
Definition fadd : float64 -> float64 -> float64 := SFadd prec emax.
Definition fsub : float64 -> float64 -> float64 := SFsub prec emax.
Definition fmul : float64 -> float64 -> float64 := SFmul prec emax.
Definition fdiv : float64 -> float64 -> float64 := SFdiv prec emax.
Definition fltb : float64 -> float64 -> bool := SFltb.

(** Conversion to an integer truncates toward zero; the integer conversions the
    code makes are of finite values inside their range. *)
Definition to_Z (f : float64) : Z :=
  match f with
  | S754_finite s m e =>
    let n := if 0 <=? e then Z.pos m * 2 ^ e else Z.pos m / 2 ^ (- e) in
    if s then - n else n
  | _ => 0
  end.

(** [time.Duration.Seconds]. *)
Definition Seconds (d : Z) : float64 :=
  fadd (of_Z (Z.quot d Second)) (fdiv (of_Z (Z.rem d Second)) (of_Z 1000000000)).

Example Seconds_20ms_8000 : to_Z (fmul (of_Z 8000) (Seconds (20 * Millisecond))) = 160.
Proof. vm_compute. reflexivity. Qed.

End Float64.
