(* ===== verification/JitterBuffer.v ===== *)
(** * The RTP jitter buffer: state and operations

    [media/rtp_jitter_buffer.go]. The record [RTPJitterBuffer] is the struct of
    that name, one definition per method. [time.Now()] is an argument [now];
    the mutex-protected region of one [ReadRTP] iteration is [ReadRTP_iter], the
    read loop is split at the points where it takes and releases the mutex
    ([readLoop_take], [readLoop_file]), and [jstep] interleaves them. The
    [JITTER_DEBUG] diagnostics and their [lastArrival*] fields, which no
    decision reads, are left out. *)
From S2P Require Import Prelude Rtp.

Module Jitter.

Definition defaultRTPJitterBufferDelayPackets : Z := 20.
Definition defaultRTPJitterBufferMaxPackets : Z := 40.
Definition maxLearnedRTPPacketDuration : Z := 200 * Millisecond.

Record RTPJitterBufferOptions := {
  DelayPackets : Z;
  MaxPackets : Z;
  ClockRate : Z }.

(** The counters are [atomic.Uint64], [lastSequenceNumber] an [atomic.Uint32]. *)
Record rtpJitterBufferStats := {
  packetsRead : Z;
  packetsReleased : Z;
  packetsLost : Z;
  packetsLate : Z;
  packetsDuplicate : Z;
  packetsDropped : Z;
  ssrcResets : Z;
  underruns : Z;
  lastSequenceNumber : Z }.

#[export] Instance eta_stats : Eta rtpJitterBufferStats := fun s =>
  {| packetsRead := packetsRead s; packetsReleased := packetsReleased s;
     packetsLost := packetsLost s; packetsLate := packetsLate s;
     packetsDuplicate := packetsDuplicate s; packetsDropped := packetsDropped s;
     ssrcResets := ssrcResets s; underruns := underruns s;
     lastSequenceNumber := lastSequenceNumber s |}.

Definition stats_zero : rtpJitterBufferStats :=
  {| packetsRead := 0; packetsReleased := 0; packetsLost := 0; packetsLate := 0;
     packetsDuplicate := 0; packetsDropped := 0; ssrcResets := 0; underruns := 0;
     lastSequenceNumber := 0 |}.

(** [slot_raw] holds the bytes [raw[:n]] of the last packet read into the slot. *)
Record rtpJitterSlot := {
  slot_raw : bytes;
  slot_packet : rtp_packet;
  slot_n : Z;
  slot_ssrc : Z;
  slot_seq : Z }.

Definition slot_zero : rtpJitterSlot :=
  {| slot_raw := []; slot_packet := rtp_packet_zero; slot_n := 0; slot_ssrc := 0; slot_seq := 0 |}.
#[export] Instance slot_inhabited : Inhabited rtpJitterSlot := populate slot_zero.

(** An entry of [sequence] is [None] where the code stores -1. [reader] names
    the upstream reader in place, so that two of them can be compared. [done] and
    [readLoopDone] say whether the channels are closed, [started] whether
    [startOnce] has run, [arrived] whether a wake is pending. *)
Record RTPJitterBuffer := {
  reader : nat;
  packetDuration : Z;
  clockRate : Z;
  delayPackets : Z;
  maxPackets : Z;
  slots : list rtpJitterSlot;
  freeSlots : list nat;
  sequence : list (option nat);
  queued : Z;
  ssrc : Z;
  ssrcSet : bool;
  expectedSeq : Z;
  expectedSet : bool;
  startAt : Z;
  releaseAt : Z;
  playout : bool;
  resync : bool;
  upstreamEnded : bool;
  readErr : option error;
  stepSeq : Z;
  stepTimestamp : Z;
  stepPayloadType : Z;
  stepSet : bool;
  pendingStep : Z;
  arrived : bool;
  done : bool;
  started : bool;
  readLoopDone : bool;
  stats : rtpJitterBufferStats }.

#[export] Instance eta_jitter : Eta RTPJitterBuffer := fun j =>
  {| reader := reader j; packetDuration := packetDuration j; clockRate := clockRate j;
     delayPackets := delayPackets j; maxPackets := maxPackets j; slots := slots j;
     freeSlots := freeSlots j; sequence := sequence j; queued := queued j;
     ssrc := ssrc j; ssrcSet := ssrcSet j; expectedSeq := expectedSeq j;
     expectedSet := expectedSet j; startAt := startAt j; releaseAt := releaseAt j;
     playout := playout j; resync := resync j; upstreamEnded := upstreamEnded j;
     readErr := readErr j; stepSeq := stepSeq j; stepTimestamp := stepTimestamp j;
     stepPayloadType := stepPayloadType j; stepSet := stepSet j;
     pendingStep := pendingStep j; arrived := arrived j; done := done j;
     started := started j; readLoopDone := readLoopDone j; stats := stats j |}.

(** A counter is bumped with [count]: an atomic add of one, modulo 2^64. *)
Definition count (c : rtpJitterBufferStats -> Z) `{!FieldUpdate c} (j : RTPJitterBuffer) : RTPJitterBuffer :=
  j <| stats := field_update c (fun n => u64 (n + 1)) (stats j) |>.

(** [NewRTPJitterBuffer]; [None] is its panic on a packet duration that is not
    positive. *)
Definition NewRTPJitterBuffer (r : nat) (dur : Z) (opts : RTPJitterBufferOptions) : option RTPJitterBuffer :=
  if dur <=? 0 then None else
  let delay := if DelayPackets opts <=? 0 then defaultRTPJitterBufferDelayPackets else DelayPackets opts in
  let maxp := if MaxPackets opts <=? 0 then defaultRTPJitterBufferMaxPackets else MaxPackets opts in
  let maxp := if maxp <? delay then delay else maxp in
  let delay := if maxp <? delay then maxp else delay in
  let slotCount := Z.to_nat (maxp + 1) in
  Some {| reader := r; packetDuration := dur; clockRate := ClockRate opts;
          delayPackets := delay; maxPackets := maxp;
          slots := replicate slotCount slot_zero;
          freeSlots := seq 0 slotCount;
          sequence := replicate (Z.to_nat maxp) None;
          queued := 0; ssrc := 0; ssrcSet := false; expectedSeq := 0; expectedSet := false;
          startAt := time_zero; releaseAt := time_zero; playout := false; resync := false;
          upstreamEnded := false; readErr := None; stepSeq := 0; stepTimestamp := 0;
          stepPayloadType := 0; stepSet := false; pendingStep := 0; arrived := false;
          done := false; started := false; readLoopDone := false; stats := stats_zero |}.

(** The position of a sequence number in [sequence], and the entry there. *)
Definition position (j : RTPJitterBuffer) (seq : Z) : nat := Z.to_nat (Z.rem seq (maxPackets j)).
Definition entry (j : RTPJitterBuffer) (seq : Z) : option nat :=
  from_option (fun o => o) None (sequence j !! position j seq).
Definition slot_at (j : RTPJitterBuffer) (i : nat) : rtpJitterSlot := slots j !!! i.

Definition freeSlot (i : nat) (j : RTPJitterBuffer) : RTPJitterBuffer :=
  j <| freeSlots := freeSlots j ++ [i] |>.

(** [clearSequence]: the loop frees the occupied entries in order. *)
Definition occupied (l : list (option nat)) : list nat := omap (fun o => o) l.
Definition clearSequence (j : RTPJitterBuffer) : RTPJitterBuffer :=
  j <| freeSlots := freeSlots j ++ occupied (sequence j) |>
    <| sequence := (fun _ => None) <$> sequence j |>
    <| queued := 0 |>.

(** When buffering that starts at [now] ends at the latest. *)
Definition bufferingEnd (now : Z) (j : RTPJitterBuffer) : Z :=
  now + i64 (delayPackets j * packetDuration j).

Definition resetStream (now : Z) (s : Z) (seq : Z) (j : RTPJitterBuffer) : RTPJitterBuffer :=
  let j := clearSequence j in
  j <| ssrc := s |> <| ssrcSet := true |>
    <| expectedSeq := seq |> <| expectedSet := true |>
    <| playout := false |> <| resync := false |>
    <| stepSet := false |> <| pendingStep := 0 |>
    <| startAt := bufferingEnd now j |>.

Definition learnPacketDuration (slot : rtpJitterSlot) (j : RTPJitterBuffer) : RTPJitterBuffer :=
  if clockRate j =? 0 then j else
  let h := Header (slot_packet slot) in
  let j :=
    if stepSet j && (slot_seq slot =? u16 (stepSeq j + 1)) &&
       (PayloadType h =? stepPayloadType j) && negb (Marker h)
    then
      let step := u32 (Timestamp h - stepTimestamp j) in
      let j :=
        if (0 <? step) && (step =? pendingStep j) then
          let d := Z.quot (i64 (step * Second)) (clockRate j) in
          if d <=? maxLearnedRTPPacketDuration then j <| packetDuration := d |> else j
        else j in
      j <| pendingStep := step |>
    else j in
  if negb (stepSet j) || (0 <? i16 (slot_seq slot - stepSeq j)) then
    j <| stepSeq := slot_seq slot |> <| stepTimestamp := Timestamp h |>
      <| stepPayloadType := PayloadType h |> <| stepSet := true |>
  else j.

Definition canMoveExpectedBack (seq : Z) (j : RTPJitterBuffer) : bool :=
  forallb (fun i =>
    let distance := i16 (slot_seq (slot_at j i) - seq) in
    negb ((distance <? 0) || (maxPackets j <=? distance))) (occupied (sequence j)).

(** One turn of the loop of [dropBefore], on the sequence number [seq]. *)
Definition dropStale (seq : Z) (j : RTPJitterBuffer) : RTPJitterBuffer :=
  match entry j seq with
  | None => j
  | Some i =>
    if slot_seq (slot_at j i) =? seq then
      let j := count packetsDropped j in
      freeSlot i (j <| sequence := <[position j seq := None]> (sequence j) |>
                    <| queued := queued j - 1 |>)
    else j
  end.

(** The loop runs [n] turns, the first on [expectedSeq + i]. *)
Fixpoint dropBefore_loop (n : nat) (i : Z) (j : RTPJitterBuffer) : RTPJitterBuffer :=
  match n with
  | O => j
  | S n => dropBefore_loop n (i + 1) (dropStale (u16 (expectedSeq j + i)) j)
  end.

Definition dropBefore (next : Z) (j : RTPJitterBuffer) : RTPJitterBuffer :=
  let passed := i16 (next - expectedSeq j) in
  dropBefore_loop (Z.to_nat (Z.min passed (maxPackets j))) 0 j <| expectedSeq := next |>.

(** The end of [handleSlot]: file slot [i] at its position, unless that is taken. *)
Definition fileSlot (now : Z) (i : nat) (j : RTPJitterBuffer) : RTPJitterBuffer :=
  let seq := slot_seq (slot_at j i) in
  match entry j seq with
  | Some existing =>
    let j := if slot_seq (slot_at j existing) =? seq then count packetsDuplicate j
             else count packetsDropped j in
    freeSlot i j
  | None =>
    let j := j <| sequence := <[position j seq := Some i]> (sequence j) |>
               <| queued := queued j + 1 |> in
    if resync j && (queued j =? 1) then j <| startAt := bufferingEnd now j |> else j
  end.

(** The middle of [handleSlot], where the sequence number of slot [i] is placed
    against the window: [inl] when the packet is refused, [inr] when it goes on
    to [fileSlot]. *)
Definition placeSlot (i : nat) (j : RTPJitterBuffer) : RTPJitterBuffer + RTPJitterBuffer :=
  let seq := slot_seq (slot_at j i) in
  let distance := i16 (seq - expectedSeq j) in
  if distance <? 0 then
    if playout j || resync j then inl (freeSlot i (count packetsLate j))
    else if negb (canMoveExpectedBack seq j) then inl (freeSlot i (count packetsDropped j))
    else inr (j <| expectedSeq := seq |>)
  else if maxPackets j <=? distance then
    inr (dropBefore (u16 (seq - u16 (delayPackets j - 1))) j)
  else inr j.

(** The start of [handleSlot]: a packet of another source, or one a window or
    more away from where playout stopped with nothing queued, restarts the
    stream. *)
Definition restartStream (now : Z) (i : nat) (j : RTPJitterBuffer) : RTPJitterBuffer :=
  let slot := slot_at j i in
  let j := count packetsRead j in
  let j :=
    if negb (ssrcSet j) || negb (ssrc j =? slot_ssrc slot) then
      let j := if ssrcSet j then count ssrcResets j else j in
      resetStream now (slot_ssrc slot) (slot_seq slot) j
    else j in
  let distance := i16 (slot_seq slot - expectedSeq j) in
  if resync j && (queued j =? 0) && ((maxPackets j <=? distance) || (maxPackets j <=? - distance))
  then resetStream now (slot_ssrc slot) (slot_seq slot) j
  else j.

Definition handleSlot (now : Z) (i : nat) (j : RTPJitterBuffer) : RTPJitterBuffer :=
  let j := restartStream now i j in
  let j := learnPacketDuration (slot_at j i) j in
  match placeSlot i j with
  | inl j => j
  | inr j => fileSlot now i j
  end.

(** The loop of [startPlayout]. It is given [maxPackets] turns of fuel, which
    [startPlayout_loop_ends] shows to be enough. *)
Fixpoint startPlayout_loop (fuel : nat) (j : RTPJitterBuffer) : RTPJitterBuffer :=
  match fuel with
  | O => j
  | S fuel =>
    if resync j && (0 <? queued j) && bool_decide (entry j (expectedSeq j) = None) then
      startPlayout_loop fuel
        (count packetsLost j <| expectedSeq := u16 (expectedSeq j + 1) |>)
    else j
  end.

Definition startPlayout (now : Z) (j : RTPJitterBuffer) : RTPJitterBuffer :=
  let j := j <| startAt := time_zero |> in
  let j := startPlayout_loop (Z.to_nat (maxPackets j)) j in
  j <| resync := false |> <| playout := true |> <| releaseAt := now |>.

Definition stopPlayout (j : RTPJitterBuffer) : RTPJitterBuffer :=
  count underruns j <| playout := false |> <| resync := true |>.

(** What one iteration of the loop of [ReadRTP] does with the mutex held. *)
Inductive decision :=
| Release (raw : bytes)   (** a packet is due and leaves the buffer *)
| ShortBuffer             (** a packet is due and the caller's buffer is too small *)
| Skip                    (** the packet due is missing: counted lost, decide again *)
| Ended (e : error)       (** upstream ended and nothing is queued *)
| Wait (d : Z).           (** nothing is due: wait for [d], a packet or Close *)

(** Start playout when buffering is over: its time is up, or enough is queued. *)
Definition maybeStart (now : Z) (j : RTPJitterBuffer) : RTPJitterBuffer :=
  if playout j then j else
  let startDue := negb (IsZero (startAt j)) && (startAt j <=? now) in
  if startDue || (delayPackets j <=? queued j) then startPlayout now j else j.

(** The tail of an iteration that released and skipped nothing. *)
Definition idle (now : Z) (j : RTPJitterBuffer) : decision :=
  if upstreamEnded j && (queued j =? 0) then Ended (from_option (fun e => e) io_EOF (readErr j))
  else Wait (if playout j then releaseAt j - now
             else if negb (IsZero (startAt j)) then startAt j - now else 0).

Definition decide_playout (now : Z) (buflen : Z) (j : RTPJitterBuffer) : RTPJitterBuffer * decision :=
  let j := maybeStart now j in
  if playout j && (releaseAt j <=? now) then
    let pos := position j (expectedSeq j) in
    let advanced := j <| expectedSeq := u16 (expectedSeq j + 1) |>
                      <| releaseAt := releaseAt j + packetDuration j |> in
    match entry j (expectedSeq j) with
    | Some i =>
      if slot_seq (slot_at j i) =? expectedSeq j then
        if buflen <? slot_n (slot_at j i) then (j, ShortBuffer)
        else (freeSlot i (advanced <| sequence := <[pos := None]> (sequence j) |>
                                   <| queued := queued j - 1 |>),
              Release (slot_raw (slot_at j i)))
      else if queued j =? 0 then (stopPlayout j, idle now (stopPlayout j))
      else (count packetsLost advanced, Skip)
    | None =>
      if queued j =? 0 then (stopPlayout j, idle now (stopPlayout j))
      else (count packetsLost advanced, Skip)
    end
  else (j, idle now j).

(** ** The read loop *)

(** Take the last free slot; [None] is the index panic on an empty list. *)
Definition readLoop_take (j : RTPJitterBuffer) : option (nat * RTPJitterBuffer) :=
  match last (freeSlots j) with
  | Some i => Some (i, j <| freeSlots := take (length (freeSlots j) - 1) (freeSlots j) |>)
  | None => None
  end.

Definition notify (j : RTPJitterBuffer) : RTPJitterBuffer := j <| arrived := true |>.

(** What the upstream [ReadRTP] left in the slot and returned. *)
Inductive upstream_result :=
| ReadOk (n : Z) (raw : bytes) (pkt : rtp_packet)
| ReadFail (e : error).

(** The read loop's region after the upstream read, and the wake that follows. *)
Definition readLoop_file (now : Z) (i : nat) (r : upstream_result) (j : RTPJitterBuffer) : RTPJitterBuffer :=
  match r with
  | ReadFail e => notify (freeSlot i j <| readErr := Some e |> <| upstreamEnded := true |>)
  | ReadOk n raw pkt =>
    if n =? 0 then freeSlot i j
    else
      let slot := {| slot_raw := raw; slot_packet := pkt; slot_n := n;
                     slot_ssrc := SSRC (Header pkt); slot_seq := SequenceNumber (Header pkt) |} in
      notify (handleSlot now i (j <| slots := <[i := slot]> (slots j) |>))
  end.

(** [readUpstream] after a read that returned on [used]: [None] when it
    continues on the reader now in place, [used] being replaced and the buffer
    not closed. *)
Definition readUpstream_returns (used : nat) (r : upstream_result) (j : RTPJitterBuffer) : option upstream_result :=
  match r with
  | ReadOk _ _ _ => Some r
  | ReadFail _ => if bool_decide (reader j = used) || done j then Some r else None
  end.

(** [UpdateRTPSession]: [dur] and [rate] are those of the codec of the session
    [r]. *)
Definition UpdateRTPSession (r : nat) (dur rate : Z) (j : RTPJitterBuffer) : RTPJitterBuffer :=
  let j := j <| reader := r |> in
  let j := if 0 <? dur then j <| packetDuration := dur |> else j in
  let j := if negb (clockRate j =? 0) && negb (rate =? 0) then j <| clockRate := rate |> else j in
  j <| stepSet := false |> <| pendingStep := 0 |>.

(** [start], whose [startOnce] launches the read loop. *)
Definition start (j : RTPJitterBuffer) : RTPJitterBuffer := j <| started := true |>.

(** [Close]: idempotent; a read loop that has not started never starts. *)
Definition Close (j : RTPJitterBuffer) : RTPJitterBuffer :=
  if done j then j else
  let j := j <| done := true |> in
  if started j then j else j <| started := true |> <| readLoopDone := true |>.

(** [Statistics], a snapshot of the counters and the packet duration. *)
Record RTPJitterBufferStatistics := {
  Counters : rtpJitterBufferStats;
  LastSequenceNumber : Z;
  PacketDuration : Z }.

Definition Statistics (j : RTPJitterBuffer) : RTPJitterBufferStatistics :=
  {| Counters := stats j; LastSequenceNumber := u16 (lastSequenceNumber (stats j));
     PacketDuration := packetDuration j |}.

(** ** ReadRTP and the interleaving with the read loop *)

Section Machine.
Context (RTPUnmarshal : bytes -> rtp_packet + error).

(** What one iteration of [ReadRTP] does to the caller: return a packet, return
    an error, go round at once, or block for at most the given time. *)
Inductive read_result :=
| RPacket (n : Z) (p : rtp_packet)
| RError (e : error)
| RAgain
| RBlock (d : Z).

Definition ReadRTP_iter (now buflen : Z) (j : RTPJitterBuffer) : RTPJitterBuffer * read_result :=
  if done j then (j, RError io_ErrClosedPipe) else
  let '(j, d) := decide_playout now buflen j in
  match d with
  | Release raw =>
    match RTPUnmarshal raw with
    | inl p =>
      let j := count packetsReleased j in
      (j <| stats := stats j <| lastSequenceNumber := u32 (SequenceNumber (Header p)) |> |>,
       RPacket (len raw) p)
    | inr e => (j, RError e)
    end
  | ShortBuffer => (j, RError io_ErrShortBuffer)
  | Skip => (j, RAgain)
  | Ended e => (j, RError e)
  | Wait d => (j, RBlock d)
  end.

(** Where the read loop stands: not launched, at the top of its loop, in the
    upstream read of [used] with slot [i], returned, or dead of an index panic. *)
Inductive loop_pc :=
| NotStarted
| Top
| Reading (i used : nat)
| Exited
| Panicked.

Record jworld := { jb : RTPJitterBuffer; pc : loop_pc }.

(** The atomic actions of the consumer, of the read loop and of the owner. *)
Inductive jevent :=
| EvRead (now buflen : Z)
| EvTake
| EvUpstream (now : Z) (r : upstream_result)
| EvUpdate (r : nat) (dur rate : Z)
| EvClose.

(** One action; [None] when the read loop is not at the point it belongs to. *)
Definition jstep (ev : jevent) (w : jworld) : option (jworld * option read_result) :=
  let j := jb w in
  match ev, pc w with
  | EvRead now buflen, pc =>
    let pc := if started j then pc else Top in
    let '(j, res) := ReadRTP_iter now buflen (start j) in
    Some ({| jb := j; pc := pc |}, Some res)
  | EvTake, Top =>
    if done j then Some ({| jb := j <| readLoopDone := true |>; pc := Exited |}, None) else
    match readLoop_take j with
    | Some (i, j) => Some ({| jb := j; pc := Reading i (reader j) |}, None)
    | None => Some ({| jb := j; pc := Panicked |}, None)
    end
  | EvUpstream now r, Reading i used =>
    match readUpstream_returns used r j with
    | None => Some ({| jb := j; pc := Reading i (reader j) |}, None)
    | Some (ReadOk _ _ _ as r) => Some ({| jb := readLoop_file now i r j; pc := Top |}, None)
    | Some (ReadFail _ as r) =>
      Some ({| jb := readLoop_file now i r j <| readLoopDone := true |>; pc := Exited |}, None)
    end
  | EvUpdate r dur rate, pc => Some ({| jb := UpdateRTPSession r dur rate j; pc := pc |}, None)
  | EvClose, pc => Some ({| jb := Close j; pc := pc |}, None)
  | _, _ => None
  end.

(** A run of the machine: the actions in order, with what [ReadRTP] did. *)
Inductive jrun : jworld -> list (jevent * option read_result) -> jworld -> Prop :=
| jrun_nil w : jrun w [] w
| jrun_snoc w tr w1 ev out w2 :
  jrun w tr w1 -> jstep ev w1 = Some (w2, out) -> jrun w (tr ++ [(ev, out)]) w2.

End Machine.

End Jitter.
