(* ===== verification/JitterInv.v ===== *)
(** * The RTP jitter buffer: its invariant

    [Inv] says what holds of the buffer whenever its mutex is free: the slots are
    split between the free list, the queue and the read loop, [queued] counts the
    queue, and every queued packet is filed at its position and inside the
    window that starts at [expectedSeq]. Every operation preserves it. *)
From S2P Require Import Prelude Rtp JitterBuffer.
Import Jitter.

Module JitterInv.

(** ** The queue as a list of slots *)

Lemma elem_of_occupied (l : list (option nat)) i :
  i ∈ occupied l <-> exists p, l !! p = Some (Some i).
Proof.
  unfold occupied. rewrite list_elem_of_omap. split.
  - intros (o & Ho & ->). apply list_elem_of_lookup in Ho as [p Hp]. by exists p.
  - intros [p Hp]. exists (Some i). split; [|done]. apply list_elem_of_lookup. by exists p.
Qed.

Lemma occupied_app l k : occupied (l ++ k) = occupied l ++ occupied k.
Proof. unfold occupied. by rewrite omap_app. Qed.

Lemma occupied_remove (l : list (option nat)) p i :
  l !! p = Some (Some i) -> occupied l ≡ₚ i :: occupied (<[p := None]> l).
Proof.
  intros H. rewrite insert_take_drop by (by apply lookup_lt_Some in H).
  rewrite <- (take_drop_middle l p (Some i)) at 1 by done.
  rewrite !occupied_app. simpl. solve_Permutation.
Qed.

Lemma occupied_insert (l : list (option nat)) p i :
  l !! p = Some None -> occupied (<[p := Some i]> l) ≡ₚ i :: occupied l.
Proof.
  intros H. rewrite insert_take_drop by (by apply lookup_lt_Some in H).
  rewrite <- (take_drop_middle l p None) at 3 by done.
  rewrite !occupied_app. simpl. solve_Permutation.
Qed.

Lemma occupied_cleared (l : list (option nat)) : occupied ((fun _ => None) <$> l) = [].
Proof. by induction l. Qed.

Lemma occupied_empty n : occupied (replicate n None) = [].
Proof. by induction n. Qed.

Lemma occupied_length l : (length (occupied l) <= length l)%nat.
Proof.
  induction l as [|[i|] l IH]; [done| |]; unfold occupied in *; simpl.
  - by apply le_n_S.
  - by apply le_S.
Qed.

(** ** The invariant *)

(** The packet in slot [i] is queued at position [p]. *)
Record Filed (j : RTPJitterBuffer) (p i : nat) : Prop := {
  filed_seq : 0 <= slot_seq (slot_at j i) < 2 ^ 16;
  filed_pos : p = position j (slot_seq (slot_at j i));
  filed_window : 0 <= i16 (slot_seq (slot_at j i) - expectedSeq j) < maxPackets j;
  filed_ssrc : slot_ssrc (slot_at j i) = ssrc j }.

(** [fl] is the slot the read loop is reading into, if any. *)
Record Inv (fl : option nat) (j : RTPJitterBuffer) : Prop := {
  inv_delay : 1 <= delayPackets j <= maxPackets j;
  inv_slots : length (slots j) = Z.to_nat (maxPackets j + 1);
  inv_seqlen : length (sequence j) = Z.to_nat (maxPackets j);
  inv_perm : freeSlots j ++ occupied (sequence j) ++ option_list fl ≡ₚ
             seq 0 (Z.to_nat (maxPackets j + 1));
  inv_queued : queued j = len (occupied (sequence j));
  inv_expected : 0 <= expectedSeq j < 2 ^ 16;
  inv_filed : forall p i, sequence j !! p = Some (Some i) -> Filed j p i;
  inv_ssrc : 0 < queued j -> ssrcSet j = true;
  inv_modes : playout j = true -> resync j = false }.

(** Fields of the state the invariant does not read may change freely. *)
Record SameQueue (j k : RTPJitterBuffer) : Prop := {
  sq_delay : delayPackets k = delayPackets j;
  sq_max : maxPackets k = maxPackets j;
  sq_slots : slots k = slots j;
  sq_free : freeSlots k = freeSlots j;
  sq_sequence : sequence k = sequence j;
  sq_queued : queued k = queued j;
  sq_ssrc : ssrc k = ssrc j;
  sq_ssrcSet : ssrcSet k = ssrcSet j;
  sq_expected : expectedSeq k = expectedSeq j;
  sq_playout : playout k = playout j;
  sq_resync : resync k = resync j }.

Lemma Inv_same fl j k : SameQueue j k -> Inv fl j -> Inv fl k.
Proof.
  intros [] []. split; rewrite ?sq_max0, ?sq_delay0, ?sq_slots0, ?sq_sequence0, ?sq_free0,
    ?sq_queued0, ?sq_ssrcSet0, ?sq_expected0, ?sq_playout0, ?sq_resync0; auto.
  intros p i H. destruct (inv_filed0 p i H).
  split; unfold slot_at, position in *; rewrite ?sq_slots0, ?sq_expected0, ?sq_max0, ?sq_ssrc0; auto.
Qed.

Ltac same_queue := split; reflexivity.

(** ** Positions *)

Lemma position_lt fl j s : Inv fl j -> 0 <= s -> (position j s < length (sequence j))%nat.
Proof.
  intros [] Hs. unfold position. rewrite inv_seqlen0.
  pose proof (Z.rem_bound_pos s (maxPackets j)). lia.
Qed.

Lemma entry_Some j s i : entry j s = Some i <-> sequence j !! position j s = Some (Some i).
Proof. unfold entry. destruct (sequence j !! position j s) as [[k|]|]; simpl; naive_solver. Qed.

Lemma entry_None fl j s : Inv fl j -> 0 <= s -> entry j s = None ->
  sequence j !! position j s = Some None.
Proof.
  intros HI Hs. unfold entry.
  destruct (lookup_lt_is_Some_2 _ _ (position_lt fl j s HI Hs)) as [o Ho].
  rewrite Ho. simpl. by intros ->.
Qed.

(** A queued packet is found at the entry of its sequence number. *)
Lemma entry_filed fl j p i : Inv fl j -> sequence j !! p = Some (Some i) ->
  entry j (slot_seq (slot_at j i)) = Some i.
Proof. intros [] H. apply entry_Some. by rewrite <- (filed_pos _ _ _ (inv_filed0 p i H)). Qed.

(** ** Slots are split between the free list, the queue and the read loop *)

Lemma Inv_NoDup fl j : Inv fl j -> NoDup (freeSlots j ++ occupied (sequence j) ++ option_list fl).
Proof. intros []. rewrite inv_perm0. apply NoDup_seq. Qed.

Lemma inflight_not_queued i j p : Inv (Some i) j -> sequence j !! p <> Some (Some i).
Proof.
  intros HI H. pose proof (Inv_NoDup _ _ HI) as N.
  apply NoDup_app in N as (_ & _ & N). apply NoDup_app in N as (_ & N & _).
  apply (N i); [apply elem_of_occupied; eauto|simpl; set_solver].
Qed.

Lemma queued_bound fl j : Inv fl j ->
  len (freeSlots j) + queued j + len (option_list fl) = maxPackets j + 1.
Proof.
  intros []. pose proof (f_equal Z.of_nat (Permutation_length inv_perm0)) as H.
  rewrite !length_app, length_seq in H. rewrite inv_queued0. unfold len. lia.
Qed.

Lemma queued_le_max fl j : Inv fl j -> 0 <= queued j <= maxPackets j.
Proof.
  intros []. rewrite inv_queued0. split; [auto with go|].
  pose proof (occupied_length (sequence j)). unfold len. lia.
Qed.

Lemma queued_zero fl j : Inv fl j -> queued j = 0 -> occupied (sequence j) = [].
Proof. intros [] H. rewrite inv_queued0 in H. unfold len in H. apply nil_length_inv. lia. Qed.

(** [handleSlot] and the other regions change the queue in four ways: a slot
    goes back to the free list, a queued slot is freed, the window moves on by
    one, and the slot read is queued. *)

Lemma Inv_free i j : Inv (Some i) j -> Inv None (freeSlot i j).
Proof.
  intros []. split; simpl; auto.
  - rewrite <- inv_perm0. simpl. solve_Permutation.
  - intros p k H. destruct (inv_filed0 p k H). by split.
Qed.

Lemma Inv_dequeue fl j p i : Inv fl j -> sequence j !! p = Some (Some i) ->
  Inv fl (freeSlot i (j <| sequence := <[p := None]> (sequence j) |> <| queued := queued j - 1 |>)).
Proof.
  intros HI H. pose proof HI as []. pose proof (occupied_remove _ _ _ H) as HP.
  split; simpl; auto.
  - by rewrite length_insert.
  - rewrite <- inv_perm0. rewrite HP. solve_Permutation.
  - rewrite inv_queued0. unfold len. rewrite HP. simpl. lia.
  - intros q k Hq. apply list_lookup_insert_Some in Hq as [(_ & ? & _)|(_ & Hq)]; [done|].
    destruct (inv_filed0 q k Hq). by split.
  - intros ?. apply inv_ssrc0. lia.
Qed.

Lemma Inv_advance fl j :
  Inv fl j -> (forall p i, sequence j !! p = Some (Some i) -> slot_seq (slot_at j i) <> expectedSeq j) ->
  Inv fl (j <| expectedSeq := u16 (expectedSeq j + 1) |>).
Proof.
  intros [] Hne. split; simpl; auto with go.
  intros p i H. specialize (Hne p i H). destruct (inv_filed0 p i H).
  split; auto. simpl. unfold slot_at in *. simpl. wrap_lia.
Qed.

Lemma Inv_enqueue i j (s := slot_seq (slot_at j i)) :
  Inv (Some i) j -> 0 <= s < 2 ^ 16 -> 0 <= i16 (s - expectedSeq j) < maxPackets j ->
  slot_ssrc (slot_at j i) = ssrc j -> ssrcSet j = true -> entry j s = None ->
  Inv None (j <| sequence := <[position j s := Some i]> (sequence j) |> <| queued := queued j + 1 |>).
Proof.
  intros HI Hs Hw Hssrc Hset He. pose proof HI as [].
  pose proof (entry_None _ _ _ HI (proj1 Hs) He) as H.
  pose proof (occupied_insert _ _ i H) as HP.
  split; simpl; auto.
  - by rewrite length_insert.
  - rewrite HP, <- inv_perm0. simpl. solve_Permutation.
  - rewrite inv_queued0. unfold len. rewrite HP. simpl. lia.
  - intros q k Hq. apply list_lookup_insert_Some in Hq as [(<- & ? & _)|(_ & Hq)].
    + simplify_eq. by split.
    + destruct (inv_filed0 q k Hq). by split.
Qed.

(** ** Resetting the stream *)

Lemma Inv_clear fl j : Inv fl j -> Inv fl (clearSequence j).
Proof.
  intros []. split; simpl; auto.
  - by rewrite length_fmap.
  - rewrite occupied_cleared, <- inv_perm0. solve_Permutation.
  - by rewrite occupied_cleared.
  - intros p i H. rewrite list_lookup_fmap in H. by destruct (sequence j !! p).
  - lia.
Qed.

Lemma Inv_reset fl now s q j : 0 <= q < 2 ^ 16 -> Inv fl j -> Inv fl (resetStream now s q j).
Proof.
  intros Hq HI. destruct (Inv_clear _ _ HI) as []. split; simpl in *; auto.
  intros p i H. rewrite list_lookup_fmap in H. by destruct (sequence j !! p).
Qed.

Lemma resetStream_empty now s q j : queued (resetStream now s q j) = 0.
Proof. done. Qed.

(** ** Learning the packet duration changes nothing the invariant reads *)

Lemma learn_same slot j : SameQueue j (learnPacketDuration slot j).
Proof. unfold learnPacketDuration. repeat case_match; same_queue. Qed.

Lemma count_same c `{!FieldUpdate c} j : SameQueue j (count c j).
Proof. same_queue. Qed.

Lemma SameQueue_refl j : SameQueue j j.
Proof. same_queue. Qed.

Lemma SameQueue_trans j k l : SameQueue j k -> SameQueue k l -> SameQueue j l.
Proof. intros [] []. split; congruence. Qed.

#[export] Hint Resolve SameQueue_refl learn_same count_same Inv_free Inv_reset : go.

(** ** Moving the window *)

Lemma dropStale_frame q j :
  maxPackets (dropStale q j) = maxPackets j /\ expectedSeq (dropStale q j) = expectedSeq j /\
  slots (dropStale q j) = slots j /\ delayPackets (dropStale q j) = delayPackets j /\
  ssrc (dropStale q j) = ssrc j /\ ssrcSet (dropStale q j) = ssrcSet j /\
  playout (dropStale q j) = playout j /\ resync (dropStale q j) = resync j.
Proof. unfold dropStale. repeat case_match; done. Qed.

Lemma Inv_dropStale fl q j : Inv fl j -> Inv fl (dropStale q j).
Proof.
  intros HI. unfold dropStale. destruct (entry j q) as [i|] eqn:E; [|done].
  case_match; [|done]. apply entry_Some in E.
  apply (Inv_dequeue fl (count packetsDropped j)); [|done].
  by eapply Inv_same; [apply count_same|].
Qed.

(** [dropStale q] removes the packet [q] and no other one. *)
Lemma dropStale_entries fl q j p i : Inv fl j ->
  sequence (dropStale q j) !! p = Some (Some i) <->
  sequence j !! p = Some (Some i) /\ slot_seq (slot_at j i) <> q.
Proof.
  intros HI. unfold dropStale. destruct (entry j q) as [k|] eqn:E.
  - pose proof E as E'. apply entry_Some in E'. case_match eqn:Hq.
    + apply Z.eqb_eq in Hq. simpl. rewrite list_lookup_insert_Some. split.
      * intros [(_ & ? & _)|(Hne & H)]; [done|]. split; [done|]. intros Hs.
        pose proof (entry_filed _ _ _ _ HI H) as He. rewrite Hs, E in He. simplify_eq.
        apply Hne. pose proof (inv_filed _ _ HI _ _ H) as []. done.
      * intros [H Hs]. right. split; [|done]. intros <-. unfold position in *. simpl in *. congruence.
    + apply Z.eqb_neq in Hq. split; [|by intros [? _]]. intros H. split; [done|]. intros Hs.
      pose proof (entry_filed _ _ _ _ HI H) as He. rewrite Hs, E in He. congruence.
  - split; [|by intros [? _]]. intros H. split; [done|]. intros Hs.
    pose proof (entry_filed _ _ _ _ HI H) as He. rewrite Hs, E in He. congruence.
Qed.

Lemma dropBefore_loop_frame n i j :
  maxPackets (dropBefore_loop n i j) = maxPackets j /\ expectedSeq (dropBefore_loop n i j) = expectedSeq j /\
  slots (dropBefore_loop n i j) = slots j /\ delayPackets (dropBefore_loop n i j) = delayPackets j /\
  ssrc (dropBefore_loop n i j) = ssrc j /\ ssrcSet (dropBefore_loop n i j) = ssrcSet j /\
  playout (dropBefore_loop n i j) = playout j /\ resync (dropBefore_loop n i j) = resync j.
Proof.
  revert i j. induction n as [|n IH]; intros i j; simpl; [done|].
  destruct (IH (i + 1) (dropStale (u16 (expectedSeq j + i)) j)) as (-> & -> & -> & -> & -> & -> & -> & ->).
  apply dropStale_frame.
Qed.

Lemma Inv_dropBefore_loop fl n i j : Inv fl j -> Inv fl (dropBefore_loop n i j).
Proof. revert i j. induction n as [|n IH]; simpl; auto using Inv_dropStale. Qed.

(** The loop drops the packets of the [n] sequence numbers from
    [expectedSeq + i] on, and no other one. *)
Lemma dropBefore_loop_entries fl n i j p k : Inv fl j ->
  sequence (dropBefore_loop n i j) !! p = Some (Some k) <->
  sequence j !! p = Some (Some k) /\
  forall d, i <= d < i + Z.of_nat n -> slot_seq (slot_at j k) <> u16 (expectedSeq j + d).
Proof.
  revert i j. induction n as [|n IH]; intros i j HI; simpl.
  - split; [|by intros [? _]]. intros ?. split; [done|lia].
  - destruct (dropStale_frame (u16 (expectedSeq j + i)) j) as (_ & He & Hs & _).
    rewrite IH by (by apply Inv_dropStale). rewrite dropStale_entries by done.
    unfold slot_at in *. rewrite He, Hs. split.
    + intros [[H Hi] Hd]. split; [done|]. intros d ?.
      destruct (decide (d = i)) as [->|]; [done|apply Hd; lia].
    + intros [H Hd]. repeat split; [done|apply Hd; lia|intros d ?; apply Hd; lia].
Qed.

Lemma Inv_dropBefore fl next j :
  0 <= next < 2 ^ 16 -> 0 <= i16 (next - expectedSeq j) -> Inv fl j -> Inv fl (dropBefore next j).
Proof.
  intros Hn Hp HI. unfold dropBefore.
  set (n := Z.to_nat _). pose proof (Inv_dropBefore_loop fl n 0 j HI) as HL.
  destruct (dropBefore_loop_frame n 0 j) as (Hm & He & Hs & _ & Hss & _).
  pose proof HL as []. split; simpl; auto.
  intros p k H. destruct (inv_filed0 p k H).
  apply (dropBefore_loop_entries fl) in H as [H Hd]; [|done].
  split; simpl; auto. unfold slot_at in *. simpl. rewrite Hs, Hm, He in *.
  pose proof (inv_expected _ _ HI).
  specialize (Hd (i16 (slot_seq (slots j !!! k) - expectedSeq j))).
  subst n. wrap_lia.
Qed.

(** ** Filing a packet *)

(** What [handleSlot] is given: slot [i] is in the read loop's hands and its
    sequence number is a uint16. *)
Definition SlotRead (j : RTPJitterBuffer) (i : nat) : Prop :=
  Inv (Some i) j /\ 0 <= slot_seq (slot_at j i) < 2 ^ 16.

(** [k] carries the slots and the limits of [j], on the source of slot [i]. *)
Record OnStream (i : nat) (j k : RTPJitterBuffer) : Prop := {
  os_slots : slots k = slots j;
  os_max : maxPackets k = maxPackets j;
  os_delay : delayPackets k = delayPackets j;
  os_ssrc : ssrc k = slot_ssrc (slot_at j i);
  os_set : ssrcSet k = true }.

Lemma restartStream_ok now i j : SlotRead j i ->
  Inv (Some i) (restartStream now i j) /\ OnStream i j (restartStream now i j).
Proof.
  intros [HI Hs]. unfold restartStream.
  assert (Inv (Some i) (count packetsRead j)) as HI' by (eapply Inv_same; eauto with go).
  destruct (negb _ || negb _) eqn:E1.
  - rewrite resetStream_empty, andb_false_l by done. simpl.
    destruct (ssrcSet j); split; try (apply Inv_reset; eauto using Inv_same with go); done.
  - apply orb_false_iff in E1 as [E1 E2]. apply negb_false_iff in E1, E2. apply Z.eqb_eq in E2.
    case_match; (split; [by auto with go|done]).
Qed.

Lemma canMoveExpectedBack_window fl q j p i : Inv fl j -> canMoveExpectedBack q j = true ->
  sequence j !! p = Some (Some i) -> 0 <= i16 (slot_seq (slot_at j i) - q) < maxPackets j.
Proof.
  intros HI Hc H. unfold canMoveExpectedBack in Hc. rewrite forallb_forall in Hc.
  specialize (Hc i). rewrite <- list_elem_of_In in Hc.
  specialize (Hc (proj2 (elem_of_occupied _ _) (ex_intro _ p H))). lia.
Qed.

(** The packet placed goes on into a window that holds it. *)
Record Placed (i : nat) (j k : RTPJitterBuffer) : Prop := {
  pl_inv : Inv (Some i) k;
  pl_same : slots k = slots j /\ ssrc k = ssrc j /\ ssrcSet k = ssrcSet j;
  pl_window : 0 <= i16 (slot_seq (slot_at k i) - expectedSeq k) < maxPackets k }.

Lemma placeSlot_ok i j : SlotRead j i ->
  match placeSlot i j with inl k => Inv None k | inr k => Placed i j k end.
Proof.
  intros [HI Hs]. pose proof HI as []. unfold placeSlot. repeat case_match; simplify_eq.
  - apply Inv_free. eapply Inv_same; eauto with go.
  - apply Inv_free. eapply Inv_same; eauto with go.
  - split; [|done|simpl; unfold slot_at; simpl; wrap_lia].
    split; simpl; auto. intros p k Hk. destruct (inv_filed0 p k Hk). split; simpl; auto.
    apply (canMoveExpectedBack_window (Some i) _ j p); auto. by apply negb_false_iff.
  - set (next := u16 _).
    assert (0 <= i16 (next - expectedSeq j)) by (subst next; wrap_lia).
    destruct (dropBefore_loop_frame (Z.to_nat (Z.min (i16 (next - expectedSeq j)) (maxPackets j))) 0 j)
      as (Hm & He & Hsl & Hd & Hss & Hset & _).
    split; [by apply Inv_dropBefore; [apply u16_range|..]|by unfold dropBefore; simpl|].
    unfold dropBefore, slot_at; simpl. rewrite Hm, Hsl. unfold slot_at in *. subst next. wrap_lia.
  - split; [done|done|lia].
Qed.

Lemma fileSlot_ok now i k : SlotRead k i ->
  0 <= i16 (slot_seq (slot_at k i) - expectedSeq k) < maxPackets k ->
  slot_ssrc (slot_at k i) = ssrc k -> ssrcSet k = true -> Inv None (fileSlot now i k).
Proof.
  intros [HI Hs] Hw Hss Hset. unfold fileSlot. destruct (entry k _) eqn:E.
  - apply Inv_free. case_match; eapply Inv_same; eauto with go.
  - pose proof (Inv_enqueue i k HI Hs Hw Hss Hset E) as HE.
    case_match; [|done]. eapply Inv_same; [|exact HE]. same_queue.
Qed.

Lemma handleSlot_inv now i j : SlotRead j i -> Inv None (handleSlot now i j).
Proof.
  intros HS. destruct (restartStream_ok now i j HS) as [HR []]. destruct HS as [HI Hs].
  unfold handleSlot. set (k := restartStream now i j) in *.
  pose proof (learn_same (slot_at k i) k) as HL. set (l := learnPacketDuration (slot_at k i) k) in *.
  pose proof (placeSlot_ok i l) as HP. destruct HL.
  assert (SlotRead l i) as HS'.
  { split; [eapply Inv_same; eauto; apply learn_same|].
    unfold slot_at in *. by rewrite sq_slots0, os_slots0. }
  specialize (HP HS'). destruct (placeSlot i l) as [m|m]; [done|].
  destruct HP as [? (E1 & E2 & E3) ?]. unfold slot_at in *.
  apply fileSlot_ok; auto.
  - split; [done|]. unfold slot_at. by rewrite E1, sq_slots0, os_slots0.
  - unfold slot_at. by rewrite E1, E2, sq_slots0, os_slots0, sq_ssrc0.
  - by rewrite E3, sq_ssrcSet0.
Qed.

(** ** Starting and running playout *)

(** The sequence number [expectedSeq] is not queued when its entry is empty, or
    holds the packet of another one. *)
Lemma entry_missing fl j : Inv fl j ->
  (forall i, entry j (expectedSeq j) = Some i -> slot_seq (slot_at j i) <> expectedSeq j) ->
  forall p i, sequence j !! p = Some (Some i) -> slot_seq (slot_at j i) <> expectedSeq j.
Proof.
  intros HI Hm p i H Hs. pose proof (entry_filed _ _ _ _ HI H) as He. rewrite Hs in He.
  by apply (Hm i).
Qed.

Lemma Inv_lost fl j : Inv fl j -> entry j (expectedSeq j) = None ->
  Inv fl (count packetsLost j <| expectedSeq := u16 (expectedSeq j + 1) |>).
Proof.
  intros HI He. apply (Inv_advance fl (count packetsLost j)).
  - eapply Inv_same; eauto with go.
  - apply (entry_missing fl); [eapply Inv_same; eauto with go|].
    intros i Hi. unfold entry, position in *. simpl in Hi. congruence.
Qed.

Lemma startPlayout_loop_inv fl n j : Inv fl j -> Inv fl (startPlayout_loop n j).
Proof.
  revert j. induction n as [|n IH]; intros j HI; simpl; [done|].
  case_match eqn:E; [|done]. rewrite !andb_true_iff, bool_decide_eq_true in E. destruct E as [_ E].
  apply IH. by apply Inv_lost.
Qed.

Lemma startPlayout_inv fl now j : Inv fl j -> Inv fl (startPlayout now j).
Proof.
  intros HI. unfold startPlayout. set (n := Z.to_nat _).
  assert (Inv fl (j <| startAt := time_zero |>)) as H by (eapply Inv_same; [|exact HI]; same_queue).
  apply (startPlayout_loop_inv fl n) in H as []. split; simpl; auto.
  intros p i Hi. destruct (inv_filed0 p i Hi). by split.
Qed.

Lemma maybeStart_inv fl now j : Inv fl j -> Inv fl (maybeStart now j).
Proof. intros. unfold maybeStart. repeat case_match; auto using startPlayout_inv. Qed.

Lemma stopPlayout_inv fl j : Inv fl j -> Inv fl (stopPlayout j).
Proof.
  intros []. split; simpl; auto.
  intros p i Hi. destruct (inv_filed0 p i Hi). by split.
Qed.

Lemma decide_playout_inv fl now n j : Inv fl j -> Inv fl (decide_playout now n j).1.
Proof.
  intros HI. unfold decide_playout. apply (maybeStart_inv fl now) in HI.
  set (k := maybeStart now j) in *. case_match; [|done].
  assert (forall l, SameQueue (count packetsLost k <| expectedSeq := u16 (expectedSeq k + 1) |>) l ->
    (forall i, entry k (expectedSeq k) = Some i -> slot_seq (slot_at k i) <> expectedSeq k) -> Inv fl l) as Hskip.
  { intros l Hl Hm. eapply Inv_same; [exact Hl|].
    apply (Inv_advance fl (count packetsLost k)); [eapply Inv_same; eauto with go|].
    by apply (entry_missing fl k). }
  destruct (entry k (expectedSeq k)) as [i|] eqn:E.
  - case_match eqn:Hi; [apply Z.eqb_eq in Hi|apply Z.eqb_neq in Hi].
    + case_match; [done|]. apply entry_Some in E. simpl.
      eapply (Inv_same fl (freeSlot i (k <| sequence := _ |> <| queued := queued k - 1 |>)
                             <| expectedSeq := u16 (expectedSeq k + 1) |>)); [same_queue|].
      pose proof (Inv_dequeue fl k _ i HI E) as HD.
      apply (Inv_advance fl _ HD). simpl. intros p q Hq Hs.
      apply list_lookup_insert_Some in Hq as [(_ & ? & _)|(Hne & Hq)]; [done|].
      apply Hne. unfold slot_at in Hs; simpl in Hs.
      rewrite (filed_pos _ _ _ (inv_filed _ _ HI _ _ Hq)). unfold slot_at. by rewrite Hs.
    + case_match; [by apply stopPlayout_inv|]. apply Hskip; [same_queue|]. intros ? ?; congruence.
  - case_match; [by apply stopPlayout_inv|]. apply Hskip; [same_queue|]. intros ? ?; congruence.
Qed.

End JitterInv.
