(* ===== verification/JitterProps.v ===== *)
(** * The RTP jitter buffer: safety of the interleaving and termination

    Every run of the buffer from [NewRTPJitterBuffer], whatever the network, the
    clock and the interleaving do, keeps the invariant and never indexes an empty
    free list; the loops of [startPlayout] and [ReadRTP] end. *)
From S2P Require Import Prelude Rtp JitterBuffer JitterInv.
Import Jitter JitterInv.

Module JitterProps.

(** ** Construction *)

Lemma New_inv r dur opts j : NewRTPJitterBuffer r dur opts = Some j -> Inv None j.
Proof.
  unfold NewRTPJitterBuffer. intros H. case_match; [done|]. simplify_eq.
  split; simpl; rewrite ?length_replicate, ?occupied_empty, ?app_nil_r; try done.
  - unfold defaultRTPJitterBufferDelayPackets, defaultRTPJitterBufferMaxPackets.
    repeat case_match; lia.
  - intros p i Hp. apply lookup_replicate in Hp as [? _]. done.
Qed.

(** ** The world of the buffer and its read loop *)

(** An upstream read that succeeds reports the bytes it wrote and parsed. *)
Definition event_ok (ev : jevent) : Prop :=
  match ev with
  | EvUpstream _ (ReadOk n raw pkt) => n = len raw /\ rtp_header_wf (Header pkt)
  | _ => True
  end.

Definition inflight (p : loop_pc) : option nat :=
  match p with Reading i _ => Some i | _ => None end.

Record WInv (w : jworld) : Prop := {
  winv_buffer : Inv (inflight (pc w)) (jb w);
  winv_alive : pc w <> Panicked;
  winv_started : pc w <> NotStarted -> started (jb w) = true;
  winv_done : readLoopDone (jb w) = true ->
    pc w = Exited \/ (pc w = NotStarted /\ started (jb w) = true) }.

Lemma take_inv j : Inv None j -> exists i k, readLoop_take j = Some (i, k) /\ Inv (Some i) k /\
  started k = started j /\ readLoopDone k = readLoopDone j.
Proof.
  intros HI. unfold readLoop_take.
  pose proof (queued_bound _ _ HI) as Hb. pose proof (queued_le_max _ _ HI) as Hq. simpl in Hb.
  change (len (@nil nat)) with 0 in Hb.
  destruct (last (freeSlots j)) as [i|] eqn:E.
  - exists i. eexists. split; [done|]. split; [|done]. pose proof HI as []. split; simpl; auto.
    + rewrite <- inv_perm0. simpl. apply last_Some in E as [l ->].
      rewrite length_app, take_app_le by (simpl; lia). rewrite take_ge by (simpl; lia).
      solve_Permutation.
    + intros p k Hk. destruct (inv_filed0 p k Hk). by split.
  - apply last_None in E. rewrite E in Hb. change (len (@nil nat)) with 0 in Hb. lia.
Qed.

Lemma Inv_read_into i slot j : Inv (Some i) j -> Inv (Some i) (j <| slots := <[i := slot]> (slots j) |>).
Proof.
  intros HI. pose proof HI as []. split; simpl; auto; [by rewrite length_insert|].
  intros p k Hk. assert (k <> i) by (intros ->; by apply (inflight_not_queued i j p)).
  destruct (inv_filed0 p k Hk). unfold slot_at in *.
  split; unfold slot_at; simpl; rewrite list_lookup_total_insert_ne by done; auto.
Qed.

Lemma slot_at_read_into i slot j : Inv (Some i) j ->
  slot_at (j <| slots := <[i := slot]> (slots j) |>) i = slot.
Proof.
  intros []. unfold slot_at. simpl. apply list_lookup_total_insert_eq.
  assert (In i (seq 0 (Z.to_nat (maxPackets j + 1)))) as H.
  { apply (Permutation_in _ inv_perm0). rewrite !in_app_iff. simpl. auto. }
  apply in_seq in H. lia.
Qed.

Lemma notify_same j : SameQueue j (notify j).
Proof. same_queue. Qed.

Lemma readLoop_file_inv now i r j :
  event_ok (EvUpstream now r) -> Inv (Some i) j -> Inv None (readLoop_file now i r j).
Proof.
  intros Hok HI. destruct r as [n raw pkt|e]; cbn [readLoop_file event_ok] in *.
  - case_match; [by apply Inv_free|]. eapply Inv_same; [apply notify_same|].
    apply handleSlot_inv. split; [by apply Inv_read_into|].
    rewrite slot_at_read_into by done. apply Hok.
  - eapply Inv_same; [|by apply Inv_free]. same_queue.
Qed.

(** [handleSlot] leaves the channels alone. *)
Record SameChannels (j k : RTPJitterBuffer) : Prop := {
  sc_done : done k = done j; sc_started : started k = started j;
  sc_loop : readLoopDone k = readLoopDone j }.

Lemma SameChannels_trans j k l : SameChannels j k -> SameChannels k l -> SameChannels j l.
Proof. intros [] []. split; congruence. Qed.

Lemma dropBefore_loop_channels n i j : SameChannels j (dropBefore_loop n i j).
Proof.
  revert i j. induction n as [|n IH]; intros i j; simpl; [done|].
  eapply SameChannels_trans; [|apply IH]. unfold dropStale. repeat case_match; done.
Qed.

Lemma startPlayout_loop_channels n j : SameChannels j (startPlayout_loop n j).
Proof.
  revert j. induction n as [|n IH]; intros j; simpl; [done|]. case_match; [|done].
  eapply SameChannels_trans; [|apply IH]. done.
Qed.

Lemma learn_channels s j : SameChannels j (learnPacketDuration s j).
Proof. unfold learnPacketDuration. repeat case_match; done. Qed.

Lemma restart_channels now i j : SameChannels j (restartStream now i j).
Proof. unfold restartStream. repeat case_match; done. Qed.

Lemma placeSlot_channels i j :
  match placeSlot i j with inl k | inr k => SameChannels j k end.
Proof.
  unfold placeSlot. repeat case_match; simplify_eq; try done.
  unfold dropBefore. eapply SameChannels_trans; [apply dropBefore_loop_channels|done].
Qed.

Lemma fileSlot_channels now i j : SameChannels j (fileSlot now i j).
Proof. unfold fileSlot. repeat case_match; done. Qed.

Lemma handleSlot_channels now i j : SameChannels j (handleSlot now i j).
Proof.
  unfold handleSlot. set (k := restartStream now i j). set (l := learnPacketDuration _ k).
  assert (SameChannels j l) as H by eauto using SameChannels_trans, restart_channels, learn_channels.
  pose proof (placeSlot_channels i l). case_match;
    eauto using SameChannels_trans, fileSlot_channels.
Qed.

Lemma notify_channels j : SameChannels j (notify j).
Proof. done. Qed.

Lemma readLoop_file_channels now i r j : SameChannels j (readLoop_file now i r j).
Proof.
  destruct r as [n raw pkt|e]; cbn [readLoop_file]; [|done]. destruct (n =? 0); [done|].
  eapply SameChannels_trans; [|apply notify_channels].
  by eapply SameChannels_trans; [|apply handleSlot_channels].
Qed.

Lemma maybeStart_channels now j : SameChannels j (maybeStart now j).
Proof.
  unfold maybeStart, startPlayout. repeat case_match; try done.
  by destruct (startPlayout_loop_channels (Z.to_nat (maxPackets j)) (j <| startAt := time_zero |>)).
Qed.

Lemma decide_playout_channels now n j : SameChannels j (decide_playout now n j).1.
Proof.
  unfold decide_playout. eapply SameChannels_trans; [apply maybeStart_channels|].
  repeat case_match; done.
Qed.

Lemma UpdateRTPSession_same r dur rate j :
  SameQueue j (UpdateRTPSession r dur rate j) /\ SameChannels j (UpdateRTPSession r dur rate j).
Proof. unfold UpdateRTPSession. repeat case_match; by split. Qed.

Lemma startPlayout_loop_limits n j :
  maxPackets (startPlayout_loop n j) = maxPackets j /\ delayPackets (startPlayout_loop n j) = delayPackets j.
Proof.
  revert j. induction n as [|n IH]; intros j; simpl; [done|]. case_match; [|done].
  by pose proof (IH (count packetsLost j <| expectedSeq := u16 (expectedSeq j + 1) |>)).
Qed.

Lemma maybeStart_limits now j :
  maxPackets (maybeStart now j) = maxPackets j /\ delayPackets (maybeStart now j) = delayPackets j.
Proof.
  unfold maybeStart, startPlayout. repeat case_match; try done.
  by pose proof (startPlayout_loop_limits (Z.to_nat (maxPackets j)) (j <| startAt := time_zero |>)).
Qed.

Lemma decide_playout_limits now n j :
  maxPackets (decide_playout now n j).1 = maxPackets j.
Proof.
  unfold decide_playout. rewrite <- (proj1 (maybeStart_limits now j)). repeat case_match; done.
Qed.

Section Runs.
Context (RTPUnmarshal : bytes -> rtp_packet + error).

Lemma ReadRTP_iter_inv fl now n j :
  Inv fl j -> Inv fl (ReadRTP_iter RTPUnmarshal now n j).1 /\ SameChannels j (ReadRTP_iter RTPUnmarshal now n j).1.
Proof.
  intros HI. unfold ReadRTP_iter. case_match; [done|].
  pose proof (decide_playout_inv fl now n j HI) as H1.
  pose proof (decide_playout_channels now n j) as H2.
  destruct (decide_playout now n j) as [k d]. simpl in *.
  destruct d; simpl; [case_match; simpl|..]; split; try done;
    (eapply Inv_same; [|exact H1]; same_queue) || by destruct H2.
Qed.

Lemma jstep_inv ev w w' out : WInv w -> event_ok ev ->
  jstep RTPUnmarshal ev w = Some (w', out) -> WInv w'.
Proof.
  intros [HI Ha Hs Hd] Hok H. destruct w as [j p]. simpl in *.
  destruct ev as [now n| |now r|r dur rate|].
  - assert (Inv (inflight p) (start j)) as HI' by (eapply Inv_same; [|exact HI]; same_queue).
    apply (ReadRTP_iter_inv _ now n) in HI' as [H1 [H2 H3 H4]]. cbn in H.
    destruct (ReadRTP_iter _ _ _ _) as [k res]. simplify_eq. simpl in *.
    split; simpl; try congruence.
    + by destruct (started j) eqn:?, p; try done; specialize (Hs ltac:(done)); congruence.
    + by case_match.
    + intros Hk. rewrite H4 in Hk. destruct (Hd Hk) as [-> | [-> ->]]; [|by right].
      rewrite Hs by done. by left.
  - destruct p; try done. cbn in H. destruct (done j); simplify_eq.
    + split; simpl; try done; [eapply Inv_same; [|exact HI]; same_queue|by intros _; apply Hs|by left].
    + destruct (take_inv j HI) as (i & k & E & Hk & E1 & E2). rewrite E in H. simplify_eq.
      split; simpl; try done; [rewrite E1; by intros _; apply Hs|].
      rewrite E2. intros Hr. by destruct (Hd Hr) as [|[]].
  - destruct p as [| |i used| |]; try done. cbn in H, HI.
    pose proof (readLoop_file_inv now i r j Hok HI) as HF.
    assert (readLoopDone j = false) as Hl.
    { destruct (readLoopDone j); [|done]. by destruct (Hd eq_refl) as [|[]]. }
    specialize (Hs ltac:(done)).
    assert (SameChannels j (readLoop_file now i r j)) as [E1 E2 E3].
    { apply readLoop_file_channels. }
    destruct r as [n raw pkt|e]; cbn [readUpstream_returns] in H.
    + simplify_eq. split; cbn [jb pc inflight]; try done; congruence.
    + destruct (_ || _) in H; simplify_eq; (split; cbn [jb pc inflight]; try done).
      * eapply Inv_same; [|exact HF]. same_queue.
      * by left.
      * congruence.
  - injection H as <- <-. destruct (UpdateRTPSession_same r dur rate j) as [HQ [_ E2 E3]].
    split; cbn [jb pc]; rewrite ?E2, ?E3; eauto using Inv_same.
  - injection H as <- <-. unfold Close. destruct (done j); [by split|]. simpl. destruct (started j) eqn:E.
    + split; cbn; auto. eapply Inv_same; [|exact HI]. same_queue.
    + split; cbn; auto; [eapply Inv_same; [|exact HI]; same_queue|].
      intros _. right. split; [|done]. by destruct p; try done; specialize (Hs ltac:(done)).
Qed.

Lemma jrun_inv w tr w' : WInv w -> Forall (fun e => event_ok e.1) tr ->
  jrun RTPUnmarshal w tr w' -> WInv w'.
Proof.
  intros Hw Htr Hr. induction Hr as [|w tr w1 ev out w2 Hr IH Hstep]; [done|].
  apply Forall_app in Htr as [Htr Hev]. apply Forall_inv in Hev.
  by eapply jstep_inv; [apply IH| |exact Hstep].
Qed.

Lemma New_winv r dur opts j : NewRTPJitterBuffer r dur opts = Some j -> WInv {| jb := j; pc := NotStarted |}.
Proof.
  intros H. split; [by apply New_inv in H|done|done|].
  unfold NewRTPJitterBuffer in H. case_match; [done|]. by simplify_eq.
Qed.

End Runs.

(** ** Termination of the loops *)

(** Some queued packet is at most [n] away from [expectedSeq]. *)
Definition Near (n : nat) (j : RTPJitterBuffer) : Prop :=
  exists p i, sequence j !! p = Some (Some i) /\ i16 (slot_seq (slot_at j i) - expectedSeq j) < Z.of_nat n.

Lemma Near_max fl j : Inv fl j -> 0 < queued j -> Near (Z.to_nat (maxPackets j)) j.
Proof.
  intros HI Hq. pose proof HI as []. rewrite inv_queued0 in Hq.
  destruct (occupied (sequence j)) as [|i l] eqn:E; [by unfold len in Hq; simpl in Hq; lia|].
  assert (i ∈ occupied (sequence j)) as Hi by (rewrite E; left).
  apply elem_of_occupied in Hi as [p Hp]. exists p, i. split; [done|].
  destruct (inv_filed0 p i Hp). lia.
Qed.

Lemma Near_advance fl n j k :
  Inv fl j -> Near (S n) j ->
  (forall p i, sequence j !! p = Some (Some i) -> slot_seq (slot_at j i) <> expectedSeq j) ->
  sequence k = sequence j -> slots k = slots j -> expectedSeq k = u16 (expectedSeq j + 1) -> Near n k.
Proof.
  intros HI (p & i & Hp & Hd) Hne Es El Ee. exists p, i. rewrite Es. split; [done|].
  specialize (Hne p i Hp). destruct (inv_filed _ _ HI p i Hp). pose proof (inv_expected _ _ HI).
  unfold slot_at in *. rewrite El, Ee. wrap_lia.
Qed.

Lemma startPlayout_loop_stops fl n j : Inv fl j -> (0 < queued j -> Near n j) ->
  let k := startPlayout_loop n j in
  resync k && (0 <? queued k) && bool_decide (entry k (expectedSeq k) = None) = false.
Proof.
  revert j. induction n as [|n IH]; intros j HI HN; simpl.
  - destruct (0 <? queued j) eqn:E; [|by rewrite andb_false_r].
    destruct HN as (p & i & Hp & Hd); [lia|]. destruct (inv_filed _ _ HI p i Hp). lia.
  - case_match eqn:E; [|done]. rewrite !andb_true_iff, bool_decide_eq_true in E. destruct E as [[_ Hq] E].
    apply IH; [by apply Inv_lost|]. intros _.
    apply (Near_advance fl n j); try done; [apply HN; lia|].
    apply (entry_missing fl); [done|]. congruence.
Qed.

(** Decisions of [ReadRTP] at the clock readings [nows], until one is not a
    skip: what is decided, and how many readings that took. *)
Fixpoint decide_until (nows : list Z) (buflen : Z) (j : RTPJitterBuffer) : option (RTPJitterBuffer * decision) :=
  match nows with
  | [] => None
  | now :: nows =>
    match decide_playout now buflen j with
    | (j, Skip) => decide_until nows buflen j
    | (j, d) => Some (j, d)
    end
  end.

(** A skip leaves the queue as it was and comes one nearer to its next packet. *)
Lemma skip_nearer fl now n j k : Inv fl j -> decide_playout now n j = (k, Skip) ->
  0 < queued k /\ playout k = true /\
  forall m, Near (S m) (maybeStart now j) -> Near m k.
Proof.
  intros HI. unfold decide_playout. apply (maybeStart_inv fl now) in HI.
  set (l := maybeStart now j) in *. unfold idle. intros H.
  pose proof (queued_le_max _ _ HI) as Hq.
  case_match eqn:Hp; [|by repeat case_match; simplify_eq].
  apply andb_true_iff in Hp as [Hp _].
  destruct (entry l (expectedSeq l)) as [i|] eqn:E.
  - case_match eqn:Hi; [by repeat case_match; simplify_eq|].
    case_match eqn:Hz; [by repeat case_match; simplify_eq|]. simplify_eq. simpl.
    repeat split; try done; [lia|]. intros m Hm.
    eapply (Near_advance fl m l); try done. apply (entry_missing fl); [done|].
    intros ? ?. simplify_eq. lia.
  - case_match eqn:Hz; [by repeat case_match; simplify_eq|]. simplify_eq. simpl.
    repeat split; try done; [lia|]. intros m Hm.
    eapply (Near_advance fl m l); try done. apply (entry_missing fl); [done|]. congruence.
Qed.

Lemma maybeStart_playing now j : playout j = true -> maybeStart now j = j.
Proof. unfold maybeStart. by intros ->. Qed.

Lemma decide_until_near fl nows m n j : Inv fl j -> playout j = true -> 0 < queued j ->
  Near m j -> (m <= length nows)%nat -> (0 < length nows)%nat -> is_Some (decide_until nows n j).
Proof.
  revert m j. induction nows as [|now nows IH]; intros m j HI Hp Hq HN Hl H0; simpl in *; [lia|].
  destruct (decide_playout now n j) as [k d] eqn:E.
  destruct d; eauto. pose proof (skip_nearer fl _ _ _ _ HI E) as (Hq' & Hp' & Hm).
  rewrite maybeStart_playing in Hm by done.
  pose proof (decide_playout_inv fl now n j HI) as HI'. rewrite E in HI'. simpl in HI'.
  destruct m as [|m].
  - destruct HN as (p & i & Hpi & Hd). destruct (inv_filed _ _ HI p i Hpi). lia.
  - specialize (Hm m HN). assert (m <> 0%nat).
    { intros ->. destruct Hm as (p & i & Hpi & Hd). destruct (inv_filed _ _ HI' p i Hpi). lia. }
    eapply (IH m); eauto; lia.
Qed.

(** Whatever the clock reads, [ReadRTP] skips fewer than [maxPackets] sequence
    numbers in a row before it returns or blocks. *)
Lemma decide_until_some fl nows n j : Inv fl j -> maxPackets j < len nows ->
  is_Some (decide_until nows n j).
Proof.
  intros HI Hl. destruct nows as [|now nows]; simpl.
  { pose proof (inv_delay _ _ HI). unfold len in Hl. simpl in Hl. lia. }
  destruct (decide_playout now n j) as [k d] eqn:E. destruct d; eauto.
  pose proof (decide_playout_inv fl now n j HI) as HI'. rewrite E in HI'. simpl in HI'.
  destruct (skip_nearer fl _ _ _ _ HI E) as (Hq' & Hp' & _).
  assert (maxPackets k = maxPackets j) as Em.
  { pose proof (f_equal (fun x => maxPackets x.1) E) as Em. simpl in Em. rewrite <- Em.
    apply decide_playout_limits. }
  pose proof (inv_delay _ _ HI). unfold len in Hl. simpl in Hl.
  eapply (decide_until_near fl _ (Z.to_nat (maxPackets k))); eauto using Near_max; lia.
Qed.

End JitterProps.
