(* ===== verification/JitterSpec.v ===== *)
(** * The RTP jitter buffer: refinement of a map from sequence numbers

    The abstract buffer is a finite map from sequence numbers to packets and a
    window start. [handleSlot] and the playout decisions of [ReadRTP] implement
    it: the slots, the free list and the ring indexed by
    [sequenceNumber % maxPackets] are only a representation of the map. *)
From S2P Require Import Prelude Rtp JitterBuffer JitterInv.
Import Jitter JitterInv.

Module JitterSpec.

(** ** The abstract buffer *)

Record window := {
  w_pkts : gmap Z rtpJitterSlot;
  w_exp : Z;
  w_ssrc : Z;
  w_set : bool;
  w_play : bool;
  w_resync : bool }.

#[export] Instance eta_window : Eta window := fun w =>
  {| w_pkts := w_pkts w; w_exp := w_exp w; w_ssrc := w_ssrc w; w_set := w_set w;
     w_play := w_play w; w_resync := w_resync w |}.

(** A stream starting with packet [s], before it is queued. *)
Definition fresh (s : rtpJitterSlot) : window :=
  {| w_pkts := ∅; w_exp := slot_seq s; w_ssrc := slot_ssrc s; w_set := true;
     w_play := false; w_resync := false |}.

(** How far ahead of the window start a sequence number is. *)
Definition ahead (w : window) (q : Z) : Z := i16 (q - w_exp w).

(** Queue [s] unless its sequence number is queued already. *)
Definition put (s : rtpJitterSlot) (w : window) : window :=
  match w_pkts w !! slot_seq s with
  | Some _ => w
  | None => w <| w_pkts := <[slot_seq s := s]> (w_pkts w) |>
  end.

(** Move the window start on to [next], dropping what is behind it. *)
Definition slide (next : Z) (w : window) : window :=
  w <| w_pkts := filter (fun kv => 0 <= i16 (kv.1 - next)) (w_pkts w) |> <| w_exp := next |>.

Definition fits (maxp : Z) (q : Z) (w : window) : Prop :=
  map_Forall (fun k _ => 0 <= i16 (k - q) < maxp) (w_pkts w).
#[export] Instance fits_dec maxp q w : Decision (fits maxp q w).
Proof. apply _. Defined.

Definition restart (maxp : Z) (s : rtpJitterSlot) (w : window) : window :=
  let w := if w_set w && (w_ssrc w =? slot_ssrc s) then w else fresh s in
  if w_resync w && bool_decide (w_pkts w = ∅) && (maxp <=? Z.abs (ahead w (slot_seq s)))
  then fresh s else w.

(** What the arrival of [s] does to the window of its stream. *)
Definition place (maxp delay : Z) (s : rtpJitterSlot) (w : window) : window :=
  let d := ahead w (slot_seq s) in
  if d <? 0 then
    if w_play w || w_resync w then w
    else if bool_decide (fits maxp (slot_seq s) w) then put s (w <| w_exp := slot_seq s |>) else w
  else if maxp <=? d then put s (slide (u16 (slot_seq s - (delay - 1))) w)
  else put s w.

Definition arrive (maxp delay : Z) (s : rtpJitterSlot) (w : window) : window :=
  place maxp delay s (restart maxp s w).

(** A packet of the window is in the way of [s]: its sequence number has the same
    remainder by the window size, which is one of those that do not divide 2^16, and
    the window reaches past the wrap of the sequence numbers. *)
Definition in_the_way (maxp : Z) (s : rtpJitterSlot) (w : window) : Prop :=
  ~ (maxp | 2 ^ 16) /\ 2 ^ 16 < w_exp w + maxp /\
  exists q t, w_pkts w !! q = Some t /\ q <> slot_seq s /\ q mod maxp = slot_seq s mod maxp.

(** ** The abstraction of a buffer *)

Definition contents (j : RTPJitterBuffer) : gmap Z rtpJitterSlot :=
  list_to_map ((fun i => (slot_seq (slot_at j i), slot_at j i)) <$> occupied (sequence j)).

Definition abs (j : RTPJitterBuffer) : window :=
  {| w_pkts := contents j; w_exp := expectedSeq j; w_ssrc := ssrc j; w_set := ssrcSet j;
     w_play := playout j; w_resync := resync j |}.

Lemma filed_unique fl j p q i k : Inv fl j ->
  sequence j !! p = Some (Some i) -> sequence j !! q = Some (Some k) ->
  slot_seq (slot_at j i) = slot_seq (slot_at j k) -> i = k.
Proof.
  intros HI Hp Hq E. pose proof (entry_filed _ _ _ _ HI Hp) as E1.
  pose proof (entry_filed _ _ _ _ HI Hq) as E2. congruence.
Qed.

Lemma contents_spec fl j q s : Inv fl j ->
  contents j !! q = Some s <->
  exists p i, sequence j !! p = Some (Some i) /\ slot_at j i = s /\ slot_seq s = q.
Proof.
  intros HI. unfold contents. rewrite <- elem_of_list_to_map.
  - rewrite list_elem_of_fmap. setoid_rewrite elem_of_occupied. naive_solver.
  - rewrite <- list_fmap_compose. unfold compose. simpl.
    pose proof (Inv_NoDup _ _ HI) as N. apply NoDup_app in N as (_ & _ & N).
    apply NoDup_app in N as (N & _). revert N. generalize (fun i => elem_of_occupied (sequence j) i).
    generalize (occupied (sequence j)) as l. intros l Hl N.
    assert (forall i, i ∈ l -> exists p, sequence j !! p = Some (Some i)) as Hl' by (intros; by apply Hl).
    clear Hl. induction N as [|i l Hi N IH]; simpl; constructor.
    + rewrite list_elem_of_fmap. intros (k & E & Hk).
      destruct (Hl' i) as [p Hp]; [by left|]. destruct (Hl' k) as [q' Hq]; [by right|].
      by rewrite (filed_unique fl j p q' i k HI Hp Hq E) in Hi.
    + apply IH. intros k Hk. apply Hl'. by right.
Qed.

Lemma contents_entry fl j q : Inv fl j ->
  contents j !! q =
  match entry j q with
  | Some i => if slot_seq (slot_at j i) =? q then Some (slot_at j i) else None
  | None => None
  end.
Proof.
  intros HI. apply option_eq. intros s. rewrite (contents_spec fl) by done. split.
  - intros (p & i & Hp & <- & <-). rewrite (entry_filed fl j p i HI Hp). by rewrite Z.eqb_refl.
  - destruct (entry j q) as [i|] eqn:E; [|done]. case_match eqn:Hq; [|done]. intros ?. simplify_eq.
    apply Z.eqb_eq in Hq. apply entry_Some in E. eauto.
Qed.

(** Two buffers with the same queued packets have the same contents. *)
Lemma contents_ext fl fl' j k : Inv fl j -> Inv fl' k ->
  (forall s, (exists p i, sequence j !! p = Some (Some i) /\ slot_at j i = s) <->
             (exists p i, sequence k !! p = Some (Some i) /\ slot_at k i = s)) ->
  contents j = contents k.
Proof.
  intros HI HK H. apply map_eq. intros q. apply option_eq. intros s.
  rewrite (contents_spec fl), (contents_spec fl') by done. specialize (H s). naive_solver.
Qed.

Lemma contents_same fl j k : Inv fl j -> SameQueue j k -> contents k = contents j.
Proof.
  intros HI HS. unfold contents, slot_at. destruct HS. by rewrite sq_slots0, sq_sequence0.
Qed.

Lemma contents_empty fl j : Inv fl j -> bool_decide (contents j = ∅) = (queued j =? 0).
Proof.
  intros HI. pose proof HI as []. unfold contents. apply Bool.eq_true_iff_eq.
  rewrite bool_decide_eq_true, Z.eqb_eq. split.
  - rewrite inv_queued0. destruct (occupied (sequence j)) as [|i l]; [done|]. intros E. simpl in E.
    by apply insert_non_empty in E.
  - intros E. by rewrite (queued_zero fl j HI E).
Qed.

Lemma abs_same fl j k : Inv fl j -> SameQueue j k -> abs k = abs j.
Proof.
  intros HI HS. unfold abs. rewrite (contents_same fl j k) by done. destruct HS. congruence.
Qed.

(** ** The operations on the queue *)

Lemma contents_cleared j : contents (clearSequence j) = ∅.
Proof. unfold contents. simpl. by rewrite occupied_cleared. Qed.

Lemma abs_reset now i j : abs (resetStream now (slot_ssrc (slot_at j i)) (slot_seq (slot_at j i)) j) = fresh (slot_at j i).
Proof. unfold abs, fresh. f_equal; try done. apply contents_cleared. Qed.

Lemma abs_restart now i j : SlotRead j i ->
  abs (restartStream now i j) = restart (maxPackets j) (slot_at j i) (abs j).
Proof.
  intros [HI Hs]. unfold restart, restartStream.
  assert (Inv (Some i) (count packetsRead j)) as HI' by (eapply Inv_same; eauto with go).
  cbn [w_set w_ssrc abs]. rewrite <- negb_andb. change (ssrcSet (count packetsRead j)) with (ssrcSet j).
  change (ssrc (count packetsRead j)) with (ssrc j).
  destruct (ssrcSet j && (ssrc j =? slot_ssrc (slot_at j i))); simpl negb; cbn iota.
  - cbn [w_resync w_pkts abs]. rewrite (contents_empty _ _ HI). unfold ahead. cbn [w_exp abs].
    change (resync (count packetsRead j)) with (resync j).
    change (queued (count packetsRead j)) with (queued j).
    change (maxPackets (count packetsRead j)) with (maxPackets j).
    change (expectedSeq (count packetsRead j)) with (expectedSeq j).
    set (d := i16 _). replace (maxPackets j <=? Z.abs d) with ((maxPackets j <=? d) || (maxPackets j <=? - d)) by lia.
    case_match; [apply (abs_reset now i (count packetsRead j))|by apply (abs_same (Some i))].
  - simpl. destruct (ssrcSet j); [apply (abs_reset now i (count ssrcResets (count packetsRead j)))|
                                  apply (abs_reset now i (count packetsRead j))].
Qed.

Lemma dropBefore_sequence fl next j p i : Inv fl j -> 0 <= next < 2 ^ 16 ->
  0 <= i16 (next - expectedSeq j) ->
  sequence (dropBefore next j) !! p = Some (Some i) <->
  sequence j !! p = Some (Some i) /\ 0 <= i16 (slot_seq (slot_at j i) - next).
Proof.
  intros HI Hn Hp. unfold dropBefore. cbn [sequence field_update].
  rewrite (dropBefore_loop_entries fl) by done. pose proof (inv_expected _ _ HI) as He.
  split; intros [H Hd]; (split; [done|]); destruct (inv_filed _ _ HI p i H) as [Hs _ Hw _].
  - specialize (Hd (i16 (slot_seq (slot_at j i) - expectedSeq j))). wrap_lia.
  - intros d Hd' E. rewrite E in *. wrap_lia.
Qed.

Lemma abs_dropBefore fl next j : Inv fl j -> 0 <= next < 2 ^ 16 ->
  0 <= i16 (next - expectedSeq j) -> abs (dropBefore next j) = slide next (abs j).
Proof.
  intros HI Hn Hp. pose proof (Inv_dropBefore fl next j Hn Hp HI) as HD.
  destruct (dropBefore_loop_frame (Z.to_nat (Z.min (i16 (next - expectedSeq j)) (maxPackets j))) 0 j)
    as (_ & _ & Hsl & _ & Hss & Hset & Hpl & Hre).
  assert (slots (dropBefore next j) = slots j) as Hsl' by done.
  unfold abs, slide. simpl. rewrite Hss, Hset, Hpl, Hre. f_equal.
  apply map_eq. intros q. apply option_eq. intros s.
  rewrite (contents_spec fl), map_lookup_filter_Some, (contents_spec fl) by done. simpl.
  setoid_rewrite (dropBefore_sequence fl); [|done..]. unfold slot_at. rewrite Hsl'. naive_solver.
Qed.

(** Two sequence numbers of a window that share a position have the same remainder; the
    window size does not divide 2^16, and the window reaches past the wrap. *)
Lemma position_shared fl j a b : Inv fl j -> 0 <= a < 2 ^ 16 -> 0 <= b < 2 ^ 16 ->
  0 <= i16 (a - expectedSeq j) < maxPackets j -> 0 <= i16 (b - expectedSeq j) < maxPackets j ->
  position j a = position j b -> a <> b ->
  ~ (maxPackets j | 2 ^ 16) /\ 2 ^ 16 < expectedSeq j + maxPackets j /\ a mod maxPackets j = b mod maxPackets j.
Proof.
  intros HI Ha Hb Wa Wb Hp Hab. pose proof (inv_delay _ _ HI) as Hm. pose proof (inv_expected _ _ HI) as He. unfold position in Hp.
  rewrite !Z.rem_mod_nonneg in Hp by lia.
  pose proof (Z.mod_pos_bound a (maxPackets j) ltac:(lia)).
  pose proof (Z.mod_pos_bound b (maxPackets j) ltac:(lia)).
  assert (a mod maxPackets j = b mod maxPackets j) as Hmod by lia. clear Hp.
  set (m := maxPackets j) in *. set (e := expectedSeq j) in *.
  assert (exists k, i16 (a - e) - i16 (b - e) = a - b + 2 ^ 16 * k) as [k Hk].
  { exists (- ((a - e + 2 ^ 15) / 2 ^ 16) + (b - e + 2 ^ 15) / 2 ^ 16).
    unfold i16. rewrite !Z.mod_eq by lia. lia. }
  assert (exists k', a - b = m * k') as [k' Hk'].
  { exists (a / m - b / m). pose proof (Z.div_mod a m). pose proof (Z.div_mod b m). lia. }
  split_and!; [| |done].
  - intros [c Hc]. rewrite Hk', Hc in Hk. assert (i16 (a - e) - i16 (b - e) = m * (k' + c * k)) as Hd by lia.
    assert (k' + c * k = 0) by nia. assert (i16 (a - e) = i16 (b - e)) by lia. apply Hab. clear - H2 Ha Hb. wrap_lia.
  - destruct (Z.lt_ge_cases (2 ^ 16) (e + m)) as [?|Hle]; [done|exfalso].
    assert (a = e + i16 (a - e) /\ b = e + i16 (b - e)) as [Ea Eb] by (clear - Ha Hb Wa Wb Hle He; wrap_lia).
    assert (- m < a - b < m) by lia. assert (k' = 0) by nia. lia.
Qed.

(** Whatever happens to the last packet, [fileSlot] leaves the sequence numbers
    but its own as they were. *)
Lemma abs_enqueue i k (s := slot_seq (slot_at k i)) : SlotRead k i ->
  0 <= i16 (s - expectedSeq k) < maxPackets k -> slot_ssrc (slot_at k i) = ssrc k -> ssrcSet k = true ->
  entry k s = None ->
  contents (k <| sequence := <[position k s := Some i]> (sequence k) |> <| queued := queued k + 1 |>) =
  <[s := slot_at k i]> (contents k).
Proof.
  intros [HI Hs] Hw Hss Hset He. pose proof (Inv_enqueue i k HI Hs Hw Hss Hset He) as HE.
  apply map_eq. intros q. apply option_eq. intros t.
  rewrite lookup_insert_Some, (contents_spec None), (contents_spec (Some i)) by done.
  pose proof (entry_None _ _ _ HI (proj1 Hs) He) as HN. subst s.
  setoid_rewrite list_lookup_insert_Some. unfold slot_at in *. simpl. split.
  - intros (p & l & [(<- & ? & _)|(Hne & Hp)] & <- & <-); simplify_eq; [by left|].
    right. split; [|eauto 6]. intros E. pose proof (entry_filed _ _ _ _ HI Hp) as Hl.
    unfold slot_at in Hl. rewrite <- E, He in Hl. done.
  - intros [(<- & <-)|(Hne & p & l & Hp & <- & <-)].
    + exists (position k (slot_seq (slots k !!! i))), i. repeat split. left.
      repeat split. by apply lookup_lt_Some in HN.
    + exists p, l. repeat split; auto. right. split; [|done]. intros <-. congruence.
Qed.

(** What filing a packet comes to: it is queued once, or it alone is dropped, for there
    is another in the way. *)
Definition queued_or_dropped (maxp : Z) (s : rtpJitterSlot) (filed meant : window) : Prop :=
  filed = meant \/
  (w_pkts filed !! slot_seq s = None /\ meant = filed <| w_pkts := <[slot_seq s := s]> (w_pkts filed) |> /\ in_the_way maxp s filed).

Lemma abs_fileSlot now i k : SlotRead k i ->
  0 <= i16 (slot_seq (slot_at k i) - expectedSeq k) < maxPackets k ->
  slot_ssrc (slot_at k i) = ssrc k -> ssrcSet k = true ->
  queued_or_dropped (maxPackets k) (slot_at k i) (abs (fileSlot now i k)) (put (slot_at k i) (abs k)).
Proof.
  intros HS Hw Hss Hset. pose proof HS as [HI Hs]. unfold put. cbn [w_pkts abs].
  rewrite (contents_entry (Some i)) by done. unfold fileSlot.
  destruct (entry k (slot_seq (slot_at k i))) as [e|] eqn:E.
  - destruct (Z.eqb_spec (slot_seq (slot_at k e)) (slot_seq (slot_at k i))) as [Eq|Hne]; [by left|right].
    match goal with |- context [abs (freeSlot i ?x)] => change (abs (freeSlot i x)) with (abs k) end.
    pose proof E as E'. apply entry_Some in E'. destruct (inv_filed _ _ HI _ _ E') as [H1 H2 H3 _].
    destruct (position_shared (Some i) k _ _ HI H1 Hs H3 Hw (eq_sym H2) Hne) as (D1 & D2 & D3). split; [|split; [done|]].
    + cbn [w_pkts abs]. rewrite (contents_entry (Some i)), E by done. by apply Z.eqb_neq in Hne as ->.
    + split_and!; [done..|]. exists (slot_seq (slot_at k e)), (slot_at k e). split_and!; [|done|done]. apply (contents_spec (Some i)); eauto 6.
  - left. pose proof (abs_enqueue i k HS Hw Hss Hset E) as HE.
    unfold abs at 2. cbn [field_update w_pkts]. simpl. rewrite <- HE.
    case_match; done.
Qed.

Lemma fits_canMoveExpectedBack fl q j : Inv fl j ->
  canMoveExpectedBack q j = bool_decide (fits (maxPackets j) q (abs j)).
Proof.
  intros HI. apply Bool.eq_true_iff_eq. rewrite bool_decide_eq_true. unfold canMoveExpectedBack, fits.
  cbn [w_pkts abs]. rewrite forallb_forall. split.
  - intros H k s Hk. apply (contents_spec fl) in Hk as (p & i & Hp & <- & <-); [|done].
    assert (In i (occupied (sequence j))) as Hi by (apply list_elem_of_In, elem_of_occupied; eauto).
    specialize (H i Hi). lia.
  - intros H i Hi. apply list_elem_of_In, elem_of_occupied in Hi as [p Hp].
    assert (contents j !! slot_seq (slot_at j i) = Some (slot_at j i)) as Hc
      by (apply (contents_spec fl); eauto 6).
    specialize (H _ _ Hc). simpl in H. lia.
Qed.

Lemma placeSlot_max i j :
  match placeSlot i j with inl k | inr k => maxPackets k = maxPackets j end.
Proof.
  unfold placeSlot. repeat case_match; simplify_eq; try done.
  unfold dropBefore. simpl. apply dropBefore_loop_frame.
Qed.

Lemma abs_placeSlot i j : SlotRead j i ->
  match placeSlot i j with
  | inl k => abs k = place (maxPackets j) (delayPackets j) (slot_at j i) (abs j)
  | inr k => put (slot_at j i) (abs k) = place (maxPackets j) (delayPackets j) (slot_at j i) (abs j)
  end.
Proof.
  intros [HI Hs]. pose proof (inv_delay _ _ HI) as Hd. pose proof (inv_expected _ _ HI) as He.
  unfold placeSlot, place, ahead. cbn [w_exp w_play w_resync abs].
  rewrite (fits_canMoveExpectedBack (Some i)) by done.
  destruct (_ <? 0) eqn:Hneg; [destruct (playout j || resync j); [done|]; by destruct (bool_decide _)|].
  destruct (_ <=? _) eqn:Hge; [|done].
  rewrite (u16_small (delayPackets j - 1)) by wrap_lia.
  rewrite (abs_dropBefore (Some i)); [done|done|apply u16_range|wrap_lia].
Qed.

(** The whole arrival of a packet. *)
Lemma abs_handleSlot now i j : SlotRead j i ->
  queued_or_dropped (maxPackets j) (slot_at j i) (abs (handleSlot now i j)) (arrive (maxPackets j) (delayPackets j) (slot_at j i) (abs j)).
Proof.
  intros HS. destruct (restartStream_ok now i j HS) as [HR HO]. pose proof (abs_restart now i j HS) as HA.
  unfold handleSlot, arrive. set (k := restartStream now i j) in *.
  pose proof (learn_same (slot_at k i) k) as HL. set (l := learnPacketDuration (slot_at k i) k) in *.
  rewrite <- HA, <- (abs_same _ k l HR HL). destruct HS as [HI Hs], HO, HL.
  assert (slot_at l i = slot_at j i) as Esl by (unfold slot_at; congruence).
  assert (SlotRead l i) as HSl.
  { split; [eapply Inv_same; eauto; apply learn_same|by rewrite Esl]. }
  pose proof (placeSlot_ok i l HSl) as HP. pose proof (abs_placeSlot i l HSl) as HA'.
  rewrite Esl in HA'. replace (maxPackets l) with (maxPackets j) in HA' by congruence.
  replace (delayPackets l) with (delayPackets j) in HA' by congruence.
  pose proof (placeSlot_max i l) as HM.
  destruct (placeSlot i l) as [m|m]; [by left|]. destruct HP as [HPi (E1 & E2 & E3) HPw].
  assert (slot_at m i = slot_at j i) as Esm by (unfold slot_at in *; congruence).
  rewrite <- HA', <- Esm. assert (maxPackets j = maxPackets m) as -> by congruence. apply abs_fileSlot; try done.
  - split; [done|by rewrite Esm].
  - congruence.
  - congruence.
Qed.

(** ** The playout decision on the abstract buffer *)

Lemma contents_dequeue fl j p i : Inv fl j -> sequence j !! p = Some (Some i) ->
  contents (freeSlot i (j <| sequence := <[p := None]> (sequence j) |> <| queued := queued j - 1 |>)) =
  delete (slot_seq (slot_at j i)) (contents j).
Proof.
  intros HI Hp. pose proof (Inv_dequeue fl j p i HI Hp) as HD.
  apply map_eq. intros q. apply option_eq. intros t.
  rewrite lookup_delete_Some, !(contents_spec fl) by done. simpl.
  setoid_rewrite list_lookup_insert_Some. unfold slot_at. simpl. split.
  - intros (p' & k & [(_ & ? & _)|(Hne & Hk)] & <- & <-); [done|].
    split; [|eauto 6]. intros E. apply Hne.
    rewrite (filed_pos _ _ _ (inv_filed _ _ HI _ _ Hp)), (filed_pos _ _ _ (inv_filed _ _ HI _ _ Hk)).
    unfold slot_at. by rewrite E.
  - intros (Hne & p' & k & Hk & <- & <-). exists p', k. split; [|done]. right. split; [|done].
    intros ->. congruence.
Qed.

(** What a playing buffer does when its next packet is due. *)
Inductive verdict :=
| Play (s : rtpJitterSlot)  (** the packet is queued: hand it out *)
| TooShort                  (** it is queued and does not fit the caller's buffer *)
| Miss                      (** it is not, and later ones are: count it lost *)
| Stop.                     (** nothing is queued: stop and wait for the stream *)

Definition due (buflen : Z) (w : window) : window * verdict :=
  let next := u16 (w_exp w + 1) in
  match w_pkts w !! w_exp w with
  | Some s => if buflen <? slot_n s then (w, TooShort)
              else (w <| w_pkts := delete (w_exp w) (w_pkts w) |> <| w_exp := next |>, Play s)
  | None => if bool_decide (w_pkts w = ∅) then (w <| w_play := false |> <| w_resync := true |>, Stop)
            else (w <| w_exp := next |>, Miss)
  end.

(** A decision of [ReadRTP] carries out a verdict. *)
Definition carries_out (d : decision) (v : verdict) : Prop :=
  match v with
  | Play s => d = Release (slot_raw s)
  | TooShort => d = ShortBuffer
  | Miss => d = Skip
  | Stop => (exists t, d = Wait t) \/ (exists e, d = Ended e)
  end.

Lemma decide_due fl now n j : Inv fl j -> playout j = true -> releaseAt j <= now ->
  abs (decide_playout now n j).1 = (due n (abs j)).1 /\
  carries_out (decide_playout now n j).2 (due n (abs j)).2.
Proof.
  intros HI Hp Hr. unfold decide_playout, due, maybeStart. rewrite Hp. simpl.
  rewrite Hp. replace (releaseAt j <=? now) with true by lia. simpl.
  rewrite (contents_entry fl), (contents_empty fl) by done. unfold idle.
  destruct (entry j (expectedSeq j)) as [i|] eqn:E; [destruct (_ =? _) eqn:Hi|].
  - destruct (_ <? _); [done|]. split; [|done]. apply Z.eqb_eq in Hi. apply entry_Some in E.
    unfold abs at 1. simpl. f_equal. rewrite <- Hi. apply (contents_dequeue fl); [done|by rewrite Hi].
  - destruct (queued j =? 0); [|done]. split; [done|]. simpl. repeat case_match; eauto.
  - destruct (queued j =? 0); [|done]. split; [done|]. simpl. repeat case_match; eauto.
Qed.

End JitterSpec.
