(* ===== verification/JitterOrder.v ===== *)
(** * The RTP jitter buffer: order of delivery and accounting

    Along a run in which the stream is not restarted, [ReadRTP] returns packets
    of strictly increasing sequence numbers; every packet read is released, late,
    a duplicate, dropped, cleared by a restart, or still queued. *)
From stdpp Require Import sorting.
From S2P Require Import Prelude Rtp JitterBuffer JitterInv JitterProps JitterSpec.
Import Jitter JitterInv JitterProps JitterSpec.

Module JitterOrder.

(** ** What the operations leave queued *)

Lemma dropBefore_loop_sub n i j p k :
  sequence (dropBefore_loop n i j) !! p = Some (Some k) -> sequence j !! p = Some (Some k).
Proof.
  revert i j. induction n as [|n IH]; intros i j; simpl; [done|]. intros H. apply IH in H. revert H.
  unfold dropStale. repeat case_match; try done. simpl. rewrite list_lookup_insert_Some. naive_solver.
Qed.

(** [k] has the slots of [j] and queues nothing that [j] does not, but for [i]. *)
Record Sub (o : option nat) (j k : RTPJitterBuffer) : Prop := {
  sub_slots : slots k = slots j;
  sub_entries : forall p i, sequence k !! p = Some (Some i) -> o = Some i \/ sequence j !! p = Some (Some i) }.

Lemma Sub_trans o j k l : Sub o j k -> Sub o k l -> Sub o j l.
Proof. intros [E1 H1] [E2 H2]. split; [congruence|]. naive_solver. Qed.

Lemma Sub_same o j k : slots k = slots j -> sequence k = sequence j -> Sub o j k.
Proof. intros E1 E2. split; [done|]. rewrite E2. auto. Qed.

Lemma Sub_reset o now s q j : Sub o j (resetStream now s q j).
Proof.
  split; [done|]. simpl. intros p i. rewrite list_lookup_fmap. by destruct (sequence j !! p).
Qed.

Lemma restartStream_sub now i j : Sub (Some i) j (restartStream now i j).
Proof.
  unfold restartStream.
  repeat case_match; (try by apply Sub_same);
    repeat (eapply Sub_trans; [|by apply Sub_reset]); by apply Sub_same.
Qed.

Lemma placeSlot_sub i j : match placeSlot i j with inl k | inr k => Sub (Some i) j k end.
Proof.
  unfold placeSlot. repeat case_match; simplify_eq; try by apply Sub_same.
  split; [by unfold dropBefore; simpl; apply dropBefore_loop_frame|].
  intros p q H. right. by apply dropBefore_loop_sub in H.
Qed.

Lemma fileSlot_sub now i j : Sub (Some i) j (fileSlot now i j).
Proof.
  unfold fileSlot. repeat case_match; try by apply Sub_same.
  all: split; [done|]; simpl; intros p q; rewrite list_lookup_insert_Some; naive_solver.
Qed.

Lemma learn_sub o s j : Sub o j (learnPacketDuration s j).
Proof. destruct (learn_same s j). by apply Sub_same. Qed.

Lemma handleSlot_sub now i j : Sub (Some i) j (handleSlot now i j).
Proof.
  unfold handleSlot. eapply Sub_trans; [apply (restartStream_sub now)|].
  set (k := restartStream now i j). clearbody k.
  eapply Sub_trans; [apply (learn_sub _ (slot_at k i))|]. set (l := learnPacketDuration _ _). clearbody l.
  pose proof (placeSlot_sub i l). destruct (placeSlot i l); [done|].
  eauto using Sub_trans, fileSlot_sub.
Qed.

Lemma startPlayout_loop_sub n j : slots (startPlayout_loop n j) = slots j /\
  sequence (startPlayout_loop n j) = sequence j.
Proof.
  revert j. induction n as [|n IH]; intros j; simpl; [done|]. case_match; [|done].
  by pose proof (IH (count packetsLost j <| expectedSeq := u16 (expectedSeq j + 1) |>)).
Qed.

Lemma maybeStart_sub now j : slots (maybeStart now j) = slots j /\ sequence (maybeStart now j) = sequence j.
Proof.
  unfold maybeStart, startPlayout. repeat case_match; try done.
  by pose proof (startPlayout_loop_sub (Z.to_nat (maxPackets j)) (j <| startAt := time_zero |>)).
Qed.

Lemma decide_playout_sub now n j : Sub None j (decide_playout now n j).1.
Proof.
  destruct (maybeStart_sub now j) as [E1 E2]. eapply Sub_trans; [by apply Sub_same|].
  unfold decide_playout. clear E1 E2. set (k := maybeStart now j).
  repeat case_match; (try by apply Sub_same).
  split; [done|]. simpl. intros p q. rewrite list_lookup_insert_Some. naive_solver.
Qed.

(** ** How far the operations move [expectedSeq] *)

(** The stream has played: [expectedSeq] only moves on until it is restarted. *)
Definition streaming (j : RTPJitterBuffer) : bool := playout j || resync j.

Record Adv (d : Z) (j k : RTPJitterBuffer) : Prop := {
  adv_nonneg : 0 <= d;
  adv_expected : expectedSeq k = u16 (expectedSeq j + d);
  adv_streaming : streaming j = true -> streaming k = true }.

Lemma Adv_trans d e j k l : Adv d j k -> Adv e k l -> Adv (d + e) j l.
Proof. intros [] []. split; [lia| |auto]. rewrite adv_expected1, adv_expected0. wrap_lia. Qed.

Lemma Adv_refl j k : 0 <= expectedSeq j < 2 ^ 16 -> expectedSeq k = expectedSeq j ->
  streaming k = streaming j -> Adv 0 j k.
Proof. intros H E1 E2. split; [done| |by rewrite E2]. rewrite E1. wrap_lia. Qed.

(** The arrival of slot [i] does not restart the stream. *)
Definition keeps (i : nat) (j : RTPJitterBuffer) : Prop :=
  ssrcSet j = true /\ ssrc j = slot_ssrc (slot_at j i) /\
  ~ (resync j = true /\ queued j = 0 /\ maxPackets j <= Z.abs (i16 (slot_seq (slot_at j i) - expectedSeq j))).

Lemma restartStream_keeps now i j : keeps i j -> restartStream now i j = count packetsRead j.
Proof.
  intros (H1 & H2 & H3). unfold restartStream. simpl. rewrite H1, H2, Z.eqb_refl. simpl.
  case_match eqn:E; [|done]. rewrite !andb_true_iff in E. destruct E as [[E1 E2] E3].
  destruct H3. repeat split; [done|lia..].
Qed.

Lemma fileSlot_adv now i j : 0 <= expectedSeq j < 2 ^ 16 -> Adv 0 j (fileSlot now i j).
Proof. intros. unfold fileSlot. repeat case_match; by apply Adv_refl. Qed.

Lemma placeSlot_adv i j : SlotRead j i -> streaming j = true ->
  exists d, match placeSlot i j with inl k | inr k => Adv d j k end.
Proof.
  intros [HI Hs] Hst. pose proof (inv_expected _ _ HI) as He. pose proof (inv_delay _ _ HI) as Hd.
  unfold placeSlot. unfold streaming in Hst. rewrite Hst.
  destruct (_ <? 0) eqn:Hneg; [by exists 0; apply Adv_refl|].
  destruct (_ <=? _) eqn:Hge; [|by exists 0; apply Adv_refl].
  set (next := u16 _) in *. exists (i16 (next - expectedSeq j)). unfold dropBefore.
  destruct (dropBefore_loop_frame (Z.to_nat (Z.min (i16 (next - expectedSeq j)) (maxPackets j))) 0 j)
    as (_ & _ & _ & _ & _ & _ & Hp & Hr).
  split; [subst next; wrap_lia|simpl; subst next; wrap_lia|].
  unfold streaming. simpl. by rewrite Hp, Hr.
Qed.

Lemma learn_adv fl s j : Inv fl j -> Adv 0 j (learnPacketDuration s j).
Proof.
  intros HI. destruct (learn_same s j). apply Adv_refl; [apply HI|done|].
  unfold streaming. by rewrite sq_playout0, sq_resync0.
Qed.

Lemma learn_SlotRead s i j : SlotRead j i -> SlotRead (learnPacketDuration s j) i.
Proof.
  intros [HI Hs]. split; [eapply Inv_same; eauto with go|].
  destruct (learn_same s j). unfold slot_at in *. by rewrite sq_slots0.
Qed.

Lemma handleSlot_adv now i j : SlotRead j i -> keeps i j -> streaming j = true ->
  exists d, Adv d j (handleSlot now i j).
Proof.
  intros HS HK Hst. unfold handleSlot. rewrite restartStream_keeps by done.
  assert (SlotRead (count packetsRead j) i) as HS1.
  { destruct HS. split; [eapply Inv_same; eauto with go|done]. }
  pose proof (learn_adv (Some i) (slot_at (count packetsRead j) i) _ (proj1 HS1)) as HA.
  pose proof (learn_SlotRead (slot_at (count packetsRead j) i) i _ HS1) as HSl.
  set (l := learnPacketDuration _ _) in *. clearbody l. destruct HA as [_ E1 E2].
  destruct (placeSlot_adv i l HSl (E2 Hst)) as [d HD]. pose proof (placeSlot_ok i l HSl) as HP.
  assert (Adv 0 j l) as HA by done. exists (0 + d). eapply Adv_trans; [exact HA|].
  destruct (placeSlot i l) as [m|m]; [done|]. rewrite <- (Z.add_0_r d).
  eapply Adv_trans; [exact HD|]. apply fileSlot_adv. apply HP.
Qed.

Lemma startPlayout_loop_adv n j : 0 <= expectedSeq j < 2 ^ 16 ->
  exists d, 0 <= d /\ expectedSeq (startPlayout_loop n j) = u16 (expectedSeq j + d).
Proof.
  revert j. induction n as [|n IH]; intros j Hj; cbn [startPlayout_loop]; [exists 0; wrap_lia|].
  case_match; [|exists 0; wrap_lia].
  destruct (IH (count packetsLost j <| expectedSeq := u16 (expectedSeq j + 1) |>)) as (d & Hd & E);
    [simpl; auto with go|].
  exists (d + 1). split; [lia|]. rewrite E. simpl. wrap_lia.
Qed.

Lemma maybeStart_adv fl now j : Inv fl j -> exists d, Adv d j (maybeStart now j).
Proof.
  intros HI. pose proof (inv_expected _ _ HI) as He.
  unfold maybeStart. repeat case_match; [by exists 0; apply Adv_refl| |by exists 0; apply Adv_refl].
  destruct (startPlayout_loop_adv (Z.to_nat (maxPackets j)) (j <| startAt := time_zero |>)) as (d & Hd & E); [done|].
  by exists d.
Qed.

(** A release hands out the queued packet [expectedSeq] has come to. *)
Definition Released (d : Z) (raw : bytes) (j : RTPJitterBuffer) : Prop :=
  exists p i, sequence j !! p = Some (Some i) /\ raw = slot_raw (slot_at j i) /\
    slot_seq (slot_at j i) = u16 (expectedSeq j + (d - 1)).

Lemma decide_playout_adv fl now n j : Inv fl j ->
  exists d, Adv d j (decide_playout now n j).1 /\
  (forall raw, (decide_playout now n j).2 = Release raw -> 0 < d /\ Released d raw j).
Proof.
  intros HI. destruct (maybeStart_adv fl now j HI) as [d HD].
  destruct (maybeStart_sub now j) as [Es Eq]. apply (maybeStart_inv fl now) in HI.
  unfold decide_playout. set (k := maybeStart now j) in *.
  assert (Adv 0 k k) as H0 by (apply Adv_refl; [apply HI|done..]).
  destruct (playout k && (releaseAt k <=? now)) eqn:Hp.
  2:{ exists d. split; [done|]. unfold idle. intros raw. repeat case_match; done. }
  apply andb_true_iff in Hp as [Hp _].
  assert (forall l, expectedSeq l = u16 (expectedSeq k + 1) -> playout l = true -> Adv (d + 1) j l) as H1.
  { intros l E1 E2. apply (Adv_trans _ _ _ k); [done|]. split; [lia|done|].
    intros _. unfold streaming. by rewrite E2. }
  assert (Adv d j (stopPlayout k)) as H2.
  { rewrite <- (Z.add_0_r d). apply (Adv_trans _ _ _ k); [done|]. split; [done|simpl; apply H0|done]. }
  unfold idle. destruct (entry k (expectedSeq k)) as [i|] eqn:E.
  - destruct (_ =? _) eqn:Hi.
    + apply Z.eqb_eq in Hi. destruct (_ <? _); [by exists d|].
      exists (d + 1). split; [by apply H1|]. intros raw Hr. simpl in Hr. simplify_eq.
      destruct HD as [Hd Hde _]. split; [lia|]. apply entry_Some in E.
      exists (position k (expectedSeq k)), i. rewrite <- Eq. unfold slot_at in *. rewrite <- Es. repeat split; try done.
      rewrite Hi, Hde. f_equal. lia.
    + destruct (queued k =? 0); [|by exists (d + 1); split; [apply H1|]]. exists d. split; [done|].
      intros raw. repeat case_match; done.
  - destruct (queued k =? 0); [|by exists (d + 1); split; [apply H1|]]. exists d. split; [done|].
    intros raw. repeat case_match; done.
Qed.

(** ** Delivery along a run *)

Section Order.
Context (RTPUnmarshal : bytes -> rtp_packet + error).

(** The upstream reader parses the bytes it returns as [RTPUnmarshal] does: the
    packet it fills in is the one those bytes unmarshal to. *)
Definition parsed (ev : jevent) : Prop :=
  match ev with
  | EvUpstream _ (ReadOk _ raw pkt) => RTPUnmarshal raw = inl pkt
  | _ => True
  end.

(** The action does not restart the stream. *)
Definition stays (ev : jevent) (w : jworld) : Prop :=
  match ev, pc w with
  | EvUpstream _ (ReadOk n raw pkt), Reading i _ =>
    n = 0 \/ ssrcSet (jb w) = true /\ ssrc (jb w) = SSRC (Header pkt) /\
      ~ (resync (jb w) = true /\ queued (jb w) = 0 /\
         maxPackets (jb w) <= Z.abs (i16 (SequenceNumber (Header pkt) - expectedSeq (jb w))))
  | _, _ => True
  end.

Inductive stream_run : jworld -> list (option read_result) -> jworld -> Prop :=
| sr_nil w : stream_run w [] w
| sr_snoc w outs w1 ev out w2 :
  stream_run w outs w1 -> event_ok ev -> parsed ev -> stays ev w1 ->
  jstep RTPUnmarshal ev w1 = Some (w2, out) -> stream_run w (outs ++ [out]) w2.

(** The packets [ReadRTP] returned, oldest first. *)
Definition packets (outs : list (option read_result)) : list rtp_packet :=
  omap (fun o => match o with Some (RPacket _ p) => Some p | _ => None end) outs.

(** Every queued slot holds the bytes of its packet. *)
Definition QueueParsed (j : RTPJitterBuffer) : Prop :=
  forall p i, sequence j !! p = Some (Some i) ->
    RTPUnmarshal (slot_raw (slot_at j i)) = inl (slot_packet (slot_at j i)) /\
    slot_seq (slot_at j i) = SequenceNumber (Header (slot_packet (slot_at j i))).

Lemma QueueParsed_sub o j k : Sub o j k -> QueueParsed j ->
  (forall i, o = Some i -> RTPUnmarshal (slot_raw (slot_at j i)) = inl (slot_packet (slot_at j i)) /\
    slot_seq (slot_at j i) = SequenceNumber (Header (slot_packet (slot_at j i)))) -> QueueParsed k.
Proof.
  intros [Es He] HQ Ho p i H. unfold slot_at in *. rewrite Es.
  destruct (He p i H) as [->|H']; [by apply Ho|by eapply HQ].
Qed.

Lemma QueueParsed_same j k : slots k = slots j -> sequence k = sequence j -> QueueParsed j -> QueueParsed k.
Proof. intros E1 E2 H. apply (QueueParsed_sub None j); [by apply Sub_same|done|done]. Qed.

(** One action that stays on the stream: how far it moves [expectedSeq], and the
    packet it returns. *)
Lemma ReadRTP_iter_order fl now n j k res : Inv fl j -> QueueParsed j ->
  ReadRTP_iter RTPUnmarshal now n j = (k, res) ->
  QueueParsed k /\ exists d, Adv d j k /\
  forall m p, res = RPacket m p -> 0 < d /\ SequenceNumber (Header p) = u16 (expectedSeq j + (d - 1)).
Proof.
  intros HI HQ. unfold ReadRTP_iter. case_match.
  { intros ?. simplify_eq. split; [done|]. exists 0. split; [by apply Adv_refl; [apply HI|..]|done]. }
  pose proof (decide_playout_sub now n j) as HS.
  destruct (decide_playout_adv fl now n j HI) as (d & HD & HR).
  destruct (decide_playout now n j) as [l dec]. simpl in *.
  assert (QueueParsed l) as HQl by (by apply (QueueParsed_sub None j)).
  destruct dec as [raw| | |e|t].
  2-5: intros ?; simplify_eq; split; [done|]; by exists d.
  destruct (HR raw eq_refl) as (Hd & p & i & Hp & -> & Hs). destruct (HQ p i Hp) as [HU Hseq].
  rewrite HU. intros ?. simplify_eq. split; [by apply (QueueParsed_same l)|]. exists d.
  split; [by destruct HD|]. intros m q Hq. simplify_eq. split; [done|]. congruence.
Qed.

Lemma notify_parsed j : QueueParsed j -> QueueParsed (notify j).
Proof. by apply QueueParsed_same. Qed.

Lemma read_into_parsed now i slot j : Inv (Some i) j -> QueueParsed j ->
  RTPUnmarshal (slot_raw slot) = inl (slot_packet slot) ->
  slot_seq slot = SequenceNumber (Header (slot_packet slot)) ->
  QueueParsed (handleSlot now i (j <| slots := <[i := slot]> (slots j) |>)).
Proof.
  intros HI HQ HU Hseq. pose proof (slot_at_read_into i slot j HI) as Esl.
  set (k := j <| slots := <[i := slot]> (slots j) |>) in *.
  apply (QueueParsed_sub (Some i) k); [apply handleSlot_sub| |intros q [= <-]; by rewrite Esl].
  intros p q Hq. assert (q <> i) by (intros ->; by apply (inflight_not_queued i j p)).
  unfold k, slot_at. simpl. rewrite list_lookup_total_insert_ne by done. by apply (HQ p).
Qed.

Lemma readLoop_file_parsed now i r j : Inv (Some i) j -> QueueParsed j ->
  event_ok (EvUpstream now r) -> parsed (EvUpstream now r) -> QueueParsed (readLoop_file now i r j).
Proof.
  intros HI HQ Hok Hpa. destruct r as [n raw pkt|e]; cbn [readLoop_file event_ok parsed] in *.
  2: by apply (QueueParsed_same j).
  destruct (n =? 0); [by apply (QueueParsed_same j)|].
  by apply notify_parsed, read_into_parsed.
Qed.

Lemma notify_order j k : QueueParsed k /\ (exists d, Adv d j k) ->
  QueueParsed (notify k) /\ exists d, Adv d j (notify k).
Proof. intros [HQ [d []]]. split; [by apply (QueueParsed_same k)|by exists d]. Qed.

Lemma read_into_order now i slot j : Inv (Some i) j -> QueueParsed j -> streaming j = true ->
  0 <= slot_seq slot < 2 ^ 16 -> RTPUnmarshal (slot_raw slot) = inl (slot_packet slot) ->
  slot_seq slot = SequenceNumber (Header (slot_packet slot)) ->
  ssrcSet j = true -> ssrc j = slot_ssrc slot ->
  ~ (resync j = true /\ queued j = 0 /\ maxPackets j <= Z.abs (i16 (slot_seq slot - expectedSeq j))) ->
  let k := handleSlot now i (j <| slots := <[i := slot]> (slots j) |>) in
  QueueParsed k /\ exists d, Adv d j k.
Proof.
  intros HI HQ Hst Hs HU Hseq H1 H2 H3 h.
  pose proof (slot_at_read_into i slot j HI) as Esl. pose proof (Inv_read_into i slot j HI) as HI'.
  subst h. set (k := j <| slots := <[i := slot]> (slots j) |>) in *.
  assert (keeps i k) as HK by (unfold keeps; by rewrite Esl).
  assert (SlotRead k i) as HSk by (split; [done|by rewrite Esl]).
  destruct (handleSlot_adv now i k HSk HK Hst) as [d [Hd1 Hd2 Hd3]].
  split; [|exists d; split; [exact Hd1|exact Hd2|exact Hd3]].
  by apply read_into_parsed.
Qed.

Lemma readLoop_file_order now i r j : Inv (Some i) j -> QueueParsed j -> streaming j = true ->
  event_ok (EvUpstream now r) -> parsed (EvUpstream now r) ->
  stays (EvUpstream now r) {| jb := j; pc := Reading i 0 |} ->
  QueueParsed (readLoop_file now i r j) /\ exists d, Adv d j (readLoop_file now i r j).
Proof.
  intros HI HQ Hst Hok Hpa Hstay. pose proof (inv_expected _ _ HI) as He.
  destruct r as [n raw pkt|e]; cbn [readLoop_file event_ok parsed stays jb pc] in *.
  2:{ split; [by apply (QueueParsed_same j)|]. exists 0. by apply Adv_refl. }
  destruct (Z.eqb_spec n 0) as [->|Hn].
  { split; [by apply (QueueParsed_same j)|]. exists 0. by apply Adv_refl. }
  destruct Hstay as [?|(H1 & H2 & H3)]; [done|]. destruct Hok as [_ [Hs _]].
  by apply notify_order, read_into_order.
Qed.

Lemma jstep_order ev w w' out : WInv w -> QueueParsed (jb w) -> streaming (jb w) = true ->
  event_ok ev -> parsed ev -> stays ev w -> jstep RTPUnmarshal ev w = Some (w', out) ->
  QueueParsed (jb w') /\ exists d, Adv d (jb w) (jb w') /\
  forall m p, out = Some (RPacket m p) -> 0 < d /\ SequenceNumber (Header p) = u16 (expectedSeq (jb w) + (d - 1)).
Proof.
  intros [HI _ _ _] HQ Hst Hok Hpa Hstay H. destruct w as [j q]. cbn [jb pc] in *.
  pose proof (inv_expected _ _ HI) as He.
  assert (forall k, slots k = slots j -> sequence k = sequence j -> expectedSeq k = expectedSeq j ->
    streaming k = streaming j -> QueueParsed k /\ exists d, Adv d j k /\
    forall m p, None = Some (RPacket m p) -> 0 < d /\ SequenceNumber (Header p) = u16 (expectedSeq j + (d - 1))) as Hsame.
  { intros k E1 E2 E3 E4. split; [by apply (QueueParsed_same j)|]. exists 0.
    split; [by apply Adv_refl|done]. }
  destruct ev as [now n| |now r|r dur rate|]; cbn [jstep jb pc] in H.
  - destruct (ReadRTP_iter _ _ _ _) as [k res] eqn:E. simplify_eq. cbn [jb].
    apply (ReadRTP_iter_order (inflight q)) in E as [H1 (d & [] & H2)];
      [|eapply Inv_same; [|exact HI]; same_queue|by apply (QueueParsed_same j)].
    split; [done|]. exists d. split; [done|]. intros m p ?. simplify_eq. by apply (H2 m).
  - destruct q; try done. destruct (done j); simplify_eq; [by apply Hsame|].
    unfold readLoop_take in H. destruct (last (freeSlots j)); simplify_eq; by apply Hsame.
  - destruct q as [| |i used| |]; try done. cbn [inflight] in HI.
    assert (out = None) as -> by (unfold readUpstream_returns in H; repeat case_match; by simplify_eq).
    destruct (readLoop_file_order now i r j) as [H1 [d H2]]; [done..|].
    destruct r as [n raw pkt|e]; cbn [readUpstream_returns] in H.
    { injection H as <-. split; [done|]. by exists d. }
    destruct (_ || _) in H; simplify_eq; [|by apply Hsame].
    split; [done|]. exists d. split; [by destruct H2|done].
  - injection H as <- <-. cbn [jb]. destruct (UpdateRTPSession_same r dur rate j) as [[] _].
    apply Hsame; try done. unfold streaming. congruence.
  - injection H as <- <-. cbn [jb]. unfold Close. repeat case_match; by apply Hsame.
Qed.

(** The packets returned carry strictly increasing extended sequence numbers:
    [offs] counts each from the [expectedSeq] the run starts at, and the run ends
    with [expectedSeq] at [D], past the last of them. *)
Definition InOrder (e : Z) (offs : list Z) (D : Z) (ps : list rtp_packet) : Prop :=
  StronglySorted Z.lt offs /\ Forall (fun o => 0 <= o < D) offs /\
  Forall2 (fun o p => SequenceNumber (Header p) = u16 (e + o)) offs ps.

Lemma stream_run_order w outs w' : WInv w -> QueueParsed (jb w) -> streaming (jb w) = true ->
  stream_run w outs w' -> WInv w' /\ QueueParsed (jb w') /\
  exists offs D, Adv D (jb w) (jb w') /\ InOrder (expectedSeq (jb w)) offs D (packets outs).
Proof.
  intros Hw HQ Hst Hr. induction Hr as [w|w outs w1 ev out w2 Hr IH Hok Hpa Hstay Hstep].
  { split; [done|]. split; [done|]. exists [], 0.
    split; [apply Adv_refl; [apply Hw|done..]|repeat constructor]. }
  destruct (IH Hw HQ Hst) as (Hw1 & HQ1 & offs & D & HA & HS & HF & H2). clear IH.
  destruct (jstep_order ev w1 w2 out) as (HQ2 & d & HA2 & HP); try done; [by apply HA|].
  split; [by eapply jstep_inv|]. split; [done|].
  pose proof (Adv_trans _ _ _ _ _ HA HA2) as HA3. unfold packets in *. rewrite omap_app.
  assert (Forall (fun o => 0 <= o < D + d) offs) as HF'.
  { eapply Forall_impl; [exact HF|]. simpl. destruct HA2. lia. }
  destruct out as [[m p| | |]|]; [destruct (HP m p eq_refl) as [Hd Hp]; exists (offs ++ [D + (d - 1)]), (D + d)|
    exists offs, (D + d); simpl; rewrite app_nil_r; done..].
  split; [done|]. split; [|split].
  - apply StronglySorted_app_2; [|done|repeat constructor].
    intros x y Hx Hy. apply list_elem_of_singleton in Hy as ->. rewrite Forall_forall in HF.
    specialize (HF x Hx). lia.
  - apply Forall_app. split; [done|]. repeat constructor; destruct HA; lia.
  - apply Forall2_app; [done|]. repeat constructor. rewrite Hp. destruct HA as [_ -> _]. wrap_lia.
Qed.

End Order.

End JitterOrder.
