(* ===== verification/JitterCount.v ===== *)
(** * The RTP jitter buffer: the counters

    Every packet counted as read is accounted for: released, late, a duplicate,
    dropped, discarded with the queue by a restart of the stream, or queued. *)
From S2P Require Import Prelude Rtp JitterBuffer JitterInv JitterProps JitterSpec JitterOrder.
Import Jitter JitterInv JitterProps JitterSpec JitterOrder.

Module JitterCount.

(** The packets read less those accounted for, but for the ones discarded. *)
Definition unaccounted (j : RTPJitterBuffer) : Z :=
  packetsRead (stats j) - packetsReleased (stats j) - packetsLate (stats j)
  - packetsDuplicate (stats j) - packetsDropped (stats j) - queued j.

(** The counters are 64 bit wide, so the balance holds modulo 2^64. *)
Definition Moves (d : Z) (j k : RTPJitterBuffer) : Prop :=
  exists z, unaccounted k = unaccounted j + d + 2 ^ 64 * z.

Lemma Moves_trans d e f j k l : Moves d j k -> Moves e k l -> f = d + e -> Moves f j l.
Proof. intros [z Hz] [y Hy] ->. exists (z + y). lia. Qed.

Lemma Moves_stats j k : stats k = stats j -> queued k = queued j -> Moves 0 j k.
Proof. intros E1 E2. exists 0. unfold unaccounted. rewrite E1, E2. lia. Qed.

Lemma u64_succ n : exists z, u64 (n + 1) = n + 1 + 2 ^ 64 * z.
Proof. exists (- ((n + 1) / 2 ^ 64)). unfold u64. rewrite Z.mod_eq by lia. lia. Qed.

Ltac counted c j :=
  let z := fresh "z" in let H := fresh "H" in
  destruct (u64_succ (c (stats j))) as [z H]; unfold Moves, unaccounted; cbn; rewrite H;
  (exists z; lia) || (exists (- z); lia).

Lemma read_moves j : Moves 1 j (count packetsRead j).
Proof. counted packetsRead j. Qed.
Lemma late_moves j : Moves (-1) j (count packetsLate j).
Proof. counted packetsLate j. Qed.
Lemma duplicate_moves j : Moves (-1) j (count packetsDuplicate j).
Proof. counted packetsDuplicate j. Qed.
Lemma dropped_moves j : Moves (-1) j (count packetsDropped j).
Proof. counted packetsDropped j. Qed.
Lemma released_moves j : Moves (-1) j (count packetsReleased j).
Proof. counted packetsReleased j. Qed.
Lemma resets_moves j : Moves 0 j (count ssrcResets j).
Proof. exists 0. unfold unaccounted. cbn. lia. Qed.
#[export] Hint Resolve read_moves late_moves duplicate_moves dropped_moves released_moves resets_moves : go.

Lemma reset_moves now s q j : Moves (queued j) j (resetStream now s q j).
Proof. exists 0. unfold unaccounted. simpl. lia. Qed.

(** ** The arrival of a packet *)

(** The packets the arrival of slot [i] discards with the queue. *)
Definition discarded (i : nat) (j : RTPJitterBuffer) : Z :=
  if ssrcSet j && (ssrc j =? slot_ssrc (slot_at j i)) then 0 else queued j.

Lemma restartStream_moves now i j : Moves (1 + discarded i j) j (restartStream now i j).
Proof.
  unfold restartStream, discarded.
  change (ssrcSet (count packetsRead j)) with (ssrcSet j).
  change (ssrc (count packetsRead j)) with (ssrc j). rewrite <- negb_andb.
  destruct (ssrcSet j && (ssrc j =? slot_ssrc (slot_at j i))); simpl negb; cbn iota.
  - case_match eqn:E; [|exact (read_moves j)].
    eapply Moves_trans; [apply read_moves|apply reset_moves|].
    rewrite !andb_true_iff, Z.eqb_eq in E. simpl in *. lia.
  - simpl. destruct (ssrcSet j).
    + eapply Moves_trans; [apply read_moves| |reflexivity].
      eapply Moves_trans; [apply resets_moves|apply reset_moves|simpl; lia].
    + eapply Moves_trans; [apply read_moves|apply reset_moves|simpl; lia].
Qed.

Lemma learn_moves s j : Moves 0 j (learnPacketDuration s j).
Proof. destruct (learn_same s j). apply Moves_stats; [|done]. unfold learnPacketDuration. repeat case_match; done. Qed.

Lemma dropStale_moves q j : Moves 0 j (dropStale q j).
Proof.
  unfold dropStale. repeat case_match; try by apply Moves_stats.
  eapply (Moves_trans _ 1); [apply dropped_moves| |done]. exists 0. unfold unaccounted. cbn. lia.
Qed.

Lemma dropBefore_loop_moves n i j : Moves 0 j (dropBefore_loop n i j).
Proof.
  revert i j. induction n as [|n IH]; intros i j; simpl; [by apply Moves_stats|].
  eapply Moves_trans; [apply dropStale_moves|apply IH|lia].
Qed.

(** A packet refused is counted late or dropped. *)
Lemma placeSlot_moves i j :
  match placeSlot i j with inl k => Moves (-1) j k | inr k => Moves 0 j k end.
Proof.
  unfold placeSlot. repeat case_match; simplify_eq; try (by apply Moves_stats).
  - eapply Moves_trans; [apply late_moves|by apply Moves_stats|lia].
  - eapply Moves_trans; [apply dropped_moves|by apply Moves_stats|lia].
  - unfold dropBefore. set (n := Z.to_nat _).
    eapply Moves_trans; [apply (dropBefore_loop_moves n 0)|by apply Moves_stats|lia].
Qed.

Lemma fileSlot_moves now i j : Moves (-1) j (fileSlot now i j).
Proof.
  unfold fileSlot. destruct (entry j (slot_seq (slot_at j i))) as [e|].
  - destruct (slot_seq (slot_at j e) =? slot_seq (slot_at j i)).
    + eapply Moves_trans; [apply duplicate_moves|by apply Moves_stats|lia].
    + eapply Moves_trans; [apply dropped_moves|by apply Moves_stats|lia].
  - destruct (_ && _); exists 0; unfold unaccounted; simpl; lia.
Qed.

Lemma handleSlot_moves now i j : Moves (discarded i j) j (handleSlot now i j).
Proof.
  unfold handleSlot. apply (Moves_trans (1 + discarded i j) (-1) _ _ (restartStream now i j));
    [apply restartStream_moves| |lia].
  set (k := restartStream now i j). clearbody k.
  apply (Moves_trans 0 (-1) _ _ (learnPacketDuration (slot_at k i) k)); [apply learn_moves| |done].
  set (l := learnPacketDuration _ _). clearbody l. pose proof (placeSlot_moves i l) as HP.
  destruct (placeSlot i l) as [m|m]; [exact HP|].
  eapply Moves_trans; [exact HP|apply fileSlot_moves|lia].
Qed.

(** ** Playout and the run *)

Lemma startPlayout_loop_moves n j : Moves 0 j (startPlayout_loop n j).
Proof.
  revert j. induction n as [|n IH]; intros j; cbn [startPlayout_loop]; [by apply Moves_stats|].
  case_match; [|by apply Moves_stats].
  eapply (Moves_trans 0 0); [|apply IH|done]. exists 0. unfold unaccounted. cbn. lia.
Qed.

Lemma maybeStart_moves now j : Moves 0 j (maybeStart now j).
Proof.
  unfold maybeStart. repeat case_match; try by apply Moves_stats. unfold startPlayout.
  eapply (Moves_trans 0 0); [by apply (Moves_stats j (j <| startAt := time_zero |>))| |done].
  eapply (Moves_trans 0 0); [apply startPlayout_loop_moves|by apply Moves_stats|done].
Qed.

(** A release takes one packet off the queue; no other decision does. *)
Lemma decide_playout_moves now n j :
  Moves (match (decide_playout now n j).2 with Release _ => 1 | _ => 0 end) j (decide_playout now n j).1.
Proof.
  unfold decide_playout. pose proof (maybeStart_moves now j) as HM. set (k := maybeStart now j) in *. clearbody k.
  assert (forall l d, Moves d k l -> Moves d j l) as H by (intros; eapply Moves_trans; eauto; lia).
  unfold idle. repeat case_match; simplify_eq; simpl in *; simplify_eq; apply H;
    exists 0; unfold unaccounted; cbn; lia.
Qed.

Section Account.
Context (RTPUnmarshal : bytes -> rtp_packet + error).

Lemma ReadRTP_iter_moves fl now n j : Inv fl j -> QueueParsed RTPUnmarshal j ->
  Moves 0 j (ReadRTP_iter RTPUnmarshal now n j).1.
Proof.
  intros HI HQ. unfold ReadRTP_iter. case_match; [by apply Moves_stats|].
  pose proof (decide_playout_moves now n j) as HM.
  destruct (decide_playout_adv fl now n j HI) as (d & _ & HR).
  destruct (decide_playout now n j) as [k [raw| | |e|t]]; simpl in *; try done.
  destruct (HR raw eq_refl) as (_ & p & i & Hp & -> & _). destruct (HQ p i Hp) as [-> _]. simpl.
  eapply (Moves_trans 1 (-1)); [exact HM| |done].
  eapply (Moves_trans (-1) 0); [apply released_moves|by exists 0; unfold unaccounted; cbn; lia|done].
Qed.

(** The packets an action discards by restarting the stream. *)
Definition discards (ev : jevent) (w : jworld) : Z :=
  match ev, pc w with
  | EvUpstream _ (ReadOk n _ pkt), Reading i _ =>
    if (n =? 0) || ssrcSet (jb w) && (ssrc (jb w) =? SSRC (Header pkt)) then 0 else queued (jb w)
  | _, _ => 0
  end.

(** A run and the number of packets its restarts of the stream discarded. *)
Inductive counted_run : jworld -> Z -> jworld -> Prop :=
| cr_nil w : counted_run w 0 w
| cr_snoc w n w1 ev out w2 :
  counted_run w n w1 -> event_ok ev -> parsed RTPUnmarshal ev ->
  jstep RTPUnmarshal ev w1 = Some (w2, out) -> counted_run w (n + discards ev w1) w2.

Lemma notify_moves d j k : Moves d j k -> Moves d j (notify k).
Proof. done. Qed.

Lemma read_into_moves now i slot j : Inv (Some i) j ->
  Moves (if ssrcSet j && (ssrc j =? slot_ssrc slot) then 0 else queued j) j
    (handleSlot now i (j <| slots := <[i := slot]> (slots j) |>)).
Proof.
  intros HI. pose proof (slot_at_read_into i slot j HI) as Esl.
  pose proof (handleSlot_moves now i (j <| slots := <[i := slot]> (slots j) |>)) as HM.
  unfold discarded in HM. rewrite Esl in HM. exact HM.
Qed.

Lemma readLoop_file_moves now i r j : Inv (Some i) j ->
  Moves (discards (EvUpstream now r) {| jb := j; pc := Reading i 0 |}) j (readLoop_file now i r j).
Proof.
  intros HI. unfold discards. cbn [jb pc]. destruct r as [n raw pkt|e]; cbn [readLoop_file]; [|by apply Moves_stats].
  destruct (n =? 0); [by apply Moves_stats|]. simpl orb.
  apply notify_moves. by apply read_into_moves.
Qed.

Lemma jstep_parsed ev w w' out : WInv w -> QueueParsed RTPUnmarshal (jb w) -> event_ok ev ->
  parsed RTPUnmarshal ev -> jstep RTPUnmarshal ev w = Some (w', out) ->
  QueueParsed RTPUnmarshal (jb w') /\ Moves (discards ev w) (jb w) (jb w').
Proof.
  intros [HI _ _ _] HQ Hok Hpa H. destruct w as [j q]. cbn [jb pc] in *.
  assert (forall k, slots k = slots j -> sequence k = sequence j -> stats k = stats j -> queued k = queued j ->
    QueueParsed RTPUnmarshal k /\ Moves 0 j k) as Hsame.
  { intros k E1 E2 E3 E4. split; [by apply (QueueParsed_same _ j)|by apply Moves_stats]. }
  destruct ev as [now n| |now r|r dur rate|]; cbn [jstep jb pc] in H.
  - assert (Inv (inflight q) (start j)) as HI' by (eapply Inv_same; [|exact HI]; same_queue).
    assert (QueueParsed RTPUnmarshal (start j)) as HQ' by (by apply (QueueParsed_same _ j)).
    pose proof (ReadRTP_iter_moves _ now n _ HI' HQ') as HM.
    destruct (ReadRTP_iter _ _ _ _) as [k res] eqn:E. simplify_eq. cbn [jb].
    apply (ReadRTP_iter_order RTPUnmarshal (inflight q)) in E as [H1 _]; done.
  - destruct q; try done. destruct (done j); simplify_eq; [by apply Hsame|].
    unfold readLoop_take in H. destruct (last (freeSlots j)); simplify_eq; by apply Hsame.
  - destruct q as [| |i used| |]; try done. cbn [inflight] in HI.
    pose proof (readLoop_file_moves now i r j HI) as HM.
    pose proof (readLoop_file_parsed RTPUnmarshal now i r j HI HQ Hok Hpa) as HP.
    destruct r as [n raw pkt|e]; cbn [readUpstream_returns] in H.
    { injection H as <-. done. }
    destruct (_ || _) in H; simplify_eq; [|by apply Hsame]. done.
  - injection H as <- <-. cbn [jb]. destruct (UpdateRTPSession_same r dur rate j) as [[] _].
    apply Hsame; try done. unfold UpdateRTPSession. repeat case_match; done.
  - injection H as <- <-. cbn [jb]. unfold Close. repeat case_match; by apply Hsame.
Qed.

Lemma counted_run_moves w n w' : WInv w -> QueueParsed RTPUnmarshal (jb w) -> counted_run w n w' ->
  WInv w' /\ QueueParsed RTPUnmarshal (jb w') /\ Moves n (jb w) (jb w').
Proof.
  intros Hw HQ Hr. induction Hr as [w|w n w1 ev out w2 Hr IH Hok Hpa Hstep].
  { split; [done|]. split; [done|by apply Moves_stats]. }
  destruct (IH Hw HQ) as (Hw1 & HQ1 & HM). destruct (jstep_parsed ev w1 w2 out) as [HQ2 HM2]; try done.
  split; [by eapply jstep_inv|]. split; [done|]. by eapply Moves_trans.
Qed.

End Account.

End JitterCount.
