(* ===== verification/JitterTheorems.v ===== *)
(** * The RTP jitter buffer: theorems *)
From stdpp Require Import sorting.
From S2P Require Import Prelude Rtp JitterBuffer JitterInv JitterProps JitterSpec JitterOrder JitterCount.
Import Jitter JitterInv JitterProps JitterSpec JitterOrder JitterCount.

Module JitterTheorems.

(** ** A concrete buffer to run

    A packet of [ex_raw q] has sequence number [q] and one byte of payload;
    [ex_unmarshal] parses it. *)

Definition ex_packet (q : Z) : rtp_packet :=
  {| Header := {| Version := 2; Padding := false; Marker := false; PayloadType := 0;
                  SequenceNumber := q; Timestamp := u32 (160 * q); SSRC := 7; PaddingSize := 0 |};
     Payload := [1] |}.
Definition ex_raw (q : Z) : bytes := [q; 1].
Definition ex_unmarshal (raw : bytes) : rtp_packet + error :=
  match raw with q :: _ => inl (ex_packet q) | [] => inr (ErrNew "rtp: header too short") end.
Definition ex_read (now q : Z) : jevent := EvUpstream now (ReadOk 2 (ex_raw q) (ex_packet q)).

(** Run the actions, failing on one that is not enabled. *)
Fixpoint run_events (evs : list jevent) (w : jworld) : option (jworld * list (jevent * option read_result)) :=
  match evs with
  | [] => Some (w, [])
  | ev :: evs =>
    match jstep ex_unmarshal ev w with
    | Some (w, out) =>
      match run_events evs w with
      | Some (w, tr) => Some (w, (ev, out) :: tr)
      | None => None
      end
    | None => None
    end
  end.

Lemma jrun_cons unm ev w w1 out tr w2 :
  jstep unm ev w = Some (w1, out) -> jrun unm w1 tr w2 -> jrun unm w ((ev, out) :: tr) w2.
Proof.
  intros H Hr. induction Hr as [w1|w1 tr w1' ev' out' w2 Hr IH Hs].
  - apply (jrun_snoc unm w [] w ev out w1); [constructor|done].
  - rewrite app_comm_cons. econstructor; [by apply IH|done].
Qed.

Lemma run_events_jrun evs w w' tr : run_events evs w = Some (w', tr) -> jrun ex_unmarshal w tr w'.
Proof.
  revert w tr. induction evs as [|ev evs IH]; intros w tr H; simpl in H; [simplify_eq; constructor|].
  destruct (jstep ex_unmarshal ev w) as [[w1 out]|] eqn:E; [|done].
  destruct (run_events evs w1) as [[w2 tr2]|] eqn:E2; [|done]. simplify_eq.
  by eapply jrun_cons; eauto.
Qed.

Lemma run_events_ok evs w w' tr : run_events evs w = Some (w', tr) ->
  Forall event_ok evs -> Forall (fun e => event_ok e.1) tr.
Proof.
  revert w tr. induction evs as [|ev evs IH]; intros w tr H Hok; simpl in H; [by simplify_eq; constructor|].
  destruct (jstep ex_unmarshal ev w) as [[w1 out]|] eqn:E; [|done].
  destruct (run_events evs w1) as [[w2 tr2]|] eqn:E2; [|done]. simplify_eq.
  apply Forall_cons in Hok as [? ?]. constructor; [done|]. by eapply IH.
Qed.

Lemma ex_read_ok now q : 0 <= q < 2 ^ 16 -> event_ok (ex_read now q).
Proof. intros Hq. split; [done|]. unfold rtp_header_wf. simpl. wrap_lia. Qed.

Ltac events_ok :=
  repeat (apply Forall_cons; split; [first [exact I | apply ex_read_ok; lia]|]); apply Forall_nil_2.

Definition ex_opts (delay maxp : Z) : RTPJitterBufferOptions :=
  {| DelayPackets := delay; MaxPackets := maxp; ClockRate := 0 |}.
Definition ex_run (delay maxp : Z) (evs : list jevent) : option (jworld * list (jevent * option read_result)) :=
  match NewRTPJitterBuffer 0 (20 * Millisecond) (ex_opts delay maxp) with
  | Some j => run_events evs {| jb := j; pc := NotStarted |}
  | None => None
  end.

Lemma ex_run_jrun delay maxp evs w tr : ex_run delay maxp evs = Some (w, tr) ->
  exists j, NewRTPJitterBuffer 0 (20 * Millisecond) (ex_opts delay maxp) = Some j /\
    jrun ex_unmarshal {| jb := j; pc := NotStarted |} tr w /\
    (Forall event_ok evs -> Forall (fun e => event_ok e.1) tr).
Proof.
  unfold ex_run. destruct (NewRTPJitterBuffer _ _ _) as [j|]; [|done]. intros H. exists j.
  eauto using run_events_jrun, run_events_ok.
Qed.

(** The same as a run that counts, and as one that stays on its stream. *)
Definition ex_parsed (ev : jevent) : Prop := event_ok ev /\ parsed ex_unmarshal ev.

Lemma jrun_counted unm w tr w' : jrun unm w tr w' ->
  Forall (fun e => event_ok e.1 /\ parsed unm e.1) tr -> exists n, counted_run unm w n w'.
Proof.
  induction 1 as [w|w tr w1 ev out w2 Hr IH Hs]; intros Hok; [by exists 0; constructor|].
  apply Forall_app in Hok as [Hok Hev]. apply Forall_inv in Hev as [? ?].
  destruct (IH Hok) as [n Hn]. exists (n + discards ev w1). by econstructor.
Qed.

#[export] Instance stays_dec ev w : Decision (stays ev w).
Proof. unfold stays. repeat case_match; apply _. Defined.

Fixpoint run_stream (evs : list jevent) (w : jworld) : option (jworld * list (option read_result)) :=
  match evs with
  | [] => Some (w, [])
  | ev :: evs =>
    if decide (stays ev w) then
      match jstep ex_unmarshal ev w with
      | Some (w, out) =>
        match run_stream evs w with Some (w, outs) => Some (w, out :: outs) | None => None end
      | None => None
      end
    else None
  end.

Lemma stream_cons unm ev w w1 out outs w2 : event_ok ev -> parsed unm ev -> stays ev w ->
  jstep unm ev w = Some (w1, out) -> stream_run unm w1 outs w2 -> stream_run unm w (out :: outs) w2.
Proof.
  intros H1 H2 H3 H4 Hr. induction Hr as [w1|w1 outs w1' ev' out' w2 Hr IH].
  - apply (sr_snoc unm w [] w ev out w1); by try constructor.
  - rewrite app_comm_cons. econstructor; [by apply IH|done..].
Qed.

Lemma run_stream_run evs w w' outs : Forall ex_parsed evs ->
  run_stream evs w = Some (w', outs) -> stream_run ex_unmarshal w outs w'.
Proof.
  intros Hok. revert w outs. induction Hok as [|ev evs [He Hp] Hok IH]; intros w outs H; simpl in H.
  { simplify_eq. constructor. }
  case_decide; [|done]. destruct (jstep ex_unmarshal ev w) as [[w1 out]|] eqn:E; [|done].
  destruct (run_stream evs w1) as [[w2 outs2]|] eqn:E2; [|done]. simplify_eq.
  by eapply stream_cons; eauto.
Qed.

Lemma ex_read_parsed now q : 0 <= q < 2 ^ 16 -> ex_parsed (ex_read now q).
Proof. intros Hq. split; [by apply ex_read_ok|done]. Qed.

Ltac events_parsed :=
  repeat (apply Forall_cons; split; [first [split; exact I | apply ex_read_parsed; lia]|]); apply Forall_nil_2.

Lemma ex_run_counted delay maxp evs w tr : ex_run delay maxp evs = Some (w, tr) -> Forall ex_parsed evs ->
  exists j n, NewRTPJitterBuffer 0 (20 * Millisecond) (ex_opts delay maxp) = Some j /\
    counted_run ex_unmarshal {| jb := j; pc := NotStarted |} n w.
Proof.
  intros E Hok. destruct (ex_run_jrun _ _ _ _ _ E) as (j & HN & Hr & _). exists j.
  destruct (jrun_counted ex_unmarshal {| jb := j; pc := NotStarted |} tr w Hr) as [n Hn]; [|by exists n].
  clear HN Hr. unfold ex_run in E. destruct (NewRTPJitterBuffer _ _ _) as [k|]; [|done].
  revert E. generalize ({| jb := k; pc := NotStarted |}). revert tr.
  induction Hok as [|ev evs [He Hp] Hok IH]; intros tr w0 H; simpl in H; [by simplify_eq; constructor|].
  destruct (jstep ex_unmarshal ev w0) as [[w1 out]|]; [|done].
  destruct (run_events evs w1) as [[w2 tr2]|] eqn:E2; [|done]. simplify_eq.
  constructor; [done|]. by eapply IH.
Qed.

(** What a counting run from a new buffer gives. *)
Lemma New_parsed unm r dur opts j : NewRTPJitterBuffer r dur opts = Some j -> QueueParsed unm j.
Proof.
  unfold NewRTPJitterBuffer. intros H. case_match; [done|]. simplify_eq. intros p i Hp.
  cbn [sequence] in Hp. apply lookup_replicate in Hp as [? _]. done.
Qed.

Lemma New_balanced r dur opts j : NewRTPJitterBuffer r dur opts = Some j -> unaccounted j = 0.
Proof. unfold NewRTPJitterBuffer. intros H. case_match; [done|]. by simplify_eq. Qed.

Lemma New_counted unm r dur opts j n w : NewRTPJitterBuffer r dur opts = Some j ->
  counted_run unm {| jb := j; pc := NotStarted |} n w ->
  WInv w /\ QueueParsed unm (jb w) /\ Moves n j (jb w).
Proof.
  intros HN Hc.
  apply (counted_run_moves unm {| jb := j; pc := NotStarted |}); [by eapply New_winv|by eapply New_parsed|done].
Qed.

(** ** Lemmas on the end of the read loop *)

Lemma jstep_done unm ev w w' out : WInv w -> event_ok ev -> readLoopDone (jb w) = true ->
  jstep unm ev w = Some (w', out) ->
  (match ev with EvTake | EvUpstream _ _ => False | _ => True end) /\ readLoopDone (jb w') = true.
Proof.
  intros [HI _ _ Hd] _ Hl H. destruct w as [j p]. cbn [jb pc] in *.
  destruct ev as [now n| |now r|r dur rate|]; cbn [jstep jb pc] in H.
  - split; [done|]. assert (Inv (inflight p) (start j)) as HI' by (eapply Inv_same; [|exact HI]; same_queue).
    destruct (ReadRTP_iter_inv unm _ now n _ HI') as [_ [_ _ E]].
    destruct (ReadRTP_iter _ _ _ _) as [k res]. simplify_eq. cbn in *. congruence.
  - by destruct (Hd Hl) as [-> | [-> _]].
  - by destruct (Hd Hl) as [-> | [-> _]].
  - injection H as <- <-. destruct (UpdateRTPSession_same r dur rate j) as [_ [_ _ E]]. cbn [jb]. by rewrite E.
  - injection H as <- <-. cbn [jb]. split; [done|]. unfold Close. by repeat case_match.
Qed.

Lemma jstep_closed unm ev w w' out : WInv w -> done (jb w) = true ->
  jstep unm ev w = Some (w', out) ->
  (forall res, out = Some res -> res = RError io_ErrClosedPipe) /\ done (jb w') = true.
Proof.
  intros [HI _ _ _] Hl H. destruct w as [j p]. cbn [jb pc] in *.
  destruct ev as [now n| |now r|r dur rate|]; cbn [jstep jb pc] in H.
  - unfold ReadRTP_iter in H. change (done (start j)) with (done j) in H. rewrite Hl in H.
    simplify_eq. split; [|done]. by intros ? [= <-].
  - destruct p; try done. rewrite Hl in H. by simplify_eq.
  - destruct p as [| |i used| |]; try done. pose proof (readLoop_file_channels now i r j) as [E _ _]. rewrite Hl in E.
    destruct r as [n raw pkt|e]; cbn [readUpstream_returns] in H.
    { injection H as <- <-. split; [done|exact E]. }
    destruct (_ || _) in H; simplify_eq; split; try done.
  - injection H as <- <-. destruct (UpdateRTPSession_same r dur rate j) as [_ [E _ _]]. cbn [jb]. by rewrite E.
  - injection H as <- <-. cbn [jb]. split; [done|]. unfold Close. by rewrite Hl.
Qed.

(** A property that every enabled action of a live run keeps, and what each
    action then does, hold all along the run. *)
Lemma jrun_along unm (P : jworld -> Prop) (Q : jevent * option read_result -> Prop) w tr w' :
  (forall ev w1 w2 out, WInv w1 -> event_ok ev -> P w1 -> jstep unm ev w1 = Some (w2, out) -> Q (ev, out) /\ P w2) ->
  WInv w -> Forall (fun e => event_ok e.1) tr -> jrun unm w tr w' -> P w -> Forall Q tr /\ P w'.
Proof.
  intros HP Hw Hok Hr Hl. induction Hr as [w|w tr w1 ev out w2 Hr IH Hs]; [done|].
  apply Forall_app in Hok as [Hok Hev]. destruct (IH Hw Hok Hl) as [H1 H2].
  apply Forall_inv in Hev. assert (WInv w1) as Hw1 by (by eapply (jrun_inv unm)).
  destruct (HP _ _ _ _ Hw1 Hev H2 Hs) as [H3 H4].
  split; [|done]. apply Forall_app. by split; [|constructor].
Qed.

(** ** Safety of every interleaving *)

(** In every run from [NewRTPJitterBuffer], whatever the network delivers
    and however the consumer, the read loop, a media update and [Close]
    interleave, the buffer invariant holds after each action and the read loop
    never takes a slot from an empty free list, which would panic. *)
Theorem jitter_run_safe unm r dur opts j tr w :
  NewRTPJitterBuffer r dur opts = Some j -> Forall (fun e => event_ok e.1) tr ->
  jrun unm {| jb := j; pc := NotStarted |} tr w ->
  Inv (inflight (pc w)) (jb w) /\ pc w <> Panicked.
Proof.
  intros HN Hok Hr. apply (jrun_inv unm) in Hr as []; [done|by apply (New_winv r dur opts)|done].
Qed.

Definition ex_events : list jevent :=
  [EvRead 1 1500; EvTake; ex_read 5 100; EvTake; ex_read 6 102; EvTake; ex_read 7 101; EvRead 8 1500;
   EvUpdate 1 (10 * Millisecond) 8000; EvTake; EvClose].

Lemma jitter_run_safe_witness : exists (tr : list (jevent * option read_result)) (w : jworld),
  length tr = 11%nat /\ queued (jb w) = 2 /\ Inv (inflight (pc w)) (jb w) /\ pc w <> Panicked.
Proof.
  assert (match ex_run 3 8 ex_events with
          | Some (w, tr) => length tr = 11%nat /\ queued (jb w) = 2 | None => False end) as H
    by (vm_compute; auto).
  destruct (ex_run 3 8 ex_events) as [[w tr]|] eqn:E; [|destruct H]. destruct H as [H1 H2].
  exists tr, w. split; [exact H1|]. split; [exact H2|].
  destruct (ex_run_jrun _ _ _ _ _ E) as (j & HN & Hr & Hok).
  eapply (jitter_run_safe ex_unmarshal 0 (20 * Millisecond) (ex_opts 3 8)); [exact HN| |exact Hr].
  apply Hok. unfold ex_events. events_ok.
Defined.

(** ** Delivery order *)

(** Once playout has begun, and until a packet restarts the stream, the
    packets [ReadRTP] returns are in strictly increasing order of their 16 bit
    sequence numbers extended past the wrap, each at most once, and none is ahead
    of the place playout has reached, whatever the order and number of copies in
    which the network delivered them. *)
Theorem jitter_in_order unm r dur opts j n w outs w' :
  NewRTPJitterBuffer r dur opts = Some j ->
  counted_run unm {| jb := j; pc := NotStarted |} n w -> streaming (jb w) = true ->
  stream_run unm w outs w' ->
  exists offs D, InOrder (expectedSeq (jb w)) offs D (packets outs) /\
    expectedSeq (jb w') = u16 (expectedSeq (jb w) + D).
Proof.
  intros HN Hc Hst Hr. destruct (New_counted _ _ _ _ _ _ _ HN Hc) as (Hw & HQ & _).
  destruct (stream_run_order unm w outs w' Hw HQ Hst Hr) as (_ & _ & offs & D & HA & HO).
  exists offs, D. split; [done|apply HA].
Qed.

Lemma jitter_in_order_witness : exists (w w' : jworld) outs offs D,
  streaming (jb w) = true /\ SequenceNumber ∘ Header <$> packets outs = [101; 102; 104] /\
  InOrder (expectedSeq (jb w)) offs D (packets outs) /\ expectedSeq (jb w') = u16 (expectedSeq (jb w) + D).
Proof.
  set (evs := [EvRead 1 1500; EvTake; ex_read 5 100; EvTake; ex_read 6 102; EvTake; ex_read 7 101; EvRead 8 1500]).
  set (more := [EvTake; ex_read 9 104; EvTake; ex_read 9 102; EvRead (20 * Millisecond + 8) 1500;
    EvRead (40 * Millisecond + 8) 1500; EvRead (60 * Millisecond + 8) 1500; EvRead (80 * Millisecond + 8) 1500]).
  assert (match ex_run 3 8 evs with
    | Some (w, _) => streaming (jb w) = true /\ match run_stream more w with
      | Some (_, outs) => SequenceNumber ∘ Header <$> packets outs = [101; 102; 104] | None => False end
    | None => False end) as H by (vm_compute; auto).
  destruct (ex_run 3 8 evs) as [[w tr]|] eqn:E; [|destruct H]. destruct H as [H1 H2].
  destruct (run_stream more w) as [[w' outs]|] eqn:E2; [|destruct H2].
  destruct (ex_run_counted _ _ _ _ _ E) as (j & n & HN & Hr); [unfold evs; events_parsed|].
  apply run_stream_run in E2; [|unfold more; events_parsed].
  destruct (jitter_in_order ex_unmarshal 0 (20 * Millisecond) (ex_opts 3 8) j n w outs w' HN Hr H1 E2)
    as (offs & D & H3 & H4).
  exists w, w', outs, offs, D. split; [exact H1|]. split; [exact H2|]. split; [exact H3|exact H4].
Defined.

(** ** Accounting *)

(** Every packet counted as read is, modulo the 64 bits of the counters,
    released to the consumer, counted late, a duplicate or dropped, discarded
    with the queue by a change of source, or still queued: nothing vanishes and
    nothing is counted twice. *)
Theorem jitter_accounting unm r dur opts j n w :
  NewRTPJitterBuffer r dur opts = Some j ->
  counted_run unm {| jb := j; pc := NotStarted |} n w ->
  let s := stats (jb w) in
  u64 (packetsRead s) =
  u64 (packetsReleased s + packetsLate s + packetsDuplicate s + packetsDropped s + n + queued (jb w)).
Proof.
  intros HN Hc s. destruct (New_counted _ _ _ _ _ _ _ HN Hc) as (_ & _ & z & Hz).
  rewrite (New_balanced _ _ _ _ HN) in Hz.
  unfold unaccounted in Hz. fold s in Hz.
  replace (packetsRead s) with
    (packetsReleased s + packetsLate s + packetsDuplicate s + packetsDropped s + n + queued (jb w) + z * 2 ^ 64)
    by lia. unfold u64. apply Z_mod_plus_full.
Qed.

Lemma jitter_accounting_witness : exists (n : Z) (w : jworld),
  packetsRead (stats (jb w)) = 5 /\ packetsDuplicate (stats (jb w)) = 1 /\
  packetsLate (stats (jb w)) = 1 /\ queued (jb w) = 2 /\
  let s := stats (jb w) in
  u64 (packetsRead s) =
  u64 (packetsReleased s + packetsLate s + packetsDuplicate s + packetsDropped s + n + queued (jb w)).
Proof.
  set (evs := [EvRead 1 1500; EvTake; ex_read 5 100; EvTake; ex_read 6 102; EvTake; ex_read 7 101; EvRead 8 1500;
    EvTake; ex_read 9 102; EvTake; ex_read 9 99]).
  assert (match ex_run 3 8 evs with
    | Some (w, _) => packetsRead (stats (jb w)) = 5 /\ packetsDuplicate (stats (jb w)) = 1 /\
        packetsLate (stats (jb w)) = 1 /\ queued (jb w) = 2
    | None => False end) as H by (vm_compute; auto).
  destruct (ex_run 3 8 evs) as [[w tr]|] eqn:E; [|destruct H]. destruct H as (H1 & H2 & H3 & H4).
  destruct (ex_run_counted _ _ _ _ _ E) as (j & n & HN & Hr); [unfold evs; events_parsed|].
  exists n, w. split; [exact H1|]. split; [exact H2|]. split; [exact H3|]. split; [exact H4|].
  exact (jitter_accounting ex_unmarshal 0 (20 * Millisecond) (ex_opts 3 8) j n w HN Hr).
Defined.

(** ** Refinement *)

(** C40. The handling of a packet that was just read is that of the abstract window: a
    map from sequence numbers to packets in which a new source starts afresh, a late
    packet is refused, an early one moves the window start back while playout has not
    begun, one beyond the window slides it, and any other is queued once. It is so for
    every window size but for one thing: where the size does not divide 2^16, as the
    default of 40 does not, and the window reaches past the wrap of the sequence numbers,
    a packet is dropped if one of the window is in its way; then nothing but that packet
    is missing. *)
Theorem handleSlot_refines now i j : SlotRead j i ->
  let s := slot_at j i in let w := arrive (maxPackets j) (delayPackets j) s (abs j) in let w' := abs (handleSlot now i j) in
  w' = w \/
  (w_pkts w' !! slot_seq s = None /\ w = w' <| w_pkts := <[slot_seq s := s]> (w_pkts w') |> /\ in_the_way (maxPackets j) s w').
Proof. apply abs_handleSlot. Qed.

Lemma handleSlot_refines_witness : exists (w : jworld) (i : nat) (slot : rtpJitterSlot),
  let j := jb w <| slots := <[i := slot]> (slots (jb w)) |> in
  queued j = 2 /\ slot_seq slot = 101 /\
  abs (handleSlot 7 i j) = arrive 8 3 slot (abs j).
Proof.
  set (evs := [EvRead 1 1500; EvTake; ex_read 5 100; EvTake; ex_read 6 102; EvTake]).
  set (slot := {| slot_raw := ex_raw 101; slot_packet := ex_packet 101; slot_n := 2; slot_ssrc := 7; slot_seq := 101 |}).
  assert (match ex_run 3 8 evs with
    | Some (w, _) => queued (jb w) = 2 /\ maxPackets (jb w) = 8 /\ delayPackets (jb w) = 3 /\ inflight (pc w) = Some 6%nat
    | None => False end) as H by (vm_compute; auto).
  destruct (ex_run 3 8 evs) as [[w tr]|] eqn:E; [|destruct H]. destruct H as (H1 & H2 & H3 & H4).
  exists w, 6%nat, slot. intros j. split; [exact H1|]. split; [reflexivity|].
  destruct (ex_run_counted _ _ _ _ _ E) as (j0 & n & HN & Hr); [unfold evs; events_parsed|].
  destruct (New_counted _ _ _ _ _ _ _ HN Hr) as ([HI _ _ _] & _ & _). rewrite H4 in HI. clear E HN Hr.
  assert (slot_at j 6 = slot) as Es by (by apply slot_at_read_into).
  assert (maxPackets j = 8) as H5 by exact H2. assert (delayPackets j = 3) as H6 by exact H3.
  destruct (handleSlot_refines 7 6 j) as [Hw|(_ & _ & Hn & _)]; [split; [by apply Inv_read_into|rewrite Es; split; simpl; lia]|by rewrite Es, H5, H6 in Hw|].
  exfalso. apply Hn. rewrite H5. exists (2 ^ 13). reflexivity.
Defined.

(** When a packet is due, what [ReadRTP] does is what the abstract window
    prescribes: deliver the packet with the expected sequence number and move on,
    or leave it when the caller's buffer is too small; skip a missing packet while
    later ones are queued; and stop playing out when nothing is queued. *)
Theorem decide_playout_refines fl now n j : Inv fl j -> playout j = true -> releaseAt j <= now ->
  abs (decide_playout now n j).1 = (due n (abs j)).1 /\
  carries_out (decide_playout now n j).2 (due n (abs j)).2.
Proof. apply decide_due. Qed.

Lemma decide_playout_refines_witness : exists (w : jworld),
  abs (decide_playout (20 * Millisecond + 8) 1500 (jb w)).1 = (due 1500 (abs (jb w))).1 /\
  carries_out (decide_playout (20 * Millisecond + 8) 1500 (jb w)).2 (due 1500 (abs (jb w))).2.
Proof.
  set (evs := [EvRead 1 1500; EvTake; ex_read 5 100; EvTake; ex_read 6 102; EvTake; ex_read 7 101; EvRead 8 1500]).
  assert (match ex_run 3 8 evs with
    | Some (w, _) => playout (jb w) = true /\ releaseAt (jb w) <= 20 * Millisecond + 8
    | None => False end) as H by (vm_compute; split; [reflexivity|discriminate]).
  destruct (ex_run 3 8 evs) as [[w tr]|] eqn:E; [|destruct H]. destruct H as [H1 H2].
  destruct (ex_run_counted _ _ _ _ _ E) as (j0 & n & HN & Hr); [unfold evs; events_parsed|].
  destruct (New_counted _ _ _ _ _ _ _ HN Hr) as ([HI _ _ _] & _ & _). clear E HN Hr.
  exists w. exact (decide_playout_refines _ (20 * Millisecond + 8) 1500 (jb w) HI H1 H2).
Defined.

(** ** Termination *)

(** [ReadRTP] cannot spin: whatever the clock reads on each turn, fewer than
    [maxPackets + 1] turns of its loop in a row find the packet due missing
    before one returns or blocks; and after a resynchronisation the loop of
    [startPlayout] ends within [maxPackets] turns. *)
Theorem jitter_loops_end fl nows n j : Inv fl j ->
  (maxPackets j < len nows -> is_Some (decide_until nows n j)) /\
  (let k := startPlayout_loop (Z.to_nat (maxPackets j)) j in
   resync k && (0 <? queued k) && bool_decide (entry k (expectedSeq k) = None) = false).
Proof.
  intros HI. split; [by eapply decide_until_some|].
  apply (startPlayout_loop_stops fl); [done|]. by apply Near_max with fl.
Qed.

Lemma jitter_loops_end_witness : exists (w : jworld),
  queued (jb w) = 1 /\ is_Some (decide_until (Z.of_nat <$> seq 8 9) 1500 (jb w)).
Proof.
  set (evs := [EvRead 1 1500; EvTake; ex_read 5 100; EvTake; ex_read 6 102; EvTake; ex_read 7 107; EvRead 8 1500;
    EvRead (60 * Millisecond) 1500; EvRead (60 * Millisecond) 1500]).
  assert (match ex_run 3 8 evs with Some (w, _) => queued (jb w) = 1 /\ maxPackets (jb w) = 8 | None => False end) as H
    by (vm_compute; auto).
  destruct (ex_run 3 8 evs) as [[w tr]|] eqn:E; [|destruct H]. destruct H as [H1 H2].
  destruct (ex_run_counted _ _ _ _ _ E) as (j0 & n & HN & Hr); [unfold evs; events_parsed|].
  destruct (New_counted _ _ _ _ _ _ _ HN Hr) as ([HI _ _ _] & _ & _). clear E HN Hr.
  exists w. split; [exact H1|].
  apply (proj1 (jitter_loops_end _ (Z.of_nat <$> seq 8 9) 1500 (jb w) HI)). rewrite H2. reflexivity.
Defined.

(** ** The end of the read loop *)

Definition reads_upstream (ev : jevent) : bool :=
  match ev with EvTake | EvUpstream _ _ => true | _ => false end.

(** [Done] is final: once it is closed, by the read loop returning or by a
    [Close] before it ever started, no run takes a slot or reads upstream again;
    and once the buffer is closed, every [ReadRTP] returns [io.ErrClosedPipe]. *)
Theorem jitter_done_final unm r dur opts j tr w tr' w' :
  NewRTPJitterBuffer r dur opts = Some j ->
  Forall (fun e => event_ok e.1) (tr ++ tr') ->
  jrun unm {| jb := j; pc := NotStarted |} tr w -> jrun unm w tr' w' ->
  (readLoopDone (jb w) = true -> Forall (fun e => reads_upstream e.1 = false) tr') /\
  (done (jb w) = true ->
   Forall (fun e => match e.2 with Some res => res = RError io_ErrClosedPipe | None => True end) tr').
Proof.
  intros HN Hok Hr Hr'. apply Forall_app in Hok as [Hok Hok'].
  assert (WInv w) as Hw by (eapply (jrun_inv unm); [by eapply New_winv| |done]; done). clear Hr HN.
  split; intros Hd.
  - apply (jrun_along unm (fun w => readLoopDone (jb w) = true) _ w tr' w'); try done.
    intros ev w1 w2 out HW He HP Hs. destruct (jstep_done _ _ _ _ _ HW He HP Hs). by destruct ev.
  - apply (jrun_along unm (fun w => done (jb w) = true) _ w tr' w'); try done.
    intros ev w1 w2 out HW He HP Hs. destruct (jstep_closed _ _ _ _ _ HW HP Hs) as [HO ?].
    split; [|done]. destruct out; [by apply HO|done].
Qed.

Lemma jitter_done_final_witness : exists (w : jworld) (tr' : list (jevent * option read_result)),
  readLoopDone (jb w) = true /\ done (jb w) = true /\ length tr' = 3%nat /\
  Forall (fun e => reads_upstream e.1 = false) tr' /\
  Forall (fun e => match e.2 with Some res => res = RError io_ErrClosedPipe | None => True end) tr'.
Proof.
  set (evs := [EvRead 1 1500; EvTake; ex_read 5 100; EvClose; EvTake]).
  set (more := [EvRead 6 1500; EvUpdate 1 (10 * Millisecond) 8000; EvRead 7 1500]).
  assert (match ex_run 3 8 evs with
    | Some (w, _) => readLoopDone (jb w) = true /\ done (jb w) = true /\
      match run_events more w with Some (_, tr') => length tr' = 3%nat | None => False end
    | None => False end) as H by (vm_compute; auto).
  destruct (ex_run 3 8 evs) as [[w tr]|] eqn:E; [|destruct H]. destruct H as (H1 & H2 & H3).
  destruct (run_events more w) as [[w' tr']|] eqn:E2; [|destruct H3].
  destruct (ex_run_jrun _ _ _ _ _ E) as (j & HN & Hr & Hok).
  assert (Forall (fun e => event_ok e.1) (tr ++ tr')) as Hok'.
  { apply Forall_app. split; [apply Hok; unfold evs; events_ok|].
    apply (run_events_ok _ _ _ _ E2). unfold more. events_ok. }
  destruct (jitter_done_final ex_unmarshal 0 (20 * Millisecond) (ex_opts 3 8) j tr w tr' w'
    HN Hok' Hr (run_events_jrun _ _ _ _ E2)) as [HA HB].
  exists w, tr'. split; [exact H1|]. split; [exact H2|]. split; [exact H3|].
  split; [exact (HA H1)|exact (HB H2)].
Defined.

(** ** The default window across the sequence wrap *)

(** A lossless stream in order, one packet each 20 ms from 65500 on, read by a
    consumer that keeps pace: 20 packets fill the default delay, then each turn
    reads one packet and files the next. *)
Definition wrap_events (turns : nat) : list jevent :=
  EvRead 1 1500 :: flat_map (fun k => [EvTake; ex_read 2 (65500 + Z.of_nat k)]) (seq 0 20) ++
  flat_map (fun k => let now := 20 * Millisecond * Z.of_nat k + 3 in
    [EvRead now 1500; EvTake; ex_read now (u16 (65520 + Z.of_nat k))]) (seq 0 turns).

(** With the default 20 and 40 packets, where the window does not divide
    2^16, a lossless stream in order loses packets where its sequence numbers
    wrap: 0 to 15 are filed at the positions that 65520 to 65535 still occupy, and
    each is dropped on arrival and later counted lost. *)
Theorem jitter_wrap_drops :
  match ex_run 0 0 (wrap_events 60) with
  | Some (w, _) => packetsRead (stats (jb w)) = 80 /\ packetsDropped (stats (jb w)) = 16 /\
                   packetsLost (stats (jb w)) = 16 /\ packetsLate (stats (jb w)) = 0
  | None => False
  end.
Proof. vm_compute. auto. Qed.

End JitterTheorems.
