(* ===== verification/Sequencer.v ===== *)
(** * Extended RTP sequence numbers

    [media/rtp_sequencer.go]: the 16 bit sequence number of a stream together
    with the count of its wraps, for receiving ([UpdateSeq], RFC 1889 appendix
    A.2) and for sending ([NextSeqNumber]). *)
From S2P Require Import Prelude.

Module Sequencer.

Definition maxMisorder : Z := 100.
Definition maxDropout : Z := 3000.
Definition maxSeqNum : Z := 65535.

Definition ErrRTPSequenceOutOfOrder : error := ErrNew "out of order".
Definition ErrRTPSequenceBad : error := ErrNew "bad sequence".
Definition ErrRTPSequnceDuplicate : error := ErrNew "sequence duplicate".

Record RTPExtendedSequenceNumber := {
  seqNum : Z;
  wrapArroundCount : Z;
  badSeq : Z }.

#[export] Instance eta_seq : Eta RTPExtendedSequenceNumber := fun s =>
  {| seqNum := seqNum s; wrapArroundCount := wrapArroundCount s; badSeq := badSeq s |}.

(** The zero value of the struct. *)
Definition seq_zero : RTPExtendedSequenceNumber := {| seqNum := 0; wrapArroundCount := 0; badSeq := 0 |}.

Definition InitSeq (seq : Z) (sn : RTPExtendedSequenceNumber) : RTPExtendedSequenceNumber :=
  sn <| seqNum := seq |> <| badSeq := maxSeqNum |> <| wrapArroundCount := 0 |>.

(** [r] is the random number drawn. *)
Definition NewRTPSequencer (r : Z) : RTPExtendedSequenceNumber := InitSeq (u16 r) seq_zero.

Definition UpdateSeq (seq : Z) (sn : RTPExtendedSequenceNumber) : RTPExtendedSequenceNumber * option error :=
  let maxSeq := seqNum sn in
  let udelta := u16 (seq - maxSeq) in
  if udelta <? maxDropout then
    let sn := if seq <? maxSeq then sn <| wrapArroundCount := u16 (wrapArroundCount sn + 1) |> else sn in
    (sn <| seqNum := seq |>, None)
  else if udelta <=? maxSeqNum - maxMisorder then
    if seq =? badSeq sn then (InitSeq seq sn, None)
    else (sn <| badSeq := u16 (seq + 1) |>, Some ErrRTPSequenceBad)
  else (sn, Some ErrRTPSequnceDuplicate).

Definition ReadExtendedSeq (sn : RTPExtendedSequenceNumber) : Z :=
  u64 (seqNum sn + (maxSeqNum + 1) * wrapArroundCount sn).

Definition NextSeqNumber (sn : RTPExtendedSequenceNumber) : RTPExtendedSequenceNumber * Z :=
  let sn := sn <| seqNum := u16 (seqNum sn + 1) |> in
  let sn := if seqNum sn =? 0 then sn <| wrapArroundCount := u16 (wrapArroundCount sn + 1) |> else sn in
  (sn, seqNum sn).

(** ** Well-formedness *)

Record seq_wf (sn : RTPExtendedSequenceNumber) : Prop := {
  seq_num : 0 <= seqNum sn < 2 ^ 16;
  seq_wraps : 0 <= wrapArroundCount sn < 2 ^ 16;
  seq_bad : 0 <= badSeq sn < 2 ^ 16 }.

(** [sn] tracks the unbounded index [M] of a stream: [M] is what its 16 bits and
    its wrap count say, up to the 32 bits they hold together. *)
Definition tracks (sn : RTPExtendedSequenceNumber) (M : Z) : Prop :=
  seq_wf sn /\ seqNum sn + 2 ^ 16 * wrapArroundCount sn = u32 M.

Lemma tracks_read sn M : tracks sn M -> ReadExtendedSeq sn = u32 M.
Proof.
  intros [[H1 H2 H3] H]. unfold ReadExtendedSeq, maxSeqNum. rewrite <- H. apply u64_small. lia.
Qed.

Lemma InitSeq_tracks seq sn : 0 <= seq < 2 ^ 16 -> tracks (InitSeq seq sn) seq.
Proof. intros H. split; [split; cbn; unfold maxSeqNum; lia|]. cbn. wrap_lia. Qed.

Lemma UpdateSeq_wf seq sn : 0 <= seq < 2 ^ 16 -> seq_wf sn -> seq_wf (UpdateSeq seq sn).1.
Proof.
  intros Hs [H1 H2 H3]. unfold UpdateSeq, InitSeq, maxSeqNum.
  repeat case_match; split; cbn; auto with go; lia.
Qed.

(** Where a packet of index [e] stands when [M] is the highest index so far. *)
Lemma UpdateSeq_ahead sn M e : tracks sn M -> M <= e < M + maxDropout ->
  exists sn', UpdateSeq (u16 e) sn = (sn', None) /\ tracks sn' e.
Proof.
  intros [[H1 H2 H3] HM] He. unfold UpdateSeq, maxDropout in *.
  assert (seqNum sn = u16 M) as Es by wrap_lia.
  assert (u16 (u16 e - seqNum sn) = e - M) as Ed by (rewrite Es; wrap_lia).
  rewrite Ed. replace (e - M <? 3000) with true by lia. eexists. split; [done|].
  pose proof (u16_range e). case_match eqn:E; (split; [split; cbn; auto with go|cbn; wrap_lia]).
Qed.

Lemma UpdateSeq_behind sn M e : tracks sn M -> M - maxMisorder <= e < M ->
  UpdateSeq (u16 e) sn = (sn, Some ErrRTPSequnceDuplicate).
Proof.
  intros [[H1 H2 H3] HM] He. unfold UpdateSeq, maxDropout, maxMisorder, maxSeqNum in *.
  assert (u16 (u16 e - seqNum sn) = 2 ^ 16 + e - M) as Ed by wrap_lia.
  rewrite Ed. by replace (2 ^ 16 + e - M <? 3000) with false by lia;
    replace (2 ^ 16 + e - M <=? 65535 - 100) with false by lia.
Qed.

(** A run of [UpdateSeq] over the packets received, whatever it returns. *)
Definition receive (es : list Z) (sn : RTPExtendedSequenceNumber) : RTPExtendedSequenceNumber :=
  fold_left (fun sn e => (UpdateSeq (u16 e) sn).1) es sn.

(** Each index received is less than [maxDropout] ahead of, and at most
    [maxMisorder] behind, the highest one before it. *)
Fixpoint bounded_jitter (M : Z) (es : list Z) : Prop :=
  match es with
  | [] => True
  | e :: es => M - maxMisorder <= e < M + maxDropout /\ bounded_jitter (Z.max M e) es
  end.

Lemma receive_tracks es sn M : tracks sn M -> bounded_jitter M es ->
  tracks (receive es sn) (fold_left Z.max es M).
Proof.
  revert sn M. induction es as [|e es IH]; intros sn M HT HJ; [done|]. destruct HJ as [He HJ].
  cbn [receive fold_left]. apply IH; [|done]. destruct (Z_lt_le_dec e M).
  - rewrite (UpdateSeq_behind sn M e HT) by lia. cbn. by rewrite Z.max_l by lia.
  - destruct (UpdateSeq_ahead sn M e HT) as (sn' & -> & HT'); [lia|]. cbn. by rewrite Z.max_r by lia.
Qed.

(** Receiving a stream whose packets arrive in any order, with repeats and
    losses, but each less than 3000 ahead of and at most 100 behind the highest
    index so far, the extended sequence number is that highest index, modulo the
    32 bits it holds, however often the 16 bit number wraps. *)
Theorem extended_sequence_is_highest e0 es sn : 0 <= e0 < 2 ^ 16 -> bounded_jitter e0 es ->
  ReadExtendedSeq (receive es (InitSeq e0 sn)) = u32 (fold_left Z.max es e0).
Proof. intros He HJ. apply tracks_read, receive_tracks; [by apply InitSeq_tracks|done]. Qed.

Lemma extended_sequence_is_highest_witness :
  ReadExtendedSeq (receive [65534; 65537; 65535; 65536; 65537; 65540] (InitSeq 65533 seq_zero)) = 65540.
Proof.
  rewrite (extended_sequence_is_highest 65533 [65534; 65537; 65535; 65536; 65537; 65540] seq_zero);
    [reflexivity|lia|]. cbn. unfold maxMisorder, maxDropout. lia.
Defined.

(** ** Sending *)

Lemma NextSeqNumber_tracks sn M : tracks sn M ->
  tracks (NextSeqNumber sn).1 (M + 1) /\ (NextSeqNumber sn).2 = u16 (M + 1).
Proof.
  intros [[H1 H2 H3] HM]. unfold NextSeqNumber. cbn.
  pose proof (u16_range (seqNum sn + 1)). assert (u16 (seqNum sn + 1) = u16 (M + 1)) as E by wrap_lia.
  case_match eqn:E0; cbn; (split; [|done]); (split; [split; cbn; auto with go|cbn; wrap_lia]).
Qed.

(** A single large jump is refused and remembered; the packet that follows it in
    sequence restarts the count there. *)
Lemma UpdateSeq_jump sn seq : seq_wf sn -> 0 <= seq < 2 ^ 16 -> seq <> badSeq sn ->
  maxDropout <= u16 (seq - seqNum sn) <= maxSeqNum - maxMisorder ->
  let '(sn1, e1) := UpdateSeq seq sn in
  e1 = Some ErrRTPSequenceBad /\ ReadExtendedSeq sn1 = ReadExtendedSeq sn /\
  (maxDropout <= u16 (seq + 1 - seqNum sn) <= maxSeqNum - maxMisorder ->
   UpdateSeq (u16 (seq + 1)) sn1 = (InitSeq (u16 (seq + 1)) sn1, None)).
Proof.
  intros [H1 H2 H3] Hs Hb Hd. unfold UpdateSeq at 1.
  replace (u16 (seq - seqNum sn) <? maxDropout) with false by lia.
  replace (u16 (seq - seqNum sn) <=? maxSeqNum - maxMisorder) with true by lia.
  replace (seq =? badSeq sn) with false by lia. split; [done|]. split; [done|]. intros Hd'.
  unfold UpdateSeq. cbn. replace (u16 (u16 (seq + 1) - seqNum sn)) with (u16 (seq + 1 - seqNum sn)) by wrap_lia.
  replace (u16 (seq + 1 - seqNum sn) <? maxDropout) with false by lia.
  replace (u16 (seq + 1 - seqNum sn) <=? maxSeqNum - maxMisorder) with true by lia.
  by rewrite Z.eqb_refl.
Qed.

End Sequencer.
