(* ===== verification/NetIP.v ===== *)
(** * IP addresses

    Go's [net.IP] as the SDP code uses it: parsing ([net.ParseIP], which is
    [netip.ParseAddr] without zones), the two representations ([To4], [To16]),
    equality, and printing ([IP.String]). An address is the list of its bytes,
    four or sixteen of them; [None] is the nil address. *)
From S2P Require Import Prelude GoStrings.
Import GoStrings.

Module NetIP.

Abbreviation IP := (option bytes).

(** ** Parsing *)

(** The loop of [parseIPv4Fields]: [val] and [digLen] describe the octet being
    read, [fields] the octets before it, and [prevDot] says that the byte before
    is not part of an octet. *)
Fixpoint parseIPv4Fields (s : string) (val digLen : Z) (prevDot : bool) (fields : bytes) : option bytes :=
  match s with
  | EmptyString => if prevDot || negb (len fields =? 3) then None else Some (fields ++ [val])
  | String c s' =>
    match digit c with
    | Some d =>
      if (digLen =? 1) && (val =? 0) then None
      else let val := val * 10 + d in
           if 255 <? val then None else parseIPv4Fields s' val (digLen + 1) false fields
    | None =>
      if Ascii.eqb c "." then
        if prevDot || (len fields =? 3) then None
        else parseIPv4Fields s' 0 0 true (fields ++ [val])
      else None
    end
  end.

Definition parseIPv4 (s : string) : option bytes := parseIPv4Fields s 0 0 true [].

Definition hex_digit (c : ascii) : option Z :=
  let n := Z.of_nat (nat_of_ascii c) in
  match digit c with
  | Some d => Some d
  | None => if (97 <=? n) && (n <=? 102) then Some (n - 87)
            else if (65 <=? n) && (n <=? 70) then Some (n - 55) else None
  end.

(** The hexadecimal digits [s] starts with: their value, their number and the
    rest; [None] past four of them. *)
Fixpoint parse_hex (s : string) (acc off : Z) : option (Z * Z * string) :=
  match s with
  | String c s' =>
    match hex_digit c with
    | Some d => if 3 <? off then None else parse_hex s' (acc * 16 + d) (off + 1)
    | None => Some (acc, off, s)
    end
  | EmptyString => Some (acc, off, s)
  end.

(** The loop of [parseIPv6]. [ip] holds the bytes read so far, [ellipsis] where
    the double colon was. Each turn reads two bytes of at most sixteen, so nine
    turns of fuel are enough. *)
Fixpoint parseIPv6_loop (fuel : nat) (s : string) (ip : bytes) (ellipsis : option nat) :
    option (string * bytes * option nat) :=
  match fuel with
  | O => None
  | S fuel =>
    if (16 <=? len ip) then Some (s, ip, ellipsis) else
    match parse_hex s 0 0 with
    | None => None
    | Some (acc, off, rest) =>
      if off =? 0 then None else
      match rest with
      | String "." _ =>
        if (bool_decide (ellipsis = None) && negb (len ip =? 12)) || (16 <? len ip + 4) then None
        else match parseIPv4 s with
             | Some v4 => Some (EmptyString, ip ++ v4, ellipsis)
             | None => None
             end
      | _ =>
        let ip := ip ++ [acc / 256; acc mod 256] in
        match rest with
        | EmptyString => Some (EmptyString, ip, ellipsis)
        | String ":" EmptyString => None
        | String ":" (String ":" s') =>
          match ellipsis with
          | Some _ => None
          | None => if String.eqb s' EmptyString then Some (EmptyString, ip, Some (length ip))
                    else parseIPv6_loop fuel s' ip (Some (length ip))
          end
        | String ":" s' => parseIPv6_loop fuel s' ip ellipsis
        | _ => None
        end
      end
    end
  end.

Definition parseIPv6 (s : string) : option bytes :=
  let '(s, ellipsis) :=
    match s with
    | String ":" (String ":" s') => (s', Some 0%nat)
    | _ => (s, None)
    end in
  if bool_decide (ellipsis = Some 0%nat) && String.eqb s EmptyString then Some (replicate 16 0) else
  match parseIPv6_loop 9 s [] ellipsis with
  | Some (EmptyString, ip, ellipsis) =>
    match ellipsis with
    | None => if len ip =? 16 then Some ip else None
    | Some e => if len ip <? 16 then Some (take e ip ++ replicate (16 - length ip) 0 ++ drop e ip) else None
    end
  | _ => None
  end.

(** The first of [.] and [:] decides the family, and an address with a zone is
    none. *)
Fixpoint ip_family (s : string) : option bool :=
  match s with
  | EmptyString => None
  | String "." _ => Some true
  | String ":" _ => Some false
  | String _ s => ip_family s
  end.

Definition v4InV6Prefix : bytes := replicate 10 0 ++ [255; 255].

Definition ParseIP (s : string) : IP :=
  if negb (str_forall (not_char "%") s) then None else
  match ip_family s with
  | Some true => match parseIPv4 s with Some v4 => Some (v4InV6Prefix ++ v4) | None => None end
  | Some false => parseIPv6 s
  | None => None
  end.

(** ** Representations *)

Definition To4 (ip : IP) : IP :=
  match ip with
  | Some b => if len b =? 4 then Some b
              else if (len b =? 16) && bool_decide (take 12 b = v4InV6Prefix) then Some (drop 12 b) else None
  | None => None
  end.

Definition To16 (ip : IP) : IP :=
  match ip with
  | Some b => if len b =? 4 then Some (v4InV6Prefix ++ b)
              else if len b =? 16 then Some b else None
  | None => None
  end.

(** [IP.Equal]: an IPv4 address equals its IPv6 form. *)
Definition Equal (a b : IP) : bool :=
  match a, b with
  | None, None => true
  | Some x, Some y => bool_decide (x = y) || (bool_decide (To16 a = To16 b) && negb (bool_decide (To16 a = None)))
  | _, _ => false
  end.

(** ** Printing *)

Definition ipv4_string (b : bytes) : string := Join (FormatUint <$> b) ".".

Definition hex_char (d : Z) : ascii := ascii_of_nat (Z.to_nat (if d <? 10 then 48 + d else 87 + d)).
Fixpoint hex_of (fuel : nat) (n : Z) (acc : string) : string :=
  match fuel with
  | O => acc
  | S fuel => let acc := String (hex_char (n mod 16)) acc in
              if n <? 16 then acc else hex_of fuel (n / 16) acc
  end.
Definition hex_string (n : Z) : string := hex_of 4 n EmptyString.

Fixpoint groups (b : bytes) : list Z :=
  match b with
  | x :: y :: b => x * 256 + y :: groups b
  | _ => []
  end.

(** The length of the run of zero groups at the start, and the first longest run
    of at least two: its start and end. *)
Fixpoint zero_run (g : list Z) : nat :=
  match g with
  | 0 :: g => S (zero_run g)
  | _ => O
  end.
Fixpoint longest_run (i : nat) (g : list Z) (best : nat * nat) : nat * nat :=
  match g with
  | [] => best
  | _ :: g' =>
    let n := zero_run g in
    longest_run (S i) g' (if (2 <=? n)%nat && (best.2 <? n)%nat then (i, n) else best)
  end.

Definition ipv6_string (b : bytes) : string :=
  let g := groups b in
  let '(start, n) := longest_run 0 g (0%nat, 0%nat) in
  if (n =? 0)%nat then Join (hex_string <$> g) ":"
  else Join (hex_string <$> take start g) ":" +:+ "::" +:+ Join (hex_string <$> drop (start + n) g) ":".

Definition IP_String (ip : IP) : string :=
  match ip with
  | None => "<nil>"
  | Some b => match To4 ip with
              | Some v4 => ipv4_string v4
              | None => if len b =? 16 then ipv6_string b else EmptyString
              end
  end.

(** ** An IPv4 address reads back *)

Definition byte_ok (x : Z) : Prop := 0 <= x < 256.

Lemma parse_octet_more s val digLen fields rest : str_forall is_digit s = true -> 0 < val -> 0 < digLen ->
  (parse_digits 255 s val).2 = None ->
  parseIPv4Fields (s +:+ rest) val digLen false fields =
  parseIPv4Fields rest (parse_digits 255 s val).1 (digLen + Z.of_nat (String.length s)) false fields.
Proof.
  revert val digLen. induction s as [|c s IH]; intros val digLen Hs Hv Hl HP.
  - simpl in *. f_equal. lia.
  - simpl in Hs. apply andb_true_iff in Hs as [Hc Hs]. unfold is_digit in Hc.
    cbn [String.append parseIPv4Fields parse_digits] in *. destruct (digit c) as [d|] eqn:E; [|done].
    replace ((digLen =? 1) && (val =? 0)) with false by lia.
    pose proof (digit_range _ _ E).
    destruct (255 <? val * 10 + d); [done|]. rewrite IH by (done || lia). f_equal.
    cbn [String.length]. lia.
Qed.

Lemma octet_head x : byte_ok x -> exists c s, FormatUint x = String c s /\ str_forall is_digit s = true /\
  exists d, digit c = Some d /\ 0 <= d <= 255 /\ (s = EmptyString /\ x = d \/ 0 < d /\ parse_digits 255 s d = (x, None)).
Proof.
  intros Hx. pose proof (FormatUint_digits x ltac:(apply Hx)) as Hd.
  assert (parse_digits 255 (FormatUint x) 0 = (x, None)) as HP.
  { unfold FormatUint. rewrite parse_digits_of; [done|unfold byte_ok in *; lia|apply FormatUint_fuel; apply Hx|lia]. }
  assert (forallb (fun x => match FormatUint x with
    | String c s => String.eqb s EmptyString || negb (Ascii.eqb c "0") | EmptyString => false end)
    (Z.of_nat <$> seq 0 256) = true) as Hall by (vm_compute; reflexivity).
  rewrite forallb_forall in Hall. specialize (Hall x).
  assert (In x (Z.of_nat <$> seq 0 256)) as Hin.
  { apply list_elem_of_In, list_elem_of_fmap. exists (Z.to_nat x). unfold byte_ok in Hx.
    split; [lia|]. apply elem_of_seq. lia. }
  specialize (Hall Hin). destruct (FormatUint x) as [|c s]; [done|]. exists c, s. split; [done|].
  simpl in Hd. apply andb_true_iff in Hd as [Hc Hs]. split; [done|]. unfold is_digit in Hc.
  cbn [parse_digits] in HP. destruct (digit c) as [d|] eqn:E; [|done]. exists d. split; [done|].
  change (0 * 10 + d) with d in HP. destruct (255 <? d) eqn:E2; [done|].
  pose proof (digit_range _ _ E). split; [lia|].
  destruct (String.eqb_spec s EmptyString) as [->|Hne]; [left; simpl in HP; by simplify_eq|].
  right. split; [|done]. simpl in Hall. apply negb_true_iff in Hall.
  destruct (Z.eq_dec d 0) as [->|]; [|lia]. exfalso.
  destruct c as [[] [] [] [] [] [] [] []]; try done.
Qed.

Lemma parse_octet x fields rest : byte_ok x -> exists l,
  parseIPv4Fields (FormatUint x +:+ rest) 0 0 true fields = parseIPv4Fields rest x l false fields.
Proof.
  intros Hx. destruct (octet_head x Hx) as (c & s & -> & Hs & d & Hc & Hd & Hcase).
  cbn [String.append parseIPv4Fields]. rewrite Hc. change ((0 =? 1) && (0 =? 0)) with false.
  change (0 * 10 + d) with d. replace (255 <? d) with false by lia.
  destruct Hcase as [[-> ->]|[Hd0 HP]]; [by eexists|].
  rewrite parse_octet_more; [|done|lia|lia|by rewrite HP]. rewrite HP. by eexists.
Qed.

Lemma parseIPv4_string a b c d : byte_ok a -> byte_ok b -> byte_ok c -> byte_ok d ->
  parseIPv4 (ipv4_string [a; b; c; d]) = Some [a; b; c; d].
Proof.
  intros Ha Hb Hc Hd. unfold parseIPv4, ipv4_string. cbn [fmap list_fmap Join].
  destruct (parse_octet a [] (String "." (FormatUint b +:+ String "." (FormatUint c +:+ String "." (FormatUint d)))) Ha) as [l1 E1].
  etransitivity; [exact E1|]. cbn [parseIPv4Fields]. change (digit ".") with (@None Z). cbv [Ascii.eqb Bool.eqb].
  change (len (@nil Z) =? 3) with false. cbn [orb app].
  destruct (parse_octet b [a] (String "." (FormatUint c +:+ String "." (FormatUint d))) Hb) as [l2 E2].
  etransitivity; [exact E2|]. cbn [parseIPv4Fields]. change (digit ".") with (@None Z). cbv [Ascii.eqb Bool.eqb].
  change (len [a] =? 3) with false. cbn [orb app].
  destruct (parse_octet c [a; b] (String "." (FormatUint d)) Hc) as [l3 E3].
  etransitivity; [exact E3|]. cbn [parseIPv4Fields]. change (digit ".") with (@None Z). cbv [Ascii.eqb Bool.eqb].
  change (len [a; b] =? 3) with false. cbn [orb app].
  destruct (parse_octet d [a; b; c] EmptyString Hd) as [l4 E4]. rewrite str_nil_r in E4.
  etransitivity; [exact E4|]. done.
Qed.

Lemma ip_family_digits s t : str_forall is_digit s = true -> ip_family (s +:+ String "." t) = Some true.
Proof.
  induction s as [|c s IH]; simpl; [done|]. intros H. apply andb_true_iff in H as [Hc Hs].
  specialize (IH Hs). destruct c as [[] [] [] [] [] [] [] []]; done.
Qed.

Lemma ipv4_string_app a b c d : ipv4_string [a; b; c; d] =
  FormatUint a +:+ String "." (FormatUint b +:+ String "." (FormatUint c +:+ String "." (FormatUint d))).
Proof. done. Qed.

(** A predicate on the bytes of a dotted address, from the one on its digits. *)
Lemma ipv4_string_forall P a b c d : byte_ok a -> byte_ok b -> byte_ok c -> byte_ok d ->
  (forall x, is_digit x = true -> P x = true) -> P "."%char = true ->
  str_forall P (ipv4_string [a; b; c; d]) = true.
Proof.
  intros Ha Hb Hc Hd HP Hdot. rewrite ipv4_string_app.
  assert (forall x, byte_ok x -> str_forall P (FormatUint x) = true) as HF.
  { intros x [Hx _]. eapply str_forall_impl; [exact HP|]. by apply FormatUint_digits. }
  rewrite str_forall_app, HF by done. cbn [str_forall andb]. rewrite Hdot.
  rewrite str_forall_app, HF by done. cbn [str_forall andb]. rewrite Hdot.
  rewrite str_forall_app, HF by done. cbn [str_forall andb]. rewrite Hdot.
  by rewrite HF.
Qed.

Lemma ParseIP_v4 a b c d : byte_ok a -> byte_ok b -> byte_ok c -> byte_ok d ->
  ParseIP (ipv4_string [a; b; c; d]) = Some (v4InV6Prefix ++ [a; b; c; d]).
Proof.
  intros Ha Hb Hc Hd. unfold ParseIP. rewrite ipv4_string_forall by (done || (by intros [[] [] [] [] [] [] [] []])).
  simpl negb. cbn iota. rewrite ipv4_string_app, ip_family_digits by (apply FormatUint_digits, Ha).
  rewrite <- ipv4_string_app. by rewrite parseIPv4_string.
Qed.

Lemma ipv4_string_word a b c d : byte_ok a -> byte_ok b -> byte_ok c -> byte_ok d ->
  word (ipv4_string [a; b; c; d]) = true.
Proof.
  intros. unfold word, no_space. rewrite ipv4_string_forall; [|done..| |done].
  - rewrite andb_true_r. pose proof (FormatUint_nonempty a). rewrite ipv4_string_app.
    by destruct (FormatUint a).
  - intros x Hx. by destruct (digit_facts x Hx) as [-> _].
Qed.

Example ParseIP_examples :
  map ParseIP ["::1"; "fe80::1:2"; "1:2:3:4:5:6:7:8"; "::ffff:1.2.3.4"; "1::"; "::"; "1.2.3"; "01.2.3.4"; "1::2::3"; "fe80::1%eth0"; "256.1.1.1"; ""] =
  [Some (replicate 15 0 ++ [1]); Some ([254; 128] ++ replicate 11 0 ++ [1; 0; 2]);
   Some [0; 1; 0; 2; 0; 3; 0; 4; 0; 5; 0; 6; 0; 7; 0; 8]; Some (v4InV6Prefix ++ [1; 2; 3; 4]);
   Some ([0; 1] ++ replicate 14 0); Some (replicate 16 0); None; None; None; None; None; None].
Proof. vm_compute. reflexivity. Qed.

Example IP_String_examples :
  map IP_String [ParseIP "10.0.0.1"; ParseIP "fe80:0:0:1::2"; ParseIP "::"; ParseIP "1::"; ParseIP "2001:db8:0:1:1:1:1:1"; None] =
  ["10.0.0.1"; "fe80:0:0:1::2"; "::"; "1::"; "2001:db8:0:1:1:1:1:1"; "<nil>"].
Proof. vm_compute. reflexivity. Qed.

End NetIP.
