(* ===== verification/Sdp.v ===== *)
(** * Session descriptions

    The package [media/sdp]: reading an SDP body line by line ([nextLine],
    [readLines]), as one map ([Unmarshal]) or section by section
    ([UnmarshalSections], [Sections.Description]), the media, connection and
    session lines, the media direction, the format lists, and the minimal body
    [GenerateForAudio] writes. A body is the string of its bytes. *)
From S2P Require Import Prelude GoStrings NetIP.
Import GoStrings NetIP.

Module Sdp.

Definition ModeRecvonly : string := "recvonly".
Definition ModeSendrecv : string := "sendrecv".
Definition ModeSendonly : string := "sendonly".
Definition ModeInactive : string := "inactive".

Definition FORMAT_TYPE_ULAW : string := "0".
Definition FORMAT_TYPE_ALAW : string := "8".
Definition FORMAT_TYPE_G722 : string := "9".
Definition FORMAT_TYPE_OPUS : string := "96".
Definition FORMAT_TYPE_TELEPHONE_EVENT : string := "101".

Definition LF : ascii := ascii_of_nat 10.
Definition CR : ascii := ascii_of_nat 13.
Definition CRLF : string := String CR (String LF EmptyString).

(** ** Session descriptions and their lines *)

Definition SessionDescription : Type := gmap string (list string).

Definition Values (sd : SessionDescription) (key : string) : list string := default [] (sd !! key).
Definition Value (sd : SessionDescription) (key : string) : string := default EmptyString (head (Values sd key)).

(** [sd[key] = append(sd[key], value)]. *)
Definition add_value (key value : string) (sd : SessionDescription) : SessionDescription :=
  <[key := Values sd key ++ [value]]> sd.

Record MediaDescription := {
  MediaType : string;
  Port : Z;
  PortNumbers : Z;
  Proto : string;
  Formats : list string }.

#[export] Instance eta_md : Eta MediaDescription := fun m =>
  {| MediaType := MediaType m; Port := Port m; PortNumbers := PortNumbers m; Proto := Proto m; Formats := Formats m |}.

Definition md_zero : MediaDescription :=
  {| MediaType := EmptyString; Port := 0; PortNumbers := 0; Proto := EmptyString; Formats := [] |}.

(** [MediaDescription.String], which carries the [m=] of its line. *)
Definition md_value (m : MediaDescription) : string :=
  let ports := Itoa (Port m) in
  let ports := if 0 <? PortNumbers m then ports +:+ "/" +:+ Itoa (PortNumbers m) else ports in
  MediaType m +:+ " " +:+ ports +:+ " " +:+ Proto m +:+ " " +:+ Join (Formats m) " ".
Definition md_String (m : MediaDescription) : string := "m=" +:+ md_value m.

(** [parseMediaLine]; the errors of the two [Atoi] are discarded by the code, so
    a port that does not parse is 0. *)
Definition parseMediaLine (v : string) : MediaDescription + error :=
  match Fields v with
  | mt :: port :: proto :: ((_ :: _) as formats) =>
    let ports := Split port "/" in
    inl {| MediaType := mt;
           Port := (Atoi (nth 0 ports EmptyString)).1;
           PortNumbers := match ports with _ :: p :: _ => (Atoi p).1 | _ => 0 end;
           Proto := proto;
           Formats := formats |}
  | _ => inr (ErrNew "Not enough fields in media description")
  end.

(** The method [SessionDescription.MediaDescription]. *)
Definition sd_MediaDescription (sd : SessionDescription) (mediaType : string) : MediaDescription + error :=
  let values := Values sd "m" in
  if (1 <? length values)%nat then inr (ErrNew "more than 1 media line for type")
  else
    let is_type val :=
      let '(media, _, found) := Cut val " " in
      found && negb (String.eqb media EmptyString) && String.eqb media mediaType in
    match List.find is_type values with
    | None => inr (ErrNew "Media not found")
    | Some v => parseMediaLine v
    end.

Record ConnectionInformation := {
  NetworkType : string;
  AddressType : string;
  ci_IP : IP;
  TTL : Z;
  Range : Z }.

(** The method [SessionDescription.ConnectionInformation]: the last [c=] line. *)
Definition sd_ConnectionInformation (sd : SessionDescription) : ConnectionInformation + error :=
  if (1 <? length (Values sd "m"))%nat then inr (ErrNew "more than 1 media line") else
  match last (Values sd "c") with
  | None => inr (ErrNew "Connection information does not exists")
  | Some v =>
    match Fields v with
    | nt :: at_ :: addr :: _ =>
      let addr := Split addr "/" in
      let ip := ParseIP (nth 0 addr EmptyString) in
      let ip := if String.eqb at_ "IP4" then To4 ip else if String.eqb at_ "IP6" then To16 ip else ip in
      if (String.eqb at_ "IP4" || String.eqb at_ "IP6") && bool_decide (ip = None) then
        inr (ErrNew ("sdp - failed to convert to " +:+ at_))
      else
        inl {| NetworkType := nt; AddressType := at_; ci_IP := ip;
               TTL := match addr with _ :: t :: _ => (Atoi t).1 | _ => 0 end;
               Range := match addr with _ :: _ :: r :: _ => (Atoi r).1 | _ => 0 end |}
    | _ => inr (ErrNew "sdp - not enough fields in connection information")
    end
  end.

Record SessionInformation := {
  Origin : string;
  SessionID : Z;
  SessionVersion : Z;
  si_NetworkType : string;
  si_AddressType : string;
  Address : string }.

Definition sd_SessionInformation (sd : SessionDescription) : SessionInformation + error :=
  let v := Value sd "o" in
  if String.eqb v EmptyString then inr (ErrNew "Connection information does not exists") else
  match Fields v with
  | origin :: sid :: sver :: nt :: at_ :: addr :: _ =>
    match ParseUint sid 64 with
    | (_, Some e) => inr (num_error_value e)
    | (id, None) =>
      match ParseUint sver 64 with
      | (_, Some e) => inr (num_error_value e)
      | (ver, None) =>
        inl {| Origin := origin; SessionID := id; SessionVersion := ver;
               si_NetworkType := nt; si_AddressType := at_; Address := addr |}
      end
    end
  | _ => inr (ErrNew "Not enough session fields")
  end.

Definition is_mode (v : string) : bool :=
  String.eqb v ModeSendrecv || String.eqb v ModeSendonly || String.eqb v ModeRecvonly || String.eqb v ModeInactive.

Definition MediaDirection (sd : SessionDescription) : string :=
  fold_left (fun mode v => if is_mode v then v else mode) (Values sd "a") ModeSendrecv.

(** ** Reading a body *)

(** [line[:n-2]] of a line that ends in CR LF; [line] here is without its LF. *)
Fixpoint strip_cr (line : string) : string :=
  match line with
  | EmptyString => EmptyString
  | String c EmptyString => if Ascii.eqb c CR then EmptyString else line
  | String c rest => String c (strip_cr rest)
  end.

(** [nextLine]: the next line, or [None] at the end of the buffer, where the
    bytes left without a newline are dropped with [io.EOF]. *)
Definition nextLine (buf : string) : option (string * string) :=
  let '(line, rest, found) := Cut buf LF in
  if found then Some (strip_cr line, rest) else None.

Section ReadLines.
Context {S : Type} (line : string -> string -> S -> S * option error).

(** What the loop of [readLines] does with one line. *)
Definition read_line (l : string) (s : S) : S * option error :=
  if (String.length l <? 2)%nat then (s, None) else
  let '(key, value, found) := Cut l "=" in
  if negb found || String.eqb key EmptyString then (s, Some (ErrNew "Not a type=value line found"))
  else line key value s.

(** Every turn takes at least a newline off the buffer, so its length is enough
    fuel. *)
Fixpoint readLines_loop (fuel : nat) (buf : string) (s : S) : S * option error :=
  match fuel with
  | O => (s, None)
  | Datatypes.S fuel =>
    match nextLine buf with
    | None => (s, None)
    | Some (l, rest) =>
      match read_line l s with
      | (s, Some e) => (s, Some e)
      | (s, None) => readLines_loop fuel rest s
      end
    end
  end.
Definition readLines (data : string) (s : S) : S * option error :=
  readLines_loop (Datatypes.S (String.length data)) data s.

End ReadLines.

Definition Unmarshal (data : string) (sd : SessionDescription) : SessionDescription * option error :=
  readLines (fun key value sd => (add_value key value sd, None)) data sd.

Record Line := { Type_ : string; Value_ : string }.
Record MediaSection := { Media : MediaDescription; Lines : list Line }.
Record Sections := { Session : list Line; sec_Media : list MediaSection }.

Definition sections_empty : Sections := {| Session := []; sec_Media := [] |}.

(** The callback of [UnmarshalSections]. *)
Definition section_line (key value : string) (s : Sections) : Sections * option error :=
  let l := {| Type_ := key; Value_ := value |} in
  if String.eqb key "m" then
    match parseMediaLine value with
    | inr e => (s, Some (ErrWrap "media description" e))
    | inl md => ({| Session := Session s; sec_Media := sec_Media s ++ [{| Media := md; Lines := [l] |}] |}, None)
    end
  else
    match last (sec_Media s) with
    | Some sec =>
      ({| Session := Session s;
          sec_Media := take (length (sec_Media s) - 1) (sec_Media s) ++
                       [{| Media := Media sec; Lines := Lines sec ++ [l] |}] |}, None)
    | None => ({| Session := Session s ++ [l]; sec_Media := [] |}, None)
    end.

Definition UnmarshalSections (data : string) : Sections * option error :=
  readLines section_line data sections_empty.

Definition add_lines (ls : list Line) (sd : SessionDescription) : SessionDescription :=
  fold_left (fun sd l => add_value (Type_ l) (Value_ l) sd) ls sd.

(** [Sections.Description]; [None] is the index panic. *)
Definition Description (s : Sections) (i : nat) : option SessionDescription :=
  match sec_Media s !! i with
  | None => None
  | Some sec => Some (add_lines (Lines sec) (add_lines (Session s) ∅))
  end.

(** ** Formats *)

(** [Formats.ToNumeric]: the numbers, or the error of the first format that is
    none, with the numbers before it and zeros after. *)
Fixpoint ToNumeric_loop (fmts : list string) : list Z * option num_error :=
  match fmts with
  | [] => ([], None)
  | f :: fmts =>
    match Atoi f with
    | (n, Some e) => (n :: replicate (length fmts) 0, Some e)
    | (n, None) => let '(ns, e) := ToNumeric_loop fmts in (n :: ns, e)
    end
  end.
(** On an error the named results hold no slice. *)
Definition ToNumeric (fmts : list string) : list Z * option num_error :=
  match ToNumeric_loop fmts with
  | (_, Some e) => ([], Some e)
  | (ns, None) => (ns, None)
  end.

Definition format_name (v : string) : string :=
  if String.eqb v FORMAT_TYPE_ULAW then "0(ulaw)"
  else if String.eqb v FORMAT_TYPE_ALAW then "8(alaw)"
  else if String.eqb v FORMAT_TYPE_G722 then "9(g722)"
  else if String.eqb v FORMAT_TYPE_OPUS then "96(opus)"
  else v.
Definition Formats_String (fmts : list string) : string := Join (format_name <$> fmts) ",".

Definition FormatNumeric (f : string) : Z * option num_error :=
  let '(num, e) := Atoi f in (u8 num, e).

(** ** Writing the minimal body *)

Definition ntpEpochOffset : Z := 2208988800.
(** [unix] is [now.Unix()]. *)
Definition NTPTimestamp (unix : Z) : Z := u64 (i64 (unix + ntpEpochOffset)).

Definition audio_format_map (f : string) : list string :=
  if String.eqb f FORMAT_TYPE_ULAW then ["a=rtpmap:0 PCMU/8000"]
  else if String.eqb f FORMAT_TYPE_ALAW then ["a=rtpmap:8 PCMA/8000"]
  else if String.eqb f FORMAT_TYPE_G722 then ["a=rtpmap:9 G722/8000"]
  else if String.eqb f FORMAT_TYPE_OPUS then ["a=rtpmap:96 opus/48000/2"; "a=fmtp:96 useinbandfec=0"]
  else if String.eqb f FORMAT_TYPE_TELEPHONE_EVENT then ["a=rtpmap:101 telephone-event/8000"; "a=fmtp:101 0-16"]
  else [].

(** A body as it is written: its lines, each ended by CR LF. *)
Definition write_lines (ls : list string) : string := Join ls CRLF +:+ CRLF.

Definition GenerateForAudio (unix : Z) (originIP connectionIP : IP) (rtpPort : Z) (mode : string)
    (fmts : list string) : string :=
  let ntpTime := Itoa (NTPTimestamp unix) in
  write_lines (
    ["v=0";
     "o=- " +:+ ntpTime +:+ " " +:+ ntpTime +:+ " IN IP4 " +:+ IP_String originIP;
     "s=Sip Go Media";
     "c=IN IP4 " +:+ IP_String connectionIP;
     "t=0 0";
     "m=audio " +:+ Itoa rtpPort +:+ " RTP/AVP " +:+ Join fmts " "] ++
    flat_map audio_format_map fmts ++
    ["a=ptime:20"; "a=maxptime:20"; "a=" +:+ mode]).

End Sdp.
