(* ===== verification/SdpProps.v ===== *)
(** * Session descriptions: lemmas and theorems

    Reading a body is a fold over its lines; what is written reads back; and the
    sections of a body partition its lines. *)
From S2P Require Import Prelude GoStrings NetIP Sdp.
Import GoStrings NetIP Sdp.

Module SdpProps.

(** ** A body as the list of its lines *)

(** The lines of a body that end in a newline. *)
Definition terminated (data : string) : list string := strip_cr <$> removelast (Split data LF).

Section Over.
Context {S : Type} (line : string -> string -> S -> S * option error).

Fixpoint over_lines (ls : list string) (s : S) : S * option error :=
  match ls with
  | [] => (s, None)
  | l :: ls =>
    match read_line line l s with
    | (s, Some e) => (s, Some e)
    | (s, None) => over_lines ls s
    end
  end.

Lemma Split_nonempty s c : Split s c <> [].
Proof. destruct s as [|x s]; simpl; [done|]. repeat case_match; done. Qed.

Lemma Cut_Split buf c : match Cut buf c with
  | (line, rest, true) => Split buf c = line :: Split rest c /\ (String.length rest < String.length buf)%nat
  | (line, _, false) => Split buf c = [buf]
  end.
Proof.
  induction buf as [|x buf IH]; simpl; [done|]. destruct (Ascii.eqb x c); [split; [done|lia]|].
  destruct (Cut buf c) as [[a b] []].
  - destruct IH as [-> Hl]. split; [done|lia].
  - by rewrite IH.
Qed.

Lemma readLines_loop_eq fuel data s : (String.length data < fuel)%nat ->
  readLines_loop line fuel data s = over_lines (terminated data) s.
Proof.
  revert data s. induction fuel as [|fuel IH]; intros data s Hf; [lia|]. cbn [readLines_loop].
  unfold nextLine, terminated. pose proof (Cut_Split data LF) as HC.
  destruct (Cut data LF) as [[a b] []].
  - destruct HC as [-> Hl]. pose proof (Split_nonempty b LF). destruct (Split b LF) as [|p ps] eqn:E; [done|].
    change (removelast (a :: p :: ps)) with (a :: removelast (p :: ps)). cbn [fmap list_fmap over_lines].
    destruct (read_line line (strip_cr a) s) as [s' [e|]]; [done|].
    rewrite IH by lia. unfold terminated. by rewrite E.
  - by rewrite HC.
Qed.

Lemma readLines_eq data s : readLines line data s = over_lines (terminated data) s.
Proof. apply readLines_loop_eq. lia. Qed.

Lemma over_lines_app ls ks s : over_lines (ls ++ ks) s =
  match over_lines ls s with (s, Some e) => (s, Some e) | (s, None) => over_lines ks s end.
Proof.
  revert s. induction ls as [|l ls IH]; intros s; simpl; [done|].
  destruct (read_line line l s) as [s' [e|]]; [done|apply IH].
Qed.

End Over.

Definition no_LF (s : string) : bool := str_forall (not_char LF) s.

Lemma strip_cr_app l : strip_cr (l +:+ String CR EmptyString) = l.
Proof.
  induction l as [|c l IH]; [done|]. rewrite app_cons_str. cbn [strip_cr]. rewrite IH. by destruct l.
Qed.

Lemma terminated_crlf l rest : no_LF l = true -> terminated (l +:+ CRLF +:+ rest) = l :: terminated rest.
Proof.
  intros Hl. unfold terminated, CRLF.
  replace (l +:+ String CR (String LF EmptyString) +:+ rest)
    with ((l +:+ String CR EmptyString) +:+ String LF rest) by (by rewrite <- app_assoc_str).
  rewrite Split_app.
  - pose proof (Split_nonempty rest LF). destruct (Split rest LF) as [|p ps]; [done|].
    change (removelast ((l +:+ String CR EmptyString) :: p :: ps))
      with ((l +:+ String CR EmptyString) :: removelast (p :: ps)).
    cbn [fmap list_fmap]. by rewrite strip_cr_app.
  - unfold no_LF in Hl. by rewrite str_forall_app, Hl.
Qed.

Lemma terminated_write ls : ls <> [] -> forallb no_LF ls = true -> terminated (write_lines ls) = ls.
Proof.
  unfold write_lines. induction ls as [|l ls IH]; [done|]. intros _ H. simpl in H.
  apply andb_true_iff in H as [Hl Hls]. destruct ls as [|k ls].
  - simpl Join. rewrite <- (str_nil_r CRLF). by rewrite terminated_crlf.
  - change (Join (l :: k :: ls) CRLF) with (l +:+ CRLF +:+ Join (k :: ls) CRLF).
    rewrite <- !app_assoc_str. rewrite terminated_crlf by done. by rewrite IH.
Qed.

(** ** Typed lines *)

Definition line_text (l : Line) : string := Type_ l +:+ "=" +:+ Value_ l.

Definition line_ok (l : Line) : bool :=
  negb (String.eqb (Type_ l) EmptyString) && str_forall (not_char "=") (Type_ l) &&
  no_LF (Type_ l) && no_LF (Value_ l).

Lemma no_LF_app a b : no_LF (a +:+ b) = no_LF a && no_LF b.
Proof. apply str_forall_app. Qed.

Lemma line_text_no_LF l : line_ok l = true -> no_LF (line_text l) = true.
Proof.
  unfold line_ok, line_text. rewrite !andb_true_iff. intros [[[_ _] H1] H2].
  rewrite !no_LF_app, H1, H2. done.
Qed.

Lemma length_str_app a b : String.length (a +:+ b) = (String.length a + String.length b)%nat.
Proof. induction a; simpl; [done|congruence]. Qed.

Lemma read_line_text {S} (f : string -> string -> S -> S * option error) l s : line_ok l = true ->
  read_line f (line_text l) s = f (Type_ l) (Value_ l) s.
Proof.
  unfold line_ok, read_line, line_text. rewrite !andb_true_iff. intros [[[Hne Heq] _] _].
  apply negb_true_iff in Hne.
  replace (_ <? 2)%nat with false.
  2:{ rewrite !length_str_app. cbn [String.length]. destruct (Type_ l); [done|]. cbn [String.length].
      symmetry. apply Nat.ltb_ge. lia. }
  change ("=" +:+ Value_ l) with (String "=" (Value_ l)). rewrite Cut_app by done. by rewrite Hne.
Qed.

(** The typed lines of a body, as far as each has a type. *)
Definition typed (l : string) : option Line :=
  if (String.length l <? 2)%nat then None else
  let '(key, value, found) := Cut l "=" in
  if negb found || String.eqb key EmptyString then None else Some {| Type_ := key; Value_ := value |}.
Definition body_lines (data : string) : list Line := omap typed (terminated data).

(** Reading a body without an error is reading its typed lines in order. *)
Fixpoint over_typed {S} (f : string -> string -> S -> S * option error) (ls : list Line) (s : S) : S * option error :=
  match ls with
  | [] => (s, None)
  | l :: ls =>
    match f (Type_ l) (Value_ l) s with
    | (s, Some e) => (s, Some e)
    | (s, None) => over_typed f ls s
    end
  end.

Lemma over_typed_app {S} (f : string -> string -> S -> S * option error) ls ks s :
  over_typed f (ls ++ ks) s =
  match over_typed f ls s with (s, Some e) => (s, Some e) | (s, None) => over_typed f ks s end.
Proof.
  revert s. induction ls as [|l ls IH]; intros s; simpl; [done|].
  destruct (f _ _ s) as [s' [e|]]; [done|apply IH].
Qed.

Lemma readLines_typed {S} (f : string -> string -> S -> S * option error) data s s' :
  readLines f data s = (s', None) -> over_typed f (body_lines data) s = (s', None).
Proof.
  rewrite readLines_eq. unfold body_lines. generalize (terminated data) as ls.
  intros ls. revert s. induction ls as [|l ls IH]; intros s; simpl; [done|].
  unfold read_line, typed. destruct (String.length l <? 2)%nat; [apply IH|].
  destruct (Cut l "=") as [[key value] found]. destruct (negb found || String.eqb key EmptyString); [done|].
  cbn. destruct (f key value s) as [s1 [e|]]; [done|apply IH].
Qed.

(** A reader whose callback cannot fail reads them all, where another one does. *)
Lemma readLines_total {S T} (f : string -> string -> S -> S * option error) (g : string -> string -> T -> T)
    data s s' t : readLines f data s = (s', None) ->
  readLines (fun k v t => (g k v t, None)) data t =
  (fold_left (fun t l => g (Type_ l) (Value_ l) t) (body_lines data) t, None).
Proof.
  rewrite !readLines_eq. unfold body_lines. generalize (terminated data) as ls.
  intros ls. revert s t. induction ls as [|l ls IH]; intros s t; simpl; [done|].
  unfold read_line, typed. destruct (String.length l <? 2)%nat; [apply IH|].
  destruct (Cut l "=") as [[key value] found]. destruct (negb found || String.eqb key EmptyString); [done|].
  simpl. destruct (f key value s) as [s1 [e|]]; [done|apply IH].
Qed.

Lemma readLines_write {S} (f : string -> string -> S -> S * option error) ls s : ls <> [] ->
  forallb line_ok ls = true -> readLines f (write_lines (line_text <$> ls)) s = over_typed f ls s.
Proof.
  intros Hne Hok. rewrite readLines_eq, terminated_write.
  - clear Hne. revert s. induction ls as [|l ls IH]; intros s; [done|]. simpl in Hok.
    apply andb_true_iff in Hok as [Hl Hls]. cbn [fmap list_fmap over_lines over_typed].
    rewrite read_line_text by done. destruct (f _ _ s) as [s' [e|]]; [done|]. by apply IH.
  - by destruct ls.
  - clear Hne. induction ls as [|l ls IH]; [done|]. apply andb_true_iff in Hok as [Hl Hls].
    cbn [fmap list_fmap forallb]. rewrite line_text_no_LF by done. by apply IH.
Qed.

(** ** Media lines *)

Record md_wf (m : MediaDescription) : Prop := {
  md_type : word (MediaType m) = true;
  md_proto : word (Proto m) = true;
  md_formats : Formats m <> [] /\ forallb word (Formats m) = true;
  md_port : 0 <= Port m < 2 ^ 63;
  md_ports : 0 <= PortNumbers m < 2 ^ 63 }.

Definition md_ports_text (m : MediaDescription) : string :=
  if 0 <? PortNumbers m then Itoa (Port m) +:+ "/" +:+ Itoa (PortNumbers m) else Itoa (Port m).

Lemma md_value_join m : Formats m <> [] ->
  md_value m = Join (MediaType m :: md_ports_text m :: Proto m :: Formats m) " ".
Proof. intros H. unfold md_value, md_ports_text. by destruct (Formats m). Qed.

Lemma md_ports_word m : md_wf m -> word (md_ports_text m) = true.
Proof.
  intros []. pose proof (Itoa_word (Port m) ltac:(lia)) as H1.
  pose proof (Itoa_word (PortNumbers m) ltac:(lia)) as H2. unfold md_ports_text. case_match; [|done].
  unfold word in *. rewrite andb_true_iff in H1, H2. destruct H1 as [N1 S1], H2 as [N2 S2].
  unfold no_space in *. rewrite !str_forall_app, S1, S2. cbn. rewrite !andb_true_r.
  by destruct (Itoa (Port m)).
Qed.

Lemma Itoa_no_slash n : 0 <= n -> str_forall (not_char "/") (Itoa n) = true.
Proof.
  intros H. rewrite Itoa_nonneg by done. apply digits_not_char; [done|]. by apply FormatUint_digits.
Qed.

Lemma parseMediaLine_value m : md_wf m -> parseMediaLine (md_value m) = inl m.
Proof.
  intros Hm. pose proof (md_ports_word m Hm) as Hp. pose proof Hm as [H1 H2 [H3 H4] H5 H6].
  unfold parseMediaLine. rewrite md_value_join by done. rewrite Fields_join.
  2:{ simpl. by rewrite H1, H2, Hp, H4. }
  destruct (Formats m) as [|f fs] eqn:EF; [done|]. f_equal.
  transitivity {| MediaType := MediaType m; Port := Port m; PortNumbers := PortNumbers m; Proto := Proto m; Formats := f :: fs |}.
  2:{ rewrite <- EF. by destruct m. }
  unfold md_ports_text. destruct (0 <? PortNumbers m) eqn:E.
  - change ("/" +:+ Itoa (PortNumbers m)) with (String "/" (Itoa (PortNumbers m))).
    rewrite Split_app, Split_no by (apply Itoa_no_slash; lia). cbn [nth].
    rewrite !Atoi_Itoa by lia. done.
  - rewrite Split_no by (apply Itoa_no_slash; lia). cbn [nth]. rewrite Atoi_Itoa by lia.
    cbn. f_equal. lia.
Qed.

(** ** Sections *)

Definition is_media (l : Line) : bool := String.eqb (Type_ l) "m".

(** A section as it is read: its m= line and lines that are none. *)
Record section_ok (sec : MediaSection) : Prop := {
  so_head : exists v rest, Lines sec = {| Type_ := "m"; Value_ := v |} :: rest /\
    parseMediaLine v = inl (Media sec) /\ forallb (fun l => negb (is_media l)) rest = true }.

Definition all_lines (s : Sections) : list Line := Session s ++ flat_map Lines (sec_Media s).

Record Sectioned (s : Sections) : Prop := {
  st_session : forallb (fun l => negb (is_media l)) (Session s) = true;
  st_media : Forall section_ok (sec_Media s) }.

Lemma flat_map_snoc {A B} (f : A -> list B) l x : flat_map f (l ++ [x]) = flat_map f l ++ f x.
Proof. rewrite flat_map_app. simpl. by rewrite app_nil_r. Qed.

Lemma section_line_spec key value s s' : Sectioned s -> section_line key value s = (s', None) ->
  Sectioned s' /\ all_lines s' = all_lines s ++ [{| Type_ := key; Value_ := value |}].
Proof.
  intros [HS HM]. unfold section_line. destruct (String.eqb_spec key "m") as [->|Hk].
  - destruct (parseMediaLine value) as [md|e] eqn:E; [|done]. intros [= <-]. split.
    + split; [done|]. cbn. apply Forall_app. split; [done|]. repeat constructor. exists value, []. done.
    + unfold all_lines. cbn [Session sec_Media]. by rewrite flat_map_snoc, app_assoc.
  - assert (is_media {| Type_ := key; Value_ := value |} = false) as Hno by (by apply String.eqb_neq).
    destruct (last (sec_Media s)) as [sec|] eqn:E; intros [= <-].
    + apply last_Some in E as [pre E]. rewrite E in HM. apply Forall_app in HM as [HM1 HM2].
      assert (take (length (sec_Media s) - 1) (sec_Media s) = pre) as ->.
      { rewrite E, length_app. simpl. rewrite take_app_le by lia. apply take_ge. lia. }
      split.
      * split; [done|]. cbn. apply Forall_app. split; [done|].
        apply Forall_inv in HM2 as [(v & rest & H1 & H2 & H3)]. repeat constructor. cbn.
        exists v, (rest ++ [{| Type_ := key; Value_ := value |}]). split; [by rewrite H1|]. split; [done|].
        rewrite forallb_app, H3. cbn [forallb]. by rewrite Hno.
      * unfold all_lines. cbn [Session sec_Media]. rewrite E, !flat_map_snoc. cbn. by rewrite !app_assoc.
    + apply last_None in E. split.
      * split; cbn [Session sec_Media]; [|constructor]. rewrite forallb_app, HS. cbn [forallb]. by rewrite Hno.
      * unfold all_lines. cbn. by rewrite E, !app_nil_r.
Qed.

Lemma over_typed_sections ls s s' : Sectioned s -> over_typed section_line ls s = (s', None) ->
  Sectioned s' /\ all_lines s' = all_lines s ++ ls.
Proof.
  revert s. induction ls as [|l ls IH]; intros s HS H; simpl in H; [simplify_eq; by rewrite app_nil_r|].
  destruct (section_line _ _ s) as [s1 [e|]] eqn:E; [done|].
  apply section_line_spec in E as [HS1 E]; [|done]. destruct (IH s1 HS1 H) as [HS2 E2].
  split; [done|]. rewrite E2, E. rewrite <- app_assoc. by destruct l.
Qed.

Lemma Sectioned_empty : Sectioned sections_empty.
Proof. by split; [|constructor]. Qed.

(** ** The map of a section *)

Definition values_of (key : string) (ls : list Line) : list string :=
  omap (fun l => if String.eqb (Type_ l) key then Some (Value_ l) else None) ls.

Lemma Values_add key k v sd : Values (add_value k v sd) key =
  Values sd key ++ (if String.eqb k key then [v] else []).
Proof.
  unfold add_value, Values, SessionDescription in *. destruct (String.eqb_spec k key) as [->|Hne].
  - by rewrite lookup_insert_eq.
  - rewrite lookup_insert_ne by done. by rewrite app_nil_r.
Qed.

Lemma Values_add_lines key ls sd : Values (add_lines ls sd) key = Values sd key ++ values_of key ls.
Proof.
  unfold add_lines. revert sd. induction ls as [|l ls IH]; intros sd; simpl; [by rewrite app_nil_r|].
  rewrite IH, Values_add. unfold values_of. simpl. destruct (String.eqb (Type_ l) key).
  - simpl. by rewrite <- app_assoc.
  - by rewrite app_nil_r.
Qed.

Lemma Values_empty key : Values ∅ key = [].
Proof. unfold Values, SessionDescription. by rewrite lookup_empty. Qed.

Lemma values_of_app key ls ks : values_of key (ls ++ ks) = values_of key ls ++ values_of key ks.
Proof. apply omap_app. Qed.

Lemma Description_values s i sec key : sec_Media s !! i = Some sec -> exists sd,
  Description s i = Some sd /\ Values sd key = values_of key (Session s ++ Lines sec).
Proof.
  intros H. unfold Description. rewrite H. eexists. split; [done|].
  by rewrite !Values_add_lines, Values_empty, values_of_app.
Qed.

(** ** Claims *)

(** A media line that is written reads back: [parseMediaLine] on the value
    [MediaDescription.String] writes returns the same description, for every
    media type, transport and formats without white space and every port. *)
Theorem media_line_roundtrip m : md_wf m -> parseMediaLine (md_value m) = inl m.
Proof. apply parseMediaLine_value. Qed.

Lemma media_line_roundtrip_witness :
  let m := {| MediaType := "audio"; Port := 40000; PortNumbers := 2; Proto := "RTP/AVP"; Formats := ["0"; "101"] |} in
  md_value m = "audio 40000/2 RTP/AVP 0 101" /\ parseMediaLine (md_value m) = inl m.
Proof.
  split; [reflexivity|].
  apply (media_line_roundtrip {| MediaType := "audio"; Port := 40000; PortNumbers := 2; Proto := "RTP/AVP"; Formats := ["0"; "101"] |}).
  split; cbn; try reflexivity; try lia. split; [discriminate|reflexivity].
Defined.

(** [UnmarshalSections] partitions a body: when it succeeds, the session
    lines followed by the lines of the media sections are the typed lines of the
    body in order, none lost, repeated or moved; each section starts with its own
    m= line, which parses to its description, and no other m= line is anywhere;
    and [Unmarshal] reads the same lines. *)
Theorem sections_partition_body data s : UnmarshalSections data = (s, None) ->
  all_lines s = body_lines data /\
  forallb (fun l => negb (is_media l)) (Session s) = true /\ Forall section_ok (sec_Media s) /\
  Unmarshal data ∅ = (add_lines (body_lines data) ∅, None).
Proof.
  intros H. pose proof (readLines_typed _ _ _ _ H) as HT.
  apply over_typed_sections in HT as [[H1 H2] H3]; [|apply Sectioned_empty].
  split; [done|]. split; [done|]. split; [done|].
  unfold Unmarshal. by rewrite (readLines_total section_line (fun k v sd => add_value k v sd) data sections_empty s).
Qed.

Definition ex_body : string := write_lines
  ["v=0"; "o=- 1 1 IN IP4 10.0.0.1"; "c=IN IP4 10.0.0.1"; "m=audio 4000 RTP/AVP 0"; "a=sendonly";
   "m=video 4002 RTP/AVP 96"; "a=rtpmap:96 VP8/90000"].

Lemma sections_partition_body_witness : exists s,
  length (sec_Media s) = 2%nat /\ all_lines s = body_lines ex_body /\ length (body_lines ex_body) = 7%nat.
Proof.
  assert (match UnmarshalSections ex_body with
    | (s, None) => length (sec_Media s) = 2%nat | _ => False end) as H by (vm_compute; reflexivity).
  destruct (UnmarshalSections ex_body) as [s [e|]] eqn:E; [destruct H|].
  exists s. split; [exact H|]. split; [apply (sections_partition_body ex_body s E)|vm_compute; reflexivity].
Defined.

(** The description of one media section answers every key with the values
    of the session-level lines followed by those of that section alone: no line
    of another stream is ever read as one of its own. *)
Theorem description_isolates_stream data s i sec key : UnmarshalSections data = (s, None) ->
  sec_Media s !! i = Some sec -> exists sd, Description s i = Some sd /\
  Values sd key = values_of key (Session s ++ Lines sec) /\
  (key = "m" -> length (Values sd key) = 1%nat).
Proof.
  intros H Hi. destruct (Description_values s i sec key Hi) as (sd & HD & HV). exists sd. split; [done|].
  split; [done|]. intros ->. rewrite HV, values_of_app.
  pose proof (readLines_typed _ _ _ _ H) as HT.
  apply over_typed_sections in HT as [[H1 H2] _]; [|apply Sectioned_empty].
  assert (forall ls, forallb (fun l => negb (is_media l)) ls = true -> values_of "m" ls = []) as Hno.
  { unfold values_of, is_media. induction ls as [|l ls IH]; simpl; [done|].
    destruct (String.eqb (Type_ l) "m"); simpl; [done|apply IH]. }
  rewrite Hno by done. rewrite Forall_lookup in H2. destruct (H2 i sec Hi) as [(v & rest & -> & _ & Hr)].
  simpl. by rewrite Hno.
Qed.

Lemma description_isolates_stream_witness : exists s sd,
  Description s 0 = Some sd /\ Values sd "a" = ["sendonly"].
Proof.
  assert (match UnmarshalSections ex_body with
    | (s, None) => match sec_Media s !! 0%nat with
                   | Some sec => values_of "a" (Session s ++ Lines sec) = ["sendonly"] | None => False end
    | _ => False end) as H by (vm_compute; reflexivity).
  destruct (UnmarshalSections ex_body) as [s [e|]] eqn:E; [destruct H|].
  destruct (sec_Media s !! 0%nat) as [sec|] eqn:E0; [|destruct H].
  destruct (description_isolates_stream ex_body s 0 sec "a" E E0) as (sd & HD & HV & _).
  exists s, sd. split; [exact HD|]. rewrite HV. exact H.
Defined.

(** A last line without its newline is dropped, not read: here a hold. *)
Example unterminated_line_dropped :
  let '(sd, e) := Unmarshal (write_lines ["v=0"; "m=audio 4000 RTP/AVP 0"] +:+ "a=sendonly") ∅ in
  e = None /\ Values sd "a" = [] /\ MediaDirection sd = ModeSendrecv.
Proof. vm_compute. auto. Qed.

End SdpProps.
