(* ===== verification/Codec.v ===== *)
(** * Codecs

    [media/codec.go]: the codec description, the sizes derived from it, the
    choice of the audio and telephone-event codec of a session, the static
    payload types, and the reading of codecs from the formats and attributes of
    an SDP body. *)
From S2P Require Import Prelude GoStrings Float64 NetIP Sdp.
Import GoStrings Sdp.

Module Codecs.

Record Codec := {
  Name : string;
  PayloadType : Z;
  SampleRate : Z;
  SampleDur : Z;
  NumChannels : Z }.

#[export] Instance eta_codec : Eta Codec := fun c =>
  {| Name := Name c; PayloadType := PayloadType c; SampleRate := SampleRate c;
     SampleDur := SampleDur c; NumChannels := NumChannels c |}.

#[export] Instance codec_eq_dec : EqDecision Codec.
Proof. solve_decision. Defined.

Definition codec_zero : Codec :=
  {| Name := EmptyString; PayloadType := 0; SampleRate := 0; SampleDur := 0; NumChannels := 0 |}.

Definition CodecAudioUlaw : Codec :=
  {| PayloadType := 0; SampleRate := 8000; SampleDur := 20 * Millisecond; NumChannels := 1; Name := "PCMU" |}.
Definition CodecAudioAlaw : Codec :=
  {| PayloadType := 8; SampleRate := 8000; SampleDur := 20 * Millisecond; NumChannels := 1; Name := "PCMA" |}.
Definition CodecAudioOpus : Codec :=
  {| PayloadType := 96; SampleRate := 48000; SampleDur := 20 * Millisecond; NumChannels := 2; Name := "opus" |}.
Definition CodecTelephoneEvent8000 : Codec :=
  {| PayloadType := 101; SampleRate := 8000; SampleDur := 20 * Millisecond; NumChannels := 1; Name := "telephone-event" |}.
Definition CodecAudioG722 : Codec :=
  {| PayloadType := 9; SampleRate := 8000; SampleDur := 20 * Millisecond; NumChannels := 1; Name := "G722" |}.

(** ** Sizes *)

Definition samples (c : Codec) : Z :=
  Float64.to_Z (Float64.fmul (Float64.of_Z (SampleRate c)) (Float64.Seconds (SampleDur c))).
Definition SampleTimestamp (c : Codec) : Z := u32 (samples c).
Definition SamplesPCM (c : Codec) (bitSize : Z) : Z :=
  i64 (i64 (Z.quot bitSize 8 * samples c) * NumChannels c).
Definition Samples16 (c : Codec) : Z := SamplesPCM c 16.

(** ** Choosing a codec *)

Definition CodecAudioFromList (codecs : list Codec) : option Codec :=
  List.find (fun c => negb (String.eqb (Name c) "telephone-event")) codecs.

(** [filterCodecs] and [codecs] are those of the session; [None] is the index
    panic of a session without any. *)
Definition CodecAudioFromSession (filterCodecs codecs : list Codec) : option Codec :=
  match CodecAudioFromList filterCodecs with
  | Some c => Some c
  | None => head codecs
  end.

(** [active] is [activeCodecs] of the session. *)
Definition CodecTelephoneEventFromSession (active : list Codec) : option Codec :=
  List.find (fun c => EqualFold (Name c) (Name CodecTelephoneEvent8000)) active.

Definition supported (f : string) : option Codec :=
  if String.eqb f FORMAT_TYPE_ALAW then Some CodecAudioAlaw
  else if String.eqb f FORMAT_TYPE_ULAW then Some CodecAudioUlaw
  else if String.eqb f FORMAT_TYPE_G722 then Some CodecAudioG722
  else if String.eqb f FORMAT_TYPE_OPUS then Some CodecAudioOpus
  else if String.eqb f FORMAT_TYPE_TELEPHONE_EVENT then Some CodecTelephoneEvent8000
  else None.

Definition mapSupportedCodec (f : string) : Codec :=
  match supported f with
  | Some c => c
  | None => {| Name := EmptyString; PayloadType := (FormatNumeric f).1; SampleRate := 8000;
               SampleDur := 20 * Millisecond; NumChannels := 0 |}
  end.
Definition CodecFromPayloadType (payloadType : Z) : Codec := mapSupportedCodec (Itoa payloadType).
Definition CodecAudioFromPayloadType (payloadType : Z) : Codec + error :=
  match supported (Itoa payloadType) with
  | Some c => inl c
  | None => inr (ErrNew "non supported codec")
  end.

(** ** Reading codecs from SDP *)

(** What an attribute of format [f], numbered [pt], says of it: a codec, when it
    is a well-formed rtpmap of that format. *)
Definition rtpmap_codec (f : string) (pt : Z) (a : string) : option Codec :=
  let pref := "rtpmap:" +:+ f +:+ " " in
  if HasPrefix a pref then
    let str := str_drop (String.length pref) a in
    let firstProp := nth 0 (Split str " ") EmptyString in
    match Split firstProp "/" with
    | encodingName :: sampleRateStr :: params =>
      match ParseUint sampleRateStr 32 with
      | (rate, None) =>
        let channels :=
          match params with
          | [ch] => match ParseUint ch 32 with (n, None) => n | _ => 1 end
          | _ => 1
          end in
        Some {| Name := encodingName; PayloadType := pt; SampleRate := rate;
                SampleDur := 20 * Millisecond; NumChannels := channels |}
      | _ => None
      end
    | _ => None
    end
  else None.

(** The codecs one format contributes, in order: a static one, or one for each
    rtpmap of its number. *)
Definition format_codecs (attrs : list string) (f : string) : list Codec :=
  if String.eqb f "0" then [CodecAudioUlaw]
  else if String.eqb f "8" then [CodecAudioAlaw]
  else if String.eqb f "9" then [CodecAudioG722]
  else match ParseUint f 8 with
       | (pt, None) => omap (rtpmap_codec f pt) attrs
       | _ => []
       end.

(** [CodecsFromSDPRead] into a slice of [cap] codecs: [None] is the index panic
    when more are found. The errors met are collected in a variable that is never
    returned. *)
Definition CodecsFromSDPRead (formats attrs : list string) (cap : nat) : option (list Codec) :=
  let codecs := flat_map (format_codecs attrs) formats in
  if (length codecs <=? cap)%nat then Some codecs else None.

(** ** Facts *)

Lemma samples_builtin :
  map SampleTimestamp [CodecAudioUlaw; CodecAudioAlaw; CodecAudioOpus; CodecTelephoneEvent8000; CodecAudioG722] =
  [160; 160; 960; 160; 160] /\
  map Samples16 [CodecAudioUlaw; CodecAudioAlaw; CodecAudioOpus; CodecAudioG722] = [320; 320; 3840; 320].
Proof. vm_compute. auto. Qed.

(** Every format contributes at most as many codecs as it has rtpmap attributes,
    so the slice of one codec per format is long enough when no format has two. *)
Lemma format_codecs_short attrs f : (length (omap (rtpmap_codec f (ParseUint f 8).1) attrs) <= 1)%nat ->
  (length (format_codecs attrs f) <= 1)%nat.
Proof.
  intros H. unfold format_codecs. repeat case_match; simpl; try lia. done.
Qed.

Lemma CodecsFromSDPRead_total formats attrs :
  Forall (fun f => (length (omap (rtpmap_codec f (ParseUint f 8).1) attrs) <= 1)%nat) formats ->
  CodecsFromSDPRead formats attrs (length formats) = Some (flat_map (format_codecs attrs) formats).
Proof.
  intros H. unfold CodecsFromSDPRead. rewrite (proj2 (Nat.leb_le _ _)); [done|].
  induction H as [|f formats Hf H IH]; simpl; [lia|]. rewrite length_app.
  apply format_codecs_short in Hf. lia.
Qed.

(** Two rtpmap attributes for one dynamic format make [CodecsFromSDPRead]
    write past the slice its callers size by the number of formats: reading such
    a body, which any remote peer can send, panics. *)
Theorem duplicate_rtpmap_panics :
  CodecsFromSDPRead ["101"] ["rtpmap:101 telephone-event/8000"; "rtpmap:101 telephone-event/8000"] 1 = None.
Proof. vm_compute. reflexivity. Qed.

End Codecs.
