(* ===== verification/MediaSdp.v ===== *)
(** * Offer and answer: the parts that carry no session state

    The functions of [media/media_session.go] that read and write SDP without
    touching the session: the RTP profile of an m= line, the choice of the audio
    stream and the rejection of the others, media direction, codec matching, the
    rtpmap lines, the generated body, the DTLS roles and fingerprint sets; and
    the SRTP profile names of [media/srtp.go]. *)
From stdpp Require Import sorting.
From S2P Require Import Prelude GoStrings NetIP Sdp Codec.
Import GoStrings NetIP Sdp Codecs.

Module MediaSdp.

(** ** RTP profiles *)

Record rtpProfile := { secure : bool; feedback : bool; dtls : bool }.

Definition parseRTPProfile (proto : string) : option rtpProfile :=
  let p := ToUpper (TrimSpace proto) in
  let '(p, isdtls) := CutPrefix p "UDP/TLS/" in
  let prof :=
    if String.eqb p "RTP/AVP" then Some {| secure := false; feedback := false; dtls := isdtls |}
    else if String.eqb p "RTP/AVPF" then Some {| secure := false; feedback := true; dtls := isdtls |}
    else if String.eqb p "RTP/SAVP" then Some {| secure := true; feedback := false; dtls := isdtls |}
    else if String.eqb p "RTP/SAVPF" then Some {| secure := true; feedback := true; dtls := isdtls |}
    else None in
  match prof with
  | Some prof => if dtls prof && negb (secure prof) then None else Some prof
  | None => None
  end.

Definition sdpHasFingerprint (attrs : list string) : bool :=
  existsb (fun a => HasPrefix (ToLower (TrimSpace a)) "fingerprint:") attrs.

(** ** Streams *)

(** The loop of [audioStream] over the media descriptions from index [i] on. *)
Fixpoint audioStream_loop (i : nat) (sections : list MediaDescription) (first : option nat) : option nat :=
  match sections with
  | [] => first
  | md :: rest =>
    if negb (String.eqb (MediaType md) "audio") then audioStream_loop (S i) rest first
    else
      let first := match first with None => Some i | _ => first end in
      match parseRTPProfile (Proto md) with
      | Some _ => if 0 <? Port md then Some i else audioStream_loop (S i) rest first
      | None => audioStream_loop (S i) rest first
      end
  end.
Definition audioStream (sections : list MediaDescription) : option nat := audioStream_loop 0 sections None.

Record offeredStreams := { os_media : list MediaDescription; os_audio : nat }.
Definition no_streams : offeredStreams := {| os_media := []; os_audio := 0 |}.

(** The m= line that rejects a stream. *)
Definition rejected_line (md : MediaDescription) : string :=
  md_String {| MediaType := MediaType md; Port := 0; PortNumbers := 0; Proto := Proto md; Formats := Formats md |}.

Definition rejected (o : offeredStreams) : list string * list string :=
  (rejected_line <$> take (os_audio o) (os_media o), rejected_line <$> drop (S (os_audio o)) (os_media o)).

Definition negotiateMediaDirection (remoteMode localPref : string) : string :=
  let localPref := if String.eqb localPref EmptyString then ModeSendrecv else localPref in
  if String.eqb remoteMode "inactive" then "inactive"
  else if String.eqb remoteMode ModeSendonly then
    if String.eqb localPref "inactive" then "inactive" else ModeRecvonly
  else if String.eqb remoteMode ModeRecvonly then
    if String.eqb localPref "inactive" then "inactive" else ModeSendonly
  else if String.eqb remoteMode ModeSendrecv then
    if is_mode localPref then localPref else ModeSendrecv
  else localPref.

(** ** Codecs *)

Definition codecMatch (local remote : Codec) : bool :=
  EqualFold (Name local) (Name remote) && (SampleRate local =? SampleRate remote) &&
  (NumChannels local =? NumChannels remote).

Definition negotiatedCodec (local remote : Codec) : Codec :=
  local <| PayloadType := PayloadType remote |>.

(** The two loops of [updateRemoteCodecs], in the order of the remote list and
    in that of the local one. *)
Definition match_remote_order (local remote : list Codec) : list Codec :=
  omap (fun rc => match List.find (fun lc => codecMatch lc rc) local with
                  | Some lc => Some (negotiatedCodec lc rc) | None => None end) remote.
Definition match_local_order (local remote : list Codec) : list Codec :=
  omap (fun lc => match List.find (fun rc => codecMatch lc rc) remote with
                  | Some rc => Some (negotiatedCodec lc rc) | None => None end) local.

(** ** The rtpmap of a codec *)

Definition formatRTPMap (codec : Codec) : list string :=
  let pt := Itoa (PayloadType codec) in
  if EqualFold (Name codec) (Name CodecAudioOpus) then
    ["a=rtpmap:" +:+ pt +:+ " opus/48000/2"; "a=fmtp:" +:+ pt +:+ " useinbandfec=0"]
  else if EqualFold (Name codec) (Name CodecTelephoneEvent8000) then
    ["a=rtpmap:" +:+ pt +:+ " telephone-event/8000"; "a=fmtp:" +:+ pt +:+ " 0-16"]
  else if PayloadType codec =? PayloadType CodecAudioUlaw then ["a=rtpmap:0 PCMU/8000"]
  else if PayloadType codec =? PayloadType CodecAudioAlaw then ["a=rtpmap:8 PCMA/8000"]
  else if PayloadType codec =? PayloadType CodecAudioG722 then ["a=rtpmap:9 G722/8000"]
  else ["a=rtpmap:" +:+ pt +:+ " " +:+ Name codec +:+ "/" +:+ Itoa (SampleRate codec) +:+ "/" +:+ Itoa (NumChannels codec)].

(** ** The generated body *)

Record sdesInline := { sdes_alg : string; sdes_base64 : string; sdes_tag : Z }.
Definition no_sdes : sdesInline := {| sdes_alg := EmptyString; sdes_base64 := EmptyString; sdes_tag := 0 |}.

Record sdpFingerprints := { fingerprint : string; alg : string }.

Record dtlsSetup := { ds_setup : string; ds_fingerprints : list sdpFingerprints; ds_tlsID : string }.

Record iceSetup := { ufrag : string; pwd : string; candidates : list string; is_rtcpMux : bool; lite : bool }.

Definition sdpIP (ip : IP) : string := if bool_decide (To4 ip = None) then "IP6" else "IP4".

Definition dtls_lines (d : dtlsSetup) : list string :=
  ["a=setup:" +:+ ds_setup d] ++
  omap (fun fp => if String.eqb (fingerprint fp) EmptyString then None
                  else Some ("a=fingerprint:" +:+ alg fp +:+ " " +:+ fingerprint fp)) (ds_fingerprints d) ++
  (if String.eqb (ds_tlsID d) EmptyString then [] else ["a=tls-id:" +:+ ds_tlsID d]).

Definition ice_lines (i : iceSetup) : list string :=
  ["a=ice-ufrag:" +:+ ufrag i; "a=ice-pwd:" +:+ pwd i] ++ ((fun c => "a=" +:+ c) <$> candidates i) ++
  (if is_rtcpMux i then ["a=rtcp-mux"] else []).

Definition session_lines (sessionID sessionVersion : Z) (originIP connectionIP : IP) (iceSet : option iceSetup) : list string :=
  ["v=0";
   "o=- " +:+ Itoa sessionID +:+ " " +:+ Itoa sessionVersion +:+ " IN " +:+ sdpIP originIP +:+ " " +:+ IP_String originIP;
   "s=Sip Go Media";
   "c=IN " +:+ sdpIP connectionIP +:+ " " +:+ IP_String connectionIP;
   "t=0 0"] ++
  match iceSet with Some i => if lite i then ["a=ice-lite"] else [] | None => [] end.

Definition audio_lines (profile : string) (rtpPort : Z) (mode : string) (codecs : list Codec)
    (sdes : sdesInline) (dtlsSet : option dtlsSetup) (iceSet : option iceSetup) : list string :=
  ["m=audio " +:+ Itoa rtpPort +:+ " " +:+ profile +:+ " " +:+ Join (Itoa ∘ PayloadType <$> codecs) " "] ++
  flat_map formatRTPMap codecs ++
  ["a=ptime:20"; "a=maxptime:20"; "a=" +:+ mode] ++
  (if String.eqb (sdes_alg sdes) EmptyString then []
   else ["a=crypto:" +:+ Itoa (sdes_tag sdes) +:+ " " +:+ sdes_alg sdes +:+ " inline:" +:+ sdes_base64 sdes]) ++
  match dtlsSet with Some d => dtls_lines d | None => [] end ++
  match iceSet with Some i => ice_lines i | None => [] end.

Definition generateSDPForAudio (sessionID sessionVersion : Z) (profile : string) (originIP connectionIP : IP)
    (rtpPort : Z) (mode : string) (codecs : list Codec) (sdes : sdesInline) (dtlsSet : option dtlsSetup)
    (iceSet : option iceSetup) (streams : offeredStreams) : string :=
  let '(before, after) := rejected streams in
  write_lines (session_lines sessionID sessionVersion originIP connectionIP iceSet ++ before ++
               audio_lines profile rtpPort mode codecs sdes dtlsSet iceSet ++ after).

(** ** DTLS *)

Definition dtlsSetupActive : string := "active".
Definition dtlsSetupPassive : string := "passive".
Definition dtlsSetupActPass : string := "actpass".

Definition dtlsRoleAgainst (setup : string) : string :=
  let s := ToLower (TrimSpace setup) in
  if String.eqb s dtlsSetupActive then dtlsSetupPassive
  else if String.eqb s dtlsSetupPassive then dtlsSetupActive
  else EmptyString.

(** [slices.Sort] on strings, and [slices.Compact]. *)
Definition sort_strings (l : list string) : list string := merge_sort String.le l.
Fixpoint compact (l : list string) : list string :=
  match l with
  | s :: ((t :: _) as l') => if String.eqb s t then compact l' else s :: compact l'
  | _ => l
  end.

Definition fingerprint_text (fp : sdpFingerprints) : option string :=
  if String.eqb (fingerprint fp) EmptyString then None
  else Some (ToLower (alg fp) +:+ " " +:+ ToUpper (fingerprint fp)).
Definition fingerprintSet (fingerprints : list sdpFingerprints) : list string :=
  compact (sort_strings (omap fingerprint_text fingerprints)).

Record UDPAddr := { ua_IP : IP; ua_Port : Z; ua_Zone : string }.
Definition addr_zero : UDPAddr := {| ua_IP := None; ua_Port := 0; ua_Zone := EmptyString |}.
Definition sameUDPAddr (a b : UDPAddr) : bool :=
  Equal (ua_IP a) (ua_IP b) && (ua_Port a =? ua_Port b) && String.eqb (ua_Zone a) (ua_Zone b).

(** The hash functions of an a=fingerprint that can be checked. *)
Definition supported_hash (alg : string) : bool :=
  existsb (String.eqb (ToLower alg)) ["sha-1"; "sha-224"; "sha-256"; "sha-384"; "sha-512"].

(** ** SRTP profile names *)

Inductive ProtectionProfile :=
| Aes128CmHmacSha1_80 | Aes256CmHmacSha1_80 | AeadAes128Gcm | AeadAes256Gcm | NullHmacSha1_80.
#[export] Instance profile_eq_dec : EqDecision ProtectionProfile.
Proof. solve_decision. Defined.

Definition srtpProfileString (p : ProtectionProfile) : string :=
  match p with
  | Aes128CmHmacSha1_80 => "AES_CM_128_HMAC_SHA1_80"
  | Aes256CmHmacSha1_80 => "AES_CM_256_HMAC_SHA1_80"
  | AeadAes128Gcm => "AEAD_AES_128_GCM"
  | AeadAes256Gcm => "AEAD_AES_256_GCM"
  | NullHmacSha1_80 => "NULL_HMAC_SHA1_80"
  end.

(** [None] is the zero profile of a name that is none of these. *)
Definition srtpProfileParse (alg : string) : option ProtectionProfile :=
  List.find (fun p => String.eqb alg (srtpProfileString p))
    [Aes128CmHmacSha1_80; Aes256CmHmacSha1_80; AeadAes128Gcm; AeadAes256Gcm; NullHmacSha1_80].

Lemma srtpProfile_roundtrip p : srtpProfileParse (srtpProfileString p) = Some p.
Proof. by destruct p. Qed.

End MediaSdp.
