(* ===== verification/MediaSdpProps.v ===== *)
(** * Offer and answer: lemmas and theorems on the stateless parts

    What is generated reads back: the sections of a generated body, and the
    codecs in it; the codec, direction and fingerprint rules. *)
From stdpp Require Import sorting.
From S2P Require Import Prelude GoStrings NetIP Sdp SdpProps Codec MediaSdp.
Import GoStrings NetIP Sdp SdpProps Codecs MediaSdp.

Module MediaSdpProps.

(** ** Reading back sections *)

Lemma section_line_plain pre sec l : is_media l = false -> forall ses,
  section_line (Type_ l) (Value_ l) {| Session := ses; sec_Media := pre ++ [sec] |} =
  ({| Session := ses; sec_Media := pre ++ [{| Media := Media sec; Lines := Lines sec ++ [l] |}] |}, None).
Proof.
  intros Hl ses. unfold section_line, is_media in *. rewrite Hl. cbn [sec_Media Session].
  rewrite last_snoc, length_app. simpl. rewrite take_app_le by lia. rewrite take_ge by lia. by destruct l.
Qed.

Lemma over_typed_rest rest pre sec ses : forallb (fun l => negb (is_media l)) rest = true ->
  over_typed section_line rest {| Session := ses; sec_Media := pre ++ [sec] |} =
  ({| Session := ses; sec_Media := pre ++ [{| Media := Media sec; Lines := Lines sec ++ rest |}] |}, None).
Proof.
  revert sec. induction rest as [|l rest IH]; intros sec H; simpl.
  - rewrite app_nil_r. by destruct sec.
  - simpl in H. apply andb_true_iff in H as [Hl Hr]. apply negb_true_iff in Hl.
    rewrite section_line_plain by done. rewrite IH by done. simpl. by rewrite <- app_assoc.
Qed.

Lemma over_typed_secs secs pre ses : Forall section_ok secs ->
  over_typed section_line (flat_map Lines secs) {| Session := ses; sec_Media := pre |} =
  ({| Session := ses; sec_Media := pre ++ secs |}, None).
Proof.
  intros H. revert pre. induction H as [|sec secs [(v & rest & H1 & H2 & H3)] HF IH]; intros pre; simpl.
  { by rewrite app_nil_r. }
  rewrite H1. rewrite <- app_comm_cons. cbn [over_typed Type_ Value_]. unfold section_line at 1.
  simpl String.eqb. cbn iota. rewrite H2. cbn [Session sec_Media].
  rewrite over_typed_app, over_typed_rest by done. cbn [Media Lines app].
  rewrite IH. rewrite <- app_assoc. do 4 f_equal. destruct sec as [m ls]. simpl in *. by subst.
Qed.

Lemma over_typed_session ls : forallb (fun l => negb (is_media l)) ls = true -> forall ses,
  over_typed section_line ls {| Session := ses; sec_Media := [] |} =
  ({| Session := ses ++ ls; sec_Media := [] |}, None).
Proof.
  induction ls as [|l ls IH]; intros H ses; simpl; [by rewrite app_nil_r|].
  simpl in H. apply andb_true_iff in H as [Hl Hr]. apply negb_true_iff in Hl.
  unfold section_line, is_media in *. rewrite Hl. cbn [last sec_Media Session].
  rewrite IH by done. rewrite <- app_assoc. by destruct l.
Qed.

(** Sections that are written are the sections that are read. *)
Lemma sections_write ses secs : ses <> [] -> forallb (fun l => negb (is_media l)) ses = true ->
  Forall section_ok secs -> forallb line_ok (ses ++ flat_map Lines secs) = true ->
  UnmarshalSections (write_lines (line_text <$> ses ++ flat_map Lines secs)) =
  ({| Session := ses; sec_Media := secs |}, None).
Proof.
  intros Hne H1 H2 H3. unfold UnmarshalSections.
  rewrite readLines_write by (done || by destruct ses). rewrite over_typed_app.
  unfold sections_empty. rewrite over_typed_session by done. simpl. by rewrite over_typed_secs.
Qed.

(** ** Words of a parsed line *)

Lemma fields_words s cur : (cur = EmptyString \/ word cur = true) -> forallb word (fields_from s cur) = true.
Proof.
  revert cur. induction s as [|c s IH]; intros cur Hc; simpl.
  - destruct (String.eqb_spec cur EmptyString) as [->|Hne]; [done|].
    destruct Hc as [->|Hc]; [done|]. simpl. by rewrite Hc.
  - destruct (is_space c) eqn:E.
    + destruct (String.eqb_spec cur EmptyString) as [->|Hne]; [apply IH; by left|].
      destruct Hc as [->|Hc]; [done|]. simpl. rewrite Hc. apply IH. by left.
    + apply IH. right. assert (no_space cur = true) as Hn.
      { destruct Hc as [->|Hc]; [done|]. by apply andb_true_iff in Hc as [_ ?]. }
      unfold word, no_space in *. rewrite str_forall_app, Hn. simpl. rewrite E. simpl.
      rewrite andb_true_r. by destruct cur.
Qed.

Lemma Fields_words s : forallb word (Fields s) = true.
Proof. apply fields_words. by left. Qed.

(** A description read from a line, with its port cleared, can be written. *)
Definition cleared (md : MediaDescription) : MediaDescription :=
  {| MediaType := MediaType md; Port := 0; PortNumbers := 0; Proto := Proto md; Formats := Formats md |}.

Lemma parsed_md_wf v md : parseMediaLine v = inl md -> md_wf (cleared md).
Proof.
  unfold parseMediaLine. pose proof (Fields_words v) as HF.
  destruct (Fields v) as [|mt [|port [|proto [|f fs]]]]; try done. intros [= <-].
  simpl in HF. rewrite !andb_true_iff in HF. destruct HF as (H1 & H2 & H3 & H4 & H5).
  split; cbn; try done; [|lia..]. split; [done|]. by rewrite H4, H5.
Qed.

(** ** Typed lines of a generated body *)

Definition A (v : string) : Line := {| Type_ := "a"; Value_ := v |}.
Definition M (md : MediaDescription) : Line := {| Type_ := "m"; Value_ := md_value md |}.

Lemma word_no_LF s : word s = true -> no_LF s = true.
Proof.
  unfold word. rewrite andb_true_iff. intros [_ H]. eapply str_forall_impl; [|exact H].
  intros c Hc. unfold not_char. destruct (Ascii.eqb_spec c LF) as [->|]; [done|done].
Qed.

Lemma Join_no_LF ws : forallb word ws = true -> no_LF (Join ws " ") = true.
Proof.
  induction ws as [|w ws IH]; [done|]. intros H. apply andb_true_iff in H as [Hw Hws].
  destruct ws as [|v ws]; [by apply word_no_LF|].
  change (Join (w :: v :: ws) " ") with (w +:+ " " +:+ Join (v :: ws) " ").
  rewrite !no_LF_app, word_no_LF by done. cbn [andb]. rewrite IH by done. done.
Qed.

Lemma md_value_no_LF md : md_wf md -> no_LF (md_value md) = true.
Proof.
  intros Hm. rewrite md_value_join by apply Hm. apply Join_no_LF. pose proof (md_ports_word md Hm).
  destruct Hm as [H1 H2 [_ H3] _ _]. simpl. by rewrite H1, H2, H3, H.
Qed.

Lemma M_section md : md_wf md -> section_ok {| Media := md; Lines := [M md] |}.
Proof. intros H. split. exists (md_value md), []. by rewrite parseMediaLine_value. Qed.

Definition rejected_section (md : MediaDescription) : MediaSection :=
  {| Media := cleared md; Lines := [M (cleared md)] |}.

Lemma rejected_text mds : line_text <$> flat_map Lines (rejected_section <$> mds) = rejected_line <$> mds.
Proof. induction mds as [|md mds IH]; [done|]. cbn [fmap list_fmap flat_map rejected_section Lines app]. by rewrite IH. Qed.

(** *** The codecs of a body *)

(** A codec as a body can carry it: its name is a word without a slash, and the
    formats whose description the code fixes have the values it fixes. *)
Record codec_ok (c : Codec) : Prop := {
  co_name : word (Name c) = true /\ str_forall (not_char "/") (Name c) = true;
  co_pt : 0 <= PayloadType c < 2 ^ 8;
  co_rate : 0 <= SampleRate c < 2 ^ 32;
  co_channels : 0 <= NumChannels c < 2 ^ 32;
  co_dur : SampleDur c = 20 * Millisecond }.

Definition canonical (c : Codec) : Prop :=
  codec_ok c /\
  if (PayloadType c =? 0) then c = CodecAudioUlaw
  else if PayloadType c =? 8 then c = CodecAudioAlaw
  else if PayloadType c =? 9 then c = CodecAudioG722
  else if EqualFold (Name c) (Name CodecAudioOpus) then Name c = "opus" /\ SampleRate c = 48000 /\ NumChannels c = 2
  else if EqualFold (Name c) (Name CodecTelephoneEvent8000) then
    Name c = "telephone-event" /\ SampleRate c = 8000 /\ NumChannels c = 1
  else True.

(** The attributes of a codec, without the [a=]. *)
Definition codec_attrs (c : Codec) : list string := str_drop 2 <$> formatRTPMap c.

Lemma formatRTPMap_attrs c : formatRTPMap c = line_text <$> (A <$> codec_attrs c).
Proof.
  unfold codec_attrs, formatRTPMap. repeat (destruct (EqualFold _ _); [reflexivity|]).
  repeat (destruct (_ =? _); [reflexivity|]). reflexivity.
Qed.

Lemma append_inj_no_space a b s t : no_space a = true -> no_space b = true ->
  HasPrefix (a +:+ String " " s) (b +:+ String " " t) = true -> a = b.
Proof.
  unfold no_space, HasPrefix. revert b. induction a as [|x a IH]; intros [|y b] Ha Hb;
    cbn [String.append String.prefix str_forall] in *; try done.
  - destruct (Ascii.ascii_dec y " ") as [->|]; [by simpl in Hb|done].
  - destruct (Ascii.ascii_dec " " x) as [<-|]; [by simpl in Ha|done].
  - destruct (Ascii.ascii_dec y x) as [->|]; [|done]. intros H.
    apply andb_true_iff in Ha as [_ Ha]. apply andb_true_iff in Hb as [_ Hb]. f_equal. by apply IH.
Qed.

Lemma HasPrefix_same p s t : HasPrefix (p +:+ s) (p +:+ t) = HasPrefix s t.
Proof. unfold HasPrefix. induction p as [|c p IH]; simpl; [done|]. by destruct (Ascii.ascii_dec c c). Qed.

Lemma Itoa_inj a b : 0 <= a < 2 ^ 63 -> 0 <= b < 2 ^ 63 -> Itoa a = Itoa b -> a = b.
Proof.
  intros Ha Hb H. pose proof (Atoi_Itoa a Ha). pose proof (Atoi_Itoa b Hb). congruence.
Qed.

Lemma Itoa_no_space n : 0 <= n -> no_space (Itoa n) = true.
Proof. intros H. pose proof (Itoa_word n H) as Hw. by apply andb_true_iff in Hw as [_ ?]. Qed.

(** An rtpmap attribute describes the format of its number and no other. *)
Lemma rtpmap_other f pt a n s : 0 <= n < 2 ^ 8 -> 0 <= a < 2 ^ 8 -> f = Itoa a -> a <> n ->
  rtpmap_codec f pt ("rtpmap:" +:+ Itoa n +:+ " " +:+ s) = None.
Proof.
  intros Hn Ha -> Hne. unfold rtpmap_codec. rewrite HasPrefix_same.
  destruct (HasPrefix _ _) eqn:E; [|done]. exfalso.
  apply append_inj_no_space in E; [|apply Itoa_no_space; lia..]. apply Itoa_inj in E; lia.
Qed.

Lemma rtpmap_fmtp f pt s : rtpmap_codec f pt ("fmtp:" +:+ s) = None.
Proof. done. Qed.

Lemma drop_rtpmap f s : str_drop (String.length ("rtpmap:" +:+ f +:+ " ")) ("rtpmap:" +:+ f +:+ " " +:+ s) = s.
Proof.
  replace ("rtpmap:" +:+ f +:+ " " +:+ s) with (("rtpmap:" +:+ f +:+ " ") +:+ s) by (by rewrite <- !app_assoc_str).
  apply str_drop_app.
Qed.

Lemma rtpmap_prefix f s : HasPrefix ("rtpmap:" +:+ f +:+ " " +:+ s) ("rtpmap:" +:+ f +:+ " ") = true.
Proof.
  replace ("rtpmap:" +:+ f +:+ " " +:+ s) with (("rtpmap:" +:+ f +:+ " ") +:+ s) by (by rewrite <- !app_assoc_str).
  apply HasPrefix_app.
Qed.

Lemma no_space_not s : no_space s = true -> str_forall (not_char " ") s = true.
Proof. apply str_forall_impl. intros c. unfold not_char. by destruct (Ascii.eqb_spec c " ") as [->|]. Qed.

Lemma rtpmap_value f pt name rate params : no_space (name +:+ "/" +:+ rate +:+ params) = true ->
  str_forall (not_char "/") name = true ->
  rtpmap_codec f pt ("rtpmap:" +:+ f +:+ " " +:+ name +:+ "/" +:+ rate +:+ params) =
  match Split (rate +:+ params) "/" with
  | sr :: ps => match ParseUint sr 32 with
    | (r, None) => Some {| Name := name; PayloadType := pt; SampleRate := r; SampleDur := 20 * Millisecond;
        NumChannels := match ps with [ch] => match ParseUint ch 32 with (n, None) => n | _ => 1 end | _ => 1 end |}
    | _ => None
    end
  | [] => None
  end.
Proof.
  intros Hs Hn. unfold rtpmap_codec. rewrite rtpmap_prefix, drop_rtpmap.
  rewrite (Split_no _ " ") by (by apply no_space_not). cbn [nth].
  change ("/" +:+ rate +:+ params) with (String "/" (rate +:+ params)). rewrite Split_app by done. done.
Qed.

Lemma no_space_app a b : no_space (a +:+ b) = no_space a && no_space b.
Proof. apply str_forall_app. Qed.

Lemma rtpmap_generic c : codec_ok c ->
  rtpmap_codec (Itoa (PayloadType c)) (PayloadType c)
    ("rtpmap:" +:+ Itoa (PayloadType c) +:+ " " +:+ Name c +:+ "/" +:+ Itoa (SampleRate c) +:+ "/" +:+ Itoa (NumChannels c))
  = Some c.
Proof.
  intros [[Hw Hsl] Hpt Hr Hch Hd]. apply andb_true_iff in Hw as [_ Hw].
  rewrite (rtpmap_value _ _ _ _ ("/" +:+ Itoa (NumChannels c))).
  - change ("/" +:+ Itoa (NumChannels c)) with (String "/" (Itoa (NumChannels c))).
    rewrite Split_app, Split_no by (apply Itoa_no_slash; lia).
    rewrite !Itoa_nonneg, !ParseUint_FormatUint by lia. destruct c. cbn in *. by subst.
  - rewrite !no_space_app, Hw, !Itoa_no_space by lia. done.
  - done.
Qed.

Lemma rtpmap_fixed f pt name rate params c : no_space (name +:+ "/" +:+ rate +:+ params) = true ->
  str_forall (not_char "/") name = true ->
  (match Split (rate +:+ params) "/" with
  | sr :: ps => match ParseUint sr 32 with
    | (r, None) => Some {| Name := name; PayloadType := pt; SampleRate := r; SampleDur := 20 * Millisecond;
        NumChannels := match ps with [ch] => match ParseUint ch 32 with (n, None) => n | _ => 1 end | _ => 1 end |}
    | _ => None
    end
  | [] => None
  end) = Some c ->
  rtpmap_codec f pt ("rtpmap:" +:+ f +:+ " " +:+ name +:+ "/" +:+ rate +:+ params) = Some c.
Proof. intros H1 H2 H3. by rewrite rtpmap_value. Qed.

(** The attributes of one codec read as that codec under its own number, and as
    nothing under another. *)
Lemma codec_attrs_own c : canonical c ->
  PayloadType c <> 0 -> PayloadType c <> 8 -> PayloadType c <> 9 ->
  omap (rtpmap_codec (Itoa (PayloadType c)) (PayloadType c)) (codec_attrs c) = [c].
Proof.
  intros [Hc Hcan] H0 H8 H9. unfold codec_attrs, formatRTPMap in *.
  replace (PayloadType c =? 0) with false in Hcan by lia. replace (PayloadType c =? 8) with false in Hcan by lia.
  replace (PayloadType c =? 9) with false in Hcan by lia.
  change (PayloadType CodecAudioUlaw) with 0. change (PayloadType CodecAudioAlaw) with 8.
  change (PayloadType CodecAudioG722) with 9.
  replace (PayloadType c =? 0) with false by lia. replace (PayloadType c =? 8) with false by lia.
  replace (PayloadType c =? 9) with false by lia.
  destruct (EqualFold (Name c) (Name CodecAudioOpus)).
  - destruct Hcan as (E1 & E2 & E3). cbn [fmap list_fmap omap list_omap].
    change (str_drop 2 ("a=rtpmap:" +:+ Itoa (PayloadType c) +:+ " opus/48000/2"))
      with ("rtpmap:" +:+ Itoa (PayloadType c) +:+ " " +:+ "opus" +:+ "/" +:+ "48000" +:+ "/2").
    rewrite (rtpmap_fixed _ _ _ _ _ c); [done|done|done|].
    etransitivity; [apply (eq_refl (Some {| Name := "opus"; PayloadType := PayloadType c; SampleRate := 48000;
      SampleDur := 20 * Millisecond; NumChannels := 2 |}))|].
    rewrite <- E1, <- E2, <- E3, <- (co_dur c Hc). by destruct c.
  - destruct (EqualFold (Name c) (Name CodecTelephoneEvent8000)).
    + destruct Hcan as (E1 & E2 & E3). cbn [fmap list_fmap omap list_omap].
      change (str_drop 2 ("a=rtpmap:" +:+ Itoa (PayloadType c) +:+ " telephone-event/8000"))
        with ("rtpmap:" +:+ Itoa (PayloadType c) +:+ " " +:+ "telephone-event" +:+ "/" +:+ "8000" +:+ EmptyString).
      rewrite (rtpmap_fixed _ _ _ _ _ c); [done|done|done|].
      etransitivity; [apply (eq_refl (Some {| Name := "telephone-event"; PayloadType := PayloadType c; SampleRate := 8000;
        SampleDur := 20 * Millisecond; NumChannels := 1 |}))|].
      rewrite <- E1, <- E2, <- E3, <- (co_dur c Hc). by destruct c.
    + cbn [fmap list_fmap omap list_omap].
      match goal with |- context [str_drop 2 ?x] =>
        change (str_drop 2 x) with ("rtpmap:" +:+ Itoa (PayloadType c) +:+ " " +:+ Name c +:+ "/" +:+ Itoa (SampleRate c) +:+ "/" +:+ Itoa (NumChannels c)) end.
      by rewrite rtpmap_generic.
Qed.

Lemma HasPrefix_longer a p q : HasPrefix a (p +:+ q) = true -> HasPrefix a p = true.
Proof.
  unfold HasPrefix. revert a. induction p as [|c p IH]; intros [|x a]; cbn [String.append String.prefix]; try done.
  destruct (Ascii.ascii_dec c x); [apply IH|done].
Qed.

Definition not_rtpmap (a : string) : bool := negb (HasPrefix a "rtpmap:").

Lemma rtpmap_none f pt a : not_rtpmap a = true -> rtpmap_codec f pt a = None.
Proof.
  unfold not_rtpmap, rtpmap_codec. intros H. destruct (HasPrefix a ("rtpmap:" +:+ _)) eqn:E; [|done].
  apply HasPrefix_longer in E. by rewrite E in H.
Qed.

Lemma codec_attrs_shape c : canonical c -> Forall (fun a => not_rtpmap a = true \/
  exists s, a = "rtpmap:" +:+ Itoa (PayloadType c) +:+ " " +:+ s) (codec_attrs c).
Proof.
  intros [_ Hcan]. unfold codec_attrs, formatRTPMap.
  assert (forall t, not_rtpmap ("fmtp:" +:+ t) = true) as Hf by done.
  destruct (EqualFold (Name c) (Name CodecAudioOpus)).
  { constructor; [right; by exists "opus/48000/2"|]. constructor; [left; apply Hf|constructor]. }
  destruct (EqualFold (Name c) (Name CodecTelephoneEvent8000)).
  { constructor; [right; by exists "telephone-event/8000"|]. constructor; [left; apply Hf|constructor]. }
  destruct (Z.eqb_spec (PayloadType c) (PayloadType CodecAudioUlaw)) as [->|].
  { constructor; [right; by exists "PCMU/8000"|constructor]. }
  destruct (Z.eqb_spec (PayloadType c) (PayloadType CodecAudioAlaw)) as [->|].
  { constructor; [right; by exists "PCMA/8000"|constructor]. }
  destruct (Z.eqb_spec (PayloadType c) (PayloadType CodecAudioG722)) as [->|].
  { constructor; [right; by exists "G722/8000"|constructor]. }
  constructor; [right; by eexists|constructor].
Qed.

Lemma codec_attrs_other c d : canonical c -> canonical d -> PayloadType c <> PayloadType d ->
  omap (rtpmap_codec (Itoa (PayloadType d)) (PayloadType d)) (codec_attrs c) = [].
Proof.
  intros Hc [Hd _] Hne. pose proof (codec_attrs_shape c Hc) as HF. destruct Hc as [Hc _].
  induction HF as [|a l Ha HF IH]; [done|]. simpl. destruct Ha as [Ha|[s ->]].
  - by rewrite rtpmap_none.
  - destruct Hc, Hd. by rewrite (rtpmap_other _ _ (PayloadType d)) by (done || lia).
Qed.

Lemma omap_none {X Y} (f : X -> option Y) l : Forall (fun x => f x = None) l -> omap f l = [].
Proof. induction 1 as [|x l Hx HF IH]; [done|]. simpl. by rewrite Hx. Qed.

Lemma flat_attrs_own codecs c : Forall canonical codecs -> NoDup (PayloadType <$> codecs) -> c ∈ codecs ->
  PayloadType c <> 0 -> PayloadType c <> 8 -> PayloadType c <> 9 ->
  omap (rtpmap_codec (Itoa (PayloadType c)) (PayloadType c)) (flat_map codec_attrs codecs) = [c].
Proof.
  intros HF HN Hc H0 H8 H9. assert (canonical c) as Hcan by (rewrite Forall_forall in HF; by apply HF).
  induction HF as [|d codecs Hd HF IH]; [by apply not_elem_of_nil in Hc|].
  cbn [fmap list_fmap] in HN. apply NoDup_cons in HN as [Hnew HN].
  cbn [flat_map]. rewrite omap_app. apply elem_of_cons in Hc as [->|Hc].
  - rewrite codec_attrs_own by done. replace (omap _ (flat_map codec_attrs codecs)) with (@nil Codec); [done|].
    symmetry. clear IH HN. induction HF as [|e codecs He HF IH]; [done|]. cbn [flat_map]. rewrite omap_app.
    cbn [fmap list_fmap] in Hnew. rewrite not_elem_of_cons in Hnew. destruct Hnew as [Hn1 Hn2].
    by rewrite codec_attrs_other, IH.
  - rewrite codec_attrs_other, IH by (done || (intros E; apply Hnew; rewrite E; by apply list_elem_of_fmap_2)).
    done.
Qed.

(** The codecs of a body are those it was written from, whatever attributes that
    are no rtpmap stand around theirs. *)
Lemma codecs_read_back codecs pre post : Forall canonical codecs -> NoDup (PayloadType <$> codecs) ->
  forallb not_rtpmap pre = true -> forallb not_rtpmap post = true ->
  CodecsFromSDPRead (Itoa ∘ PayloadType <$> codecs) (pre ++ flat_map codec_attrs codecs ++ post) (length codecs)
  = Some codecs.
Proof.
  intros HF HN Hpre Hpost.
  assert (forall l f pt, forallb not_rtpmap l = true -> omap (rtpmap_codec f pt) l = []) as Hno.
  { intros l f pt H. apply omap_none. rewrite Forall_forall. intros a Ha. apply rtpmap_none.
    rewrite forallb_forall in H. by apply H, list_elem_of_In. }
  assert (forall c, c ∈ codecs ->
    format_codecs (pre ++ flat_map codec_attrs codecs ++ post) (Itoa (PayloadType c)) = [c]) as Hone.
  { intros c Hc. assert (canonical c) as [Hok Hcan] by (rewrite Forall_forall in HF; by apply HF).
    pose proof (co_pt c Hok) as Hpt. unfold format_codecs.
    assert (forall k, 0 <= k < 2 ^ 8 -> String.eqb (Itoa (PayloadType c)) (Itoa k) = (PayloadType c =? k)) as Hk.
    { intros k Hk. destruct (Z.eqb_spec (PayloadType c) k) as [->|Hne]; [apply String.eqb_refl|].
      apply String.eqb_neq. intros E. apply Itoa_inj in E; lia. }
    change "0" with (Itoa 0). change "8" with (Itoa 8). change "9" with (Itoa 9). rewrite !Hk by lia.
    destruct (Z.eqb_spec (PayloadType c) 0) as [|H0]; [by subst|].
    destruct (Z.eqb_spec (PayloadType c) 8) as [|H8]; [by subst|].
    destruct (Z.eqb_spec (PayloadType c) 9) as [|H9]; [by subst|].
    rewrite Itoa_nonneg, ParseUint_FormatUint by lia. rewrite <- Itoa_nonneg by lia.
    rewrite !omap_app, (Hno pre), (Hno post) by done. by rewrite flat_attrs_own. }
  unfold CodecsFromSDPRead. assert (flat_map (format_codecs (pre ++ flat_map codec_attrs codecs ++ post))
    (Itoa ∘ PayloadType <$> codecs) = codecs) as ->; [|by rewrite Nat.leb_refl].
  revert Hone. generalize (pre ++ flat_map codec_attrs codecs ++ post) as attrs. clear.
  induction codecs as [|c codecs IH]; intros attrs H; [done|]. cbn [fmap list_fmap flat_map compose].
  rewrite H by left. simpl. f_equal. apply IH. intros d Hd. apply H. by right.
Qed.

(** ** The sections of a generated body *)

Section Generated.
Context (sessionID sessionVersion : Z) (profile : string) (originIP connectionIP : IP) (rtpPort : Z)
  (mode : string) (codecs : list Codec) (sdes : sdesInline) (dtlsSet : option dtlsSetup)
  (iceSet : option iceSetup) (streams : offeredStreams).

Definition session_Lines : list Line :=
  [{| Type_ := "v"; Value_ := "0" |};
   {| Type_ := "o"; Value_ := "- " +:+ Itoa sessionID +:+ " " +:+ Itoa sessionVersion +:+ " IN " +:+
                              sdpIP originIP +:+ " " +:+ IP_String originIP |};
   {| Type_ := "s"; Value_ := "Sip Go Media" |};
   {| Type_ := "c"; Value_ := "IN " +:+ sdpIP connectionIP +:+ " " +:+ IP_String connectionIP |};
   {| Type_ := "t"; Value_ := "0 0" |}] ++
  match iceSet with Some i => if lite i then [A "ice-lite"] else [] | None => [] end.

Definition audio_md : MediaDescription :=
  {| MediaType := "audio"; Port := rtpPort; PortNumbers := 0; Proto := profile;
     Formats := Itoa ∘ PayloadType <$> codecs |}.

Definition crypto_attrs : list string :=
  if String.eqb (sdes_alg sdes) EmptyString then []
  else ["crypto:" +:+ Itoa (sdes_tag sdes) +:+ " " +:+ sdes_alg sdes +:+ " inline:" +:+ sdes_base64 sdes].
Definition dtls_attrs : list string :=
  match dtlsSet with Some d => str_drop 2 <$> dtls_lines d | None => [] end.
Definition ice_attrs : list string :=
  match iceSet with Some i => str_drop 2 <$> ice_lines i | None => [] end.

Definition audio_attrs : list string :=
  flat_map codec_attrs codecs ++ ["ptime:20"; "maxptime:20"; mode] ++ crypto_attrs ++ dtls_attrs ++ ice_attrs.

Definition audio_section : MediaSection :=
  {| Media := audio_md; Lines := M audio_md :: (A <$> audio_attrs) |}.

Definition generated_media : list MediaSection :=
  (rejected_section <$> take (os_audio streams) (os_media streams)) ++ [audio_section] ++
  (rejected_section <$> drop (S (os_audio streams)) (os_media streams)).

(** What the code relies on for its body to be one line per line. *)
Record body_ok : Prop := {
  bo_ids : 0 <= sessionID /\ 0 <= sessionVersion;
  bo_ips : no_LF (IP_String originIP) = true /\ no_LF (IP_String connectionIP) = true;
  bo_profile : word profile = true;
  bo_port : 0 <= rtpPort < 2 ^ 63;
  bo_mode : no_LF mode = true;
  bo_codecs : codecs <> [] /\ Forall codec_ok codecs;
  bo_attrs : forallb no_LF (crypto_attrs ++ dtls_attrs ++ ice_attrs) = true;
  bo_streams : Forall (fun md => md_wf (cleared md)) (os_media streams) }.

Lemma flat_fmap {X Y Z} (f : X -> list Y) (g : Y -> Z) (h : X -> list Z) l :
  (forall x, h x = g <$> f x) -> flat_map h l = g <$> flat_map f l.
Proof. intros H. induction l as [|x l IH]; [done|]. cbn [flat_map]. by rewrite H, IH, fmap_app. Qed.

Lemma a_lines ls : Forall (fun s => exists v, s = "a=" +:+ v) ls -> ls = line_text <$> (A <$> (str_drop 2 <$> ls)).
Proof. induction 1 as [|s ls [v ->] HF IH]; [done|]. cbn [fmap list_fmap]. by rewrite <- IH. Qed.

Lemma dtls_lines_a d : Forall (fun s => exists v, s = "a=" +:+ v) (dtls_lines d).
Proof.
  unfold dtls_lines. repeat (apply Forall_app; split).
  - repeat constructor. by exists ("setup:" +:+ ds_setup d).
  - induction (ds_fingerprints d) as [|fp l IH]; simpl; [constructor|].
    destruct (String.eqb (fingerprint fp) EmptyString); simpl; [done|]. constructor; [|done].
    by exists ("fingerprint:" +:+ alg fp +:+ " " +:+ fingerprint fp).
  - destruct (String.eqb (ds_tlsID d) EmptyString); [constructor|]. repeat constructor.
    by exists ("tls-id:" +:+ ds_tlsID d).
Qed.

Lemma ice_lines_a i : Forall (fun s => exists v, s = "a=" +:+ v) (ice_lines i).
Proof.
  unfold ice_lines. repeat (apply Forall_app; split).
  - repeat constructor; [by exists ("ice-ufrag:" +:+ ufrag i)|by exists ("ice-pwd:" +:+ pwd i)].
  - rewrite Forall_fmap. apply Forall_true. by intros c; exists c.
  - destruct (is_rtcpMux i); repeat constructor. by exists "rtcp-mux".
Qed.

Lemma audio_lines_text : audio_lines profile rtpPort mode codecs sdes dtlsSet iceSet = line_text <$> Lines audio_section.
Proof.
  unfold audio_section, audio_lines, audio_attrs. cbn [Lines fmap list_fmap]. f_equal.
  rewrite !fmap_app. f_equal.
  { rewrite (flat_fmap (fun c => A <$> codec_attrs c) line_text formatRTPMap) by apply formatRTPMap_attrs.
    f_equal. by apply flat_fmap. }
  f_equal. f_equal; [unfold crypto_attrs; by destruct (String.eqb (sdes_alg sdes) EmptyString)|].
  f_equal; [unfold dtls_attrs|unfold ice_attrs].
  - destruct dtlsSet as [d|]; [|done]. apply a_lines, dtls_lines_a.
  - destruct iceSet as [i|]; [|done]. apply a_lines, ice_lines_a.
Qed.

Lemma generate_text :
  generateSDPForAudio sessionID sessionVersion profile originIP connectionIP rtpPort mode codecs sdes dtlsSet iceSet streams
  = write_lines (line_text <$> session_Lines ++ flat_map Lines generated_media).
Proof.
  unfold generateSDPForAudio, rejected. f_equal. unfold generated_media.
  rewrite !flat_map_app, !fmap_app, !rejected_text. f_equal.
  - unfold session_lines, session_Lines. rewrite fmap_app. f_equal. destruct iceSet as [i|]; [|done]. by destruct (lite i).
  - f_equal. f_equal. rewrite audio_lines_text. cbn [flat_map]. by rewrite app_nil_r.
Qed.

Lemma A_ok v : no_LF v = true -> line_ok (A v) = true.
Proof. intros H. unfold line_ok. cbn [Type_ Value_ A]. by rewrite H. Qed.

Lemma A_oks vs : forallb no_LF vs = true -> forallb line_ok (A <$> vs) = true.
Proof.
  induction vs as [|v vs IH]; [done|]. intros H. apply andb_true_iff in H as [Hv Hvs].
  cbn [fmap list_fmap forallb]. by rewrite A_ok, IH.
Qed.

Lemma M_ok md : md_wf md -> line_ok (M md) = true.
Proof. intros H. unfold line_ok. cbn [Type_ Value_ M]. by rewrite md_value_no_LF. Qed.

Lemma audio_md_wf : body_ok -> md_wf audio_md.
Proof.
  intros []. split; cbn; try done; try lia. destruct bo_codecs0 as [Hne Hc]. split; [by destruct codecs|].
  clear Hne. induction Hc as [|c l [_ Hpt _ _ _] Hc IH]; [done|]. cbn [fmap list_fmap forallb].
  unfold compose at 1. by rewrite Itoa_word by lia.
Qed.

Lemma drop_no_LF n l : forallb no_LF l = true -> forallb no_LF (str_drop n <$> l) = true.
Proof.
  assert (forall k s, no_LF s = true -> no_LF (str_drop k s) = true) as Hd.
  { unfold no_LF. induction k as [|k IH]; intros [|c s] H; try done. simpl in *.
    apply andb_true_iff in H as [_ H]. by apply IH. }
  induction l as [|s l IH]; [done|]. intros H. apply andb_true_iff in H as [Hs Hl].
  cbn [fmap list_fmap forallb]. by rewrite Hd, IH.
Qed.

Lemma codec_attrs_no_LF c : codec_ok c -> forallb no_LF (codec_attrs c) = true.
Proof.
  intros [[Hn _] Hpt Hr Hch _]. unfold codec_attrs, formatRTPMap. apply drop_no_LF.
  assert (forall n, 0 <= n -> no_LF (Itoa n) = true) as HI by (intros; by apply word_no_LF, Itoa_word).
  apply word_no_LF in Hn.
  repeat (destruct (EqualFold _ _); [cbn [forallb]; rewrite !no_LF_app, !HI by lia; done|]).
  repeat (destruct (_ =? _); [done|]).
  cbn [forallb]. rewrite !no_LF_app, Hn, !HI by lia. done.
Qed.

Lemma audio_attrs_no_LF : body_ok -> forallb no_LF audio_attrs = true.
Proof.
  intros []. unfold audio_attrs. rewrite !forallb_app in *. rewrite bo_attrs0. cbn [forallb]. rewrite bo_mode0.
  rewrite !andb_true_r. destruct bo_codecs0 as [_ Hc]. clear -Hc.
  induction Hc as [|c l Hc HF IH]; [done|]. cbn [flat_map]. rewrite forallb_app. by rewrite codec_attrs_no_LF.
Qed.

Lemma not_media_A vs : forallb (fun l => negb (is_media l)) (A <$> vs) = true.
Proof. by induction vs. Qed.

Lemma session_Lines_ok : body_ok -> forallb line_ok session_Lines = true.
Proof.
  intros [[H1 H2] [H3 H4] _ _ _ _ _ _]. unfold session_Lines. rewrite forallb_app.
  assert (forall n, 0 <= n -> no_LF (Itoa n) = true) as HI by (intros; by apply word_no_LF, Itoa_word).
  assert (forall ip, no_LF (sdpIP ip) = true) as Hip by (intros ip; unfold sdpIP; by case_bool_decide).
  apply andb_true_iff. split.
  - cbn [forallb]. unfold line_ok. cbn [Type_ Value_]. rewrite !no_LF_app, !HI, !Hip, H3, H4 by done. done.
  - destruct iceSet as [i|]; [|done]. by destruct (lite i).
Qed.

Lemma rejected_sections mds : Forall (fun md => md_wf (cleared md)) mds ->
  Forall section_ok (rejected_section <$> mds) /\ forallb line_ok (flat_map Lines (rejected_section <$> mds)) = true.
Proof.
  induction 1 as [|md mds H HF [IH1 IH2]]; [by split|]. cbn [fmap list_fmap flat_map]. split.
  - constructor; [by apply M_section|done].
  - cbn [rejected_section Lines app forallb]. by rewrite M_ok.
Qed.

Lemma generated_sections : body_ok ->
  UnmarshalSections (generateSDPForAudio sessionID sessionVersion profile originIP connectionIP rtpPort mode
    codecs sdes dtlsSet iceSet streams) = ({| Session := session_Lines; sec_Media := generated_media |}, None).
Proof.
  intros HB. rewrite generate_text. pose proof (bo_streams HB) as HS.
  destruct (rejected_sections (take (os_audio streams) (os_media streams))) as [R1 R2]; [by apply Forall_take|].
  destruct (rejected_sections (drop (S (os_audio streams)) (os_media streams))) as [R3 R4]; [by apply Forall_drop|].
  apply sections_write.
  - done.
  - unfold session_Lines. rewrite forallb_app. destruct iceSet as [i|]; [|done]. by destruct (lite i).
  - unfold generated_media. apply Forall_app. split; [done|]. constructor; [|done].
    split. exists (md_value audio_md), (A <$> audio_attrs). split; [done|].
    split; [by apply parseMediaLine_value, audio_md_wf|apply not_media_A].
  - unfold generated_media. rewrite forallb_app, session_Lines_ok by done.
    rewrite !flat_map_app, !forallb_app, R2, R4. cbn [flat_map audio_section Lines].
    rewrite app_nil_r. cbn [forallb]. rewrite M_ok, A_oks; [done|by apply audio_attrs_no_LF|by apply audio_md_wf].
Qed.

End Generated.

(** *** The attributes of the audio section *)

Lemma values_A vs : values_of "a" (A <$> vs) = vs.
Proof. unfold values_of. induction vs as [|v vs IH]; [done|]. cbn [fmap list_fmap omap list_omap A]. simpl. by f_equal. Qed.

Lemma audio_values sid sver oip cip profile port mode codecs sdes dtlsSet iceSet :
  values_of "a" (session_Lines sid sver oip cip iceSet ++ M (audio_md profile port codecs) ::
    (A <$> audio_attrs mode codecs sdes dtlsSet iceSet)) =
  match iceSet with Some i => if lite i then ["ice-lite"] else [] | None => [] end ++
  flat_map codec_attrs codecs ++
  (["ptime:20"; "maxptime:20"; mode] ++ crypto_attrs sdes ++ dtls_attrs dtlsSet ++ ice_attrs iceSet).
Proof.
  rewrite values_of_app. unfold session_Lines. rewrite values_of_app.
  transitivity (values_of "a" (match iceSet with Some i => if lite i then [A "ice-lite"] else [] | None => [] end) ++
    values_of "a" (A <$> audio_attrs mode codecs sdes dtlsSet iceSet)); [done|].
  rewrite values_A. unfold audio_attrs. f_equal. destruct iceSet as [i|]; [|done]. by destruct (lite i).
Qed.

Lemma crypto_not_rtpmap sdes : forallb not_rtpmap (crypto_attrs sdes) = true.
Proof. unfold crypto_attrs. by destruct (String.eqb _ _). Qed.

Lemma dtls_not_rtpmap d : forallb not_rtpmap (dtls_attrs d) = true.
Proof.
  destruct d as [d|]; [|done]. unfold dtls_attrs, dtls_lines. rewrite !fmap_app, !forallb_app.
  replace (forallb not_rtpmap (str_drop 2 <$> ["a=setup:" +:+ ds_setup d])) with true by done. cbn [andb].
  apply andb_true_iff. split; [|by destruct (String.eqb _ _)].
  induction (ds_fingerprints d) as [|fp l IH]; [done|]. cbn [omap list_omap].
  destruct (String.eqb (fingerprint fp) EmptyString); [done|]. cbn [fmap list_fmap forallb]. by rewrite IH.
Qed.

Lemma ice_not_rtpmap i : forallb not_rtpmap (match i with Some i => candidates i | None => [] end) = true ->
  forallb not_rtpmap (ice_attrs i) = true.
Proof.
  destruct i as [i|]; [|done]. intros H. unfold ice_attrs, ice_lines. rewrite !fmap_app, !forallb_app.
  replace (forallb not_rtpmap (str_drop 2 <$> ["a=ice-ufrag:" +:+ ufrag i; "a=ice-pwd:" +:+ pwd i])) with true by done.
  cbn [andb]. apply andb_true_iff. split; [|by destruct (is_rtcpMux i)].
  rewrite <- list_fmap_compose. induction (candidates i) as [|c l IH]; [done|].
  apply andb_true_iff in H as [Hc Hl]. cbn [fmap list_fmap forallb]. rewrite IH by done.
  rewrite andb_true_r. exact Hc.
Qed.

Lemma audio_codecs_read_back sid sver oip cip profile port mode codecs sdes dtlsSet iceSet :
  Forall canonical codecs -> NoDup (PayloadType <$> codecs) ->
  forallb not_rtpmap (mode :: match iceSet with Some i => candidates i | None => [] end) = true ->
  let fmts := Formats (audio_md profile port codecs) in
  CodecsFromSDPRead fmts (values_of "a" (session_Lines sid sver oip cip iceSet ++
    Lines (audio_section profile port mode codecs sdes dtlsSet iceSet))) (length fmts) = Some codecs.
Proof.
  intros Hcan Hnd Hrt fmts. unfold fmts, audio_section. cbn [Lines]. rewrite audio_values.
  unfold audio_md. cbn [Formats]. rewrite length_fmap.
  apply andb_true_iff in Hrt as [Hm Hcand]. apply codecs_read_back; try done.
  - destruct iceSet as [i|]; [|done]. by destruct (lite i).
  - rewrite !forallb_app, crypto_not_rtpmap, dtls_not_rtpmap, ice_not_rtpmap by done.
    cbn [forallb]. by rewrite Hm.
Qed.

(** ** Fingerprint sets *)

Lemma compact_cons s t l : compact (s :: t :: l) = if String.eqb s t then compact (t :: l) else s :: compact (t :: l).
Proof. done. Qed.

Lemma compact_elem l x : x ∈ compact l <-> x ∈ l.
Proof.
  induction l as [|s [|t l] IH]; [done|done|]. rewrite compact_cons. destruct (String.eqb s t) eqn:E.
  - apply String.eqb_eq in E as ->. rewrite IH, !elem_of_cons. naive_solver.
  - rewrite elem_of_cons, IH, (elem_of_cons (t :: l)). done.
Qed.

Lemma compact_sorted l : StronglySorted String.le l ->
  StronglySorted String.le (compact l) /\ NoDup (compact l).
Proof.
  induction 1 as [|s l HS [IH1 IH2] HF]; [split; constructor|].
  destruct l as [|t l]; [split; repeat constructor; by apply not_elem_of_nil|]. rewrite compact_cons.
  destruct (String.eqb s t) eqn:E; [done|].
  assert (Forall (String.le s) (compact (t :: l))) as HF'.
  { rewrite Forall_forall in *. intros x Hx. by apply HF, compact_elem. }
  split; [by constructor|]. constructor; [|done]. rewrite compact_elem. intros Hin.
  apply String.eqb_neq in E. apply E. inversion HS as [|? ? HS' HF2]; subst.
  apply elem_of_cons in Hin as [|Hin]; [done|]. rewrite Forall_forall in HF, HF2.
  apply (anti_symm String.le); [apply HF; left|by apply HF2].
Qed.

(** Two lists of fingerprints have the same set exactly when they have the same
    certificates, however ordered, repeated or spelled. *)
Lemma fingerprintSet_eq l k : fingerprintSet l = fingerprintSet k <->
  forall t, t ∈ omap fingerprint_text l <-> t ∈ omap fingerprint_text k.
Proof.
  assert (forall l x, x ∈ fingerprintSet l <-> x ∈ omap fingerprint_text l) as He.
  { intros l' x. unfold fingerprintSet, sort_strings. rewrite compact_elem. by rewrite merge_sort_Permutation. }
  split; [intros E t; by rewrite <- !He, E|]. intros H.
  assert (forall l, StronglySorted String.le (fingerprintSet l) /\ NoDup (fingerprintSet l)) as Hs.
  { intros l'. apply compact_sorted, StronglySorted_merge_sort; apply _. }
  apply (StronglySorted_unique String.le); [apply Hs..|].
  apply NoDup_Permutation; [apply Hs..|]. intros x. by rewrite !He.
Qed.

(** ** Claims *)

(** C15. The generated body reads back: [UnmarshalSections] finds in it one media
    section for each stream of the offer it was written around, in order, each
    with the stream's media type, transport and formats, all but the audio one on
    port 0 and without attributes; the audio section has the port, transport and
    payload types given, and [CodecsFromSDPRead] reads exactly the codecs given
    from it. *)
Theorem generated_body_reads_back sid sver profile oip cip port mode codecs sdes dtlsSet iceSet streams s e :
  body_ok sid sver profile oip cip port mode codecs sdes dtlsSet iceSet streams ->
  Forall canonical codecs -> NoDup (PayloadType <$> codecs) ->
  forallb not_rtpmap (mode :: match iceSet with Some i => candidates i | None => [] end) = true ->
  (os_audio streams < length (os_media streams))%nat ->
  UnmarshalSections (generateSDPForAudio sid sver profile oip cip port mode codecs sdes dtlsSet iceSet streams) = (s, e) ->
  e = None /\ length (sec_Media s) = length (os_media streams) /\
  (forall i md, os_media streams !! i = Some md -> i <> os_audio streams ->
     exists sec, sec_Media s !! i = Some sec /\ Media sec = cleared md /\ length (Lines sec) = 1%nat) /\
  exists sec sd, sec_Media s !! os_audio streams = Some sec /\ Media sec = audio_md profile port codecs /\
    Description s (os_audio streams) = Some sd /\
    CodecsFromSDPRead (Formats (Media sec)) (Values sd "a") (length (Formats (Media sec))) = Some codecs.
Proof.
  intros HB Hcan Hnd Hrt Ha. rewrite generated_sections by done. intros [= <- <-].
  split; [done|]. cbn [sec_Media]. unfold generated_media.
  set (n := os_audio streams) in *. set (mds := os_media streams) in *.
  assert (length (rejected_section <$> take n mds) = n) as Hn by (rewrite length_fmap, length_take; lia).
  split; [rewrite !length_app, Hn, length_fmap, length_drop; simpl; lia|]. split.
  - intros i md Hi Hne. exists (rejected_section md). split; [|done]. destruct (decide (i < n)%nat).
    + rewrite lookup_app_l by lia. rewrite list_lookup_fmap, lookup_take_lt by lia. by rewrite Hi.
    + rewrite lookup_app_r by lia. rewrite Hn. destruct (i - n)%nat as [|k] eqn:E; [lia|]. simpl.
      rewrite list_lookup_fmap, lookup_drop. replace (S n + k)%nat with i by lia. by rewrite Hi.
  - set (sec := audio_section profile port mode codecs sdes dtlsSet iceSet).
    set (all := {| Session := session_Lines sid sver oip cip iceSet;
      sec_Media := (rejected_section <$> take n mds) ++ [sec] ++ (rejected_section <$> drop (S n) mds) |}).
    assert (sec_Media all !! n = Some sec) as Hsec
      by (unfold all; cbn [sec_Media]; rewrite lookup_app_r, Hn, Nat.sub_diag by lia; done).
    destruct (Description_values all n sec "a" Hsec) as (sd & HD & HV).
    exists sec, sd. split; [done|]. split; [done|]. split; [done|].
    rewrite HV. by apply audio_codecs_read_back.
Qed.

Definition ex_streams : offeredStreams :=
  {| os_media := [{| MediaType := "video"; Port := 4002; PortNumbers := 0; Proto := "RTP/AVP"; Formats := ["96"] |};
                  {| MediaType := "audio"; Port := 4000; PortNumbers := 0; Proto := "RTP/SAVPF"; Formats := ["0"; "111"] |}];
     os_audio := 1 |}.
Definition ex_codecs : list Codec :=
  [CodecAudioOpus <| PayloadType := 111 |>; CodecAudioUlaw; CodecTelephoneEvent8000].
Definition ex_ip : IP := Some [10; 0; 0; 1].

Lemma canonical_ex : Forall canonical ex_codecs.
Proof.
  repeat constructor; cbn; try lia; try reflexivity.
Qed.

Lemma body_ok_ex : body_ok 7 8 "RTP/SAVPF" ex_ip ex_ip 5000 "sendrecv" ex_codecs no_sdes None None ex_streams.
Proof.
  split; cbn; try lia; try (repeat split; reflexivity).
  - split; [discriminate|]. repeat constructor; cbn; lia.
  - repeat constructor; cbn; try lia; try reflexivity; discriminate.
Qed.

Lemma generated_body_reads_back_witness : exists s sec sd,
  UnmarshalSections (generateSDPForAudio 7 8 "RTP/SAVPF" ex_ip ex_ip 5000 "sendrecv" ex_codecs no_sdes None None ex_streams)
    = (s, None) /\ length (sec_Media s) = 2%nat /\ sec_Media s !! 1%nat = Some sec /\
  Description s 1 = Some sd /\
  CodecsFromSDPRead (Formats (Media sec)) (Values sd "a") (length (Formats (Media sec))) = Some ex_codecs.
Proof.
  destruct (UnmarshalSections (generateSDPForAudio 7 8 "RTP/SAVPF" ex_ip ex_ip 5000 "sendrecv" ex_codecs no_sdes None None ex_streams))
    as [s e] eqn:E.
  destruct (generated_body_reads_back 7 8 "RTP/SAVPF" ex_ip ex_ip 5000 "sendrecv" ex_codecs no_sdes None None ex_streams s e)
    as (He & Hl & _ & sec & sd & H1 & _ & H3 & H4).
  - exact body_ok_ex.
  - exact canonical_ex.
  - apply (bool_decide_unpack _). vm_compute. exact I.
  - reflexivity.
  - cbn. lia.
  - exact E.
  - exists s, sec, sd. split; [rewrite <- He; reflexivity|]. split; [exact Hl|]. split; [exact H1|]. split; [exact H3|exact H4].
Defined.

Definition sends (mode : string) : bool := String.eqb mode ModeSendrecv || String.eqb mode ModeSendonly.
Definition receives (mode : string) : bool := String.eqb mode ModeSendrecv || String.eqb mode ModeRecvonly.

(** The direction computed against an offered one is one RFC 3264 allows in
    the answer: a direction, which sends only where the offer receives and
    receives only where the offer sends, whatever the local preference; and a
    side that prefers to be inactive is inactive. *)
Theorem direction_allowed remote localPref : is_mode remote = true ->
  (localPref = EmptyString \/ is_mode localPref = true) ->
  let answer := negotiateMediaDirection remote localPref in
  is_mode answer = true /\
  (sends answer = true -> receives remote = true) /\ (receives answer = true -> sends remote = true) /\
  (localPref = ModeInactive -> answer = ModeInactive).
Proof.
  intros Hr Hl. unfold is_mode in Hr. rewrite !orb_true_iff, !String.eqb_eq in Hr.
  assert (localPref = EmptyString \/ localPref = ModeSendrecv \/ localPref = ModeSendonly \/
    localPref = ModeRecvonly \/ localPref = ModeInactive) as Hp.
  { unfold is_mode in Hl. rewrite !orb_true_iff, !String.eqb_eq in Hl. tauto. }
  destruct Hr as [[[-> | ->] | ->] | ->], Hp as [-> | [-> | [-> | [-> | ->]]]]; by vm_compute.
Qed.

Lemma direction_allowed_witness :
  negotiateMediaDirection ModeSendonly EmptyString = ModeRecvonly /\
  is_mode (negotiateMediaDirection ModeSendonly EmptyString) = true.
Proof.
  split; [reflexivity|].
  exact (proj1 (direction_allowed ModeSendonly EmptyString eq_refl (or_introl eq_refl))).
Defined.

(** A local preference of one direction is not kept against a one-way offer: a
    side that only ever receives answers a recvonly offer by sending. *)
Example direction_overrides_preference :
  negotiateMediaDirection ModeRecvonly ModeRecvonly = ModeSendonly /\
  negotiateMediaDirection ModeSendonly ModeSendonly = ModeRecvonly.
Proof. split; reflexivity. Qed.

(** The fingerprint sets two descriptions render to are equal exactly when
    they name the same certificates: the order of the attributes, repeats and the
    case of hash names and digits make no difference, and nothing else is
    ignored, but fingerprints that are empty. *)
Theorem fingerprint_set_canonical l k : fingerprintSet l = fingerprintSet k <->
  forall t, t ∈ omap fingerprint_text l <-> t ∈ omap fingerprint_text k.
Proof. apply fingerprintSet_eq. Qed.

End MediaSdpProps.
