(* ===== verification/Base64.v ===== *)
(** * Base64

    Go's [encoding/base64.StdEncoding], which carries the SDES keys of an
    a=crypto attribute: the encoder, the decoder (which skips CR and LF), and the
    round trip between them. *)
From S2P Require Import Prelude GoStrings.
Import GoStrings.

Module Base64.

(** The alphabet: A-Z, a-z, 0-9, +, /. *)
Definition b64_char (n : Z) : ascii :=
  ascii_of_nat (Z.to_nat (
    if n <? 26 then 65 + n else if n <? 52 then 71 + n else if n <? 62 then n - 4
    else if n =? 62 then 43 else 47)).

Definition b64_value (c : ascii) : option Z :=
  let n := Z.of_nat (nat_of_ascii c) in
  if (65 <=? n) && (n <=? 90) then Some (n - 65)
  else if (97 <=? n) && (n <=? 122) then Some (n - 71)
  else if (48 <=? n) && (n <=? 57) then Some (n + 4)
  else if n =? 43 then Some 62
  else if n =? 47 then Some 63
  else None.

Definition pad : ascii := "=".

(** [EncodeToString]: three bytes make four characters, the last group padded. *)
Fixpoint EncodeToString (b : bytes) : string :=
  match b with
  | x :: y :: z :: b =>
    let v := x * 65536 + y * 256 + z in
    String (b64_char (v / 262144)) (String (b64_char (v / 4096 mod 64))
      (String (b64_char (v / 64 mod 64)) (String (b64_char (v mod 64)) (EncodeToString b))))
  | [x; y] =>
    let v := x * 65536 + y * 256 in
    String (b64_char (v / 262144)) (String (b64_char (v / 4096 mod 64))
      (String (b64_char (v / 64 mod 64)) (String pad EmptyString)))
  | [x] =>
    let v := x * 65536 in
    String (b64_char (v / 262144)) (String (b64_char (v / 4096 mod 64)) (String pad (String pad EmptyString)))
  | [] => EmptyString
  end.

(** The characters the decoder looks at. *)
Fixpoint strip_newlines (s : string) : string :=
  match s with
  | EmptyString => EmptyString
  | String c s =>
    if (nat_of_ascii c =? 10)%nat || (nat_of_ascii c =? 13)%nat then strip_newlines s
    else String c (strip_newlines s)
  end.

(** Whole quanta of four characters; padding ends the data. *)
Fixpoint decode_quanta (s : string) : option bytes :=
  match s with
  | EmptyString => Some []
  | String a (String b (String c (String d s))) =>
    match b64_value a, b64_value b with
    | Some va, Some vb =>
      match b64_value c, b64_value d with
      | Some vc, Some vd =>
        let v := va * 262144 + vb * 4096 + vc * 64 + vd in
        match decode_quanta s with
        | Some rest => Some (v / 65536 :: v / 256 mod 256 :: v mod 256 :: rest)
        | None => None
        end
      | Some vc, None =>
        if Ascii.eqb d pad && String.eqb s EmptyString then
          let v := va * 262144 + vb * 4096 + vc * 64 in Some [v / 65536; v / 256 mod 256]
        else None
      | None, _ =>
        if Ascii.eqb c pad && Ascii.eqb d pad && String.eqb s EmptyString then
          let v := va * 262144 + vb * 4096 in Some [v / 65536]
        else None
      end
    | _, _ => None
    end
  | _ => None
  end.

Definition DecodeString (s : string) : option bytes := decode_quanta (strip_newlines s).

(** ** Round trip *)

Lemma b64_char_spec n : 0 <= n < 64 -> b64_value (b64_char n) = Some n /\ strip_newlines (String (b64_char n) EmptyString) = String (b64_char n) EmptyString.
Proof.
  intros Hn.
  assert (forallb (fun n => bool_decide (b64_value (b64_char n) = Some n) &&
    String.eqb (strip_newlines (String (b64_char n) EmptyString)) (String (b64_char n) EmptyString))
    (Z.of_nat <$> seq 0 64) = true) as H by (vm_compute; reflexivity).
  rewrite forallb_forall in H. specialize (H n). rewrite andb_true_iff, bool_decide_eq_true, String.eqb_eq in H.
  apply H, list_elem_of_In, list_elem_of_fmap. exists (Z.to_nat n). split; [lia|]. apply elem_of_seq. lia.
Qed.

Lemma strip_char n s : 0 <= n < 64 -> strip_newlines (String (b64_char n) s) = String (b64_char n) (strip_newlines s).
Proof. intros Hn. destruct (b64_char_spec n Hn) as [_ H]. cbn [strip_newlines] in *. by destruct (_ || _). Qed.

Definition byte_ok (x : Z) : Prop := 0 <= x < 256.

Lemma encode_strip b : Forall byte_ok b -> strip_newlines (EncodeToString b) = EncodeToString b.
Proof.
  revert b. fix IH 1. intros [|x [|y [|z b]]] HF; try done; cbn [EncodeToString].
  - apply Forall_inv in HF. unfold byte_ok in HF. rewrite !strip_char by lia. done.
  - inversion_clear HF as [|? ? Hx HF']. apply Forall_inv in HF'. unfold byte_ok in *.
    rewrite !strip_char by lia. done.
  - inversion_clear HF as [|? ? Hx HF1]. inversion_clear HF1 as [|? ? Hy HF2].
    inversion_clear HF2 as [|? ? Hz HF3]. unfold byte_ok in *. rewrite !strip_char by lia.
    by rewrite IH.
Qed.

Lemma decode_encode b : Forall byte_ok b -> DecodeString (EncodeToString b) = Some b.
Proof.
  intros HF. unfold DecodeString. rewrite encode_strip by done. revert b HF.
  fix IH 1. intros [|x [|y [|z b]]] HF; try done; cbn [EncodeToString decode_quanta].
  - apply Forall_inv in HF. unfold byte_ok in HF.
    rewrite !(fun n H => proj1 (b64_char_spec n H)) by lia.
    change (b64_value pad) with (@None Z). cbn. do 2 f_equal. lia.
  - inversion_clear HF as [|? ? Hx HF']. apply Forall_inv in HF'. unfold byte_ok in *.
    rewrite !(fun n H => proj1 (b64_char_spec n H)) by lia.
    change (b64_value pad) with (@None Z). cbn. f_equal. f_equal; [lia|]. f_equal. lia.
  - inversion_clear HF as [|? ? Hx HF1]. inversion_clear HF1 as [|? ? Hy HF2].
    inversion_clear HF2 as [|? ? Hz HF3]. unfold byte_ok in *.
    rewrite !(fun n H => proj1 (b64_char_spec n H)) by lia.
    rewrite IH by done. f_equal. f_equal; [lia|]. f_equal; [lia|]. f_equal. lia.
Qed.

(** Encoded data is a word of base64 characters. *)
Lemma encode_no_space b : Forall byte_ok b -> no_space (EncodeToString b) = true.
Proof.
  assert (forall n, 0 <= n < 64 -> is_space (b64_char n) = false) as Hc.
  { intros n Hn. assert (forallb (fun n => negb (is_space (b64_char n))) (Z.of_nat <$> seq 0 64) = true) as H
      by (vm_compute; reflexivity).
    rewrite forallb_forall in H. apply negb_true_iff, H, list_elem_of_In, list_elem_of_fmap.
    exists (Z.to_nat n). split; [lia|]. apply elem_of_seq. lia. }
  revert b. fix IH 1. unfold no_space in *. intros [|x [|y [|z b]]] HF; try done; cbn [EncodeToString str_forall].
  - apply Forall_inv in HF. unfold byte_ok in HF. by rewrite !Hc by lia.
  - inversion_clear HF as [|? ? Hx HF']. apply Forall_inv in HF'. unfold byte_ok in *. by rewrite !Hc by lia.
  - inversion_clear HF as [|? ? Hx HF1]. inversion_clear HF1 as [|? ? Hy HF2].
    inversion_clear HF2 as [|? ? Hz HF3]. unfold byte_ok in *. rewrite !Hc by lia. simpl. by apply IH.
Qed.

End Base64.
