(* ===== verification/MediaSession.v ===== *)
(** * The media session: negotiation state

    The part of [media/media_session.go] that negotiates: [LocalSDP] and
    [RemoteSDP] with what they call (codecs, direction, SDES, ICE credentials,
    the DTLS association). A function that changes the session returns the session
    after it together with its result. What other packages decide is an argument
    of the section: SRTP contexts and key lengths (pion/srtp), certificate
    fingerprints, ICE candidates, the DTLS conn (pion/ice, pion/dtls), bound
    sockets, random values and the clock. *)
From S2P Require Import Prelude GoStrings NetIP Sdp Codec MediaSdp Base64.
Import GoStrings NetIP Sdp Codecs MediaSdp.

Module MediaSession.

Definition ErrNoCommonCodec : error := ErrNew "no common codec".
Definition ErrNoCommonCrypto : error := ErrNew "no common crypto".
Definition ErrNoCommonMedia : error := ErrNew "no common media".
Definition ErrICERestartUnsupported : error := ErrNew "ice restart unsupported".
Definition ErrFinalizeInProgress : error := ErrNew "media negotiation still in progress".
Definition ErrDTLSNotKeyed : error := ErrNew "dtls-srtp not keyed".

Inductive SecureRTPMode := SecureRTPModeNone | SecureRTPModeSDES | SecureRTPModeDTLS.
#[export] Instance secure_eq_dec : EqDecision SecureRTPMode.
Proof. solve_decision. Defined.

Inductive DTLSEndpointRole := DTLSEndpointRoleUnknown | DTLSEndpointRoleOfferer | DTLSEndpointRoleAnswerer.
#[export] Instance role_eq_dec : EqDecision DTLSEndpointRole.
Proof. solve_decision. Defined.

(** The result of a call that may also panic. *)
Inductive outcome := Ok | Err (e : error) | Panic.

Section Session.

Context {cert : Type} (dtlsSHA256Fingerprint : cert -> string + error).
Context {srtp_ctx : Type} (CreateContext : bytes -> bytes -> ProtectionProfile -> srtp_ctx + error).
Context (KeyLen SaltLen : ProtectionProfile -> Z).
Context (candidate_ok : string -> bool).

Record DTLSConfig := {
  Certificates : list cert;
  SDPSetupRole : option (bool -> string) }.

(** What the session uses of its ICE agent: its credentials and the rendered
    candidates, and the remote ones fed to it. *)
Record ICEAgent := {
  ag_ufrag : string;
  ag_pwd : string;
  ag_candidates : list string;
  ag_remote : list string;
  ag_remoteUfrag : string;
  ag_remotePwd : string }.

Record establishedICE := { ei_local : iceSetup; ei_remoteUfrag : string; ei_remotePwd : string }.

Record dtlsAssociation := {
  da_setup : string;
  da_localFingerprints : list string;
  da_remoteFingerprints : list string;
  da_remoteTLSID : string;
  da_localTLSID : string;
  da_laddr : UDPAddr;
  da_raddr : UDPAddr }.

(** The negotiation [armDTLSHandshake] prepares for [Finalize]: the role it
    plays and the association it will record. *)
Record armed := { ar_client : bool; ar_assoc : dtlsAssociation }.

(** A negotiation left running: [None] until it has returned. *)
Record finalizeRun := { fr_armed : armed; fr_done : option (option error) }.

(** Of [ICEConf] the lite flag is used. Sockets are named by numbers;
    [closedConns] is the state of the sockets rather than a field of the struct:
    the ones [Close] was called on. *)
Record MediaSession := {
  ms_Codecs : list Codec;
  RemoteSDPIsAnswer : bool;
  ms_sdp : string;
  Mode : string;
  Laddr : UDPAddr;
  Raddr : UDPAddr;
  ExternalIP : IP;
  SecureRTP : SecureRTPMode;
  SRTPAlg : option ProtectionProfile;
  DTLSConf : DTLSConfig;
  ICEConf : option bool;
  DTLSRole : DTLSEndpointRole;
  mode : string;
  filterCodecs : list Codec;
  rtpConn : option nat;
  rtcpConn : option nat;
  rtcpRaddr : UDPAddr;
  localCtxSRTP : option srtp_ctx;
  remoteCtxSRTP : option srtp_ctx;
  srtpRemoteTag : Z;
  RTPNAT : Z;
  learnedRTPFrom : option UDPAddr;
  learnedRTCPFrom : option UDPAddr;
  srtpAuthFailures : Z;
  remoteProto : string;
  ms_streams : offeredStreams;
  dtlsRemoteSetup : string;
  localTLSID : string;
  dtlsRemoteTLSID : string;
  iceAgent : option ICEAgent;
  iceUDPConn : option nat;
  rtcpMux : bool;
  remoteICEUfrag : string;
  remoteICEPwd : string;
  remoteICELite : bool;
  ms_establishedICE : option establishedICE;
  dtlsAssoc : option dtlsAssociation;
  onFinalize : option armed;
  ms_finalizeRun : option finalizeRun;
  finalizeErr : option error;
  dtlsUnkeyed : bool;
  dtlsKeyed : bool;
  rtpReadDeadline : Z;
  rtpWriteDeadline : Z;
  sessionID : Z;
  sessionVersion : Z;
  closedConns : list nat }.

#[export] Instance eta_session : Eta MediaSession := fun s =>
  {| ms_Codecs := ms_Codecs s; RemoteSDPIsAnswer := RemoteSDPIsAnswer s; ms_sdp := ms_sdp s; Mode := Mode s;
     Laddr := Laddr s; Raddr := Raddr s; ExternalIP := ExternalIP s; SecureRTP := SecureRTP s;
     SRTPAlg := SRTPAlg s; DTLSConf := DTLSConf s; ICEConf := ICEConf s; DTLSRole := DTLSRole s; mode := mode s;
     filterCodecs := filterCodecs s; rtpConn := rtpConn s; rtcpConn := rtcpConn s; rtcpRaddr := rtcpRaddr s;
     localCtxSRTP := localCtxSRTP s; remoteCtxSRTP := remoteCtxSRTP s; srtpRemoteTag := srtpRemoteTag s;
     RTPNAT := RTPNAT s; learnedRTPFrom := learnedRTPFrom s; learnedRTCPFrom := learnedRTCPFrom s; srtpAuthFailures := srtpAuthFailures s; remoteProto := remoteProto s; ms_streams := ms_streams s;
     dtlsRemoteSetup := dtlsRemoteSetup s; localTLSID := localTLSID s; dtlsRemoteTLSID := dtlsRemoteTLSID s;
     iceAgent := iceAgent s; iceUDPConn := iceUDPConn s; rtcpMux := rtcpMux s; remoteICEUfrag := remoteICEUfrag s; remoteICEPwd := remoteICEPwd s;
     remoteICELite := remoteICELite s; ms_establishedICE := ms_establishedICE s; dtlsAssoc := dtlsAssoc s;
     onFinalize := onFinalize s; ms_finalizeRun := ms_finalizeRun s; finalizeErr := finalizeErr s;
     dtlsUnkeyed := dtlsUnkeyed s; dtlsKeyed := dtlsKeyed s; rtpReadDeadline := rtpReadDeadline s;
     rtpWriteDeadline := rtpWriteDeadline s; sessionID := sessionID s; sessionVersion := sessionVersion s;
     closedConns := closedConns s |}.

(** The zero value of the struct, with certificates [c] as DTLS configuration. *)
Definition session_zero (c : DTLSConfig) : MediaSession :=
  {| ms_Codecs := []; RemoteSDPIsAnswer := false; ms_sdp := EmptyString; Mode := EmptyString;
     Laddr := addr_zero; Raddr := addr_zero; ExternalIP := None; SecureRTP := SecureRTPModeNone;
     SRTPAlg := None; DTLSConf := c; ICEConf := None; DTLSRole := DTLSEndpointRoleUnknown; mode := EmptyString;
     filterCodecs := []; rtpConn := None; rtcpConn := None; rtcpRaddr := addr_zero;
     localCtxSRTP := None; remoteCtxSRTP := None; srtpRemoteTag := 0;
     RTPNAT := 0; learnedRTPFrom := None; learnedRTCPFrom := None; srtpAuthFailures := 0; remoteProto := EmptyString; ms_streams := no_streams;
     dtlsRemoteSetup := EmptyString; localTLSID := EmptyString; dtlsRemoteTLSID := EmptyString;
     iceAgent := None; iceUDPConn := None; rtcpMux := false; remoteICEUfrag := EmptyString; remoteICEPwd := EmptyString;
     remoteICELite := false; ms_establishedICE := None; dtlsAssoc := None;
     onFinalize := None; ms_finalizeRun := None; finalizeErr := None;
     dtlsUnkeyed := false; dtlsKeyed := false; rtpReadDeadline := time_zero;
     rtpWriteDeadline := time_zero; sessionID := 0; sessionVersion := 0; closedConns := [] |}.

(** ** Roles *)

Definition iceEnabled (s : MediaSession) : bool :=
  bool_decide (is_Some (ICEConf s)) && bool_decide (SecureRTP s = SecureRTPModeDTLS).

Definition answeringOffer (s : MediaSession) : bool :=
  negb (String.eqb (remoteProto s) EmptyString) && negb (RemoteSDPIsAnswer s).

Definition dtlsEndpointRole (s : MediaSession) : DTLSEndpointRole :=
  if bool_decide (DTLSRole s = DTLSEndpointRoleUnknown) then
    if answeringOffer s then DTLSEndpointRoleAnswerer else DTLSEndpointRoleOfferer
  else DTLSRole s.

Definition localDTLSSetup (s : MediaSession) : string :=
  let answering := bool_decide (dtlsEndpointRole s = DTLSEndpointRoleAnswerer) in
  match SDPSetupRole (DTLSConf s) with
  | Some f => f (negb answering)
  | None =>
    let r := ToLower (TrimSpace (dtlsRemoteSetup s)) in
    if String.eqb r dtlsSetupActive then dtlsSetupPassive
    else if String.eqb r dtlsSetupPassive then dtlsSetupActive
    else if String.eqb r dtlsSetupActPass then dtlsSetupActive
    else if answering then dtlsSetupActive else dtlsSetupActPass
  end.

Definition dtlsActsAsClient (s : MediaSession) : bool := String.eqb (localDTLSSetup s) dtlsSetupActive.

Definition dtlsSRTP (s : MediaSession) : bool :=
  (0 <? length (Certificates (DTLSConf s)))%nat || bool_decide (SecureRTP s = SecureRTPModeDTLS).

Definition iceControlling (s : MediaSession) : bool :=
  let lite := default false (ICEConf s) in
  if Bool.eqb lite (remoteICELite s) then bool_decide (dtlsEndpointRole s = DTLSEndpointRoleOfferer) else negb lite.

(** A certificate without a fingerprint leaves its entry empty. *)
Definition localDTLSFingerprints (s : MediaSession) : list sdpFingerprints :=
  (fun c => match dtlsSHA256Fingerprint c with
            | inl fp => {| fingerprint := fp; alg := "SHA-256" |}
            | inr _ => {| fingerprint := EmptyString; alg := EmptyString |}
            end) <$> Certificates (DTLSConf s).

Definition SetRemoteAddr (raddr : UDPAddr) (s : MediaSession) : MediaSession :=
  s <| Raddr := raddr |>
    <| rtcpRaddr := {| ua_IP := ua_IP raddr; ua_Port := ua_Port raddr + 1; ua_Zone := ua_Zone raddr |} |>.

Definition activeCodecs (s : MediaSession) : list Codec :=
  match filterCodecs s with [] => ms_Codecs s | cs => cs end.

(** [preferLocal] is [SDPCodecPreferLocalOrder > 0]. *)
Definition updateRemoteCodecs (preferLocal : bool) (codecs : list Codec) (answerer : bool) (s : MediaSession) :
    MediaSession * Z :=
  match ms_Codecs s with
  | [] => (s <| ms_Codecs := codecs |>, len codecs)
  | local =>
    let filter := if preferLocal && answerer then match_local_order local codecs
                  else match_remote_order local codecs in
    (s <| filterCodecs := filter |>, len filter)
  end.

(** ** The DTLS association *)

Definition localChangedBy (a : dtlsAssociation) (s : MediaSession) : bool :=
  negb (bool_decide (fingerprintSet (localDTLSFingerprints s) = da_localFingerprints a)) ||
  (negb (iceEnabled s) && negb (sameUDPAddr (Laddr s) (da_laddr a))).

(** [changedBy]: the reason, empty when the association continues. *)
Definition changedBy (a : dtlsAssociation) (s : MediaSession) (setup : string)
    (fingerprints : list sdpFingerprints) (tlsID : string) : string :=
  let role := dtlsRoleAgainst setup in
  if negb (String.eqb role EmptyString) && negb (String.eqb role (da_setup a)) then "a change of DTLS roles"
  else if negb (bool_decide (fingerprintSet fingerprints = da_remoteFingerprints a)) then
    "a change of the peer's fingerprints"
  else if negb (bool_decide (fingerprintSet (localDTLSFingerprints s) = da_localFingerprints a)) then
    "a change of our fingerprints"
  else if negb (String.eqb tlsID EmptyString) && negb (String.eqb tlsID (da_remoteTLSID a)) then "a new tls-id"
  else if iceEnabled s then EmptyString
  else if negb (sameUDPAddr (Laddr s) (da_laddr a)) then "a change of our transport"
  else if String.eqb tlsID EmptyString && negb (sameUDPAddr (Raddr s) (da_raddr a)) then
    "a change of the peer's transport"
  else EmptyString.

(** [tid] is the value [newTLSID] draws. *)
Definition newAnswerTLSID (tid remoteTLSID : string) (s : MediaSession) : MediaSession :=
  if RemoteSDPIsAnswer s then s
  else s <| localTLSID := if String.eqb remoteTLSID EmptyString then EmptyString else tid |>.

Definition localSDPTLSID (tid : string) (s : MediaSession) : MediaSession * string :=
  if answeringOffer s then
    (s, if String.eqb (dtlsRemoteTLSID s) EmptyString then EmptyString else localTLSID s)
  else
    let s :=
      match dtlsAssoc s with
      | Some a =>
        if negb (localChangedBy a s) then s <| localTLSID := da_localTLSID a |>
        else if String.eqb (localTLSID s) (da_localTLSID a) then s <| localTLSID := tid |> else s
      | None => if String.eqb (localTLSID s) EmptyString then s <| localTLSID := tid |> else s
      end in
    (s, localTLSID s).

(** The environment of one negotiation step: the tls-id drawn, the sockets a
    bind at port 0 yields, and what building the DTLS conn returns. *)
Record env := {
  e_tlsID : string;
  e_bind : (UDPAddr * nat * nat) + error;
  e_dial : option error }.

Definition armDTLSHandshake (e : env) (setup : string) (fingerprints : list sdpFingerprints) (tlsID : string)
    (s : MediaSession) : MediaSession * outcome :=
  let client := dtlsActsAsClient s in
  let assoc := {| da_setup := if client then dtlsSetupActive else dtlsSetupPassive;
                  da_localFingerprints := fingerprintSet (localDTLSFingerprints s);
                  da_remoteFingerprints := fingerprintSet fingerprints;
                  da_remoteTLSID := tlsID; da_localTLSID := localTLSID s;
                  da_laddr := Laddr s; da_raddr := Raddr s |} in
  match if iceEnabled s then None else e_dial e with
  | Some err => (s, Err (ErrWrap "failed to setup dlts conn" err))
  | None => (s <| onFinalize := Some {| ar_client := client; ar_assoc := assoc |} |>, Ok)
  end.

(** The part of [Close] after a run has ended: the sockets and the agent. *)
Definition closeConns (s : MediaSession) : MediaSession :=
  let s := s <| closedConns := closedConns s ++ option_list (rtcpConn s) ++ option_list (rtpConn s) |> in
  match iceAgent s with
  | Some _ => s <| closedConns := closedConns s ++ option_list (iceUDPConn s) |> <| iceAgent := None |> <| iceUDPConn := None |>
  | None => s
  end.

(** The sockets of a session it no longer shares: a new association leaves the
    transport of the current one. *)
Definition rebind (e : env) (s : MediaSession) : MediaSession * outcome :=
  let s := s <| rtpConn := None |> <| rtcpConn := None |> in
  match e_bind e with
  | inr err => (s, Err (ErrWrap "media session: new DTLS association" err))
  | inl (laddr, rtp, rtcp) =>
    (s <| rtpConn := Some rtp |> <| rtcpConn := Some rtcp |> <| Laddr := laddr |>, Ok)
  end.

Definition negotiateDTLSAssociation (e : env) (setup : string) (fingerprints : list sdpFingerprints)
    (tlsID : string) (s : MediaSession) : MediaSession * outcome :=
  match dtlsAssoc s with
  | None => armDTLSHandshake e setup fingerprints tlsID (newAnswerTLSID (e_tlsID e) tlsID s)
  | Some assoc =>
    let reason := changedBy assoc s setup fingerprints tlsID in
    if String.eqb reason EmptyString then (s, Ok)
    else if iceEnabled s then
      (s, Err (ErrWrap (reason +:+ " asks for a new DTLS association, which needs an ICE restart") ErrICERestartUnsupported))
    else
      let same := sameUDPAddr (Laddr s) (da_laddr assoc) in
      if same && RemoteSDPIsAnswer s then
        (s, Err (ErrNew (reason +:+ " asks for a new DTLS association over the transport of the current one")))
      else
        match if same then rebind e s else (s, Ok) with
        | (s, Ok) =>
          let s := s <| dtlsKeyed := false |> <| dtlsAssoc := None |> <| localCtxSRTP := None |> <| remoteCtxSRTP := None |> in
          match armDTLSHandshake e setup fingerprints tlsID (newAnswerTLSID (e_tlsID e) tlsID s) with
          | (s, Err err) => (if same then closeConns s else s, Err err)
          | r => r
          end
        | r => r
        end
  end.

(** ** ICE *)

Definition agentICESetup (a : ICEAgent) (s : MediaSession) : iceSetup :=
  {| ufrag := ag_ufrag a; pwd := ag_pwd a; candidates := ag_candidates a;
     is_rtcpMux := rtcpMux s; lite := default false (ICEConf s) |}.

(** What the attributes say of the remote side of ICE. *)
Record ice_attrs := { ia_ufrag : string; ia_pwd : string; ia_candidates : list string; ia_mux : bool; ia_lite : bool }.
Definition read_ice_attr (r : ice_attrs) (v : string) : ice_attrs :=
  if String.eqb v "ice-lite" then
    {| ia_ufrag := ia_ufrag r; ia_pwd := ia_pwd r; ia_candidates := ia_candidates r; ia_mux := ia_mux r; ia_lite := true |}
  else if HasPrefix v "ice-ufrag:" then
    {| ia_ufrag := TrimSpace (str_drop 10 v); ia_pwd := ia_pwd r; ia_candidates := ia_candidates r; ia_mux := ia_mux r; ia_lite := ia_lite r |}
  else if HasPrefix v "ice-pwd:" then
    {| ia_ufrag := ia_ufrag r; ia_pwd := TrimSpace (str_drop 8 v); ia_candidates := ia_candidates r; ia_mux := ia_mux r; ia_lite := ia_lite r |}
  else if HasPrefix v "candidate:" then
    {| ia_ufrag := ia_ufrag r; ia_pwd := ia_pwd r; ia_candidates := ia_candidates r ++ [TrimSpace v]; ia_mux := ia_mux r; ia_lite := ia_lite r |}
  else if String.eqb v "rtcp-mux" then
    {| ia_ufrag := ia_ufrag r; ia_pwd := ia_pwd r; ia_candidates := ia_candidates r; ia_mux := true; ia_lite := ia_lite r |}
  else r.
Definition read_ice (attrs : list string) : ice_attrs :=
  fold_left read_ice_attr attrs {| ia_ufrag := EmptyString; ia_pwd := EmptyString; ia_candidates := []; ia_mux := false; ia_lite := false |}.

Definition remoteICE (attrs : list string) (s : MediaSession) : MediaSession * outcome :=
  let r := read_ice attrs in
  if String.eqb (ia_ufrag r) EmptyString || String.eqb (ia_pwd r) EmptyString then
    (s, Err (ErrNew "sdp: ICE enabled but remote sent no ice-ufrag/ice-pwd"))
  else if negb (ia_mux r) then (s, Err (ErrNew "sdp: ICE requires rtcp-mux, remote did not offer it"))
  else
    match iceAgent s with
    | Some a =>
      let a := {| ag_ufrag := ag_ufrag a; ag_pwd := ag_pwd a; ag_candidates := ag_candidates a;
                  ag_remote := ag_remote a ++ List.filter candidate_ok (ia_candidates r);
                  ag_remoteUfrag := ia_ufrag r; ag_remotePwd := ia_pwd r |} in
      (s <| remoteICEUfrag := ia_ufrag r |> <| remoteICEPwd := ia_pwd r |> <| remoteICELite := ia_lite r |>
         <| iceAgent := Some a |>, Ok)
    | None =>
      match ms_establishedICE s with
      | Some est =>
        if negb (String.eqb (ia_ufrag r) (ei_remoteUfrag est)) || negb (String.eqb (ia_pwd r) (ei_remotePwd est)) then
          (s, Err (ErrWrap "sdp: remote ICE credentials changed on an established pair" ErrICERestartUnsupported))
        else (s <| remoteICEUfrag := ia_ufrag r |> <| remoteICEPwd := ia_pwd r |>, Ok)
      | None => (s, Err (ErrNew "sdp: ICE session has no agent and no established pair to renegotiate over"))
      end
    end.

(** ** SDES *)

(** One a=crypto attribute: whether the loop goes on, with what it did. *)
Definition crypto_attr (v : string) (s : MediaSession) : MediaSession * option outcome :=
  match Split v " " with
  | v0 :: v1 :: v2 :: _ =>
    let '(tag, err) := Atoi (TrimPrefix v0 "crypto:") in
    let s := s <| srtpRemoteTag := tag |> in
    match err with
    | Some _ => (s, Some (Err (ErrNew "bad crypto tag")))
    | None =>
      match srtpProfileParse v1 with
      | None => (s, None)
      | Some profile =>
        if negb (bool_decide (SRTPAlg s = Some profile)) then (s, None) else
        match Base64.DecodeString (TrimPrefix v2 "inline:") with
        | None => (s, Some (Err (ErrNew "failed to decode SDES key")))
        | Some keyBytes =>
          if negb (len keyBytes =? 30) then (s, Some (Err (ErrNew "expected 30-byte key"))) else
          match CreateContext (take 16 keyBytes) (drop 16 keyBytes) profile with
          | inr e => (s, Some (Err (ErrWrap "CreateContext failed" e)))
          | inl ctx => (s <| remoteCtxSRTP := Some ctx |>, Some Ok)
          end
        end
      end
    end
  | _ => (s, Some (Err (ErrNew "sdp: bad crypto attribute")))
  end.

Fixpoint readSDES (attrs : list string) (s : MediaSession) : MediaSession * outcome :=
  match attrs with
  | [] => (s, Ok)
  | v :: attrs =>
    if HasPrefix v "crypto:" then
      match crypto_attr v s with
      | (s, Some r) => (s, r)
      | (s, None) => readSDES attrs s
      end
    else readSDES attrs s
  end.

(** ** The DTLS attributes *)

Record dtls_attrs := { dt_setup : string; dt_tlsID : string; dt_fingerprints : list sdpFingerprints }.
(** [None] is the error of a fingerprint attribute that is not two words. *)
Fixpoint read_dtls (attrs : list string) (r : dtls_attrs) : option dtls_attrs :=
  match attrs with
  | [] => Some r
  | v :: attrs =>
    if HasPrefix v "setup:" then
      read_dtls attrs {| dt_setup := TrimSpace (str_drop 6 v); dt_tlsID := dt_tlsID r; dt_fingerprints := dt_fingerprints r |}
    else if HasPrefix v "tls-id:" then
      read_dtls attrs {| dt_setup := dt_setup r; dt_tlsID := TrimSpace (str_drop 7 v); dt_fingerprints := dt_fingerprints r |}
    else if HasPrefix v "fingerprint:" then
      match Split (str_drop 12 v) " " with
      | a :: fp :: _ =>
        read_dtls attrs {| dt_setup := dt_setup r; dt_tlsID := dt_tlsID r;
                           dt_fingerprints := dt_fingerprints r ++ [{| fingerprint := fp; alg := a |}] |}
      | _ => None
      end
    else read_dtls attrs r
  end.

Definition remoteDTLS (e : env) (attrs : list string) (s : MediaSession) : MediaSession * outcome :=
  match read_dtls attrs {| dt_setup := EmptyString; dt_tlsID := EmptyString; dt_fingerprints := [] |} with
  | None => (s, Err (ErrNew "sdp: bad fingerprint attribute"))
  | Some r =>
    let setup := ToLower (TrimSpace (dt_setup r)) in
    if negb (existsb (fun fp => supported_hash (alg fp)) (dt_fingerprints r)) then
      (s, Err (ErrNew "sdp: dtls media has no a=fingerprint with a supported hash function"))
    else if String.eqb (dt_setup r) EmptyString then (s, Err (ErrNew "Empty a=setup value attribute for dtls"))
    else if negb (String.eqb setup dtlsSetupActive || String.eqb setup dtlsSetupPassive || String.eqb setup dtlsSetupActPass) then
      (s, Err (ErrNew "unknown setup value"))
    else
      let s := s <| dtlsRemoteSetup := dt_setup r |> <| dtlsRemoteTLSID := dt_tlsID r |> in
      negotiateDTLSAssociation e (dt_setup r) (dt_fingerprints r) (dt_tlsID r) s
  end.

(** ** RemoteSDP *)

(** Run the next stage unless this one failed. *)
Definition andThen (r : MediaSession * outcome) (k : MediaSession -> MediaSession * outcome) : MediaSession * outcome :=
  match r with
  | (s, Ok) => k s
  | r => r
  end.

(** The stages of [RemoteSDP], in its order. The origin, the profile and the
    stream list: *)
Definition applyOrigin (si : SessionInformation) (s : MediaSession) : MediaSession :=
  if sessionID s =? SessionID si then s
  else s <| sessionID := SessionID si |> <| sessionVersion := u64 (SessionVersion si + 1) |>.

Definition secureRequested (prof : rtpProfile) (attrs : list string) : bool :=
  secure prof && negb (dtls prof) && negb (sdpHasFingerprint attrs).

(** the codecs; [preferLocal] is [SDPCodecPreferLocalOrder > 0]: *)
Definition applyCodecs (preferLocal : bool) (md : MediaDescription) (attrs : list string) (s : MediaSession) :
    MediaSession * outcome :=
  match CodecsFromSDPRead (Formats md) attrs (length (Formats md)) with
  | None => (s, Panic)
  | Some [] => (s, Err (ErrWrap "no codecs found in SDP" ErrNoCommonCodec))
  | Some codecs =>
    let '(s, n) := updateRemoteCodecs preferLocal codecs (negb (RemoteSDPIsAnswer s)) s in
    if n =? 0 then (s, Err (ErrWrap "no supported codecs found" ErrNoCommonCodec)) else (s, Ok)
  end.

(** the transport address and the direction: *)
Definition applyTransport (sd : SessionDescription) (md : MediaDescription) (s : MediaSession) :
    MediaSession * outcome :=
  match sd_ConnectionInformation sd with
  | inr e => (s, Err e)
  | inl ci =>
    if (Port md <=? 0) || (65535 <? Port md) then (s, Err (ErrWrap "audio media port is not usable" ErrNoCommonMedia))
    else match ci_IP ci with
         | None => (s, Err (ErrWrap "audio connection address is not an IP" ErrNoCommonMedia))
         | Some ip =>
           let s := SetRemoteAddr {| ua_IP := Some ip; ua_Port := Port md; ua_Zone := EmptyString |} s in
           (s <| mode := negotiateMediaDirection (MediaDirection sd) (Mode s) |>, Ok)
         end
  end.

(** and the check that what was asked for was keyed. *)
Definition applySecurity (secureRequest : bool) (s : MediaSession) : MediaSession * outcome :=
  let s :=
    if bool_decide (is_Some (localCtxSRTP s)) && bool_decide (remoteCtxSRTP s = None) && negb secureRequest
    then s <| localCtxSRTP := None |> else s in
  if secureRequest && bool_decide (remoteCtxSRTP s = None) then
    (s, Err (ErrWrap "remote requested secure RTP, but no context is created" ErrNoCommonCrypto))
  else (s, Ok).

Definition applySDP (preferLocal : bool) (e : env) (sections : Sections) (audio : nat) (md : MediaDescription)
    (sd : SessionDescription) (s : MediaSession) : MediaSession * outcome :=
  match sd_SessionInformation sd with
  | inr err => (s, Err err)
  | inl si =>
    let s := applyOrigin si s in
    let attrs := Values sd "a" in
    match parseRTPProfile (Proto md) with
    | None => (s, Err (ErrWrap "unsupported media description protocol" ErrNoCommonMedia))
    | Some prof =>
      let secureRequest := secureRequested prof attrs in
      let s := s <| remoteProto := Proto md |> in
      let s := if RemoteSDPIsAnswer s then s
               else s <| ms_streams := {| os_media := Media <$> sec_Media sections; os_audio := audio |} |> in
      andThen (applyCodecs preferLocal md attrs s) (fun s =>
      andThen (applyTransport sd md s) (fun s =>
      andThen (readSDES attrs s) (fun s =>
      andThen (if iceEnabled s then remoteICE attrs s else (s, Ok)) (fun s =>
      andThen (if dtlsSRTP s then remoteDTLS e attrs s else (s, Ok)) (fun s =>
      applySecurity secureRequest s)))))
    end
  end.

Definition RemoteSDP (preferLocal : bool) (e : env) (sdpReceived : string) (s : MediaSession) : MediaSession * outcome :=
  match UnmarshalSections sdpReceived with
  | (_, Some err) => (s, Err (ErrWrap "fail to parse received SDP" err))
  | (sections, None) =>
    match audioStream (Media <$> sec_Media sections) with
    | None => (s, Err (ErrWrap "no audio media description" ErrNoCommonMedia))
    | Some audio =>
      match sec_Media sections !! audio, Description sections audio with
      | Some sec, Some sd => applySDP preferLocal e sections audio (Media sec) sd s
      | _, _ => (s, Panic)
      end
    end
  end.

(** ** LocalSDP *)

(** The key and salt drawn, [KeyLen + SaltLen] bytes of them. *)
Definition sdesOffer (savpDisable : bool) (keysalt : bytes) (s : MediaSession) : MediaSession * sdesInline * string :=
  match SRTPAlg s with
  | None => (s, no_sdes, "RTP/AVP")
  | Some profile =>
    let keyLen := Z.to_nat (KeyLen profile) in
    let sdes := {| sdes_alg := srtpProfileString profile; sdes_base64 := Base64.EncodeToString keysalt; sdes_tag := 1 |} in
    match CreateContext (take keyLen keysalt) (drop keyLen keysalt) profile with
    | inr _ => (s, sdes, "RTP/AVP")
    | inl ctx =>
      let s := s <| localCtxSRTP := Some ctx |> in
      let sdes := if 0 <? srtpRemoteTag s
                  then {| sdes_alg := sdes_alg sdes; sdes_base64 := sdes_base64 sdes; sdes_tag := srtpRemoteTag s |}
                  else sdes in
      (s, sdes, if answeringOffer s || savpDisable then "RTP/AVP" else "RTP/SAVP")
    end
  end.

Record local_env := {
  le_savpDisable : bool;
  le_keysalt : bytes;
  le_tlsID : string;
  le_ntp : Z }.

(** Our side of ICE, from the agent or from the established pair. *)
Definition localICE (s : MediaSession) : option iceSetup :=
  match iceAgent s with
  | Some a => Some (agentICESetup a s)
  | None => ei_local <$> ms_establishedICE s
  end.

(** The SDES part of [LocalSDP]: with the session, the crypto line and the
    profile an offer would have. *)
Definition localSDES (le : local_env) (s : MediaSession) : MediaSession * sdesInline * string :=
  if bool_decide (SecureRTP s = SecureRTPModeSDES) &&
     (bool_decide (ua_IP (Raddr s) = None) || bool_decide (is_Some (remoteCtxSRTP s)))
  then sdesOffer (le_savpDisable le) (le_keysalt le) s else (s, no_sdes, "RTP/AVP").

(** The DTLS part. The role of an answer that continues an association is the
    one it was built with. *)
Definition localDTLS (le : local_env) (s : MediaSession) : MediaSession * option dtlsSetup :=
  if bool_decide (SecureRTP s = SecureRTPModeDTLS) then
    let setup := localDTLSSetup s in
    let fps := localDTLSFingerprints s in
    let '(s, tid) := localSDPTLSID (le_tlsID le) s in
    let setup := match dtlsAssoc s with
                 | Some a => if answeringOffer s then da_setup a else setup
                 | None => setup
                 end in
    (s, Some {| ds_setup := setup; ds_fingerprints := fps; ds_tlsID := tid |})
  else (s, None).

Definition nextVersion (le : local_env) (s : MediaSession) : MediaSession :=
  if sessionID s =? 0 then
    let id := Z.shiftr (le_ntp le) 32 in s <| sessionID := id |> <| sessionVersion := id |>
  else s <| sessionVersion := u64 (sessionVersion s + 1) |>.

Definition LocalSDP (le : local_env) (s : MediaSession) : MediaSession * string :=
  if negb (String.eqb (ms_sdp s) EmptyString) then (s, ms_sdp s) else
  let ip := ua_IP (Laddr s) in
  let connIP := match ExternalIP s with None => ip | ext => ext end in
  let codecs := activeCodecs s in
  let '(s, sdes, profile) := localSDES le s in
  let '(s, dtlsSet) := localDTLS le s in
  let profile := match dtlsSet with Some _ => "UDP/TLS/RTP/SAVP" | None => profile end in
  let profile := if answeringOffer s then remoteProto s else profile in
  let iceSet := localICE s in
  let s := nextVersion le s in
  let m := if String.eqb (mode s) EmptyString then Mode s else mode s in
  (s, generateSDPForAudio (sessionID s) (sessionVersion s) profile ip connIP (ua_Port (Laddr s)) m codecs
        sdes dtlsSet iceSet (ms_streams s)).

End Session.

End MediaSession.
