(* ===== verification/MediaNegotiation.v ===== *)
(** * The media session: what a negotiation settles

    The parts of [RemoteSDP] on a body that [LocalSDP] generated, and the codecs
    of an exchange between two sessions. *)
From S2P Require Import Prelude GoStrings NetIP Sdp SdpProps Codec MediaSdp MediaSdpProps Base64 MediaSession.
Import GoStrings NetIP Sdp SdpProps Codecs MediaSdp MediaSdpProps MediaSession.

Module MediaNegotiation.

(** ** Codecs that match *)

(** The codecs diago carries: the static ones under their numbers, opus and
    telephone-event under any number that is not one of those. *)
Definition std (c : Codec) : Prop :=
  c = CodecAudioUlaw \/ c = CodecAudioAlaw \/ c = CodecAudioG722 \/
  (10 <= PayloadType c < 2 ^ 8 /\
   (c = CodecAudioOpus <| PayloadType := PayloadType c |> \/
    c = CodecTelephoneEvent8000 <| PayloadType := PayloadType c |>)).

Lemma codec_ok_set_pt c n : codec_ok c -> 0 <= n < 2 ^ 8 -> codec_ok (c <| PayloadType := n |>).
Proof. by intros [] ?. Qed.

Lemma builtin_ok : Forall codec_ok [CodecAudioUlaw; CodecAudioAlaw; CodecAudioG722; CodecAudioOpus; CodecTelephoneEvent8000].
Proof. repeat constructor; cbn; lia. Qed.

Lemma std_canonical c : std c -> canonical c.
Proof.
  pose proof builtin_ok as HB. rewrite !Forall_cons in HB. destruct HB as (H1 & H2 & H3 & H4 & H5 & _).
  intros [->|[->|[->|[Hn Hc]]]]; [split; [done|reflexivity]..|].
  destruct c as [nm pt rt dr ch]. cbn in Hn, Hc. split.
  - destruct Hc as [[= -> -> -> ->]|[= -> -> -> ->]]; [apply (codec_ok_set_pt CodecAudioOpus)|apply (codec_ok_set_pt CodecTelephoneEvent8000)];
      done || lia.
  - cbn [PayloadType Name SampleRate NumChannels]. replace (pt =? 0) with false by lia. replace (pt =? 8) with false by lia.
    replace (pt =? 9) with false by lia. destruct Hc as [[= -> -> -> ->]|[= -> -> -> ->]]; vm_compute; auto.
Qed.

(** Two of them that match are the same format, which the negotiated entry then
    is under the peer's number. *)
Lemma std_negotiated lc rc : std lc -> std rc -> codecMatch lc rc = true -> negotiatedCodec lc rc = rc.
Proof.
  unfold codecMatch. intros Hl Hr H. rewrite !andb_true_iff in H. destruct H as [[H _] _].
  assert (forall c, std c -> exists b, b ∈ [CodecAudioUlaw; CodecAudioAlaw; CodecAudioG722; CodecAudioOpus; CodecTelephoneEvent8000]
    /\ c = b <| PayloadType := PayloadType c |>) as Hb.
  { intros c [->|[->|[->|[_ [E | E]]]]];
      [exists CodecAudioUlaw|exists CodecAudioAlaw|exists CodecAudioG722|exists CodecAudioOpus|exists CodecTelephoneEvent8000];
      (split; [set_solver|done]). }
  destruct (Hb lc Hl) as (b & Hb1 & E1), (Hb rc Hr) as (b' & Hb2 & E2). unfold negotiatedCodec.
  rewrite E1, E2 in H |- *. cbn in H |- *.
  rewrite !elem_of_cons, elem_of_nil in Hb1, Hb2.
  destruct Hb1 as [->|[->|[->|[->|[->|[]]]]]], Hb2 as [->|[->|[->|[->|[->|[]]]]]];
    vm_compute in H; try discriminate H; reflexivity.
Qed.

Definition has_match (local : list Codec) (rc : Codec) : bool := existsb (fun lc => codecMatch lc rc) local.

Lemma match_remote_std local remote : Forall std local -> Forall std remote ->
  match_remote_order local remote = List.filter (has_match local) remote.
Proof.
  intros Hl Hr. unfold match_remote_order. induction Hr as [|rc remote Hrc Hr IH]; [done|].
  cbn [omap list_omap List.filter]. rewrite <- IH. unfold has_match.
  destruct (List.find (fun lc => codecMatch lc rc) local) as [lc|] eqn:E.
  - apply find_some in E as [Hin Hm]. rewrite (proj2 (existsb_exists _ _)) by eauto.
    rewrite std_negotiated; [done| |done|done]. rewrite Forall_forall in Hl. by apply Hl, list_elem_of_In.
  - replace (existsb _ local) with false; [done|]. symmetry. apply not_true_is_false. intros Hx.
    apply existsb_exists in Hx as (lc & Hin & Hm). by rewrite (find_none _ _ E lc Hin) in Hm.
Qed.

Lemma filter_filter_sub {X} (f g : X -> bool) l : (forall x, x ∈ l -> f x = true -> g x = true) ->
  List.filter g (List.filter f l) = List.filter f l.
Proof.
  induction l as [|x l IH]; intros H; [done|]. cbn [List.filter]. destruct (f x) eqn:E.
  - cbn [List.filter]. rewrite (H x) by (done || left). rewrite IH; [done|]. intros y Hy. apply H. by right.
  - apply IH. intros y Hy. apply H. by right.
Qed.

Lemma codecMatch_refl c : codecMatch c c = true.
Proof. unfold codecMatch. by rewrite EqualFold_refl, !Z.eqb_refl. Qed.

(** The answerer keeps the offered formats it has a codec for, in the order of
    the offer and under its numbers; the offerer then keeps all of them. *)
Lemma exchange_codecs offered local : Forall std offered -> Forall std local ->
  let common := match_remote_order local offered in
  common = List.filter (has_match local) offered /\ match_remote_order offered common = common.
Proof.
  intros Ho Hl common. assert (common = List.filter (has_match local) offered) as E by (by apply match_remote_std).
  split; [done|]. rewrite match_remote_std, E; [|done|].
  - apply (filter_filter_sub (has_match local)). intros x Hx _. unfold has_match.
    apply existsb_exists. exists x. split; [by apply list_elem_of_In|apply codecMatch_refl].
  - rewrite E. rewrite Forall_forall in *. intros x Hx. apply Ho.
    apply list_elem_of_In in Hx. apply filter_In in Hx as [Hx _]. by apply list_elem_of_In.
Qed.

(** ** The audio stream of a generated body *)

Lemma audioStream_app i pre md rest first : MediaType md = "audio" -> is_Some (parseRTPProfile (Proto md)) -> 0 < Port md ->
  audioStream_loop i ((cleared <$> pre) ++ md :: rest) first = Some (i + length pre)%nat.
Proof.
  intros Ht [prof Hp] Hport. revert i first. induction pre as [|x pre IH]; intros i first.
  - simpl. rewrite Ht, Hp. simpl. replace (0 <? Port md) with true by lia. f_equal. lia.
  - cbn [fmap list_fmap app audioStream_loop length cleared MediaType Proto Port].
    destruct (String.eqb (MediaType x) "audio"); cbn [negb].
    + destruct (parseRTPProfile (Proto x)); rewrite IH; f_equal; lia.
    + rewrite IH. f_equal. lia.
Qed.

(** ** The session-level lines of a generated body *)

Definition v4 (ip : IP) (b : bytes) : Prop :=
  To4 ip = Some b /\ exists w x y z, b = [w; x; y; z] /\ NetIP.byte_ok w /\ NetIP.byte_ok x /\ NetIP.byte_ok y /\ NetIP.byte_ok z.

Lemma v4_text ip b : v4 ip b -> sdpIP ip = "IP4" /\ IP_String ip = ipv4_string b /\ word (IP_String ip) = true.
Proof.
  intros [HT (w & x & y & z & -> & H1 & H2 & H3 & H4)]. unfold sdpIP, IP_String. rewrite HT.
  rewrite bool_decide_false by done. destruct ip as [i|]; [|done]. split; [done|]. split; [done|]. by apply ipv4_string_word.
Qed.

Lemma read_origin sd sid sver oip b : v4 oip b -> 0 <= sid < 2 ^ 64 -> 0 <= sver < 2 ^ 64 ->
  Values sd "o" = ["- " +:+ Itoa sid +:+ " " +:+ Itoa sver +:+ " IN " +:+ sdpIP oip +:+ " " +:+ IP_String oip] ->
  exists si, sd_SessionInformation sd = inl si /\ SessionID si = sid /\ SessionVersion si = sver.
Proof.
  intros Hip Hs Hv Ho. destruct (v4_text _ _ Hip) as (E1 & _ & Hw). unfold sd_SessionInformation.
  assert (Value sd "o" = Join ["-"; Itoa sid; Itoa sver; "IN"; "IP4"; IP_String oip] " ") as ->
    by (unfold Value; rewrite Ho, E1; reflexivity).
  rewrite Join_nonempty by done. rewrite Fields_join.
  2:{ cbn [forallb]. rewrite !Itoa_word, Hw by lia. done. }
  rewrite !Itoa_nonneg, !ParseUint_FormatUint by lia. by eexists.
Qed.

Lemma To4_mapped w x y z : To4 (Some (v4InV6Prefix ++ [w; x; y; z])) = Some [w; x; y; z].
Proof.
  unfold To4. change (len (v4InV6Prefix ++ [w; x; y; z])) with 16. cbn [Z.eqb Pos.eqb andb].
  by rewrite bool_decide_true.
Qed.

Lemma read_connection sd cip b : v4 cip b -> length (Values sd "m") = 1%nat ->
  Values sd "c" = ["IN " +:+ sdpIP cip +:+ " " +:+ IP_String cip] ->
  exists ci, sd_ConnectionInformation sd = inl ci /\ ci_IP ci = Some b.
Proof.
  intros Hip Hm Hc. destruct (v4_text _ _ Hip) as (E1 & E2 & Hw). unfold sd_ConnectionInformation. rewrite Hm, Hc, E1.
  cbn [last]. change (1 <? 1)%nat with false. cbn iota.
  change ("IN " +:+ "IP4" +:+ " " +:+ IP_String cip) with (Join ["IN"; "IP4"; IP_String cip] " ").
  rewrite Fields_join by (cbn [forallb]; by rewrite Hw). rewrite E2.
  destruct Hip as [_ (w & x & y & z & -> & H1 & H2 & H3 & H4)].
  rewrite Split_no by (apply ipv4_string_forall; try done; by intros [[] [] [] [] [] [] [] []]).
  cbn [nth]. rewrite ParseIP_v4 by done. change (String.eqb "IP4" "IP4") with true. cbn iota.
  rewrite To4_mapped. cbn [orb andb]. rewrite bool_decide_false by done. by eexists.
Qed.

(** ** Direction and SDES of a generated body *)

Lemma fold_no_mode l m : forallb (fun v => negb (is_mode v)) l = true ->
  fold_left (fun mode v => if is_mode v then v else mode) l m = m.
Proof.
  revert m. induction l as [|v l IH]; intros m H; [done|]. apply andb_true_iff in H as [Hv Hl].
  cbn [fold_left]. apply negb_true_iff in Hv. rewrite Hv. by apply IH.
Qed.

(** What every attribute of a codec is not. *)
Lemma codec_attrs_plain c : forallb (fun v => negb (is_mode v) && negb (HasPrefix v "crypto:")) (codec_attrs c) = true.
Proof.
  unfold codec_attrs, formatRTPMap. repeat (destruct (EqualFold _ _); [reflexivity|]).
  repeat (destruct (_ =? _); [reflexivity|]). reflexivity.
Qed.

Lemma codecs_attrs_plain codecs :
  forallb (fun v => negb (is_mode v) && negb (HasPrefix v "crypto:")) (flat_map codec_attrs codecs) = true.
Proof. induction codecs as [|c l IH]; [done|]. cbn [flat_map]. by rewrite forallb_app, codec_attrs_plain. Qed.

Lemma forallb_andb {X} (f g : X -> bool) l : forallb (fun x => f x && g x) l = true -> forallb f l = true /\ forallb g l = true.
Proof.
  induction l as [|x l IH]; [done|]. cbn [forallb]. rewrite !andb_true_iff. intros [[? ?] Hl].
  destruct (IH Hl). auto.
Qed.

Lemma read_direction codecs m sdes : is_mode m = true -> forall sd,
  Values sd "a" = flat_map codec_attrs codecs ++ (["ptime:20"; "maxptime:20"; m] ++ crypto_attrs sdes ++ [] ++ []) ->
  MediaDirection sd = m.
Proof.
  intros Hm sd Ha. unfold MediaDirection. rewrite Ha, fold_left_app.
  rewrite (fold_no_mode (flat_map codec_attrs codecs)) by (by apply (forallb_andb _ _ _ (codecs_attrs_plain codecs))).
  cbn [app fold_left]. change (is_mode "ptime:20") with false. change (is_mode "maxptime:20") with false. cbn iota.
  rewrite Hm. apply fold_no_mode. unfold crypto_attrs. by destruct (String.eqb _ _).
Qed.

(** No attribute of a body without DTLS is read as a fingerprint. *)
Lemma not_fingerprint c d s : is_space c = false -> is_space d = false ->
  Ascii.eqb (lower c) "f" && Ascii.eqb (lower d) "i" = false ->
  HasPrefix (ToLower (TrimSpace (String c (String d s)))) "fingerprint:" = false.
Proof.
  intros Hc Hd H. unfold TrimSpace. cbn [trim_left]. rewrite Hc. cbn [trim_right].
  assert (exists t, match trim_right s with EmptyString => if is_space d then EmptyString else String d EmptyString
    | t => String d t end = String d t) as [t ->].
  { rewrite Hd. destruct (trim_right s); eauto. }
  unfold HasPrefix, ToLower. cbn [str_map String.prefix].
  destruct (Ascii.ascii_dec "f" (lower c)) as [E|]; [|done].
  destruct (Ascii.ascii_dec "i" (lower d)) as [E'|]; [|done].
  by rewrite <- E, <- E' in H.
Qed.

Lemma sdpHasFingerprint_app l k : sdpHasFingerprint (l ++ k) = sdpHasFingerprint l || sdpHasFingerprint k.
Proof. apply existsb_app. Qed.

Lemma codecs_no_fingerprint codecs : sdpHasFingerprint (flat_map codec_attrs codecs) = false.
Proof.
  induction codecs as [|c codecs IH]; [done|]. cbn [flat_map]. rewrite sdpHasFingerprint_app, IH, orb_false_r.
  unfold codec_attrs, formatRTPMap, sdpHasFingerprint.
  destruct (EqualFold _ _); [cbn [existsb fmap list_fmap]; apply orb_false_iff; split;
    [by apply not_fingerprint|by apply orb_false_iff; split; [apply not_fingerprint|]]|].
  destruct (EqualFold _ _); [cbn [existsb fmap list_fmap]; apply orb_false_iff; split;
    [by apply not_fingerprint|by apply orb_false_iff; split; [apply not_fingerprint|]]|].
  repeat (destruct (_ =? _); [reflexivity|]).
  cbn [existsb fmap list_fmap]. apply orb_false_iff. split; [by apply not_fingerprint|done].
Qed.

Lemma body_no_fingerprint codecs m sdes : is_mode m = true -> sdpHasFingerprint
  (flat_map codec_attrs codecs ++ (["ptime:20"; "maxptime:20"; m] ++ crypto_attrs sdes ++ [] ++ [])) = false.
Proof.
  intros Hm. rewrite !sdpHasFingerprint_app, codecs_no_fingerprint. apply orb_false_iff. split; [done|].
  apply orb_false_iff. split.
  - unfold is_mode in Hm. rewrite !orb_true_iff, !String.eqb_eq in Hm.
    destruct Hm as [[[-> | ->] | ->] | ->]; reflexivity.
  - apply orb_false_iff. split; [|done]. unfold crypto_attrs. destruct (String.eqb _ _); [done|].
    unfold sdpHasFingerprint. cbn [existsb]. apply orb_false_iff. split; [|done]. by apply not_fingerprint.
Qed.

Section Applied.
Context {cert : Type} (dtlsSHA256Fingerprint : cert -> string + error).
Context {srtp_ctx : Type} (CreateContext : bytes -> bytes -> ProtectionProfile -> srtp_ctx + error).
Context (candidate_ok : string -> bool).

Abbreviation session := (@MediaSession.MediaSession cert srtp_ctx).

Lemma readSDES_skip l rest (s : session) : forallb (fun v => negb (HasPrefix v "crypto:")) l = true ->
  readSDES CreateContext (l ++ rest) s = readSDES CreateContext rest s.
Proof.
  induction l as [|v l IH]; [done|]. intros H. apply andb_true_iff in H as [Hv Hl]. apply negb_true_iff in Hv.
  cbn [app readSDES]. rewrite Hv. by apply IH.
Qed.

(** Reading the crypto line a session wrote with [keysalt] under tag [tag]. *)
Lemma read_crypto tag keysalt profile (s : session) ctx : 0 <= tag < 2 ^ 63 -> Forall Base64.byte_ok keysalt ->
  len keysalt = 30 -> SRTPAlg s = Some profile ->
  CreateContext (take 16 keysalt) (drop 16 keysalt) profile = inl ctx ->
  crypto_attr CreateContext ("crypto:" +:+ Itoa tag +:+ " " +:+ srtpProfileString profile +:+ " inline:" +:+ Base64.EncodeToString keysalt) s =
  (s <| srtpRemoteTag := tag |> <| remoteCtxSRTP := Some ctx |>, Some Ok).
Proof.
  intros Ht Hk Hl Ha Hc. unfold crypto_attr.
  change ("crypto:" +:+ Itoa tag +:+ " " +:+ srtpProfileString profile +:+ " inline:" +:+ Base64.EncodeToString keysalt)
    with (("crypto:" +:+ Itoa tag) +:+ String " " (srtpProfileString profile +:+ String " " ("inline:" +:+ Base64.EncodeToString keysalt))).
  rewrite Split_app.
  2:{ apply no_space_not. rewrite no_space_app, Itoa_no_space by lia. done. }
  rewrite Split_app by (by destruct profile).
  rewrite Split_no.
  2:{ apply no_space_not. rewrite no_space_app, Base64.encode_no_space by done. done. }
  unfold TrimPrefix. rewrite !CutPrefix_app. cbn [fst]. rewrite Atoi_Itoa by lia.
  rewrite srtpProfile_roundtrip. cbn [SRTPAlg field_update eta_session]. rewrite Ha.
  rewrite bool_decide_true by done. cbn [negb]. rewrite Base64.decode_encode by done. rewrite Hl. cbn [Z.eqb Pos.eqb negb].
  rewrite Hc. done.
Qed.

(** The configuration that enables ICE and DTLS, which no stage changes. *)
Record SameConf (s t : session) : Prop := {
  sc_ice : ICEConf t = ICEConf s; sc_secure : SecureRTP t = SecureRTP s; sc_dtls : DTLSConf t = DTLSConf s }.
Lemma SameConf_trans s t u : SameConf s t -> SameConf t u -> SameConf s u.
Proof. intros [] []. split; congruence. Qed.
Lemma SameConf_ice s t : SameConf s t -> iceEnabled t = iceEnabled s.
Proof. intros [E1 E2 _]. unfold iceEnabled. by rewrite E1, E2. Qed.
Lemma SameConf_dtls s t : SameConf s t -> dtlsSRTP t = dtlsSRTP s.
Proof. intros [_ E2 E3]. unfold dtlsSRTP. by rewrite E2, E3. Qed.

Lemma readSDES_conf attrs (s : session) : SameConf s (readSDES CreateContext attrs s).1.
Proof.
  revert s. induction attrs as [|v attrs IH]; intros s; cbn [readSDES]; [done|].
  destruct (HasPrefix v "crypto:"); [|apply IH].
  assert (SameConf s (crypto_attr CreateContext v s).1) as HS by (unfold crypto_attr; by repeat case_match).
  destruct (crypto_attr CreateContext v s) as [t [r|]]; [done|]. by eapply SameConf_trans; [|apply IH].
Qed.

(** [RemoteSDP] on a generated body without DTLS and ICE: only the outcome of
    the codec match, the keys and the requested security are left open. *)
Section Body.
Context (sid sver : Z) (profile : string) (oip cip : IP) (port : Z) (m : string) (codecs : list Codec)
  (sdes : sdesInline) (streams : offeredStreams) (ob cb : bytes) (prof : rtpProfile).
Hypothesis Hbody : body_ok sid sver profile oip cip port m codecs sdes None None streams.
Hypothesis Hcan : Forall canonical codecs.
Hypothesis Hnodup : NoDup (PayloadType <$> codecs).
Hypothesis Hmode : is_mode m = true.
Hypothesis Hoip : v4 oip ob.
Hypothesis Hcip : v4 cip cb.
Hypothesis Hids : sid < 2 ^ 64 /\ sver < 2 ^ 64.
Hypothesis Hport : 0 < port <= 65535.
Hypothesis Hprof : parseRTPProfile profile = Some prof.
Hypothesis Hdtls : dtls prof = false.
Hypothesis Hstreams : (os_audio streams <= length (os_media streams))%nat.

Definition the_body : string :=
  generateSDPForAudio sid sver profile oip cip port m codecs sdes None None streams.
Definition the_sections : Sections :=
  {| Session := session_Lines sid sver oip cip None;
     sec_Media := generated_media profile port m codecs sdes None None streams |}.
Definition the_audio : MediaSection := audio_section profile port m codecs sdes None None.

Lemma the_audio_at : sec_Media the_sections !! os_audio streams = Some the_audio.
Proof.
  unfold the_sections, generated_media. cbn [sec_Media].
  rewrite lookup_app_r by (rewrite length_fmap, length_take; lia).
  rewrite length_fmap, length_take. replace (os_audio streams - _)%nat with 0%nat by lia. done.
Qed.

Lemma the_audio_stream : audioStream (Media <$> sec_Media the_sections) = Some (os_audio streams).
Proof.
  unfold the_sections, generated_media. cbn [sec_Media]. rewrite !fmap_app, <- !list_fmap_compose.
  etransitivity; [apply (audioStream_app 0 (take (os_audio streams) (os_media streams)) (audio_md profile port codecs)
    (cleared <$> drop (S (os_audio streams)) (os_media streams)) None); [done|by exists prof|cbn; lia]|].
  f_equal. rewrite length_take. lia.
Qed.

Definition the_attrs : list string :=
  flat_map codec_attrs codecs ++ (["ptime:20"; "maxptime:20"; m] ++ crypto_attrs sdes ++ [] ++ []).

Lemma the_values : exists sd, Description the_sections (os_audio streams) = Some sd /\
  Values sd "o" = ["- " +:+ Itoa sid +:+ " " +:+ Itoa sver +:+ " IN " +:+ sdpIP oip +:+ " " +:+ IP_String oip] /\
  Values sd "c" = ["IN " +:+ sdpIP cip +:+ " " +:+ IP_String cip] /\ length (Values sd "m") = 1%nat /\
  Values sd "a" = flat_map codec_attrs codecs ++ (["ptime:20"; "maxptime:20"; m] ++ crypto_attrs sdes ++ [] ++ []).
Proof.
  assert (forall key, key <> "a" -> key <> "m" ->
    values_of key (Session the_sections ++ Lines the_audio) = values_of key (Session the_sections)) as Hk.
  { intros key Ha Hm. rewrite values_of_app. cbn [the_audio audio_section Lines].
    replace (values_of key (M _ :: _)) with (@nil string); [by rewrite app_nil_r|].
    symmetry. unfold values_of. apply omap_none. constructor.
    - cbn [Type_ M]. by rewrite (proj2 (String.eqb_neq _ _)).
    - rewrite Forall_fmap. apply Forall_true. intros v. unfold compose. cbn [Type_ A].
      by rewrite (proj2 (String.eqb_neq _ _)). }
  destruct (Description_values the_sections (os_audio streams) the_audio "a" the_audio_at) as (sd & HD & HV).
  assert (forall key, Values sd key = values_of key (Session the_sections ++ Lines the_audio)) as HV'.
  { intros key. destruct (Description_values the_sections (os_audio streams) the_audio key the_audio_at) as (sd' & HD' & HV').
    rewrite HD in HD'. injection HD' as <-. done. }
  exists sd. split; [done|]. split; [by rewrite HV', Hk|]. split; [by rewrite HV', Hk|]. split.
  - rewrite HV', values_of_app. cbn [the_audio audio_section Lines].
    transitivity (S (length (values_of "m" (A <$> audio_attrs m codecs sdes None None)))); [done|].
    unfold values_of. rewrite omap_none; [done|]. rewrite Forall_fmap. by apply Forall_true.
  - rewrite HV. apply audio_values.
Qed.

(** The stages after the profile, on the session [s] they find. *)
Lemma after_profile_generated preferLocal e sd (s : session) : iceEnabled s = false -> dtlsSRTP s = false ->
  Values sd "c" = ["IN " +:+ sdpIP cip +:+ " " +:+ IP_String cip] -> length (Values sd "m") = 1%nat ->
  Values sd "a" = the_attrs ->
  andThen (applyCodecs preferLocal (audio_md profile port codecs) the_attrs s) (fun s =>
  andThen (applyTransport sd (audio_md profile port codecs) s) (fun s =>
  andThen (readSDES CreateContext the_attrs s) (fun s =>
  andThen (if iceEnabled s then remoteICE candidate_ok the_attrs s else (s, Ok)) (fun s =>
  andThen (if dtlsSRTP s then remoteDTLS dtlsSHA256Fingerprint e the_attrs s else (s, Ok)) (fun s =>
  applySecurity (secure prof) s))))) =
  let '(s, n) := updateRemoteCodecs preferLocal codecs (negb (RemoteSDPIsAnswer s)) s in
  if n =? 0 then (s, Err (ErrWrap "no supported codecs found" ErrNoCommonCodec)) else
  let s := SetRemoteAddr {| ua_IP := Some cb; ua_Port := port; ua_Zone := EmptyString |} s in
  andThen (readSDES CreateContext (crypto_attrs sdes) (s <| mode := negotiateMediaDirection m (Mode s) |>))
    (applySecurity (secure prof)).
Proof.
  intros Hice Hd Hc Hm Ha. unfold applyCodecs.
  assert (CodecsFromSDPRead (Formats (audio_md profile port codecs)) the_attrs (length (Formats (audio_md profile port codecs)))
    = Some codecs) as ->.
  { pose proof (audio_codecs_read_back sid sver oip cip profile port m codecs sdes None None Hcan Hnodup) as HR.
    cbv zeta in HR. unfold audio_section in HR. cbn [Lines] in HR. rewrite audio_values in HR. apply HR.
    cbn [forallb]. unfold is_mode in Hmode. rewrite !orb_true_iff, !String.eqb_eq in Hmode.
    by destruct Hmode as [[[-> | ->] | ->] | ->]. }
  destruct codecs as [|c0 cs] eqn:Ecs; [by destruct (bo_codecs _ _ _ _ _ _ _ _ _ _ _ _ Hbody)|]. rewrite <- Ecs in *.
  assert (SameConf s (updateRemoteCodecs preferLocal codecs (negb (RemoteSDPIsAnswer s)) s).1) as HS.
  { unfold updateRemoteCodecs. by repeat case_match. }
  destruct (updateRemoteCodecs _ _ _ _) as [s1 n]. cbn [fst] in HS. destruct (n =? 0); [done|]. cbn [andThen].
  unfold applyTransport. destruct (read_connection sd cip cb) as (ci & -> & ->); try done.
  cbn [Port audio_md]. replace (port <=? 0) with false by lia. replace (65535 <? port) with false by lia. cbn [orb andThen].
  rewrite (read_direction codecs m sdes Hmode sd) by done. unfold the_attrs.
  rewrite readSDES_skip by (apply (forallb_andb _ _ _ (codecs_attrs_plain codecs))).
  rewrite (readSDES_skip ["ptime:20"; "maxptime:20"; m]).
  2:{ unfold is_mode in Hmode. rewrite !orb_true_iff, !String.eqb_eq in Hmode. by destruct Hmode as [[[-> | ->] | ->] | ->]. }
  rewrite !app_nil_r. set (s2 := SetRemoteAddr _ s1 <| mode := _ |>).
  assert (SameConf s s2) as HS2 by (by destruct HS).
  pose proof (readSDES_conf (crypto_attrs sdes) s2) as HS3.
  destruct (readSDES CreateContext (crypto_attrs sdes) s2) as [s3 [|err|]]; [|done..]. cbn [fst andThen] in *.
  rewrite (SameConf_ice s s3), Hice by (by eapply SameConf_trans). cbn [andThen].
  rewrite (SameConf_dtls s s3), Hd by (by eapply SameConf_trans). done.
Qed.

Lemma RemoteSDP_generated preferLocal e (s : session) : iceEnabled s = false -> dtlsSRTP s = false ->
  RemoteSDP dtlsSHA256Fingerprint CreateContext candidate_ok preferLocal e the_body s =
  let s := if sessionID s =? sid then s else s <| sessionID := sid |> <| sessionVersion := u64 (sver + 1) |> in
  let s := s <| remoteProto := profile |> in
  let s := if RemoteSDPIsAnswer s then s
           else s <| ms_streams := {| os_media := Media <$> sec_Media the_sections; os_audio := os_audio streams |} |> in
  let '(s, n) := updateRemoteCodecs preferLocal codecs (negb (RemoteSDPIsAnswer s)) s in
  if n =? 0 then (s, Err (ErrWrap "no supported codecs found" ErrNoCommonCodec)) else
  let s := SetRemoteAddr {| ua_IP := Some cb; ua_Port := port; ua_Zone := EmptyString |} s in
  andThen (readSDES CreateContext (crypto_attrs sdes) (s <| mode := negotiateMediaDirection m (Mode s) |>))
    (applySecurity (secure prof)).
Proof.
  intros Hice Hd. unfold RemoteSDP, the_body. rewrite generated_sections by done. fold the_sections.
  rewrite the_audio_stream, the_audio_at. destruct the_values as (sd & -> & Ho & Hc & Hm & Ha).
  unfold applySDP. destruct (bo_ids _ _ _ _ _ _ _ _ _ _ _ _ Hbody) as [Hs Hv].
  destruct (read_origin sd sid sver oip ob) as (si & -> & E1 & E2); try done; [lia..|].
  cbn [the_audio audio_section Media audio_md Proto]. rewrite Hprof.
  unfold secureRequested, applyOrigin. rewrite E1, E2, Ha, body_no_fingerprint, Hdtls by done. cbn [negb]. rewrite !andb_true_r.
  apply (after_profile_generated preferLocal e sd); try done.
  - by repeat case_match.
  - by repeat case_match.
Qed.

End Body.

End Applied.

End MediaNegotiation.
