(* ===== verification/MediaExchange.v ===== *)
(** * The media session: an offer/answer exchange end to end

    Two sessions exchange the bodies they generate: what each ends up with, for
    plain RTP and for SDES. *)
From S2P Require Import Prelude GoStrings NetIP Sdp SdpProps Codec MediaSdp MediaSdpProps Base64 MediaSession MediaNegotiation.
Import GoStrings NetIP Sdp SdpProps Codecs MediaSdp MediaSdpProps MediaSession MediaNegotiation.

Module MediaExchange.

Section Exchange.
Context {cert : Type} (dtlsSHA256Fingerprint : cert -> string + error).
Context {srtp_ctx : Type} (CreateContext : bytes -> bytes -> ProtectionProfile -> srtp_ctx + error).
Context (KeyLen : ProtectionProfile -> Z).
Context (candidate_ok : string -> bool).
Hypothesis KeyLen_aes128 : KeyLen Aes128CmHmacSha1_80 = 16.

Abbreviation session := (@MediaSession.MediaSession cert srtp_ctx).
Abbreviation RemoteSDP := (RemoteSDP dtlsSHA256Fingerprint CreateContext candidate_ok).
Abbreviation LocalSDP := (LocalSDP dtlsSHA256Fingerprint CreateContext KeyLen).

(** ** What the exchange relies on *)

(** The address a session advertises for its media. *)
Definition connIP (s : session) : IP := match ExternalIP s with None => ua_IP (Laddr s) | ext => ext end.

(** A session whose security is none, or SDES with the default profile. *)
Record Plain (s : session) (lb cb : bytes) : Prop := {
  pl_sdp : ms_sdp s = EmptyString;
  pl_codecs : Forall std (ms_Codecs s) /\ NoDup (PayloadType <$> ms_Codecs s) /\ ms_Codecs s <> [];
  pl_laddr : v4 (ua_IP (Laddr s)) lb;
  pl_conn : v4 (connIP s) cb;
  pl_port : 0 < ua_Port (Laddr s) <= 65535;
  pl_mode : is_mode (Mode s) = true;
  pl_secure : SecureRTP s = SecureRTPModeNone \/ SecureRTP s = SecureRTPModeSDES /\ SRTPAlg s = Some Aes128CmHmacSha1_80;
  pl_conf : Certificates (DTLSConf s) = [] /\ ICEConf s = None /\ iceAgent s = None /\ ms_establishedICE s = None }.

(** The keys a session draws, and the context built from them. *)
Definition keys_ok (le : local_env) (ctx : srtp_ctx) : Prop :=
  Forall Base64.byte_ok (le_keysalt le) /\ len (le_keysalt le) = 30 /\
  CreateContext (take 16 (le_keysalt le)) (drop 16 (le_keysalt le)) Aes128CmHmacSha1_80 = inl ctx.

(** What a Plain session keeps when it applies a body. *)
Record Kept (s t : session) : Prop := {
  kp_sdp : ms_sdp t = ms_sdp s; kp_codecs : ms_Codecs t = ms_Codecs s; kp_laddr : Laddr t = Laddr s;
  kp_ext : ExternalIP t = ExternalIP s; kp_mode : Mode t = Mode s; kp_sec : SecureRTP t = SecureRTP s;
  kp_alg : SRTPAlg t = SRTPAlg s; kp_dtls : DTLSConf t = DTLSConf s; kp_ice : ICEConf t = ICEConf s;
  kp_agent : iceAgent t = iceAgent s; kp_est : ms_establishedICE t = ms_establishedICE s;
  kp_answer : RemoteSDPIsAnswer t = RemoteSDPIsAnswer s }.

Lemma Kept_trans s t u : Kept s t -> Kept t u -> Kept s u.
Proof. intros [] []. split; congruence. Qed.
Lemma Kept_refl s : Kept s s.
Proof. done. Qed.

Lemma Plain_kept s t lb cb : Kept s t -> Plain s lb cb -> Plain t lb cb.
Proof.
  intros [] []. unfold connIP in *. split; unfold connIP; rewrite ?kp_sdp0, ?kp_codecs0, ?kp_laddr0, ?kp_ext0,
    ?kp_mode0, ?kp_sec0, ?kp_alg0, ?kp_dtls0, ?kp_ice0, ?kp_agent0, ?kp_est0; auto.
Qed.

Lemma Plain_off s lb cb : Plain s lb cb -> iceEnabled s = false /\ dtlsSRTP s = false.
Proof.
  intros [_ _ _ _ _ _ Hs (H1 & H2 & _)]. unfold iceEnabled, dtlsSRTP. rewrite H1, H2.
  destruct Hs as [-> | [-> _]]; by rewrite bool_decide_false by (by intros []).
Qed.

(** ** Applying a body *)

(** The crypto line of a body: none, or one with [keysalt] under a tag. *)
Definition crypto_line (key : option (bytes * Z)) : sdesInline :=
  match key with
  | None => no_sdes
  | Some (keysalt, tag) =>
    {| sdes_alg := srtpProfileString Aes128CmHmacSha1_80; sdes_base64 := Base64.EncodeToString keysalt; sdes_tag := tag |}
  end.

Definition key_context (key : option (bytes * Z)) (ctx : srtp_ctx) : Prop :=
  match key with
  | None => True
  | Some (keysalt, tag) =>
    0 < tag < 2 ^ 63 /\ Forall Base64.byte_ok keysalt /\ len keysalt = 30 /\
    CreateContext (take 16 keysalt) (drop 16 keysalt) Aes128CmHmacSha1_80 = inl ctx
  end.

Record Applied (s t : session) (sid sver : Z) (profile : string) (streams : offeredStreams) (cb : bytes) (port : Z)
    (m : string) (codecs : list Codec) (key : option (bytes * Z)) (ctx : srtp_ctx) : Prop := {
  ap_kept : Kept s t;
  ap_codecs : filterCodecs t = match_remote_order (ms_Codecs s) codecs;
  ap_raddr : Raddr t = {| ua_IP := Some cb; ua_Port := port; ua_Zone := EmptyString |};
  ap_mode : mode t = negotiateMediaDirection m (Mode s);
  ap_proto : remoteProto t = profile;
  ap_streams : RemoteSDPIsAnswer s = false -> ms_streams t = streams;
  ap_id : sessionID t = sid;
  ap_version : sessionVersion t = if sessionID s =? sid then sessionVersion s else u64 (sver + 1);
  ap_remote : remoteCtxSRTP t = match key with None => None | Some _ => Some ctx end;
  ap_local : localCtxSRTP t = match key with None => None | Some _ => localCtxSRTP s end;
  ap_tag : srtpRemoteTag t = match key with None => srtpRemoteTag s | Some (_, tag) => tag end }.

(** What [RemoteSDP] settles on a session it accepts the codecs of. *)
Lemma crypto_attrs_key key tag : crypto_attrs (crypto_line (Some (key, tag))) =
  ["crypto:" +:+ Itoa tag +:+ " " +:+ srtpProfileString Aes128CmHmacSha1_80 +:+ " inline:" +:+ Base64.EncodeToString key].
Proof. done. Qed.

Lemma RemoteSDP_applied sid sver profile oip cip port m codecs key streams ob cb prof e (s : session) lb cb' ctx :
  body_ok sid sver profile oip cip port m codecs (crypto_line key) None None streams ->
  Forall canonical codecs -> NoDup (PayloadType <$> codecs) -> is_mode m = true ->
  v4 oip ob -> v4 cip cb -> sid < 2 ^ 64 /\ sver < 2 ^ 64 -> 0 < port <= 65535 ->
  parseRTPProfile profile = Some prof -> dtls prof = false -> (os_audio streams <= length (os_media streams))%nat ->
  Plain s lb cb' -> key_context key ctx ->
  (key = None -> secure prof = false /\ remoteCtxSRTP s = None) ->
  (key <> None -> SRTPAlg s = Some Aes128CmHmacSha1_80) ->
  match_remote_order (ms_Codecs s) codecs <> [] ->
  exists t, RemoteSDP false e (generateSDPForAudio sid sver profile oip cip port m codecs (crypto_line key) None None streams) s = (t, Ok) /\
    Applied s t sid sver profile
      {| os_media := Media <$> generated_media profile port m codecs (crypto_line key) None None streams; os_audio := os_audio streams |}
      cb port m codecs key ctx.
Proof.
  intros HB Hcan Hnd Hm Hoip Hcip Hids Hport Hprof Hd Hst HP Hkey Hnone Hsome Hne.
  destruct (Plain_off _ _ _ HP) as [Hice Hdtls].
  pose proof (RemoteSDP_generated dtlsSHA256Fingerprint CreateContext candidate_ok sid sver profile oip cip port m codecs
    (crypto_line key) streams ob cb prof HB Hcan Hnd Hm Hoip Hcip Hids Hport Hprof Hd Hst false e s Hice Hdtls) as HR.
  unfold the_body in HR. rewrite HR. clear HR. cbv zeta.
  set (s1 := if RemoteSDPIsAnswer _ then _ else _).
  assert (Kept s s1 /\ remoteProto s1 = profile /\ (RemoteSDPIsAnswer s = false -> ms_streams s1 =
    {| os_media := Media <$> generated_media profile port m codecs (crypto_line key) None None streams; os_audio := os_audio streams |}) /\
    sessionID s1 = sid /\ sessionVersion s1 = (if sessionID s =? sid then sessionVersion s else u64 (sver + 1)) /\
    remoteCtxSRTP s1 = remoteCtxSRTP s /\ localCtxSRTP s1 = localCtxSRTP s /\ srtpRemoteTag s1 = srtpRemoteTag s)
    as (HK & F1 & F2 & F3 & F4 & F5 & F6 & F7).
  { unfold s1. clear. destruct (Z.eqb_spec (sessionID s) sid); destruct (RemoteSDPIsAnswer s) eqn:E; cbn; rewrite ?E; by repeat split. }
  clearbody s1. unfold updateRemoteCodecs. rewrite (kp_codecs _ _ HK). cbn [andb].
  destruct (ms_Codecs s) as [|c0 cs] eqn:Ecs; [by destruct HP as [_ (_ & _ & ?) _ _ _ _ _ _]|]. rewrite <- Ecs in *.
  set (F := match_remote_order (ms_Codecs s) codecs) in *.
  replace (len F =? 0) with false by (destruct F; [done|rewrite len_cons; pose proof (len_nonneg F); lia]).
  set (s2 := SetRemoteAddr _ _ <| mode := _ |>).
  assert (Kept s s2) as HK2 by (eapply Kept_trans; [exact HK|done]).
  destruct key as [[ks tag]|].
  - destruct Hkey as (Ht & Hb & Hl & Hc). rewrite crypto_attrs_key. cbn [readSDES]. rewrite HasPrefix_app.
    rewrite (read_crypto CreateContext tag ks Aes128CmHmacSha1_80 s2 ctx); [|lia|done|done| |done].
    2:{ rewrite (kp_alg _ _ HK2). by apply Hsome. }
    cbn [andThen]. unfold applySecurity. cbn. rewrite andb_false_r, andb_false_r. eexists. split; [done|].
    split; cbn; try done; [by destruct HK|by rewrite (kp_mode _ _ HK)].
  - destruct (Hnone eq_refl) as [Hsec Hrem]. cbn [crypto_attrs crypto_line no_sdes sdes_alg String.eqb readSDES andThen].
    unfold applySecurity. rewrite Hsec.
    assert (remoteCtxSRTP s2 = None) as Er by (cbn; congruence). rewrite Er. rewrite (bool_decide_true (@None srtp_ctx = None)) by done.
    cbn [andb negb]. rewrite !andb_true_r. eexists. split; [done|].
    assert (forall u : session, localCtxSRTP (if bool_decide (is_Some (localCtxSRTP u)) then u <| localCtxSRTP := None |> else u) = None) as Hl.
    { intros u. case_bool_decide as Hx; [done|]. destruct (localCtxSRTP u); [by destruct Hx|done]. }
    split; [..|apply Hl|]; case_bool_decide; cbn; first [done | by destruct HK | by rewrite (kp_mode _ _ HK)].
Qed.

(** ** Generating a body *)

(** Whether [LocalSDP] writes a crypto line. *)
Definition offersKey (s : session) : bool :=
  bool_decide (SecureRTP s = SecureRTPModeSDES) &&
  (bool_decide (ua_IP (Raddr s) = None) || bool_decide (is_Some (remoteCtxSRTP s))).

Definition local_profile (le : local_env) (s : session) : string :=
  if answeringOffer s then remoteProto s
  else if offersKey s && negb (le_savpDisable le) then "RTP/SAVP" else "RTP/AVP".
Definition local_key (le : local_env) (s : session) : option (bytes * Z) :=
  if offersKey s then Some (le_keysalt le, if 0 <? srtpRemoteTag s then srtpRemoteTag s else 1) else None.
Definition local_mode (s : session) : string := if String.eqb (mode s) EmptyString then Mode s else mode s.

Lemma LocalSDP_plain le (s : session) lb cb ctx : Plain s lb cb -> keys_ok le ctx ->
  LocalSDP le s =
  let t := nextVersion le (if offersKey s then s <| localCtxSRTP := Some ctx |> else s) in
  (t, generateSDPForAudio (sessionID t) (sessionVersion t) (local_profile le s) (ua_IP (Laddr s)) (connIP s)
        (ua_Port (Laddr s)) (local_mode s) (activeCodecs s) (crypto_line (local_key le s)) None None (ms_streams s)).
Proof.
  intros [Hsdp _ _ _ _ _ Hsec (_ & _ & Hag & Hest)] (_ & _ & Hctx).
  unfold MediaSession.LocalSDP, localSDES, local_key, local_profile. rewrite Hsdp. cbn [negb String.eqb].
  fold (offersKey s). destruct (offersKey s) eqn:Ek.
  - assert (SecureRTP s = SecureRTPModeSDES /\ SRTPAlg s = Some Aes128CmHmacSha1_80) as [E1 E2].
    { destruct Hsec as [E|E]; [|done]. unfold offersKey in Ek. by rewrite E in Ek. }
    unfold sdesOffer. rewrite E2, KeyLen_aes128. change (Z.to_nat 16) with 16%nat. rewrite Hctx.
    set (u := s <| localCtxSRTP := Some ctx |>). unfold localDTLS.
    assert (SecureRTP u = SecureRTPModeSDES) as -> by done. rewrite bool_decide_false by done.
    unfold localICE. assert (iceAgent u = None) as -> by done. assert (ms_establishedICE u = None) as -> by done.
    unfold nextVersion. assert (sessionID u = sessionID s) as -> by done.
    assert (answeringOffer u = answeringOffer s) as -> by done.
    destruct (sessionID s =? 0); destruct (answeringOffer s), (le_savpDisable le), (0 <? srtpRemoteTag s) eqn:Et;
      cbn; rewrite ?Et; done.
  - unfold localDTLS. rewrite (bool_decide_false (_ = SecureRTPModeDTLS)) by (by destruct Hsec as [-> | [-> _]]).
    unfold localICE. rewrite Hag, Hest. unfold nextVersion. by destruct (sessionID s =? 0).
Qed.

Lemma plain_body_ok sid sver profile (s : session) lb cb m codecs key ctx streams :
  Plain s lb cb -> 0 <= sid /\ 0 <= sver -> word profile = true -> is_mode m = true ->
  codecs <> [] -> Forall std codecs -> key_context key ctx ->
  Forall (fun md => md_wf (cleared md)) (os_media streams) ->
  body_ok sid sver profile (ua_IP (Laddr s)) (connIP s) (ua_Port (Laddr s)) m codecs (crypto_line key) None None streams.
Proof.
  intros [_ _ Hl Hc Hp _ _ _] Hids Hw Hm Hne Hstd Hkey Hst. split; try done.
  - split; apply word_no_LF; [apply (v4_text _ _ Hl)|apply (v4_text _ _ Hc)].
  - lia.
  - unfold is_mode in Hm. rewrite !orb_true_iff, !String.eqb_eq in Hm. by destruct Hm as [[[-> | ->] | ->] | ->].
  - split; [done|]. eapply Forall_impl; [exact Hstd|]. intros c Hx. by destruct (std_canonical c Hx).
  - destruct key as [[ks tag]|]; [|done]. destruct Hkey as (Ht & Hb & Hl30 & _). rewrite crypto_attrs_key.
    cbn [app forallb MediaSdpProps.dtls_attrs MediaSdpProps.ice_attrs]. rewrite !no_LF_app. rewrite (word_no_LF (Itoa tag)) by (apply Itoa_word; lia).
    rewrite (word_no_LF (Base64.EncodeToString ks)); [done|]. unfold word. rewrite Base64.encode_no_space, andb_true_r by done.
    by destruct ks as [|x [|y [|z ks]]].
Qed.

(** ** An exchange between two new sessions *)

Record Fresh (s : session) : Prop := {
  fr_id : sessionID s = 0; fr_mode : mode s = EmptyString; fr_filter : filterCodecs s = [];
  fr_proto : remoteProto s = EmptyString; fr_streams : ms_streams s = no_streams; fr_raddr : ua_IP (Raddr s) = None;
  fr_local : localCtxSRTP s = None; fr_remote : remoteCtxSRTP s = None; fr_tag : srtpRemoteTag s = 0 }.

(** The directions of the two sides after an exchange. *)
Lemma directions_meet a b : is_mode a = true -> is_mode b = true ->
  let mb := negotiateMediaDirection a b in
  let ma := negotiateMediaDirection mb a in
  is_mode mb = true /\ mb <> EmptyString /\ sends ma = receives mb /\ receives ma = sends mb.
Proof.
  unfold is_mode at 1 2. rewrite !orb_true_iff, !String.eqb_eq.
  intros [[[-> | ->] | ->] | ->] [[[-> | ->] | ->] | ->]; by vm_compute.
Qed.

Lemma filter_nil {X} (f : X -> bool) l : existsb f l = true -> List.filter f l <> [].
Proof. induction l as [|x l IH]; [done|]. cbn. by destruct (f x). Qed.

Lemma filter_sub {X} (P : X -> Prop) (f : X -> bool) l : Forall P l -> Forall P (List.filter f l).
Proof. induction 1 as [|x l Hx HF IH]; [done|]. cbn. destruct (f x); [by constructor|done]. Qed.

Lemma filter_NoDup {X Y} (g : X -> Y) (f : X -> bool) l : NoDup (g <$> l) -> NoDup (g <$> List.filter f l).
Proof.
  induction l as [|x l IH]; [done|]. cbn. rewrite NoDup_cons. intros [Hx Hn]. destruct (f x); [|by apply IH].
  cbn. apply NoDup_cons. split; [|by apply IH]. intros Hin. apply Hx. apply list_elem_of_fmap in Hin as (y & -> & Hy).
  apply list_elem_of_fmap. exists y. split; [done|]. apply list_elem_of_In in Hy. apply filter_In in Hy as [Hy _].
  by apply list_elem_of_In.
Qed.

(** The offer of a new session. *)
Section Offer.
Context (a : session) (lea : local_env) (la ca : bytes) (ctxA : srtp_ctx).
Hypothesis HF : Fresh a.
Hypothesis HP : Plain a la ca.
Hypothesis HK : keys_ok lea ctxA.
Hypothesis Hntp : 0 < Z.shiftr (le_ntp lea) 32 < 2 ^ 32.

Definition keyed : bool := bool_decide (SecureRTP a = SecureRTPModeSDES).
Definition offer_id : Z := Z.shiftr (le_ntp lea) 32.
Definition offer_profile : string := if keyed && negb (le_savpDisable lea) then "RTP/SAVP" else "RTP/AVP".
Definition offer_key : option (bytes * Z) := if keyed then Some (le_keysalt lea, 1) else None.
Definition offer_body : string :=
  generateSDPForAudio offer_id offer_id offer_profile (ua_IP (Laddr a)) (connIP a) (ua_Port (Laddr a)) (Mode a)
    (ms_Codecs a) (crypto_line offer_key) None None no_streams.

Lemma offer_key_context : key_context offer_key ctxA.
Proof. unfold offer_key. destruct keyed; [|done]. by destruct HK as (? & ? & ?). Qed.

Lemma offer_profile_word : word offer_profile = true /\ offer_profile <> EmptyString /\
  exists prof, parseRTPProfile offer_profile = Some prof /\ dtls prof = false /\ (offer_key = None -> secure prof = false).
Proof.
  unfold offer_profile, offer_key. destruct keyed; cbn [andb]; [destruct (le_savpDisable lea)|]; cbn [negb];
    (split; [done|split; [done|by eexists]]).
Qed.

Lemma offer_made : exists a1, LocalSDP lea a = (a1, offer_body) /\ Kept a a1 /\ sessionID a1 = offer_id /\
  remoteCtxSRTP a1 = None /\ localCtxSRTP a1 = (if keyed then Some ctxA else None).
Proof.
  rewrite (LocalSDP_plain lea a la ca ctxA HP HK). destruct HF as [E1 E2 E3 E4 E5 E6 E7 E8 E9].
  assert (offersKey a = keyed) as Ek by (unfold offersKey; rewrite E6; cbn; by rewrite andb_true_r).
  unfold local_profile, local_key, local_mode, activeCodecs, answeringOffer. rewrite Ek, E2, E3, E4, E5, E9.
  cbn [negb String.eqb andb Z.ltb Z.compare]. unfold nextVersion.
  set (u := if keyed then a <| localCtxSRTP := Some ctxA |> else a).
  assert (sessionID u = 0) as -> by (unfold u; by destruct keyed). cbn [Z.eqb]. cbv zeta.
  eexists. split; [reflexivity|]. unfold u. by destruct keyed.
Qed.

Lemma offer_body_ok : body_ok offer_id offer_id offer_profile (ua_IP (Laddr a)) (connIP a) (ua_Port (Laddr a)) (Mode a)
    (ms_Codecs a) (crypto_line offer_key) None None no_streams.
Proof.
  destruct (pl_codecs _ _ _ HP) as (? & ? & ?). unfold offer_id. eapply plain_body_ok; try done.
  - unfold offer_id. lia.
  - apply offer_profile_word.
  - by destruct HP.
  - apply offer_key_context.
Qed.

(** What the answerer is left with. *)
Section Answer.
Context (b : session) (leb : local_env) (lb cb : bytes) (ctxB : srtp_ctx).
Hypothesis HFb : Fresh b.
Hypothesis HPb : Plain b lb cb.
Hypothesis HKb : keys_ok leb ctxB.
Hypothesis Hrole : RemoteSDPIsAnswer b = false.
Hypothesis Hsec : keyed = true -> SecureRTP b = SecureRTPModeSDES.

Definition common : list Codec := List.filter (has_match (ms_Codecs b)) (ms_Codecs a).
Hypothesis Hcommon : existsb (has_match (ms_Codecs b)) (ms_Codecs a) = true.

Definition answer_mode : string := negotiateMediaDirection (Mode a) (Mode b).
Definition answer_key : option (bytes * Z) := if keyed then Some (le_keysalt leb, 1) else None.
Definition answer_streams : offeredStreams :=
  {| os_media := [audio_md offer_profile (ua_Port (Laddr a)) (ms_Codecs a)]; os_audio := 0 |}.
Definition answer_body : string :=
  generateSDPForAudio offer_id (u64 (u64 (offer_id + 1) + 1)) offer_profile (ua_IP (Laddr b)) (connIP b) (ua_Port (Laddr b)) answer_mode
    common (crypto_line answer_key) None None answer_streams.

Lemma offer_applied eb : exists b1, RemoteSDP false eb offer_body b = (b1, Ok) /\
  Applied b b1 offer_id offer_id offer_profile answer_streams ca (ua_Port (Laddr a)) (Mode a) (ms_Codecs a) offer_key ctxA.
Proof.
  destruct offer_profile_word as (_ & _ & prof & Hprof & Hd & Hs).
  destruct (pl_codecs _ _ _ HP) as (Hstd & Hnd & Hne), (pl_codecs _ _ _ HPb) as (Hstdb & _ & _).
  eapply (RemoteSDP_applied offer_id offer_id offer_profile _ _ _ _ _ offer_key no_streams la ca prof eb b lb cb ctxA);
    try done; try by destruct HP.
  - apply offer_body_ok.
  - eapply Forall_impl; [exact Hstd|]. apply std_canonical.
  - unfold offer_id. lia.
  - apply offer_key_context.
  - intros Hk. split; [by apply Hs|]. by destruct HFb.
  - unfold offer_key. destruct keyed; [|done]. intros _. destruct (pl_secure _ _ _ HPb) as [E|[_ E]]; [|done].
    by rewrite Hsec in E.
  - rewrite match_remote_std by done. by apply filter_nil.
Qed.

Lemma common_std : Forall std common /\ common <> [] /\ NoDup (PayloadType <$> common).
Proof.
  destruct (pl_codecs _ _ _ HP) as (? & ? & ?). split; [by apply filter_sub|]. split; [by apply filter_nil|]. by apply filter_NoDup.
Qed.

Lemma answer_made b1 :
  Applied b b1 offer_id offer_id offer_profile answer_streams ca (ua_Port (Laddr a)) (Mode a) (ms_Codecs a) offer_key ctxA ->
  exists b2, LocalSDP leb b1 = (b2, answer_body) /\ activeCodecs b2 = common /\ mode b2 = answer_mode /\
    Raddr b2 = {| ua_IP := Some ca; ua_Port := ua_Port (Laddr a); ua_Zone := EmptyString |} /\
    remoteCtxSRTP b2 = (if keyed then Some ctxA else None) /\ localCtxSRTP b2 = (if keyed then Some ctxB else None).
Proof.
  intros HA. pose proof (Plain_kept _ _ _ _ (ap_kept _ _ _ _ _ _ _ _ _ _ _ _ HA) HPb) as HP1.
  rewrite (LocalSDP_plain leb b1 lb cb ctxB HP1 HKb).
  destruct HA as [HKt A1 A2 A3 A4 A5 A6 A7 A8 A9 A10].
  destruct (directions_meet (Mode a) (Mode b)) as (_ & Hme & _); [by destruct HP|by destruct HPb|].
  destruct (pl_codecs _ _ _ HPb) as (Hstdb & _ & _), (pl_codecs _ _ _ HP) as (Hstda & _ & _).
  rewrite match_remote_std in A1 by done. fold common in A1. destruct common_std as (_ & Hne & _).
  assert (activeCodecs b1 = common) as Ec by (unfold activeCodecs; rewrite A1; by destruct common).
  assert (offersKey b1 = keyed) as Ek.
  { unfold offersKey. rewrite A2, A8, (kp_sec _ _ HKt). unfold offer_key. destruct keyed; [rewrite Hsec by done|]; [done|].
    cbn. by rewrite andb_false_r. }
  destruct offer_profile_word as (_ & Hpe & _).
  assert (answeringOffer b1 = true) as Ea.
  { unfold answeringOffer. rewrite A4, (kp_answer _ _ HKt), Hrole. by rewrite (proj2 (String.eqb_neq _ _)). }
  unfold local_profile, local_key, local_mode. rewrite Ek, Ea, A3, A4, A5, Ec, (kp_laddr _ _ HKt) by done.
  rewrite (proj2 (String.eqb_neq (negotiateMediaDirection (Mode a) (Mode b)) EmptyString)) by done.
  assert (connIP b1 = connIP b) as -> by (unfold connIP; by rewrite (kp_laddr _ _ HKt), (kp_ext _ _ HKt)).
  assert ((if 0 <? srtpRemoteTag b1 then srtpRemoteTag b1 else 1) = 1) as ->.
  { rewrite A10, (fr_tag _ HFb). unfold offer_key. by destruct keyed. }
  unfold nextVersion. set (u := if keyed then b1 <| localCtxSRTP := Some ctxB |> else b1).
  assert (sessionID u = offer_id /\ sessionVersion u = u64 (offer_id + 1)) as [-> Ev].
  { rewrite (fr_id _ HFb) in A7. replace (0 =? offer_id) with false in A7 by (unfold offer_id in *; lia). unfold u. by destruct keyed. }
  replace (offer_id =? 0) with false by (unfold offer_id in *; lia). cbv zeta. eexists. split.
  { cbn [sessionID sessionVersion field_update eta_session]. rewrite Ev.
    assert (sessionID u = offer_id) as -> by (unfold u; by destruct keyed). done. }
  unfold u, offer_key in *. destruct keyed; cbn in *; unfold activeCodecs in *; cbn; rewrite ?A2, ?A3, ?A8, ?A9; by repeat split.
Qed.

Lemma answer_applied ea (a1 : session) : Kept a a1 -> sessionID a1 = offer_id -> remoteCtxSRTP a1 = None ->
  localCtxSRTP a1 = (if keyed then Some ctxA else None) ->
  exists a2, RemoteSDP false ea answer_body a1 = (a2, Ok) /\ activeCodecs a2 = common /\
    mode a2 = negotiateMediaDirection answer_mode (Mode a) /\
    Raddr a2 = {| ua_IP := Some cb; ua_Port := ua_Port (Laddr b); ua_Zone := EmptyString |} /\
    remoteCtxSRTP a2 = (if keyed then Some ctxB else None) /\ localCtxSRTP a2 = (if keyed then Some ctxA else None).
Proof.
  intros HKt Hid Hrem Hloc. pose proof (Plain_kept _ _ _ _ HKt HP) as HP1.
  destruct offer_profile_word as (Hw & _ & prof & Hprof & Hd & Hs). destruct common_std as (Hstd & Hne & Hnd).
  destruct (directions_meet (Mode a) (Mode b)) as (Hm & _); [by destruct HP|by destruct HPb|]. fold answer_mode in Hm.
  destruct (pl_codecs _ _ _ HP) as (Hstda & _ & _), (pl_codecs _ _ _ HPb) as (Hstdb & _ & _).
  destruct (exchange_codecs (ms_Codecs a) (ms_Codecs b) Hstda Hstdb) as [Ec1 Ec2]. cbv zeta in Ec1, Ec2. rewrite Ec1 in Ec2.
  assert (key_context answer_key ctxB) as Hkc.
  { unfold answer_key. destruct keyed; [|done]. by destruct HKb as (? & ? & ?). }
  assert (forall x, 0 <= u64 x < 2 ^ 64) as Hu by (intros x; unfold u64; apply Z.mod_pos_bound; lia).
  destruct (RemoteSDP_applied offer_id (u64 (u64 (offer_id + 1) + 1)) offer_profile (ua_IP (Laddr b)) (connIP b) (ua_Port (Laddr b))
    answer_mode common answer_key answer_streams lb cb prof ea a1 la ca ctxB) as (a2 & HR & HA); try done; try by destruct HPb.
  - eapply plain_body_ok; try done; [specialize (Hu (u64 (offer_id + 1) + 1)); unfold offer_id in *; lia|].
    cbn [os_media answer_streams]. constructor; [|done]. destruct (audio_md_wf _ _ _ _ _ _ _ _ _ _ _ _ offer_body_ok).
    by split.
  - eapply Forall_impl; [exact Hstd|]. apply std_canonical.
  - specialize (Hu (u64 (offer_id + 1) + 1)). unfold offer_id in *. lia.
  - cbn. lia.
  - intros Hk. split; [|done]. apply Hs. unfold answer_key, offer_key in *. by destruct keyed.
  - rewrite (kp_alg _ _ HKt). unfold answer_key, keyed. intros Hk. destruct (pl_secure _ _ _ HP) as [E|[_ E]]; [|done].
    rewrite E in Hk. done.
  - rewrite (kp_codecs _ _ HKt). unfold common in *. rewrite Ec2. exact Hne.
  - exists a2. split; [exact HR|]. destruct HA as [_ A1 A2 A3 _ _ _ _ A8 A9 _].
    rewrite (kp_codecs _ _ HKt) in A1. unfold common in A1. rewrite Ec2 in A1. rewrite (kp_mode _ _ HKt) in A3.
    split; [unfold activeCodecs; rewrite A1; fold common; by destruct common|]. split; [done|]. split; [done|].
    rewrite A8, A9, Hloc. unfold answer_key. by destruct keyed.
Qed.

End Answer.

End Offer.

(** C4. An offer/answer exchange between two new sessions converges: for sessions
    that carry diago's codecs with at least one in common, with IPv4 addresses
    and any of the four directions, plain or SDES (the answerer supporting SDES
    when the offerer does), the answerer accepts the offer that [LocalSDP]
    generates, the offerer accepts the answer generated from it, and after that
    both hold the same codecs (the offered ones the answerer has, in the order
    and under the payload types of the offer), each sends to the address and
    port the other advertised, each sends exactly when the other receives, and
    with SDES the context each encrypts with is the one the other decrypts with;
    without, neither side has a context. *)
Theorem offer_answer_converges (a b : session) lea leb ea eb la ca lb cb ctxA ctxB :
  Fresh a -> Fresh b -> Plain a la ca -> Plain b lb cb -> keys_ok lea ctxA -> keys_ok leb ctxB ->
  RemoteSDPIsAnswer b = false -> 0 < Z.shiftr (le_ntp lea) 32 < 2 ^ 32 ->
  (SecureRTP a = SecureRTPModeSDES -> SecureRTP b = SecureRTPModeSDES) ->
  existsb (has_match (ms_Codecs b)) (ms_Codecs a) = true ->
  exists a1 a2 b1 b2 offer answer,
    LocalSDP lea a = (a1, offer) /\ RemoteSDP false eb offer b = (b1, Ok) /\
    LocalSDP leb b1 = (b2, answer) /\ RemoteSDP false ea answer a1 = (a2, Ok) /\
    activeCodecs a2 = List.filter (has_match (ms_Codecs b)) (ms_Codecs a) /\ activeCodecs b2 = activeCodecs a2 /\
    Raddr b2 = {| ua_IP := Some ca; ua_Port := ua_Port (Laddr a); ua_Zone := EmptyString |} /\
    Raddr a2 = {| ua_IP := Some cb; ua_Port := ua_Port (Laddr b); ua_Zone := EmptyString |} /\
    sends (mode a2) = receives (mode b2) /\ receives (mode a2) = sends (mode b2) /\
    let ctx c := if bool_decide (SecureRTP a = SecureRTPModeSDES) then Some c else None in
    localCtxSRTP a2 = ctx ctxA /\ remoteCtxSRTP b2 = ctx ctxA /\ localCtxSRTP b2 = ctx ctxB /\ remoteCtxSRTP a2 = ctx ctxB.
Proof.
  intros HFa HFb HPa HPb HKa HKb Hr Hn Hs Hc.
  assert (keyed a = true -> SecureRTP b = SecureRTPModeSDES) as Hs' by (unfold keyed; case_bool_decide; auto; done).
  destruct (offer_made a lea la ca ctxA HFa HPa HKa) as (a1 & HL & HK1 & Hid & Hrem & Hloc).
  destruct (offer_applied a lea la ca ctxA HPa HKa Hn b lb cb HFb HPb Hs' Hc eb) as (b1 & HR & HA).
  destruct (answer_made a lea la ca ctxA HPa Hn b leb lb cb ctxB HFb HPb HKb Hr Hs' Hc b1 HA) as (b2 & HL2 & B1 & B2 & B3 & B4 & B5).
  destruct (answer_applied a lea la ca ctxA HPa HKa Hn b leb lb cb ctxB HPb HKb Hs' Hc ea a1 HK1 Hid Hrem Hloc)
    as (a2 & HR2 & A1 & A2 & A3 & A4 & A5).
  destruct (directions_meet (Mode a) (Mode b)) as (_ & _ & D1 & D2); [by destruct HPa|by destruct HPb|].
  exists a1, a2, b1, b2, (offer_body a lea), (answer_body a lea b leb).
  rewrite A2, B2, B1, A1. cbv zeta. by repeat (split; [done|]).
Qed.

End Exchange.

(** *** A concrete exchange *)

(** Contexts that are the keys they were built from. *)
Definition ex_CreateContext (key salt : bytes) (profile : ProtectionProfile) : (bytes * bytes) + error := inl (key, salt).
Definition ex_KeyLen (profile : ProtectionProfile) : Z :=
  match profile with Aes256CmHmacSha1_80 | AeadAes256Gcm => 32 | _ => 16 end.
Definition ex_session (codecs : list Codec) (ip : bytes) (port : Z) (m : string) (answers : bool) :
    @MediaSession.MediaSession unit (bytes * bytes) :=
  session_zero {| Certificates := []; SDPSetupRole := None |}
    <| ms_Codecs := codecs |> <| Laddr := {| ua_IP := Some ip; ua_Port := port; ua_Zone := EmptyString |} |>
    <| Mode := m |> <| SecureRTP := SecureRTPModeSDES |> <| SRTPAlg := Some Aes128CmHmacSha1_80 |>
    <| RemoteSDPIsAnswer := answers |>.
Definition ex_offerer := ex_session [CodecAudioOpus; CodecAudioUlaw; CodecTelephoneEvent8000] [10; 0; 0; 1] 5004 ModeSendonly true.
Definition ex_answerer := ex_session [CodecAudioAlaw; CodecAudioUlaw; CodecTelephoneEvent8000] [10; 0; 0; 2] 6004 ModeSendrecv false.
Definition ex_local (k : Z) : local_env :=
  {| le_savpDisable := false; le_keysalt := repeat k 30; le_tlsID := EmptyString; le_ntp := 7 * 2 ^ 32 |}.
Definition ex_env : env := {| e_tlsID := EmptyString; e_bind := inr (ErrNew "unused"); e_dial := None |}.

Lemma ex_keys k : 0 <= k < 256 -> keys_ok ex_CreateContext (ex_local k) (repeat k 16, repeat k 14).
Proof. intros Hk. split; [|by vm_compute]. cbn [le_keysalt ex_local repeat]. repeat constructor; apply Hk. Qed.

Lemma ex_plain codecs a b c d port m ans : Forall std codecs -> NoDup (PayloadType <$> codecs) -> codecs <> [] ->
  0 < port <= 65535 -> is_mode m = true -> Forall NetIP.byte_ok [a; b; c; d] ->
  Plain (ex_session codecs [a; b; c; d] port m ans) [a; b; c; d] [a; b; c; d].
Proof.
  intros H1 H2 H3 Hp Hm Hb. rewrite !Forall_cons in Hb. destruct Hb as (? & ? & ? & ? & _).
  split; try done; [split; [done|by exists a, b, c, d]|split; [done|by exists a, b, c, d]|by right].
Qed.

Lemma ex_offerer_plain : Plain ex_offerer [10; 0; 0; 1] [10; 0; 0; 1].
Proof.
  apply ex_plain; try done; [| |repeat constructor; done].
  - constructor; [right; right; right; split; [done|by left]|]. constructor; [by left|].
    constructor; [|done]. right; right; right; split; [done|by right].
  - by apply (bool_decide_unpack _); vm_compute.
Qed.
Lemma ex_answerer_plain : Plain ex_answerer [10; 0; 0; 2] [10; 0; 0; 2].
Proof.
  apply ex_plain; try done; [| |repeat constructor; done].
  - constructor; [by right; left|]. constructor; [by left|]. constructor; [|done]. right; right; right; split; [done|by right].
  - by apply (bool_decide_unpack _); vm_compute.
Qed.

Lemma offer_answer_converges_witness : exists a1 a2 b1 b2 offer answer,
  LocalSDP (fun _ : unit => inl EmptyString) ex_CreateContext ex_KeyLen (ex_local 1) ex_offerer = (a1, offer) /\
  RemoteSDP (fun _ : unit => inl EmptyString) ex_CreateContext (fun _ => true) false ex_env offer ex_answerer = (b1, Ok) /\
  LocalSDP (fun _ : unit => inl EmptyString) ex_CreateContext ex_KeyLen (ex_local 2) b1 = (b2, answer) /\
  RemoteSDP (fun _ : unit => inl EmptyString) ex_CreateContext (fun _ => true) false ex_env answer a1 = (a2, Ok) /\
  activeCodecs a2 = [CodecAudioUlaw; CodecTelephoneEvent8000].
Proof.
  destruct (offer_answer_converges (fun _ : unit => inl EmptyString) ex_CreateContext ex_KeyLen (fun _ => true) eq_refl
    ex_offerer ex_answerer (ex_local 1) (ex_local 2) ex_env ex_env [10; 0; 0; 1] [10; 0; 0; 1] [10; 0; 0; 2] [10; 0; 0; 2]
    (repeat 1 16, repeat 1 14) (repeat 2 16, repeat 2 14))
    as (a1 & a2 & b1 & b2 & offer & answer & H1 & H2 & H3 & H4 & H5 & _);
    [done|done|exact ex_offerer_plain|exact ex_answerer_plain|by apply ex_keys|by apply ex_keys|done|done|done|by vm_compute|].
  exists a1, a2, b1, b2, offer, answer. repeat (split; [assumption|]). rewrite H5. vm_compute. reflexivity.
Defined.

End MediaExchange.
