(* ===== verification/MediaLifecycle.v ===== *)
(** * The media session: sockets, finalization and media

    The rest of [media/media_session.go] that changes a session: [Init] and the
    binding of its sockets ([createListeners], [listen]), [InitWithSDP], [Fork],
    [Close], the RTP deadlines; the finalization of a negotiation
    ([FinalizeContext], [FinalizeWithin], the run they share and the handshake
    that keys SRTP); and [ReadRTP], [WriteRTP], [WriteRTCP]. The operating system's
    sockets, the ICE agent, the DTLS handshake and SRTP are arguments. *)
From S2P Require Import Prelude GoStrings NetIP Sdp Rtp Codec MediaSdp MediaSession.
Import GoStrings NetIP Sdp Codecs MediaSdp MediaSession.

Module MediaLifecycle.

Section Lifecycle.
Context {cert : Type} {srtp_ctx : Type}.
Context (dtlsSHA256Fingerprint : cert -> string + error).
Context (CreateContext : bytes -> bytes -> ProtectionProfile -> srtp_ctx + error).
Abbreviation session := (@MediaSession.MediaSession cert srtp_ctx).

(** ** Binding sockets *)

(** [net.ListenUDP] on the [n]th call: the address and the socket bound. *)
Context (ListenUDP : nat -> IP -> Z -> (UDPAddr * nat) + error).

(** A failed [ListenUDP] leaves the nil [*net.UDPConn] it returned in the
    interface, which is not a nil interface. *)
Definition nil_conn : nat := 0.

Definition listenICE (n : nat) (laddr : UDPAddr) (s : session) : nat * session * option error :=
  match ListenUDP n (ua_IP laddr) (ua_Port laddr) with
  | inr e => (S n, s, Some e)
  | inl (addr, conn) => (S n, s <| iceUDPConn := Some conn |> <| Laddr := addr |> <| rtcpMux := true |>, None)
  end.

Definition listenRTPandRTCP (n : nat) (laddr : UDPAddr) (s : session) : nat * session * option error :=
  match ListenUDP n (ua_IP laddr) (ua_Port laddr) with
  | inr e => (S n, s <| rtpConn := Some nil_conn |>, Some e)
  | inl (addr, rtp) =>
    let s := s <| rtpConn := Some rtp |> in
    match ListenUDP (S n) (ua_IP addr) (ua_Port addr + 1) with
    | inr e => (S (S n), s <| rtcpConn := Some nil_conn |> <| closedConns := closedConns s ++ [rtp] |>, Some e)
    | inl (_, rtcp) => (S (S n), s <| rtcpConn := Some rtcp |> <| Laddr := addr |>, None)
    end
  end.

Definition listen (n : nat) (laddr : UDPAddr) (s : session) : nat * session * option error :=
  if iceEnabled s then listenICE n laddr s else listenRTPandRTCP n laddr s.

(** The port range loop. [own] says that [laddr] is the session's own [Laddr],
    which the loop then writes. It returns the port it stopped at. *)
Fixpoint listen_range (fuel : nat) (own : bool) (port rtpPortEnd : Z) (n : nat) (laddr : UDPAddr) (err : option error)
    (s : session) : nat * session * Z * option error :=
  match fuel with
  | O => (n, s, port, err)
  | S fuel =>
    if port <? rtpPortEnd then
      let laddr := {| ua_IP := ua_IP laddr; ua_Port := port; ua_Zone := ua_Zone laddr |} in
      let s := if own then s <| Laddr := laddr |> else s in
      match listen n laddr s with
      | (n, s, None) => (n, s, port, None)
      | (n, s, Some e) => listen_range fuel own (port + 2) rtpPortEnd n laddr (Some e) s
      end
    else (n, s, port, err)
  end.

Fixpoint listen_retry (retries : nat) (n : nat) (laddr : UDPAddr) (err : option error) (s : session) :
    nat * session * option error :=
  match retries with
  | O => (n, s, err)
  | S retries =>
    match listen n laddr s with
    | (n, s, None) => (n, s, None)
    | (n, s, Some e) => listen_retry retries n laddr (Some e) s
    end
  end.

(** The package's port range, and the offset the next search starts at. *)
Record ports := { RTPPortStart : Z; RTPPortEnd : Z; rtpPortOffset : Z }.

Definition createListeners (own : bool) (laddr : UDPAddr) (p : ports) (n : nat) (s : session) :
    ports * nat * session * option error :=
  if negb (ua_Port laddr =? 0) then
    let '(n, s, err) := listen n laddr s in (p, n, s, err)
  else if (0 <? RTPPortStart p) && (RTPPortStart p <? RTPPortEnd p) then
    let port := RTPPortStart p + rtpPortOffset p in
    match listen_range (Z.to_nat (RTPPortEnd p - port)) own port (RTPPortEnd p) n laddr None s with
    | (n, s, _, Some e) => (p, n, s, Some (ErrWrap "no available ports in range" e))
    | (n, s, port, None) =>
      let offset := Z.rem (port + 2 - RTPPortStart p) (RTPPortEnd p - RTPPortStart p) in
      ({| RTPPortStart := RTPPortStart p; RTPPortEnd := RTPPortEnd p; rtpPortOffset := i32 offset |}, n, s, None)
    end
  else
    let '(n, s, err) := listen_retry 10 n laddr None s in (p, n, s, err).

(** ** Building a session *)

(** What [Init] asks of others: the check of the certificates, the ICE agent and
    its [Init]. *)
Record init_env := { ie_certs : option error; ie_agent : ICEAgent + error; ie_agentInit : option error }.

Definition initICE (ie : init_env) (s : session) : session * option error :=
  match ie_agent ie with
  | inr e =>
    (s <| closedConns := closedConns s ++ option_list (iceUDPConn s) |> <| iceUDPConn := None |>,
     Some (ErrWrap "media session: ice agent" e))
  | inl agent =>
    match ie_agentInit ie with
    | Some e =>
      (s <| closedConns := closedConns s ++ option_list (iceUDPConn s) |> <| iceUDPConn := None |>,
       Some (ErrWrap "media session: ice init" e))
    | None => (s <| iceAgent := Some agent |>, None)
    end
  end.

Definition Init (ie : init_env) (p : ports) (n : nat) (s : session) : ports * nat * session * option error :=
  match ms_Codecs s with
  | [] => (p, n, s, Some (ErrNew "media session: formats can not be empty"))
  | _ =>
    if String.eqb (Mode s) EmptyString then (p, n, s, Some (ErrNew "media session: mode must be set"))
    else match ua_IP (Laddr s) with
    | None => (p, n, s, Some (ErrNew "media session: local addr must be set"))
    | Some _ =>
      let s := if negb (bool_decide (SecureRTP s = SecureRTPModeNone)) && bool_decide (SRTPAlg s = None)
               then s <| SRTPAlg := Some Aes128CmHmacSha1_80 |> else s in
      match if bool_decide (SecureRTP s = SecureRTPModeDTLS) then ie_certs ie else None with
      | Some e => (p, n, s, Some (ErrWrap "media session" e))
      | None =>
        let s := match rtpConn s with Some _ => s <| ExternalIP := None |> | None => s end in
        match createListeners true (Laddr s) p n s with
        | (p, n, s, Some e) => (p, n, s, Some e)
        | (p, n, s, None) =>
          if iceEnabled s then let '(s, err) := initICE ie s in (p, n, s, err) else (p, n, s, None)
        end
      end
    end
  end.

Definition NewMediaSession (ie : init_env) (p : ports) (n : nat) (ip : IP) (port : Z) (c : DTLSConfig) :
    ports * nat * session * option error :=
  Init ie p n (session_zero c <| ms_Codecs := [CodecAudioUlaw; CodecAudioAlaw; CodecTelephoneEvent8000] |>
    <| Mode := ModeSendrecv |> <| Laddr := {| ua_IP := ip; ua_Port := port; ua_Zone := EmptyString |} |>).

Definition InitWithSDP (localSDP : string) (s : session) : session * outcome :=
  let s := s <| ms_sdp := localSDP |> in
  match UnmarshalSections localSDP with
  | (_, Some err) => (s, Err (ErrWrap "fail to parse received SDP" err))
  | (sections, None) =>
    match audioStream (Media <$> sec_Media sections) with
    | None => (s, Err (ErrWrap "no audio media description" ErrNoCommonMedia))
    | Some audio =>
      match sec_Media sections !! audio, Description sections audio with
      | Some sec, Some sd =>
        match sd_ConnectionInformation sd with
        | inr e => (s, Err e)
        | inl ci =>
          let s := s <| Laddr := {| ua_IP := ci_IP ci; ua_Port := Port (Media sec); ua_Zone := EmptyString |} |>
                     <| Mode := ModeSendrecv |> in
          match CodecsFromSDPRead (Formats (Media sec)) (Values sd "a") (length (Formats (Media sec))) with
          | None => (s, Panic)
          | Some codecs => (s <| ms_Codecs := codecs |>, Ok)
          end
        end
      | _, _ => (s, Panic)
      end
    end
  end.

Definition Fork (s : session) : session :=
  let cp := session_zero (DTLSConf s)
    <| Laddr := Laddr s |> <| rtpConn := rtpConn s |> <| rtcpConn := rtcpConn s |> <| ms_Codecs := ms_Codecs s |>
    <| Mode := Mode s |> <| RTPNAT := RTPNAT s |> <| ms_sdp := ms_sdp s |> <| sessionID := sessionID s |>
    <| sessionVersion := sessionVersion s |> <| ICEConf := ICEConf s |> <| DTLSRole := DTLSRole s |>
    <| rtcpMux := rtcpMux s |> <| ExternalIP := ExternalIP s |> <| RemoteSDPIsAnswer := RemoteSDPIsAnswer s |>
    <| localTLSID := localTLSID s |> <| SecureRTP := SecureRTP s |> <| SRTPAlg := SRTPAlg s |>
    <| ms_streams := ms_streams s |> <| ms_establishedICE := ms_establishedICE s |> <| closedConns := closedConns s |> in
  match dtlsAssoc s with
  | Some a => cp <| dtlsAssoc := Some a |> <| localCtxSRTP := localCtxSRTP s |> <| remoteCtxSRTP := remoteCtxSRTP s |>
                 <| dtlsKeyed := true |>
  | None => cp
  end.

(** ** Deadlines *)

(** A deadline set on a socket: for reading, for writing. *)
Record deadline_call := { dc_conn : option nat; dc_read : bool; dc_write : bool; dc_time : Z }.

Definition setRTPDeadline (rw t : Z) (s : session) : session * deadline_call :=
  if 0 <? Z.land rw 1 then
    (s <| rtpReadDeadline := t |>, {| dc_conn := rtpConn s; dc_read := true; dc_write := false; dc_time := t |})
  else if 0 <? Z.land rw 2 then
    (s <| rtpWriteDeadline := t |>, {| dc_conn := rtpConn s; dc_read := false; dc_write := true; dc_time := t |})
  else
    (s <| rtpReadDeadline := t |> <| rtpWriteDeadline := t |>,
     {| dc_conn := rtpConn s; dc_read := true; dc_write := true; dc_time := t |}).

Definition StopRTP (now rw dur : Z) (s : session) := setRTPDeadline rw (now + dur) s.
Definition StartRTP (rw : Z) (s : session) := setRTPDeadline rw time_zero s.

Definition CarryRTPDeadlines (from s : session) : session * list deadline_call :=
  let s' := s <| rtpReadDeadline := rtpReadDeadline from |> <| rtpWriteDeadline := rtpWriteDeadline from |> in
  if bool_decide (rtpConn from = rtpConn s) then (s', [])
  else (s', [{| dc_conn := rtpConn s; dc_read := true; dc_write := false; dc_time := rtpReadDeadline from |};
             {| dc_conn := rtpConn s; dc_read := false; dc_write := true; dc_time := rtpWriteDeadline from |}]).

(** ** Finalization *)

(** What the peer and the stacks make of one negotiation: the nominated pair,
    the DTLS conn, the handshake, its close, the exported keying material. *)
Record handshake := {
  hs_connect : (UDPAddr * nat * nat) + error;
  hs_dial : option error;
  hs_handshake : option error;
  hs_close : option error;
  hs_state : bool;
  hs_profile : ProtectionProfile;
  hs_keyLen : Z + error;
  hs_saltLen : Z + error;
  hs_keyingMaterial : Z -> bytes + error }.

Definition startICE (h : handshake) (s : session) : session * option error :=
  match iceAgent s with
  | None => (s, Some (ErrNew "media session: ICE connectivity checks need an agent, this session has none"))
  | Some _ =>
    match hs_connect h with
    | inr e => (s, Some e)
    | inl (raddr, rtp, rtcp) =>
      (SetRemoteAddr raddr s <| rtcpRaddr := raddr |> <| rtpConn := Some rtp |> <| rtcpConn := Some rtcp |>, None)
    end
  end.

(** The keys of both directions: ours first. *)
Definition splitKeyingMaterial (client : bool) (keyLen saltLen : Z) (km : bytes) : bytes * bytes * bytes * bytes :=
  let k := Z.to_nat keyLen in
  let sl := Z.to_nat saltLen in
  let clientKey := take k km in
  let serverKey := take k (drop k km) in
  let clientSalt := take sl (drop (2 * k) km) in
  let serverSalt := drop (2 * k + sl) km in
  if client then (clientKey, clientSalt, serverKey, serverSalt) else (serverKey, serverSalt, clientKey, clientSalt).

(** After the handshake: the contexts and the records. A slice out of the
    exported material cannot fail, since it has the length asked for. *)
Definition keySRTP (h : handshake) (a : armed) (s : session) : session * option error :=
  match hs_keyLen h, hs_saltLen h with
  | inr e, _ => (s, Some (ErrWrap "dtls - failed to get master keylen" e))
  | _, inr e => (s, Some (ErrWrap "dtls - failed to get master saltlen" e))
  | inl keyLen, inl saltLen =>
    match hs_keyingMaterial h (2 * (keyLen + saltLen)) with
    | inr e => (s, Some (ErrWrap "dtls - failed to export keying material" e))
    | inl km =>
      let '(localKey, localSalt, remoteKey, remoteSalt) := splitKeyingMaterial (ar_client a) keyLen saltLen km in
      match CreateContext localKey localSalt (hs_profile h) with
      | inr e => (s <| localCtxSRTP := None |>, Some (ErrWrap "failed to create SRTP context" e))
      | inl localCtx =>
        let s := s <| localCtxSRTP := Some localCtx |> in
        match CreateContext remoteKey remoteSalt (hs_profile h) with
        | inr e => (s <| remoteCtxSRTP := None |>, Some (ErrWrap "failed to create SRTP context" e))
        | inl remoteCtx =>
          let s := s <| remoteCtxSRTP := Some remoteCtx |> <| dtlsAssoc := Some (ar_assoc a) |> in
          let s :=
            if iceEnabled s then
              match iceAgent s with
              | Some agent => s <| ms_establishedICE := Some {| ei_local := agentICESetup agent s;
                                     ei_remoteUfrag := remoteICEUfrag s; ei_remotePwd := remoteICEPwd s |} |>
              | None => s
              end
            else s in
          (s <| dtlsKeyed := true |> <| dtlsUnkeyed := false |>, None)
        end
      end
    end
  end.

(** The negotiation [armDTLSHandshake] arms. *)
Definition runNegotiation (h : handshake) (a : armed) (s : session) : session * option error :=
  let '(s, err) :=
    if iceEnabled s then
      match startICE h s with
      | (s, Some e) => (s, Some e)
      | (s, None) => (s, match hs_dial h with Some e => Some (ErrWrap "failed to setup dlts conn" e) | None => None end)
      end
    else (s, None) in
  match err with
  | Some e => (s, Some e)
  | None =>
    match hs_handshake h with
    | Some e => (s, Some (ErrWrap "dtls conn handshake" e))
    | None =>
      match hs_close h with
      | Some e => (s, Some (ErrWrap "dtls conn close" e))
      | None =>
        if hs_state h then keySRTP h a s else (s, Some (ErrNew "failed to get dtls client state"))
      end
    end
  end.

Definition startFinalizeRun (a : armed) (s : session) : session :=
  s <| onFinalize := None |> <| ms_finalizeRun := Some {| fr_armed := a; fr_done := None |} |> <| dtlsUnkeyed := true |>.

(** The goroutine of a run: it returns with what [h] makes of it. *)
Definition negotiate (h : handshake) (s : session) : session :=
  match ms_finalizeRun s with
  | Some {| fr_armed := a; fr_done := None |} =>
    let '(s, err) := runNegotiation h a s in
    s <| ms_finalizeRun := Some {| fr_armed := a; fr_done := Some err |} |>
  | _ => s
  end.

(** [endFinalizeRun] of a run that has returned [err]. *)
Definition endFinalizeRun (err : option error) (s : session) : session * option error :=
  (match err with
   | Some e => s <| ms_finalizeRun := None |> <| finalizeErr := Some e |>
   | None => s <| ms_finalizeRun := None |>
   end, err).

(** How a wait for a run ends: with the run, or with the context or the bound
    ([stop]) after which the canceled run returns with what [h] makes of it. *)
Inductive wait := RunDone | Stopped (stop : error) (h : handshake).

(** [None]: the run has not returned, and the caller waits on. *)
Definition awaitFinalizeRun (w : wait) (run : finalizeRun) (s : session) : option (session * option error) :=
  match w with
  | RunDone =>
    match fr_done run with
    | Some err => Some (endFinalizeRun err s)
    | None => None
    end
  | Stopped stop h =>
    let s := negotiate h s in
    match ms_finalizeRun s with
    | Some {| fr_done := Some err |} =>
      let '(s, err) := endFinalizeRun err s in Some (s, match err with None => None | Some _ => Some stop end)
    | _ => None
    end
  end.

Definition FinalizeContext (w : wait) (h : handshake) (s : session) : option (session * option error) :=
  match ms_finalizeRun s with
  | Some run => awaitFinalizeRun w run s
  | None =>
    match finalizeErr s with
    | Some e => Some (s, Some e)
    | None =>
      match onFinalize s with
      | Some a => let '(s, err) := runNegotiation h a s in Some (s <| onFinalize := None |>, err)
      | None => Some (s, None)
      end
    end
  end.

(** [within] is what the run makes of the wait: [Some h] when it returns in
    time. The result is the session with [ErrFinalizeInProgress], or with the
    result of the run. *)
Definition FinalizeWithin (within : option handshake) (s : session) : session * option error :=
  let wait_for s :=
    let s := match within with Some h => negotiate h s | None => s end in
    match ms_finalizeRun s with
    | Some {| fr_done := Some err |} => endFinalizeRun err s
    | _ => (s, Some ErrFinalizeInProgress)
    end in
  match ms_finalizeRun s with
  | Some _ => wait_for s
  | None =>
    match finalizeErr s with
    | Some e => (s, Some e)
    | None =>
      match onFinalize s with
      | None => (s, None)
      | Some a => wait_for (startFinalizeRun a s)
      end
    end
  end.

Definition FinalizePending (s : session) : bool :=
  bool_decide (is_Some (onFinalize s)) || bool_decide (is_Some (ms_finalizeRun s)).

(** [h] is what a run that is canceled returns with. *)
Definition Close (h : handshake) (s : session) : session :=
  let s := negotiate h s in
  let s := match ms_finalizeRun s with
           | Some {| fr_done := Some err |} => (endFinalizeRun err s).1
           | _ => s
           end in
  closeConns s.

End Lifecycle.

End MediaLifecycle.
