(* ===== verification/MediaIO.v ===== *)
(** * The media session: packets in and out

    [ReadRTP], [ReadRTCP], [WriteRTP], [WriteRTCP], [WriteRTCPs] and the NAT
    handling of [media/media_session.go], and the parsing of
    [media/rtp_parse.go]. The sockets' packets are an argument, in the order they
    arrive; pion's codecs and the SRTP transforms are arguments of the section. *)
From S2P Require Import Prelude GoStrings NetIP Sdp Rtp Codec MediaSdp MediaSession.
Import GoStrings NetIP Sdp Codecs MediaSdp MediaSession.

Module MediaIO.

Definition RTPBufSize : Z := 1500.
Definition RTPNATSymetric : Z := 1.
Definition errRTPPayloadTooSmall : error := ErrNew "rtp: payload size is too small".
Definition errRTCPFailedToUnmarshal : error := ErrNew "rtcp: failed to unmarshal".

(** [net.JoinHostPort] and [UDPAddr.String]. *)
Definition has_colon (s : string) : bool := negb (str_forall (not_char ":") s).
Definition JoinHostPort (host port : string) : string :=
  if has_colon host then "[" +:+ host +:+ "]:" +:+ port else host +:+ ":" +:+ port.
Definition addr_String (a : UDPAddr) : string :=
  let ip := match ua_IP a with None => EmptyString | ip => IP_String ip end in
  JoinHostPort (if String.eqb (ua_Zone a) EmptyString then ip else ip +:+ "%" +:+ ua_Zone a) (Itoa (ua_Port a)).

(** ** rtp_parse.go *)

Section Parse.
Context (MarshalSize : rtp_header -> Z).

Definition rtpUnmarshalPayload (buf : bytes) (h : rtp_header) : rtp_packet + error :=
  let n := MarshalSize h in
  let end_ := len buf in
  if Padding h && (end_ <=? n) then inr errRTPPayloadTooSmall else
  let paddingSize := if Padding h then nth (Z.to_nat (end_ - 1)) buf 0 else 0 in
  let end_ := end_ - paddingSize in
  if end_ <? n then inr errRTPPayloadTooSmall
  else inl {| Header := h <| PaddingSize := paddingSize |>;
              Payload := take (Z.to_nat (end_ - n)) (drop (Z.to_nat n) buf) |}.

(** RTCP: pion's header and the packets of each type. *)
Context {rtcp_packet : Type}.
Context (HeaderUnmarshal : bytes -> (Z * Z) + error).
Context (PacketUnmarshal : Z -> bytes -> rtcp_packet + error).

(** [room] is what is left of the caller's slice. *)
Fixpoint RTCPUnmarshal (data : bytes) (room : nat) : list rtcp_packet + error :=
  match room, data with
  | O, _ | _, [] => inl []
  | S room, _ =>
    match HeaderUnmarshal data with
    | inr e => inr (ErrJoin e errRTCPFailedToUnmarshal)
    | inl (htype, length) =>
      let pktLen := u16 (length + 1) * 4 in
      if len data <? pktLen then inr (ErrWrap "packet too short" errRTCPFailedToUnmarshal) else
      match PacketUnmarshal htype (take (Z.to_nat pktLen) data) with
      | inr e => inr e
      | inl p =>
        match RTCPUnmarshal (drop (Z.to_nat pktLen) data) room with
        | inl ps => inl (p :: ps)
        | inr e => inr e
        end
      end
    end
  end.

End Parse.

Section IO.
Context {cert : Type} {srtp_ctx rtcp_packet : Type}.
Abbreviation session := (@MediaSession.MediaSession cert srtp_ctx).

Context (Unmarshal : bytes -> rtp_packet + error) (MarshalSize : rtp_header -> Z).
Context (Marshal : rtp_packet -> bytes + error).
Context (DecryptRTP : srtp_ctx -> bytes -> (bytes * rtp_header) + error).
Context (EncryptRTP : srtp_ctx -> bytes -> rtp_header -> bytes + error).
Context (HeaderUnmarshal : bytes -> (Z * Z) + error) (PacketUnmarshal : Z -> bytes -> rtcp_packet + error).
Context (rtcpMarshal : list rtcp_packet -> bytes + error) (PacketMarshal : rtcp_packet -> bytes + error).
Context (DecryptRTCP EncryptRTCP : srtp_ctx -> bytes -> bytes + error).

(** What a read of a socket returns. *)
Inductive arrival := Datagram (data : bytes) (from : UDPAddr) | ReadErr (e : error).

(** Whether [ReadRTP] and [ReadRTCP] discard everything. *)
Definition notKeyed (s : session) : bool := dtlsSRTP s && negb (dtlsKeyed s).

(** Learning the source of RTP behind NAT. *)
Definition learnRTPFrom (from : UDPAddr) (pkt : rtp_packet) (s : session) : session :=
  if (RTPNAT s =? RTPNATSymetric) && negb (String.eqb (addr_String from) (addr_String (Raddr s))) then
    if negb (Version (Header pkt) =? 2) then s
    else match learnedRTPFrom s with
         | None => s <| learnedRTPFrom := Some from |>
         | Some _ => s
         end
  else s.

(** The result of a read: the count, the packet filled in, and the error. *)
Record read_result := { rr_n : Z; rr_pkt : option rtp_packet; rr_from : option UDPAddr; rr_err : option error }.

Definition received (s : session) (n : Z) (from : UDPAddr) (pkt : rtp_packet) : session * read_result :=
  let s := learnRTPFrom from pkt s in
  (s, {| rr_n := if String.eqb (mode s) ModeSendonly then 0 else n; rr_pkt := Some pkt; rr_from := Some from; rr_err := None |}).

Definition failed (n : Z) (e : error) : read_result := {| rr_n := n; rr_pkt := None; rr_from := None; rr_err := Some e |}.

(** The loop of [ReadRTP]: [None] while it waits for a packet. It returns the
    arrivals left as well. *)
Fixpoint readRTP_loop (arrivals : list arrival) (s : session) : option (session * read_result * list arrival) :=
  match arrivals with
  | [] => None
  | ReadErr e :: rest => Some (s, failed 0 e, rest)
  | Datagram data from :: rest =>
    if notKeyed s then readRTP_loop rest s else
    match remoteCtxSRTP s with
    | None =>
      match Unmarshal data with
      | inr e => Some (s, failed (len data) e, rest)
      | inl pkt => Some (received s (len data) from pkt, rest)
      end
    | Some ctx =>
      match DecryptRTP ctx data with
      | inr _ => readRTP_loop rest (s <| srtpAuthFailures := u64 (srtpAuthFailures s + 1) |>)
      | inl (decrypted, h) =>
        match rtpUnmarshalPayload MarshalSize decrypted h with
        | inr e => Some (s, failed (len decrypted) (ErrWrap "rtp unmarshal failed" e), rest)
        | inl pkt => Some (received s (len decrypted) from pkt, rest)
        end
      end
    end
  end.

Definition ReadRTP (bufLen : Z) (arrivals : list arrival) (s : session) : option (session * read_result * list arrival) :=
  if bufLen <? RTPBufSize then Some (s, failed 0 io_ErrShortBuffer, arrivals) else readRTP_loop arrivals s.

(** ** RTCP in *)

Definition learnRTCPFrom (from : UDPAddr) (s : session) : session :=
  if (RTPNAT s =? RTPNATSymetric) && negb (String.eqb (addr_String from) (addr_String (rtcpRaddr s))) then
    match learnedRTCPFrom s, learnedRTPFrom s with
    | None, Some _ => s <| learnedRTCPFrom := Some from |>
    | _, _ => s
    end
  else s.

Definition parseRTCP (data : bytes) (from : UDPAddr) (room : nat) (s : session) : session * (list rtcp_packet + error) :=
  match RTCPUnmarshal HeaderUnmarshal PacketUnmarshal data room with
  | inr e => (s, inr e)
  | inl pkts => (learnRTCPFrom from s, inl pkts)
  end.

Fixpoint readRTCP_loop (arrivals : list arrival) (room : nat) (s : session) :
    option (session * (list rtcp_packet + error) * list arrival) :=
  match arrivals with
  | [] => None
  | ReadErr e :: rest => Some (s, inr e, rest)
  | Datagram data from :: rest =>
    if notKeyed s then readRTCP_loop rest room s else
    match remoteCtxSRTP s with
    | None => Some (parseRTCP data from room s, rest)
    | Some ctx =>
      match DecryptRTCP ctx data with
      | inr _ => readRTCP_loop rest room s
      | inl decrypted => Some (parseRTCP decrypted from room s, rest)
      end
    end
  end.

Definition ReadRTCP (arrivals : list arrival) (room : nat) (s : session) :
    option (session * (list rtcp_packet + error) * list arrival) :=
  match rtcpConn s with
  | None => Some (s, inr (ErrNew "no connection present"), arrivals)
  | Some _ => readRTCP_loop arrivals room s
  end.

(** ** Out *)

(** A write puts one datagram on the wire, or none. [sent] is what the socket
    made of it: the count written. *)
Record datagram := { dg_conn : option nat; dg_data : bytes; dg_to : UDPAddr }.
Record write_result := { wr_wire : option datagram; wr_err : option error }.
Definition refused (e : option error) : write_result := {| wr_wire := None; wr_err := e |}.

(** The check of a write that returned: an error of the socket, a short write. *)
Definition written (d : datagram) (sent : Z + error) : write_result :=
  match sent with
  | inr e => {| wr_wire := None; wr_err := Some e |}
  | inl n => {| wr_wire := Some d; wr_err := if n =? len (dg_data d) then None else Some io_ErrShortWrite |}
  end.

Definition rtpDest (s : session) : UDPAddr :=
  if RTPNAT s =? RTPNATSymetric then default (Raddr s) (learnedRTPFrom s) else Raddr s.
Definition rtcpDest (s : session) : UDPAddr :=
  if RTPNAT s =? RTPNATSymetric then default (rtcpRaddr s) (learnedRTCPFrom s) else rtcpRaddr s.

Definition WriteRTP (p : rtp_packet) (sent : Z + error) (s : session) : write_result :=
  if dtlsUnkeyed s then refused (Some ErrDTLSNotKeyed)
  else if String.eqb (mode s) ModeRecvonly then refused None
  else match Marshal p with
  | inr e => refused (Some (ErrWrap "failed to marshal to write RTP buf" e))
  | inl data =>
    match match localCtxSRTP s with Some ctx => EncryptRTP ctx data (Header p) | None => inl data end with
    | inr e => refused (Some (ErrWrap "failed to encrypt written RTP" e))
    | inl data => written {| dg_conn := rtpConn s; dg_data := data; dg_to := rtpDest s |} sent
    end
  end.

Definition writeRTCPData (data : bytes) (sent : Z + error) (s : session) : write_result :=
  match match localCtxSRTP s with Some ctx => EncryptRTCP ctx data | None => inl data end with
  | inr e => refused (Some e)
  | inl data => written {| dg_conn := rtcpConn s; dg_data := data; dg_to := rtcpDest s |} sent
  end.

Definition WriteRTCPs (pkts : list rtcp_packet) (sent : Z + error) (s : session) : write_result :=
  if dtlsUnkeyed s then refused (Some ErrDTLSNotKeyed)
  else match rtcpMarshal pkts with
  | inr e => refused (Some e)
  | inl data => writeRTCPData data sent s
  end.
Definition WriteRTCP (p : rtcp_packet) (sent : Z + error) (s : session) : write_result :=
  if dtlsUnkeyed s then refused (Some ErrDTLSNotKeyed)
  else match PacketMarshal p with
  | inr e => refused (Some e)
  | inl data => writeRTCPData data sent s
  end.

End IO.

End MediaIO.
