(* ===== verification/MediaSecurity.v ===== *)
(** * The media session: what keeps the media protected

    Theorems on the finalization of a DTLS negotiation and the packets read and
    written around it, on what [RemoteSDP] accepts, on the DTLS roles and the
    continuation of an association. *)
From S2P Require Import Prelude GoStrings NetIP Sdp Rtp Codec MediaSdp MediaSession MediaLifecycle MediaIO.
Import GoStrings NetIP Sdp Codecs MediaSdp MediaSession MediaLifecycle MediaIO.

Module MediaSecurity.

Section Security.
Context {cert srtp_ctx rtcp_packet : Type}.
Context (dtlsSHA256Fingerprint : cert -> string + error).
Context (CreateContext : bytes -> bytes -> ProtectionProfile -> srtp_ctx + error).
Context (candidate_ok : string -> bool).
Abbreviation session := (@MediaSession.MediaSession cert srtp_ctx).

(** ** A negotiation left running *)

(** What may happen to a session whose negotiation [FinalizeWithin] runs. *)
Inductive fevent :=
| Within (within : option handshake)
| Returns (h : handshake)
| Await (w : wait) (h : handshake)
| Closed (h : handshake).

(** A call that waits on leaves the session as it is. *)
Definition fstep (e : fevent) (s : session) : session :=
  match e with
  | Within w => (FinalizeWithin CreateContext w s).1
  | Returns h => negotiate CreateContext h s
  | Await w h => match FinalizeContext CreateContext w h s with Some (t, _) => t | None => s end
  | Closed h => Close CreateContext h s
  end.
Definition fsteps (es : list fevent) (s : session) : session := fold_left (fun s e => fstep e s) es s.

Definition keyedSession (s : session) : Prop :=
  dtlsKeyed s = true /\ is_Some (localCtxSRTP s) /\ is_Some (remoteCtxSRTP s) /\ is_Some (dtlsAssoc s).

(** A session after [FinalizeWithin] has taken the armed negotiation. *)
Definition RunInv (s : session) : Prop :=
  onFinalize s = None /\
  match ms_finalizeRun s with
  | Some run =>
    match fr_done run with
    | Some None => keyedSession s
    | _ => dtlsUnkeyed s = true
    end
  | None => match finalizeErr s with Some _ => dtlsUnkeyed s = true | None => keyedSession s end
  end.

Lemma keySRTP_keyed h a (s : session) : (keySRTP CreateContext h a s).2 = None -> keyedSession (keySRTP CreateContext h a s).1.
Proof.
  unfold keySRTP. destruct (hs_keyLen h), (hs_saltLen h); try done. destruct (hs_keyingMaterial h _); [|done].
  destruct (splitKeyingMaterial _ _ _ _) as [[[lk ls] rk] rs]. destruct (CreateContext lk ls _) as [c|]; [|done].
  destruct (CreateContext rk rs _) as [d|]; [|done]. intros _. unfold keyedSession.
  destruct (iceEnabled _); [destruct (iceAgent _)|]; cbn; eauto.
Qed.

(** What a negotiation leaves alone. *)
Record SameRun (s t : session) : Prop := {
  sr_fin : onFinalize t = onFinalize s; sr_run : ms_finalizeRun t = ms_finalizeRun s; sr_err : finalizeErr t = finalizeErr s }.

Lemma keySRTP_same h a (s : session) : SameRun s (keySRTP CreateContext h a s).1 /\
  ((keySRTP CreateContext h a s).2 <> None -> dtlsUnkeyed (keySRTP CreateContext h a s).1 = dtlsUnkeyed s).
Proof.
  unfold keySRTP. destruct (hs_keyLen h), (hs_saltLen h); try done. destruct (hs_keyingMaterial h _); [|done].
  destruct (splitKeyingMaterial _ _ _ _) as [[[lk ls] rk] rs]. destruct (CreateContext lk ls _) as [c|]; [|done].
  destruct (CreateContext rk rs _) as [d|]; [|done]. destruct (iceEnabled _); [destruct (iceAgent _)|]; done.
Qed.

Lemma runNegotiation_spec h a (s : session) : let r := runNegotiation CreateContext h a s in
  SameRun s r.1 /\ match r.2 with None => keyedSession r.1 | Some _ => dtlsUnkeyed r.1 = dtlsUnkeyed s end.
Proof.
  unfold runNegotiation.
  assert (SameRun s (startICE h s).1 /\ dtlsUnkeyed (startICE h s).1 = dtlsUnkeyed s) as [HI HIu].
  { unfold startICE. destruct (iceAgent s); [|done]. by destruct (hs_connect h) as [[[]]|]. }
  assert (forall u : session, SameRun s u -> dtlsUnkeyed u = dtlsUnkeyed s ->
    let r := match hs_handshake h with
             | Some e => (u, Some (ErrWrap "dtls conn handshake" e))
             | None => match hs_close h with
                       | Some e => (u, Some (ErrWrap "dtls conn close" e))
                       | None => if hs_state h then keySRTP CreateContext h a u else (u, Some (ErrNew "failed to get dtls client state"))
                       end
             end in
    SameRun s r.1 /\ match r.2 with None => keyedSession r.1 | Some _ => dtlsUnkeyed r.1 = dtlsUnkeyed s end) as Hrest.
  { intros u Hu Huu. destruct (hs_handshake h); [done|]. destruct (hs_close h); [done|]. destruct (hs_state h); [|done].
    pose proof (keySRTP_keyed h a u) as HK. destruct (keySRTP_same h a u) as [[E1 E2 E3] HS]. destruct Hu as [F1 F2 F3].
    cbv zeta. split; [split; congruence|]. destruct (keySRTP CreateContext h a u).2 eqn:E; [rewrite HS by done; done|auto]. }
  destruct (iceEnabled s); [|by apply Hrest].
  destruct (startICE h s) as [u [e|]]; [done|]. cbn [fst] in *. destruct (hs_dial h); [done|]. by apply Hrest.
Qed.

Lemma negotiate_inv h (s : session) : RunInv s -> RunInv (negotiate CreateContext h s) /\
  (forall run, ms_finalizeRun s = Some run -> exists err, ms_finalizeRun (negotiate CreateContext h s) = Some {| fr_armed := fr_armed run; fr_done := Some err |}).
Proof.
  intros [Hf Hr]. unfold negotiate. destruct (ms_finalizeRun s) as [[a [err|]]|] eqn:E.
  - rewrite E. split; [unfold RunInv; by rewrite E|]. intros run [= <-]. by exists err.
  - pose proof (runNegotiation_spec h a s) as [[E1 E2 E3] HS].
    destruct (runNegotiation CreateContext h a s) as [t err]. cbn [fst snd] in *. cbn [fr_done] in Hr. split.
    + split; [cbn; congruence|]. cbn. destruct err; cbn; [congruence|exact HS].
    + intros run [= <-]. by exists err.
  - split; [unfold RunInv; by rewrite E|done].
Qed.

Lemma end_inv err a (s : session) : RunInv s -> ms_finalizeRun s = Some {| fr_armed := a; fr_done := Some err |} ->
  finalizeErr s = None -> RunInv (endFinalizeRun err s).1.
Proof. intros [Hf Hr] E He. rewrite E in Hr. destruct err; unfold RunInv; cbn in *; [done|by rewrite He]. Qed.

(** A run and a recorded error exclude each other. *)
Definition OneRun (s : session) : Prop := is_Some (ms_finalizeRun s) -> finalizeErr s = None.

Lemma negotiate_one h (s : session) : OneRun s -> OneRun (negotiate CreateContext h s).
Proof.
  unfold OneRun, negotiate. intros H. destruct (ms_finalizeRun s) as [[a [err|]]|] eqn:E; [by rewrite E| |by rewrite E].
  pose proof (runNegotiation_spec h a s) as [[E1 E2 E3] _]. destruct (runNegotiation CreateContext h a s) as [t err].
  cbn in *. rewrite E3. intros _. eauto.
Qed.

Lemma end_one err (s : session) : OneRun (endFinalizeRun err s).1.
Proof. destruct err; intros [? [=]]. Qed.

Definition Inv (s : session) : Prop := RunInv s /\ OneRun s.

Lemma ended_inv h (s : session) : Inv s ->
  Inv (match ms_finalizeRun (negotiate CreateContext h s) with
       | Some {| fr_done := Some err |} => (endFinalizeRun err (negotiate CreateContext h s)).1
       | _ => negotiate CreateContext h s
       end).
Proof.
  intros [HR HO]. pose proof (negotiate_inv h s HR) as [HN _]. pose proof (negotiate_one h s HO) as HO'.
  destruct (ms_finalizeRun (negotiate CreateContext h s)) as [[a [err|]]|] eqn:E; [|done..].
  split; [|apply end_one]. eapply end_inv; [done|done|]. apply HO'. by rewrite E.
Qed.

Lemma closeConns_inv (s : session) : Inv s -> Inv (closeConns s).
Proof. unfold closeConns. by destruct (iceAgent _). Qed.

Lemma fstep_inv e (s : session) : Inv s -> Inv (fstep e s).
Proof.
  intros HI. pose proof HI as [[Hf HR] HO]. destruct e as [within|h|w h|h]; cbn [fstep].
  - unfold FinalizeWithin. destruct (ms_finalizeRun s) as [run|] eqn:E.
    + destruct within as [h|].
      * pose proof (ended_inv h s HI) as HE. pose proof (negotiate_inv h s (proj1 HI)) as [_ Hn].
        destruct (Hn run E) as (err & En). rewrite En in *. done.
      * rewrite E. destruct run as [a [err|]]; [|done]. split; [|apply end_one]. eapply end_inv; [by destruct HI|done|].
        apply HO. by rewrite E.
    + destruct (finalizeErr s); [done|]. by rewrite Hf.
  - destruct HI. split; [by apply negotiate_inv|by apply negotiate_one].
  - unfold FinalizeContext. destruct (ms_finalizeRun s) as [run|] eqn:E.
    + unfold awaitFinalizeRun. destruct w as [|stop h'].
      * destruct run as [a [err|]]; cbn [fr_done]; [|done]. destruct (endFinalizeRun err s) as [t r] eqn:Ee.
        replace t with (endFinalizeRun err s).1 by (by rewrite Ee). split; [|apply end_one].
        eapply end_inv; [by destruct HI|done|]. apply HO. by rewrite E.
      * pose proof (ended_inv h' s HI) as HE. pose proof (negotiate_inv h' s (proj1 HI)) as [_ Hn].
        destruct (Hn run E) as (err & En). rewrite En in *. by destruct (endFinalizeRun err _).
    + destruct (finalizeErr s); [done|]. by rewrite Hf.
  - unfold Close. apply closeConns_inv, (ended_inv h s HI).
Qed.

Lemma fsteps_inv es (s : session) : Inv s -> Inv (fsteps es s).
Proof. revert s. induction es as [|e es IH]; intros s H; [done|]. apply IH. by apply fstep_inv. Qed.

Lemma within_inv within a (s : session) : onFinalize s = Some a -> ms_finalizeRun s = None -> finalizeErr s = None ->
  Inv (FinalizeWithin CreateContext within s).1.
Proof.
  intros H1 H2 H3. unfold FinalizeWithin. rewrite H1, H2, H3. set (u := startFinalizeRun a s).
  assert (Inv u) as Hu by (split; [done|intros _; exact H3]).
  destruct within as [h|]; [|done]. pose proof (ended_inv h u Hu) as HE.
  destruct (negotiate_inv h u (proj1 Hu)) as [_ Hn]. destruct (Hn _ eq_refl) as (err & En). rewrite En in *. done.
Qed.

(** ** Media around a negotiation *)

Section Media.

Context (Unmarshal : bytes -> rtp_packet + error) (MarshalSize : rtp_header -> Z).
Context (Marshal : rtp_packet -> bytes + error).
Context (DecryptRTP : srtp_ctx -> bytes -> (bytes * rtp_header) + error).
Context (EncryptRTP : srtp_ctx -> bytes -> rtp_header -> bytes + error).
Context (rtcpMarshal : list rtcp_packet -> bytes + error) (EncryptRTCP : srtp_ctx -> bytes -> bytes + error).

(** C7. Once [FinalizeWithin] has taken the negotiation a DTLS session was armed
    with, nothing the session sends is ever plaintext: whatever sequence of
    further [FinalizeWithin] and [FinalizeContext] calls, returns of the run
    (successful or failed at any stage), cancellations and [Close] follows, every
    RTP datagram [WriteRTP] puts on the wire and every RTCP datagram [WriteRTCPs]
    puts there is the output of SRTP encryption under the session's local
    context; before the session is keyed, and after a negotiation that failed,
    both return [ErrDTLSNotKeyed] and put nothing on the wire. *)
Theorem within_never_plaintext (s : session) a within es p pkts sent :
  onFinalize s = Some a -> ms_finalizeRun s = None -> finalizeErr s = None ->
  let t := fsteps es (FinalizeWithin CreateContext within s).1 in
  (dtlsUnkeyed t = true /\ WriteRTP Marshal EncryptRTP p sent t = refused (Some ErrDTLSNotKeyed) /\
   WriteRTCPs rtcpMarshal EncryptRTCP pkts sent t = refused (Some ErrDTLSNotKeyed)) \/
  (dtlsKeyed t = true /\ exists ctx, localCtxSRTP t = Some ctx /\ is_Some (remoteCtxSRTP t) /\
   (forall d, wr_wire (WriteRTP Marshal EncryptRTP p sent t) = Some d ->
      exists plain, Marshal p = inl plain /\ EncryptRTP ctx plain (Header p) = inl (dg_data d)) /\
   (forall d, wr_wire (WriteRTCPs rtcpMarshal EncryptRTCP pkts sent t) = Some d ->
      exists plain, rtcpMarshal pkts = inl plain /\ EncryptRTCP ctx plain = inl (dg_data d))).
Proof.
  intros H1 H2 H3 t. assert (Inv t) as [[_ HR] _] by (apply fsteps_inv; eapply within_inv; eauto). clearbody t.
  assert (dtlsUnkeyed t = true \/ keyedSession t) as [Hu | Hk].
  { destruct (ms_finalizeRun t) as [[? [[]|]]|]; [auto..|]. destruct (finalizeErr t); auto. }
  - left. unfold WriteRTP, WriteRTCPs. by rewrite Hu.
  - right. destruct Hk as (Hd & [ctx Hc] & Hr & _). split; [done|]. exists ctx. split; [done|]. split; [done|].
    unfold WriteRTP, WriteRTCPs, writeRTCPData. rewrite Hc. split; intros d; destruct (dtlsUnkeyed t); try done.
    + destruct (String.eqb _ _); [done|]. destruct (Marshal p) as [plain|]; [|done].
      destruct (EncryptRTP ctx plain _) as [data|] eqn:E; [|done]. unfold written. destruct sent; [|done]. intros [= <-]. eauto.
    + destruct (rtcpMarshal pkts) as [plain|]; [|done]. destruct (EncryptRTCP ctx plain) as [data|] eqn:E; [|done].
      unfold written. destruct sent; [|done]. intros [= <-]. eauto.
Qed.

(** [FinalizeContext] run directly does not give that protection: after it has
    failed on a session that has no SRTP context yet, [WriteRTP] sends the packet
    in plaintext (unless the session only receives), since only [FinalizeWithin]
    marks the session unkeyed. *)
Theorem failed_finalize_sends_plaintext (s : session) a w h e p plain sent :
  onFinalize s = Some a -> ms_finalizeRun s = None -> finalizeErr s = None -> dtlsUnkeyed s = false ->
  localCtxSRTP s = None -> iceEnabled s = false -> mode s <> ModeRecvonly ->
  hs_handshake h = Some e -> Marshal p = inl plain ->
  exists t, FinalizeContext CreateContext w h s = Some (t, Some (ErrWrap "dtls conn handshake" e)) /\
    FinalizePending t = false /\
    wr_wire (WriteRTP Marshal EncryptRTP p (inl sent) t) = Some {| dg_conn := rtpConn s; dg_data := plain; dg_to := rtpDest s |}.
Proof.
  intros H1 H2 H3 H4 H5 H6 H7 H8 H9. unfold FinalizeContext, runNegotiation. rewrite H2, H3, H1, H6, H8. eexists. split; [done|].
  split; [unfold FinalizePending; cbn; by rewrite H2|]. unfold WriteRTP. cbn. rewrite H4, H5, H9.
  by rewrite (proj2 (String.eqb_neq (mode s) _)).
Qed.

(** ** Reading *)

(** Datagrams that [ReadRTP] discards and counts. *)
Definition unauthentic (ctx : srtp_ctx) (a : arrival) : Prop :=
  exists data from, a = Datagram data from /\ exists e, DecryptRTP ctx data = inr e.

Lemma skip_unauthentic ctx bad rest (s : session) : notKeyed s = false -> remoteCtxSRTP s = Some ctx ->
  Forall (unauthentic ctx) bad -> 0 <= srtpAuthFailures s < 2 ^ 64 ->
  readRTP_loop Unmarshal MarshalSize DecryptRTP (bad ++ rest) s =
  readRTP_loop Unmarshal MarshalSize DecryptRTP rest (s <| srtpAuthFailures := u64 (srtpAuthFailures s + len bad) |>).
Proof.
  clear CreateContext Marshal EncryptRTP rtcpMarshal EncryptRTCP.
  intros Hk Hc Hb. revert s Hk Hc. induction Hb as [|x bad (data & from & -> & e & Hd) Hb IH]; intros s Hk Hc Hr.
  - cbn [app]. f_equal. change (len (@nil arrival)) with 0. rewrite Z.add_0_r, u64_small by done. by destruct s.
  - cbn [app readRTP_loop]. rewrite Hk, Hc, Hd. rewrite IH; [|done|done|apply u64_range]. f_equal. cbn. f_equal.
    rewrite len_cons. wrap_lia.
Qed.

(** C23. A read of SRTP takes exactly the first datagram the peer's context
    authenticates: the datagrams before it, however many, are discarded and
    counted and none of them ends the read, the packet returned is the decrypted
    one, and a session that learns its peer's address behind NAT learns it from
    that packet only if it had not learned one before. *)
Theorem read_takes_first_authentic (s : session) ctx bad data from decrypted h pkt rest n :
  notKeyed s = false -> remoteCtxSRTP s = Some ctx -> Forall (unauthentic ctx) bad -> 0 <= srtpAuthFailures s < 2 ^ 64 ->
  RTPBufSize <= n -> DecryptRTP ctx data = inl (decrypted, h) -> rtpUnmarshalPayload MarshalSize decrypted h = inl pkt ->
  exists t r, ReadRTP Unmarshal MarshalSize DecryptRTP n (bad ++ Datagram data from :: rest) s = Some (t, r, rest) /\
    rr_pkt r = Some pkt /\ rr_err r = None /\ srtpAuthFailures t = u64 (srtpAuthFailures s + len bad) /\
    (forall old, learnedRTPFrom s = Some old -> learnedRTPFrom t = Some old) /\
    (learnedRTPFrom s = None -> learnedRTPFrom t = Some from -> RTPNAT s = RTPNATSymetric /\ Version (Header pkt) = 2) /\
    (rr_n r = 0 \/ rr_n r = len decrypted) /\ (mode s <> ModeSendonly -> rr_n r = len decrypted).
Proof.
  clear CreateContext Marshal EncryptRTP rtcpMarshal EncryptRTCP.
  intros Hk Hc Hb Hf Hn Hd Hu. unfold ReadRTP. replace (n <? RTPBufSize) with false by lia.
  rewrite (skip_unauthentic ctx) by done. cbn [readRTP_loop].
  set (u := s <| srtpAuthFailures := _ |>). assert (notKeyed u = false) as -> by done.
  assert (remoteCtxSRTP u = Some ctx) as -> by done. rewrite Hd, Hu. unfold received. do 2 eexists. split; [done|].
  assert (mode (learnRTPFrom from pkt u) = mode s /\ srtpAuthFailures (learnRTPFrom from pkt u) = u64 (srtpAuthFailures s + len bad))
    as [-> ->] by (unfold learnRTPFrom; repeat case_match; done).
  cbn [rr_pkt rr_err rr_n]. do 3 (split; [done|]). split; [|split; [|split]].
  - intros old Ho. unfold learnRTPFrom. change (learnedRTPFrom u) with (learnedRTPFrom s). rewrite Ho. by repeat case_match.
  - intros Ho. unfold learnRTPFrom. change (learnedRTPFrom u) with (learnedRTPFrom s). change (RTPNAT u) with (RTPNAT s). rewrite Ho.
    destruct (RTPNAT s =? RTPNATSymetric) eqn:E1; cbn [andb]; [|by cbn; rewrite Ho].
    destruct (negb (String.eqb _ _)); [|by cbn; rewrite Ho]. destruct (Version (Header pkt) =? 2) eqn:E2; cbn [negb]; [|by cbn; rewrite Ho].
    intros _. lia.
  - destruct (String.eqb _ _); auto.
  - intros Hm. by rewrite (proj2 (String.eqb_neq _ _)).
Qed.

(** A DTLS session that is not keyed never delivers a packet: every datagram
    is discarded and only an error of the socket ends the read. *)
Theorem unkeyed_reads_nothing (s t : session) n arrivals r rest : RTPBufSize <= n ->
  dtlsSRTP s = true -> dtlsKeyed s = false ->
  ReadRTP Unmarshal MarshalSize DecryptRTP n arrivals s = Some (t, r, rest) ->
  t = s /\ rr_pkt r = None /\ exists pre e, arrivals = pre ++ ReadErr e :: rest /\ rr_err r = Some e.
Proof.
  intros Hn Hd Hk. unfold ReadRTP. replace (n <? RTPBufSize) with false by lia.
  assert (notKeyed s = true) as Hnk by (unfold notKeyed; by rewrite Hd, Hk).
  induction arrivals as [|[data from|e] arrivals IH]; cbn [readRTP_loop]; [done| |].
  - rewrite Hnk. intros H. destruct (IH H) as (-> & Hp & pre & e & -> & He). repeat split; try done.
    by exists (Datagram data from :: pre), e.
  - intros [= <- <- <-]. repeat split. by exists [], e.
Qed.

End Media.

(** ** Roles and keys *)

(** Our setup value against the peer's, without an override. *)
Lemma setup_against (s : session) r : SDPSetupRole (DTLSConf s) = None -> dtlsRemoteSetup s = r ->
  (r = dtlsSetupActive -> localDTLSSetup s = dtlsSetupPassive) /\
  (r = dtlsSetupPassive \/ r = dtlsSetupActPass -> localDTLSSetup s = dtlsSetupActive) /\
  (r = EmptyString -> localDTLSSetup s = dtlsSetupActive \/ localDTLSSetup s = dtlsSetupActPass).
Proof.
  intros H <-. unfold localDTLSSetup. rewrite H. split; [by intros ->|]. split; [by intros [-> | ->]|].
  intros ->. cbn. destruct (bool_decide _); auto.
Qed.

Lemma arm_spec e setup fps tlsID (s t : session) : armDTLSHandshake dtlsSHA256Fingerprint e setup fps tlsID s = (t, Ok) ->
  exists ar, t = s <| onFinalize := Some ar |> /\ ar_client ar = dtlsActsAsClient s /\
    da_remoteFingerprints (ar_assoc ar) = fingerprintSet fps /\ da_laddr (ar_assoc ar) = Laddr s.
Proof.
  unfold armDTLSHandshake. destruct (if iceEnabled s then None else e_dial e); [done|]. intros [= <-].
  by eexists.
Qed.

(** What a handshake that succeeds keys both directions with. *)
Lemma negotiated_contexts h a (s t : session) : runNegotiation CreateContext h a s = (t, None) ->
  exists keyLen saltLen km l1 l2 r1 r2 cl cr, hs_keyLen h = inl keyLen /\ hs_saltLen h = inl saltLen /\
    hs_keyingMaterial h (2 * (keyLen + saltLen)) = inl km /\
    splitKeyingMaterial (ar_client a) keyLen saltLen km = (l1, l2, r1, r2) /\
    CreateContext l1 l2 (hs_profile h) = inl cl /\ CreateContext r1 r2 (hs_profile h) = inl cr /\
    localCtxSRTP t = Some cl /\ remoteCtxSRTP t = Some cr /\ dtlsAssoc t = Some (ar_assoc a).
Proof.
  unfold runNegotiation. destruct (if iceEnabled s then _ else _) as [u [e|]]; [done|].
  destruct (hs_handshake h); [done|]. destruct (hs_close h); [done|]. destruct (hs_state h); [|done]. unfold keySRTP.
  destruct (hs_keyLen h) as [keyLen|], (hs_saltLen h) as [saltLen|]; try done.
  destruct (hs_keyingMaterial h _) as [km|] eqn:Ek; [|done].
  destruct (splitKeyingMaterial _ _ _ _) as [[[l1 l2] r1] r2] eqn:Es. destruct (CreateContext l1 l2 _) as [cl|] eqn:E1; [|done].
  destruct (CreateContext r1 r2 _) as [cr|] eqn:E2; [|done]. intros [= <-].
  do 9 eexists. do 2 (split; [reflexivity|]). split; [exact Ek|]. split; [exact Es|]. split; [exact E1|]. split; [exact E2|].
  destruct (iceEnabled _); [destruct (iceAgent _)|]; repeat split.
Qed.

(** The stacks of the two ends of one DTLS association: the same profile and the
    same exported material (RFC 5705). *)
Definition same_association (h k : handshake) : Prop :=
  hs_profile k = hs_profile h /\ hs_keyLen k = hs_keyLen h /\ hs_saltLen k = hs_saltLen h /\
  forall n, hs_keyingMaterial k n = hs_keyingMaterial h n.

(** C13. The two ends of a DTLS exchange take opposite roles and end up with the
    same keys: when the answerer answers the setup value the offer advertised and
    the offerer applies the answer's (neither overriding the role), exactly one
    acts as the DTLS client, and after a handshake that succeeds at both ends each
    encrypts with the context the other decrypts with. *)
Theorem dtls_ends_agree (a b a1 b1 a2 b2 : session) ea eb fpa fpb tida tidb ha hb offered ara arb :
  SDPSetupRole (DTLSConf a) = None -> SDPSetupRole (DTLSConf b) = None ->
  offered ∈ [dtlsSetupActive; dtlsSetupPassive; dtlsSetupActPass] ->
  dtlsRemoteSetup b = offered -> dtlsRemoteSetup a = localDTLSSetup b ->
  armDTLSHandshake dtlsSHA256Fingerprint eb offered fpb tidb b = (b1, Ok) -> onFinalize b1 = Some arb ->
  armDTLSHandshake dtlsSHA256Fingerprint ea (localDTLSSetup b) fpa tida a = (a1, Ok) -> onFinalize a1 = Some ara ->
  same_association ha hb ->
  runNegotiation CreateContext ha ara a1 = (a2, None) -> runNegotiation CreateContext hb arb b1 = (b2, None) ->
  ar_client ara = negb (ar_client arb) /\ (offered <> dtlsSetupActPass -> localDTLSSetup a = offered) /\
  is_Some (localCtxSRTP a2) /\ is_Some (remoteCtxSRTP a2) /\
  localCtxSRTP a2 = remoteCtxSRTP b2 /\ remoteCtxSRTP a2 = localCtxSRTP b2.
Proof.
  intros Ha Hb Hin Hrb Hra Hmb Hfb Hma Hfa (P1 & P2 & P3 & P4) Ra Rb.
  assert (ar_client ara = dtlsActsAsClient a /\ ar_client arb = dtlsActsAsClient b) as [Ca Cb].
  { destruct (arm_spec _ _ _ _ _ _ Hma) as (x & -> & ? & _), (arm_spec _ _ _ _ _ _ Hmb) as (y & -> & ? & _).
    cbn in Hfa, Hfb. injection Hfa as <-. by injection Hfb as <-. }
  destruct (setup_against a _ Ha Hra) as (A1 & A2 & _), (setup_against b _ Hb Hrb) as (B1 & B2 & _).
  assert (ar_client ara = negb (ar_client arb) /\ (offered <> dtlsSetupActPass -> localDTLSSetup a = offered)) as [Hc Hr].
  { rewrite Ca, Cb. unfold dtlsActsAsClient. rewrite !elem_of_cons, elem_of_nil in Hin.
    destruct Hin as [->|[->|[->|[]]]].
    - rewrite B1 in * by done. rewrite A2 by auto. done.
    - rewrite B2 in * by auto. rewrite A1 by done. done.
    - rewrite B2 in * by auto. rewrite A1 by done. done. }
  split; [done|]. split; [done|].
  destruct (negotiated_contexts _ _ _ _ Ra) as (kl & sl & km & l1 & l2 & r1 & r2 & cl & cr & E1 & E2 & E3 & E4 & E5 & E6 & E7 & E8 & _).
  destruct (negotiated_contexts _ _ _ _ Rb) as (kl' & sl' & km' & l1' & l2' & r1' & r2' & cl' & cr' & F1 & F2 & F3 & F4 & F5 & F6 & F7 & F8 & _).
  rewrite P2, E1 in F1. injection F1 as <-. rewrite P3, E2 in F2. injection F2 as <-. rewrite P4, E3 in F3. injection F3 as <-.
  rewrite P1 in F5, F6. rewrite E7, E8, F7, F8. split; [by eauto|]. split; [by eauto|].
  rewrite Hc in E4. unfold splitKeyingMaterial in E4, F4.
  destruct (ar_client arb); cbn in E4, F4; injection E4 as <- <- <- <-; injection F4 as <- <- <- <-; split; congruence.
Qed.

(** Exactly one side of an ICE session controls it: sides that know each
    other's lite flag and hold opposite offer/answer roles never both control
    and never both wait. *)
Theorem ice_one_controls (a b : session) : is_Some (ICEConf a) -> is_Some (ICEConf b) ->
  remoteICELite a = default false (ICEConf b) -> remoteICELite b = default false (ICEConf a) ->
  dtlsEndpointRole a = DTLSEndpointRoleOfferer -> dtlsEndpointRole b = DTLSEndpointRoleAnswerer ->
  iceControlling a = negb (iceControlling b).
Proof.
  intros [la Ha] [lb Hb] H1 H2 Ra Rb. unfold iceControlling. rewrite H1, H2, Ra, Rb, Ha, Hb. by destruct la, lb.
Qed.

(** ** The DTLS association of a renegotiation *)

(** A socket bound anew is not the one the association runs over. *)
Definition fresh_bind (e : env) (a : dtlsAssociation) : Prop :=
  forall laddr rtp rtcp, e_bind e = inl (laddr, rtp, rtcp) -> sameUDPAddr laddr (da_laddr a) = false.

(** Arming a new association on a session [s] whose keys are dropped. *)
Lemma replaced_spec e setup fps tlsID assoc (s t : session) (closes : session -> session) :
  sameUDPAddr (Laddr s) (da_laddr assoc) = false ->
  match armDTLSHandshake dtlsSHA256Fingerprint e setup fps tlsID (newAnswerTLSID (e_tlsID e) tlsID
     (s <| dtlsKeyed := false |> <| dtlsAssoc := None |> <| localCtxSRTP := None |> <| remoteCtxSRTP := None |>)) with
  | (s, Err err) => (closes s, Err err)
  | r => r
  end = (t, Ok) ->
  localCtxSRTP t = None /\ remoteCtxSRTP t = None /\ dtlsAssoc t = None /\ dtlsKeyed t = false /\
  sameUDPAddr (Laddr t) (da_laddr assoc) = false /\
  exists ar, onFinalize t = Some ar /\ da_remoteFingerprints (ar_assoc ar) = fingerprintSet fps /\ da_laddr (ar_assoc ar) = Laddr t.
Proof.
  intros Hs H. destruct (armDTLSHandshake _ _ _ _ _ _) as [u [|err|]] eqn:E; try discriminate. injection H as <-.
  destruct (arm_spec _ _ _ _ _ _ E) as (ar & -> & _ & Hf & Hl). clear E. revert Hl. unfold newAnswerTLSID.
  destruct (RemoteSDPIsAnswer _); cbn; intros Hl; repeat (split; [done|]); eauto.
Qed.

(** C22. A renegotiation either continues the DTLS association of the session or
    starts another, never a mixture: when [negotiateDTLSAssociation] succeeds,
    either nothing asked for a new association and the session is unchanged (its
    contexts, record and armed negotiation included), or the keys and the record
    of the old association are gone, a handshake is armed whose record holds the
    peer's new fingerprints, and it runs over a transport other than the old
    association's; an ICE session never starts one. *)
Theorem association_continued_or_replaced e setup fps tlsID assoc (s t : session) :
  dtlsAssoc s = Some assoc -> fresh_bind e assoc ->
  negotiateDTLSAssociation dtlsSHA256Fingerprint e setup fps tlsID s = (t, Ok) ->
  (t = s /\ fingerprintSet fps = da_remoteFingerprints assoc /\
   fingerprintSet (localDTLSFingerprints dtlsSHA256Fingerprint s) = da_localFingerprints assoc /\
   (iceEnabled s = false -> sameUDPAddr (Laddr s) (da_laddr assoc) = true) /\
   (tlsID = EmptyString \/ tlsID = da_remoteTLSID assoc)) \/
  (iceEnabled s = false /\ changedBy dtlsSHA256Fingerprint assoc s setup fps tlsID <> EmptyString /\
   localCtxSRTP t = None /\ remoteCtxSRTP t = None /\ dtlsAssoc t = None /\ dtlsKeyed t = false /\
   sameUDPAddr (Laddr t) (da_laddr assoc) = false /\
   exists ar, onFinalize t = Some ar /\ da_remoteFingerprints (ar_assoc ar) = fingerprintSet fps /\ da_laddr (ar_assoc ar) = Laddr t).
Proof.
  intros Ha Hb. unfold negotiateDTLSAssociation. rewrite Ha.
  destruct (String.eqb (changedBy dtlsSHA256Fingerprint assoc s setup fps tlsID) EmptyString) eqn:Er.
  - intros [= <-]. left. split; [done|]. apply String.eqb_eq in Er. unfold changedBy in Er.
    destruct (negb (String.eqb (dtlsRoleAgainst setup) _) && _); [done|].
    case_bool_decide as Hf; cbn [negb] in Er; [|done]. case_bool_decide as Hl; cbn [negb] in Er; [|done].
    destruct (String.eqb tlsID EmptyString) eqn:Et; cbn [negb andb] in Er.
    + split; [done|]. split; [done|]. apply String.eqb_eq in Et. split; [|by left]. intros Hi. rewrite Hi in Er. by destruct (sameUDPAddr (Laddr s) _).
    + destruct (String.eqb tlsID (da_remoteTLSID assoc)) eqn:Et'; cbn [negb] in Er; [|done]. apply String.eqb_eq in Et'.
      split; [done|]. split; [done|]. split; [|by right]. intros Hi. rewrite Hi in Er. by destruct (sameUDPAddr (Laddr s) _).
  - apply String.eqb_neq in Er. destruct (iceEnabled s) eqn:Ei; [done|].
    destruct (sameUDPAddr (Laddr s) (da_laddr assoc)) eqn:Es; cbn [andb].
    + destruct (RemoteSDPIsAnswer s); [done|]. unfold rebind. destruct (e_bind e) as [[[laddr rtp] rtcp]|] eqn:Eb; [|done].
      intros H. right. split; [done|]. split; [done|]. refine (replaced_spec e setup fps tlsID assoc _ t closeConns _ H).
      by eapply Hb.
    + intros H. right. split; [done|]. split; [done|]. exact (replaced_spec e setup fps tlsID assoc s t (fun u => u) Es H).
Qed.

(** ** What RemoteSDP accepts *)

(** What the stages after the transport leave alone. *)
Record Frame (s t : session) : Prop := {
  fm_raddr : Raddr t = Raddr s; fm_filter : filterCodecs t = filterCodecs s; fm_codecs : ms_Codecs t = ms_Codecs s;
  fm_proto : remoteProto t = remoteProto s; fm_mode : mode t = mode s; fm_dtls : dtlsSRTP t = dtlsSRTP s }.
Lemma Frame_trans s t u : Frame s t -> Frame t u -> Frame s u.
Proof. intros [] []. split; congruence. Qed.

Lemma crypto_frame v (s : session) : Frame s (crypto_attr CreateContext v s).1.
Proof. unfold crypto_attr. by repeat case_match. Qed.
Lemma readSDES_frame attrs (s : session) : Frame s (readSDES CreateContext attrs s).1.
Proof.
  revert s. induction attrs as [|v attrs IH]; intros s; cbn [readSDES]; [done|]. destruct (HasPrefix v "crypto:"); [|apply IH].
  pose proof (crypto_frame v s) as HF. destruct (crypto_attr CreateContext v s) as [u [r|]]; [done|].
  eapply Frame_trans; [exact HF|apply IH].
Qed.
Lemma remoteICE_frame attrs (s : session) : Frame s (remoteICE candidate_ok attrs s).1.
Proof. unfold remoteICE. by repeat case_match. Qed.
Lemma arm_frame e setup fps tlsID (s : session) : Frame s (armDTLSHandshake dtlsSHA256Fingerprint e setup fps tlsID s).1.
Proof. unfold armDTLSHandshake. by destruct (if iceEnabled s then _ else _). Qed.
Lemma tlsid_frame tid r (s : session) : Frame s (newAnswerTLSID tid r s).
Proof. unfold newAnswerTLSID. by destruct (RemoteSDPIsAnswer s). Qed.
Lemma close_frame (s : session) : Frame s (closeConns s).
Proof. unfold closeConns. by destruct (iceAgent _). Qed.
Lemma rebind_frame e (s : session) : Frame s (rebind e s).1.
Proof. unfold rebind. by destruct (e_bind e) as [[[]]|]. Qed.

Lemma negotiate_frame e setup fps tlsID (s : session) :
  Frame s (negotiateDTLSAssociation dtlsSHA256Fingerprint e setup fps tlsID s).1.
Proof.
  unfold negotiateDTLSAssociation. destruct (dtlsAssoc s) as [assoc|].
  2:{ eapply Frame_trans; [apply tlsid_frame|apply arm_frame]. }
  destruct (String.eqb _ _); [done|]. destruct (iceEnabled s); [done|]. destruct (_ && _); [done|].
  set (same := sameUDPAddr _ _). assert (Frame s (if same then rebind e s else (s, Ok)).1) as HF by (destruct same; [apply rebind_frame|done]).
  destruct (if same then rebind e s else (s, Ok)) as [u [|er|]]; try done. cbn [fst] in HF.
  set (v := u <| dtlsKeyed := false |> <| dtlsAssoc := None |> <| localCtxSRTP := None |> <| remoteCtxSRTP := None |>).
  assert (Frame s v) as Hv by (eapply Frame_trans; [exact HF|done]). clearbody v.
  pose proof (arm_frame e setup fps tlsID (newAnswerTLSID (e_tlsID e) tlsID v)) as HA.
  pose proof (Frame_trans _ _ _ (Frame_trans _ _ _ Hv (tlsid_frame (e_tlsID e) tlsID v)) HA) as HB. clear HA Hv. revert HB.
  destruct (armDTLSHandshake _ _ _ _ _ _) as [w [|er|]]; intros HB; try done. cbn [fst] in *. destruct same; [|done].
  eapply Frame_trans; [exact HB|apply close_frame].
Qed.

Lemma remoteDTLS_frame e attrs (s : session) : Frame s (remoteDTLS dtlsSHA256Fingerprint e attrs s).1.
Proof.
  unfold remoteDTLS. destruct (read_dtls _ _) as [r|]; [|done]. destruct (negb _); [done|]. destruct (String.eqb _ _); [done|].
  destruct (negb _); [done|]. set (u := s <| dtlsRemoteSetup := _ |> <| dtlsRemoteTLSID := _ |>).
  eapply Frame_trans; [|apply negotiate_frame]. done.
Qed.

(** An association that was negotiated is there or about to be. *)
Definition associated (s : session) : Prop := is_Some (onFinalize s) \/ is_Some (dtlsAssoc s).
Lemma applySecurity_spec req (s t : session) : applySecurity req s = (t, Ok) ->
  Frame s t /\ (associated s -> associated t) /\ (req = true -> is_Some (remoteCtxSRTP t)) /\ (is_Some (localCtxSRTP t) -> is_Some (remoteCtxSRTP t)).
Proof.
  unfold applySecurity. destruct req; cbn [negb andb].
  - rewrite andb_false_r. case_bool_decide as E; [done|]. intros [= <-]. assert (is_Some (remoteCtxSRTP s)) by (by destruct (remoteCtxSRTP s)).
    done.
  - rewrite andb_true_r. intros [= <-]. destruct (remoteCtxSRTP s) as [c|] eqn:E.
    + rewrite (bool_decide_false (Some c = None)), andb_false_r by done. rewrite E. by eauto.
    + rewrite (bool_decide_true (@None srtp_ctx = None)), andb_true_r by done. case_bool_decide as Hl; cbn; [by split_and!; [| | |intros [? [=]]]|].
      split_and!; [done..|]. by intros ?.
Qed.

Lemma andThen_ok (r : session * outcome) k t : andThen r k = (t, Ok) -> exists s, r = (s, Ok) /\ k s = (t, Ok).
Proof. destruct r as [s [|e|]]; cbn; [|done..]. eauto. Qed.

(** The stages after the transport, when they all succeed. *)
Lemma arm_associated e setup fps tlsID (s t : session) : armDTLSHandshake dtlsSHA256Fingerprint e setup fps tlsID s = (t, Ok) -> associated t.
Proof. unfold armDTLSHandshake. destruct (if iceEnabled s then _ else _); [done|]. intros [= <-]. left. by eexists. Qed.
Lemma negotiate_associated e setup fps tlsID (s t : session) : negotiateDTLSAssociation dtlsSHA256Fingerprint e setup fps tlsID s = (t, Ok) -> associated t.
Proof.
  unfold negotiateDTLSAssociation. destruct (dtlsAssoc s) as [assoc|] eqn:Ea; [|apply arm_associated].
  destruct (String.eqb _ _); [intros [= <-]; right; by eexists|]. destruct (iceEnabled s); [done|]. destruct (_ && _); [done|].
  destruct (if sameUDPAddr _ _ then _ else _) as [u [|er|]]; [|done|done]. destruct (armDTLSHandshake _ _ _ _ _ _) as [w [|er|]] eqn:E; [|done|done]. intros [= <-]. by eapply arm_associated.
Qed.
Lemma remoteDTLS_associated e attrs (s t : session) : remoteDTLS dtlsSHA256Fingerprint e attrs s = (t, Ok) -> associated t.
Proof.
  unfold remoteDTLS. destruct (read_dtls _ _) as [r|]; [|done]. destruct (negb _); [done|]. destruct (String.eqb _ _); [done|]. destruct (negb _); [done|]. apply negotiate_associated.
Qed.

Lemma keying_stages e attrs req (s t : session) :
  andThen (readSDES CreateContext attrs s) (fun s =>
  andThen (if iceEnabled s then remoteICE candidate_ok attrs s else (s, Ok)) (fun s =>
  andThen (if dtlsSRTP s then remoteDTLS dtlsSHA256Fingerprint e attrs s else (s, Ok)) (fun s =>
  applySecurity req s))) = (t, Ok) ->
  Frame s t /\ (dtlsSRTP s = true -> associated t) /\ (req = true -> is_Some (remoteCtxSRTP t)) /\ (is_Some (localCtxSRTP t) -> is_Some (remoteCtxSRTP t)).
Proof.
  intros H. apply andThen_ok in H as (u & Hu & H). apply andThen_ok in H as (v & Hv & H). apply andThen_ok in H as (w & Hw & H).
  destruct (applySecurity_spec _ _ _ H) as (HF & HA & HS).
  pose proof (readSDES_frame attrs s) as F1. rewrite Hu in F1.
  assert (Frame u v) as F2.
  { destruct (iceEnabled u); [|by injection Hv as <-]. pose proof (remoteICE_frame attrs u) as F. by rewrite Hv in F. }
  split; [|split; [|done]].
  2: { intros Hd. apply HA. pose proof (fm_dtls _ _ F1) as D1. pose proof (fm_dtls _ _ F2) as D2. cbn [fst] in D1, D2. rewrite D2, D1, Hd in Hw. by eapply remoteDTLS_associated. }
  assert (Frame v w) as F3.
  { destruct (dtlsSRTP v); [|by injection Hw as <-]. pose proof (remoteDTLS_frame e attrs v) as F. by rewrite Hw in F. }
  eauto using Frame_trans.
Qed.

(** The audio stream of a body as [RemoteSDP] reads it. *)
Definition audio_of (body : string) : option (MediaDescription * SessionDescription) :=
  match UnmarshalSections body with
  | (sections, None) =>
    match audioStream (Media <$> sec_Media sections) with
    | Some i =>
      match sec_Media sections !! i, Description sections i with
      | Some sec, Some sd => Some (Media sec, sd)
      | _, _ => None
      end
    | None => None
    end
  | _ => None
  end.

Lemma updateRemoteCodecs_spec prefer codecs ans (s : session) : codecs <> [] ->
  let '(t, n) := updateRemoteCodecs prefer codecs ans s in n <> 0 ->
  remoteProto t = remoteProto s /\ dtlsSRTP t = dtlsSRTP s /\ activeCodecs t <> [] /\
  (ms_Codecs s <> [] -> Forall (fun c => exists lc rc, lc ∈ ms_Codecs s /\ rc ∈ codecs /\ codecMatch lc rc = true /\ c = negotiatedCodec lc rc) (activeCodecs t)).
Proof.
  intros Hne. unfold updateRemoteCodecs. destruct (ms_Codecs s) as [|c0 cs] eqn:E.
  - intros Hn. split; [done|]. split; [done|]. split; [|done]. unfold activeCodecs. cbn. by destruct (filterCodecs s).
  - rewrite <- E. set (F := if prefer && ans then _ else _). intros Hn. split; [done|]. split; [done|].
    assert (F <> []) as HF by (intros HF; rewrite HF in Hn; done).
    assert (activeCodecs (s <| filterCodecs := F |>) = F) as -> by (unfold activeCodecs; cbn; by destruct F).
    split; [done|]. intros _. apply Forall_forall. intros c Hc. unfold F in Hc.
    destruct (prefer && ans); unfold match_local_order, match_remote_order in Hc; apply list_elem_of_omap in Hc as (x & Hx & Hf);
      destruct (List.find _ _) as [y|] eqn:Ey; try done; apply find_some in Ey as [Hy Hm]; injection Hf as <-;
      apply list_elem_of_In in Hy; eauto 10.
Qed.

(** C10. A body [RemoteSDP] accepts leaves a session media can run on: the audio
    stream it settled on has an RTP profile diago speaks and a port in 1..65535,
    the remote address is that port at an address, at least one codec was agreed,
    every agreed codec is a local one matching an offered one under the peer's
    payload type; when the profile asked for SRTP without DTLS, and the body has no
    fingerprint, a remote SRTP context exists; a session that does DTLS has an
    association or a handshake armed for one; and the session never encrypts towards a
    peer it has no context to decrypt. A body that asks for DTLS is accepted by a
    session that does not do it, too, and leaves that without keys
    ([dtls_offer_unkeyed]). *)
Theorem accepted_is_usable prefer e body (s t : session) :
  RemoteSDP dtlsSHA256Fingerprint CreateContext candidate_ok prefer e body s = (t, Ok) ->
  exists md sd prof codecs, audio_of body = Some (md, sd) /\ parseRTPProfile (Proto md) = Some prof /\ remoteProto t = Proto md /\
    0 < Port md <= 65535 /\ ua_Port (Raddr t) = Port md /\ is_Some (ua_IP (Raddr t)) /\
    CodecsFromSDPRead (Formats md) (Values sd "a") (length (Formats md)) = Some codecs /\ activeCodecs t <> [] /\
    (ms_Codecs s <> [] -> Forall (fun c => exists lc rc, lc ∈ ms_Codecs s /\ rc ∈ codecs /\
       codecMatch lc rc = true /\ c = negotiatedCodec lc rc) (activeCodecs t)) /\
    (secureRequested prof (Values sd "a") = true -> is_Some (remoteCtxSRTP t)) /\ (dtlsSRTP s = true -> associated t) /\
    (is_Some (localCtxSRTP t) -> is_Some (remoteCtxSRTP t)).
Proof.
  unfold RemoteSDP, audio_of. destruct (UnmarshalSections body) as [sections [err|]]; [done|].
  destruct (audioStream _) as [i|]; [|done]. destruct (sec_Media sections !! i) as [sec|]; [|done].
  destruct (Description sections i) as [sd|]; [|done]. unfold applySDP. destruct (sd_SessionInformation sd) as [si|]; [|done].
  destruct (parseRTPProfile (Proto (Media sec))) as [prof|] eqn:Ep; [|done]. set (u := if RemoteSDPIsAnswer _ then _ else _).
  assert (remoteProto u = Proto (Media sec) /\ ms_Codecs u = ms_Codecs s /\ dtlsSRTP u = dtlsSRTP s) as (Hu1 & Hu2 & Hu3).
  { unfold u, applyOrigin. repeat case_match; done. }
  clearbody u. intros H. apply andThen_ok in H as (v & Hv & H). apply andThen_ok in H as (w & Hw & H).
  destruct (keying_stages _ _ _ _ _ H) as ([F1 F2 F3 F4 F5 F6] & Hs0 & Hs1 & Hs2).
  unfold applyCodecs in Hv. destruct (CodecsFromSDPRead _ _ _) as [[|c0 cs]|] eqn:Ec; [done| |done].
  pose proof (updateRemoteCodecs_spec prefer (c0 :: cs) (negb (RemoteSDPIsAnswer u)) u ltac:(done)) as HU.
  destruct (updateRemoteCodecs _ _ _ _) as [v' n]. destruct (Z.eqb_spec n 0) as [|Hn]; [done|]. injection Hv as ->.
  destruct (HU Hn) as (U1 & U0 & U2 & U3). unfold applyTransport in Hw. destruct (sd_ConnectionInformation sd) as [ci|]; [|done].
  destruct ((Port (Media sec) <=? 0) || (65535 <? Port (Media sec))) eqn:Epo; [done|].
  destruct (ci_IP ci) as [ip|]; [|done]. injection Hw as <-. cbn in F1, F2, F3, F4.
  exists (Media sec), sd, prof, (c0 :: cs). rewrite F4, U1, Hu1, F1.
  assert (activeCodecs t = activeCodecs v) as -> by (unfold activeCodecs; by rewrite F2, F3).
  rewrite Hu2 in U3. change (dtlsSRTP v = true -> associated t) in Hs0. rewrite U0, Hu3 in Hs0. repeat (split; [first [done | lia | by eauto]|]). done.
Qed.

End Security.

(** ** Concrete sessions *)

Definition ex_fp (_ : unit) : string + error := inl "AA:BB".
Definition ex_ctx (key salt : bytes) (_ : ProtectionProfile) : (bytes * bytes) + error := inl (key, salt).
Definition ex_conf : DTLSConfig := {| Certificates := [tt]; SDPSetupRole := None |}.
Definition ex_addr (port : Z) : UDPAddr := {| ua_IP := Some [10; 0; 0; 1]; ua_Port := port; ua_Zone := EmptyString |}.
Definition ex_assoc : dtlsAssociation :=
  {| da_setup := dtlsSetupPassive; da_localFingerprints := ["sha-256 aa:bb"]; da_remoteFingerprints := ["sha-256 cc:dd"];
     da_remoteTLSID := EmptyString; da_localTLSID := EmptyString; da_laddr := ex_addr 5004; da_raddr := ex_addr 6004 |}.
Definition ex_dtls : @MediaSession.MediaSession unit (bytes * bytes) :=
  session_zero ex_conf <| SecureRTP := SecureRTPModeDTLS |> <| SRTPAlg := Some Aes128CmHmacSha1_80 |>
    <| ms_Codecs := [CodecAudioUlaw] |> <| Mode := ModeSendrecv |> <| mode := ModeSendrecv |> <| rtpConn := Some 3%nat |>
    <| Laddr := ex_addr 5004 |> <| Raddr := ex_addr 6004 |>.
Definition ex_armed : @MediaSession.MediaSession unit (bytes * bytes) :=
  ex_dtls <| onFinalize := Some {| ar_client := true; ar_assoc := ex_assoc |} |>.
(** The material of an association: 60 distinct bytes. *)
Definition ex_hs (e : option error) : handshake :=
  {| hs_connect := inr (ErrNew "unused"); hs_dial := None; hs_handshake := e; hs_close := None; hs_state := true;
     hs_profile := Aes128CmHmacSha1_80; hs_keyLen := inl 16; hs_saltLen := inl 14;
     hs_keyingMaterial := fun n => inl (Z.of_nat <$> seq 0 (Z.to_nat n)) |}.
Definition ex_marshal (p : rtp_packet) : bytes + error := inl (Payload p).
(** A toy cipher: the key's first byte, then the data. *)
Definition ex_encrypt (ctx : bytes * bytes) (data : bytes) (_ : rtp_header) : bytes + error := inl (hd 0 ctx.1 :: data).
Definition ex_decrypt (ctx : bytes * bytes) (data : bytes) : (bytes * rtp_header) + error :=
  match data with
  | k :: data => if k =? hd 0 ctx.1 then inl (data, rtp_header_zero <| Version := 2 |>) else inr (ErrNew "auth")
  | [] => inr (ErrNew "auth")
  end.
Definition ex_unmarshal (data : bytes) : rtp_packet + error := inl {| Header := rtp_header_zero; Payload := data |}.
Definition ex_packet : rtp_packet := {| Header := rtp_header_zero; Payload := [7] |}.
Definition ex_rtcp (l : list bytes) : bytes + error := inl (concat l).

Lemma within_never_plaintext_witness :
  let t := fsteps ex_ctx [Within None; Returns (ex_hs None); Within None] (FinalizeWithin ex_ctx None ex_armed).1 in
  dtlsKeyed t = true /\ exists ctx d, localCtxSRTP t = Some ctx /\
    wr_wire (WriteRTP ex_marshal ex_encrypt ex_packet (inl 2) t) = Some d /\ ex_encrypt ctx [7] rtp_header_zero = inl (dg_data d).
Proof.
  destruct (within_never_plaintext ex_ctx ex_marshal ex_encrypt ex_rtcp (fun _ b => inl b) ex_armed
    {| ar_client := true; ar_assoc := ex_assoc |} None [Within None; Returns (ex_hs None); Within None] ex_packet [] (inl 2)
    eq_refl eq_refl eq_refl) as [[Hu _]|[Hk (ctx & Hc & _ & HW & _)]]; [vm_compute in Hu; discriminate Hu|].
  intros t. split; [exact Hk|]. exists ctx. destruct (wr_wire (WriteRTP ex_marshal ex_encrypt ex_packet (inl 2) t)) as [d|] eqn:E.
  - exists d. split; [exact Hc|]. split; [reflexivity|]. destruct (HW d E) as (plain & [= <-] & He). exact He.
  - vm_compute in E. discriminate E.
Defined.

Lemma failed_finalize_sends_plaintext_witness : exists t,
  FinalizeContext ex_ctx RunDone (ex_hs (Some (ErrNew "timeout"))) ex_armed =
    Some (t, Some (ErrWrap "dtls conn handshake" (ErrNew "timeout"))) /\
  wr_wire (WriteRTP ex_marshal ex_encrypt ex_packet (inl 1) t) =
    Some {| dg_conn := Some 3%nat; dg_data := [7]; dg_to := ex_addr 6004 |}.
Proof.
  destruct (failed_finalize_sends_plaintext ex_ctx ex_marshal ex_encrypt ex_armed {| ar_client := true; ar_assoc := ex_assoc |}
    RunDone (ex_hs (Some (ErrNew "timeout"))) (ErrNew "timeout") ex_packet [7] 1) as (t & H1 & _ & H2); try reflexivity.
  - discriminate.
  - exists t. split; [exact H1|exact H2].
Defined.

Definition ex_keyed : @MediaSession.MediaSession unit (bytes * bytes) :=
  ex_dtls <| dtlsKeyed := true |> <| remoteCtxSRTP := Some ([9], []) |> <| localCtxSRTP := Some ([8], []) |>
    <| dtlsAssoc := Some ex_assoc |> <| RTPNAT := 1 |>.

Lemma read_takes_first_authentic_witness : exists t r,
  ReadRTP ex_unmarshal (fun _ => 0) ex_decrypt 1500
    [Datagram [1; 2] (ex_addr 1); Datagram [] (ex_addr 1); Datagram [9; 42] (ex_addr 6006)] ex_keyed = Some (t, r, []) /\
  Payload <$> rr_pkt r = Some [42] /\ srtpAuthFailures t = 2 /\ rr_n r = 1.
Proof.
  destruct (read_takes_first_authentic ex_unmarshal (fun _ => 0) ex_decrypt ex_keyed ([9], [])
    [Datagram [1; 2] (ex_addr 1); Datagram [] (ex_addr 1)] [9; 42] (ex_addr 6006) [42] (rtp_header_zero <| Version := 2 |>)
    {| Header := rtp_header_zero <| Version := 2 |>; Payload := [42] |} [] 1500)
    as (t & r & H1 & H2 & _ & H3 & _ & _ & _ & H4); try reflexivity.
  - repeat constructor; do 2 eexists; (split; [reflexivity|]); eexists; reflexivity.
  - cbn. lia.
  - exists t, r. split; [exact H1|]. rewrite H2. split; [reflexivity|]. split; [exact H3|]. apply H4. discriminate.
Defined.

Lemma unkeyed_reads_nothing_witness :
  ReadRTP ex_unmarshal (fun _ => 0) ex_decrypt 1500 [Datagram [9; 42] (ex_addr 1); ReadErr net_ErrClosed] ex_dtls =
    Some (ex_dtls, failed 0 net_ErrClosed, []) /\ rr_pkt (failed 0 net_ErrClosed) = None.
Proof.
  assert (ReadRTP ex_unmarshal (fun _ => 0) ex_decrypt 1500 [Datagram [9; 42] (ex_addr 1); ReadErr net_ErrClosed] ex_dtls =
    Some (ex_dtls, failed 0 net_ErrClosed, [])) as E by reflexivity.
  split; [exact E|]. apply (unkeyed_reads_nothing ex_unmarshal (fun _ => 0) ex_decrypt ex_dtls ex_dtls 1500
    [Datagram [9; 42] (ex_addr 1); ReadErr net_ErrClosed] (failed 0 net_ErrClosed) []); [reflexivity|reflexivity|reflexivity|exact E].
Defined.

Definition ex_e (bind : (UDPAddr * nat * nat) + error) : env := {| e_tlsID := "id"; e_bind := bind; e_dial := None |}.

(** An offer of actpass: the answerer is the client. *)
Lemma dtls_ends_agree_witness : exists a2 b2 : @MediaSession.MediaSession unit (bytes * bytes),
  localCtxSRTP a2 = remoteCtxSRTP b2 /\ remoteCtxSRTP a2 = localCtxSRTP b2 /\ is_Some (localCtxSRTP a2).
Proof.
  set (b := ex_dtls <| dtlsRemoteSetup := dtlsSetupActPass |>). set (a := ex_dtls <| dtlsRemoteSetup := localDTLSSetup b |>).
  destruct (armDTLSHandshake ex_fp (ex_e (inr (ErrNew ""))) dtlsSetupActPass [] "" b) as [b1 ob] eqn:Eb.
  destruct (armDTLSHandshake ex_fp (ex_e (inr (ErrNew ""))) (localDTLSSetup b) [] "" a) as [a1 oa] eqn:Ea.
  assert (ob = Ok /\ oa = Ok) as [-> ->] by (vm_compute in Ea, Eb; injection Ea as _ <-; injection Eb as _ <-; done).
  destruct (onFinalize b1) as [arb|] eqn:Fb; [|vm_compute in Eb; injection Eb as <-; discriminate Fb].
  destruct (onFinalize a1) as [ara|] eqn:Fa; [|vm_compute in Ea; injection Ea as <-; discriminate Fa].
  destruct (runNegotiation ex_ctx (ex_hs None) ara a1) as [a2 ra] eqn:Ra.
  destruct (runNegotiation ex_ctx (ex_hs None) arb b1) as [b2 rb] eqn:Rb.
  assert (ra = None /\ rb = None) as [-> ->].
  { vm_compute in Ea, Eb. injection Ea as <-. injection Eb as <-. cbn in Fa, Fb. injection Fa as <-. injection Fb as <-.
    vm_compute in Ra, Rb. injection Ra as _ <-. injection Rb as _ <-. done. }
  exists a2, b2.
  destruct (dtls_ends_agree ex_fp ex_ctx a b a1 b1 a2 b2 (ex_e (inr (ErrNew ""))) (ex_e (inr (ErrNew ""))) [] [] "" ""
    (ex_hs None) (ex_hs None) dtlsSetupActPass ara arb) as (_ & _ & H1 & _ & H2 & H3); try done.
  set_solver.
Defined.

Lemma ice_one_controls_witness : exists a b : @MediaSession.MediaSession unit (bytes * bytes),
  iceControlling a = true /\ iceControlling a = negb (iceControlling b).
Proof.
  exists (ex_dtls <| ICEConf := Some false |> <| DTLSRole := DTLSEndpointRoleOfferer |>),
         (ex_dtls <| ICEConf := Some false |> <| DTLSRole := DTLSEndpointRoleAnswerer |>).
  split; [reflexivity|]. apply ice_one_controls; try reflexivity; eexists; reflexivity.
Defined.

(** A peer with a new certificate, answered from a new port. *)
Lemma association_continued_or_replaced_witness : exists t,
  negotiateDTLSAssociation ex_fp (ex_e (inl (ex_addr 5008, 7%nat, 8%nat))) "actpass" [{| fingerprint := "EE:FF"; alg := "sha-256" |}]
    EmptyString ex_keyed = (t, Ok) /\ localCtxSRTP t = None /\ sameUDPAddr (Laddr t) (ex_addr 5004) = false.
Proof.
  destruct (negotiateDTLSAssociation ex_fp (ex_e (inl (ex_addr 5008, 7%nat, 8%nat))) "actpass"
    [{| fingerprint := "EE:FF"; alg := "sha-256" |}] EmptyString ex_keyed) as [t o] eqn:E.
  assert (o = Ok) as -> by (vm_compute in E; injection E as _ <-; reflexivity). exists t. split; [reflexivity|].
  destruct (association_continued_or_replaced ex_fp (ex_e (inl (ex_addr 5008, 7%nat, 8%nat))) "actpass"
    [{| fingerprint := "EE:FF"; alg := "sha-256" |}] EmptyString ex_assoc ex_keyed t eq_refl) as [(_ & Hf & _)|(_ & _ & H1 & _ & _ & _ & H2 & _)].
  - intros laddr rtp rtcp [= <- <- <-]. reflexivity.
  - exact E.
  - vm_compute in Hf. discriminate Hf.
  - split; [exact H1|exact H2].
Defined.

Definition ex_body : string := write_lines ["v=0"; "o=- 3 4 IN IP4 10.0.0.9"; "s=-"; "c=IN IP4 10.0.0.9"; "t=0 0";
  "m=video 7000 RTP/AVP 96"; "m=audio 7004 RTP/AVP 8 0"; "a=sendonly"].
Definition ex_plain : @MediaSession.MediaSession unit (bytes * bytes) :=
  session_zero {| Certificates := []; SDPSetupRole := None |} <| ms_Codecs := [CodecAudioUlaw; CodecTelephoneEvent8000] |>
    <| Mode := ModeSendrecv |> <| Laddr := ex_addr 5004 |>.

Lemma accepted_is_usable_witness : exists t md,
  RemoteSDP ex_fp ex_ctx (fun _ => true) false (ex_e (inr (ErrNew ""))) ex_body ex_plain = (t, Ok) /\
  fst <$> audio_of ex_body = Some md /\ ua_Port (Raddr t) = Port md /\ activeCodecs t <> [].
Proof.
  destruct (RemoteSDP ex_fp ex_ctx (fun _ => true) false (ex_e (inr (ErrNew ""))) ex_body ex_plain) as [t o] eqn:E.
  assert (o = Ok) as -> by (vm_compute in E; injection E as _ <-; reflexivity).
  destruct (accepted_is_usable ex_fp ex_ctx (fun _ => true) false (ex_e (inr (ErrNew ""))) ex_body ex_plain t E)
    as (md & sd & prof & codecs & H1 & _ & _ & _ & H2 & _ & _ & H3 & _).
  exists t, md. split; [reflexivity|]. rewrite H1. split; [reflexivity|]. split; [exact H2|exact H3].
Defined.

(** A session without DTLS takes an offer of DTLS-SRTP: it answers in the profile that
    was offered, without a fingerprint, and has no keys. *)
Definition ex_dtls_offer : string := write_lines ["v=0"; "o=- 3 4 IN IP4 10.0.0.9"; "s=-"; "c=IN IP4 10.0.0.9"; "t=0 0";
  "m=audio 7004 UDP/TLS/RTP/SAVP 0"; "a=fingerprint:sha-256 CC:DD"; "a=setup:actpass"].
Example dtls_offer_unkeyed : let '(t, o) := RemoteSDP ex_fp ex_ctx (fun _ => true) false (ex_e (inr (ErrNew ""))) ex_dtls_offer ex_plain in
  o = Ok /\ remoteProto t = "UDP/TLS/RTP/SAVP" /\ answeringOffer t = true /\ remoteCtxSRTP t = None /\ localCtxSRTP t = None /\ onFinalize t = None /\ dtlsAssoc t = None.
Proof. vm_compute. repeat split. Qed.

End MediaSecurity.
