(* ===== verification/MediaPorts.v ===== *)
(** * The media session: the RTP port range

    What [createListeners] binds from the package's port range, on an operating
    system whose ports are either free or taken for the whole call. *)
From S2P Require Import Prelude GoStrings NetIP Codec MediaSdp MediaSession MediaLifecycle.
Import GoStrings NetIP Codecs MediaSdp MediaSession MediaLifecycle.

Module MediaPorts.

Section Ports.
Context {cert srtp_ctx : Type}.
Abbreviation session := (@MediaSession.MediaSession cert srtp_ctx).
Context (ListenUDP : nat -> IP -> Z -> (UDPAddr * nat) + error).
Context (free : Z -> bool).

(** A bind at a given port succeeds exactly when it is free, and is at that
    port. *)
Hypothesis ListenUDP_port : forall n ip p, p <> 0 ->
  if free p then exists conn, ListenUDP n ip p = inl ({| ua_IP := ip; ua_Port := p; ua_Zone := EmptyString |}, conn)
  else exists e, ListenUDP n ip p = inr e.

Definition pair_free (p : Z) : bool := free p && free (p + 1).

(** The ports the search tries, in order. *)
Fixpoint tried (fuel : nat) (port rtpPortEnd : Z) : list Z :=
  match fuel with
  | O => []
  | S fuel => if port <? rtpPortEnd then port :: tried fuel (port + 2) rtpPortEnd else []
  end.

Lemma listen_free n laddr (s : session) : iceEnabled s = false -> 0 < ua_Port laddr -> pair_free (ua_Port laddr) = true ->
  exists t, (listen ListenUDP n laddr s).1.2 = t /\ (listen ListenUDP n laddr s).2 = None /\
    ua_Port (Laddr t) = ua_Port laddr /\ is_Some (rtpConn t) /\ is_Some (rtcpConn t) /\ closedConns t = closedConns s.
Proof.
  intros Hi Hp Hf. unfold listen, listenRTPandRTCP. rewrite Hi. unfold pair_free in Hf. apply andb_true_iff in Hf as [F1 F2].
  pose proof (ListenUDP_port n (ua_IP laddr) (ua_Port laddr) ltac:(lia)) as H1. rewrite F1 in H1. destruct H1 as (c & ->).
  cbn [ua_IP ua_Port].
  pose proof (ListenUDP_port (S n) (ua_IP laddr) (ua_Port laddr + 1) ltac:(lia)) as H2. rewrite F2 in H2. destruct H2 as (d & ->).
  eexists. split; [done|]. cbn. eauto.
Qed.

Lemma listen_taken n laddr (s : session) : iceEnabled s = false -> 0 < ua_Port laddr -> pair_free (ua_Port laddr) = false ->
  exists e, (listen ListenUDP n laddr s).2 = Some e /\ iceEnabled (listen ListenUDP n laddr s).1.2 = false.
Proof.
  intros Hi Hp Hf. unfold listen, listenRTPandRTCP. rewrite Hi. unfold pair_free in Hf.
  pose proof (ListenUDP_port n (ua_IP laddr) (ua_Port laddr) ltac:(lia)) as H1. destruct (free (ua_Port laddr)).
  - destruct H1 as (c & ->). cbn [ua_IP ua_Port].
    pose proof (ListenUDP_port (S n) (ua_IP laddr) (ua_Port laddr + 1) ltac:(lia)) as H2. cbn [andb] in Hf. rewrite Hf in H2.
    destruct H2 as (e & ->). exists e. split; [done|exact Hi].
  - destruct H1 as (e & ->). exists e. split; [done|exact Hi].
Qed.

Lemma listen_range_spec fuel own port pend n laddr err (s : session) : iceEnabled s = false -> 0 < port ->
  match List.find pair_free (tried fuel port pend) with
  | Some p => exists n' t, listen_range ListenUDP fuel own port pend n laddr err s = (n', t, p, None) /\
      ua_Port (Laddr t) = p /\ is_Some (rtpConn t) /\ is_Some (rtcpConn t)
  | None => tried fuel port pend <> [] -> exists n' t p e, listen_range ListenUDP fuel own port pend n laddr err s = (n', t, p, Some e)
  end.
Proof.
  revert port n laddr err s. induction fuel as [|fuel IH]; intros port n laddr err s Hi Hp; cbn [tried]; [by intros []|].
  cbn [listen_range]. destruct (port <? pend); [|by intros []]. cbn [List.find].
  set (la := {| ua_IP := ua_IP laddr; ua_Port := port; ua_Zone := ua_Zone laddr |}).
  set (u := if own then s <| Laddr := la |> else s). assert (iceEnabled u = false) as Hu by (unfold u; by destruct own).
  destruct (pair_free port) eqn:Ef.
  - destruct (listen_free n la u Hu Hp Ef) as (t & E1 & E2 & E3 & E4 & E5 & _).
    destruct (listen ListenUDP n la u) as [[n' t'] e]. cbn in E1, E2. subst. by do 2 eexists.
  - destruct (listen_taken n la u Hu Hp Ef) as (e & E1 & E2).
    destruct (listen ListenUDP n la u) as [[n' t'] e']. cbn in E1, E2. subst.
    specialize (IH (port + 2) n' la (Some e) t' E2 ltac:(lia)). destruct (List.find _ _); [done|].
    intros _. destruct fuel as [|fuel].
    + cbn. eauto.
    + cbn [tried] in IH. destruct (port + 2 <? pend) eqn:El; [by apply IH|]. cbn [listen_range]. rewrite El. eauto.
Qed.

Lemma tried_range fuel port pend p : In p (tried fuel port pend) -> port <= p < pend.
Proof.
  revert port. induction fuel as [|fuel IH]; intros port; cbn [tried]; [done|]. destruct (Z.ltb_spec port pend); [|done].
  intros [<-|H']; [lia|]. apply IH in H'. lia.
Qed.

Definition range_ok (p : ports) : Prop :=
  0 < RTPPortStart p < RTPPortEnd p /\ RTPPortEnd p <= 65536 /\ 0 <= rtpPortOffset p < RTPPortEnd p - RTPPortStart p.

Lemma createListeners_range own laddr p n (s : session) : iceEnabled s = false -> ua_Port laddr = 0 -> range_ok p ->
  let start := RTPPortStart p + rtpPortOffset p in
  match List.find pair_free (tried (Z.to_nat (RTPPortEnd p - start)) start (RTPPortEnd p)) with
  | Some port => exists q n' t, createListeners ListenUDP own laddr p n s = (q, n', t, None) /\
      ua_Port (Laddr t) = port /\ start <= port < RTPPortEnd p /\ is_Some (rtpConn t) /\ is_Some (rtcpConn t) /\
      range_ok q /\ rtpPortOffset q = (port + 2 - RTPPortStart p) mod (RTPPortEnd p - RTPPortStart p)
  | None => exists n' t e, createListeners ListenUDP own laddr p n s = (p, n', t, Some (ErrWrap "no available ports in range" e))
  end.
Proof.
  intros Hi Hl (Hs & He & Ho) start. unfold createListeners. rewrite Hl. cbn [Z.eqb negb].
  replace ((0 <? RTPPortStart p) && (RTPPortStart p <? RTPPortEnd p)) with true by lia. fold start.
  pose proof (listen_range_spec (Z.to_nat (RTPPortEnd p - start)) own start (RTPPortEnd p) n laddr None s Hi ltac:(lia)) as HR.
  destruct (List.find _ _) as [port|] eqn:Ef.
  - destruct HR as (n' & t & -> & H1 & H2 & H3). apply find_some in Ef as [Hin _]. apply tried_range in Hin.
    assert (0 <= (port + 2 - RTPPortStart p) mod (RTPPortEnd p - RTPPortStart p) < RTPPortEnd p - RTPPortStart p) as Hm by (apply Z.mod_pos_bound; lia).
    rewrite Z.rem_mod_nonneg by lia. rewrite (i32_small ((port + 2 - RTPPortStart p) mod _)) by lia.
    do 3 eexists. split; [done|]. cbn. repeat (split; [done|]). done.
  - assert (tried (Z.to_nat (RTPPortEnd p - start)) start (RTPPortEnd p) <> []) as Hne.
    { destruct (Z.to_nat (RTPPortEnd p - start)) eqn:E; [lia|]. cbn. by replace (start <? RTPPortEnd p) with true by lia. }
    destruct (HR Hne) as (n' & t & q & e & ->). eauto.
Qed.

(** A session that binds from the port range gets the first free pair of
    ports the search tries (RTP on it, RTCP on the next), and fails exactly when
    none of the ports tried is one; after a success the next search starts behind
    the port taken, still inside the range. *)
Theorem port_range_first_fit own laddr p n (s : session) : iceEnabled s = false -> ua_Port laddr = 0 -> range_ok p ->
  let start := RTPPortStart p + rtpPortOffset p in
  match List.find pair_free (tried (Z.to_nat (RTPPortEnd p - start)) start (RTPPortEnd p)) with
  | Some port => exists q n' t, createListeners ListenUDP own laddr p n s = (q, n', t, None) /\
      ua_Port (Laddr t) = port /\ start <= port < RTPPortEnd p /\ is_Some (rtpConn t) /\ is_Some (rtcpConn t) /\
      range_ok q /\ rtpPortOffset q = (port + 2 - RTPPortStart p) mod (RTPPortEnd p - RTPPortStart p)
  | None => exists n' t e, createListeners ListenUDP own laddr p n s = (p, n', t, Some (ErrWrap "no available ports in range" e))
  end.
Proof. apply createListeners_range. Qed.

(** The search never wraps: with every port from the current offset up taken
    it fails although pairs below the offset are free, and the offset stays, so
    that every later search fails as well until a port above it is released. *)
Theorem port_range_never_wraps own own' laddr laddr' p n n' (s s' : session) : iceEnabled s = false -> iceEnabled s' = false ->
  ua_Port laddr = 0 -> ua_Port laddr' = 0 -> range_ok p ->
  (forall q, RTPPortStart p + rtpPortOffset p <= q < RTPPortEnd p -> free q = false) ->
  exists m t e m' t' e', createListeners ListenUDP own laddr p n s = (p, m, t, Some e) /\
    createListeners ListenUDP own' laddr' p n' s' = (p, m', t', Some e').
Proof.
  intros Hi Hi' Hl Hl' Hr Ht.
  assert (List.find pair_free (tried (Z.to_nat (RTPPortEnd p - (RTPPortStart p + rtpPortOffset p))) (RTPPortStart p + rtpPortOffset p) (RTPPortEnd p)) = None) as Hn.
  { destruct (List.find _ _) as [q|] eqn:E; [|done]. apply find_some in E as [Hin Hq]. apply tried_range in Hin.
    unfold pair_free in Hq. by rewrite Ht in Hq by lia. }
  pose proof (createListeners_range own laddr p n s Hi Hl Hr) as H1. pose proof (createListeners_range own' laddr' p n' s' Hi' Hl' Hr) as H2.
  cbv zeta in H1, H2. rewrite Hn in H1, H2. destruct H1 as (m & t & e & ->), H2 as (m' & t' & e' & ->). eauto 10.
Qed.

End Ports.

(** A range of ten ports, the first four free. *)
Definition ex_free (p : Z) : bool := (10000 <=? p) && (p <? 10004).
Definition ex_listen (n : nat) (ip : IP) (p : Z) : (UDPAddr * nat) + error :=
  if ex_free p then inl ({| ua_IP := ip; ua_Port := p; ua_Zone := EmptyString |}, S n) else inr (ErrNew "address already in use").
Definition ex_ports (offset : Z) : ports := {| RTPPortStart := 10000; RTPPortEnd := 10010; rtpPortOffset := offset |}.
Definition ex_bare : @MediaSession.MediaSession unit unit := session_zero {| Certificates := []; SDPSetupRole := None |}.

Lemma ex_listen_port n ip p : p <> 0 ->
  if ex_free p then exists conn, ex_listen n ip p = inl ({| ua_IP := ip; ua_Port := p; ua_Zone := EmptyString |}, conn)
  else exists e, ex_listen n ip p = inr e.
Proof. intros _. unfold ex_listen. destruct (ex_free p); eauto. Qed.

Lemma port_range_first_fit_witness : exists q n' t,
  createListeners ex_listen true addr_zero (ex_ports 2) 0 ex_bare = (q, n', t, None) /\ ua_Port (Laddr t) = 10002 /\ rtpPortOffset q = 4.
Proof.
  destruct (port_range_first_fit ex_listen ex_free ex_listen_port true addr_zero (ex_ports 2) 0 ex_bare eq_refl eq_refl ltac:(unfold range_ok; cbn; lia))
    as (q & n' & t & H1 & H2 & _ & _ & _ & _ & H3).
  exists q, n', t. split; [exact H1|]. split; [exact H2|exact H3].
Defined.

Lemma port_range_never_wraps_witness : pair_free ex_free 10000 = true /\ exists m t e,
  createListeners ex_listen true addr_zero (ex_ports 4) 0 ex_bare = (ex_ports 4, m, t, Some e).
Proof.
  split; [reflexivity|].
  destruct (port_range_never_wraps ex_listen ex_free ex_listen_port true true addr_zero addr_zero (ex_ports 4) 0 0 ex_bare ex_bare
    eq_refl eq_refl eq_refl eq_refl) as (m & t & e & _ & _ & _ & H & _).
  - unfold range_ok. cbn. lia.
  - intros q Hq. cbn in Hq. unfold ex_free. lia.
  - exists m, t, e. exact H.
Defined.

End MediaPorts.
