(* ===== verification/Dtls.v ===== *)
(** * The DTLS key exchange

    [media/dtls.go]: the DTLS configuration and what it hands the DTLS stack,
    the fingerprints of certificates and the check of the peer's certificate
    against those of its SDP, and the conn that lends the media socket to the
    DTLS stack. The X.509 parser and the constants of pion/dtls are arguments. *)
From S2P Require Import Prelude GoStrings Sha Hex MediaSdp MediaSession.
Import GoStrings Sha Hex MediaSdp MediaSession.

Module Dtls.

(** ** Certificates and fingerprints *)

(** What is used of a [tls.Certificate]: its DER chain, leaf first. *)
Record tls_Certificate := { Certificate : list bytes }.

Definition dtlsFingerprintHashes (name : string) : option (bytes -> bytes) :=
  if String.eqb name "sha-1" then Some sha1
  else if String.eqb name "sha-224" then Some sha224
  else if String.eqb name "sha-256" then Some sha256
  else if String.eqb name "sha-384" then Some sha384
  else if String.eqb name "sha-512" then Some sha512
  else None.

Section Certificates.

(** [x509.ParseCertificate], of which the code uses the [Raw] of the result. *)
Context (ParseCertificate : bytes -> bytes + error).

Definition dtlsCertificateFingerprint (cert : bytes) (newHash : bytes -> bytes) : string + error :=
  match ParseCertificate cert with
  | inr _ => inr (ErrNew "failed to parse certificate")
  | inl raw => inl (colons true (ToUpper (EncodeToString (newHash raw))))
  end.

Definition dtlsSHA256Fingerprint (cert : tls_Certificate) : string + error :=
  match Certificate cert with
  | [] => inr (ErrNew "no certificate data found")
  | leaf :: _ => dtlsCertificateFingerprint leaf sha256
  end.

Fixpoint match_fingerprints (remoteCert : bytes) (fps : list sdpFingerprints) : option error :=
  match fps with
  | [] => Some (ErrNew "dtls certificate does not match any SDP fingerprint")
  | fp :: fps =>
    match dtlsFingerprintHashes (ToLower (alg fp)) with
    | None => match_fingerprints remoteCert fps
    | Some newHash =>
      match dtlsCertificateFingerprint remoteCert newHash with
      | inr err => Some err
      | inl remoteFP => if EqualFold (fingerprint fp) remoteFP then None else match_fingerprints remoteCert fps
      end
    end
  end.

(** [peer] is [state.PeerCertificates]. *)
Definition dtlsVerifyConnection (peer : list bytes) (fps : list sdpFingerprints) : option error :=
  match peer with
  | [] => Some (ErrNew "no certificate found in dtls")
  | remoteCert :: _ => match_fingerprints remoteCert fps
  end.

(** ** The configuration *)

(** Constants of pion/dtls. *)
Context (RequireAnyClientCert SRTP_AEAD_AES_128_GCM SRTP_AES128_CM_HMAC_SHA1_80 : Z).

(** A nil slice is [None]. *)
Record DTLSConfig := {
  dc_Certificates : list tls_Certificate;
  ServerName : string;
  ServerClientAuth : Z;
  SRTPProfiles : option (list Z);
  dc_SDPSetupRole : option (bool -> string);
  EllipticCurves : option (list Z) }.

Fixpoint check_each (i : Z) (certs : list tls_Certificate) : option error :=
  match certs with
  | [] => None
  | cert :: certs =>
    match dtlsSHA256Fingerprint cert with
    | inr err => Some (ErrWrap ("dtls certificate " +:+ Itoa i +:+ " has no fingerprint") err)
    | inl _ => check_each (i + 1) certs
    end
  end.

Definition checkCertificates (conf : DTLSConfig) : option error :=
  match dc_Certificates conf with
  | [] => Some (ErrNew "dtls needs a certificate, none is configured")
  | certs => check_each 0 certs
  end.

Definition clientAuth (conf : DTLSConfig) : Z :=
  if ServerClientAuth conf <? RequireAnyClientCert then RequireAnyClientCert else ServerClientAuth conf.

(** What the negotiation of a session reads of its configuration. *)
Definition negotiated_conf (conf : DTLSConfig) : MediaSession.DTLSConfig (cert := tls_Certificate) :=
  {| Certificates := dc_Certificates conf; SDPSetupRole := dc_SDPSetupRole conf |}.

(** The fields [ToLibConf] sets; [lc_trace] is a logger at trace level, and an
    empty [lc_EllipticCurves] is a nil slice. *)
Record LibConfig := {
  lc_Certificates : list tls_Certificate;
  lc_SRTPProtectionProfiles : list Z;
  lc_ClientAuth : Z;
  lc_RequireExtendedMasterSecret : bool;
  lc_InsecureSkipVerify : bool;
  lc_ServerName : string;
  lc_VerifyConnection : list bytes -> option error;
  lc_EllipticCurves : list Z;
  lc_trace : bool }.

Definition ToLibConf (DTLSDebug : bool) (conf : DTLSConfig) (fps : list sdpFingerprints) : LibConfig :=
  {| lc_Certificates := dc_Certificates conf;
     lc_SRTPProtectionProfiles :=
       match SRTPProfiles conf with
       | Some ps => ps
       | None => [SRTP_AEAD_AES_128_GCM; SRTP_AES128_CM_HMAC_SHA1_80]
       end;
     lc_ClientAuth := clientAuth conf;
     lc_RequireExtendedMasterSecret := true;
     lc_InsecureSkipVerify := String.eqb (ServerName conf) EmptyString;
     lc_ServerName := ServerName conf;
     lc_VerifyConnection := fun peer => dtlsVerifyConnection peer fps;
     lc_EllipticCurves := match EllipticCurves conf with Some cs => cs | None => [] end;
     lc_trace := DTLSDebug |}.

End Certificates.

(** ** Records and handshake messages *)

(** The byte at [i]; the code reads none past the end. *)
Definition at_ (p : bytes) (i : nat) : Z := nth i p 0.

Definition recordHeaderLen : Z := 13.
Definition handshakeHeaderLen : Z := 12.
Definition contentTypeHandshake : Z := 22.
Definition handshakeTypeClientHello : Z := 1.

Definition isClientHelloDatagram (p : bytes) : bool :=
  if (len p <? recordHeaderLen + handshakeHeaderLen) || negb (at_ p 0 =? contentTypeHandshake) ||
     negb (at_ p 3 =? 0) || negb (at_ p 4 =? 0) then false
  else
    let recordLen := Z.lor (Z.shiftl (at_ p 11) 8) (at_ p 12) in
    if negb (recordHeaderLen + recordLen =? len p) then false
    else
      let h := drop 13 p in
      if negb (at_ h 0 =? handshakeTypeClientHello) then false
      else
        let msgLen := Z.lor (Z.lor (Z.shiftl (at_ h 1) 16) (Z.shiftl (at_ h 2) 8)) (at_ h 3) in
        let fragOffset := Z.lor (Z.lor (Z.shiftl (at_ h 6) 16) (Z.shiftl (at_ h 7) 8)) (at_ h 8) in
        let fragLen := Z.lor (Z.lor (Z.shiftl (at_ h 9) 16) (Z.shiftl (at_ h 10) 8)) (at_ h 11) in
        (fragOffset =? 0) && (fragLen =? msgLen) && (handshakeHeaderLen + msgLen =? recordLen).

(** A datagram whose first byte is that of a DTLS record. *)
Definition isDTLS (buf : bytes) : bool :=
  match buf with
  | [] => false
  | b :: _ => (20 <=? b) && (b <=? 63)
  end.

(** ** The lent socket

    The DTLS stack, the reader of the media session and [awaitFinalizeRun] call
    the methods of one conn from several goroutines. A call is a thread that
    passes its check of [detached], calls the socket, and then takes [mu] to
    note what happened; every such step may interleave with those of the
    others. *)
Section KeyExchange.

Context {addr : Type}.

(** [hello] and [helloAddr] are one value: they are set together. *)
Record dtlsKeyExchangeConn := {
  detached : bool;
  hello : option (bytes * addr);
  heard : bool }.
#[export] Instance conn_eta : Eta dtlsKeyExchangeConn :=
  fun c => {| detached := detached c; hello := hello c; heard := heard c |}.

Definition newDTLSKeyExchangeConn : dtlsKeyExchangeConn :=
  {| detached := false; hello := None; heard := false |}.

Definition detach (c : dtlsKeyExchangeConn) : dtlsKeyExchangeConn := c <| detached := true |>.

(** What [ReadFrom] notes of the datagram the socket returned. *)
Definition note_read (p : bytes) (c : dtlsKeyExchangeConn) : dtlsKeyExchangeConn :=
  if isDTLS p then c <| heard := true |> <| hello := None |> else c.

(** What [WriteTo] notes once the socket has taken [p] or refused it. *)
Definition note_write (p : bytes) (a : addr) (ok : bool) (c : dtlsKeyExchangeConn) : dtlsKeyExchangeConn :=
  if ok && isClientHelloDatagram p && negb (heard c) then c <| hello := Some (p, a) |> else c.

(** What [resendHello] is to send, once it holds [mu]. *)
Definition to_resend (c : dtlsKeyExchangeConn) : option (bytes * addr) :=
  if heard c || detached c then None else hello c.

(** Where a call is: about to call the socket, or back from it. [TResend] holds
    [mu]. *)
Inductive thread :=
| TWrite (p : bytes) (a : addr)
| TWrote (p : bytes) (a : addr) (ok : bool)
| TRead
| TGot (p : bytes)
| TResend
| TDone.

(** The calls of the socket, and what the conn notes of them, in order. *)
Inductive log_item :=
| LSend (p : bytes) (a : addr) (ok : bool)
| LRecv (p : bytes)
| LAgain (p : bytes) (a : addr)
| LNoteWrite (p : bytes) (a : addr) (ok : bool)
| LNoteRead (p : bytes).

Record world := {
  kx : dtlsKeyExchangeConn;
  mu : bool;
  threads : list thread;
  log : list log_item }.
#[export] Instance world_eta : Eta world :=
  fun w => {| kx := kx w; mu := mu w; threads := threads w; log := log w |}.

Definition new_world : world :=
  {| kx := newDTLSKeyExchangeConn; mu := false; threads := []; log := [] |}.

Inductive event :=
| EWrite (p : bytes) (a : addr)          (* WriteTo is called *)
| ERead                                  (* ReadFrom is called *)
| EResend                                (* resendHello is called and has mu *)
| EDetach
| EClose
| EReturn (i : nat) (p : bytes) (ok : bool)  (* the socket returns in thread i: p if it was reading *)
| ENote (i : nat).                       (* thread i, back from the socket, takes mu *)

Definition spawn (t : thread) (w : world) : world := w <| threads := threads w ++ [t] |>.
Definition goes (i : nat) (t : thread) (w : world) : world := w <| threads := <[i:=t]> (threads w) |>.
Definition logs (x : log_item) (w : world) : world := w <| log := log w ++ [x] |>.

(** A call on a detached conn returns at once. An event that cannot happen in
    [w] leaves it: a thread waits for [mu], or is elsewhere. *)
Definition step (w : world) (ev : event) : world :=
  match ev with
  | EWrite p a => if detached (kx w) then w else spawn (TWrite p a) w
  | ERead => if detached (kx w) then w else spawn TRead w
  | EResend =>
    if mu w then w
    else match to_resend (kx w) with
         | None => w
         | Some _ => spawn TResend (w <| mu := true |>)
         end
  | EDetach => w <| kx := detach (kx w) |>
  | EClose => w
  | EReturn i p ok =>
    match threads w !! i with
    | Some (TWrite q a) => logs (LSend q a ok) (goes i (TWrote q a ok) w)
    | Some TRead => logs (LRecv p) (goes i (TGot p) w)
    | Some TResend =>
      match hello (kx w) with
      | Some (q, a) => logs (LAgain q a) (goes i TDone (w <| mu := false |>))
      | None => w
      end
    | _ => w
    end
  | ENote i =>
    if mu w then w
    else match threads w !! i with
         | Some (TWrote p a ok) => logs (LNoteWrite p a ok) (goes i TDone (w <| kx := note_write p a ok (kx w) |>))
         | Some (TGot p) => logs (LNoteRead p) (goes i TDone (w <| kx := note_read p (kx w) |>))
         | _ => w
         end
  end.

Definition run (w : world) (evs : list event) : world := fold_left step evs w.

(** [retireDTLS]: the conn is detached before the DTLS stack closes its end,
    whatever calls that makes. *)
Definition retireDTLS (w : world) (close : list event) : world := run (step w EDetach) close.

End KeyExchange.

(** ** The resending of the ClientHello

    The delay until the next one in [awaitFinalizeRun], and the times of the
    first [n], from when the wait began. *)
Definition next_resend (resendAfter : Z) : Z := Z.max Second (2 * resendAfter).
Fixpoint resend_times (n : nat) (now resendAfter : Z) : list Z :=
  match n with
  | O => []
  | S n => now :: resend_times n (now + next_resend resendAfter) (next_resend resendAfter)
  end.

End Dtls.
