(* ===== verification/DtlsProps.v ===== *)
(** * The DTLS key exchange: its properties

    The peer's certificate is accepted exactly when a fingerprint of its SDP
    denotes its digest, so exactly the certificates a session announces are; and
    the lent socket carries nothing of the DTLS stack once it is taken back. *)
From S2P Require Import Prelude GoStrings Sha Hex NetIP Sdp SdpProps Codec MediaSdp MediaSdpProps MediaSession Dtls.
Import GoStrings Sha Hex NetIP Sdp SdpProps Codecs MediaSdp MediaSdpProps MediaSession Dtls.

Module DtlsProps.

(** ** Fingerprints *)

Lemma hash_sums name h b : dtlsFingerprintHashes name = Some h -> is_bytes (h b) /\ h b <> [].
Proof.
  intros H.
  assert (is_bytes (h b) /\ (20 <= length (h b))%nat) as [H1 H2].
  { unfold dtlsFingerprintHashes in H. repeat case_match; simplify_eq; rewrite ?sha1_length; unfold sha224, sha256, sha384, sha512;
      rewrite ?Sum2_length by (vm_compute; lia); split; auto using sha1_range, Sum2_range; lia. }
  split; [done|]. by destruct (h b); [simpl in H2; lia|].
Qed.

(** The hash functions of [remoteDTLS] are those of the check. *)
Lemma supported_hash_spec a : supported_hash a = true <-> is_Some (dtlsFingerprintHashes (ToLower a)).
Proof.
  unfold supported_hash, dtlsFingerprintHashes. cbn [existsb].
  repeat match goal with |- context [String.eqb (ToLower a) ?x] => destruct (String.eqb (ToLower a) x) end;
    (split; [by eauto|intros [??]; done]).
Qed.

Section Certificates.

Context (ParseCertificate : bytes -> bytes + error).

(** A fingerprint of an SDP denotes the digest of a certificate. *)
Definition denotes (raw : bytes) (fp : sdpFingerprints) : Prop :=
  exists h, dtlsFingerprintHashes (ToLower (alg fp)) = Some h /\ octets (fingerprint fp) = Some (h raw).

Lemma match_fingerprints_spec leaf raw fps : ParseCertificate leaf = inl raw ->
  match_fingerprints ParseCertificate leaf fps = None <-> Exists (denotes raw) fps.
Proof.
  intros Hp. induction fps as [|fp fps IH]; [by rewrite Exists_nil|].
  rewrite Exists_cons, <- IH. cbn [match_fingerprints]. unfold denotes.
  destruct (dtlsFingerprintHashes (ToLower (alg fp))) as [h|] eqn:Eh; [|naive_solver].
  unfold dtlsCertificateFingerprint. rewrite Hp.
  destruct (hash_sums _ _ raw Eh) as [H1 H2]. pose proof (EqualFold_octets (fingerprint fp) (h raw) H1 H2) as HE.
  destruct (EqualFold (fingerprint fp) _); [split; [|done]; intros _; left; exists h; split; [done|by apply HE]|].
  split; [by right|]. intros [(h' & Heq & Ho)|H]; [|done]. injection Heq as <-. by apply HE in Ho.
Qed.

(** A certificate that does not parse is refused, unless no fingerprint can be
    checked at all, which is refused as well. *)
Lemma match_fingerprints_bad leaf err fps : ParseCertificate leaf = inr err ->
  is_Some (match_fingerprints ParseCertificate leaf fps).
Proof.
  intros Hp. induction fps as [|fp fps IH]; [eauto|]. cbn [match_fingerprints].
  destruct (dtlsFingerprintHashes _) as [h|]; [|done]. unfold dtlsCertificateFingerprint. rewrite Hp. eauto.
Qed.

(** The leaf of the peer's chain, parsed. *)
Definition peer_raw (peer : list bytes) (raw : bytes) : Prop :=
  exists leaf rest, peer = leaf :: rest /\ ParseCertificate leaf = inl raw.

Lemma verify_spec peer fps : dtlsVerifyConnection ParseCertificate peer fps = None <->
  exists raw, peer_raw peer raw /\ Exists (denotes raw) fps.
Proof.
  unfold peer_raw. destruct peer as [|leaf rest]; cbn [dtlsVerifyConnection]; [naive_solver|].
  destruct (ParseCertificate leaf) as [raw|err] eqn:Ep.
  - rewrite (match_fingerprints_spec _ _ _ Ep). split; [eauto 10|].
    intros (raw' & (l & r & [= <- <-] & Hp) & HE). by rewrite Ep in Hp; injection Hp as <-.
  - destruct (match_fingerprints_bad _ _ fps Ep) as [e ->]. split; [done|].
    intros (raw' & (l & r & [= <- <-] & Hp) & _). by rewrite Ep in Hp.
Qed.

(** The certificate of a [tls.Certificate], parsed. *)
Definition cert_raw (c : tls_Certificate) (raw : bytes) : Prop := peer_raw (Certificate c) raw.

Lemma fingerprint_spec c fp : dtlsSHA256Fingerprint ParseCertificate c = inl fp ->
  exists raw, cert_raw c raw /\ fp = colons true (ToUpper (EncodeToString (sha256 raw))).
Proof.
  unfold dtlsSHA256Fingerprint, cert_raw, peer_raw. destruct (Certificate c) as [|leaf rest]; [done|].
  unfold dtlsCertificateFingerprint. destruct (ParseCertificate leaf) as [raw|] eqn:E; [|done].
  intros [= <-]. eauto 10.
Qed.

Lemma cert_raw_unique c r r' : cert_raw c r -> cert_raw c r' -> r = r'.
Proof. intros (l & k & E & Hl) (l' & k' & E' & Hl'). rewrite E in E'. injection E' as <- <-. congruence. Qed.

Lemma check_each_spec i certs : check_each ParseCertificate i certs = None ->
  Forall (fun c => exists fp, dtlsSHA256Fingerprint ParseCertificate c = inl fp) certs.
Proof.
  revert i. induction certs as [|c certs IH]; intros i H; [constructor|]. cbn [check_each] in H.
  destruct (dtlsSHA256Fingerprint ParseCertificate c) as [fp|] eqn:E; [|done]. constructor; eauto.
Qed.

(** ** The attributes of a body as the peer reads them *)

Definition no_dtls : MediaSession.dtls_attrs := {| dt_setup := EmptyString; dt_tlsID := EmptyString; dt_fingerprints := [] |}.

(** No attribute the DTLS part of [RemoteSDP] reads. *)
Definition dtls_plain (a : string) : bool :=
  negb (HasPrefix a "setup:") && negb (HasPrefix a "tls-id:") && negb (HasPrefix a "fingerprint:").

Lemma read_dtls_app l k r : read_dtls (l ++ k) r = read_dtls l r ≫= read_dtls k.
Proof.
  revert r. induction l as [|v l IH]; [done|]. intros r. cbn [app read_dtls].
  destruct (HasPrefix v "setup:"); [apply IH|]. destruct (HasPrefix v "tls-id:"); [apply IH|].
  destruct (HasPrefix v "fingerprint:"); [|apply IH]. destruct (Split _ _) as [|a [|fp ?]]; [done..|apply IH].
Qed.

Lemma read_dtls_plain l r : forallb dtls_plain l = true -> read_dtls l r = Some r.
Proof.
  induction l as [|v l IH]; [done|]. cbn [forallb read_dtls]. unfold dtls_plain at 1.
  destruct (HasPrefix v "setup:"), (HasPrefix v "tls-id:"), (HasPrefix v "fingerprint:"); try done; apply IH.
Qed.

Lemma codecs_dtls_plain codecs : forallb dtls_plain (flat_map codec_attrs codecs) = true.
Proof.
  induction codecs as [|c codecs IH]; [done|]. cbn [flat_map]. rewrite forallb_app, IH, andb_true_r.
  unfold codec_attrs, formatRTPMap. repeat (destruct (EqualFold _ _); [reflexivity|]).
  by repeat (destruct (_ =? _); [reflexivity|]).
Qed.

(** The fingerprints a body carries. *)
Definition written (fps : list sdpFingerprints) : list sdpFingerprints :=
  filter (fun fp => fingerprint fp <> EmptyString) fps.
Definition fp_words (fp : sdpFingerprints) : bool := no_space (alg fp) && no_space (fingerprint fp).

Lemma space_sep s : no_space s = true -> str_forall (not_char " ") s = true.
Proof. apply str_forall_impl. intros c Hc. apply negb_true_iff, Ascii.eqb_neq. by intros ->. Qed.

Lemma read_fingerprint a fp l r : no_space a = true -> no_space fp = true ->
  read_dtls (("fingerprint:" +:+ a +:+ " " +:+ fp) :: l) r =
  read_dtls l {| dt_setup := dt_setup r; dt_tlsID := dt_tlsID r;
                 dt_fingerprints := dt_fingerprints r ++ [{| fingerprint := fp; alg := a |}] |}.
Proof.
  intros Ha Hf.
  cbn [read_dtls].
  change (HasPrefix ("fingerprint:" +:+ a +:+ " " +:+ fp) "setup:") with false.
  change (HasPrefix ("fingerprint:" +:+ a +:+ " " +:+ fp) "tls-id:") with false.
  rewrite (HasPrefix_app "fingerprint:"). cbv beta iota.
  change (str_drop 12 ("fingerprint:" +:+ a +:+ " " +:+ fp)) with (a +:+ String " " fp).
  by rewrite Split_app, Split_no by auto using space_sep.
Qed.

Lemma read_fingerprints fps r : forallb fp_words fps = true ->
  read_dtls (str_drop 2 <$> omap (fun fp => if String.eqb (fingerprint fp) EmptyString then None
                  else Some ("a=fingerprint:" +:+ alg fp +:+ " " +:+ fingerprint fp)) fps) r =
  Some {| dt_setup := dt_setup r; dt_tlsID := dt_tlsID r; dt_fingerprints := dt_fingerprints r ++ written fps |}.
Proof.
  revert r. induction fps as [|[fp a] fps IH]; intros r; cbn [forallb]; [intros _; destruct r; cbn; by rewrite app_nil_r|].
  intros [[Ha Hf]%andb_true_iff Hl]%andb_true_iff. cbn [omap list_omap fingerprint alg] in *.
  unfold written. destruct (String.eqb_spec fp EmptyString) as [->|Hne].
  - rewrite filter_cons_False by (cbn; tauto). by apply IH.
  - rewrite filter_cons_True by done. cbn [fmap list_fmap].
    change (str_drop 2 ("a=fingerprint:" +:+ a +:+ " " +:+ fp)) with ("fingerprint:" +:+ a +:+ " " +:+ fp).
    rewrite read_fingerprint, IH by done. cbn [dt_setup dt_tlsID dt_fingerprints]. by rewrite <- app_assoc.
Qed.

Lemma read_setup v l r : read_dtls (("setup:" +:+ v) :: l) r =
  read_dtls l {| dt_setup := TrimSpace v; dt_tlsID := dt_tlsID r; dt_fingerprints := dt_fingerprints r |}.
Proof. cbn [read_dtls]. by rewrite HasPrefix_app. Qed.

Lemma read_tlsID v l r : read_dtls (("tls-id:" +:+ v) :: l) r =
  read_dtls l {| dt_setup := dt_setup r; dt_tlsID := TrimSpace v; dt_fingerprints := dt_fingerprints r |}.
Proof.
  cbn [read_dtls]. change (HasPrefix ("tls-id:" +:+ v) "setup:") with false. by rewrite (HasPrefix_app "tls-id:").
Qed.

Lemma read_dtls_lines d r : forallb fp_words (ds_fingerprints d) = true ->
  exists tid, read_dtls (MediaSdpProps.dtls_attrs (Some d)) r =
    Some {| dt_setup := TrimSpace (ds_setup d); dt_tlsID := tid;
            dt_fingerprints := dt_fingerprints r ++ written (ds_fingerprints d) |}.
Proof.
  intros Hw. unfold MediaSdpProps.dtls_attrs, dtls_lines. rewrite !fmap_app, read_dtls_app.
  change (str_drop 2 <$> ["a=setup:" +:+ ds_setup d]) with ["setup:" +:+ ds_setup d].
  rewrite read_setup. cbn [mbind option_bind read_dtls]. rewrite read_dtls_app, read_fingerprints by done.
  cbn [mbind option_bind dt_setup dt_tlsID dt_fingerprints].
  destruct (String.eqb (ds_tlsID d) EmptyString); [eexists; reflexivity|].
  change (str_drop 2 <$> ["a=tls-id:" +:+ ds_tlsID d]) with ["tls-id:" +:+ ds_tlsID d]. rewrite read_tlsID.
  eexists. reflexivity.
Qed.

Lemma ice_dtls_plain i : forallb dtls_plain (match i with Some i => candidates i | None => [] end) = true ->
  forallb dtls_plain (MediaSdpProps.ice_attrs i) = true.
Proof.
  destruct i as [i|]; [|done]. intros H. unfold MediaSdpProps.ice_attrs, ice_lines. rewrite !fmap_app, !forallb_app.
  replace (forallb dtls_plain (str_drop 2 <$> ["a=ice-ufrag:" +:+ ufrag i; "a=ice-pwd:" +:+ pwd i])) with true by done.
  cbn [andb]. apply andb_true_iff. split; [|by destruct (is_rtcpMux i)].
  rewrite <- list_fmap_compose. induction (candidates i) as [|c l IH]; [done|].
  apply andb_true_iff in H as [Hc Hl]. cbn [fmap list_fmap forallb]. rewrite IH by done.
  rewrite andb_true_r. exact Hc.
Qed.

(** The fingerprints of the DTLS lines a body was generated with are what is
    read from it. *)
Lemma body_read_dtls sid sver profile oip cip port mode codecs sdes d iceSet streams s e :
  body_ok sid sver profile oip cip port mode codecs sdes (Some d) iceSet streams ->
  forallb dtls_plain (mode :: match iceSet with Some i => candidates i | None => [] end) = true ->
  forallb fp_words (ds_fingerprints d) = true -> (os_audio streams < length (os_media streams))%nat ->
  UnmarshalSections (generateSDPForAudio sid sver profile oip cip port mode codecs sdes (Some d) iceSet streams) = (s, e) ->
  exists sd r, Description s (os_audio streams) = Some sd /\ read_dtls (Values sd "a") no_dtls = Some r /\ dt_setup r = TrimSpace (ds_setup d) /\ dt_fingerprints r = written (ds_fingerprints d).
Proof.
  intros HB [Hm Hc]%andb_true_iff Hw Ha. rewrite generated_sections by done. intros [= <- <-].
  set (sec := audio_section profile port mode codecs sdes (Some d) iceSet).
  set (all := {| Session := session_Lines sid sver oip cip iceSet; sec_Media := _ |}).
  assert (sec_Media all !! os_audio streams = Some sec) as Hsec.
  { unfold all, generated_media. cbn [sec_Media]. rewrite lookup_app_r; rewrite length_fmap, length_take; [|lia].
    by replace (_ - _)%nat with 0%nat by lia. }
  destruct (Description_values all _ sec "a" Hsec) as (sd & HD & HV). exists sd. rewrite HV.
  unfold all, sec, audio_section. cbn [Session Lines]. rewrite audio_values, read_dtls_app.
  rewrite read_dtls_plain by (destruct iceSet as [i|]; [by destruct (lite i)|done]). cbn [mbind option_bind]. rewrite read_dtls_app.
  rewrite read_dtls_plain by apply codecs_dtls_plain. cbn [mbind option_bind]. rewrite read_dtls_app.
  rewrite (read_dtls_plain ["ptime:20"; "maxptime:20"; mode]) by (cbn [forallb]; by rewrite Hm). cbn [mbind option_bind]. rewrite read_dtls_app.
  rewrite (read_dtls_plain (crypto_attrs sdes)) by (unfold crypto_attrs; by destruct (String.eqb _ _)). cbn [mbind option_bind]. rewrite read_dtls_app.
  destruct (read_dtls_lines d no_dtls Hw) as [tid ->]. cbn [mbind option_bind].
  rewrite read_dtls_plain by by apply ice_dtls_plain. eauto 10.
Qed.

(** The certificates of a checked configuration all have a fingerprint. *)
Lemma checked_fingerprints {srtp_ctx} conf (s : MediaSession (cert := tls_Certificate) (srtp_ctx := srtp_ctx)) :
  checkCertificates ParseCertificate conf = None -> DTLSConf s = negotiated_conf conf ->
  Forall2 (fun c fp => exists raw, cert_raw c raw /\
      fp = {| fingerprint := fingerprint_of (sha256 raw); alg := "SHA-256" |})
    (dc_Certificates conf) (localDTLSFingerprints (dtlsSHA256Fingerprint ParseCertificate) s).
Proof.
  intros Hc Hs. unfold localDTLSFingerprints. rewrite Hs. cbn [negotiated_conf Certificates].
  assert (check_each ParseCertificate 0 (dc_Certificates conf) = None) as H.
  { unfold checkCertificates in Hc. by destruct (dc_Certificates conf). }
  apply check_each_spec in H. clear Hc Hs. induction H as [|c l [fp E] HF IH]; [constructor|].
  cbn [fmap list_fmap]. rewrite E. constructor; [|exact IH].
  destruct (fingerprint_spec _ _ E) as (raw & Hr & ->). eauto.
Qed.

Lemma sha256_sum raw : is_bytes (sha256 raw) /\ sha256 raw <> [].
Proof. by apply (hash_sums "sha-256"). Qed.

Lemma sha256_word raw : word (fingerprint_of (sha256 raw)) = true.
Proof. apply fingerprint_of_word; apply sha256_sum. Qed.

Lemma denotes_sha256 raw raw' :
  denotes raw {| fingerprint := fingerprint_of (sha256 raw'); alg := "SHA-256" |} <-> sha256 raw = sha256 raw'.
Proof.
  unfold denotes. cbn [fingerprint alg]. destruct (sha256_sum raw') as [H1 H2].
  unfold fingerprint_of. rewrite octets_colons by done. split.
  - intros (h & Hh & Ho). injection Hh as <-. by injection Ho.
  - intros E. exists sha256. by rewrite E.
Qed.

(** C5. The fingerprints bind the DTLS peer to the signalling: a session whose
    certificates pass [checkCertificates] writes its DTLS lines into the body
    [generateSDPForAudio] makes, the peer reads the body back, and the check it
    then runs on the DTLS association ([dtlsVerifyConnection]) accepts a chain
    exactly when its leaf parses and has the SHA-256 digest of one of the
    session's own leaf certificates. Every other certificate is refused, and so
    is a peer that shows none. *)
Theorem announced_certificates_accepted {srtp_ctx} conf (s t : MediaSession (cert := tls_Certificate) (srtp_ctx := srtp_ctx))
    le d sid sver profile oip cip port mode codecs sdes iceSet streams secs e :
  checkCertificates ParseCertificate conf = None -> DTLSConf s = negotiated_conf conf ->
  localDTLS (dtlsSHA256Fingerprint ParseCertificate) le s = (t, Some d) ->
  body_ok sid sver profile oip cip port mode codecs sdes (Some d) iceSet streams ->
  forallb dtls_plain (mode :: match iceSet with Some i => candidates i | None => [] end) = true ->
  (os_audio streams < length (os_media streams))%nat ->
  UnmarshalSections (generateSDPForAudio sid sver profile oip cip port mode codecs sdes (Some d) iceSet streams) = (secs, e) ->
  exists sd r, Description secs (os_audio streams) = Some sd /\ read_dtls (Values sd "a") no_dtls = Some r /\
    existsb (fun fp => supported_hash (alg fp)) (dt_fingerprints r) = true /\
    forall peer, dtlsVerifyConnection ParseCertificate peer (dt_fingerprints r) = None <->
      exists raw c own, peer_raw peer raw /\ c ∈ dc_Certificates conf /\ cert_raw c own /\ sha256 raw = sha256 own.
Proof.
  intros Hc Hs Hl HB Hp Ha Hu. pose proof (checked_fingerprints _ _ Hc Hs) as HF.
  assert (ds_fingerprints d = localDTLSFingerprints (dtlsSHA256Fingerprint ParseCertificate) s) as Hd.
  { unfold localDTLS in Hl. destruct (bool_decide _); [|done]. destruct (localSDPTLSID _ _ s) as [s' tid]. by injection Hl as _ <-. }
  rewrite <- Hd in HF.
  assert (forallb fp_words (ds_fingerprints d) = true /\ written (ds_fingerprints d) = ds_fingerprints d /\
    Forall2 (fun c fp => exists raw, cert_raw c raw /\ fp = {| fingerprint := fingerprint_of (sha256 raw); alg := "SHA-256" |})
      (dc_Certificates conf) (ds_fingerprints d)) as (Hw & Hwr & HF2).
  { split; [|split; [|done]]; clear -HF; induction HF as [|c fp l k (raw & Hr & ->) HF IH]; [done| |done|].
    - cbn [forallb]. rewrite IH, andb_true_r. unfold fp_words. cbn [fingerprint alg].
      pose proof (sha256_word raw) as Hw. unfold word in Hw. by apply andb_true_iff in Hw as [_ ->].
    - unfold written. rewrite filter_cons_True; [by f_equal|]. cbn [fingerprint].
      pose proof (sha256_word raw) as Hw. unfold word in Hw. apply andb_true_iff in Hw as [Hw _].
      by apply negb_true_iff, String.eqb_neq in Hw. }
  destruct (body_read_dtls _ _ _ _ _ _ _ _ _ _ _ _ _ _ HB Hp Hw Ha Hu) as (sd & r & HD & HR & _ & Hf).
  exists sd, r. split; [done|]. split; [done|]. rewrite Hf, Hwr. split.
  - assert (dc_Certificates conf <> []) as Hne by (intros E; unfold checkCertificates in Hc; by rewrite E in Hc).
    destruct HF2 as [|c fp l k (raw & _ & ->) _]; [done|]. done.
  - intros peer. rewrite verify_spec. clear -HF2. split.
    + intros (raw & Hr & (fp & Hin & Hd)%Exists_exists).
      apply list_elem_of_lookup in Hin as [i Hi]. destruct (Forall2_lookup_r _ _ _ _ _ HF2 Hi) as (c & Hci & own & Ho & ->).
      apply denotes_sha256 in Hd. exists raw, c, own. split_and!; try done. by eapply list_elem_of_lookup_2.
    + intros (raw & c & own & Hr & Hin & Ho & Heq). exists raw. split; [done|]. apply Exists_exists.
      apply list_elem_of_lookup in Hin as [i Hi]. destruct (Forall2_lookup_l _ _ _ _ _ HF2 Hi) as (fp & Hfi & own' & Ho' & ->).
      eexists. split; [by eapply list_elem_of_lookup_2|]. apply denotes_sha256. by rewrite (cert_raw_unique _ _ _ Ho' Ho).
Qed.

End Certificates.

(** *** An announced certificate *)

(** A parser that takes any certificate of at least one byte. *)
Definition ex_parse (cert : bytes) : bytes + error :=
  match cert with [] => inr (ErrNew "x509: malformed certificate") | _ => inl cert end.
Definition ex_conf : DTLSConfig :=
  {| dc_Certificates := [{| Certificate := [[48; 130; 1]; [48; 130; 2]] |}]; ServerName := EmptyString; ServerClientAuth := 0;
     SRTPProfiles := None; dc_SDPSetupRole := None; EllipticCurves := None |}.
Definition ex_session : MediaSession (srtp_ctx := unit) :=
  session_zero (negotiated_conf ex_conf) <| SecureRTP := SecureRTPModeDTLS |>.
Definition ex_le : local_env := {| le_savpDisable := false; le_keysalt := []; le_tlsID := "3ad1"; le_ntp := 0 |}.
Definition ex_local : MediaSession * option dtlsSetup := localDTLS (dtlsSHA256Fingerprint ex_parse) ex_le ex_session.
Definition ex_d : dtlsSetup :=
  match ex_local.2 with Some d => d | None => {| ds_setup := EmptyString; ds_fingerprints := []; ds_tlsID := EmptyString |} end.
Definition ex_body : string :=
  generateSDPForAudio 7 8 "UDP/TLS/RTP/SAVP" ex_ip ex_ip 5000 "sendrecv" ex_codecs no_sdes (Some ex_d) None ex_streams.

Lemma ex_body_ok : body_ok 7 8 "UDP/TLS/RTP/SAVP" ex_ip ex_ip 5000 "sendrecv" ex_codecs no_sdes (Some ex_d) None ex_streams.
Proof.
  split; try (vm_compute; repeat split; (reflexivity || discriminate)).
  - split; [discriminate|]. repeat constructor; cbn; lia.
  - repeat constructor; cbn; try lia; try reflexivity; discriminate.
Qed.

Lemma announced_certificates_accepted_witness : exists secs sd r,
  UnmarshalSections ex_body = (secs, None) /\ Description secs 1 = Some sd /\ read_dtls (Values sd "a") no_dtls = Some r /\
  dtlsVerifyConnection ex_parse [[48; 130; 1]] (dt_fingerprints r) = None /\
  dtlsVerifyConnection ex_parse [[48; 130; 2]] (dt_fingerprints r) <> None /\
  dtlsVerifyConnection ex_parse [] (dt_fingerprints r) <> None.
Proof.
  destruct (UnmarshalSections ex_body) as [secs e] eqn:E.
  destruct (announced_certificates_accepted ex_parse ex_conf ex_session ex_local.1 ex_le ex_d 7 8 "UDP/TLS/RTP/SAVP" ex_ip ex_ip 5000
    "sendrecv" ex_codecs no_sdes None ex_streams secs e) as (sd & r & HD & HR & _ & HV).
  - vm_compute. reflexivity.
  - reflexivity.
  - vm_compute. reflexivity.
  - exact ex_body_ok.
  - reflexivity.
  - cbn. lia.
  - exact E.
  - exists secs, sd, r. split; [|split; [exact HD|split; [exact HR|split; [|split]]]].
    + assert ((UnmarshalSections ex_body).2 = None) as He by (vm_compute; reflexivity). rewrite E in He. by rewrite <- He.
    + apply HV. exists [48; 130; 1], {| Certificate := [[48; 130; 1]; [48; 130; 2]] |}, [48; 130; 1].
      split; [exists [48; 130; 1], []; split; reflexivity|]. split; [apply list_elem_of_here|].
      split; [exists [48; 130; 1], [[48; 130; 2]]; split; reflexivity|reflexivity].
    + intros H. apply HV in H as (raw & c & own & (l & k & Hl & Hp) & Hc & (l' & k' & Hl' & Hp') & Hs).
      injection Hl as <- <-. injection Hp as <-. apply list_elem_of_singleton in Hc as ->. injection Hl' as <- <-.
      injection Hp' as <-. vm_compute in Hs. discriminate Hs.
    + intros H. apply HV in H as (raw & c & own & (l & k & Hl & Hp) & _). discriminate Hl.
Defined.

End DtlsProps.
