(* ===== verification/DtlsConn.v ===== *)
(** * The lent socket: its properties

    Whatever order the goroutines of the DTLS stack and of the media session
    take, a ClientHello is sent again only as the retransmission of the last one,
    before anything was heard, and a socket that was taken back is used by no
    call that had not already reached it. *)
From S2P Require Import Prelude Sha Dtls.
Import Sha Dtls.

Module DtlsConn.

(** ** A datagram that holds one whole ClientHello

    A record of type 22 in epoch 0 with any version and sequence number, around
    a handshake message of type 1 with any message sequence, in one fragment. *)
Definition client_hello (version seqnum mseq body : bytes) : bytes :=
  [22] ++ version ++ [0; 0] ++ seqnum ++ be_bytes 2 (12 + len body) ++
  [1] ++ be_bytes 3 (len body) ++ mseq ++ [0; 0; 0] ++ be_bytes 3 (len body) ++ body.

Lemma shift_or16 a b : 0 <= b < 256 -> Z.lor (Z.shiftl a 8) b = a * 256 + b.
Proof.
  intros Hb. rewrite Z.shiftl_mul_pow2 by lia. change (2 ^ 8) with 256. symmetry. rewrite <- Z.add_lor_land.
  replace (Z.land (a * 256) b) with 0; [lia|]. symmetry.
  replace (a * 256) with (Z.shiftl a 8) by (rewrite Z.shiftl_mul_pow2 by lia; done).
  apply Z.bits_inj'. intros n Hn. rewrite Z.land_spec, Z.bits_0.
  destruct (Z_lt_le_dec n 8); [by rewrite Z.shiftl_spec_low by lia|].
  rewrite (Z.bits_above_log2 b n), andb_false_r; [done|lia|].
  destruct (decide (b = 0)) as [->|]; [simpl; lia|]. apply Z.log2_lt_pow2; [lia|].
  apply Z.lt_le_trans with (2 ^ 8); [lia|]. apply Z.pow_le_mono_r; lia.
Qed.

Lemma shift_or24 a b c : 0 <= b < 256 -> 0 <= c < 256 ->
  Z.lor (Z.lor (Z.shiftl a 16) (Z.shiftl b 8)) c = (a * 256 + b) * 256 + c.
Proof.
  intros Hb Hc. rewrite <- shift_or16, <- shift_or16 by done. f_equal.
  by rewrite Z.shiftl_lor, Z.shiftl_shiftl by lia.
Qed.

Lemma be_bytes_2 a b : 0 <= a < 256 -> 0 <= b < 256 -> be_bytes 2 (a * 256 + b) = [a; b].
Proof. intros. cbn [be_bytes Z.of_nat]. repeat f_equal; wrap_unfold; cbn; lia. Qed.
Lemma be_bytes_3 a b c : 0 <= a < 256 -> 0 <= b < 256 -> 0 <= c < 256 -> be_bytes 3 ((a * 256 + b) * 256 + c) = [a; b; c].
Proof. intros. cbn [be_bytes]. repeat f_equal; wrap_unfold; cbn; lia. Qed.

Lemma isClientHello_sound p : is_bytes p -> isClientHelloDatagram p = true ->
  exists version seqnum mseq body, p = client_hello version seqnum mseq body /\
    length version = 2%nat /\ length seqnum = 6%nat /\ length mseq = 2%nat.
Proof.
  intros Hp H. unfold isClientHelloDatagram in H.
  destruct (len p <? recordHeaderLen + handshakeHeaderLen) eqn:El; [done|]. cbn [orb] in H.
  unfold len, recordHeaderLen, handshakeHeaderLen in El.
  destruct p as [|b0 [|b1 [|b2 [|b3 [|b4 [|b5 [|b6 [|b7 [|b8 [|b9 [|b10 [|b11 [|b12 p]]]]]]]]]]]]]; try discriminate El.
  destruct p as [|c0 [|c1 [|c2 [|c3 [|c4 [|c5 [|c6 [|c7 [|c8 [|c9 [|c10 [|c11 p]]]]]]]]]]]]; try discriminate El.
  unfold is_bytes in Hp. rewrite !Forall_cons in Hp. destruct_and! Hp.
  cbn [at_ nth drop] in H. unfold recordHeaderLen, handshakeHeaderLen, contentTypeHandshake, handshakeTypeClientHello in H.
  rewrite shift_or16, !shift_or24 in H by done.
  repeat match type of H with (if ?c then false else _) = true => destruct c eqn:?; [done|] end.
  rewrite !orb_false_iff, !negb_false_iff, !Z.eqb_eq in *. rewrite !andb_true_iff, !Z.eqb_eq in H. destruct_and!.
  assert (c6 = 0 /\ c7 = 0 /\ c8 = 0) as (-> & -> & ->) by lia. subst.
  exists [b1; b2], [b5; b6; b7; b8; b9; b10], [c4; c5], p. split; [|done].
  unfold client_hello. rewrite !len_cons in *.
  assert (len p = (c1 * 256 + c2) * 256 + c3) as Hl by lia.
  replace (12 + len p) with (b11 * 256 + b12) by lia. rewrite Hl.
  rewrite be_bytes_2, be_bytes_3 by done.
  assert ((c9 * 256 + c10) * 256 + c11 = (c1 * 256 + c2) * 256 + c3) as E by lia.
  assert (c9 = c1 /\ c10 = c2 /\ c11 = c3) as (-> & -> & ->) by lia. done.
Qed.

Lemma isClientHello_complete version seqnum mseq body :
  length version = 2%nat -> length seqnum = 6%nat -> length mseq = 2%nat -> 12 + len body < 2 ^ 16 ->
  isClientHelloDatagram (client_hello version seqnum mseq body) = true.
Proof.
  intros Hv Hs Hm Hb. pose proof (len_nonneg body) as Hn.
  destruct version as [|v1 [|v2 [|? ?]]]; try done.
  destruct seqnum as [|s1 [|s2 [|s3 [|s4 [|s5 [|s6 [|? ?]]]]]]]; try done.
  destruct mseq as [|m1 [|m2 [|? ?]]]; try done.
  unfold client_hello. set (n := len body) in *.
  assert (n = (0 * 256 + n / 256) * 256 + n mod 256) as Hn3 by lia.
  assert (be_bytes 3 n = [0; n / 256; n mod 256]) as ->.
  { rewrite Hn3 at 1. apply be_bytes_3; lia. }
  assert (be_bytes 2 (12 + n) = [(12 + n) / 256; (12 + n) mod 256]) as ->.
  { replace (12 + n) with ((12 + n) / 256 * 256 + (12 + n) mod 256) at 1 by lia. apply be_bytes_2; lia. }
  cbn [app]. unfold isClientHelloDatagram. rewrite !len_cons. fold n.
  cbn [at_ nth drop]. unfold recordHeaderLen, handshakeHeaderLen, contentTypeHandshake, handshakeTypeClientHello.
  rewrite shift_or16, !shift_or24 by lia.
  destruct (_ <? _) eqn:E; [lia|]. cbn [orb negb Z.eqb Pos.eqb].
  replace ((12 + n) / 256 * 256 + (12 + n) mod 256) with (12 + n) by lia.
  replace (((0 * 256) + n / 256) * 256 + n mod 256) with n by lia.
  replace (_ =? 12 + n) with true by lia.
  destruct (13 + (12 + n) =? _) eqn:E2; [|lia]. rewrite !Z.eqb_refl. reflexivity.
Qed.

(** The code takes for a ClientHello to send again exactly a datagram that is
    one record around one whole ClientHello. *)
Lemma isClientHello_spec p : is_bytes p -> len p <= 65507 ->
  isClientHelloDatagram p = true <->
  exists version seqnum mseq body, p = client_hello version seqnum mseq body /\
    length version = 2%nat /\ length seqnum = 6%nat /\ length mseq = 2%nat.
Proof.
  intros Hp Hl. split; [by apply isClientHello_sound|].
  intros (v & s & m & body & -> & Hv & Hs & Hm). apply isClientHello_complete; try done.
  unfold client_hello in Hl. rewrite !len_app in Hl. unfold len in *. rewrite ?be_bytes_length in Hl. simpl in Hl. lia.
Qed.

(** ** What the conn keeps, from the log

    Nothing once a DTLS record was noted; else the last ClientHello noted as
    sent. *)
Section KeyExchange.

Context {addr : Type}.
Abbreviation log_item := (Dtls.log_item (addr := addr)).
Abbreviation world := (Dtls.world (addr := addr)).
Abbreviation event := (Dtls.event (addr := addr)).

Definition hears (x : log_item) : bool := match x with LNoteRead p => isDTLS p | _ => false end.
Definition notes_hello (x : log_item) : option (bytes * addr) :=
  match x with LNoteWrite p a true => if isClientHelloDatagram p then Some (p, a) else None | _ => None end.
Definition kept (l : list log_item) : option (bytes * addr) :=
  if existsb hears l then None else last (omap notes_hello l).

Lemma kept_snoc l x : kept (l ++ [x]) =
  if existsb hears l || hears x then None
  else match notes_hello x with Some h => Some h | None => kept l end.
Proof.
  unfold kept. rewrite existsb_app, omap_app. cbn [existsb omap list_omap]. rewrite orb_false_r.
  destruct (existsb hears l); [done|]. destruct (hears x); [done|]. cbn [orb].
  destruct (notes_hello x); [by rewrite last_snoc|by rewrite app_nil_r].
Qed.

(** The socket was called. *)
Definition used (x : log_item) : nat :=
  match x with LSend _ _ _ | LRecv _ | LAgain _ _ => 1 | _ => 0 end%nat.
Definition uses (l : list log_item) : nat := sum_list (used <$> l).
(** A call that has passed its check and is not back from the socket. *)
Definition inside (t : thread (addr := addr)) : nat :=
  match t with TWrite _ _ | TRead | TResend => 1 | _ => 0 end%nat.
Definition in_flight (w : world) : nat := sum_list (inside <$> threads w).

(** The holder of [mu]. *)
Definition holds (t : thread (addr := addr)) : nat := match t with TResend => 1 | _ => 0 end%nat.

Record Inv (w : world) : Prop := {
  inv_heard : heard (kx w) = existsb hears (log w);
  inv_hello : hello (kx w) = kept (log w);
  inv_mu : mu w = true -> is_Some (hello (kx w));
  inv_one : sum_list (holds <$> threads w) = if mu w then 1%nat else 0%nat;
  (* a note follows the call it is of *)
  inv_back : forall p a ok, TWrote p a ok ∈ threads w -> LSend p a ok ∈ log w;
  inv_noted : forall l k p a ok, log w = l ++ LNoteWrite p a ok :: k -> LSend p a ok ∈ l;
  inv_again : forall l k p a, log w = l ++ LAgain p a :: k -> kept l = Some (p, a) }.

Lemma sum_list_insert {A} (f : A -> nat) l i t u : l !! i = Some t ->
  (sum_list (f <$> <[i:=u]> l) + f t = sum_list (f <$> l) + f u)%nat.
Proof.
  intros H. rewrite (insert_take_drop _ _ _ (lookup_lt_Some _ _ _ H)). rewrite <- (take_drop_middle _ _ _ H) at 3.
  rewrite !fmap_app, !sum_list_with_app. simpl. lia.
Qed.
Lemma sum_snoc {A} (f : A -> nat) l t : sum_list (f <$> l ++ [t]) = (sum_list (f <$> l) + f t)%nat.
Proof. rewrite fmap_app, sum_list_with_app. simpl. lia. Qed.

Lemma inv_new : Inv (new_world (addr := addr)).
Proof. split; try done. - by intros ??? ?%elem_of_nil. - by intros []. - by intros []. Qed.

(** What holds of each item and what is before it. *)
Lemma snoc_before (P : list log_item -> log_item -> Prop) l x :
  (forall l' k y, l = l' ++ y :: k -> P l' y) -> P l x -> forall l' k y, l ++ [x] = l' ++ y :: k -> P l' y.
Proof.
  intros H Hx l' k y E. destruct k as [|z k _] using rev_ind.
  - by apply app_inj_tail in E as [-> ->].
  - rewrite app_comm_cons, app_assoc in E. apply app_inj_tail in E as [-> _]. by eapply H.
Qed.

Lemma elem_of_insert_inv {A} (l : list A) i x y : x ∈ <[i:=y]> l -> x = y \/ x ∈ l.
Proof.
  intros (j & Hj)%list_elem_of_lookup. apply list_lookup_insert_Some in Hj as [(_ & -> & _)|(_ & Hj)]; [by left|].
  right. by eapply list_elem_of_lookup_2.
Qed.

(** The steps of a thread that is back from the socket, or takes [mu] to note. *)
Lemma inv_thread w w' i t u x : Inv w -> threads w !! i = Some t ->
  threads w' = <[i:=u]> (threads w) -> log w' = log w ++ [x] ->
  heard (kx w') = heard (kx w) || hears x ->
  hello (kx w') = (if heard (kx w) || hears x then None
                   else match notes_hello x with Some h => Some h | None => hello (kx w) end) ->
  (mu w' = true -> is_Some (hello (kx w'))) ->
  (holds u + (if mu w then 1 else 0) = holds t + (if mu w' then 1 else 0))%nat ->
  (forall p a ok, u = TWrote p a ok -> x = LSend p a ok) ->
  (forall p a ok, x = LNoteWrite p a ok -> t = TWrote p a ok) ->
  (forall p a, x = LAgain p a -> hello (kx w) = Some (p, a)) -> Inv w'.
Proof.
  intros [Hh Hk Hm Ho Hb Hn Ha] Et Ht Hl H1 H2 H3 H4 H5 H6 H7. split; rewrite ?Ht, ?Hl.
  - rewrite H1, Hh, existsb_app. cbn. by rewrite orb_false_r.
  - by rewrite H2, kept_snoc, <- Hk, <- Hh.
  - done.
  - pose proof (sum_list_insert holds _ _ _ u Et). lia.
  - intros p a ok Hin. apply elem_of_app. apply elem_of_insert_inv in Hin as [E|Hin]; [|left; by apply Hb].
    right. apply list_elem_of_singleton. symmetry. by apply H5.
  - intros l k p a ok E.
    refine (snoc_before (fun l y => y = LNoteWrite p a ok -> LSend p a ok ∈ l) (log w) x _ _ _ _ _ E eq_refl).
    + intros l' k' y E' ->. by eapply Hn.
    + intros Ex. apply Hb. rewrite <- (H6 p a ok) by done. by eapply list_elem_of_lookup_2.
  - intros l k p a E.
    refine (snoc_before (fun l y => y = LAgain p a -> kept l = Some (p, a)) (log w) x _ _ _ _ _ E eq_refl).
    + intros l' k' y E' ->. by eapply Ha.
    + intros Ex. rewrite <- Hk. by apply H7.
Qed.

(** A call that passes its check. *)
Lemma inv_spawn w w' t : Inv w -> threads w' = threads w ++ [t] -> log w' = log w -> kx w' = kx w ->
  (mu w' = true -> is_Some (hello (kx w))) ->
  ((if mu w then 1 else 0) + holds t = if mu w' then 1 else 0)%nat ->
  (forall p a ok, t <> TWrote p a ok) -> Inv w'.
Proof.
  intros [Hh Hk Hm Ho Hb Hn Ha] Ht Hl Hx H1 H2 H3. split; rewrite ?Ht, ?Hl, ?Hx; try done.
  - rewrite sum_snoc. lia.
  - intros p a ok [?|E%list_elem_of_singleton]%elem_of_app; [by apply Hb|]. by destruct (H3 p a ok).
Qed.

Lemma inv_mu_hello w : Inv w -> mu w = true -> is_Some (hello (kx w)).
Proof. by intros []. Qed.

Lemma inv_unheard w h : Inv w -> hello (kx w) = Some h -> heard (kx w) = false.
Proof. intros [Hh Hk _ _ _ _ _]. rewrite Hh, Hk. unfold kept. by destruct (existsb hears (log w)). Qed.

(** The holder of [mu] keeps the others from it. *)
Lemma inv_holder w i : Inv w -> threads w !! i = Some TResend -> mu w = true.
Proof.
  intros HI Hi. pose proof (inv_one _ HI) as Ho. pose proof (sum_list_insert holds _ _ _ TDone Hi) as Hs. cbn in Hs.
  destruct (mu w); [done|]. lia.
Qed.

Lemma inv_step w ev : Inv w -> Inv (step w ev).
Proof.
  intros HI. destruct ev as [p a| | | | |i p ok|i]; cbn [step]; [| | | |done| |].
  - destruct (detached (kx w)); [done|]. eapply inv_spawn; [exact HI|reflexivity..|apply HI| |done]. cbn. lia.
  - destruct (detached (kx w)); [done|]. eapply inv_spawn; [exact HI|reflexivity..|apply HI| |done]. cbn. lia.
  - destruct (mu w) eqn:Emu; [done|]. unfold to_resend. destruct (heard (kx w) || detached (kx w)); [done|].
    destruct (hello (kx w)) as [h|] eqn:Eh; [|done].
    eapply inv_spawn; [exact HI|reflexivity..|by rewrite Eh|by rewrite Emu|done].
  - destruct HI. by split.
  - destruct (threads w !! i) as [t|] eqn:Et; [|done]. destruct t as [q a|q a ok'| |q| |]; try done.
    + eapply inv_thread; [exact HI|exact Et|reflexivity..| | |apply HI|done|by intros ??? [= -> -> ->]|done|done]; cbn.
      * by rewrite orb_false_r.
      * rewrite orb_false_r. destruct (heard (kx w)) eqn:Eh; [|done].
        destruct (hello (kx w)) eqn:E; [|done]. by rewrite (inv_unheard _ _ HI E) in Eh.
    + eapply inv_thread; [exact HI|exact Et|reflexivity..| | |apply HI|done|done|done|done]; cbn.
      * by rewrite orb_false_r.
      * rewrite orb_false_r. destruct (heard (kx w)) eqn:Eh; [|done].
        destruct (hello (kx w)) eqn:E; [|done]. by rewrite (inv_unheard _ _ HI E) in Eh.
    + pose proof (inv_holder _ _ HI Et) as Emu. destruct (hello (kx w)) as [[q a]|] eqn:E; [|done].
      eapply inv_thread; [exact HI|exact Et|reflexivity..| | |done| |done|done|]; cbn.
      * by rewrite orb_false_r.
      * by rewrite (inv_unheard _ _ HI E), E.
      * by rewrite Emu.
      * by intros ?? [= -> ->].
  - destruct (mu w) eqn:Emu; [done|]. destruct (threads w !! i) as [t|] eqn:Et; [|done].
    destruct t as [q a|q a ok| |q| |]; try done.
    + eapply inv_thread; [exact HI|exact Et|reflexivity..| | | | |done|by intros ??? [= -> -> ->]|done]; cbn.
      * unfold note_write. rewrite orb_false_r. by destruct (_ && _).
      * unfold note_write. rewrite orb_false_r. destruct (heard (kx w)) eqn:Eh.
        -- rewrite andb_false_r. destruct (hello (kx w)) eqn:E; [|done]. by rewrite (inv_unheard _ _ HI E) in Eh.
        -- rewrite andb_true_r. destruct ok; [|done]. cbn [andb]. by destruct (isClientHelloDatagram q).
      * by rewrite Emu.
      * by rewrite Emu.
    + eapply inv_thread; [exact HI|exact Et|reflexivity..| | | | |done|done|done]; cbn.
      * unfold note_read. destruct (isDTLS q); cbn; by rewrite ?orb_true_r, ?orb_false_r.
      * unfold note_read. destruct (isDTLS q); [by rewrite orb_true_r|]. rewrite orb_false_r.
        destruct (heard (kx w)) eqn:Eh; [|done].
        destruct (hello (kx w)) eqn:E; [|done]. by rewrite (inv_unheard _ _ HI E) in Eh.
      * by rewrite Emu.
      * by rewrite Emu.
Qed.

Lemma inv_run evs w : Inv w -> Inv (run w evs).
Proof. revert w. induction evs as [|ev evs IH]; [done|]. intros w HI. by apply IH, inv_step. Qed.

(** ** Taking the socket back *)

(** One step of a detached conn: a call gets to the socket only if it had
    passed its check, and the conn stays detached. *)
Lemma detached_step w ev : detached (kx w) = true ->
  detached (kx (step w ev)) = true /\
  (uses (log (step w ev)) + in_flight (step w ev) = uses (log w) + in_flight w)%nat.
Proof.
  intros Hd. destruct ev as [p a| | | | |i p ok|i]; cbn [step]; rewrite ?Hd; try done.
  - unfold to_resend. rewrite Hd, orb_true_r. by destruct (mu w).
  - destruct (threads w !! i) as [t|] eqn:Et; [|done]. pose proof (fun u => sum_list_insert inside _ _ _ u Et) as Hs.
    destruct t as [q a|q a ok'| |q| |]; try done; [| |destruct (hello (kx w)) as [[q a]|]; [|done]].
    all: split; [done|]; unfold in_flight, uses; cbn; rewrite sum_snoc; cbn.
    + specialize (Hs (TWrote q a ok)). cbn in Hs. lia.
    + specialize (Hs (TGot p)). cbn in Hs. lia.
    + specialize (Hs TDone). cbn in Hs. lia.
  - destruct (mu w); [done|]. destruct (threads w !! i) as [t|] eqn:Et; [|done].
    pose proof (sum_list_insert inside _ _ _ TDone Et) as Hs. destruct t as [q a|q a ok| |q| |]; try done; cbn in Hs.
    all: split; [|unfold in_flight, uses; cbn; rewrite sum_snoc; cbn; lia]; cbn.
    + unfold note_write. by destruct (_ && _).
    + unfold note_read. by destruct (isDTLS q).
Qed.

Lemma detached_run evs w : detached (kx w) = true ->
  (uses (log (run w evs)) + in_flight (run w evs) = uses (log w) + in_flight w)%nat.
Proof.
  revert w. induction evs as [|ev evs IH]; [done|]. intros w Hd. destruct (detached_step w ev Hd) as [Hd' <-].
  by apply IH.
Qed.

(** ** Claims *)

Lemma omap_last_split {A B} (f : A -> option B) l b : last (omap f l) = Some b ->
  exists l1 x l2, l = l1 ++ x :: l2 /\ f x = Some b /\ omap f l2 = [].
Proof.
  induction l as [|x l IH] using rev_ind; [done|]. rewrite omap_app. cbn [omap list_omap].
  destruct (f x) as [c|] eqn:E.
  - rewrite last_snoc. intros [= <-]. by exists l, x, [].
  - rewrite app_nil_r. intros (l1 & y & l2 & -> & Hy & Hl)%IH. exists l1, y, (l2 ++ [x]).
    rewrite <- app_assoc. split; [done|]. split; [done|]. by rewrite omap_app, Hl; cbn; rewrite E.
Qed.

(** C12. The socket lent to the DTLS stack. Whatever calls its goroutines make and
    in whatever order their steps run: a datagram [resendHello] sends is, byte
    for byte and to the same address, the last ClientHello the socket took
    before it, and until then no DTLS record had been noted from the peer;
    while one is kept and the conn is not detached a [resendHello] that gets
    [mu] does send it; and once [retireDTLS] has detached the conn, the closing
    of the stack, however it goes about it, uses the socket in no call that was
    not already inside the socket. *)
Theorem lent_socket_safe evs close :
  let w := run (new_world (addr := addr)) evs in
  (forall l k p a, log w = l ++ LAgain p a :: k ->
     (forall q, LNoteRead q ∈ l -> isDTLS q = false) /\
     exists l1 l2, l = l1 ++ LNoteWrite p a true :: l2 /\ isClientHelloDatagram p = true /\ LSend p a true ∈ l1 /\
       forall q b, LNoteWrite q b true ∈ l2 -> isClientHelloDatagram q = false) /\
  (forall p a ok, mu w = false -> detached (kx w) = false -> kept (log w) = Some (p, a) ->
     log (step (step w EResend) (EReturn (length (threads w)) [] ok)) = log w ++ [LAgain p a]) /\
  (uses (log (retireDTLS w close)) + in_flight (retireDTLS w close) = uses (log w) + in_flight w)%nat.
Proof.
  intros w. assert (Inv w) as HI by apply inv_run, inv_new. split; [|split].
  - intros l k p a E. pose proof (inv_again _ HI _ _ _ _ E) as Hkept. unfold kept in Hkept.
    destruct (existsb hears l) eqn:Eh; [done|]. split.
    + intros q Hq. destruct (isDTLS q) eqn:Eq; [|done]. apply not_true_iff_false in Eh. destruct Eh.
      apply existsb_exists. exists (LNoteRead q). split; [by apply list_elem_of_In|done].
    + destruct (omap_last_split _ _ _ Hkept) as (l1 & x & l2 & -> & Hx & H2).
      destruct x as [| | |q b ok| ]; try done. cbn in Hx. destruct ok; [|done].
      destruct (isClientHelloDatagram q) eqn:Eq; [|done]. injection Hx as -> ->.
      exists l1, l2. split; [done|]. split; [done|]. split.
      * rewrite <- app_assoc in E. by apply (inv_noted _ HI _ _ _ _ _ E).
      * intros q' b' Hin. destruct (isClientHelloDatagram q') eqn:Eq'; [|done]. exfalso.
        apply list_elem_of_lookup in Hin as [j Hj]. apply take_drop_middle in Hj. rewrite <- Hj, omap_app in H2.
        apply app_eq_nil in H2 as [_ H2]. cbn in H2. by rewrite Eq' in H2.
  - intros p a ok Hmu Hd Hkept. pose proof (inv_hello _ HI) as Hh. rewrite Hkept in Hh.
    cbn [step]. rewrite Hmu. unfold to_resend. rewrite (inv_unheard _ _ HI Hh), Hd, Hh. cbn [orb spawn threads field_update].
    cbn. rewrite lookup_app_r, Nat.sub_diag by lia. cbn. by rewrite Hh.
  - unfold retireDTLS. by rewrite detached_run.
Qed.

End KeyExchange.

(** *** A ClientHello sent, sent again, and answered *)

Definition ex_hello : bytes := client_hello [254; 253] [0; 0; 0; 0; 0; 0] [0; 0] [3; 3].
Definition ex_events : list (event (addr := nat)) :=
  [EWrite ex_hello 9%nat; EReturn 0 [] true; ENote 0; ERead; EResend; EReturn 2 [] true;
   EReturn 1 [22; 0] true; ENote 1; EResend].

Lemma lent_socket_safe_witness :
  log (run new_world ex_events) =
    [LSend ex_hello 9%nat true; LNoteWrite ex_hello 9%nat true; LAgain ex_hello 9%nat; LRecv [22; 0]; LNoteRead [22; 0]] /\
  LSend ex_hello 9%nat true ∈ [LSend ex_hello 9%nat true; LNoteWrite ex_hello 9%nat true] /\
  uses (log (retireDTLS (run new_world ex_events) [EWrite [21] 9%nat; ERead; EClose])) = 3%nat.
Proof.
  destruct (lent_socket_safe ex_events [EWrite [21] 9%nat; ERead; EClose]) as (H1 & _ & H3).
  assert (log (run new_world ex_events) =
    [LSend ex_hello 9%nat true; LNoteWrite ex_hello 9%nat true; LAgain ex_hello 9%nat; LRecv [22; 0]; LNoteRead [22; 0]]) as E
    by (vm_compute; reflexivity).
  split; [exact E|]. split.
  - destruct (H1 [LSend ex_hello 9%nat true; LNoteWrite ex_hello 9%nat true] [LRecv [22; 0]; LNoteRead [22; 0]] ex_hello 9%nat E)
      as (_ & l1 & l2 & El & _ & Hin & _).
    rewrite El. apply elem_of_app. left. exact Hin.
  - vm_compute in H3. vm_compute. reflexivity.
Defined.

(** The resends of a wait of [DTLSHandshakeTimeout]: at once, then after 1, 3, 7
    and 15 seconds, each delay twice the one before. *)
Lemma resend_schedule n now d : (1 <= d)%Z ->
  forall k t, resend_times n now (d * Second) !! k = Some t -> t = now + (2 * d) * (2 ^ Z.of_nat k - 1) * Second.
Proof.
  revert now d. induction n as [|n IH]; intros now d Hd k t; [done|]. cbn [resend_times].
  unfold next_resend. replace (Z.max Second (2 * (d * Second))) with ((2 * d) * Second) by (unfold Second; lia).
  destruct k as [|k]; [intros [= <-]; simpl; lia|]. cbn [lookup list_lookup]. intros Hk. apply IH in Hk; [|lia].
  rewrite Hk. rewrite Nat2Z.inj_succ, Z.pow_succ_r by lia. ring.
Qed.

Example resends_in_a_handshake : filter (fun t => t <= 30 * Second) (resend_times 10 0 0) =
  [0; 1 * Second; 3 * Second; 7 * Second; 15 * Second].
Proof. vm_compute. reflexivity. Qed.

End DtlsConn.
