(* ===== verification/IceMux.v ===== *)
(** * The ICE mux and agent

    [media/ice_mux.go]: one ICE connection fanned out into the DTLS, RTP and
    RTCP streams of a session; and [media/ice.go]: the agent that gathers
    candidates, connects, and owns the socket. The packet buffer
    (pion/transport), the ICE agent and its connection (pion/ice) are arguments:
    the buffer through the interface [BufferOps], with the laws the mux relies on
    in [BufferLaws]. *)
From S2P Require Import Prelude GoStrings NetIP Sha Hex MediaSdp MediaSession Dtls.
Import GoStrings NetIP Sha Hex MediaSdp Dtls.

Module IceMux.

(** ** Classes of packets *)

Definition iceMuxBufferLimit : Z := 1000000.

Definition IsRTCP (buf : bytes) : bool :=
  match buf with
  | _ :: b :: _ => let pt := Z.land b 0x7f in (64 <=? pt) && (pt <=? 95)
  | _ => false
  end.

Inductive stream := SDTLS | SRTP | SRTCP.
#[export] Instance stream_eq_dec : EqDecision stream.
Proof. solve_decision. Defined.

(** The stream [readLoop] hands a packet to. *)
Definition stream_of (pkt : bytes) : stream :=
  if isDTLS pkt then SDTLS else if IsRTCP pkt then SRTCP else SRTP.

(** ** The packet buffer *)

(** What a read finds: it waits, or takes a packet, or fails. *)
Inductive read_result := RWait | RPacket (p : bytes) | RErr (e : error).

Class BufferOps (B : Type) := {
  NewBuffer : Z -> B;                       (* with its limit on the size *)
  buf_Write : bytes -> B -> B * option error;
  buf_Read : Z -> B -> B * read_result;     (* into a slice of that length *)
  buf_Close : B -> B }.

(** A buffer queues what it takes, gives it back in order, and once closed takes
    nothing more and ends when it is empty. [accepts] is its own judgement of
    what it still has room for. *)
Class BufferLaws (B : Type) `{!BufferOps B} := {
  queue : B -> list bytes;
  buf_closed : B -> bool;
  accepts : bytes -> B -> bool;
  new_queue : forall limit, queue (NewBuffer limit) = [] /\ buf_closed (NewBuffer limit) = false;
  write_taken : forall p b, buf_closed b = false -> accepts p b = true ->
    exists b', buf_Write p b = (b', None) /\ queue b' = queue b ++ [p] /\ buf_closed b' = false;
  write_refused : forall p b, buf_closed b = true \/ accepts p b = false ->
    exists e, buf_Write p b = (b, Some e);
  read_packet : forall n b p q, queue b = p :: q -> len p <= n ->
    exists b', buf_Read n b = (b', RPacket p) /\ queue b' = q /\ buf_closed b' = buf_closed b;
  read_short : forall n b p q, queue b = p :: q -> n < len p ->
    exists b' e, buf_Read n b = (b', RErr e) /\ (queue b' = q \/ queue b' = p :: q) /\ buf_closed b' = buf_closed b;
  read_empty : forall n b, queue b = [] -> buf_Read n b = (b, if buf_closed b then RErr io_EOF else RWait);
  close_queue : forall b, queue (buf_Close b) = queue b /\ buf_closed (buf_Close b) = true }.

(** ** The mux *)

Section Mux.

Context {B : Type} `{!BufferOps B}.

Record iceMux := {
  m_raddr : UDPAddr;
  m_dtls : B;
  m_rtp : B;
  m_rtcp : B;
  m_closed : bool;      (* closeOnce has run *)
  m_connClosed : Z;     (* how often the ICE connection was closed *)
  m_looping : bool;     (* readLoop has not returned *)
  m_sent : list bytes   (* what was written to the ICE connection *) }.
#[export] Instance iceMux_eta : Eta iceMux := fun m =>
  {| m_raddr := m_raddr m; m_dtls := m_dtls m; m_rtp := m_rtp m; m_rtcp := m_rtcp m; m_closed := m_closed m;
     m_connClosed := m_connClosed m; m_looping := m_looping m; m_sent := m_sent m |}.

Definition newICEMux (raddr : UDPAddr) : iceMux :=
  {| m_raddr := raddr; m_dtls := NewBuffer iceMuxBufferLimit; m_rtp := NewBuffer iceMuxBufferLimit;
     m_rtcp := NewBuffer iceMuxBufferLimit; m_closed := false; m_connClosed := 0; m_looping := true; m_sent := [] |}.

Definition buffer_of (s : stream) (m : iceMux) : B :=
  match s with SDTLS => m_dtls m | SRTP => m_rtp m | SRTCP => m_rtcp m end.
Definition set_buffer (s : stream) (b : B) (m : iceMux) : iceMux :=
  match s with SDTLS => m <| m_dtls := b |> | SRTP => m <| m_rtp := b |> | SRTCP => m <| m_rtcp := b |> end.

Definition closeBuffers (m : iceMux) : iceMux :=
  m <| m_dtls := buf_Close (m_dtls m) |> <| m_rtp := buf_Close (m_rtp m) |> <| m_rtcp := buf_Close (m_rtcp m) |>.

(** One turn of [readLoop] with what the ICE connection returned. *)
Definition readLoop (got : bytes + error) (m : iceMux) : iceMux :=
  if negb (m_looping m) then m
  else match got with
       | inr _ => closeBuffers m <| m_looping := false |>
       | inl [] => m
       | inl pkt => set_buffer (stream_of pkt) (buf_Write pkt (buffer_of (stream_of pkt) m)).1 m
       end.

(** [Close] up to its wait for [readLoop], which the closed connection ends. *)
Definition Close (connErr : option error) (m : iceMux) : iceMux * option error :=
  if m_closed m then (m, None)
  else (closeBuffers (m <| m_closed := true |> <| m_connClosed := m_connClosed m + 1 |>), connErr).

(** The methods of a [muxConn]. *)
Definition ReadFrom (s : stream) (n : Z) (m : iceMux) : iceMux * read_result * option UDPAddr :=
  match buf_Read n (buffer_of s m) with
  | (b, RPacket p) => (set_buffer s b m, RPacket p, Some (m_raddr m))
  | (b, r) => (set_buffer s b m, r, None)
  end.
Definition WriteTo (p : bytes) (m : iceMux) : iceMux := m <| m_sent := m_sent m ++ [p] |>.

Inductive event :=
| EArrive (got : bytes + error)   (* the ICE connection returns to readLoop *)
| ERead (s : stream) (n : Z)
| EWrite (p : bytes)
| EClose.

Definition step (m : iceMux) (ev : event) : iceMux :=
  match ev with
  | EArrive got => readLoop got m
  | ERead s n => (ReadFrom s n m).1.1
  | EWrite p => WriteTo p m
  | EClose => (Close None m).1
  end.
Definition run (m : iceMux) (evs : list event) : iceMux := fold_left step evs m.

(** What the reads of a stream returned, in order. *)
Definition received_by (s : stream) (m : iceMux) (ev : event) : list bytes :=
  match ev with
  | ERead s' n => if bool_decide (s' = s) then match (ReadFrom s n m).1.2 with RPacket p => [p] | _ => [] end else []
  | _ => []
  end.
Fixpoint received (s : stream) (m : iceMux) (evs : list event) : list bytes :=
  match evs with
  | [] => []
  | ev :: evs => received_by s m ev ++ received s (step m ev) evs
  end.

(** The packets of a stream that reached [readLoop]. *)
Definition arrives (s : stream) (m : iceMux) (ev : event) : list bytes :=
  match ev with
  | EArrive (inl pkt) =>
    if m_looping m && bool_decide (pkt <> []) && bool_decide (stream_of pkt = s) then [pkt] else []
  | _ => []
  end.
Fixpoint arrived (s : stream) (m : iceMux) (evs : list event) : list bytes :=
  match evs with
  | [] => []
  | ev :: evs => arrives s m ev ++ arrived s (step m ev) evs
  end.

(** The events a stream could take notice of. *)
Definition concerns (s : stream) (ev : event) : bool :=
  match ev with
  | EArrive (inl pkt) => bool_decide (stream_of pkt = s)
  | ERead s' _ => bool_decide (s' = s)
  | EWrite _ => false
  | EArrive (inr _) | EClose => true
  end.

End Mux.

(** *** A buffer

    A queue without a bound on its size: the instance the examples run on. *)
Record fifo := { f_queue : list bytes; f_closed : bool; f_room : Z }.
#[export] Instance fifo_ops : BufferOps fifo := {
  NewBuffer limit := {| f_queue := []; f_closed := false; f_room := limit |};
  buf_Write p b :=
    if f_closed b then (b, Some io_ErrClosedPipe)
    else if f_room b <? len p then (b, Some (ErrNew "packetio.Buffer is full, discarding write"))
    else ({| f_queue := f_queue b ++ [p]; f_closed := f_closed b; f_room := f_room b - len p |}, None);
  buf_Read n b :=
    match f_queue b with
    | [] => (b, if f_closed b then RErr io_EOF else RWait)
    | p :: q =>
      let b := {| f_queue := q; f_closed := f_closed b; f_room := f_room b + len p |} in
      (b, if len p <=? n then RPacket p else RErr io_ErrShortBuffer)
    end;
  buf_Close b := {| f_queue := f_queue b; f_closed := true; f_room := f_room b |} }.

#[export] Program Instance fifo_laws : BufferLaws fifo := {
  queue := f_queue; buf_closed := f_closed; accepts p b := len p <=? f_room b }.
Next Obligation. done. Qed.
Next Obligation.
  intros p b Hc Ha. cbn in Hc, Ha |- *. rewrite Hc. destruct (f_room b <? len p) eqn:E; [lia|]. eexists. split; [done|]. done.
Qed.
Next Obligation.
  intros p b H. cbn. destruct (f_closed b); [eauto|]. destruct (f_room b <? len p) eqn:E; [eauto|].
  destruct H as [H|H]; [done|]. cbn in H. lia.
Qed.
Next Obligation. intros n b p q H Hn. cbn. rewrite H. replace (len p <=? n) with true by lia. by eexists. Qed.
Next Obligation. intros n b p q H Hn. cbn. rewrite H. replace (len p <=? n) with false by lia. do 2 eexists. split; [done|]. auto. Qed.
Next Obligation. intros n b H. cbn. by rewrite H. Qed.
Next Obligation. done. Qed.

End IceMux.
