(* ===== verification/IceMuxProps.v ===== *)
(** * The ICE mux: its properties

    The three streams are independent queues over one connection: each gives its
    readers its own packets, in the order they arrived, whatever the others do,
    and after the mux is closed no reader waits. *)
From S2P Require Import Prelude MediaSdp Dtls IceMux.
Import MediaSdp Dtls IceMux.

Module IceMuxProps.

(** ** Classes *)

Lemma land_7f b : Z.land b 127 = b mod 128.
Proof. change 127 with (Z.ones 7). by rewrite Z.land_ones. Qed.

(** RFC 7983 and RFC 5761: of the packets of version 2, whose first byte is from
    128 to 191, those whose second byte less its top bit is from 64 to 95 are RTCP,
    and the rest RTP; those with a first byte from 20 to 63 are DTLS. *)
Lemma stream_of_spec b0 b1 rest : 0 <= b0 < 256 -> 0 <= b1 < 256 ->
  stream_of (b0 :: b1 :: rest) =
  if (20 <=? b0) && (b0 <=? 63) then SDTLS
  else if (64 <=? b1 mod 128) && (b1 mod 128 <=? 95) then SRTCP else SRTP.
Proof. intros H0 H1. unfold stream_of, isDTLS, IsRTCP. by rewrite land_7f. Qed.

(** An RTCP packet type is one of 192 to 223, with the top bit set; the same
    byte of an RTP packet holds the marker and a payload type outside 64 to 95. *)
Lemma media_classes b0 b1 rest : 128 <= b0 < 192 -> 0 <= b1 < 256 ->
  (192 <= b1 <= 223 -> stream_of (b0 :: b1 :: rest) = SRTCP) /\
  (~ 64 <= b1 mod 128 <= 95 -> stream_of (b0 :: b1 :: rest) = SRTP).
Proof.
  intros H0 H1. rewrite stream_of_spec by lia.
  destruct ((20 <=? b0) && (b0 <=? 63)) eqn:E0; [lia|].
  destruct ((64 <=? b1 mod 128) && (b1 mod 128 <=? 95)) eqn:E; split; intros H; try done; lia.
Qed.

Section Mux.

Context {B : Type} `{!BufferOps B} `{!BufferLaws B}.
Abbreviation iceMux := (IceMux.iceMux (B := B)).

Lemma buffer_set s s' b (m : iceMux) :
  buffer_of s (set_buffer s' b m) = if decide (s = s') then b else buffer_of s m.
Proof. by destruct s, s'. Qed.
Lemma set_buffer_flags s b (m : iceMux) :
  m_looping (set_buffer s b m) = m_looping m /\ m_closed (set_buffer s b m) = m_closed m /\
  m_raddr (set_buffer s b m) = m_raddr m /\ m_connClosed (set_buffer s b m) = m_connClosed m.
Proof. by destruct s. Qed.
Lemma buffer_closeBuffers s (m : iceMux) : buffer_of s (closeBuffers m) = buf_Close (buffer_of s m).
Proof. by destruct s. Qed.

Lemma ReadFrom_state s n (m : iceMux) : (ReadFrom s n m).1.1 = set_buffer s (buf_Read n (buffer_of s m)).1 m.
Proof. unfold ReadFrom. by destruct (buf_Read n (buffer_of s m)) as [b []]. Qed.
Lemma ReadFrom_result s n (m : iceMux) : (ReadFrom s n m).1.2 = (buf_Read n (buffer_of s m)).2.
Proof. unfold ReadFrom. by destruct (buf_Read n (buffer_of s m)) as [b []]. Qed.

(** ** Independence *)

(** What a stream sees of the mux. *)
Record agrees (s : stream) (m m' : iceMux) : Prop := {
  ag_buffer : buffer_of s m = buffer_of s m';
  ag_looping : m_looping m = m_looping m';
  ag_closed : m_closed m = m_closed m' }.

Lemma agrees_set s s' b b' m m' : agrees s m m' -> (s = s' -> b = b') ->
  agrees s (set_buffer s' b m) (set_buffer s' b' m').
Proof.
  intros [H1 H2 H3] Hb. destruct (set_buffer_flags s' b m) as (L1 & C1 & _), (set_buffer_flags s' b' m') as (L2 & C2 & _).
  split; [rewrite !buffer_set; destruct (decide (s = s')); auto|by rewrite L1, L2|by rewrite C1, C2].
Qed.

Lemma step_agrees s m m' ev : agrees s m m' -> agrees s (step m ev) (step m' ev).
Proof.
  intros HA. pose proof HA as [H1 H2 H3]. destruct ev as [[pkt|e]|s' n|p|]; cbn [step].
  - unfold readLoop. rewrite <- H2. destruct (m_looping m); [|done]. destruct pkt as [|x pkt]; [done|]. cbn [negb].
    apply agrees_set; [done|]. by intros ->; rewrite H1.
  - unfold readLoop. rewrite <- H2. destruct (m_looping m) eqn:El; [|done]. cbn [negb].
    split; [|done|exact H3]. pose proof (buffer_closeBuffers s m) as E1. pose proof (buffer_closeBuffers s m') as E2.
    rewrite H1, <- E2 in E1. by destruct s.
  - rewrite !ReadFrom_state. apply agrees_set; [done|]. by intros ->; rewrite H1.
  - by split; [destruct s| |].
  - unfold Close. rewrite <- H3. destruct (m_closed m) eqn:Ec; [done|]. split; [|done|done].
    cbn [fst]. rewrite !buffer_closeBuffers. f_equal. by destruct s.
Qed.

Lemma step_other s m ev : concerns s ev = false -> agrees s (step m ev) m.
Proof.
  intros Hc. destruct ev as [[pkt|e]|s' n|p|]; cbn [step concerns] in *; try done.
  - apply bool_decide_eq_false in Hc. unfold readLoop. destruct (m_looping m); [|by split]. destruct pkt as [|x pkt]; [by split|].
    cbn [negb]. destruct (set_buffer_flags (stream_of (x :: pkt)) (buf_Write (x :: pkt) (buffer_of (stream_of (x :: pkt)) m)).1 m) as (L & C & _).
    split; [|done|done]. rewrite buffer_set. by destruct (decide (s = _)).
  - apply bool_decide_eq_false in Hc. rewrite ReadFrom_state.
    destruct (set_buffer_flags s' (buf_Read n (buffer_of s' m)).1 m) as (L & C & _).
    split; [|done|done]. rewrite buffer_set. by destruct (decide (s = s')).
Qed.

Lemma received_by_agrees s m m' ev : agrees s m m' -> received_by s m ev = received_by s m' ev.
Proof.
  intros [H1 _ _]. destruct ev as [|s' n| |]; try done. cbn [received_by]. destruct (bool_decide (s' = s)); [|done].
  by rewrite !ReadFrom_result, H1.
Qed.

Lemma agrees_trans s m1 m2 m3 : agrees s m1 m2 -> agrees s m2 m3 -> agrees s m1 m3.
Proof. intros [? ? ?] [? ? ?]. split; congruence. Qed.
Lemma agrees_sym s m1 m2 : agrees s m1 m2 -> agrees s m2 m1.
Proof. intros [? ? ?]. by split. Qed.

Lemma run_alone s evs : forall m m', agrees s m m' ->
  agrees s (run m evs) (run m' (filter (fun ev => concerns s ev = true) evs)) /\
  received s m evs = received s m' (filter (fun ev => concerns s ev = true) evs).
Proof.
  induction evs as [|ev evs IH]; intros m m' HA; [done|]. rewrite filter_cons. case_decide as Hc.
  - cbn [run fold_left received]. rewrite (received_by_agrees _ _ _ ev HA).
    destruct (IH (step m ev) (step m' ev)) as [H1 H2]; [by apply step_agrees|]. by rewrite H2.
  - apply not_true_is_false in Hc. cbn [run fold_left received].
    destruct (IH (step m ev) m') as [H1 H2]; [by eapply agrees_trans; [apply step_other|]|].
    split; [exact H1|]. rewrite H2.
    destruct ev as [|s' n| |]; try done. cbn [received_by concerns] in *. by rewrite Hc.
Qed.

(** ** Order and ownership *)

Lemma step_sublist s m ev :
  received_by s m ev ++ queue (buffer_of s (step m ev)) `sublist_of` queue (buffer_of s m) ++ arrives s m ev.
Proof.
  destruct ev as [[pkt|e]|s' n|p|]; cbn [step received_by arrives app].
  - unfold readLoop. destruct (m_looping m); cbn [negb andb]; [|by rewrite app_nil_r].
    destruct pkt as [|x pkt]; [rewrite bool_decide_false by (intros Hn; by apply Hn); cbn [andb]; by rewrite app_nil_r|].
    rewrite bool_decide_true by done. rewrite buffer_set. cbn [andb]. destruct (decide (s = stream_of (x :: pkt))) as [->|Hne].
    + rewrite bool_decide_true by done.
      destruct (buf_closed (buffer_of (stream_of (x :: pkt)) m)) eqn:Ec;
        [|destruct (accepts (x :: pkt) (buffer_of (stream_of (x :: pkt)) m)) eqn:Ea].
      * destruct (write_refused (x :: pkt) _ (or_introl Ec)) as [e ->]. by apply sublist_inserts_r.
      * destruct (write_taken _ _ Ec Ea) as (b' & -> & Hq & _). cbn [fst]. by rewrite Hq.
      * destruct (write_refused (x :: pkt) _ (or_intror Ea)) as [e ->]. by apply sublist_inserts_r.
    + rewrite bool_decide_false by done. by rewrite app_nil_r.
  - rewrite app_nil_r. unfold readLoop. destruct (m_looping m); [|done]. cbn [negb].
    replace (buffer_of s _) with (buffer_of s (closeBuffers m)) by by destruct s.
    rewrite buffer_closeBuffers. by rewrite (proj1 (close_queue _)).
  - rewrite ReadFrom_state, buffer_set, app_nil_r. destruct (decide (s = s')) as [<-|Hne].
    + rewrite bool_decide_true, ReadFrom_result by done.
      destruct (queue (buffer_of s m)) as [|p q] eqn:Eq.
      * rewrite read_empty by done. cbn [fst snd]. rewrite Eq. by destruct (buf_closed _).
      * destruct (Z.le_gt_cases (len p) n) as [Hl|Hl].
        -- by destruct (read_packet _ _ _ _ Eq Hl) as (b' & -> & Hq & _); cbn [fst snd]; rewrite Hq.
        -- destruct (read_short _ _ _ _ Eq Hl) as (b' & e & -> & [Hq|Hq] & _); cbn [fst snd app]; rewrite Hq; [by apply sublist_cons|done].
    + by rewrite bool_decide_false.
  - rewrite app_nil_r. by replace (buffer_of s (WriteTo p m)) with (buffer_of s m) by by destruct s.
  - rewrite app_nil_r. unfold Close. destruct (m_closed m); [done|]. cbn [fst]. rewrite buffer_closeBuffers.
    rewrite (proj1 (close_queue _)). by destruct s.
Qed.

Lemma run_sublist s evs m :
  received s m evs ++ queue (buffer_of s (run m evs)) `sublist_of` queue (buffer_of s m) ++ arrived s m evs.
Proof.
  revert m. induction evs as [|ev evs IH]; intros m; [by rewrite app_nil_r|].
  cbn [received run fold_left arrived]. rewrite <- app_assoc.
  etrans; [apply sublist_app; [done|apply IH]|]. rewrite !app_assoc. apply sublist_app; [|done]. apply step_sublist.
Qed.

(** *** Nothing is lost that the stream has room for *)

(** The stream takes the packet, or gives it to a slice that holds it. *)
Definition roomy (s : stream) (m : iceMux) (ev : event) : bool :=
  match ev with
  | EArrive (inl pkt) =>
    bool_decide (arrives s m ev = []) || negb (buf_closed (buffer_of s m)) && accepts pkt (buffer_of s m)
  | ERead s' n => negb (bool_decide (s' = s)) || match queue (buffer_of s m) with p :: _ => len p <=? n | [] => true end
  | _ => true
  end.
Fixpoint roomy_run (s : stream) (m : iceMux) (evs : list event) : bool :=
  match evs with
  | [] => true
  | ev :: evs => roomy s m ev && roomy_run s (step m ev) evs
  end.

Lemma step_exact s m ev : roomy s m ev = true ->
  received_by s m ev ++ queue (buffer_of s (step m ev)) = queue (buffer_of s m) ++ arrives s m ev.
Proof.
  destruct ev as [[pkt|e]|s' n|p|]; cbn [roomy]; [| |intros Hr|intros _..].
  - cbn [step received_by app]. destruct (bool_decide (arrives s m (EArrive (inl pkt)) = [])) eqn:Ea.
    + apply bool_decide_eq_true in Ea. rewrite Ea, app_nil_r. intros _. cbn [arrives] in Ea. unfold readLoop.
      destruct (m_looping m); [|done]. destruct pkt as [|x pkt]; [done|]. rewrite bool_decide_true in Ea by done.
      cbn [negb andb] in *. rewrite buffer_set. destruct (decide (s = _)) as [->|]; [|done].
      by rewrite bool_decide_true in Ea.
    + intros [Hc Ha]%andb_true_iff. apply negb_true_iff in Hc. apply bool_decide_eq_false in Ea. cbn [arrives] in *.
      unfold readLoop. destruct (m_looping m); [|done]. cbn [negb andb] in *.
      destruct pkt as [|x pkt]; [by destruct (bool_decide ([] <> [])) eqn:E; [apply bool_decide_eq_true in E|]|].
      rewrite bool_decide_true in Ea |- * by done. cbn [andb] in *.
      destruct (bool_decide (stream_of (x :: pkt) = s)) eqn:Es; [|done]. apply bool_decide_eq_true in Es as <-.
      rewrite buffer_set, decide_True by done. destruct (write_taken _ _ Hc Ha) as (b' & -> & Hq & _). exact Hq.
  - intros _. cbn [step received_by arrives app]. rewrite app_nil_r. unfold readLoop. destruct (m_looping m); [|done]. cbn [negb].
    replace (buffer_of s _) with (buffer_of s (closeBuffers m)) by by destruct s.
    rewrite buffer_closeBuffers. by rewrite (proj1 (close_queue _)).
  - cbn [step received_by arrives]. rewrite ReadFrom_state, buffer_set, app_nil_r. destruct (decide (s = s')) as [<-|Hne].
    + rewrite bool_decide_true in Hr |- * by done. rewrite ReadFrom_result. cbn [negb orb] in Hr.
      destruct (queue (buffer_of s m)) as [|p q] eqn:Eq.
      * rewrite read_empty by done. cbn [fst snd]. rewrite Eq. by destruct (buf_closed _).
      * apply Z.leb_le in Hr. destruct (read_packet _ _ _ _ Eq Hr) as (b' & -> & Hq & _). cbn [fst snd]. by rewrite Hq.
    + by rewrite bool_decide_false.
  - cbn [step received_by arrives app]. rewrite app_nil_r. by destruct s.
  - cbn [step received_by arrives app]. rewrite app_nil_r. unfold Close. destruct (m_closed m); [done|]. cbn [fst].
    rewrite buffer_closeBuffers, (proj1 (close_queue _)). by destruct s.
Qed.

Lemma run_exact s evs m : roomy_run s m evs = true ->
  received s m evs ++ queue (buffer_of s (run m evs)) = queue (buffer_of s m) ++ arrived s m evs.
Proof.
  revert m. induction evs as [|ev evs IH]; intros m; [intros _; cbn; by rewrite app_nil_r|].
  cbn [roomy_run received run fold_left arrived]. intros [Hr Hrs]%andb_true_iff.
  specialize (IH _ Hrs). unfold run in IH. by rewrite <- app_assoc, IH, !app_assoc, step_exact.
Qed.

(** ** Closing *)

Record shut (m : iceMux) : Prop := {
  sh_conn : m_connClosed m = if m_closed m then 1 else 0;
  sh_buffers : m_closed m = true \/ m_looping m = false -> forall s, buf_closed (buffer_of s m) = true }.

Lemma write_closed p b : buf_closed b = true -> buf_closed (buf_Write p b).1 = true.
Proof. intros Hc. by destruct (write_refused p b (or_introl Hc)) as [e ->]. Qed.
Lemma read_closed n b : buf_closed (buf_Read n b).1 = buf_closed b.
Proof.
  destruct (queue b) as [|p q] eqn:E; [by rewrite read_empty|]. destruct (Z.le_gt_cases (len p) n) as [Hl|Hl].
  - by destruct (read_packet _ _ _ _ E Hl) as (b' & -> & _ & ?).
  - by destruct (read_short _ _ _ _ E Hl) as (b' & e & -> & _ & ?).
Qed.

Lemma shut_set s b m : shut m -> (buf_closed (buffer_of s m) = true -> buf_closed b = true) -> shut (set_buffer s b m).
Proof.
  intros [H1 H2] Hb. destruct (set_buffer_flags s b m) as (L & C & _ & N). split; rewrite ?L, ?C, ?N; [done|].
  intros Hs s'. rewrite buffer_set. destruct (decide (s' = s)) as [->|]; auto.
Qed.

Lemma shut_step m ev : shut m -> shut (step m ev).
Proof.
  intros HS. destruct ev as [[pkt|e]|s' n|p|]; cbn [step].
  - unfold readLoop. destruct (m_looping m); [|done]. destruct pkt as [|x pkt]; [done|]. cbn [negb].
    apply shut_set; [done|]. apply write_closed.
  - unfold readLoop. destruct (m_looping m); [|done]. cbn [negb]. split; [apply HS|]. intros _ s.
    replace (buffer_of s _) with (buffer_of s (closeBuffers m)) by by destruct s.
    rewrite buffer_closeBuffers. apply close_queue.
  - rewrite ReadFrom_state. apply shut_set; [done|]. by rewrite read_closed.
  - destruct HS as [H1 H2]. split; [done|]. intros Hs s. rewrite <- (H2 Hs s). by destruct s.
  - unfold Close. destruct (m_closed m) eqn:Ec; [done|]. cbn [fst]. split.
    + cbn. rewrite (sh_conn _ HS), Ec. done.
    + intros _ s. rewrite buffer_closeBuffers. apply close_queue.
Qed.

Lemma shut_run evs m : shut m -> shut (run m evs).
Proof. revert m. induction evs as [|ev evs IH]; [done|]. intros m HS. by apply IH, shut_step. Qed.

Lemma new_shut a : shut (newICEMux a).
Proof. split; [done|]. by intros []. Qed.

(** ** Claims *)

(** C24. The streams of the ICE mux. Whatever arrives, is read and is closed, in
    whatever order: a stream stands as if the packets and reads of the other two
    had not been, so a full or stalled one costs the others nothing; what its
    readers got and what still waits for them are packets of its own class that
    arrived, in their order and each at most once, and all of them where its
    buffer had room and the readers' slices were long enough; the ICE connection
    is closed once at most; and when the mux is closed, or its connection has
    failed, no read waits any more. *)
Theorem mux_streams a evs s :
  let m0 := newICEMux a in let m := run m0 evs in
  let own := filter (fun ev => concerns s ev = true) evs in
  buffer_of s m = buffer_of s (run m0 own) /\ received s m0 evs = received s m0 own /\
  received s m0 evs ++ queue (buffer_of s m) `sublist_of` arrived s m0 evs /\
  Forall (fun p => stream_of p = s) (arrived s m0 evs) /\
  (roomy_run s m0 evs = true -> received s m0 evs ++ queue (buffer_of s m) = arrived s m0 evs) /\
  m_connClosed m <= 1 /\
  (m_closed m = true \/ m_looping m = false -> forall n, (ReadFrom s n m).1.2 <> RWait).
Proof.
  intros m0 m own. assert (queue (buffer_of s m0) = []) as Hq by (destruct s; apply new_queue).
  assert (shut m) as HS by apply shut_run, new_shut.
  destruct (run_alone s evs m0 m0) as [[H1 _ _] H2]; [done|]. split; [done|]. split; [done|].
  split; [pose proof (run_sublist s evs m0) as Hr; by rewrite Hq in Hr|].
  split; [|split; [intros Hr; rewrite run_exact, Hq; done|split]].
  - clear. generalize m0. induction evs as [|ev evs IH]; intros m; [constructor|]. cbn [arrived]. apply Forall_app.
    split; [|apply IH]. destruct ev as [[pkt|e]| | |]; try constructor. cbn [arrives].
    destruct (m_looping m), (bool_decide (pkt <> [])), (bool_decide (stream_of pkt = s)) eqn:E; constructor; [|constructor].
    by apply bool_decide_eq_true in E.
  - rewrite (sh_conn _ HS). destruct (m_closed m); lia.
  - intros Hc n. rewrite ReadFrom_result. pose proof (sh_buffers _ HS Hc s) as Hb.
    destruct (queue (buffer_of s m)) as [|p q] eqn:Eq; [by rewrite read_empty, Hb|].
    destruct (Z.le_gt_cases (len p) n) as [Hl|Hl].
    + by destruct (read_packet _ _ _ _ Eq Hl) as (b' & -> & _).
    + by destruct (read_short _ _ _ _ Eq Hl) as (b' & e & -> & _).
Qed.

End Mux.

(** *** A handshake, media and a report on one connection *)

Definition ex_raddr : UDPAddr := {| ua_IP := None; ua_Port := 7000; ua_Zone := EmptyString |}.
Definition ex_events : list event :=
  [EArrive (inl [22; 254]); EArrive (inl [128; 0; 1]); ERead SRTP 1500; EArrive (inl [128; 200; 2]);
   EArrive (inl [128; 8; 3]); ERead SRTP 1500; EArrive (inr net_ErrClosed); ERead SRTP 1500].

Lemma mux_streams_witness :
  received SRTP (newICEMux (B := fifo) ex_raddr) ex_events = [[128; 0; 1]; [128; 8; 3]] /\
  arrived SRTP (newICEMux (B := fifo) ex_raddr) ex_events = [[128; 0; 1]; [128; 8; 3]] /\
  received SRTCP (newICEMux (B := fifo) ex_raddr) ex_events ++ queue (buffer_of SRTCP (run (newICEMux (B := fifo) ex_raddr) ex_events))
    = [[128; 200; 2]] /\
  (ReadFrom SDTLS 1500 (run (newICEMux (B := fifo) ex_raddr) ex_events)).1.2 <> RWait.
Proof.
  destruct (mux_streams (B := fifo) ex_raddr ex_events SRTCP) as (_ & _ & _ & _ & H1 & _).
  destruct (mux_streams (B := fifo) ex_raddr ex_events SDTLS) as (_ & _ & _ & _ & _ & _ & H2).
  split; [vm_compute; reflexivity|]. split; [vm_compute; reflexivity|]. split.
  - rewrite H1 by (vm_compute; reflexivity). vm_compute. reflexivity.
  - apply H2. right. vm_compute. reflexivity.
Defined.

End IceMuxProps.
