(* ===== verification/IceAgent.v ===== *)
(** * The ICE agent

    [media/ice.go]: building an agent and its credentials, gathering candidates
    over the session's socket, connecting, and closing. What pion/ice and
    pion/stun do is an argument of each operation, and so are the random bytes;
    the socket and the library's agent are recorded as they are closed. *)
From S2P Require Import Prelude GoStrings NetIP Sha Hex MediaSdp.
Import GoStrings NetIP Sha Hex MediaSdp.

Module IceAgent.

Section Agent.

(** Types of pion/ice and pion/stun: networks, candidates with what is rendered
    of them, server URIs. *)
Context {network : Type} (NetworkTypeUDP4 : network).
Context {uri : Type} (ParseURI : string -> uri + error).

Record Candidate := {
  Foundation : string;
  Component : Z;
  NetworkShort : string;
  Priority : Z;
  Address : string;
  c_Port : Z;
  CandidateType : string }.

Record ICEConfig := { STUNServers : list string; Lite : bool; NetworkTypes : list network }.

(** [a_agent]: the library's agent is there. [udpMux]: the socket its mux wraps. *)
Record ICEAgent := {
  a_agent : bool;
  config : ICEConfig;
  a_ufrag : string;
  a_pwd : string;
  remoteUfrag : string;
  remotePwd : string;
  a_candidates : list Candidate;
  udpMux : option nat;
  a_conn : bool }.
#[export] Instance agent_eta : Eta ICEAgent := fun a =>
  {| a_agent := a_agent a; config := config a; a_ufrag := a_ufrag a; a_pwd := a_pwd a; remoteUfrag := remoteUfrag a;
     remotePwd := remotePwd a; a_candidates := a_candidates a; udpMux := udpMux a; a_conn := a_conn a |}.

(** [random] is what [rand.Read] fills a slice of that length with. *)
Definition generateICEString (length : nat) (random : nat -> bytes + error) : string + error :=
  match random (length / 2 + 1)%nat with
  | inr e => inr e
  | inl b => inl (String.substring 0 length (EncodeToString b))
  end.

Definition NewICEAgent (c : ICEConfig) (random1 random2 : nat -> bytes + error) : ICEAgent + error :=
  if Lite c && (0 <? length (STUNServers c))%nat then
    inr (ErrNew "ice: a lite agent gathers host candidates only and uses no STUN servers")
  else
    let c := match NetworkTypes c with
             | [] => {| STUNServers := STUNServers c; Lite := Lite c; NetworkTypes := [NetworkTypeUDP4] |}
             | _ => c
             end in
    match generateICEString 16 random1 with
    | inr e => inr (ErrWrap "ice: generate ufrag" e)
    | inl ufrag =>
      match generateICEString 22 random2 with
      | inr e => inr (ErrWrap "ice: generate pwd" e)
      | inl pwd =>
        inl {| a_agent := false; config := c; a_ufrag := ufrag; a_pwd := pwd; remoteUfrag := EmptyString;
               remotePwd := EmptyString; a_candidates := []; udpMux := None; a_conn := false |}
      end
    end.

Definition iceSTUNURIs (stunServers : list string) : list uri :=
  omap (fun s => match ParseURI s with inl url => Some url | inr _ => None end) stunServers.

(** *** Gathering

    What the select of [gatherCandidates] takes next. *)
Inductive gather_event :=
| GCandidate (c : Candidate)
| GComplete                 (* the channel is closed *)
| GTimeout
| GDone (e : error).        (* the context is done *)

(** The select loop; [None] when it is still waiting after [evs]. *)
Fixpoint gather_loop (evs : list gather_event) (a : ICEAgent) : option (ICEAgent * option error) :=
  match evs with
  | [] => None
  | GCandidate c :: evs => gather_loop evs (a <| a_candidates := a_candidates a ++ [c] |>)
  | GComplete :: _ | GTimeout :: _ => Some (a, None)
  | GDone e :: _ => Some (a, Some e)
  end.

(** What the library answers to [Init]. *)
Record lib_init := {
  li_newAgent : option error;
  li_onCandidate : option error;
  li_gather : option error;
  li_events : list gather_event }.

Definition gatherCandidates (li : lib_init) (a : ICEAgent) : option (ICEAgent * option error) :=
  match li_onCandidate li with
  | Some e => Some (a, Some (ErrWrap "on candidate" e))
  | None =>
    match li_gather li with
    | Some e => Some (a, Some (ErrWrap "gather" e))
    | None => gather_loop (li_events li) (a <| a_candidates := [] |>)
    end
  end.

(** What the code closes: the library's agent, and a mux with the socket it
    wraps. *)
Inductive closing := CAgent | CMux (sock : nat).

Definition Init (li : lib_init) (conn : option nat) (a : ICEAgent) :
    option (ICEAgent * list closing * option error) :=
  match conn with
  | None => Some (a, [], Some (ErrNew "ice: conn must be set"))
  | Some sock =>
    match li_newAgent li with
    | Some e => Some (a <| udpMux := None |>, [CMux sock], Some (ErrWrap "ice: new agent" e))
    | None =>
      match gatherCandidates li (a <| udpMux := Some sock |> <| a_agent := true |>) with
      | None => None
      | Some (a, Some e) => Some (a, [], Some (ErrWrap "ice: gather candidates" e))
      | Some (a, None) => Some (a, [], None)
      end
    end
  end.

Definition SetRemoteCredentials (ufrag pwd : string) (a : ICEAgent) : ICEAgent :=
  a <| remoteUfrag := ufrag |> <| remotePwd := pwd |>.

(** [unmarshal] and [add] are the library's answers. *)
Definition AddRemoteCandidate (unmarshal add : option error) (a : ICEAgent) : option error :=
  if negb (a_agent a) then Some (ErrNew "ice: agent not initialized")
  else match unmarshal with
       | Some e => Some (ErrWrap "ice: parse candidate" e)
       | None => match add with
                 | Some e => Some (ErrWrap "ice: add remote candidate" e)
                 | None => None
                 end
       end.

(** What the checks come to: a failure, or a connection with the selected pair,
    of which the remote address and port are used. *)
Record checks := {
  ch_conn : option error;
  ch_pair : option (IP * Z) + error }.

(** [dial] and [accept] are the library's answers in the two roles, for the
    remote credentials they are given. *)
Definition Connect (dial accept : string -> string -> checks) (controlling : bool) (a : ICEAgent) :
    ICEAgent * (UDPAddr + error) :=
  if negb (a_agent a) then (a, inr (ErrNew "ice: agent not initialized"))
  else if String.eqb (remoteUfrag a) EmptyString || String.eqb (remotePwd a) EmptyString then
    (a, inr (ErrNew "ice: remote credentials not set"))
  else
    let ch := (if controlling then dial else accept) (remoteUfrag a) (remotePwd a) in
    match ch_conn ch with
    | Some e => (a, inr (ErrWrap "ice: connectivity checks failed" e))
    | None =>
      let a := a <| a_conn := true |> in
      match ch_pair ch with
      | inr e => (a, inr (ErrWrap "ice: selected pair" e))
      | inl None => (a, inr (ErrNew "ice: no candidate pair selected"))
      | inl (Some (ip, port)) => (a, inl {| ua_IP := ip; ua_Port := port; ua_Zone := EmptyString |})
      end
    end.

Definition Credentials (a : ICEAgent) : string * string := (a_ufrag a, a_pwd a).
Definition Candidates (a : ICEAgent) : list Candidate := a_candidates a.

(** [errors.Join] of the errors there are. *)
Definition join_errs (e1 e2 : option error) : option error :=
  match e1, e2 with
  | None, None => None
  | Some e, None | None, Some e => Some e
  | Some e1, Some e2 => Some (ErrJoin e1 e2)
  end.

Definition Close (agentErr muxErr : option error) (a : ICEAgent) : ICEAgent * list closing * option error :=
  let closeAgent := if a_agent a then [CAgent] else [] in
  let closeMux := match udpMux a with Some sock => [CMux sock] | None => [] end in
  (a <| a_agent := false |> <| udpMux := None |> <| a_conn := false |>, closeAgent ++ closeMux,
   join_errs (if a_agent a then agentErr else None) (match udpMux a with Some _ => muxErr | None => None end)).

Definition iceCandidateSDP (c : Candidate) : string :=
  "candidate:" +:+ Foundation c +:+ " " +:+ Itoa (Component c) +:+ " " +:+ ToUpper (NetworkShort c) +:+ " " +:+
  Itoa (Priority c) +:+ " " +:+ Address c +:+ " " +:+ Itoa (c_Port c) +:+ " typ " +:+ CandidateType c.

(** ** Lemmas *)

(** The text of an ICE credential: exactly as long as asked for, of hexadecimal
    digits, which are ice-chars. *)
Definition is_ice_char (c : ascii) : bool :=
  let n := nat_of_ascii c in
  ((48 <=? n) && (n <=? 57) || (65 <=? n) && (n <=? 90) || (97 <=? n) && (n <=? 122) || (n =? 43) || (n =? 47))%nat.

Lemma hex_char_ice d : 0 <= d < 16 -> is_ice_char (hex_char d) = true.
Proof.
  intros Hd. assert (d ∈ seqZ 0 16) as Hin by (apply elem_of_seqZ; lia). clear Hd. revert d Hin.
  apply Forall_forall, (bool_decide_unpack _). by vm_compute.
Qed.

Lemma EncodeToString_ice b : is_bytes b -> str_forall is_ice_char (EncodeToString b) = true.
Proof.
  induction 1 as [|x b Hx Hb IH]; [done|]. cbn [EncodeToString str_forall]. by rewrite !hex_char_ice, IH by lia.
Qed.

Lemma substring_forall P n s : str_forall P s = true -> str_forall P (String.substring 0 n s) = true.
Proof.
  revert n. induction s as [|c s IH]; intros n H; [by destruct n|]. destruct n as [|n]; [done|].
  cbn [String.substring str_forall] in *. apply andb_true_iff in H as [-> Hs]. by apply IH.
Qed.

Lemma substring_length n s : (n <= String.length s)%nat -> String.length (String.substring 0 n s) = n.
Proof.
  revert n. induction s as [|c s IH]; intros [|n] H; cbn [String.length String.substring] in *; try done; [lia|].
  rewrite IH; lia.
Qed.

Lemma generateICEString_spec n random b : random (n / 2 + 1)%nat = inl b -> length b = (n / 2 + 1)%nat -> is_bytes b ->
  exists s, generateICEString n random = inl s /\ String.length s = n /\ str_forall is_ice_char s = true.
Proof.
  intros E Hl Hb. unfold generateICEString. rewrite E. eexists. split; [done|]. split.
  - apply substring_length. rewrite EncodeToString_length, Hl. pose proof (Nat.div_mod_eq n 2).
    pose proof (Nat.mod_upper_bound n 2). lia.
  - by apply substring_forall, EncodeToString_ice.
Qed.

(** The credentials of a new agent are of the lengths RFC 8839 asks for: at least
    4 and 22 characters. The password holds 22 hexadecimal digits, 88 random
    bits. *)
Lemma NewICEAgent_credentials c r1 r2 b1 b2 a : NewICEAgent c r1 r2 = inl a ->
  r1 9%nat = inl b1 -> length b1 = 9%nat -> is_bytes b1 -> r2 12%nat = inl b2 -> length b2 = 12%nat -> is_bytes b2 ->
  String.length (a_ufrag a) = 16%nat /\ String.length (a_pwd a) = 22%nat /\
  str_forall is_ice_char (a_ufrag a) = true /\ str_forall is_ice_char (a_pwd a) = true.
Proof.
  unfold NewICEAgent. destruct (Lite c && _); [done|]. intros H E1 L1 B1 E2 L2 B2.
  destruct (generateICEString_spec 16 r1 b1 E1 L1 B1) as (s1 & R1 & Hs1 & Hc1).
  destruct (generateICEString_spec 22 r2 b2 E2 L2 B2) as (s2 & R2 & Hs2 & Hc2).
  rewrite R1, R2 in H. by injection H as <-.
Qed.

(** The socket given to [Init] is closed exactly once: by [Init] itself when the
    library refuses the agent, and else by [Close], with the agent before it,
    whether or not gathering succeeded; a second [Close] closes nothing. *)
Lemma gather_loop_keeps evs a a' e : gather_loop evs a = Some (a', e) -> a_agent a' = a_agent a /\ udpMux a' = udpMux a.
Proof.
  revert a. induction evs as [|[c| | |e'] evs IH]; intros a H; try done; cbn [gather_loop] in H.
  - by apply IH in H.
  - by injection H as <- _.
  - by injection H as <- _.
  - by injection H as <- _.
Qed.

Lemma socket_closed_once li sock a a' cl e e1 e2 e3 e4 : a_agent a = false -> udpMux a = None ->
  Init li (Some sock) a = Some (a', cl, e) ->
  let '(a1, cl1, _) := Close e1 e2 a' in
  let '(a2, cl2, err) := Close e3 e4 a1 in
  cl ++ cl1 = match li_newAgent li with Some _ => [CMux sock] | None => [CAgent; CMux sock] end /\
  cl2 = [] /\ err = None /\ a2 = a1.
Proof.
  intros Ha Hm H. unfold Init in H. destruct (li_newAgent li) as [e'|].
  - injection H as <- <- <-. unfold Close. cbn. by rewrite Ha.
  - destruct (gatherCandidates li (a <| udpMux := Some sock |> <| a_agent := true |>)) as [[a3 e3']|] eqn:E; [|done].
    assert (a_agent a3 = true /\ udpMux a3 = Some sock) as [H1 H2].
    { unfold gatherCandidates in E. destruct (li_onCandidate li); [by injection E as <- _|].
      destruct (li_gather li); [by injection E as <- _|]. by apply gather_loop_keeps in E as [-> ->]. }
    assert (a' = a3 /\ cl = []) as [-> ->] by (destruct e3'; injection H as <- <- _; done).
    unfold Close. cbn. by rewrite H1, H2.
Qed.

(** Connecting needs an agent and the peer's credentials, and reports where the
    selected pair leads. *)
Lemma Connect_ok dial accept controlling a a' addr : Connect dial accept controlling a = (a', inl addr) ->
  a_agent a = true /\ remoteUfrag a <> EmptyString /\ remotePwd a <> EmptyString /\ a_conn a' = true /\
  exists ip port, ch_pair ((if controlling then dial else accept) (remoteUfrag a) (remotePwd a)) = inl (Some (ip, port)) /\
    addr = {| ua_IP := ip; ua_Port := port; ua_Zone := EmptyString |}.
Proof.
  unfold Connect. destruct (a_agent a); [|done]. cbn [negb].
  destruct (String.eqb_spec (remoteUfrag a) EmptyString), (String.eqb_spec (remotePwd a) EmptyString); try done. cbn [orb].
  destruct (ch_conn _); [done|]. destruct (ch_pair _) as [[[ip port]|]|]; [|done..]. intros [= <- <-]. eauto 10.
Qed.

End Agent.

End IceAgent.
