(* ===== verification/PacketIO.v ===== *)
(** * RTP packetization

    [media/rtp_packet_writer.go] and [media/rtp_packet_reader.go]: payloads to
    packets with their sequence numbers, timestamps and markers, and packets to
    payloads for readers with buffers of any size. What the RTP session below
    returns and the clock are arguments of the operations. *)
From S2P Require Import Prelude GoStrings Float64 Rtp Sequencer Codec.
Import GoStrings Sequencer.

Module PacketIO.

(** ** Writer *)

(** The ticker is the duration it runs at, while the clock is enabled. *)
Record RTPPacketWriter := {
  clockTicker : option Z;
  PacketHeader : rtp_header;
  pw_SSRC : Z;
  codec : Codecs.Codec;
  sampleRateTimestamp : Z;
  lastSampleTime : Z;
  seqWriter : RTPExtendedSequenceNumber;
  nextTimestamp : Z;
  initTimestamp : Z }.

#[export] Instance eta_writer : Eta RTPPacketWriter := fun w =>
  {| clockTicker := clockTicker w; PacketHeader := PacketHeader w; pw_SSRC := pw_SSRC w; codec := codec w;
     sampleRateTimestamp := sampleRateTimestamp w; lastSampleTime := lastSampleTime w; seqWriter := seqWriter w;
     nextTimestamp := nextTimestamp w; initTimestamp := initTimestamp w |}.

Definition clockReset (w : RTPPacketWriter) : RTPPacketWriter :=
  let w := w <| sampleRateTimestamp := Codecs.SampleTimestamp (codec w) |> in
  match clockTicker w with
  | Some _ => w <| clockTicker := Some (Codecs.SampleDur (codec w)) |>
  | None => w
  end.

Definition clockStart (w : RTPPacketWriter) : RTPPacketWriter :=
  let w := clockReset w in
  match clockTicker w with
  | Some _ => w
  | None => w <| clockTicker := Some (Codecs.SampleDur (codec w)) |>
  end.

(** [r] and [ssrc] are the random numbers drawn. *)
Definition NewRTPPacketWriter (r ssrc : Z) (c : Codecs.Codec) : RTPPacketWriter :=
  clockStart
    {| clockTicker := None; PacketHeader := rtp_header_zero; pw_SSRC := u32 ssrc; codec := c; sampleRateTimestamp := 0;
       lastSampleTime := time_zero; seqWriter := NewRTPSequencer r; nextTimestamp := 0; initTimestamp := 0 |}.

Definition ClockDisable (w : RTPPacketWriter) : RTPPacketWriter := w <| clockTicker := None |>.
Definition ClockEnable (w : RTPPacketWriter) : RTPPacketWriter := clockStart w.

(** The samples a delay lasted. *)
Definition delaySamples (w : RTPPacketWriter) (now : Z) : Z :=
  u32 (Float64.to_Z (Float64.fmul (Float64.Seconds (now - lastSampleTime w)) (Float64.of_Z (Codecs.SampleRate (codec w))))).

Definition ResetTimestamp (now : Z) (w : RTPPacketWriter) : RTPPacketWriter :=
  if IsZero (lastSampleTime w) then w
  else
    let w := w <| nextTimestamp := u32 (nextTimestamp w + delaySamples w now) |> in
    w <| initTimestamp := nextTimestamp w |>.

Definition DelayTimestamp (offset : Z) (w : RTPPacketWriter) : RTPPacketWriter :=
  w <| nextTimestamp := u32 (nextTimestamp w + offset) |>.

(** The packet handed to the session, with the writer after it; what the session
    returns is returned with the length of the payload. *)
Definition writeSamplesUnsafe (payload : bytes) (step : Z) (marker : bool) (payloadType : Z) (w : RTPPacketWriter) :
    RTPPacketWriter * rtp_packet :=
  let '(sq, n) := NextSeqNumber (seqWriter w) in
  let h := {| Version := 2; Padding := false; Marker := marker; PayloadType := payloadType; SequenceNumber := n;
              Timestamp := nextTimestamp w; SSRC := pw_SSRC w; PaddingSize := 0 |} in
  (w <| seqWriter := sq |> <| nextTimestamp := u32 (nextTimestamp w + step) |> <| PacketHeader := h |>,
   {| Header := h; Payload := payload |}).

Definition WriteSamples := writeSamplesUnsafe.

(** [now] is the time the tick it waits for, or the clock, gives. *)
Definition Write (payload : bytes) (now : Z) (w : RTPPacketWriter) : RTPPacketWriter * rtp_packet :=
  let '(w, p) := writeSamplesUnsafe payload (sampleRateTimestamp w) (nextTimestamp w =? initTimestamp w)
                   (Codecs.PayloadType (codec w)) w in
  (w <| lastSampleTime := now |>, p).

Definition UpdateRTPSession (c : Codecs.Codec) (w : RTPPacketWriter) : RTPPacketWriter :=
  clockReset (w <| codec := c |>).

(** What may be called on a writer. *)
Inductive wop :=
| OpWrite (payload : bytes) (now : Z)
| OpSamples (payload : bytes) (step : Z) (marker : bool) (payloadType : Z)
| OpReset (now : Z)
| OpDelay (offset : Z)
| OpSession (c : Codecs.Codec)
| OpClockOff
| OpClockOn.

Definition wstep (op : wop) (w : RTPPacketWriter) : RTPPacketWriter * list rtp_packet :=
  match op with
  | OpWrite payload now => let '(w, p) := Write payload now w in (w, [p])
  | OpSamples payload step marker pt => let '(w, p) := WriteSamples payload step marker pt w in (w, [p])
  | OpReset now => (ResetTimestamp now w, [])
  | OpDelay offset => (DelayTimestamp offset w, [])
  | OpSession c => (UpdateRTPSession c w, [])
  | OpClockOff => (ClockDisable w, [])
  | OpClockOn => (ClockEnable w, [])
  end.

Fixpoint wrun (ops : list wop) (w : RTPPacketWriter) : RTPPacketWriter * list rtp_packet :=
  match ops with
  | [] => (w, [])
  | op :: ops =>
    let '(w, ps) := wstep op w in
    let '(w, qs) := wrun ops w in (w, ps ++ qs)
  end.

(** *** The stream a writer stands for

    An unbounded packet index and media clock: what each packet is, without the
    widths of its fields. *)
Record stream := { st_index : Z; st_clock : Z; st_init : Z; st_step : Z; st_rate : Z; st_last : Z; st_pt : Z }.
#[export] Instance eta_stream : Eta stream := fun s =>
  {| st_index := st_index s; st_clock := st_clock s; st_init := st_init s; st_step := st_step s; st_rate := st_rate s;
     st_last := st_last s; st_pt := st_pt s |}.

Record frame := { f_index : Z; f_clock : Z; f_start : bool; f_pt : Z; f_payload : bytes }.

Definition sstep (op : wop) (s : stream) : stream * list frame :=
  match op with
  | OpWrite payload now =>
    (s <| st_index := st_index s + 1 |> <| st_clock := st_clock s + st_step s |> <| st_last := now |>,
     [{| f_index := st_index s; f_clock := st_clock s; f_start := u32 (st_clock s) =? u32 (st_init s); f_pt := st_pt s; f_payload := payload |}])
  | OpSamples payload step marker pt =>
    (s <| st_index := st_index s + 1 |> <| st_clock := st_clock s + step |>,
     [{| f_index := st_index s; f_clock := st_clock s; f_start := marker; f_pt := pt; f_payload := payload |}])
  | OpReset now =>
    if IsZero (st_last s) then (s, [])
    else
      let d := u32 (Float64.to_Z (Float64.fmul (Float64.Seconds (now - st_last s)) (Float64.of_Z (st_rate s)))) in
      (s <| st_clock := st_clock s + d |> <| st_init := st_clock s + d |>, [])
  | OpDelay offset => (s <| st_clock := st_clock s + offset |>, [])
  | OpSession c => (s <| st_step := Codecs.SampleTimestamp c |> <| st_rate := Codecs.SampleRate c |> <| st_pt := Codecs.PayloadType c |>, [])
  | _ => (s, [])
  end.

Fixpoint srun (ops : list wop) (s : stream) : stream * list frame :=
  match ops with
  | [] => (s, [])
  | op :: ops =>
    let '(s, fs) := sstep op s in
    let '(s, gs) := srun ops s in (s, fs ++ gs)
  end.

Definition packet_of (ssrc : Z) (f : frame) : rtp_packet :=
  {| Header := {| Version := 2; Padding := false; Marker := f_start f; PayloadType := f_pt f; SequenceNumber := u16 (f_index f);
                  Timestamp := u32 (f_clock f); SSRC := ssrc; PaddingSize := 0 |};
     Payload := f_payload f |}.

Record implements (w : RTPPacketWriter) (s : stream) : Prop := {
  im_index : tracks (seqWriter w) (st_index s - 1);
  im_clock : nextTimestamp w = u32 (st_clock s);
  im_init : initTimestamp w = u32 (st_init s);
  im_step : sampleRateTimestamp w = st_step s;
  im_rate : Codecs.SampleRate (codec w) = st_rate s;
  im_last : lastSampleTime w = st_last s;
  im_pt : Codecs.PayloadType (codec w) = st_pt s }.

Lemma clockReset_fields w : let v := clockReset w in
  pw_SSRC v = pw_SSRC w /\ codec v = codec w /\ seqWriter v = seqWriter w /\ nextTimestamp v = nextTimestamp w /\
  initTimestamp v = initTimestamp w /\ lastSampleTime v = lastSampleTime w /\ sampleRateTimestamp v = Codecs.SampleTimestamp (codec w).
Proof. unfold clockReset. cbn. by destruct (clockTicker w). Qed.
Lemma clockStart_fields w : let v := clockStart w in
  pw_SSRC v = pw_SSRC w /\ codec v = codec w /\ seqWriter v = seqWriter w /\ nextTimestamp v = nextTimestamp w /\
  initTimestamp v = initTimestamp w /\ lastSampleTime v = lastSampleTime w /\ sampleRateTimestamp v = Codecs.SampleTimestamp (codec w).
Proof. pose proof (clockReset_fields w). unfold clockStart. by destruct (clockTicker (clockReset w)). Qed.

(** The clock is enabled with the step of the current codec. *)
Definition step_current (w : RTPPacketWriter) : Prop := sampleRateTimestamp w = Codecs.SampleTimestamp (codec w).

Lemma write_packet payload step marker pt w s : implements w s -> let '(v, p) := writeSamplesUnsafe payload step marker pt w in
  implements v (s <| st_index := st_index s + 1 |> <| st_clock := st_clock s + step |>) /\ pw_SSRC v = pw_SSRC w /\
  p = packet_of (pw_SSRC w) {| f_index := st_index s; f_clock := st_clock s; f_start := marker; f_pt := pt; f_payload := payload |} /\
  codec v = codec w /\ sampleRateTimestamp v = sampleRateTimestamp w.
Proof.
  intros [H1 H2 H3 H4 H5 H6 H7]. unfold writeSamplesUnsafe. destruct (NextSeqNumber_tracks _ _ H1) as [HT Hn].
  destruct (NextSeqNumber (seqWriter w)) as [sq n]. cbn [fst snd] in *. rewrite Z.sub_add in Hn, HT. subst n. split; [|split; [done|split]].
  - split; cbn; try done; [by replace (st_index s + 1 - 1) with (st_index s) by lia|]. rewrite H2. wrap_lia.
  - unfold packet_of. cbn. by rewrite H2.
  - done.
Qed.

Lemma wstep_implements op w s : implements w s -> step_current w -> let '(v, ps) := wstep op w in let '(t, fs) := sstep op s in
  implements v t /\ step_current v /\ pw_SSRC v = pw_SSRC w /\ ps = packet_of (pw_SSRC w) <$> fs.
Proof.
  intros HI HC. pose proof HI as [H1 H2 H3 H4 H5 H6 H7]. destruct op as [payload now|payload step marker pt|now|offset|c| |]; cbn [wstep sstep].
  - unfold Write. pose proof (write_packet payload (sampleRateTimestamp w) (nextTimestamp w =? initTimestamp w) (Codecs.PayloadType (codec w)) w s HI) as HW.
    destruct (writeSamplesUnsafe _ _ _ _ _) as [v p]. destruct HW as ([W1 W2 W3 W4 W5 W6 W7] & Hs & Hp & Hc & Hr). split.
    + split; cbn in *; try done. by rewrite W2, H4.
    + split; [unfold step_current in *; cbn; congruence|]. split; [done|]. rewrite Hp, H2, H3, H7. done.
  - unfold WriteSamples. pose proof (write_packet payload step marker pt w s HI) as HW.
    destruct (writeSamplesUnsafe _ _ _ _ _) as [v p]. destruct HW as (HW & Hs & Hp & Hc & Hr).
    split; [done|]. split; [unfold step_current in *; congruence|]. split; [done|]. by rewrite Hp.
  - unfold ResetTimestamp. rewrite H6. destruct (IsZero (st_last s)); [done|]. split; [|done].
    split; cbn; try done; unfold delaySamples; rewrite H2, H5, H6; wrap_lia.
  - split; [|done]. split; cbn; try done. rewrite H2. wrap_lia.
  - unfold UpdateRTPSession. set (v := w <| codec := c |>). destruct (clockReset_fields v) as (R1 & R2 & R3 & R4 & R5 & R6 & R7).
    split; [split; rewrite ?R3, ?R4, ?R5, ?R6, ?R7, ?R2; done|].
    split; [unfold step_current; by rewrite R7, R2|]. by rewrite R1.
  - done.
  - unfold ClockEnable. destruct (clockStart_fields w) as (R1 & R2 & R3 & R4 & R5 & R6 & R7). split.
    + split; rewrite ?R3, ?R4, ?R5, ?R6, ?R7, ?R2; try done. by rewrite <- HC.
    + split; [unfold step_current; by rewrite R7, R2|]. done.
Qed.

Lemma wrun_implements ops w s : implements w s -> step_current w -> let '(v, ps) := wrun ops w in let '(t, fs) := srun ops s in
  implements v t /\ ps = packet_of (pw_SSRC w) <$> fs.
Proof.
  revert w s. induction ops as [|op ops IH]; intros w s HI HC; cbn [wrun srun]; [done|].
  pose proof (wstep_implements op w s HI HC) as HS. destruct (wstep op w) as [v ps], (sstep op s) as [t fs].
  destruct HS as (HI' & HC' & Hss & ->). specialize (IH v t HI' HC'). destruct (wrun ops v) as [v' qs], (srun ops t) as [t' gs].
  destruct IH as [HI'' ->]. split; [done|]. rewrite fmap_app. by rewrite Hss.
Qed.

Definition new_stream (r : Z) (c : Codecs.Codec) : stream :=
  {| st_index := u16 r + 1; st_clock := 0; st_init := 0; st_step := Codecs.SampleTimestamp c; st_rate := Codecs.SampleRate c;
     st_last := time_zero; st_pt := Codecs.PayloadType c |}.

Lemma srun_index ops s t fs : srun ops s = (t, fs) ->
  (f_index <$> fs) = ((fun i => st_index s + Z.of_nat i) <$> seq 0 (length fs)) /\ st_index t = st_index s + len fs.
Proof.
  revert s t fs. induction ops as [|op ops IH]; intros s t fs; cbn [srun]; [by intros [= <- <-]; split; [|rewrite Z.add_0_r]|].
  destruct (sstep op s) as [u gs] eqn:Es. destruct (srun ops u) as [v hs] eqn:Er. intros [= <- <-].
  destruct (IH _ _ _ Er) as [E1 E2].
  assert ((gs = [] /\ st_index u = st_index s) \/ (exists g, gs = [g] /\ f_index g = st_index s /\ st_index u = st_index s + 1)) as [[-> Hu]|(g & -> & Hg & Hu)].
  { destruct op as [| |now| | | |]; cbn in Es; [| |destruct (IsZero _)|..]; injection Es as <- <-;
      first [by left | right; by eexists]. }
  - cbn [app]. by rewrite E1, E2, Hu.
  - cbn [app fmap list_fmap length seq]. rewrite E1, E2, Hu, Hg, len_cons. split; [|lia]. f_equal; [lia|].
    rewrite <- fmap_S_seq, <- list_fmap_compose. apply list_fmap_ext. intros i x _. unfold compose. lia.
Qed.

(** C25. A packet writer implements a media stream: whatever operations are called
    on it, in whatever order (audio, samples of another format such as DTMF,
    timestamp resets after a pause, delays, codec changes, stopping and starting
    its clock), the packets it hands on are exactly the frames of a stream with
    an unbounded index and media clock, each under the writer's SSRC, with its
    index modulo 2^16 as sequence number and its clock modulo 2^32 as timestamp;
    the indices are consecutive from one past the random start, so no sequence
    number is skipped or repeated within 2^16 packets. *)
Theorem writer_implements_stream r ssrc c ops :
  let '(t, fs) := srun ops (new_stream r c) in
  (wrun ops (NewRTPPacketWriter r ssrc c)).2 = packet_of (u32 ssrc) <$> fs /\
  (f_index <$> fs) = ((fun i => u16 r + 1 + Z.of_nat i) <$> seq 0 (length fs)).
Proof.
  set (w := NewRTPPacketWriter r ssrc c). assert (implements w (new_stream r c) /\ step_current w /\ pw_SSRC w = u32 ssrc) as (HI & HC & Hss).
  { unfold w, NewRTPPacketWriter. set (w0 := {| clockTicker := None; PacketHeader := _ |}).
    destruct (clockStart_fields w0) as (R1 & R2 & R3 & R4 & R5 & R6 & R7). split.
    - split; rewrite ?R3, ?R4, ?R5, ?R6, ?R7, ?R2; try done. cbn. replace (u16 r + 1 - 1) with (u16 r) by lia. apply InitSeq_tracks, u16_range.
    - split; [unfold step_current; by rewrite R7, R2|]. by rewrite R1. }
  pose proof (wrun_implements ops w (new_stream r c) HI HC) as HR.
  destruct (srun ops (new_stream r c)) as [t fs] eqn:Es. destruct (wrun ops w) as [v ps]. destruct HR as [_ ->].
  split; [by rewrite Hss|]. apply (srun_index _ _ _ _ Es).
Qed.

(** ** Reader *)

Definition RTPBufSize : nat := 1500.

(** [unread] is [unreadPayload[:unread]]: what is left of the last packet.
    [hasBuffer] says that [unreadPayload] is allocated. *)
Record RTPPacketReader := {
  pr_PacketHeader : rtp_header;
  seqReader : RTPExtendedSequenceNumber;
  hasBuffer : bool;
  unread : bytes;
  lastSSRC : Z }.

#[export] Instance eta_reader : Eta RTPPacketReader := fun r =>
  {| pr_PacketHeader := pr_PacketHeader r; seqReader := seqReader r; hasBuffer := hasBuffer r; unread := unread r;
     lastSSRC := lastSSRC r |}.

Definition NewRTPPacketReader : RTPPacketReader :=
  {| pr_PacketHeader := rtp_header_zero; seqReader := seq_zero; hasBuffer := false; unread := []; lastSSRC := 0 |}.

(** One call of the session's [ReadRTP]: what it returns, and whether the reader
    had been replaced when it returned. *)
Record attempt := { at_result : (Z * rtp_packet) + error; at_replaced : bool }.

(** The loop over replaced readers: [None] while a read is blocked. *)
Fixpoint readCurrent (attempts : list attempt) : option ((Z * rtp_packet) + error) :=
  match attempts with
  | [] => None
  | a :: attempts =>
    match at_result a with
    | inl r => Some (inl r)
    | inr e => if at_replaced a then readCurrent attempts else Some (inr e)
    end
  end.

(** What a [Read] with a buffer of [b] bytes gives: bytes and an error, or a
    panic. *)
Inductive read_outcome := Data (data : bytes) (err : option error) | ReadPanic.

Definition readPayload (b : nat) (payload : bytes) (r : RTPPacketReader) : RTPPacketReader * bytes :=
  (r <| unread := take RTPBufSize (drop b payload) |>, take b payload).

Definition trackSeq (h : rtp_header) (r : RTPPacketReader) : RTPPacketReader :=
  let r := if lastSSRC r =? SSRC h then r <| seqReader := (UpdateSeq (SequenceNumber h) (seqReader r)).1 |>
           else r <| seqReader := InitSeq (SequenceNumber h) (seqReader r) |> in
  r <| lastSSRC := SSRC h |> <| pr_PacketHeader := h |>.

Section Read.
Context (MarshalSize : rtp_header -> Z).

Definition Read (b : nat) (attempts : list attempt) (r : RTPPacketReader) : option (RTPPacketReader * read_outcome) :=
  match unread r with
  | _ :: _ => let '(r, data) := readPayload b (unread r) r in Some (r, Data data None)
  | [] =>
    let small := (b <? RTPBufSize)%nat in
    let r := if small then r <| hasBuffer := true |> else r in
    match readCurrent attempts with
    | None => None
    | Some (inr e) => Some (r, Data [] (Some (if errors_Is e net_ErrClosed then io_EOF else e)))
    | Some (inl (rtpN, pkt)) =>
      if rtpN =? 0 then Some (r, Data [] None)
      else if negb (rtpN - MarshalSize (Header pkt) - PaddingSize (Header pkt) =? len (Payload pkt)) then Some (r, ReadPanic)
      else if len (Payload pkt) <=? 0 then Some (r, Data [] None)
      else
        let r := trackSeq (Header pkt) r in
        if small then let '(r, data) := readPayload b (Payload pkt) r in Some (r, Data data None)
        else
          let data := take b (Payload pkt) in
          Some (r, Data data (if len data <? len (Payload pkt) then Some io_ErrShortBuffer else None))
    end
  end.

(** Reads that follow each other, until the last packet has been read out. *)
Fixpoint drain (bs : list nat) (r : RTPPacketReader) : RTPPacketReader * bytes :=
  match bs with
  | [] => (r, [])
  | b :: bs =>
    match unread r with
    | [] => (r, [])
    | _ =>
      match Read b [] r with
      | Some (r, Data data _) => let '(r, rest) := drain bs r in (r, data ++ rest)
      | _ => (r, [])
      end
    end
  end.

Lemma drain_all bs r : (length (unread r) <= RTPBufSize)%nat -> (length (unread r) <= sum_list bs)%nat ->
  let '(t, data) := drain bs r in unread t = [] /\ data = unread r /\ pr_PacketHeader t = pr_PacketHeader r.
Proof.
  revert r. induction bs as [|b bs IH]; intros r Hb Hs; cbn [drain].
  - destruct (unread r); [done|cbn in Hs; lia].
  - destruct (unread r) as [|x u] eqn:E; [done|]. unfold Read. rewrite E. unfold readPayload. set (r' := r <| unread := _ |>).
    assert (unread r' = drop b (x :: u)) as Eu by (cbn [unread r' field_update eta_reader]; apply take_ge; rewrite length_drop; lia).
    specialize (IH r'). rewrite Eu, length_drop in IH. cbn [sum_list_with id length] in *.
    specialize (IH ltac:(lia) ltac:(lia)).
    destruct (drain bs r') as [t rest]. destruct IH as (H1 & -> & H3). split; [done|]. split; [apply take_drop|done].
Qed.

(** A packet's payload reaches a reader whole whatever the sizes of its
    buffers: with a first buffer smaller than an RTP buffer and further ones that
    add up, what the reads return is the payload, each byte once and in order;
    the header kept is that packet's, nothing is left for the next packet, and no
    further packet is taken from the session meanwhile. A read that failed on a
    session replaced meanwhile is not reported. *)
Theorem reads_reassemble_payload b bs failed pkt replaced rest n r :
  unread r = [] -> Forall (fun a => at_replaced a = true /\ exists e, at_result a = inr e) failed ->
  0 < len (Payload pkt) <= Z.of_nat RTPBufSize -> (b < RTPBufSize)%nat ->
  n = MarshalSize (Header pkt) + len (Payload pkt) + PaddingSize (Header pkt) -> n <> 0 ->
  (length (Payload pkt) <= b + sum_list bs)%nat ->
  exists r1 data, Read b (failed ++ {| at_result := inl (n, pkt); at_replaced := replaced |} :: rest) r = Some (r1, Data data None) /\
    pr_PacketHeader r1 = Header pkt /\
    let '(r2, more) := drain bs r1 in data ++ more = Payload pkt /\ unread r2 = [] /\ pr_PacketHeader r2 = Header pkt.
Proof.
  intros Hu Hf Hp Hb Hn Hn0 Hs. unfold Read. rewrite Hu.
  assert (readCurrent (failed ++ {| at_result := inl (n, pkt); at_replaced := replaced |} :: rest) = Some (inl (n, pkt))) as ->.
  { induction Hf as [|a failed [Ha [e He]] Hf IH]; [done|]. cbn. by rewrite He, Ha. }
  replace (n =? 0) with false by lia. replace (negb _) with false by lia. replace (len (Payload pkt) <=? 0) with false by lia.
  replace (b <? RTPBufSize)%nat with true by (symmetry; apply Nat.ltb_lt; lia). unfold readPayload.
  set (r0 := trackSeq _ _). set (r1 := r0 <| unread := _ |>). exists r1, (take b (Payload pkt)). split; [done|].
  assert (unread r1 = drop b (Payload pkt)) as Eu by (cbn [unread r1 field_update eta_reader]; apply take_ge; rewrite length_drop; unfold len in Hp; lia).
  assert (pr_PacketHeader r1 = Header pkt) as Eh by done. split; [done|].
  pose proof (drain_all bs r1) as HD. rewrite Eu, length_drop in HD. unfold len in Hp. specialize (HD ltac:(lia) ltac:(lia)).
  destruct (drain bs r1) as [r2 more]. destruct HD as (D1 & -> & D3). split; [apply take_drop|]. split; [done|]. by rewrite D3.
Qed.

End Read.

Lemma reads_reassemble_payload_witness :
  let pkt := {| Header := rtp_header_zero <| SSRC := 7 |>; Payload := [1; 2; 3; 4; 5] |} in exists r1 data,
  Read (fun _ => 12) 2 [{| at_result := inr net_ErrClosed; at_replaced := true |}; {| at_result := inl (17, pkt); at_replaced := false |}]
    NewRTPPacketReader = Some (r1, Data data None) /\ data ++ (drain (fun _ => 12) [1; 4]%nat r1).2 = [1; 2; 3; 4; 5].
Proof.
  intros pkt.
  destruct (reads_reassemble_payload (fun _ => 12) 2 [1; 4]%nat [{| at_result := inr net_ErrClosed; at_replaced := true |}] pkt false [] 17
    NewRTPPacketReader eq_refl) as (r1 & data & H1 & _ & H2).
  - constructor; [|done]. split; [reflexivity|]. exists net_ErrClosed. reflexivity.
  - cbn. unfold len, RTPBufSize. cbn. lia.
  - unfold RTPBufSize. lia.
  - reflexivity.
  - lia.
  - cbn. lia.
  - exists r1, data. split; [exact H1|]. destruct (drain (fun _ => 12) [1; 4]%nat r1) as [r2 more]. apply H2.
Defined.

End PacketIO.
