(* ===== verification/Dtmf.v ===== *)
(** * DTMF over RTP

    [media/rtp_dtmf.go], [media/rtp_dtmf_writer.go] and
    [media/rtp_dtmf_reader.go]: the events of a digit, their four bytes, the
    writer that sends them as packets of the stream and the reader that detects
    digits among the packets it reads. A rune is its code point. *)
From S2P Require Import Prelude GoStrings Rtp Sequencer Codec PacketIO.
Import GoStrings Sequencer PacketIO.

Module Dtmf.

(** ** Events *)

Record DTMFEvent := { Event : Z; EndOfEvent : bool; Volume : Z; Duration : Z }.
#[export] Instance event_eq_dec : EqDecision DTMFEvent.
Proof. solve_decision. Defined.
Definition event_zero : DTMFEvent := {| Event := 0; EndOfEvent := false; Volume := 0; Duration := 0 |}.

Definition rune (c : ascii) : Z := Z.of_nat (nat_of_ascii c).
Definition dtmf_runes : list Z := rune <$> ["0"; "1"; "2"; "3"; "4"; "5"; "6"; "7"; "8"; "9"; "*"; "#"; "A"; "B"; "C"; "D"]%char.

(** The maps between digits and events; a key that is missing gives 0. *)
Fixpoint index_of (x : Z) (l : list Z) (i : Z) : Z :=
  match l with
  | [] => 0
  | y :: l => if x =? y then i else index_of x l (i + 1)
  end.
Definition dtmfEventMapping (char : Z) : Z := index_of char dtmf_runes 0.
Definition DTMFToRune (dtmf : Z) : Z := nth (Z.to_nat dtmf) dtmf_runes 0.

Definition RTPDTMFEncode8000 (char : Z) : list DTMFEvent :=
  let event := dtmfEventMapping char in
  ((fun i => {| Event := event; EndOfEvent := false; Volume := 10; Duration := 160 * (Z.of_nat i + 1) |}) <$> seq 0 4) ++
  ((fun _ => {| Event := event; EndOfEvent := true; Volume := 10; Duration := 160 * 5 |}) <$> seq 4 3).

Definition DTMFEncode (d : DTMFEvent) : bytes :=
  [Event d; Z.lor (if EndOfEvent d then 0x80 else 0) (Z.land (Volume d) 0x3F); Z.shiftr (Duration d) 8; Z.land (Duration d) 0xFF].

(** [None] is the error of a short payload, which leaves the event as it was. *)
Definition DTMFDecode (payload : bytes) : option DTMFEvent :=
  match payload with
  | b0 :: b1 :: b2 :: b3 :: _ =>
    Some {| Event := b0; EndOfEvent := negb (Z.land b1 0x80 =? 0); Volume := Z.land b1 0x7F; Duration := Z.lor (Z.shiftl b2 8) b3 |}
  | _ => None
  end.

(** ** Writer *)

(** The loop of [writeDTMF] while the session accepts the packets. *)
Fixpoint write_events (evs : list DTMFEvent) (first : bool) (payloadType : Z) (w : RTPPacketWriter) : RTPPacketWriter * list rtp_packet :=
  match evs with
  | [] => (w, [])
  | e :: evs =>
    let '(w, p) := WriteSamples (DTMFEncode e) 0 first payloadType w in
    let '(w, ps) := write_events evs false payloadType w in (w, p :: ps)
  end.

Definition writeDTMF (c : Codecs.Codec) (dtmf : Z) (w : RTPPacketWriter) : (RTPPacketWriter * list rtp_packet) + error :=
  if negb (Codecs.SampleRate c =? 8000) then inr (ErrNew "Only 8000Hz is supported")
  else inl (write_events (RTPDTMFEncode8000 dtmf) true (Codecs.PayloadType c) w).

(** ** Reader *)

Record RTPDtmfReader := {
  dr_codec : Codecs.Codec;
  lastTimestamp : Z;
  lastEv : DTMFEvent;
  dtmf : Z;
  dtmfEnd : bool }.
#[export] Instance eta_dtmf_reader : Eta RTPDtmfReader := fun r =>
  {| dr_codec := dr_codec r; lastTimestamp := lastTimestamp r; lastEv := lastEv r; dtmf := dtmf r; dtmfEnd := dtmfEnd r |}.

Definition NewRTPDTMFReader (c : Codecs.Codec) : RTPDtmfReader :=
  {| dr_codec := c; lastTimestamp := 0; lastEv := event_zero; dtmf := 0; dtmfEnd := false |}.

Definition processDTMFEvent (ev : DTMFEvent) (mbit : bool) (r : RTPDtmfReader) : RTPDtmfReader :=
  if EndOfEvent ev then
    if Duration (lastEv r) =? 0 then r
    else if negb (Event (lastEv r) =? Event ev) then r
    else r <| dtmf := DTMFToRune (Event ev) |> <| dtmfEnd := true |> <| lastEv := event_zero |>
  else if negb mbit then r
  else r <| lastEv := ev |>.

(** [Read] once the reader below has read a packet with header [hdr] into a
    buffer that now holds [b]. *)
Definition Read (hdr : rtp_header) (b : bytes) (r : RTPDtmfReader) : RTPDtmfReader :=
  if negb (PayloadType hdr =? Codecs.PayloadType (dr_codec r)) then r
  else
    let ev := default event_zero (DTMFDecode b) in
    let r := processDTMFEvent ev (Marker hdr || negb (lastTimestamp r =? Timestamp hdr)) r in
    r <| lastTimestamp := Timestamp hdr |>.

Definition ReadDTMF (r : RTPDtmfReader) : RTPDtmfReader * Z * bool := (r <| dtmfEnd := false |>, dtmf r, dtmfEnd r).
Definition UpdateCodec (c : Codecs.Codec) (r : RTPDtmfReader) : RTPDtmfReader := r <| dr_codec := c |>.

(** The digits of a listener that reads packets and asks for a digit after each. *)
Definition listen_one (p : rtp_packet) (r : RTPDtmfReader) : RTPDtmfReader * list Z :=
  let '(r, d, ok) := ReadDTMF (Read (Header p) (Payload p) r) in (r, if ok then [d] else []).
Fixpoint listen (ps : list rtp_packet) (r : RTPDtmfReader) : RTPDtmfReader * list Z :=
  match ps with
  | [] => (r, [])
  | p :: ps =>
    let '(r, ds) := listen_one p r in
    let '(r, es) := listen ps r in (r, ds ++ es)
  end.

(** ** Properties *)

Definition event_wf (d : DTMFEvent) : Prop := 0 <= Event d < 2 ^ 8 /\ 0 <= Volume d < 2 ^ 6 /\ 0 <= Duration d < 2 ^ 16.

Lemma decode_encode_event d : event_wf d -> DTMFDecode (DTMFEncode d) = Some d.
Proof.
  intros (He & Hv & Hd). destruct d as [ev en vo du]. cbn in *.
  assert (Z.land vo 0x3F = vo) as Ev by (change 0x3F with (Z.ones 6); rewrite Z.land_ones by lia; apply Z.mod_small; lia).
  assert (Z.land vo 0x80 = 0) as E0.
  { apply Z.bits_inj'. intros n Hn. rewrite Z.land_spec, Z.bits_0. change 0x80 with (2 ^ 7). rewrite Z.pow2_bits_eqb by lia.
    destruct (Z.eqb_spec 7 n) as [<-|]; [|apply andb_false_r]. rewrite andb_true_r. rewrite (Z.testbit_false vo 7) by lia. rewrite Z.div_small by lia. done. }
  assert (Z.land vo 0x7F = vo) as E1 by (change 0x7F with (Z.ones 7); rewrite Z.land_ones by lia; apply Z.mod_small; lia).
  assert (Z.lor (Z.shiftl (Z.shiftr du 8) 8) (Z.land du 255) = du) as Edu.
  { change 255 with (Z.ones 8). rewrite <- Z.ldiff_ones_r by lia. apply Z.lor_ldiff_and. }
  rewrite Ev. f_equal. f_equal; [|rewrite Z.land_lor_distr_l, E1; by destruct en|done].
  rewrite Z.land_lor_distr_l, E0, Z.lor_0_r. by destruct en.
Qed.

(** A digit diago can send. *)
Definition digit (d : Z) : Prop := d ∈ dtmf_runes.

Lemma digit_event d : digit d -> DTMFToRune (dtmfEventMapping d) = d /\ 0 <= dtmfEventMapping d < 16.
Proof.
  unfold digit. intros H.
  assert (forall x, x ∈ dtmf_runes -> DTMFToRune (dtmfEventMapping x) = x /\ 0 <= dtmfEventMapping x < 16) as HA; [|by apply HA].
  apply Forall_forall. repeat (constructor; [by vm_compute|]). constructor.
Qed.

Lemma encoded_events d : digit d -> Forall event_wf (RTPDTMFEncode8000 d).
Proof.
  intros H. destruct (digit_event d H) as [_ Hr]. unfold RTPDTMFEncode8000. cbn [fmap list_fmap seq app].
  repeat (constructor; [unfold event_wf; cbn [Event Volume Duration]; lia|]). constructor.
Qed.

(** The packets of one digit: all but the first without the marker, all at one
    timestamp. *)
Definition digit_packet (pt ts : Z) (p : rtp_packet) (e : DTMFEvent) (first : bool) : Prop :=
  PayloadType (Header p) = pt /\ Timestamp (Header p) = ts /\ Marker (Header p) = first /\ Payload p = DTMFEncode e.

Lemma write_events_packets evs first pt w : 0 <= nextTimestamp w < 2 ^ 32 -> let '(v, ps) := write_events evs first pt w in
  nextTimestamp v = nextTimestamp w /\
  Forall2 (fun p '(e, m) => digit_packet pt (nextTimestamp w) p e m) ps (zip evs (first :: repeat false (length evs))).
Proof.
  intros Hw. revert first w Hw. induction evs as [|e evs IH]; intros first w Hw; cbn [write_events]; [by split; [|constructor]|].
  unfold WriteSamples, writeSamplesUnsafe. destruct (NextSeqNumber (seqWriter w)) as [sq n].
  set (w' := w <| seqWriter := sq |> <| nextTimestamp := _ |> <| PacketHeader := _ |>).
  assert (nextTimestamp w' = nextTimestamp w) as Et by (cbn; rewrite Z.add_0_r; by apply u32_small).
  specialize (IH false w'). rewrite Et in IH. specialize (IH Hw). destruct (write_events evs false pt w') as [v ps].
  destruct IH as [H1 H2]. split; [done|]. cbn [length repeat zip zip_with]. constructor; [done|exact H2].
Qed.

(** Reading a packet of a digit. *)
Lemma listen_event pt ts p e m r : digit_packet pt ts p e m -> event_wf e -> Codecs.PayloadType (dr_codec r) = pt -> dtmfEnd r = false ->
  listen_one p r =
  let new := m || negb (lastTimestamp r =? ts) in
  if EndOfEvent e then
    if (Duration (lastEv r) =? 0) || negb (Event (lastEv r) =? Event e) then (r <| lastTimestamp := ts |>, [])
    else (r <| dtmf := DTMFToRune (Event e) |> <| lastEv := event_zero |> <| lastTimestamp := ts |>, [DTMFToRune (Event e)])
  else if new then (r <| lastEv := e |> <| lastTimestamp := ts |>, []) else (r <| lastTimestamp := ts |>, []).
Proof.
  intros (H1 & H2 & H3 & H4) Hwf Hpt He. unfold listen_one, Read, ReadDTMF. rewrite H1, Hpt, Z.eqb_refl, H2, H3, H4, decode_encode_event by done.
  cbn [negb default]. unfold processDTMFEvent. destruct r as [c lt le d de]. cbn in *. subst de.
  destruct (EndOfEvent e); cbn [negb orb andb].
  - destruct (Duration le =? 0); [done|]. cbn [orb]. by destruct (Event le =? Event e).
  - by destruct (m || negb (lt =? ts)).
Qed.

Lemma listen_app ps qs r : listen (ps ++ qs) r = let '(r1, ds) := listen ps r in let '(r2, es) := listen qs r1 in (r2, ds ++ es).
Proof.
  revert r. induction ps as [|p ps IH]; intros r; cbn [app listen]; [by destruct (listen qs r)|].
  destruct (listen_one p r) as [r1 ds]. rewrite IH. destruct (listen ps r1) as [r2 es]. destruct (listen qs r2) as [r3 fs].
  by rewrite app_assoc.
Qed.

(** Packets of other formats between the packets of a digit. *)
Lemma listen_other p r : PayloadType (Header p) <> Codecs.PayloadType (dr_codec r) -> dtmfEnd r = false -> listen_one p r = (r, []).
Proof.
  intros H He. unfold listen_one, Read, ReadDTMF. replace (PayloadType (Header p) =? _) with false by lia. cbn [negb].
  rewrite He. by destruct r as [? ? ? ? []].
Qed.

(** *** One digit *)

Section Digit.
Context (pt ts ev : Z).

(** A packet of the tone, a packet of its end. *)
Definition tone (m : bool) (p : rtp_packet) : Prop :=
  exists e, digit_packet pt ts p e m /\ event_wf e /\ EndOfEvent e = false /\ Event e = ev /\ Duration e <> 0.
Definition ending (p : rtp_packet) : Prop :=
  exists e, digit_packet pt ts p e false /\ event_wf e /\ EndOfEvent e = true /\ Event e = ev.

Definition started (r : RTPDtmfReader) : Prop := Event (lastEv r) = ev /\ Duration (lastEv r) <> 0.
Definition reading (r : RTPDtmfReader) : Prop := Codecs.PayloadType (dr_codec r) = pt /\ dtmfEnd r = false.

Lemma listen_tone bs : Forall (fun p => exists m, tone m p) bs -> forall r, reading r ->
  (started r \/ Exists (tone true) bs \/ (bs <> [] /\ lastTimestamp r <> ts)) ->
  exists t, listen bs r = (t, []) /\ started t /\ reading t /\ dr_codec t = dr_codec r.
Proof.
  induction 1 as [|p bs (m & e & Hp & Hwf & Hend & Hev & Hdu) HF IH]; intros r [Hpt Hde] Hs; cbn [listen].
  - exists r. split; [done|]. destruct Hs as [Hs|[Hs|[Hs _]]]; [done|by inversion Hs|done].
  - rewrite (listen_event pt ts p e m r) by done. cbv zeta. rewrite Hend. destruct (m || negb (lastTimestamp r =? ts)) eqn:En.
    + cbv beta iota. destruct (IH (r <| lastEv := e |> <| lastTimestamp := ts |>)) as (t & -> & H1 & H2 & H3); [done|by left|].
      by exists t.
    + apply orb_false_iff in En as [-> Et]. apply negb_false_iff in Et.
      cbv beta iota. destruct (IH (r <| lastTimestamp := ts |>)) as (t & -> & H1 & H2 & H3); [done| |by exists t].
      destruct Hs as [Hs|[Hs|[_ Hs]]]; [by left| |lia]. right; left. inversion Hs as [? ? (e' & Hp' & _)|]; [|done].
      destruct Hp as (_ & _ & M1 & _), Hp' as (_ & _ & M2 & _). congruence.
Qed.

Lemma listen_end_idle es : Forall ending es -> forall r, reading r -> Duration (lastEv r) = 0 -> dtmfEnd r = false ->
  exists t, listen es r = (t, []) /\ reading t /\ Duration (lastEv t) = 0 /\ dr_codec t = dr_codec r.
Proof.
  induction 1 as [|p es (e & Hp & Hwf & Hend & Hev) HF IH]; intros r [Hpt Hde] Hd _; cbn [listen]; [by exists r|].
  rewrite (listen_event pt ts p e false r) by done. rewrite Hend, Hd. cbn [Z.eqb orb].
  cbv beta iota. destruct (IH (r <| lastTimestamp := ts |>)) as (t & -> & H); [done..|]. by exists t.
Qed.

Lemma listen_ending es : es <> [] -> Forall ending es -> forall r, reading r -> started r ->
  exists t, listen es r = (t, [DTMFToRune ev]) /\ reading t /\ Duration (lastEv t) = 0 /\ dr_codec t = dr_codec r /\ lastTimestamp t = ts.
Proof.
  intros Hne HF. destruct HF as [|p es (e & Hp & Hwf & Hend & Hev) HF]; [done|]. intros r [Hpt Hde] [Hs1 Hs2]. cbn [listen].
  rewrite (listen_event pt ts p e false r) by done. rewrite Hend. replace (Duration (lastEv r) =? 0) with false by lia.
  replace (Event (lastEv r) =? Event e) with true by lia. cbn [orb negb]. rewrite Hev.
  set (u := r <| dtmf := _ |> <| lastEv := _ |> <| lastTimestamp := _ |>).
  assert (reading u /\ lastEv u = event_zero /\ lastTimestamp u = ts /\ dr_codec u = dr_codec r) as (Hu1 & Hu2 & Hu3 & Hu4) by done. clearbody u.
  destruct (listen_end_idle es HF u Hu1) as (t & Ht & H1 & H2 & H3); [by rewrite Hu2|by destruct Hu1|].
  exists t. rewrite Ht. split; [done|]. split; [done|]. split; [done|]. split; [congruence|].
  revert u Hu1 Hu2 Hu3 Hu4 Ht H3. clear - HF. induction HF as [|q es (e' & Hp' & Hwf' & Hend' & Hev') HF IH]; intros u Hu1 Hu2 Hu3 Hu4 Ht H3; cbn [listen] in Ht.
  - by injection Ht as <-.
  - rewrite (listen_event pt ts q e' false u) in Ht by (done || apply Hu1). rewrite Hend', Hu2 in Ht. cbn [Duration event_zero Z.eqb orb] in Ht.
    destruct (listen es (u <| lastTimestamp := ts |>)) as [v vs] eqn:Ev. cbn [app] in Ht. injection Ht as -> ->.
    by eapply (IH (u <| lastTimestamp := ts |>)).
Qed.

(** All a digit needs: one packet of its end, and a packet of its tone that is
    the first one or has a timestamp not seen last. *)
Lemma listen_digit bs es r : reading r -> Forall (fun p => exists m, tone m p) bs -> Forall ending es -> es <> [] ->
  (Exists (tone true) bs \/ (bs <> [] /\ lastTimestamp r <> ts)) ->
  exists t, listen (bs ++ es) r = (t, [DTMFToRune ev]) /\ reading t /\ Duration (lastEv t) = 0 /\ dr_codec t = dr_codec r /\ lastTimestamp t = ts.
Proof.
  intros Hr Hb He Hne Hs. rewrite listen_app. destruct (listen_tone bs Hb r Hr) as (u & -> & Hu1 & Hu2 & Hu3); [by right|].
  destruct (listen_ending es Hne He u Hu2 Hu1) as (t & -> & H1 & H0 & H2 & H3). exists t. repeat (split; [done|]). split; [congruence|done].
Qed.

End Digit.

(** *** A dialled number *)

(** Digits sent one after the other, with other operations on the stream before
    each. What is sent is each digit's timestamp and packets. *)
Fixpoint dial (c : Codecs.Codec) (ds : list (list wop * Z)) (w : RTPPacketWriter) : list (Z * list rtp_packet) :=
  match ds with
  | [] => []
  | (ops, d) :: ds =>
    let w := (wrun ops w).1 in
    match writeDTMF c d w with
    | inl (v, ps) => (nextTimestamp w, ps) :: dial c ds v
    | inr _ => []
    end
  end.

(** What arrives of each digit, in order, when [last] is the timestamp of the last
    event heard: at least one of its three end packets, and its first packet or,
    if its timestamp is new, any packet of the tone. *)
Fixpoint heard (last : Z) (sent : list (Z * list rtp_packet)) (arrives : list (list rtp_packet)) : Prop :=
  match sent, arrives with
  | [], [] => True
  | (ts, ps) :: sent, qs :: arrives =>
    (exists bs es, qs = bs ++ es /\ bs `sublist_of` take 4 ps /\ es `sublist_of` drop 4 ps /\ es <> [] /\
       ((exists p, head ps = Some p /\ p ∈ bs) \/ (bs <> [] /\ last <> ts))) /\
    heard ts sent arrives
  | _, _ => False
  end.

Lemma inl_eq {X Y} (x y : X) : @inl X Y x = inl y -> x = y.
Proof. by intros [= ->]. Qed.

Lemma digit_packets c d w v ps : digit d -> 0 <= nextTimestamp w < 2 ^ 32 -> writeDTMF c d w = inl (v, ps) ->
  nextTimestamp v = nextTimestamp w /\
  Forall (fun p => exists m, tone (Codecs.PayloadType c) (nextTimestamp w) (dtmfEventMapping d) m p) (take 4 ps) /\
  Forall (ending (Codecs.PayloadType c) (nextTimestamp w) (dtmfEventMapping d)) (drop 4 ps) /\
  (forall p, head ps = Some p -> tone (Codecs.PayloadType c) (nextTimestamp w) (dtmfEventMapping d) true p) /\
  length ps = 7%nat /\
  Forall (fun q => exists e, digit_packet (Codecs.PayloadType c) (nextTimestamp w) q e false /\ event_wf e) (tail ps).
Proof.
  intros Hd Hw. unfold writeDTMF. destruct (negb _); [done|]. intros H. apply inl_eq in H.
  pose proof (write_events_packets (RTPDTMFEncode8000 d) true (Codecs.PayloadType c) w Hw) as HP. rewrite H in HP. destruct HP as [Ht HP].
  split; [done|]. pose proof (encoded_events d Hd) as HE. destruct (digit_event d Hd) as [_ Hr].
  unfold RTPDTMFEncode8000 in HP, HE. cbn [fmap list_fmap seq app length repeat zip zip_with] in HP, HE.
  set (ev := dtmfEventMapping d) in *. clearbody ev. rewrite !Forall_cons in HE. destruct HE as (E1 & E2 & E3 & E4 & E5 & E6 & E7 & _). clear H Ht.
  repeat (let q := fresh "q" in let l := fresh "l" in apply Forall2_cons_inv_r in HP as (q & l & ? & HP & ->)).
  apply Forall2_nil_inv_r in HP as ->. cbn [take drop head].
  split; [repeat (constructor; [eexists; eexists; split; [eassumption|]; split; [done|]; split; [done|]; split; [done|]; cbn; lia|]); constructor|].
  split; [repeat (constructor; [eexists; split; [eassumption|]; done|]); constructor|].
  split; [intros p [= <-]; eexists; split; [eassumption|]; split; [done|]; split; [done|]; split; [done|]; cbn; lia|].
  split; [done|]. cbn [tail]. repeat (constructor; [eexists; split; [eassumption|done]|]). constructor.
Qed.

Lemma u32_next ops w : 0 <= nextTimestamp w < 2 ^ 32 -> 0 <= nextTimestamp (wrun ops w).1 < 2 ^ 32.
Proof.
  revert w. induction ops as [|op ops IH]; intros w Hw; cbn [wrun]; [done|].
  assert (0 <= nextTimestamp (wstep op w).1 < 2 ^ 32) as Hs.
  { destruct op; cbn [wstep]; unfold Write, WriteSamples, writeSamplesUnsafe, ResetTimestamp, DelayTimestamp, UpdateRTPSession, ClockDisable, ClockEnable.
    - destruct (NextSeqNumber _). apply u32_range.
    - destruct (NextSeqNumber _). apply u32_range.
    - destruct (IsZero _); [done|apply u32_range].
    - apply u32_range.
    - destruct (clockReset_fields (w <| codec := c |>)) as (_ & _ & _ & E & _). cbn [fst]. by rewrite E.
    - done.
    - destruct (clockStart_fields w) as (_ & _ & _ & E & _). cbn [fst]. by rewrite E. }
  destruct (wstep op w) as [v ps]. specialize (IH v Hs). destruct (wrun ops v). done.
Qed.

Lemma sublist_Forall {X} (P : X -> Prop) l k : Forall P k -> l `sublist_of` k -> Forall P l.
Proof. intros HF HS. induction HS; [done|inversion HF; subst; constructor; auto|inversion HF; auto]. Qed.

Lemma listen_dialled c ds : Codecs.SampleRate c = 8000 -> Forall (fun x => digit x.2) ds -> forall w r arrives,
  0 <= nextTimestamp w < 2 ^ 32 -> reading (Codecs.PayloadType c) r -> heard (lastTimestamp r) (dial c ds w) arrives ->
  (listen (concat arrives) r).2 = snd <$> ds.
Proof.
  intros Hc. induction 1 as [|[ops d] ds Hd HF IH]; intros w r arrives Hw Hr; cbn [dial].
  - cbn [heard]. by destruct arrives.
  - set (u := (wrun ops w).1). assert (0 <= nextTimestamp u < 2 ^ 32) as Hu by (by apply u32_next). cbn [snd] in Hd.
    destruct (writeDTMF c d u) as [[v ps]|] eqn:Ew.
    2:{ unfold writeDTMF in Ew. by rewrite Hc in Ew. }
    destruct (digit_packets c d u v ps Hd Hu Ew) as (Hv & H1 & H2 & H3 & _). cbn [heard].
    destruct arrives as [|qs arrives]; [done|]. intros [(bs & es & -> & Hb & He & Hne & Hs) Hh]. cbn [concat].
    rewrite listen_app.
    destruct (listen_digit (Codecs.PayloadType c) (nextTimestamp u) (dtmfEventMapping d) bs es r Hr) as (t & -> & Ht1 & _ & Ht2 & Ht3).
    + eapply sublist_Forall; [|exact Hb]. exact H1.
    + eapply sublist_Forall; [|exact He]. exact H2.
    + done.
    + destruct Hs as [(p & Hp & Hin)|Hs]; [left|by right]. apply Exists_exists. exists p. eauto.
    + destruct (listen (concat arrives) t) as [t' ds'] eqn:El. cbn [fmap list_fmap]. destruct (digit_event d Hd) as [-> _].
      cbn [app snd]. f_equal. specialize (IH v t arrives). rewrite El in IH. apply IH; [by rewrite Hv|done|]. by rewrite Ht3.
Qed.

(** Packets of other formats are not heard. *)
Definition is_event (c : Codecs.Codec) (p : rtp_packet) : bool := PayloadType (Header p) =? Codecs.PayloadType c.

Lemma listen_codec p r : dr_codec (listen_one p r).1 = dr_codec r /\ dtmfEnd (listen_one p r).1 = false.
Proof.
  unfold listen_one, ReadDTMF, Read. destruct (negb _); [done|]. cbn. unfold processDTMFEvent. by repeat case_match.
Qed.

Lemma listen_filter c qs r : dr_codec r = c -> dtmfEnd r = false -> (listen qs r).2 = (listen (List.filter (is_event c) qs) r).2.
Proof.
  revert r. induction qs as [|p qs IH]; intros r Hc He; cbn [listen List.filter]; [done|].
  unfold is_event at 1. destruct (Z.eqb_spec (PayloadType (Header p)) (Codecs.PayloadType c)) as [E|E].
  - cbn [listen]. destruct (listen_codec p r) as [H1 H2]. destruct (listen_one p r) as [t ds]. cbn [fst] in *.
    specialize (IH t ltac:(congruence) H2). destruct (listen qs t), (listen (List.filter _ qs) t). cbn [snd] in *. by rewrite IH.
  - rewrite listen_other; [|by rewrite Hc|done]. specialize (IH r Hc He). by destruct (listen qs r).
Qed.

(** C28. Dialled digits arrive, each once and in order, over a lossy stream: of the
    seven packets a writer sends for a digit it is enough that one of the three
    end packets arrives together with the first packet, or with any other packet
    of the tone when the digit's timestamp differs from the digit before. Audio
    written between the digits and packets of other formats anywhere among the
    ones received make no difference. *)
Theorem dialled_digits_heard c ds w r received arrives :
  Codecs.SampleRate c = 8000 -> Forall (fun x => digit x.2) ds -> 0 <= nextTimestamp w < 2 ^ 32 ->
  dr_codec r = c -> dtmfEnd r = false ->
  heard (lastTimestamp r) (dial c ds w) arrives -> List.filter (is_event c) received = concat arrives ->
  (listen received r).2 = snd <$> ds.
Proof.
  intros Hc HF Hw Hr He Hh Hq. rewrite (listen_filter c) by done. rewrite Hq. eapply listen_dialled; [done|done|exact Hw|by split; [rewrite Hr|]|done].
Qed.

(** Packets without a marker at the timestamp last seen start nothing. *)
Lemma listen_idle pt ts qs r : reading pt r -> lastTimestamp r = ts -> Duration (lastEv r) = 0 ->
  Forall (fun q => exists e, digit_packet pt ts q e false /\ event_wf e) qs -> (listen qs r).2 = [].
Proof.
  intros Hr Hl Hz HQ. revert r Hr Hl Hz. induction HQ as [|q qs (e & Hq & Hwf) HQ IH]; intros r [R1 R2] Hl Hz; cbn [listen]; [done|].
  rewrite (listen_event _ _ _ _ _ _ Hq Hwf R1 R2). rewrite Hl, Hz, !Z.eqb_refl. cbn [negb orb Z.eqb].
  specialize (IH (r <| lastTimestamp := ts |>)).
  destruct (EndOfEvent e); destruct (listen qs (r <| lastTimestamp := ts |>)); cbn [snd] in *; by rewrite IH.
Qed.

(** The timestamp of a digit is what tells it from the one before when its
    first packet is lost, and the writer does not move the timestamp for DTMF: of
    two digits sent back to back, the second is lost when its first packet is,
    although its six other packets arrive. *)
Theorem back_to_back_digit_lost c d d' w v ps v' ps' r :
  digit d -> digit d' -> 0 <= nextTimestamp w < 2 ^ 32 -> dr_codec r = c -> dtmfEnd r = false ->
  writeDTMF c d w = inl (v, ps) -> writeDTMF c d' v = inl (v', ps') ->
  length (tail ps') = 6%nat /\ (listen (ps ++ tail ps') r).2 = [d].
Proof.
  intros Hd Hd' Hw Hr He E1 E2. destruct (digit_packets c d w v ps Hd Hw E1) as (Hv & T1 & N1 & F1 & L1 & _).
  destruct (digit_packets c d' v v' ps' Hd' ltac:(by rewrite Hv) E2) as (_ & _ & _ & _ & L2 & M2).
  split; [destruct ps'; cbn in *; lia|]. rewrite listen_app. rewrite <- (take_drop 4 ps).
  destruct (listen_digit (Codecs.PayloadType c) (nextTimestamp w) (dtmfEventMapping d) (take 4 ps) (drop 4 ps) r) as (t & -> & Ht & Hz & Hc & Hts);
    [by split; [rewrite Hr|]|done|done| | |].
  { intros H. apply (f_equal length) in H. rewrite length_drop in H. cbn in H. lia. }
  { left. destruct ps as [|a ps]; [done|]. cbn [take]. constructor. by apply F1. }
  destruct (digit_event d Hd) as [-> _]. rewrite Hv in M2.
  pose proof (listen_idle _ _ _ t Ht Hts Hz M2) as HI. destruct (listen (tail ps') t). cbn [snd] in *. by rewrite HI.
Qed.

(** *** A number dialled with losses *)

Definition ex_writer : RTPPacketWriter := NewRTPPacketWriter 65533 99 Codecs.CodecAudioUlaw.
Definition ex_reader : RTPDtmfReader := NewRTPDTMFReader Codecs.CodecTelephoneEvent8000.
(** Audio, then 4, then audio, then #. *)
Definition ex_dial : list (list wop * Z) :=
  [([OpWrite [1] 5; OpWrite [2] 6], rune "4"); ([OpWrite [3] 7], rune "#")].
(** Of 4 only the first and the last packet arrive; of # the third and the fifth. *)
Definition ex_arrives : list (list rtp_packet) :=
  match dial Codecs.CodecTelephoneEvent8000 ex_dial ex_writer with
  | [(_, [p0; _; _; _; _; _; p6]); (_, [_; _; q2; _; q4; _; _])] => [[p0; p6]; [q2; q4]]
  | _ => []
  end.

Lemma dialled_digits_heard_witness : (listen (concat ex_arrives) ex_reader).2 = [rune "4"; rune "#"].
Proof.
  rewrite (dialled_digits_heard Codecs.CodecTelephoneEvent8000 ex_dial ex_writer ex_reader (concat ex_arrives) ex_arrives eq_refl);
    [reflexivity| | |reflexivity|reflexivity| |vm_compute; reflexivity].
  - repeat constructor; apply (bool_decide_unpack _); vm_compute; reflexivity.
  - vm_compute. split; [discriminate|reflexivity].
  - vm_compute. split; [|split; [|exact I]].
    + do 2 eexists. split; [apply (eq_refl ([_] ++ [_]))|].
      split; [repeat constructor|]. split; [repeat constructor|]. split; [discriminate|]. left. eexists. split; [reflexivity|]. left.
    + do 2 eexists. split; [apply (eq_refl ([_] ++ [_]))|].
      split; [repeat constructor|]. split; [repeat constructor|]. split; [discriminate|]. right. split; [discriminate|discriminate].
Defined.

Lemma back_to_back_digit_lost_witness : exists v ps v' ps',
  writeDTMF Codecs.CodecTelephoneEvent8000 (rune "1") ex_writer = inl (v, ps) /\
  writeDTMF Codecs.CodecTelephoneEvent8000 (rune "2") v = inl (v', ps') /\ (listen (ps ++ tail ps') ex_reader).2 = [rune "1"].
Proof.
  destruct (writeDTMF Codecs.CodecTelephoneEvent8000 (rune "1") ex_writer) as [[v ps]|] eqn:E1; [|vm_compute in E1; discriminate E1].
  destruct (writeDTMF Codecs.CodecTelephoneEvent8000 (rune "2") v) as [[v' ps']|] eqn:E2; [|unfold writeDTMF in E2; discriminate E2].
  exists v, ps, v', ps'. split; [reflexivity|]. split; [exact E2|].
  apply (back_to_back_digit_lost Codecs.CodecTelephoneEvent8000 (rune "1") (rune "2") ex_writer v ps v' ps' ex_reader);
    [| | |reflexivity|reflexivity|exact E1|exact E2].
  - apply (bool_decide_unpack _). vm_compute. reflexivity.
  - apply (bool_decide_unpack _). vm_compute. reflexivity.
  - vm_compute. split; [discriminate|reflexivity].
Defined.

End Dtmf.
