(* ===== verification/SessionTimer.v ===== *)
(** * Session timers

    [session_timers.go] (RFC 4028): the negotiation of the session interval and
    of the refresher, the headers that carry them, the state of a dialog's timer
    and its loop; and from [dialog_server_session.go] the answer to an INVITE
    ([buildTimerAnswer]) and the refresh itself ([refreshSession]). SIP messages
    are what the code uses of them: their headers by name. *)
From S2P Require Import Prelude GoStrings.
Import GoStrings.

Module SessionTimer.

Definition defaultSessionExpires : Z := 1800 * Second.
Definition defaultMinSE : Z := 90 * Second.
Definition defaultWatchdogGrace : Z := 5 * Second.
Definition minRefreshInterval : Z := Z.quot defaultMinSE 2.
Definition refresherUAS : string := "uas".
Definition refresherUAC : string := "uac".

Record SessionTimerPolicy := {
  Enabled : bool;
  DefaultSE : Z;
  MinSE : Z;
  PreferUASRefresher : bool;
  WatchdogGrace : Z;
  clock : Z }.

Definition wall (p : SessionTimerPolicy) (d : Z) : Z :=
  if clock p <=? 0 then d else i64 (Z.quot d Second * clock p).

Definition watchdogGrace (p : SessionTimerPolicy) : Z :=
  if 0 <? WatchdogGrace p then WatchdogGrace p else defaultWatchdogGrace.

Record sessionTimerDecision := {
  Negotiated : Z;
  Interval : Z;
  Refresher : string;
  BelowFloor : bool;
  WeRefresh : bool }.

Definition refreshCadence (expires : Z) : Z := Z.max (Z.quot expires 2) minRefreshInterval.

(** A delta of seconds as a duration. *)
Definition seconds (n : Z) : Z := i64 (n * Second).

Definition negotiate (offeredSE offeredMinSE : option Z) (offeredRefresher : string) (policy : SessionTimerPolicy)
    (ourRole : string) : sessionTimerDecision :=
  let floor := if MinSE policy <=? 0 then defaultMinSE else MinSE policy in
  let floor := match offeredMinSE with
               | Some m => if floor <? seconds m then seconds m else floor
               | None => floor
               end in
  let '(candidate, belowFloor) :=
    match offeredSE with
    | Some se => (seconds se, seconds se <? floor)
    | None => (if DefaultSE policy <=? 0 then defaultSessionExpires else DefaultSE policy, false)
    end in
  let negotiated := if candidate <? floor then floor else candidate in
  let refresher := if String.eqb offeredRefresher EmptyString && PreferUASRefresher policy then refresherUAS else offeredRefresher in
  {| Negotiated := negotiated; Interval := refreshCadence negotiated; Refresher := refresher; BelowFloor := belowFloor;
     WeRefresh := negb (String.eqb refresher EmptyString) && String.eqb refresher ourRole |}.

(** ** Headers *)

(** The header access requests and responses share: the values of the headers
    with a name, in order. *)
Class headerGetter (msg : Type) := GetHeaders : msg -> string -> list string.
Definition GetHeader {msg} `{headerGetter msg} (m : msg) (name : string) : option string := head (GetHeaders m name).

Record sessionTimerOffer := { SE : option Z; of_MinSE : option Z; of_Refresher : string }.

Definition parseDeltaSeconds (s : string) : option Z :=
  match ParseUint (TrimSpace s) 32 with
  | (v, None) => Some v
  | _ => None
  end.

Definition secondsOf (d : Z) : string := Itoa (Z.quot d Second).

Section Messages.
Context {msg : Type} `{headerGetter msg}.

Definition parseMinSE (m : msg) : option Z :=
  match GetHeader m "Min-SE" with
  | None => None
  | Some v => parseDeltaSeconds (Cut v ";").1.1
  end.

(** The refresher among the parameters: the last one named. *)
Definition read_refresher (r p : string) : string :=
  match Cut p "=" with
  | (k, v, true) => if EqualFold (TrimSpace k) "refresher" then ToLower (TrimSpace v) else r
  | _ => r
  end.

Definition parseSessionTimerOffer (m : msg) : option sessionTimerOffer :=
  match match GetHeader m "Session-Expires" with None => GetHeader m "x" | h => h end with
  | None => None
  | Some h =>
    let '(value, params, _) := Cut h ";" in
    match parseDeltaSeconds value with
    | None => None
    | Some se =>
      Some {| SE := Some se; of_MinSE := parseMinSE m;
              of_Refresher := fold_left read_refresher (Split params ";") EmptyString |}
    end
  end.

Definition supportsTimer (m : msg) : bool :=
  existsb (fun name => existsb (fun h => existsb (fun tag => EqualFold (TrimSpace tag) "timer") (Split h ",")) (GetHeaders m name))
    ["Supported"; "k"].

Definition retryAfter (m : msg) : option Z :=
  match GetHeader m "Retry-After" with
  | None => None
  | Some value => seconds <$> parseDeltaSeconds (until_any value [" "; "009"; ";"; "("]%char)
  end.

(** ** State *)

Record sessionTimerState := { active : bool; expires : Z; weRefresh : bool; minSE : Z }.
#[export] Instance eta_timer : Eta sessionTimerState := fun s =>
  {| active := active s; expires := expires s; weRefresh := weRefresh s; minSE := minSE s |}.
#[export] Instance timer_eq_dec : EqDecision sessionTimerState.
Proof. solve_decision. Defined.

(** A header as it is sent: its name and value. *)
Definition header : Type := string * string.

Definition requestHeaders (st : sessionTimerState) : list header * bool :=
  if negb (active st) then ([], false)
  else
    let refresher := if weRefresh st then refresherUAC else refresherUAS in
    ([("Supported", "timer"); ("Session-Expires", secondsOf (Z.max (minSE st) (expires st)) +:+ ";refresher=" +:+ refresher)] ++
     (if 0 <? minSE st then [("Min-SE", secondsOf (minSE st))] else []), weRefresh st).

(** The state after, and whether the loop was signalled. *)
Definition answered (res : msg) (named : bool) (st : sessionTimerState) : sessionTimerState * bool :=
  if negb (active st) then (st, false)
  else match parseSessionTimerOffer res with
  | None => (st <| active := false |>, true)
  | Some offer =>
    let st := st <| expires := seconds (default 0 (SE offer)) |> in
    (st <| weRefresh := if String.eqb (of_Refresher offer) refresherUAC then true
                        else if String.eqb (of_Refresher offer) refresherUAS then false else named |>, true)
  end.

Definition raiseMinSE (m : Z) (st : sessionTimerState) : sessionTimerState := st <| minSE := Z.max (minSE st) m |>.

(** The new state, its headers, and whether the loop was signalled. *)
Definition answerPeer (req : msg) (st : sessionTimerState) : sessionTimerState * list header * bool :=
  if negb (active st) then (st, [], false)
  else
    let offer := parseSessionTimerOffer req in
    let st := match offer with Some o => st <| expires := seconds (default 0 (SE o)) |> | None => st end in
    let st := match parseMinSE req with Some m => st <| minSE := Z.max (minSE st) (seconds m) |> | None => st end in
    let r := match offer with Some o => of_Refresher o | None => EmptyString end in
    let st := if String.eqb r refresherUAC then st <| weRefresh := false |>
              else if String.eqb r refresherUAS then st <| weRefresh := true |>
              else if negb (supportsTimer req) then st <| weRefresh := true |> else st in
    let refresher := if weRefresh st then refresherUAS else refresherUAC in
    (st, [("Session-Expires", secondsOf (expires st) +:+ ";refresher=" +:+ refresher); ("Supported", "timer")] ++
         (if String.eqb refresher refresherUAC then [("Require", "timer")] else []), true).

(** ** The answer to an INVITE *)

Definition StatusOK : Z := 200.
Definition statusSessionIntervalTooSmall : Z := 422.

Record timerAnswer := { ta_headers : list header; ta_weRefresh : bool; ta_expiry : Z; ta_minSE : Z }.

Definition buildTimerAnswer (invite : msg) (policy : SessionTimerPolicy) : option timerAnswer * list header * Z :=
  if negb (Enabled policy) then (None, [], StatusOK)
  else match parseSessionTimerOffer invite with
  | None => (None, [], StatusOK)
  | Some offer =>
    let dec := negotiate (SE offer) (of_MinSE offer) (of_Refresher offer) policy refresherUAS in
    if BelowFloor dec then (None, [("Min-SE", secondsOf (Negotiated dec))], statusSessionIntervalTooSmall)
    else
      let seValue := secondsOf (Negotiated dec) +:+
                     (if String.eqb (Refresher dec) EmptyString then EmptyString else ";refresher=" +:+ Refresher dec) in
      let hdrs := [("Session-Expires", seValue); ("Supported", "timer")] ++
                  (if String.eqb (Refresher dec) refresherUAC then [("Require", "timer")] else []) in
      (Some {| ta_headers := hdrs; ta_weRefresh := WeRefresh dec; ta_expiry := Negotiated dec;
               ta_minSE := match of_MinSE offer with Some m => seconds m | None => 0 end |}, hdrs, StatusOK)
  end.

(** The timer an answer starts. *)
Definition launched (ta : timerAnswer) : sessionTimerState :=
  {| active := true; expires := ta_expiry ta; weRefresh := ta_weRefresh ta; minSE := ta_minSE ta |}.

(** ** Refreshing *)

Inductive refreshOutcome := refreshGoesOn | refreshStopped | refreshEnded.
#[export] Instance outcome_eq_dec : EqDecision refreshOutcome.
Proof. solve_decision. Defined.

(** What a re-INVITE comes to: success; the end of the dialog's context; an
    answer without SDP; the end of the media; a response with a status; a
    transaction that timed out; another error. *)
Inductive reinvite :=
| Refreshed
| ContextEnded
| WithoutSDP
| MediaEnded
| Response (status : Z) (res : msg)
| TransactionTimeout
| OtherError.

(** [refreshSession] over the re-INVITEs it sends, with whether the wait for a
    Retry-After was ended by the context. It returns the outcome, the timer's
    state, whether it ended the call with a BYE, and the re-INVITEs left. *)
Fixpoint refreshSession (attempts : list (reinvite * bool)) (retried : bool) (st : sessionTimerState) :
    option (refreshOutcome * sessionTimerState * bool) :=
  match attempts with
  | [] => None
  | (r, ended) :: attempts =>
    match r with
    | Refreshed => Some (refreshGoesOn, st, false)
    | ContextEnded => Some (refreshEnded, st, false)
    | WithoutSDP => Some (refreshGoesOn, st, false)
    | MediaEnded => Some (refreshEnded, st, false)
    | TransactionTimeout => Some (refreshEnded, st, true)
    | OtherError => Some (refreshStopped, st, false)
    | Response status res =>
      if (status =? 408) || (status =? 481) then Some (refreshEnded, st, true)
      else if (status =? statusSessionIntervalTooSmall) && negb retried then
        match parseMinSE res with
        | None => Some (refreshStopped, st, false)
        | Some m => refreshSession attempts true (raiseMinSE (seconds m) st)
        end
      else if ((status =? 500) || (status =? 503)) && negb retried then
        match retryAfter res with
        | None => Some (refreshStopped, st, false)
        | Some _ => if ended then Some (refreshEnded, st, false) else refreshSession attempts true st
        end
      else Some (refreshStopped, st, false)
    end
  end.

End Messages.

End SessionTimer.

(** * Session timers: the loop and the theorems

    The timed loop of [sessionTimer.run] as a transition system, with its
    invariant; the negotiation's bounds; and what two sides of a refresh hold
    after it. *)
Import GoStrings SessionTimer.

Module SessionTimerProps.

(** ** The loop

    A step is either the loop's or its surroundings': time passes only while the
    loop waits and has nothing to do, the state may change at any moment. *)

Inductive phase := Top | Waiting (since : Z) (snap : sessionTimerState) (due : Z) | Calling | Over.
Inductive call := Refresh | Expire.

Record rstate := {
  now : Z;
  st : sessionTimerState;
  changed : bool;
  refreshing : bool;
  ph : phase;
  lastChange : Z;
  lastCall : Z }.
#[export] Instance eta_rstate : Eta rstate := fun s =>
  {| now := now s; st := st s; changed := changed s; refreshing := refreshing s; ph := ph s; lastChange := lastChange s; lastCall := lastCall s |}.

(** What the loop waits for: zero for a change only. *)
Definition due (p : SessionTimerPolicy) (st : sessionTimerState) (refreshing : bool) : Z :=
  if negb (active st) || (weRefresh st && negb refreshing) then 0
  else if weRefresh st then wall p (refreshCadence (expires st))
  else wall p (i64 (expires st + watchdogGrace p)).

(** The head of the loop: the signal is taken, the state read, the wait begun. *)
Definition run_top (p : SessionTimerPolicy) (s : rstate) : rstate :=
  let refreshing' := changed s || refreshing s in
  s <| changed := false |> <| refreshing := refreshing' |> <| ph := Waiting (now s) (st s) (due p (st s) refreshing') |>.

(** [raiseMinSE] is the one change that is not signalled. *)
Definition same_timing (a b : sessionTimerState) : Prop := active a = active b /\ expires a = expires b /\ weRefresh a = weRefresh b.

Inductive rstep (p : SessionTimerPolicy) : rstate -> option call -> rstate -> Prop :=
| R_top s : ph s = Top -> rstep p s None (run_top p s)
| R_time s since snap d dt : ph s = Waiting since snap d -> changed s = false -> 0 <= dt -> (0 < d -> now s + dt <= since + d) ->
    rstep p s None (s <| now := now s + dt |>)
| R_call_time s dt : ph s = Calling -> 0 <= dt -> rstep p s None (s <| now := now s + dt |>)
| R_change s st' : rstep p s None (s <| st := st' |> <| changed := true |> <| lastChange := now s |>)
| R_raise s m : rstep p s None (s <| st := raiseMinSE m (st s) |>)
| R_woken s since snap d : ph s = Waiting since snap d -> changed s = true ->
    rstep p s None (s <| changed := false |> <| refreshing := true |> <| ph := Top |>)
| R_expire s since snap d : ph s = Waiting since snap d -> 0 < d -> since + d <= now s -> weRefresh snap = false ->
    rstep p s (Some Expire) (s <| ph := Over |>)
| R_refresh s since snap d : ph s = Waiting since snap d -> 0 < d -> since + d <= now s -> weRefresh snap = true ->
    rstep p s (Some Refresh) (s <| ph := Calling |> <| lastCall := now s |>)
| R_returned s (out : refreshOutcome) : ph s = Calling ->
    rstep p s None (match out with
                    | refreshGoesOn => s <| ph := Top |>
                    | refreshStopped => s <| refreshing := false |> <| ph := Top |>
                    | refreshEnded => s <| ph := Over |>
                    end)
| R_done s : rstep p s None (s <| ph := Over |>).

(** The loop as it is started on state [s0] at time [t0]. *)
Definition started (t0 : Z) (s0 : sessionTimerState) : rstate :=
  {| now := t0; st := s0; changed := false; refreshing := true; ph := Top; lastChange := t0; lastCall := t0 |}.

Inductive reachable (p : SessionTimerPolicy) (t0 : Z) (s0 : sessionTimerState) : rstate -> Prop :=
| reach_start : reachable p t0 s0 (started t0 s0)
| reach_step s c t : reachable p t0 s0 s -> rstep p s c t -> reachable p t0 s0 t.

Record RInv (p : SessionTimerPolicy) (s : rstate) : Prop := {
  ri_change : lastChange s <= now s;
  ri_call : lastCall s <= now s;
  ri_wait : forall since snap d, ph s = Waiting since snap d ->
    since <= now s /\ lastCall s <= since /\ (0 < d -> now s <= since + d) /\ (exists r, d = due p snap r) /\
    if changed s then lastChange s = now s
    else lastChange s <= since /\ same_timing snap (st s) }.

Lemma same_timing_raise a b m : same_timing a b -> same_timing a (raiseMinSE m b).
Proof. done. Qed.

Lemma rstep_inv p s c t : RInv p s -> rstep p s c t -> RInv p t.
Proof.
  intros [H1 H2 H3] HS.
  destruct HS as [s Hp|s since snap d dt Hp Hc Hd Hdd|s dt Hp Hd|s st'|s m|s since snap d Hp Hc|s since snap d Hp Hd Hn Hw|s since snap d Hp Hd Hn Hw|s out Hp|s].
  - split; cbn; [done|done|]. intros since snap d [= <- <- <-]. split; [lia|]. split; [done|]. split; [|split; [by eexists|done]].
    unfold due. intros Hd. lia.
  - split; cbn; [lia..|]. intros since' snap' d' E. rewrite Hp in E. injection E as <- <- <-.
    destruct (H3 _ _ _ Hp) as (W1 & W2 & W3 & W4 & W5). rewrite Hc in *. split; [lia|]. split; [lia|]. split; [done|]. split; [done|]. done.
  - split; cbn; [lia..|]. intros since' snap' d' E. by rewrite Hp in E.
  - split; cbn; [lia|done|]. intros since snap d Hp. destruct (H3 _ _ _ Hp) as (W1 & W2 & W3 & W4 & W5). done.
  - split; cbn; [done|done|]. intros since snap d Hp. destruct (H3 _ _ _ Hp) as (W1 & W2 & W3 & W4 & W5). done.
  - split; cbn; done.
  - split; cbn; done.
  - split; cbn; [done|lia|done].
  - destruct out; split; cbn; done.
  - split; cbn; done.
Qed.

Lemma reachable_inv p t0 s0 s : reachable p t0 s0 s -> RInv p s.
Proof. induction 1 as [|s c t _ IH HS]; [split; cbn; try lia; done|by eapply rstep_inv]. Qed.

(** The timer ends a call only after the peer's silence, and refreshes only
    when it is due. Whenever the loop ends the call, the peer is the refresher,
    the timer is on, and nothing changed the session for its whole interval plus
    the grace, up to a change at that very moment; whenever it refreshes, we are
    the refresher and half the interval (at least 45 seconds) has passed since the
    last change of the session; and no two refreshes are less than 45 seconds
    apart, whatever intervals the peer asks for. *)
Theorem timer_calls_due p t0 s0 s c t : clock p <= 0 -> reachable p t0 s0 s -> rstep p s (Some c) t ->
  0 <= expires (st s) + watchdogGrace p < 2 ^ 63 ->
  match c with
  | Expire =>
    lastChange s = now s \/
    (active (st s) = true /\ weRefresh (st s) = false /\ lastChange s + (expires (st s) + watchdogGrace p) <= now s)
  | Refresh =>
    lastCall s + minRefreshInterval <= now s /\
    (lastChange s = now s \/
     (active (st s) = true /\ weRefresh (st s) = true /\ lastChange s + refreshCadence (expires (st s)) <= now s))
  end.
Proof.
  intros Hp Hr HS Hb. pose proof (reachable_inv _ _ _ _ Hr) as [H1 H2 H3].
  assert (forall d, wall p d = d) as Hw by (intros d; unfold wall; by replace (clock p <=? 0) with true by lia).
  inversion HS as [| | | | | |? since snap d Ph Hd Hn Hwr| ? since snap d Ph Hd Hn Hwr| |]; subst;
    destruct (H3 _ _ _ Ph) as (W1 & W2 & W3 & (r & ->) & W5); unfold due in *; rewrite !Hw in *;
    (destruct (negb (active snap) || (weRefresh snap && negb r)) eqn:E; [lia|]); rewrite Hwr in *; apply orb_false_iff in E as [Ea _]; apply negb_false_iff in Ea.
  - destruct (changed s); [by left|]. destruct W5 as [W5 (E1 & E2 & E3)]. right. rewrite <- E1, <- E3, <- E2, i64_small in * by lia.
    split; [done|]. split; [done|]. lia.
  - split; [unfold refreshCadence in *; lia|]. destruct (changed s); [by left|]. destruct W5 as [W5 (E1 & E2 & E3)]. right.
    rewrite <- E1, <- E2, <- E3. split; [done|]. split; [done|]. lia.
Qed.

(** C29. A peer that stops refreshing is noticed: whenever the loop waits on a peer
    that is the refresher and nothing changes the session any more, it ends the
    call exactly an interval and a grace after the last look at the session, and
    no step of its own can take it elsewhere before. *)
Theorem silent_peer_expires p t0 s0 s since snap d : clock p <= 0 -> reachable p t0 s0 s -> ph s = Waiting since snap d ->
  changed s = false -> active (st s) = true -> weRefresh (st s) = false -> 0 < expires (st s) + watchdogGrace p < 2 ^ 63 ->
  d = expires (st s) + watchdogGrace p /\ lastChange s <= since <= now s /\ now s <= since + d /\
  rstep p s None (s <| now := since + d |>) /\ rstep p (s <| now := since + d |>) (Some Expire) (s <| now := since + d |> <| ph := Over |>) /\
  (forall c t, rstep p s (Some c) t -> c = Expire /\ now s = since + d).
Proof.
  intros Hp Hr Ph Hc Ha Hwr Hb. pose proof (reachable_inv _ _ _ _ Hr) as [H1 H2 H3].
  assert (forall d, wall p d = d) as Hw by (intros x; unfold wall; by replace (clock p <=? 0) with true by lia).
  destruct (H3 _ _ _ Ph) as (W1 & W2 & W3 & (r & Hd) & W5). rewrite Hc in W5. destruct W5 as [W5 (E1 & E2 & E3)].
  assert (d = expires (st s) + watchdogGrace p) as Ed.
  { rewrite Hd. unfold due. by rewrite E1, E3, Ha, Hwr, Hw, E2, i64_small by lia. }
  split; [done|]. split; [lia|]. split; [lia|]. split; [|split].
  - replace (since + d) with (now s + (since + d - now s)) by lia. eapply R_time; [done|done|lia|lia].
  - eapply (R_expire p (s <| now := since + d |>)); cbn; [done|lia|lia|congruence].
  - intros c t HS. inversion HS as [| | | | | |? since' snap' d' Ph' Hd' Hn' Hwr'| ? since' snap' d' Ph' Hd' Hn' Hwr'| |]; subst c; rewrite Ph in Ph'; injection Ph' as <- <- <-.
    + split; [done|lia].
    + congruence.
Qed.

(** ** Negotiation *)

Lemma seconds_small n : 0 <= n < 2 ^ 32 -> seconds n = n * Second.
Proof. intros H. unfold seconds. apply i64_small. unfold Second. lia. Qed.

(** The negotiated interval respects both sides: for any 32 bit values the
    peer offers, it is at least our minimum (90 seconds unless configured) and at
    least the peer's, it is exactly the offer unless the offer is below that
    floor, which is then reported; the refresh is due at half the interval or
    after 45 seconds, whichever is later, so before the session expires whenever
    the floor is 45 seconds or more; the peer's choice of refresher is kept; and
    no duration overflows. *)
Theorem negotiate_respects_floors se mse r p role : (forall x, se = Some x -> 0 <= x < 2 ^ 32) -> (forall x, mse = Some x -> 0 <= x < 2 ^ 32) ->
  let d := negotiate se mse r p role in
  let ours := if MinSE p <=? 0 then defaultMinSE else MinSE p in
  ours <= Negotiated d /\ (forall m, mse = Some m -> m * Second <= Negotiated d) /\
  (forall x, se = Some x -> if BelowFloor d then x * Second < Negotiated d else Negotiated d = x * Second) /\
  (BelowFloor d = true -> Negotiated d = Z.max ours (default 0 mse * Second)) /\
  Interval d = Z.max (Z.quot (Negotiated d) 2) (45 * Second) /\ (45 * Second <= ours -> Interval d <= Negotiated d) /\
  (r <> EmptyString -> Refresher d = r) /\ (WeRefresh d = true -> Refresher d = role).
Proof.
  intros Hse Hmse. unfold negotiate. set (ours := if MinSE p <=? 0 then defaultMinSE else MinSE p).
  assert (0 < ours) as Ho by (unfold ours, defaultMinSE, Second; destruct (Z.leb_spec (MinSE p) 0); lia).
  set (floor := match mse with Some m => _ | None => ours end).
  assert (floor = Z.max ours (default 0 mse * Second) /\ (forall m, mse = Some m -> m * Second <= floor)) as [Hf Hm].
  { unfold floor, Second. destruct mse as [m|]; cbn; [|split; [lia|done]]. rewrite (seconds_small m) by auto. unfold Second.
    destruct (Z.ltb_spec ours (m * 1000000000)); split; try lia; intros ? [= <-]; lia. }
  assert (ours <= floor) as Hof by (unfold Second in Hf; lia). clearbody floor.
  set (cand := match se with Some x => _ | None => _ end). destruct cand as [candidate below] eqn:Ec. cbn zeta. unfold cand in Ec. clear cand.
  set (neg := if candidate <? floor then floor else candidate). cbn [Negotiated BelowFloor Interval Refresher WeRefresh].
  assert (floor <= neg) as Hn by (unfold neg; destruct (Z.ltb_spec candidate floor); lia).
  split; [lia|]. split; [intros m Em; specialize (Hm m Em); lia|]. split; [|split; [|split; [|split; [|split]]]].
  - intros x Ex. subst se. injection Ec as <- <-. unfold neg. rewrite !(seconds_small x) by auto. by destruct (Z.ltb_spec (x * Second) floor).
  - intros Hb. destruct se as [x|]; [|by injection Ec as <- <-]. injection Ec as <- <-. unfold neg. by rewrite Hb.
  - unfold refreshCadence. by change minRefreshInterval with (45 * Second).
  - unfold refreshCadence. change minRefreshInterval with (45 * Second). intros H45. assert (Z.quot neg 2 <= neg) by (apply Z.quot_le_upper_bound; lia). lia.
  - intros Hr. by rewrite (proj2 (String.eqb_neq _ _) Hr).
  - intros Hw. apply andb_true_iff in Hw as [_ Hw]. by apply String.eqb_eq in Hw.
Qed.

(** ** The two sides of a refresh *)

(** Headers as sipgo holds them: by name, in order. *)
#[export] Instance headers_getter : headerGetter (list header) := fun hs name => snd <$> List.filter (fun h => String.eqb h.1 name) hs.

(** A whole number of seconds that fits the header. *)
Definition whole (d : Z) : Prop := exists n, 0 <= n < 2 ^ 32 /\ d = n * Second.

Lemma secondsOf_whole n : 0 <= n -> secondsOf (n * Second) = Itoa n.
Proof. intros H. unfold secondsOf. by rewrite Z.quot_mul by (unfold Second; lia). Qed.

Lemma parseDelta_Itoa n : 0 <= n < 2 ^ 32 -> parseDeltaSeconds (Itoa n) = Some n.
Proof.
  intros H. unfold parseDeltaSeconds. pose proof (Itoa_word n ltac:(lia)) as Hw. apply andb_true_iff in Hw as [_ Hw].
  rewrite TrimSpace_no by done. by rewrite Itoa_nonneg, ParseUint_FormatUint by lia.
Qed.

Lemma Itoa_no_semicolon n : 0 <= n -> str_forall (not_char ";") (Itoa n) = true.
Proof. intros H. rewrite Itoa_nonneg by done. apply digits_not_char; [done|by apply FormatUint_digits]. Qed.

(** Reading the Session-Expires one side wrote. *)
Lemma read_session_expires hs n r : 0 <= n < 2 ^ 32 -> r = refresherUAC \/ r = refresherUAS ->
  GetHeader hs "Session-Expires" = Some (secondsOf (n * Second) +:+ ";refresher=" +:+ r) ->
  exists o, parseSessionTimerOffer (msg := list header) hs = Some o /\ SE o = Some n /\ of_Refresher o = r.
Proof.
  intros Hn Hr Hh. unfold parseSessionTimerOffer. rewrite Hh, secondsOf_whole by lia.
  change (";refresher=" +:+ r) with (String ";" ("refresher=" +:+ r)). rewrite Cut_app by (apply Itoa_no_semicolon; lia).
  rewrite parseDelta_Itoa by done. eexists. split; [done|]. split; [done|]. cbn [of_Refresher]. by destruct Hr as [-> | ->].
Qed.

Lemma read_min_se hs n : 0 <= n < 2 ^ 32 -> GetHeader hs "Min-SE" = Some (secondsOf (n * Second)) ->
  parseMinSE (msg := list header) hs = Some n.
Proof.
  intros Hn Hh. unfold parseMinSE. rewrite Hh, secondsOf_whole by lia. rewrite Cut_no by (apply Itoa_no_semicolon; lia).
  cbn [fst]. by apply parseDelta_Itoa.
Qed.

(** What the answerer of an offer that names a refresher keeps and sends. *)
Lemma answerPeer_named (req : list header) st o k : active st = true -> parseSessionTimerOffer req = Some o -> SE o = Some k -> 0 <= k < 2 ^ 32 ->
  of_Refresher o = refresherUAC \/ of_Refresher o = refresherUAS ->
  exists st', answerPeer req st = (st', [("Session-Expires", secondsOf (k * Second) +:+ ";refresher=" +:+ (if weRefresh st' then refresherUAS else refresherUAC)); ("Supported", "timer")] ++
         (if String.eqb (if weRefresh st' then refresherUAS else refresherUAC) refresherUAC then [("Require", "timer")] else []), true) /\
    active st' = true /\ expires st' = k * Second /\ weRefresh st' = negb (String.eqb (of_Refresher o) refresherUAC) /\
    minSE st' = match parseMinSE req with Some m => Z.max (minSE st) (seconds m) | None => minSE st end.
Proof.
  intros Ha Ho Hse Hk Hr. unfold answerPeer. rewrite Ha, Ho, Hse. cbn [negb]. unfold default, from_option, id.
  rewrite seconds_small by done.
  destruct (parseMinSE req) as [m|]; destruct Hr as [-> | ->]; (eexists; split; [reflexivity|]); repeat split; assumption || reflexivity.
Qed.

(** After a re-INVITE of one diago side answered by another, both sides run
    the same interval and exactly one of them refreshes: the answerer reads the
    headers the refresher wrote and the offerer those of the answer, the interval
    is the larger of the offerer's current one and the Min-SE it has seen, the
    refresher is the one it was before, and the answerer has taken over the
    Min-SE. *)
Theorem refresh_sides_agree (a b : sessionTimerState) : active a = true -> active b = true -> whole (expires a) -> whole (minSE a) ->
  let '(hdrs, named) := requestHeaders a in
  let '(b', answer, signalled) := answerPeer (msg := list header) hdrs b in
  let '(a', _) := answered (msg := list header) answer named a in
  expires a' = Z.max (minSE a) (expires a) /\ expires b' = expires a' /\ weRefresh a' = weRefresh a /\ weRefresh b' = negb (weRefresh a') /\
  active a' = true /\ active b' = true /\ minSE a <= Z.max 0 (minSE b') /\ signalled = true.
Proof.
  intros Ha Hb (n & Hn & En) (m & Hm & Em). unfold requestHeaders. rewrite Ha. cbn [negb].
  set (e := Z.max (minSE a) (expires a)). assert (exists k, 0 <= k < 2 ^ 32 /\ e = k * Second) as (k & Hk & Ek).
  { exists (Z.max m n). split; [lia|]. unfold e. rewrite En, Em. unfold Second. lia. }
  rewrite Ek. set (r := if weRefresh a then refresherUAC else refresherUAS).
  set (hdrs := [("Supported", "timer"); ("Session-Expires", _)] ++ _).
  assert (r = refresherUAC \/ r = refresherUAS) as Hr by (unfold r; destruct (weRefresh a); auto).
  destruct (read_session_expires hdrs k r Hk Hr) as (o & Ho & Ose & Oref); [done|].
  destruct (answerPeer_named hdrs b o k Hb Ho Ose Hk) as (b' & -> & B1 & B2 & B3 & B4); [by rewrite Oref|].
  assert (weRefresh b' = negb (weRefresh a)) as B3' by (rewrite B3, Oref; unfold r; by destruct (weRefresh a)).
  set (r' := if weRefresh b' then refresherUAS else refresherUAC). set (ans := [("Session-Expires", _); ("Supported", "timer")] ++ _).
  assert (r' = refresherUAC \/ r' = refresherUAS) as Hr' by (unfold r'; destruct (weRefresh b'); auto).
  destruct (read_session_expires ans k r' Hk Hr') as (o' & Ho' & Ose' & Oref'); [done|].
  unfold answered. rewrite Ha, Ho', Ose', Oref'. cbn [negb]. unfold default, from_option, id. rewrite seconds_small by done.
  assert (minSE a <= Z.max 0 (minSE b')) as B5.
  { rewrite B4. unfold hdrs. destruct (Z.ltb_spec 0 (minSE a)) as [Hpos|Hpos]; [|lia].
    rewrite (read_min_se _ m Hm) by (cbn; by rewrite Em). rewrite seconds_small by done. lia. }
  clearbody e. subst e. unfold r' in *. rewrite B3' in *. by destruct (weRefresh a).
Qed.

(** ** Concrete timers *)

Definition ex_policy : SessionTimerPolicy :=
  {| Enabled := true; DefaultSE := 0; MinSE := 0; PreferUASRefresher := false; WatchdogGrace := 0; clock := 0 |}.
Definition ex_timer (we : bool) : sessionTimerState := {| active := true; expires := 1800 * Second; weRefresh := we; minSE := 0 |}.

Lemma ex_whole n : 0 <= n < 2 ^ 32 -> whole (n * Second).
Proof. intros H. by exists n. Qed.

Lemma refresh_sides_agree_witness :
  let '(hdrs, named) := requestHeaders (ex_timer true) in
  let '(b', answer, _) := answerPeer (msg := list header) hdrs (ex_timer true) in
  let '(a', _) := answered (msg := list header) answer named (ex_timer true) in
  weRefresh a' = true /\ weRefresh b' = false /\ expires a' = 1800 * Second.
Proof.
  pose proof (refresh_sides_agree (ex_timer true) (ex_timer true) eq_refl eq_refl (ex_whole 1800 ltac:(lia)) (ex_whole 0 ltac:(lia))) as H.
  destruct (requestHeaders (ex_timer true)) as [hdrs named]. destruct (answerPeer hdrs (ex_timer true)) as [[b' answer] sg].
  destruct (answered answer named (ex_timer true)) as [a' sg']. destruct H as (H1 & H2 & H3 & H4 & _).
  split; [exact H3|]. split; [rewrite H4, H3; reflexivity|exact H1].
Defined.

Lemma negotiate_respects_floors_witness : let d := negotiate (Some 60) (Some 120) "uac" ex_policy refresherUAS in
  BelowFloor d = true /\ Negotiated d = 120 * Second.
Proof.
  destruct (negotiate_respects_floors (Some 60) (Some 120) "uac" ex_policy refresherUAS) as (_ & _ & _ & H & _); [intros x [= <-]; lia..|].
  split; [reflexivity|]. rewrite H by reflexivity. reflexivity.
Defined.

(** A peer that refreshes is waited for 1805 seconds. *)
Definition ex_top : rstate := run_top ex_policy (started 0 (ex_timer false)).
Definition ex_wait (t : Z) : rstate := ex_top <| now := now ex_top + t |>.
Lemma ex_wait_reachable t : 0 <= t <= 1805 * Second -> reachable ex_policy 0 (ex_timer false) (ex_wait t).
Proof.
  intros Ht. eapply reach_step; [eapply reach_step; [apply reach_start|by apply R_top]|].
  eapply (R_time ex_policy ex_top 0 (ex_timer false) (1805 * Second) t); [reflexivity|reflexivity|lia|].
  intros _. change (now ex_top) with 0. lia.
Qed.

Lemma timer_calls_due_witness : let s := ex_wait (1805 * Second) in lastChange s + 1805 * Second <= now s.
Proof.
  destruct (timer_calls_due ex_policy 0 (ex_timer false) (ex_wait (1805 * Second)) Expire (ex_wait (1805 * Second) <| ph := Over |>)) as [H|(_ & _ & H)].
  - cbn. lia.
  - apply ex_wait_reachable. unfold Second. lia.
  - eapply R_expire; [reflexivity|reflexivity|vm_compute; discriminate|reflexivity].
  - vm_compute. split; [discriminate|reflexivity].
  - discriminate H.
  - exact H.
Defined.

Lemma silent_peer_expires_witness : exists t, rstep ex_policy (ex_wait (1805 * Second)) (Some Expire) t.
Proof.
  destruct (silent_peer_expires ex_policy 0 (ex_timer false) (ex_wait 7) 0 (ex_timer false) (1805 * Second)) as (_ & _ & _ & _ & H & _).
  - cbn. lia.
  - apply ex_wait_reachable. unfold Second. lia.
  - reflexivity.
  - reflexivity.
  - reflexivity.
  - reflexivity.
  - vm_compute. split; reflexivity.
  - eexists. exact H.
Defined.

End SessionTimerProps.
