(* ===== verification/RtpSession.v ===== *)
(** * The RTP session: source lock, statistics and RTCP reports

    [media/rtp_session.go]: the RTP session that reads and writes through a media
    session, refuses packets of other sources once it has learned one, keeps the
    statistics of both directions and exchanges RTCP reports about them, and the
    NTP times of [media/rtp_utils.go].

    [ReadRTP] takes the results of the successive calls of the media session's
    [ReadRTP] ([MediaIO]); time is an argument. A conversion of a float to an
    integer that does not fit is left to the implementation by the language: here
    it is the truncation amd64 makes of a value that fits 64 bits. *)
From S2P Require Import Prelude GoStrings Float64 Rtp NetIP Sdp Codec Sequencer MediaSdp MediaSession MediaIO.
Import Float64 Sequencer NetIP Sdp Codecs MediaSdp MediaSession MediaIO.

Module RtpSession.

(** ** Times *)

(** Seconds from Go's zero time to 1970. *)
Definition unixToInternal : Z := 62135596800.
Definition Unix (t : Z) : Z := t / Second - unixToInternal.
Definition Nanosecond_of (t : Z) : Z := t mod Second.
(** [Time.Sub] saturates. *)
Definition time_Sub (t u : Z) : Z := Z.max (- 2 ^ 63) (Z.min (2 ^ 63 - 1) (t - u)).

Definition ntpEpochOffset : Z := 2208988800.
Definition NTPTimestamp (t : Z) : Z :=
  let frac := fmul (fdiv (of_Z (Nanosecond_of t)) (of_Z 1000000000)) (of_Z (2 ^ 32)) in
  Z.lor (u64 (Z.shiftl (u64 (Unix t + ntpEpochOffset)) 32)) (u64 (to_Z frac)).
Definition NTPToTime (ntp : Z) : Z :=
  let frac := fdiv (of_Z (Z.land ntp (2 ^ 32 - 1))) (of_Z (2 ^ 32)) in
  (Z.shiftr ntp 32 - ntpEpochOffset + unixToInternal) * Second + to_Z (fmul frac (of_Z 1000000000)).

(** ** Statistics *)

Record RTPReadStats := {
  rs_SSRC : Z;
  FirstPktSequenceNumber : Z;
  LastSequenceNumber : Z;
  lastSeq : RTPExtendedSequenceNumber;
  IntervalFirstPktSeqNum : Z;
  IntervalPacketsCount : Z;
  PacketsCount : Z;
  OctetCount : Z;
  rs_SampleRate : Z;
  firstRTPTime : Z;
  firstRTPTimestamp : Z;
  jitter : float64;
  transit : Z;
  lastSenderReportNTP : Z;
  lastSenderReportRecvTime : Z;
  lastReceptionReportSeqNum : Z;
  RTT : Z;
  rs_clockReset : bool }.
#[export] Instance eta_readstats : Eta RTPReadStats := fun s =>
  {| rs_SSRC := rs_SSRC s; FirstPktSequenceNumber := FirstPktSequenceNumber s; LastSequenceNumber := LastSequenceNumber s; lastSeq := lastSeq s;
     IntervalFirstPktSeqNum := IntervalFirstPktSeqNum s; IntervalPacketsCount := IntervalPacketsCount s; PacketsCount := PacketsCount s;
     OctetCount := OctetCount s; rs_SampleRate := rs_SampleRate s; firstRTPTime := firstRTPTime s; firstRTPTimestamp := firstRTPTimestamp s;
     jitter := jitter s; transit := transit s; lastSenderReportNTP := lastSenderReportNTP s; lastSenderReportRecvTime := lastSenderReportRecvTime s;
     lastReceptionReportSeqNum := lastReceptionReportSeqNum s; RTT := RTT s; rs_clockReset := rs_clockReset s |}.

Definition readstats_zero : RTPReadStats :=
  {| rs_SSRC := 0; FirstPktSequenceNumber := 0; LastSequenceNumber := 0; lastSeq := seq_zero; IntervalFirstPktSeqNum := 0; IntervalPacketsCount := 0;
     PacketsCount := 0; OctetCount := 0; rs_SampleRate := 0; firstRTPTime := time_zero; firstRTPTimestamp := 0; jitter := of_Z 0; transit := 0;
     lastSenderReportNTP := 0; lastSenderReportRecvTime := time_zero; lastReceptionReportSeqNum := 0; RTT := 0; rs_clockReset := false |}.

Definition calcJitter (now readPktTimestamp : Z) (stats : RTPReadStats) : RTPReadStats :=
  let sampleRate := of_Z (rs_SampleRate stats) in
  let rtpSampleArrival := u32 (firstRTPTimestamp stats + u32 (to_Z (fmul (Seconds (time_Sub now (firstRTPTime stats))) sampleRate))) in
  let tr := rtpSampleArrival - readPktTimestamp in
  let D := i64 (tr - transit stats) in
  let D := if D <? 0 then i64 (- D) else D in
  let jit := fdiv (fsub (of_Z D) (jitter stats)) (of_Z 16) in
  stats <| transit := tr |> <| jitter := fadd (jitter stats) jit |>.

Record RTPWriteStats := {
  ws_SSRC : Z;
  lastPacketTime : Z;
  lastPacketTimestamp : Z;
  ws_sampleRate : Z;
  ws_PacketsCount : Z;
  ws_OctetCount : Z }.
#[export] Instance eta_writestats : Eta RTPWriteStats := fun s =>
  {| ws_SSRC := ws_SSRC s; lastPacketTime := lastPacketTime s; lastPacketTimestamp := lastPacketTimestamp s; ws_sampleRate := ws_sampleRate s;
     ws_PacketsCount := ws_PacketsCount s; ws_OctetCount := ws_OctetCount s |}.
Definition writestats_zero : RTPWriteStats :=
  {| ws_SSRC := 0; lastPacketTime := time_zero; lastPacketTimestamp := 0; ws_sampleRate := 0; ws_PacketsCount := 0; ws_OctetCount := 0 |}.

(** ** RTCP reports *)

Record ReceptionReport := {
  rr_SSRC : Z;
  FractionLost : Z;
  TotalLost : Z;
  rr_LastSequenceNumber : Z;
  Jitter : Z;
  LastSenderReport : Z;
  Delay : Z }.

Inductive rtcp_packet :=
| SenderReport (ssrc ntp rtp packets octets : Z) (reports : list ReceptionReport)
| ReceiverReport (ssrc : Z) (reports : list ReceptionReport)
| OtherRTCP (p : bytes).

Definition errRTPSessionClosed : error := ErrNew "rtp session is closed".
Definition errRTPSessionMonitorStarted : error := ErrNew "rtp session monitor already started".

Section Session.
Context {cert srtp_ctx : Type}.
Abbreviation session := (@MediaSession.MediaSession cert srtp_ctx).

Record RTPSession := {
  Sess : session;
  monitorRun : bool;
  readStats : RTPReadStats;
  writeStats : RTPWriteStats;
  closed : bool;
  sourceLock : bool;
  sourceLockPackets : Z;
  sourceLockSeq : Z;
  sourceLockAddr : option UDPAddr }.
#[export] Instance eta_rtpsession : Eta RTPSession := fun s =>
  {| Sess := Sess s; monitorRun := monitorRun s; readStats := readStats s; writeStats := writeStats s; closed := closed s;
     sourceLock := sourceLock s; sourceLockPackets := sourceLockPackets s; sourceLockSeq := sourceLockSeq s; sourceLockAddr := sourceLockAddr s |}.

(** [lock] is the package variable [RTPSourceLock]. *)
Definition NewRTPSession (lock : bool) (sess : session) : RTPSession :=
  {| Sess := sess; monitorRun := false; readStats := readstats_zero; writeStats := writestats_zero; closed := false;
     sourceLock := lock; sourceLockPackets := 0; sourceLockSeq := 0; sourceLockAddr := None |}.

Definition udpAddrEqual (a b : UDPAddr) : bool :=
  Equal (ua_IP a) (ua_IP b) && (ua_Port a =? ua_Port b) && String.eqb (ua_Zone a) (ua_Zone b).

Definition audioCodec (sess : session) : option Codec := CodecAudioFromSession (filterCodecs sess) (ms_Codecs sess).

(** [None] is the panic of a session without codecs. *)
Definition Fork (sess : session) (s : RTPSession) : option RTPSession :=
  let fork := NewRTPSession (sourceLock s) sess in
  let fork := fork <| readStats := readStats s |> <| writeStats := writeStats s |> in
  let fork := if udpAddrEqual (Laddr (Sess s)) (Laddr sess) && udpAddrEqual (Raddr (Sess s)) (Raddr sess) then
                fork <| sourceLockPackets := sourceLockPackets s |> <| sourceLockSeq := sourceLockSeq s |> <| sourceLockAddr := sourceLockAddr s |>
              else fork in
  match audioCodec (Sess s), audioCodec sess with
  | Some oldCodec, Some newCodec =>
    Some (if SampleRate oldCodec =? SampleRate newCodec then fork
          else fork <| readStats := (readStats fork) <| rs_SampleRate := SampleRate newCodec |> <| firstRTPTime := time_zero |> <| firstRTPTimestamp := 0 |>
                                      <| jitter := of_Z 0 |> <| transit := 0 |> <| rs_clockReset := true |> |>
                    <| writeStats := (writeStats fork) <| ws_sampleRate := SampleRate newCodec |> |>)
  | _, _ => None
  end.

(** [close] also expires the RTCP conn's deadline: [Some now]. *)
Definition close (now : Z) (s : RTPSession) : RTPSession * Z := (s <| closed := true |>, now).

(** [conn] is what clearing the conn's deadline returned; the goroutines started
    are the caller's. *)
Definition startMonitor (conn : option error) (s : RTPSession) : RTPSession * option error :=
  if monitorRun s then (s, Some errRTPSessionMonitorStarted)
  else if closed s then (s, Some errRTPSessionClosed)
  else match conn with
  | Some e => (s, Some e)
  | None => (s <| monitorRun := true |>, None)
  end.

(** ** Reading *)

Definition sourceLockProtection (pkt : rtp_packet) (from : option UDPAddr) (s : RTPSession) : RTPSession * bool :=
  match from with
  | None => (s, false)
  | Some fromAddr =>
    match sourceLockAddr s with
    | Some a => (s, udpAddrEqual a fromAddr)
    | None =>
      let s := if (0 <? sourceLockPackets s) && negb (u16 (sourceLockSeq s + 1) =? SequenceNumber (Header pkt))
               then s <| sourceLockPackets := 0 |> else s in
      let s := s <| sourceLockSeq := SequenceNumber (Header pkt) |> in
      let s := s <| sourceLockPackets := sourceLockPackets s + 1 |> in
      if sourceLockPackets s <? 4 then (s, false)
      else (s <| sourceLockAddr := Some fromAddr |>, true)
    end
  end.

Definition find_codec (pt : Z) (codecs : list Codec) : option Codec := List.find (fun c => Codecs.PayloadType c =? pt) codecs.

Context (MarshalSize : rtp_header -> Z).

Definition count_packet (n : Z) (pkt : rtp_packet) (st : RTPReadStats) : RTPReadStats :=
  let h := Header pkt in
  let payloadSize := n - MarshalSize h - PaddingSize h in
  let st := st <| IntervalPacketsCount := u16 (IntervalPacketsCount st + 1) |> in
  let st := st <| PacketsCount := u64 (PacketsCount st + 1) |> in
  let st := st <| OctetCount := u64 (OctetCount st + u64 payloadSize) |> in
  let st := st <| LastSequenceNumber := SequenceNumber h |> in
  if IntervalFirstPktSeqNum st =? 0 then st <| IntervalFirstPktSeqNum := SequenceNumber h |> else st.

(** The statistics a packet that passed starts or goes on with: [None] when the
    session has no codecs, [Some None] when none has its payload type. *)
Definition update_stats (now : Z) (pkt : rtp_packet) (codecs : list Codec) (st : RTPReadStats) : option (option RTPReadStats) :=
  let h := Header pkt in
  if rs_SSRC st =? SSRC h then
    let st := st <| lastSeq := (UpdateSeq (SequenceNumber h) (lastSeq st)).1 |> in
    Some (Some
      (if rs_clockReset st then st <| firstRTPTime := now |> <| firstRTPTimestamp := Timestamp h |> <| transit := 0 |> <| rs_clockReset := false |>
       else if Marker h then st <| firstRTPTime := now |> <| firstRTPTimestamp := Timestamp h |>
       else calcJitter now (Timestamp h) st))
  else match codecs with
  | [] => None
  | first :: _ =>
    match (if Codecs.PayloadType first =? Rtp.PayloadType h then Some first else find_codec (Rtp.PayloadType h) codecs) with
    | None => Some None
    | Some codec =>
      Some (Some (readstats_zero <| rs_SSRC := SSRC h |> <| FirstPktSequenceNumber := SequenceNumber h |> <| rs_SampleRate := SampleRate codec |>
                    <| firstRTPTime := now |> <| firstRTPTimestamp := Timestamp h |> <| lastSeq := InitSeq (SequenceNumber h) seq_zero |>))
    end
  end.

Inductive rtp_read :=
| Delivered (n : Z) (pkt : rtp_packet)
| Unsupported (pkt : rtp_packet)
| Failed (n : Z) (e : error)
| ReadPanic.

Definition account (now n : Z) (pkt : rtp_packet) (s : RTPSession) : RTPSession * rtp_read :=
  match update_stats now pkt (activeCodecs (Sess s)) (readStats s) with
  | None => (s, ReadPanic)
  | Some None => (s, Unsupported pkt)
  | Some (Some st) => (s <| readStats := count_packet n pkt st |>, Delivered n pkt)
  end.

(** What the loop makes of one packet. *)
Definition accepts (pkt : rtp_packet) (from : option UDPAddr) (s : RTPSession) : RTPSession * bool :=
  if Version (Header pkt) =? 0 then (s, false)
  else if len (Payload pkt) =? 0 then (s, false)
  else if sourceLock s then sourceLockProtection pkt from s
  else (s, true).

(** The body of the loop on one read: [None] when it goes on. *)
Definition readStep (now : Z) (r : read_result) (s : RTPSession) : RTPSession * option rtp_read :=
  match rr_err r, rr_pkt r with
  | None, Some pkt =>
    let '(s, ok) := accepts pkt (rr_from r) s in
    if ok then let '(s, o) := account now (rr_n r) pkt s in (s, Some o) else (s, None)
  | e, _ => (s, Some (Failed (rr_n r) (default io_EOF e)))
  end.

(** [None] while the media session's reads given do not end the loop. *)
Fixpoint ReadRTP (now : Z) (reads : list read_result) (s : RTPSession) : option (RTPSession * rtp_read * list read_result) :=
  match reads with
  | [] => None
  | r :: reads =>
    match readStep now r s with
    | (s, Some o) => Some (s, o, reads)
    | (s, None) => ReadRTP now reads s
    end
  end.

(** ** Writing *)

(** [sent] is what the media session's [WriteRTP] returned. *)
Definition WriteRTP (now : Z) (pkt : rtp_packet) (sent : option error) (s : RTPSession) : RTPSession * option error :=
  match sent with
  | Some e => (s, Some e)
  | None =>
    let h := Header pkt in
    let count (w : RTPWriteStats) :=
      w <| ws_PacketsCount := u64 (ws_PacketsCount w + 1) |> <| ws_OctetCount := u64 (ws_OctetCount w + len (Payload pkt)) |>
        <| lastPacketTime := now |> <| lastPacketTimestamp := Timestamp h |> in
    if ws_SSRC (writeStats s) =? SSRC h then (s <| writeStats := count (writeStats s) |>, None)
    else match find_codec (Rtp.PayloadType h) (activeCodecs (Sess s)) with
    | None => (s, Some (ErrNew ("unknown media codec used for payload type=" +:+ GoStrings.Itoa (Rtp.PayloadType h))))
    | Some c => (s <| writeStats := count (writestats_zero <| ws_SSRC := SSRC h |> <| ws_sampleRate := SampleRate c |>) |>, None)
    end
  end.

(** ** RTCP in *)

Definition calcRTT (now lastSenderReport delaySenderReport : Z) : Z * bool :=
  let now32 := u32 (Z.shiftr (NTPTimestamp now) 16) in
  let rtt32 := u32 (u32 (now32 - lastSenderReport) - delaySenderReport) in
  let skewed := u32 (now32 - delaySenderReport) <? lastSenderReport in
  let secs := Z.shiftr (Z.land rtt32 4294901760) 16 in
  let fracs := fdiv (of_Z (Z.land rtt32 65535)) (of_Z 65356) in
  (i64 (i64 (secs * Second) + to_Z (fmul fracs (of_Z Second))), skewed).

Definition readReceptionReport (rr : ReceptionReport) (now : Z) (s : RTPSession) : RTPSession :=
  if negb (rr_SSRC rr =? ws_SSRC (writeStats s)) then s
  else
    let st := readStats s in
    let st := if LastSenderReport rr =? 0 then st else st <| RTT := (calcRTT now (LastSenderReport rr) (Delay rr)).1 |> in
    s <| readStats := st <| lastReceptionReportSeqNum := rr_LastSequenceNumber rr |> |>.

Definition readRTCPPacket (pkt : rtcp_packet) (now : Z) (s : RTPSession) : RTPSession :=
  match pkt with
  | SenderReport ssrc ntp _ _ _ reports =>
    let st := readStats s in
    let st := if rs_SSRC st =? 0 then st <| rs_SSRC := ssrc |> else st in
    let st := st <| lastSenderReportNTP := ntp |> <| lastSenderReportRecvTime := now |> in
    fold_left (fun s rr => readReceptionReport rr now s) reports (s <| readStats := st |>)
  | ReceiverReport _ reports => fold_left (fun s rr => readReceptionReport rr now s) reports s
  | OtherRTCP _ => s
  end.

(** The loop of [readRTCP] over what the media session reads; an error that is
    not a failure to parse ends it. *)
Fixpoint readRTCP (reads : list (Z * (list rtcp_packet + error))) (s : RTPSession) : RTPSession * option error :=
  match reads with
  | [] => (s, None)
  | (now, inl pkts) :: reads => readRTCP reads (fold_left (fun s p => readRTCPPacket p now s) pkts s)
  | (_, inr e) :: reads => if errors_Is e errRTCPFailedToUnmarshal then readRTCP reads s else (s, Some e)
  end.

(** ** RTCP out *)

Definition float_max (a b : float64) : float64 := if fltb a b then b else a.

Definition parseReceptionReport (now : Z) (s : RTPSession) : ReceptionReport :=
  let st := readStats s in
  let receivedLastSeq := i64 (ReadExtendedSeq (lastSeq st)) in
  let readIntervalExpectedPkts := i64 (receivedLastSeq - IntervalFirstPktSeqNum st) in
  let readIntervalLost := Z.max (i64 (readIntervalExpectedPkts - IntervalPacketsCount st)) 0 in
  let fractionLost := fdiv (of_Z readIntervalLost) (of_Z readIntervalExpectedPkts) in
  let expectedPkts := u64 (u64 receivedLastSeq - FirstPktSequenceNumber st) in
  let delay := if IsZero (lastSenderReportRecvTime st) then 0 else time_Sub now (lastSenderReportRecvTime st) in
  {| rr_SSRC := rs_SSRC st;
     FractionLost := u8 (to_Z (float_max (fmul fractionLost (of_Z 256)) (of_Z 0)));
     TotalLost := u32 (Z.min (u64 (expectedPkts - PacketsCount st)) (2 ^ 32));
     rr_LastSequenceNumber := LastSequenceNumber st;
     Jitter := u32 (to_Z (jitter st));
     LastSenderReport := u32 (Z.shiftr (lastSenderReportNTP st) 16);
     Delay := u32 (to_Z (fmul (Seconds delay) (of_Z 65356))) |}.

Definition parseSenderReport (now ssrc : Z) (s : RTPSession) : rtcp_packet :=
  let w := writeStats s in
  let offset := fmul (Seconds (time_Sub now (lastPacketTime w))) (of_Z (ws_sampleRate w)) in
  SenderReport ssrc (NTPTimestamp now) (u32 (lastPacketTimestamp w + u32 (to_Z offset)))
    (u32 (Z.min (ws_PacketsCount w) (2 ^ 32))) (u32 (Z.min (ws_OctetCount w) (2 ^ 32)))
    (if 0 <? rs_SSRC (readStats s) then [parseReceptionReport now s] else []).

Definition parseReceiverReport (now ssrc : Z) (s : RTPSession) : rtcp_packet := ReceiverReport ssrc [parseReceptionReport now s].

(** [writeRTCP] up to the media session's [WriteRTCP]: the report to send. *)
Definition writeRTCP (now : Z) (s : RTPSession) : RTPSession * option rtcp_packet :=
  let reset (s : RTPSession) := s <| readStats := (readStats s) <| IntervalFirstPktSeqNum := 0 |> <| IntervalPacketsCount := 0 |> |> in
  if String.eqb (Mode (Sess s)) ModeRecvonly then
    if rs_SSRC (readStats s) =? 0 then (s, None)
    else (reset s, Some (parseReceiverReport now (rs_SSRC (readStats s)) s))
  else if ws_SSRC (writeStats s) =? 0 then (s, None)
  else (reset s, Some (parseSenderReport now (ws_SSRC (writeStats s)) s)).

End Session.

End RtpSession.
