(* ===== verification/RtpSessionProps.v ===== *)
(** * The RTP session: theorems

    What the source lock lets through, and what the statistics and the reports
    made of them say about a stream. *)
From S2P Require Import Prelude GoStrings Float64 Rtp NetIP Sdp Codec Sequencer MediaSdp MediaSession MediaIO RtpSession.
Import Float64 Sequencer NetIP Sdp Codecs MediaSdp MediaSession MediaIO RtpSession.

Module RtpSessionProps.

Section Props.
Context {cert srtp_ctx : Type} (MarshalSize : rtp_header -> Z).
Abbreviation rtp_session := (@RTPSession cert srtp_ctx).

(** ** A reader that calls [ReadRTP] again and again

    Each read of the media session with the time it is accounted at, and what the
    calls return with the address [ReadRTPFromAddr] holds then. *)
Fixpoint run (reads : list (Z * read_result)) (s : rtp_session) : rtp_session * list (rtp_read * option UDPAddr) :=
  match reads with
  | [] => (s, [])
  | (now, r) :: reads =>
    let '(s, o) := readStep MarshalSize now r s in
    let '(s, out) := run reads s in
    (s, match o with Some o => (o, rr_from r) :: out | None => out end)
  end.

(** A call returns what the run returns first, and the run goes on from there. *)
Lemma ReadRTP_run now reads s : let all := run ((fun r => (now, r)) <$> reads) s in
  match ReadRTP MarshalSize now reads s with
  | None => all.2 = []
  | Some (s', o, rest) => let next := run ((fun r => (now, r)) <$> rest) s' in exists from, all = (next.1, (o, from) :: next.2)
  end.
Proof.
  revert s. induction reads as [|r reads IH]; intros s; [done|]. cbn [ReadRTP fmap list_fmap run].
  destruct (readStep MarshalSize now r s) as [s1 [o|]].
  - exists (rr_from r). by destruct (run _ s1).
  - specialize (IH s1). cbv zeta in *. unfold fmap in *. destruct (ReadRTP MarshalSize now reads s1) as [[[s' o] rest]|].
    + destruct IH as [from ->]. by exists from.
    + by destruct (run _ s1).
Qed.

(** ** The source lock *)

(** A packet the loop looks at, with where it came from. *)
Definition candidate (r : Z * read_result) : option (rtp_packet * UDPAddr) :=
  match rr_err r.2, rr_pkt r.2, rr_from r.2 with
  | None, Some p, Some a => if (Version (Header p) =? 0) || (len (Payload p) =? 0) then None else Some (p, a)
  | _, _, _ => None
  end.

(** A packet that was let through. *)
Definition passed (o : rtp_read * option UDPAddr) : option (rtp_packet * UDPAddr) :=
  match o with
  | (Delivered _ p, Some a) | (Unsupported p, Some a) => Some (p, a)
  | _ => None
  end.

Abbreviation seq p := (SequenceNumber (Header (p : rtp_packet * UDPAddr).1)).
Definition follows (p q : rtp_packet * UDPAddr) : bool := u16 (seq p + 1) =? seq q.

(** Where the lock falls: on the last of the first four packets in sequence. *)
Fixpoint lock_point (l : list (rtp_packet * UDPAddr)) : option (rtp_packet * UDPAddr * list (rtp_packet * UDPAddr)) :=
  match l with
  | p :: l' =>
    match l' with
    | q :: r :: t :: post => if follows p q && follows q r && follows r t then Some (t, post) else lock_point l'
    | _ => None
    end
  | [] => None
  end.

(** The learning state holds the end of the sequence it counts. *)
Definition learning (hist : list (rtp_packet * UDPAddr)) (s : rtp_session) : Prop :=
  sourceLockAddr s = None /\ sourceLockPackets s = Z.of_nat (length hist) /\
  match hist with
  | [] => True
  | [p] => sourceLockSeq s = seq p
  | [p; q] => follows p q = true /\ sourceLockSeq s = seq q
  | [p; q; r] => follows p q = true /\ follows q r = true /\ sourceLockSeq s = seq r
  | _ => False
  end.

Lemma lock_point_skip hist p l : (0 < length hist <= 3)%nat -> (forall h, last hist = Some h -> follows h p = false) ->
  lock_point (hist ++ p :: l) = lock_point (p :: l).
Proof.
  intros H3 Hl. destruct hist as [|a [|b [|c [|? ?]]]]; [cbn in *; lia| | | |cbn in *; lia]; cbn [last] in Hl; specialize (Hl _ eq_refl);
    destruct l as [|x [|y l]]; cbn [app lock_point]; rewrite ?Hl, ?andb_false_r; cbn [andb]; try done;
    destruct (follows p x); rewrite ?andb_false_r; done.
Qed.

(** One packet while the source is learned: it is the fourth in sequence and the
    lock falls on it, or the sequence counted goes on or starts again. *)
Lemma protect_learning pkt a hist s : learning hist s ->
  let '(s', ok) := sourceLockProtection pkt (Some a) s in
  sourceLock s' = sourceLock s /\ Sess s' = Sess s /\
  if ok then sourceLockAddr s' = Some a /\ forall l, lock_point (hist ++ (pkt, a) :: l) = Some ((pkt, a), l)
  else exists hist', learning hist' s' /\ forall l, lock_point (hist ++ (pkt, a) :: l) = lock_point (hist' ++ l).
Proof.
  intros (Ha & Hk & Hh). destruct s as [S mr rs ws cl sl k sq ad]. cbn in Ha, Hk, Hh. subst k ad. unfold sourceLockProtection. cbn [sourceLockAddr].
  assert (forall p, sq = seq p -> (u16 (sq + 1) =? SequenceNumber (Header pkt)) = follows p (pkt, a)) as Hf by (intros p ->; done).
  destruct hist as [|p [|q [|r [|? ?]]]]; [| | | |done]; cbn [length app sourceLockPackets sourceLockSeq].
  - cbn. split; [done|]. split; [done|]. exists [(pkt, a)]. split; [|done]. split; [done|]. split; [reflexivity|reflexivity].
  - rewrite (Hf p) by done. destruct (follows p (pkt, a)) eqn:E; cbn; (split; [done|]); (split; [done|]).
    + exists [p; (pkt, a)]. split; [|done]. repeat split; reflexivity || done.
    + exists [(pkt, a)]. split; [repeat split; reflexivity|]. intros l. apply (lock_point_skip [p]); [cbn; lia|]. by intros h [= <-].
  - destruct Hh as [Hpq Hs]. rewrite (Hf q) by done. destruct (follows q (pkt, a)) eqn:E; cbn; (split; [done|]); (split; [done|]).
    + exists [p; q; (pkt, a)]. split; [|done]. repeat split; reflexivity || done.
    + exists [(pkt, a)]. split; [repeat split; reflexivity|]. intros l. apply (lock_point_skip [p; q]); [cbn; lia|]. by intros h [= <-].
  - destruct Hh as (Hpq & Hqr & Hs). rewrite (Hf r) by done. destruct (follows r (pkt, a)) eqn:E; cbn; (split; [done|]); (split; [done|]).
    + split; [done|]. intros l. by rewrite Hpq, Hqr, E.
    + exists [(pkt, a)]. split; [repeat split; reflexivity|]. intros l. apply (lock_point_skip [p; q; r]); [cbn; lia|]. by intros h [= <-].
Qed.

(** Accounting leaves the lock alone and lets the packet through. *)
Lemma account_passed now n pkt a (s : rtp_session) : activeCodecs (Sess s) <> [] ->
  let '(s', o) := account MarshalSize now n pkt s in
  sourceLock s' = sourceLock s /\ Sess s' = Sess s /\ sourceLockAddr s' = sourceLockAddr s /\ passed (o, Some a) = Some (pkt, a).
Proof.
  intros Hc. unfold account, update_stats. destruct (rs_SSRC (readStats s) =? SSRC (Header pkt)); [done|].
  destruct (activeCodecs (Sess s)) as [|first codecs]; [done|].
  by destruct (if Codecs.PayloadType first =? Rtp.PayloadType (Header pkt) then Some first else find_codec (Rtp.PayloadType (Header pkt)) (first :: codecs)).
Qed.

(** Once locked, exactly the packets of that source pass. *)
Lemma run_locked reads s a : sourceLock s = true -> activeCodecs (Sess s) <> [] -> sourceLockAddr s = Some a ->
  let '(s', out) := run reads s in
  sourceLockAddr s' = Some a /\ omap passed out = List.filter (fun x => udpAddrEqual a x.2) (omap candidate reads).
Proof.
  revert s. induction reads as [|[now r] reads IH]; intros s Hl Hc Ha; [done|]. cbn [run omap list_omap].
  unfold readStep, candidate at 1. cbn [snd].
  destruct (rr_err r) as [e|]; [|destruct (rr_pkt r) as [pkt|]].
  1,3: specialize (IH s Hl Hc Ha); unfold omap in *; destruct (run reads s) as [s' out]; by destruct IH as [H1 H2].
  unfold accepts. rewrite Hl. destruct (Version (Header pkt) =? 0); [|destruct (len (Payload pkt) =? 0)]; cbn [orb].
  1,2: specialize (IH s Hl Hc Ha); unfold omap in *; destruct (run reads s) as [s' out]; by destruct (rr_from r).
  unfold sourceLockProtection. destruct (rr_from r) as [b|].
  2: specialize (IH s Hl Hc Ha); unfold omap in *; by destruct (run reads s) as [s' out].
  rewrite Ha. cbn [List.filter snd]. destruct (udpAddrEqual a b).
  - pose proof (account_passed now (rr_n r) pkt b s Hc) as HA. destruct (account MarshalSize now (rr_n r) pkt s) as [s1 o].
    destruct HA as (A1 & A2 & A3 & A4). specialize (IH s1 ltac:(by rewrite A1) ltac:(by rewrite A2) ltac:(by rewrite A3)).
    unfold omap in *. destruct (run reads s1) as [s' out]. destruct IH as [I1 I2]. split; [done|]. cbn [list_omap]. by rewrite A4, I2.
  - specialize (IH s Hl Hc Ha). unfold omap in *. by destruct (run reads s) as [s' out].
Qed.

(** While it is learned nothing passes until the lock falls. *)
Lemma run_learning reads hist s : sourceLock s = true -> activeCodecs (Sess s) <> [] -> learning hist s ->
  let '(s', out) := run reads s in
  match lock_point (hist ++ omap candidate reads) with
  | None => omap passed out = [] /\ sourceLockAddr s' = None
  | Some (p, post) => omap passed out = p :: List.filter (fun x => udpAddrEqual p.2 x.2) post /\ sourceLockAddr s' = Some p.2
  end.
Proof.
  revert hist s. induction reads as [|[now r] reads IH]; intros hist s Hl Hc HL.
  - cbn. destruct HL as (Ha & _ & Hh). rewrite app_nil_r. by destruct hist as [|p [|q [|t [|? ?]]]].
  - cbn [run omap list_omap]. unfold readStep, candidate at 1. cbn [snd].
    destruct (rr_err r) as [e|]; [|destruct (rr_pkt r) as [pkt|]].
    1,3: specialize (IH hist s Hl Hc HL); unfold omap in *; destruct (run reads s) as [s' out]; done.
    unfold accepts. rewrite Hl. destruct (Version (Header pkt) =? 0); [|destruct (len (Payload pkt) =? 0)]; cbn [orb].
    1,2: specialize (IH hist s Hl Hc HL); unfold omap in *; destruct (run reads s) as [s' out]; by destruct (rr_from r).
    destruct (rr_from r) as [a|].
    2: specialize (IH hist s Hl Hc HL); unfold omap in *; cbn [sourceLockProtection]; by destruct (run reads s) as [s' out].
    pose proof (protect_learning pkt a hist s HL) as HP. destruct (sourceLockProtection pkt (Some a) s) as [s1 []].
    + destruct HP as (P1 & P2 & P3 & P4). pose proof (account_passed now (rr_n r) pkt a s1 ltac:(by rewrite P2)) as HA.
      destruct (account MarshalSize now (rr_n r) pkt s1) as [s2 o]. destruct HA as (A1 & A2 & A3 & A4).
      pose proof (run_locked reads s2 a ltac:(congruence) ltac:(congruence) ltac:(congruence)) as HR.
      unfold omap in *. destruct (run reads s2) as [s' out]. rewrite P4. destruct HR as [R1 R2]. cbn [list_omap]. by rewrite A4, R2.
    + destruct HP as (P1 & P2 & hist' & P3 & P4). rewrite P4. specialize (IH hist' s1 ltac:(congruence) ltac:(congruence) P3).
      unfold omap in *. by destruct (run reads s1).
Qed.

(** C32. With the source lock on, a new session lets no packet through until four
    packets have come with consecutive sequence numbers; the source of the fourth
    becomes the session's for good, and from then on exactly the packets of that
    source are let through, in order, each of them. (The four may come from
    different sources: their addresses are not compared.) *)
Theorem source_lock_admits_one_source reads (s : rtp_session) : sourceLock s = true -> activeCodecs (Sess s) <> [] ->
  sourceLockAddr s = None -> sourceLockPackets s = 0 ->
  let '(s', out) := run reads s in
  match lock_point (omap candidate reads) with
  | None => omap passed out = [] /\ sourceLockAddr s' = None
  | Some (p, post) => omap passed out = p :: List.filter (fun x => udpAddrEqual p.2 x.2) post /\ sourceLockAddr s' = Some p.2
  end.
Proof. intros Hl Hc Ha Hp. by apply (run_learning reads []). Qed.

(** ** The statistics of a stream *)

(** A read of the packet with index [e] of stream [ssrc]. *)
Definition of_stream (ssrc pt : Z) (e : Z) (r : Z * read_result) : Prop :=
  rr_err r.2 = None /\ exists p, rr_pkt r.2 = Some p /\ Version (Header p) <> 0 /\ Payload p <> [] /\
    SSRC (Header p) = ssrc /\ Rtp.PayloadType (Header p) = pt /\ seq (p, addr_zero) = u16 e /\
    rr_n r.2 = MarshalSize (Header p) + len (Payload p) + PaddingSize (Header p).

Definition octets (r : Z * read_result) : Z := match rr_pkt r.2 with Some p => len (Payload p) | None => 0 end.

Fixpoint total_octets (rs : list (Z * read_result)) : Z := match rs with [] => 0 | r :: rs => octets r + total_octets rs end.

(** What the statistics say after [N] packets of [B] octets, the first of index
    [e0], the highest of index [H]. *)
Record counted (ssrc e0 H N B : Z) (st : RTPReadStats) : Prop := {
  cn_ssrc : rs_SSRC st = ssrc;
  cn_first : FirstPktSequenceNumber st = e0;
  cn_seq : tracks (lastSeq st) H;
  cn_packets : PacketsCount st = u64 N;
  cn_octets : OctetCount st = u64 B }.

Lemma len_nonempty (l : bytes) : l <> [] -> (len l =? 0) = false.
Proof. destruct l as [|x l]; [done|]. rewrite len_cons. pose proof (len_nonneg l). lia. Qed.

Lemma u64_add a b : u64 (u64 a + b) = u64 (a + b).
Proof. unfold u64. by rewrite Zplus_mod_idemp_l. Qed.
Lemma u64_add_r a b : u64 (a + u64 b) = u64 (a + b).
Proof. unfold u64. by rewrite Zplus_mod_idemp_r. Qed.

Lemma count_packet_counted ssrc e0 H N B n pkt st : counted ssrc e0 H N B st -> n = MarshalSize (Header pkt) + len (Payload pkt) + PaddingSize (Header pkt) ->
  counted ssrc e0 H (N + 1) (B + len (Payload pkt)) (count_packet MarshalSize n pkt st) /\
  LastSequenceNumber (count_packet MarshalSize n pkt st) = SequenceNumber (Header pkt).
Proof.
  intros [C1 C2 C3 C4 C5] ->. unfold count_packet. split.
  - split; (destruct (IntervalFirstPktSeqNum _ =? 0); cbn; [try done..]).
    all: rewrite ?C4, ?C5, ?u64_add, ?u64_add_r; f_equal; lia.
  - by destruct (IntervalFirstPktSeqNum _ =? 0).
Qed.

(** A packet of a stream the session counts is delivered and counted. *)
Lemma step_counted ssrc pt e0 H N B e r (s : rtp_session) : sourceLock s = false -> counted ssrc e0 H N B (readStats s) ->
  of_stream ssrc pt e r -> H - maxMisorder <= e < H + maxDropout ->
  exists s', readStep MarshalSize r.1 r.2 s = (s', Some (Delivered (rr_n r.2) (default rtp_packet_zero (rr_pkt r.2)))) /\
    sourceLock s' = false /\ Sess s' = Sess s /\
    counted ssrc e0 (Z.max H e) (N + 1) (B + octets r) (readStats s') /\ LastSequenceNumber (readStats s') = u16 e.
Proof.
  intros Hl HC (He & p & Hp & Hv & Hpl & Hs & Hpt & Hq & Hn) Hj. cbn [fst] in Hq.
  unfold readStep, accepts, octets. rewrite He, Hp, Hl. apply Z.eqb_neq in Hv as ->.
  rewrite len_nonempty by done.
  unfold account, update_stats. rewrite (cn_ssrc _ _ _ _ _ _ HC), Hs, Z.eqb_refl. cbn [default].
  set (st0 := readStats s <| lastSeq := _ |>).
  assert (counted ssrc e0 (Z.max H e) N B st0) as C0.
  { destruct HC as [C1 C2 C3 C4 C5]. split; try done. unfold st0. cbn [lastSeq field_update eta_readstats]. rewrite Hq.
    destruct (Z_lt_le_dec e H).
    - rewrite (UpdateSeq_behind _ H e C3) by lia. cbn. by rewrite Z.max_l by lia.
    - destruct (UpdateSeq_ahead _ H e C3) as (sn' & -> & HT'); [lia|]. cbn. by rewrite Z.max_r by lia. }
  set (st1 := if rs_clockReset st0 then _ else _).
  assert (counted ssrc e0 (Z.max H e) N B st1) as C1.
  { unfold st1. destruct C0 as [D1 D2 D3 D4 D5]. destruct (rs_clockReset st0); [by split|]. destruct (Marker (Header p)); by split. }
  clearbody st1. destruct (count_packet_counted _ _ _ _ _ (rr_n r.2) p st1 C1 Hn) as [C2 C3].
  eexists. split; [reflexivity|]. split; [done|]. split; [done|]. split; [exact C2|]. cbn. rewrite C3. exact Hq.
Qed.

(** The first packet starts the statistics. *)
Lemma step_first ssrc pt e r (s : rtp_session) : sourceLock s = false -> rs_SSRC (readStats s) <> ssrc -> 0 <= e < 2 ^ 16 ->
  (exists c, c ∈ activeCodecs (Sess s) /\ Codecs.PayloadType c = pt) -> of_stream ssrc pt e r ->
  exists s', readStep MarshalSize r.1 r.2 s = (s', Some (Delivered (rr_n r.2) (default rtp_packet_zero (rr_pkt r.2)))) /\
    sourceLock s' = false /\ Sess s' = Sess s /\ counted ssrc e e 1 (octets r) (readStats s') /\ LastSequenceNumber (readStats s') = u16 e.
Proof.
  intros Hl Hne Hr (c & Hc & Hcp) (He & p & Hp & Hv & Hpl & Hs & Hpt & Hq & Hn). cbn [fst] in Hq.
  unfold readStep, accepts, octets. rewrite He, Hp, Hl. apply Z.eqb_neq in Hv as ->.
  rewrite len_nonempty by done.
  unfold account, update_stats. rewrite Hs. apply Z.eqb_neq in Hne as ->. cbn [default].
  destruct (activeCodecs (Sess s)) as [|first codecs] eqn:Ec; [by apply elem_of_nil in Hc|].
  assert (exists c', (if Codecs.PayloadType first =? Rtp.PayloadType (Header p) then Some first
            else find_codec (Rtp.PayloadType (Header p)) (first :: codecs)) = Some c') as [c' ->].
  { destruct (Z.eqb_spec (Codecs.PayloadType first) (Rtp.PayloadType (Header p))); [by eexists|]. unfold find_codec.
    destruct (List.find _ _) as [x|] eqn:Ef; [by eexists|]. exfalso.
    apply list_elem_of_In in Hc. apply (List.find_none _ _ Ef) in Hc. lia. }
  set (st0 := readstats_zero <| rs_SSRC := _ |> <| FirstPktSequenceNumber := _ |> <| rs_SampleRate := _ |> <| firstRTPTime := _ |> <| firstRTPTimestamp := _ |> <| lastSeq := _ |>).
  assert (counted ssrc e e 0 0 st0) as C0.
  { assert (SequenceNumber (Header p) = e) as Hqe by (rewrite Hq; apply u16_small; lia).
    split; try done. unfold st0. cbn. rewrite Hqe. by apply InitSeq_tracks. }
  clearbody st0. destruct (count_packet_counted _ _ _ _ _ (rr_n r.2) p st0 C0 Hn) as [C2 C3].
  eexists. split; [reflexivity|]. split; [done|]. split; [done|]. split; [exact C2|]. cbn. rewrite C3. exact Hq.
Qed.

Lemma fold_max_ge es e : e <= fold_left Z.max es e.
Proof. revert e. induction es as [|x es IH]; intros e; cbn; [lia|]. specialize (IH (Z.max e x)). lia. Qed.

Lemma run_counted ssrc pt es rs e0 H N B (s : rtp_session) : Forall2 (of_stream ssrc pt) es rs -> sourceLock s = false ->
  counted ssrc e0 H N B (readStats s) -> bounded_jitter H es ->
  let '(s', out) := run rs s in
  counted ssrc e0 (fold_left Z.max es H) (N + len es) (B + total_octets rs) (readStats s') /\
  LastSequenceNumber (readStats s') = default (LastSequenceNumber (readStats s)) (u16 <$> last es) /\
  out.*1 = (fun r => Delivered (rr_n r.2) (default rtp_packet_zero (rr_pkt r.2))) <$> rs.
Proof.
  intros HF. revert H N B s. induction HF as [|e r es rs Hr HF IH]; intros H N B s Hl HC HJ.
  - cbn. rewrite !Z.add_0_r. done.
  - destruct HJ as [Hj HJ]. destruct (step_counted ssrc pt e0 H N B e r s Hl HC Hr Hj) as (s1 & E & S1 & S2 & S3 & S4).
    destruct r as [now r]. cbn [fst snd] in E, S3. cbn [run]. rewrite E.
    specialize (IH _ _ _ s1 S1 S3 HJ). destruct (run rs s1) as [s' out]. destruct IH as (I1 & I2 & I3).
    split; [|split].
    + cbn [fold_left total_octets]. rewrite len_cons, !Z.add_assoc. exact I1.
    + rewrite I2, S4. destruct es as [|e' es]; [done|]. change (last (e :: e' :: es)) with (last (e' :: es)). destruct (last (e' :: es)) eqn:El; [done|by apply last_None in El].
    + unfold fmap in *. cbn. by f_equal.
Qed.

(** A stream of one source read by a session without source lock, reordered,
    repeated and lossy within the bounds of the sequence tracker, is delivered
    whole, and its statistics and the reception report made of them are exact:
    all packets and payload octets are counted, the last sequence number is the
    last packet's, and the cumulative loss is the number of packets between the
    first and the highest one that were not received, saturated at zero — less
    one whenever a packet was lost, since the first packet is not counted among
    the expected ones. *)
Theorem reception_report_counts ssrc pt e0 es r rs now (s : rtp_session) : Forall2 (of_stream ssrc pt) (e0 :: es) (r :: rs) -> sourceLock s = false ->
  rs_SSRC (readStats s) <> ssrc -> (exists c, c ∈ activeCodecs (Sess s) /\ Codecs.PayloadType c = pt) ->
  0 <= e0 < 2 ^ 16 -> bounded_jitter e0 es -> fold_left Z.max es e0 < 2 ^ 32 -> len es < 2 ^ 32 ->
  let '(s', out) := run (r :: rs) s in
  let highest := fold_left Z.max es e0 in
  let lost := highest - e0 + 1 - len (e0 :: es) in
  let report := parseReceptionReport now s' in
  PacketsCount (readStats s') = len (e0 :: es) /\ OctetCount (readStats s') = u64 (octets r + total_octets rs) /\
  rr_SSRC report = ssrc /\ Some (rr_LastSequenceNumber report) = u16 <$> last (e0 :: es) /\ TotalLost report = Z.max 0 (lost - 1) /\
  out.*1 = (fun r => Delivered (rr_n r.2) (default rtp_packet_zero (rr_pkt r.2))) <$> r :: rs.
Proof.
  intros HF Hl Hne Hc He HJ Hhi Hlen. inversion HF as [|? ? ? ? Hr HF']; subst.
  destruct (step_first ssrc pt e0 r s Hl Hne He Hc Hr) as (s1 & E & S1 & S2 & S3 & S4). destruct r as [t r]. cbn [fst snd] in E. cbn [run]. rewrite E.
  pose proof (run_counted ssrc pt es rs e0 e0 1 _ s1 HF' S1 S3 HJ) as HR. destruct (run rs s1) as [s' out].
  destruct HR as ([C1 C2 C3 C4 C5] & C6 & C7). cbv zeta. rewrite len_cons. pose proof (len_nonneg es).
  assert (e0 <= fold_left Z.max es e0) as Hge by (apply fold_max_ge).
  split; [rewrite C4; apply u64_small; lia|]. split; [done|]. split; [done|]. split; [|split].
  - cbn. rewrite C6, S4. destruct es as [|e' es]; [done|]. change (last (e0 :: e' :: es)) with (last (e' :: es)).
    destruct (last (e' :: es)) eqn:El; [done|]. by apply last_None in El.
  - cbn. rewrite C2, C4, (tracks_read _ _ C3), (u32_small (fold_left Z.max es e0)) by lia. rewrite (i64_small (fold_left _ _ _)) by lia.
    set (H' := fold_left Z.max es e0) in *. destruct (Z_lt_le_dec (H' - e0) (1 + len es)).
    + wrap_unfold. lia.
    + wrap_unfold. lia.
  - unfold fmap in *. cbn. by f_equal.
Qed.

End Props.

(** ** Concrete sessions *)

Definition ex_size (h : rtp_header) : Z := 12.
Definition ex_sess : @MediaSession.MediaSession unit unit :=
  session_zero {| Certificates := []; SDPSetupRole := None |} <| ms_Codecs := [CodecAudioUlaw] |> <| Mode := ModeSendrecv |>.
Definition ex_rtp (lock : bool) : @RTPSession unit unit := NewRTPSession lock ex_sess.
Definition ex_from (k : Z) : UDPAddr := {| ua_IP := Some [10; 0; 0; k]; ua_Port := 4000; ua_Zone := EmptyString |}.
Definition ex_pkt (q : Z) : rtp_packet :=
  {| Header := rtp_header_zero <| Version := 2 |> <| SequenceNumber := q |> <| Timestamp := 160 * q |> <| SSRC := 7 |>; Payload := [1; 2; 3] |}.
(** Packet [q] from host [k]. *)
Definition ex_read (q k : Z) : Z * read_result :=
  (20 * Millisecond * q, {| rr_n := 15; rr_pkt := Some (ex_pkt q); rr_from := Some (ex_from k); rr_err := None |}).

(** Three packets of one host and a fourth of another: the other is locked on to,
    and the first host's next packet is refused. *)
Lemma source_lock_admits_one_source_witness :
  let out := omap passed (run ex_size [ex_read 8 1; ex_read 10 1; ex_read 11 1; ex_read 12 1; ex_read 13 2; ex_read 14 1; ex_read 15 2] (ex_rtp true)).2 in
  out = [(ex_pkt 13, ex_from 2); (ex_pkt 15, ex_from 2)].
Proof.
  pose proof (source_lock_admits_one_source ex_size [ex_read 8 1; ex_read 10 1; ex_read 11 1; ex_read 12 1; ex_read 13 2; ex_read 14 1; ex_read 15 2] (ex_rtp true)
    eq_refl ltac:(discriminate) eq_refl eq_refl) as H.
  destruct (run ex_size _ _) as [s' out]. cbn [snd]. destruct H as [H _]. rewrite H. vm_compute. reflexivity.
Defined.

Lemma ex_of_stream q k : 0 <= q < 2 ^ 16 -> of_stream ex_size 7 0 q (ex_read q k).
Proof. intros H. split; [done|]. exists (ex_pkt q). repeat split; try done. cbn. by rewrite u16_small. Qed.

(** Of the packets 10 to 15, 11, 12 and 14 are lost and 13 is repeated: a loss of
    two, and the report says one. *)
Lemma reception_report_counts_witness :
  let s' := (run ex_size [ex_read 10 1; ex_read 13 1; ex_read 13 1; ex_read 15 1] (ex_rtp false)).1 in
  PacketsCount (readStats s') = 4 /\ TotalLost (parseReceptionReport (9 * Second) s') = 1.
Proof.
  pose proof (reception_report_counts ex_size 7 0 10 [13; 13; 15] (ex_read 10 1) [ex_read 13 1; ex_read 13 1; ex_read 15 1] (9 * Second) (ex_rtp false)
    ltac:(repeat constructor; apply ex_of_stream; lia) eq_refl ltac:(discriminate) ltac:(exists CodecAudioUlaw; split; [left|reflexivity])
    ltac:(lia) ltac:(cbn; unfold maxMisorder, maxDropout; lia) ltac:(cbn; lia) ltac:(vm_compute; reflexivity)) as H.
  destruct (run ex_size _ _) as [s' out]. cbn [fst]. destruct H as (H1 & _ & _ & _ & H2 & _). split; [exact H1|]. rewrite H2. vm_compute. reflexivity.
Defined.

(** Nothing is lost of a stream that wraps in its second reporting interval, and
    the report of that interval says that 255 of 256 packets were. *)
Theorem fraction_lost_after_wrap :
  let s1 := (run ex_size [ex_read 65533 1; ex_read 65534 1] (ex_rtp false)).1 in
  let s2 := (writeRTCP (5 * Second) (s1 <| writeStats := (writeStats s1) <| ws_SSRC := 9 |> |>)).1 in
  let s3 := (run ex_size [ex_read 65535 1; ex_read 0 1; ex_read 1 1; ex_read 2 1] s2).1 in
  let s4 := (writeRTCP (10 * Second) s3).1 in
  let s5 := (run ex_size [ex_read 3 1; ex_read 4 1; ex_read 5 1] s4).1 in
  TotalLost (parseReceptionReport (15 * Second) s5) = 0 /\ FractionLost (parseReceptionReport (15 * Second) s5) = 255.
Proof. vm_compute. split; reflexivity. Qed.

End RtpSessionProps.
