(* ===== verification/Pcm.v ===== *)
(** * Mixing PCM audio

    [PCMMix] and [PCMUnmix] of [audio/utils.go] and [unmixStream] of [bridge.go]:
    16 bit little-endian samples added to and subtracted from each other with
    saturation. A buffer is the list of its bytes; [None] is the panic of a read
    or write past a buffer's end. *)
From S2P Require Import Prelude.

Module Pcm.

(** ** Samples *)

Definition byte_ok (b : Z) : Prop := 0 <= b < 2 ^ 8.

(** [int16(binary.LittleEndian.Uint16(b))] and [PutUint16(b, uint16(v))]. *)
Definition sample (lo hi : Z) : Z := i16 (lo + 2 ^ 8 * hi).
Definition low (v : Z) : Z := u8 (u16 v).
Definition high (v : Z) : Z := u8 (Z.shiftr (u16 v) 8).

Fixpoint samples (b : bytes) : list Z :=
  match b with
  | lo :: hi :: b => sample lo hi :: samples b
  | _ => []
  end.

Definition clip (v : Z) : Z := if 32767 <? v then 32767 else if v <? -32768 then -32768 else i16 v.

(** ** The operations *)

Fixpoint pcm_apply (op : Z -> Z -> Z) (dstBuf mixedBuf readBuf : bytes) {struct readBuf} : option bytes :=
  match readBuf with
  | [] => Some dstBuf
  | [_] => None
  | r0 :: r1 :: readBuf =>
    match mixedBuf, dstBuf with
    | m0 :: m1 :: mixedBuf, _ :: _ :: dstBuf =>
      let mixed := clip (op (sample m0 m1) (sample r0 r1)) in
      (fun rest => low mixed :: high mixed :: rest) <$> pcm_apply op dstBuf mixedBuf readBuf
    | _, _ => None
    end
  end.

Definition PCMMix (dstBuf mixedBuf readBuf : bytes) : option (bytes * Z) :=
  (fun dst => (dst, len readBuf)) <$> pcm_apply Z.add dstBuf mixedBuf readBuf.
Definition PCMUnmix (dstBuf mixedBuf readBuf : bytes) : option bytes := pcm_apply Z.sub dstBuf mixedBuf readBuf.

(** [buf] is the whole backing array and [n] the length of the frame read into
    it; the result is written over it. *)
Definition unmixStream (buf : bytes) (n : nat) (mixedBuf : bytes) : option bytes :=
  let k := length mixedBuf in
  if Nat.ltb (length buf) k then None
  else if Nat.ltb k n then None
  else match PCMUnmix (take k buf) mixedBuf (take n buf) with
  | None => None
  | Some heard => Some (take n heard ++ drop n mixedBuf)
  end.

(** ** Lemmas *)

Lemma clip_range v : -32768 <= clip v <= 32767.
Proof. unfold clip. destruct (Z.ltb_spec 32767 v), (Z.ltb_spec v (-32768)); try lia. unfold i16. lia. Qed.
Lemma clip_exact v : -32768 <= v <= 32767 -> clip v = v.
Proof. intros H. unfold clip. destruct (Z.ltb_spec 32767 v), (Z.ltb_spec v (-32768)); try lia. wrap_lia. Qed.

Lemma sample_range lo hi : -32768 <= sample lo hi <= 32767.
Proof. unfold sample, i16. lia. Qed.
Lemma sample_low_high v : -32768 <= v <= 32767 -> sample (low v) (high v) = v.
Proof. intros H. unfold sample, low, high. rewrite Z.shiftr_div_pow2 by lia. wrap_lia. Qed.
Lemma low_ok v : byte_ok (low v).
Proof. unfold byte_ok, low. wrap_lia. Qed.
Lemma high_ok v : byte_ok (high v).
Proof. unfold byte_ok, high. wrap_lia. Qed.

Lemma list_ind2 {A} (P : list A -> Prop) : P [] -> (forall x, P [x]) -> (forall x y l, P l -> P (x :: y :: l)) -> forall l, P l.
Proof.
  intros H0 H1 H2. assert (forall l, P l /\ forall x, P (x :: l)) as H; [|intros l; apply H].
  induction l as [|y l [IH1 IH2]]; split; auto.
Qed.

(** Even buffers. *)
Definition even (b : bytes) : Prop := Nat.Even (length b).
Lemma even_cons2 x y (b : bytes) : even (x :: y :: b) <-> even b.
Proof. unfold even. cbn. split; intros [k Hk]; [exists (k - 1)%nat|exists (S k)]; lia. Qed.
Lemma not_even_one (x : Z) : ~ even [x].
Proof. intros [k Hk]. cbn in Hk. lia. Qed.

Lemma samples_length b : length (samples b) = Nat.div2 (length b).
Proof. induction b as [| |x y b IH] using list_ind2; cbn; [done|done|]. by rewrite IH. Qed.

(** What is written where: the first [len readBuf] bytes hold the clipped
    results, the rest of the destination is as it was. *)
Lemma pcm_apply_spec op dst mixed read : even read -> (length read <= length mixed)%nat -> (length read <= length dst)%nat ->
  exists out, pcm_apply op dst mixed read = Some out /\ length out = length dst /\ drop (length read) out = drop (length read) dst /\
    samples (take (length read) out) = zip_with (fun m r => clip (op m r)) (samples mixed) (samples read).
Proof.
  revert dst mixed. induction read as [|x|r0 r1 read IH] using list_ind2; intros dst mixed He Hm Hd.
  - exists dst. split; [done|]. split; [done|]. split; [done|]. cbn. by destruct (samples mixed).
  - by apply not_even_one in He.
  - destruct mixed as [|m0 [|m1 mixed]]; [cbn in Hm; lia..|]. destruct dst as [|d0 [|d1 dst]]; [cbn in Hd; lia..|].
    cbn in Hm, Hd. destruct (IH dst mixed) as (out & E & L & D & S); [by apply even_cons2 in He|lia|lia|].
    eexists. cbn [pcm_apply]. rewrite E. split; [reflexivity|]. split; [cbn; by rewrite L|]. split; [exact D|].
    cbn [length take samples zip_with]. rewrite S. f_equal. apply sample_low_high, clip_range.
Qed.

Lemma PCMMix_spec mixed read : even read -> (length read <= length mixed)%nat ->
  exists out, PCMMix mixed mixed read = Some (out, len read) /\ length out = length mixed /\ drop (length read) out = drop (length read) mixed /\
    samples (take (length read) out) = zip_with (fun m r => clip (m + r)) (samples mixed) (samples read).
Proof.
  intros He Hl. destruct (pcm_apply_spec Z.add mixed mixed read He Hl Hl) as (out & E & H). exists out. unfold PCMMix. by rewrite E.
Qed.

Lemma samples_take_drop b n : Nat.Even n -> samples (take n b) ++ samples (drop n b) = samples b.
Proof.
  revert n. induction b as [|x|x y b IH] using list_ind2; intros n Hn.
  - by rewrite take_nil, drop_nil.
  - destruct n as [|[|n]]; [done|destruct Hn as [k Hk]; lia|done].
  - destruct n as [|[|n]]; [done|destruct Hn as [k Hk]; lia|]. cbn [take drop samples]. cbn. f_equal. apply IH. destruct Hn as [k Hk]. exists (k - 1)%nat. lia.
Qed.

Lemma samples_app a b : even a -> samples (a ++ b) = samples a ++ samples b.
Proof.
  intros H. rewrite <- (samples_take_drop (a ++ b) (length a) H), take_app_length, drop_app_length. done.
Qed.

(** Sample [j] of a buffer, silence past its end. *)
Definition at_sample (b : bytes) (j : nat) : Z := nth j (samples b) 0.

Lemma at_sample_take b n j : Nat.Even n -> at_sample (take n b) j = if (2 * j <? n)%nat then at_sample b j else 0.
Proof.
  intros Hn. unfold at_sample. rewrite <- (samples_take_drop b n Hn). destruct (Nat.ltb_spec (2 * j) n) as [H|H].
  - destruct (Nat.le_gt_cases (length b) n).
    + by rewrite (drop_ge b n), app_nil_r by lia.
    + rewrite List.app_nth1; [done|]. rewrite samples_length, length_take, Nat.min_l by lia. destruct Hn as [k ->]. rewrite Nat.div2_double. lia.
  - apply nth_overflow. rewrite samples_length, length_take. pose proof (Nat.div2_div (Nat.min n (length b))). destruct Hn as [k ->].
    transitivity (Nat.div2 (2 * k)); [apply Nat.div2_le_mono; lia|]. rewrite Nat.div2_double. lia.
Qed.

End Pcm.
