(* ===== verification/MixLoop.v ===== *)
(** * The mix of a conference bridge

    The mixing loop of [BridgeMix] in [bridge.go]: [mixAllStreams] in both its
    ways of reading, the broadcast of each round and [mixLoop]. A stream's reader,
    its pipe and its writer are arguments: what each gives in a round. [None] is a
    panic. The loop's ticker and the pacing of the writers are left out. *)
From S2P Require Import Prelude Pcm.
Import Pcm.

Module MixLoop.

Definition RTPBufSize : nat := 1500.

Record bridgePCMStream := { id : Z; buf : bytes; n : nat; markGone : bool }.
#[export] Instance eta_stream : Eta bridgePCMStream := fun s => {| id := id s; buf := buf s; n := n s; markGone := markGone s |}.

Definition new_stream (i : Z) : bridgePCMStream := {| id := i; buf := replicate RTPBufSize 0; n := 0; markGone := false |}.

(** [copy(dst, src)]: the buffer after and the count. *)
Definition go_copy (dst src : bytes) : bytes * nat :=
  let k := Nat.min (length dst) (length src) in (take k src ++ drop k dst, k).

Definition errGone : error := ErrNew "all streams are gones".
Definition errStopped : error := ErrNew "reading is stopped".

(** What the streams before add up to: the streams handled, the mix and the
    longest frame. *)
Record acc := { handled : Z; mixedBuf : bytes; maxN : Z }.
#[export] Instance eta_acc : Eta acc := fun a => {| handled := handled a; mixedBuf := mixedBuf a; maxN := maxN a |}.

(** Mixing the first [k] bytes of a stream's buffer in. *)
Definition mix_in (s : bridgePCMStream) (k : nat) (a : acc) : option (bridgePCMStream * acc) :=
  let s := s <| n := k |> in
  match PCMMix (mixedBuf a) (mixedBuf a) (take k (buf s)) with
  | None => None
  | Some (mixed, mixN) => Some (s, a <| mixedBuf := mixed |> <| maxN := Z.max (maxN a) mixN |>)
  end.

(** ** Reading through pipes *)

(** What the pipe of a stream's reader holds at its turn. *)
Inductive piped := Frame (bw : bytes) | NoFrame | PipeClosed.

Definition poll_stream (s : bridgePCMStream) (p : piped) (a : acc) : option (bridgePCMStream * acc) :=
  if markGone s then Some (s, a <| handled := handled a - 1 |>)
  else
    let s := s <| n := 0%nat |> in
    match p with
    | PipeClosed => Some (s <| markGone := true |>, a)
    | Frame bw => let '(b, k) := go_copy (buf s) bw in mix_in (s <| buf := b |>) k a
    | NoFrame => Some (s, a)
    end.

(** Running a stream's turn for each of them. *)
Fixpoint each {R} (turn : bridgePCMStream -> R -> acc -> option (bridgePCMStream * acc)) (ss : list bridgePCMStream) (rs : list R) (a : acc) :
    option (list bridgePCMStream * acc) :=
  match ss, rs with
  | s :: ss, r :: rs =>
    match turn s r a with
    | None => None
    | Some (s, a) => match each turn ss rs a with None => None | Some (ss, a) => Some (s :: ss, a) end
    end
  | _, _ => Some (ss, a)
  end.

Definition mix_start (ss : list bridgePCMStream) : acc := {| handled := len ss; mixedBuf := replicate RTPBufSize 0; maxN := 0 |}.

(** [state] is the bridge's [mixState] as [stateRead] sees it. *)
Definition mixAllStreams_poll (ss : list bridgePCMStream) (ps : list piped) (state : Z) : option (list bridgePCMStream * acc * option error) :=
  match each poll_stream ss ps (mix_start ss) with
  | None => None
  | Some (ss', a) =>
    Some (ss', a, if handled a =? 0 then Some errGone
                  else if ((handled a <? len ss) || (maxN a =? 0)) && negb (state =? 1) then Some errStopped else None)
  end.

(** ** Reading directly *)

(** The bridge's state when the read is armed and the read's outcome: a frame, a
    deadline with the state seen then, another error. *)
Inductive direct := DRead (data : bytes) | DDeadline (state : Z) | DEnded.

Fixpoint direct_streams (ss : list bridgePCMStream) (rs : list (Z * direct)) (a : acc) : option (list bridgePCMStream * acc * option error) :=
  match ss, rs with
  | s :: ss, (armed, r) :: rs =>
    let s := s <| n := 0%nat |> in
    let go_on s a := match direct_streams ss rs a with None => None | Some (ss, a, e) => Some (s :: ss, a, e) end in
    if markGone s then go_on s (a <| handled := handled a - 1 |>)
    else if negb (armed =? 1) then Some (s :: ss, a, Some errStopped)
    else match r with
    | DDeadline state => if state =? 1 then go_on s a else Some (s :: ss, a, Some (ErrNew "i/o timeout"))
    | DEnded => go_on (s <| markGone := true |>) (a <| handled := handled a - 1 |>)
    | DRead data =>
      let '(b, k) := go_copy (buf s) data in
      match mix_in (s <| buf := b |>) k a with None => None | Some (s, a) => go_on s a end
    end
  | _, _ => Some (ss, a, if handled a =? 0 then Some errGone else None)
  end.

Definition mixAllStreams_direct (ss : list bridgePCMStream) (rs : list (Z * direct)) : option (list bridgePCMStream * acc * option error) :=
  direct_streams ss rs (mix_start ss).

(** ** The broadcast *)

Inductive wrote := Wrote | WriteClosed | WriteFailed.

(** What is written to a stream, none to one that is gone. *)
Definition heard (mix : bytes) (w : bridgePCMStream) : option (bridgePCMStream * option bytes) :=
  if markGone w then Some (w, None)
  else if (0 <? n w)%nat then
    match unmixStream (buf w) (n w) mix with
    | None => None
    | Some streamBuf => Some (w <| buf := streamBuf ++ drop (length mix) (buf w) |>, Some streamBuf)
    end
  else Some (w, Some mix).

Definition write_stream (mix : bytes) (w : bridgePCMStream) (r : wrote) : option (bridgePCMStream * option bytes) :=
  match heard mix w with
  | None => None
  | Some (w, Some b) => Some (match r with WriteClosed => w <| markGone := true |> | _ => w end, Some b)
  | Some (w, None) => Some (w, None)
  end.

Fixpoint broadcast (mix : bytes) (ss : list bridgePCMStream) (rs : list wrote) : option (list bridgePCMStream * list (option bytes)) :=
  match ss, rs with
  | s :: ss, r :: rs =>
    match write_stream mix s r, broadcast mix ss rs with
    | Some (s, b), Some (ss, bs) => Some (s :: ss, b :: bs)
    | _, _ => None
    end
  | _, _ => Some (ss, [])
  end.

(** ** The loop *)

(** A round's reads, the state it sees and the outcomes of its writes. *)
Record round := { r_pipes : list piped; r_state : Z; r_writes : list wrote }.

#[export] Instance eta_round : Eta round := fun r => {| r_pipes := r_pipes r; r_state := r_state r; r_writes := r_writes r |}.

(** One round of the loop: the streams after, and what each was sent, or the
    error that ends the loop. *)
Definition mixRound (r : round) (ss : list bridgePCMStream) : option ((list bridgePCMStream * list (option bytes)) + error) :=
  match mixAllStreams_poll ss (r_pipes r) (r_state r) with
  | None => None
  | Some (_, _, Some e) => Some (inr e)
  | Some (ss, a, None) =>
    if maxN a =? 0 then Some (inl (ss, (fun _ => None) <$> ss))
    else inl <$> broadcast (take (Z.to_nat (maxN a)) (mixedBuf a)) ss (r_writes r)
  end.

(** [mixLoop] over the rounds given, with polling and two streams or more: what
    was sent in each, and the error it ended with, [None] if it goes on. *)
Fixpoint mixLoop (rs : list round) (ss : list bridgePCMStream) : option (list (list (option bytes)) * list bridgePCMStream * option error) :=
  match rs with
  | [] => Some ([], ss, None)
  | r :: rs =>
    match mixRound r ss with
    | None => None
    | Some (inr e) => Some ([], ss, Some e)
    | Some (inl (ss, sent)) =>
      match mixLoop rs ss with
      | None => None
      | Some (more, ss, e) => Some (sent :: more, ss, e)
      end
    end
  end.

(** ** Samples of the mix *)

Lemma Even_len_take (b : bytes) k : (k <= length b)%nat -> Nat.Even k -> even (take k b).
Proof. intros H He. unfold even. by rewrite length_take, Nat.min_l by lia. Qed.

Lemma nth_zip_with (f : Z -> Z -> Z) l k j : (j < length l)%nat -> (j < length k)%nat -> nth j (zip_with f l k) 0 = f (nth j l 0) (nth j k 0).
Proof. revert k j. induction l as [|x l IH]; intros [|y k] [|j] H1 H2; cbn in *; try lia. apply IH; lia. Qed.

Lemma at_sample_range b j : -32768 <= at_sample b j <= 32767.
Proof.
  unfold at_sample. destruct (Nat.lt_ge_cases j (length (samples b))) as [H|H]; [|rewrite nth_overflow by lia; lia].
  revert j H. induction b as [| |x y b IH] using list_ind2; intros j H; cbn in *; try lia. destruct j as [|j]; [apply sample_range|]. apply IH. lia.
Qed.

(** Where operation and frame meet: the sample of a result. *)
Lemma apply_at op dst mixed read out j : even read -> (length read <= length mixed)%nat -> (length read <= length dst)%nat ->
  pcm_apply op dst mixed read = Some out -> (2 * j < length read)%nat -> at_sample out j = clip (op (at_sample mixed j) (at_sample read j)).
Proof.
  intros He Hm Hd E Hj. destruct (pcm_apply_spec op dst mixed read He Hm Hd) as (out' & E' & L & D & S). rewrite E in E'. injection E' as <-.
  pose proof (at_sample_take out (length read) j He) as HT. replace (2 * j <? length read)%nat with true in HT by (symmetry; by apply Nat.ltb_lt).
  rewrite <- HT. unfold at_sample at 1. rewrite S. destruct He as [k Hk].
  assert (j < k)%nat by lia. apply nth_zip_with; rewrite samples_length.
  - apply Nat.lt_le_trans with k; [done|]. rewrite <- (Nat.div2_double k). apply Nat.div2_le_mono. lia.
  - rewrite Hk, Nat.div2_double. done.
Qed.

Lemma at_sample_drop b k j : Nat.Even k -> (k <= 2 * j)%nat -> at_sample b j = at_sample (drop k b) (j - Nat.div2 k).
Proof.
  intros Hk Hj. unfold at_sample. rewrite <- (samples_take_drop b k Hk) at 1. destruct Hk as [h ->]. rewrite Nat.div2_double.
  destruct (Nat.le_gt_cases (length b) (2 * h)).
  - rewrite (drop_ge b) by lia. cbn. rewrite app_nil_r. rewrite nth_overflow; [by destruct (j - h)%nat|].
    rewrite samples_length, length_take, Nat.min_r by lia. transitivity (Nat.div2 (2 * h)); [by apply Nat.div2_le_mono|]. rewrite Nat.div2_double. lia.
  - rewrite List.app_nth2; rewrite samples_length, length_take, Nat.min_l, Nat.div2_double by lia; [done|lia].
Qed.

(** Mixing a frame in adds its samples, clipped, and no others. *)
Lemma PCMMix_at mixed read : even read -> (length read <= length mixed)%nat ->
  exists out, PCMMix mixed mixed read = Some (out, len read) /\ length out = length mixed /\
    forall j, at_sample out j = clip (at_sample mixed j + at_sample read j).
Proof.
  intros He Hl. destruct (PCMMix_spec mixed read He Hl) as (out & E & L & D & _). exists out. split; [done|]. split; [done|]. intros j.
  destruct (Nat.lt_ge_cases (2 * j) (length read)) as [Hj|Hj].
  - unfold PCMMix in E. destruct (pcm_apply Z.add mixed mixed read) as [o|] eqn:Eo; [|done]. injection E as <-. by apply (apply_at Z.add mixed mixed read o j).
  - rewrite (at_sample_drop out (length read)), D, <- (at_sample_drop mixed (length read)) by done.
    assert (at_sample read j = 0) as ->.
    { unfold at_sample. apply nth_overflow. rewrite samples_length. destruct He as [k Hk]. rewrite Hk, Nat.div2_double. lia. }
    rewrite Z.add_0_r, clip_exact; [done|]. apply at_sample_range.
Qed.

(** A stream hears the mix less its own frame, clipped. *)
Lemma unmixStream_at b k mix : Nat.Even k -> (k <= length mix <= length b)%nat -> Nat.Even (length mix) ->
  exists out, unmixStream b k mix = Some out /\ length out = length mix /\
    forall j, at_sample out j = clip (at_sample mix j - at_sample (take k b) j).
Proof.
  intros He Hk Hm. unfold unmixStream, PCMUnmix. replace (length b <? length mix)%nat with false by (symmetry; apply Nat.ltb_ge; lia).
  replace (length mix <? k)%nat with false by (symmetry; apply Nat.ltb_ge; lia).
  assert (even (take k b)) as Het by (by apply Even_len_take; [lia|]). assert (length (take k b) = k) as Hlt by (rewrite length_take; lia).
  destruct (pcm_apply_spec Z.sub (take (length mix) b) mix (take k b)) as (out & E & L & D & _); [done|lia|rewrite !length_take; lia|].
  rewrite E. eexists. split; [reflexivity|]. rewrite length_take in L.
  assert (even (take k out)) as Heo by (by apply Even_len_take; [lia|]).
  split; [rewrite length_app, length_take, length_drop; lia|]. intros j. unfold at_sample at 1. rewrite samples_app by done.
  assert (length (samples (take k out)) = Nat.div2 k) as Hs by (rewrite samples_length, length_take; f_equal; lia). destruct He as [h Hh].
  destruct (Nat.lt_ge_cases (2 * j) k) as [Hj|Hj].
  - rewrite List.app_nth1 by (rewrite Hs, Hh, Nat.div2_double; lia). fold (at_sample (take k out) j).
    rewrite at_sample_take by (by exists h). replace (2 * j <? k)%nat with true by (symmetry; by apply Nat.ltb_lt).
    apply (apply_at Z.sub (take (length mix) b) mix (take k b) out j); [done|lia|rewrite !length_take; lia|done|lia].
  - rewrite List.app_nth2 by (rewrite Hs, Hh, Nat.div2_double; lia). rewrite Hs. fold (at_sample (drop k mix) (j - Nat.div2 k)).
    rewrite <- at_sample_drop by (lia || by exists h). rewrite at_sample_take by (by exists h).
    replace (2 * j <? k)%nat with false by (symmetry; by apply Nat.ltb_ge). rewrite Z.sub_0_r, clip_exact; [done|]. apply at_sample_range.
Qed.

End MixLoop.
