(* ===== verification/MixProps.v ===== *)
(** * The mix of a conference bridge: theorems

    What every participant hears of a round, and when the loop ends. *)
From S2P Require Import Prelude Pcm MixLoop.
Import Pcm MixLoop.

Module MixProps.

(** ** A round *)

Definition stream_wf (s : bridgePCMStream) : Prop := length (buf s) = RTPBufSize.
Definition piped_wf (p : piped) : Prop := match p with Frame bw => even bw /\ (length bw <= RTPBufSize)%nat | _ => True end.

(** The frame a stream puts into a round, empty for none. *)
Definition frame (s : bridgePCMStream) (p : piped) : bytes :=
  if markGone s then [] else match p with Frame bw => bw | _ => [] end.

(** A stream after its turn. *)
Definition polled (s : bridgePCMStream) (p : piped) : bridgePCMStream :=
  if markGone s then s else
  match p with
  | PipeClosed => s <| n := 0%nat |> <| markGone := true |>
  | NoFrame => s <| n := 0%nat |>
  | Frame bw => s <| n := length bw |> <| buf := bw ++ drop (length bw) (buf s) |>
  end.

(** The samples at [j] added up in order, each sum clipped. *)
Definition clipped_sum (j : nat) (frames : list bytes) (m : Z) : Z := fold_left (fun m f => clip (m + at_sample f j)) frames m.
Definition longest (frames : list bytes) (m : Z) : Z := fold_left (fun m f => Z.max m (len f)) frames m.
Definition gone_count (ss : list bridgePCMStream) : Z := len (List.filter markGone ss).

Lemma frame_wf s p : piped_wf p -> even (frame s p) /\ (length (frame s p) <= RTPBufSize)%nat.
Proof.
  unfold frame, piped_wf. destruct (markGone s); [|destruct p as [bw| |]]; try done; intros _; (split; [by exists 0%nat|cbn; unfold RTPBufSize; lia]).
Qed.

Lemma polled_wf s p : stream_wf s -> piped_wf p -> stream_wf (polled s p).
Proof.
  unfold stream_wf, piped_wf, polled. intros Hs Hp. destruct (markGone s); [done|]. destruct p as [bw| |]; [|done..].
  cbn. rewrite length_app, length_drop. lia.
Qed.

(** What a live stream's buffer holds after its turn. *)
Lemma polled_frame s p : stream_wf s -> piped_wf p -> markGone (polled s p) = false ->
  n (polled s p) = length (frame s p) /\ take (n (polled s p)) (buf (polled s p)) = frame s p.
Proof.
  unfold polled, frame. intros Hs Hp. destruct (markGone s) eqn:Hg; [congruence|]. destruct p as [bw| |]; [|done..]. intros _. cbn. split; [done|].
  by rewrite take_app_length.
Qed.

Lemma at_sample_nil j : at_sample [] j = 0.
Proof. by destruct j. Qed.

Lemma poll_stream_spec s p a : stream_wf s -> piped_wf p -> length (mixedBuf a) = RTPBufSize -> 0 <= maxN a ->
  exists a', poll_stream s p a = Some (polled s p, a') /\ length (mixedBuf a') = RTPBufSize /\
    handled a' = handled a - (if markGone s then 1 else 0) /\ maxN a' = Z.max (maxN a) (len (frame s p)) /\
    forall j, at_sample (mixedBuf a') j = clip (at_sample (mixedBuf a) j + at_sample (frame s p) j).
Proof.
  intros Hs Hp Hm Hn. unfold poll_stream, polled, frame.
  assert (forall j, at_sample (mixedBuf a) j = clip (at_sample (mixedBuf a) j + at_sample [] j)) as H0.
  { intros j. rewrite at_sample_nil, Z.add_0_r, clip_exact; [done|]. apply at_sample_range. }
  assert (Z.max (maxN a) (len (@nil Z)) = maxN a) as H1 by (unfold len; cbn; lia).
  destruct (markGone s); [|destruct p as [bw| |]].
  1,3,4: eexists; (split; [reflexivity|]); cbn; rewrite ?H1, ?Z.sub_0_r; by repeat split.
  destruct Hp as [He Hl]. unfold go_copy. cbn [buf field_update eta_stream]. rewrite Hs, Nat.min_r by done.
  rewrite (take_ge bw) by lia. unfold mix_in. cbn [buf field_update eta_stream]. rewrite take_app_length.
  destruct (PCMMix_at (mixedBuf a) bw) as (out & E & L & HA); [done|lia|]. rewrite E. eexists. split; [reflexivity|]. cbn.
  split; [lia|]. split; [lia|]. by split.
Qed.

Lemma each_poll ss ps a : Forall stream_wf ss -> Forall piped_wf ps -> length ss = length ps -> length (mixedBuf a) = RTPBufSize -> 0 <= maxN a ->
  exists a', each poll_stream ss ps a = Some (zip_with polled ss ps, a') /\ length (mixedBuf a') = RTPBufSize /\
    handled a' = handled a - gone_count ss /\ maxN a' = longest (zip_with frame ss ps) (maxN a) /\
    forall j, at_sample (mixedBuf a') j = clipped_sum j (zip_with frame ss ps) (at_sample (mixedBuf a) j).
Proof.
  intros Hs. revert ps a. induction Hs as [|s ss Hs HS IH]; intros [|p ps] a Hp Hl Hm Hn; try done.
  - exists a. split; [done|]. split; [done|]. split; [unfold gone_count, len; cbn; lia|done].
  - apply Forall_cons in Hp as [Hp HP]. destruct (poll_stream_spec s p a Hs Hp Hm Hn) as (a1 & E & L & Hh & Hx & HA).
    destruct (IH ps a1 HP) as (a2 & E2 & L2 & Hh2 & Hx2 & HA2); [cbn in Hl; lia|done|pose proof (len_nonneg (frame s p)); lia|].
    exists a2. cbn [each zip_with]. rewrite E, E2. split; [done|]. split; [done|]. split; [|split].
    + rewrite Hh2, Hh. unfold gone_count. cbn [List.filter]. destruct (markGone s); rewrite ?len_cons; lia.
    + rewrite Hx2, Hx. done.
    + intros j. rewrite HA2, HA. done.
Qed.

(** *** The longest frame *)

Lemma longest_bounds fs m : m <= longest fs m.
Proof. revert m. unfold longest. induction fs as [|f fs IH]; intros m; cbn; [lia|]. specialize (IH (Z.max m (len f))). lia. Qed.
Lemma longest_ge fs m f : f ∈ fs -> len f <= longest fs m.
Proof.
  intros H. revert m. induction H as [f fs|f g fs H IH]; intros m; cbn; [|apply IH].
  pose proof (longest_bounds fs (Z.max m (len f))). unfold longest in *. lia.
Qed.
Lemma longest_is fs m : longest fs m = m \/ exists f, f ∈ fs /\ longest fs m = len f.
Proof.
  revert m. unfold longest. induction fs as [|f fs IH]; intros m; cbn; [by left|]. destruct (IH (Z.max m (len f))) as [->|(g & Hg & ->)].
  - destruct (Z.max_spec m (len f)) as [[_ ->]|[_ ->]]; [right; exists f; split; [left|done]|by left].
  - right. exists g. split; [by right|done].
Qed.

Lemma frames_wf ss ps : Forall piped_wf ps -> Forall (fun f => even f /\ (length f <= RTPBufSize)%nat) (zip_with frame ss ps).
Proof.
  intros H. revert ss. induction H as [|p ps Hp HP IH]; intros [|s ss]; cbn; try done. constructor; [by apply frame_wf|apply IH].
Qed.

(** ** What a stream hears *)

Lemma write_stream_hears mix s r : stream_wf s -> markGone s = false -> Nat.Even (n s) -> (n s <= length mix <= RTPBufSize)%nat -> Nat.Even (length mix) ->
  exists s' b, write_stream mix s r = Some (s', Some b) /\ stream_wf s' /\ length b = length mix /\
    forall j, at_sample b j = clip (at_sample mix j - at_sample (take (n s) (buf s)) j).
Proof.
  intros Hs Hg He Hn Hm. unfold write_stream, heard. rewrite Hg. destruct (Nat.ltb_spec 0 (n s)) as [Hp|Hp].
  - destruct (unmixStream_at (buf s) (n s) mix He) as (out & E & L & HA); [rewrite Hs; lia|done|]. rewrite E.
    eexists _, out. split; [reflexivity|]. split; [|by split]. unfold stream_wf in *. destruct r; cbn; rewrite length_app, length_drop; lia.
  - eexists _, mix. split; [reflexivity|]. split; [by destruct r|]. split; [done|]. intros j. assert (n s = 0%nat) as -> by lia.
    rewrite take_0, at_sample_nil, Z.sub_0_r, clip_exact; [done|]. apply at_sample_range.
Qed.

(** A live stream's turn in the broadcast of a round. *)
Definition hears (mix : bytes) (s : bridgePCMStream) (o : option bytes) : Prop :=
  if markGone s then o = None
  else exists b, o = Some b /\ length b = length mix /\ forall j, at_sample b j = clip (at_sample mix j - at_sample (take (n s) (buf s)) j).

Lemma broadcast_hears mix ss rs : Forall (fun s => stream_wf s /\ (markGone s = false -> Nat.Even (n s) /\ (n s <= length mix)%nat)) ss ->
  length ss = length rs -> (length mix <= RTPBufSize)%nat -> Nat.Even (length mix) ->
  exists ss' sent, broadcast mix ss rs = Some (ss', sent) /\ Forall2 (hears mix) ss sent /\
    Forall stream_wf ss' /\ Forall2 (fun s s' => markGone s = true -> markGone s' = true) ss ss'.
Proof.
  intros HF. revert rs. induction HF as [|s ss [Hs Hn] HF IH]; intros [|r rs] Hl Hm He; try done; [by exists [], []|].
  destruct (IH rs) as (ss' & sent & E & H1 & H2 & H3); [cbn in Hl; lia|done|done|]. cbn [broadcast]. rewrite E.
  destruct (markGone s) eqn:Hg.
  - assert (write_stream mix s r = Some (s, None)) as -> by (unfold write_stream, heard; by rewrite Hg).
    eexists _, _. split; [reflexivity|]. split; [constructor; [unfold hears; by rewrite Hg|done]|]. by split; constructor.
  - destruct (Hn eq_refl) as [Hn1 Hn2]. destruct (write_stream_hears mix s r Hs Hg Hn1 ltac:(lia) He) as (s' & b & -> & W1 & W2 & W3).
    eexists _, _. split; [reflexivity|]. split; [constructor; [unfold hears; rewrite Hg; by exists b|done]|]. split; constructor; try done. congruence.
Qed.

(** ** Rounds *)

Record round_wf (ss : list bridgePCMStream) (r : round) : Prop := {
  rw_streams : Forall stream_wf ss;
  rw_pipes : Forall piped_wf (r_pipes r);
  rw_plen : length ss = length (r_pipes r);
  rw_wlen : length ss = length (r_writes r) }.

Lemma at_sample_past b j : even b -> (length b <= 2 * j)%nat -> at_sample b j = 0.
Proof. intros [k Hk] H. unfold at_sample. apply nth_overflow. rewrite samples_length, Hk, Nat.div2_double. lia. Qed.

Lemma clipped_sum_past j fs : Forall (fun f => even f /\ (length f <= 2 * j)%nat) fs -> clipped_sum j fs 0 = 0.
Proof. unfold clipped_sum. induction 1 as [|f fs [He Hl] HF IH]; [done|]. cbn [fold_left]. by rewrite (at_sample_past f j He Hl). Qed.

Lemma gone_count_le ss : gone_count ss <= len ss.
Proof. unfold gone_count. induction ss as [|s ss IH]; [done|]. cbn. destruct (markGone s); rewrite ?len_cons; lia. Qed.
Lemma gone_count_all ss : gone_count ss = len ss <-> Forall (fun s => markGone s = true) ss.
Proof.
  induction ss as [|s ss IH]; [by split|]. rewrite Forall_cons, <- IH. pose proof (gone_count_le ss) as H. unfold gone_count in *.
  cbn [List.filter]. destruct (markGone s) eqn:E; rewrite ?len_cons.
  - split; [intros H1; split; [done|lia]|intros [_ H1]; lia].
  - split; [lia|]. intros [H1 _]. congruence.
Qed.

Lemma polled_gone ss ps : length ss = length ps -> Forall2 (fun s s' => markGone s = true -> markGone s' = true) ss (zip_with polled ss ps).
Proof.
  revert ps. induction ss as [|s ss IH]; intros [|p ps] H; try done. cbn. constructor; [|apply IH; cbn in H; lia]. unfold polled. intros E. by rewrite E.
Qed.
Lemma polled_all_wf ss ps : Forall stream_wf ss -> Forall piped_wf ps -> Forall stream_wf (zip_with polled ss ps).
Proof.
  intros Hs. revert ps. induction Hs as [|s ss Hs HS IH]; intros [|p ps] Hp; cbn; try done. apply Forall_cons in Hp as [Hp HP].
  constructor; [by apply polled_wf|by apply IH].
Qed.

Lemma polled_frames ss ps m : Forall stream_wf ss -> Forall piped_wf ps -> (forall f, f ∈ zip_with frame ss ps -> len f <= m) ->
  Forall (fun s => stream_wf s /\ (markGone s = false -> Nat.Even (n s) /\ (Z.of_nat (n s) <= m))) (zip_with polled ss ps).
Proof.
  intros Hs. revert ps. induction Hs as [|s ss Hs HS IH]; intros [|p ps] Hp Hm; cbn; try done. apply Forall_cons in Hp as [Hp HP].
  constructor; [|apply IH; [done|intros f Hf; apply Hm; by right]]. split; [by apply polled_wf|]. intros Hg.
  destruct (polled_frame s p Hs Hp Hg) as [-> _]. split; [by apply frame_wf|]. apply (Hm (frame s p)). left.
Qed.

Lemma gone_trans ss ss' ss'' : Forall2 (fun s s' => markGone s = true -> markGone s' = true) ss ss' ->
  Forall2 (fun s s' => markGone s = true -> markGone s' = true) ss' ss'' -> Forall2 (fun s s' => markGone s = true -> markGone s' = true) ss ss''.
Proof. intros H1. revert ss''. induction H1 as [|s s' ss ss' Hs H1 IH]; intros ss'' H2; inversion H2; subst; [done|]. constructor; auto. Qed.

Lemma zeros_silent k j : at_sample (replicate k 0) j = 0.
Proof.
  unfold at_sample. revert j. induction k as [k IH] using lt_wf_ind. intros j. destruct k as [|[|k]]; [by destruct j|by destruct j|].
  cbn [replicate samples nth]. destruct j as [|j]; [done|]. apply IH. lia.
Qed.

(** What a round comes to. *)
Lemma mixRound_spec ss r : round_wf ss r ->
  let fs := zip_with frame ss (r_pipes r) in
  match mixRound r ss with
  | None => False
  | Some (inr e) => e = errGone /\ Forall (fun s => markGone s = true) ss \/ e = errStopped /\ r_state r <> 1
  | Some (inl (ss', sent)) =>
    Forall stream_wf ss' /\ Forall2 (fun s s' => markGone s = true -> markGone s' = true) ss ss' /\
    if longest fs 0 =? 0 then sent = (fun _ => None) <$> ss'
    else exists mix, len mix = longest fs 0 /\ (forall j, at_sample mix j = clipped_sum j fs 0) /\ Forall2 (hears mix) (zip_with polled ss (r_pipes r)) sent
  end.
Proof.
  intros [Hs Hp Hl Hw]. cbv zeta. unfold mixRound, mixAllStreams_poll.
  destruct (each_poll ss (r_pipes r) (mix_start ss) Hs Hp Hl) as (a & -> & La & Hh & Hx & HA); [apply length_replicate|done|].
  change (handled (mix_start ss)) with (len ss) in Hh. change (maxN (mix_start ss)) with 0 in Hx.
  assert (forall j, at_sample (mixedBuf (mix_start ss)) j = 0) as H0 by (intros j; unfold mix_start; cbn [mixedBuf]; apply zeros_silent).
  set (fs := zip_with frame ss (r_pipes r)) in *. pose proof (frames_wf ss (r_pipes r) Hp) as Hfs. fold fs in Hfs.
  destruct (Z.eqb_spec (handled a) 0) as [Hz|Hz]; [left; split; [done|]; apply gone_count_all; lia|].
  destruct (((handled a <? len ss) || (maxN a =? 0)) && negb (r_state r =? 1)) eqn:Est; [right; split; [done|]; apply andb_true_iff in Est as [_ Est]; lia|].
  pose proof (polled_gone ss (r_pipes r) Hl) as HG. pose proof (polled_all_wf ss (r_pipes r) Hs Hp) as HW.
  rewrite Hx. destruct (Z.eqb_spec (longest fs 0) 0) as [Hz0|Hz0]; [done|].
  pose proof (longest_bounds fs 0) as Hb. set (m := longest fs 0) in *.
  assert (exists k, m = Z.of_nat k /\ Nat.Even k /\ (k <= RTPBufSize)%nat) as (k & Hk & Hke & Hkl).
  { destruct (longest_is fs 0) as [Ez|(f & Hf & Ef)]; [fold m in Ez; lia|]. fold m in Ef. exists (length f). split; [done|].
    rewrite Forall_forall in Hfs. by apply Hfs in Hf. }
  rewrite Hk, Nat2Z.id. assert (length (take k (mixedBuf a)) = k) as Hlk by (rewrite length_take; lia).
  destruct (broadcast_hears (take k (mixedBuf a)) (zip_with polled ss (r_pipes r)) (r_writes r)) as (ss' & sent & -> & B1 & B2 & B3).
  - eapply Forall_impl; [apply (polled_frames ss (r_pipes r) m Hs Hp); intros f Hf; by apply longest_ge|]. intros x [H1 H2]. split; [done|]. intros Hg.
    destruct (H2 Hg) as [H3 H4]. split; [done|]. lia.
  - rewrite length_zip_with. lia.
  - lia.
  - by rewrite Hlk.
  - cbn [fmap option_fmap option_map]. split; [done|]. split; [by eapply gone_trans|]. exists (take k (mixedBuf a)). split; [unfold len; lia|]. split; [|done].
    intros j. rewrite at_sample_take by done. destruct (Nat.ltb_spec (2 * j) k) as [Hj|Hj]; [by rewrite HA, H0|]. symmetry. apply clipped_sum_past.
    apply Forall_forall. intros f Hf. rewrite Forall_forall in Hfs. split; [by apply Hfs|]. pose proof (longest_ge fs 0 f Hf) as HL. fold m in HL. unfold len in HL. lia.
Qed.

(** ** The theorems *)

Definition total (j : nat) (fs : list bytes) : Z := foldr (fun f t => at_sample f j + t) 0 fs.

Lemma clipped_sum_exact j fs m : (forall k, -32768 <= m + total j (take k fs) <= 32767) -> clipped_sum j fs m = m + total j fs.
Proof.
  revert m. unfold clipped_sum, total. induction fs as [|f fs IH]; intros m H; [cbn; lia|]. cbn [fold_left].
  pose proof (H 1%nat) as H1. cbn in H1. rewrite take_0 in H1. cbn in H1. rewrite (clip_exact (m + at_sample f j)) by lia.
  rewrite IH; [cbn; lia|]. intros k. specialize (H (S k)). cbn in H. lia.
Qed.

Lemma total_delete j fs i f : fs !! i = Some f -> total j fs = at_sample f j + total j (delete i fs).
Proof. unfold total. revert i. induction fs as [|g fs IH]; intros [|i] H; [done..|by injection H as ->|]. cbn in *. rewrite (IH i H). unfold delete. lia. Qed.

Lemma zip_with_lookup {A B C} (f : A -> B -> C) l k i x y : l !! i = Some x -> k !! i = Some y -> zip_with f l k !! i = Some (f x y).
Proof. intros H1 H2. rewrite lookup_zip_with, H1. cbn. by rewrite H2. Qed.

Definition is_closed (p : piped) : bool := match p with PipeClosed => true | _ => false end.

Lemma polled_live s p : markGone (polled s p) = markGone s || is_closed p.
Proof. unfold polled. destruct (markGone s) eqn:E; [done|]. by destruct p. Qed.

(** What each stream is sent in a round of a running bridge. *)
Lemma mixRound_sent ss r : round_wf ss r -> r_state r = 1 -> Exists (fun s => markGone s = false) ss ->
  let fs := zip_with frame ss (r_pipes r) in
  exists ss' sent, mixRound r ss = Some (inl (ss', sent)) /\ Forall stream_wf ss' /\ length sent = length ss /\
  forall i s p, ss !! i = Some s -> r_pipes r !! i = Some p ->
    if markGone s || is_closed p || (longest fs 0 =? 0) then sent !! i = Some None
    else exists b, sent !! i = Some (Some b) /\ len b = longest fs 0 /\ forall j, at_sample b j = clip (clipped_sum j fs 0 - at_sample (frame s p) j).
Proof.
  intros Hr Hst Hlive. pose proof (mixRound_spec ss r Hr) as HR. cbv zeta in *. destruct (mixRound r ss) as [[[ss' sent]|e]|]; [|exfalso|done].
  - exists ss', sent. destruct HR as (W & G & HR). assert (length ss = length ss') as Hlen by (by apply Forall2_length in G).
    split; [done|]. split; [done|]. set (fs := zip_with frame ss (r_pipes r)) in *. destruct (longest fs 0 =? 0).
    { split; [rewrite HR, length_fmap; lia|]. intros i s p Hi Hp. rewrite orb_true_r, HR, list_lookup_fmap.
      apply lookup_lt_Some in Hi. rewrite Hlen in Hi. apply lookup_lt_is_Some in Hi as [x Hx]. by rewrite Hx. }
    destruct HR as (mix & Lm & Hm & HF). split.
    { apply Forall2_length in HF. rewrite length_zip_with in HF. destruct Hr as [_ _ H1 _]. lia. }
    intros i s p Hi Hp. rewrite orb_false_r, <- polled_live.
    pose proof (zip_with_lookup polled ss (r_pipes r) i s p Hi Hp) as Hpo. destruct (Forall2_lookup_l _ _ _ _ _ HF Hpo) as (o & Ho & HH).
    assert (stream_wf s /\ piped_wf p) as [Hs Hpw].
    { destruct Hr as [H1 H2 _ _]. split; [exact (Forall_lookup_1 _ _ _ _ H1 Hi)|exact (Forall_lookup_1 _ _ _ _ H2 Hp)]. }
    unfold hears in HH. destruct (markGone (polled s p)) eqn:Hg; [by rewrite Ho, HH|].
    destruct HH as (b & -> & Lb & Hb). destruct (polled_frame s p Hs Hpw Hg) as [_ Ef]. rewrite Ef in Hb. exists b. split; [done|].
    split; [unfold len in *; lia|]. intros j. by rewrite Hb, Hm.
  - destruct HR as [[-> HA]|[_ HR]]; [|done]. apply Exists_exists in Hlive as (x & Hx & Hg). rewrite Forall_forall in HA. specialize (HA x Hx). congruence.
Qed.

(** C17. While the bridge runs and a participant is left, a round never panics and
    sends every live participant a frame as long as the longest one read, in which each
    sample is the running sum of all samples, clipped to 16 bits after each participant,
    less the participant's own sample, and clipped again. Whenever the sums in the order
    of the participants stay within 16 bits that is the clipped sum of the others:
    everyone hears everyone else. Where they do not it is not, see
    [loud_pair_garbled]. Frames of different lengths count as silence past their end; a
    participant that has left is sent nothing. *)
Theorem mix_hears_others ss r : round_wf ss r -> r_state r = 1 -> Exists (fun s => markGone s = false) ss ->
  let fs := zip_with frame ss (r_pipes r) in
  exists ss' sent, mixRound r ss = Some (inl (ss', sent)) /\ Forall stream_wf ss' /\
  forall i s p, ss !! i = Some s -> r_pipes r !! i = Some p ->
    if markGone s || is_closed p || (longest fs 0 =? 0) then sent !! i = Some None
    else exists b, sent !! i = Some (Some b) /\ len b = longest fs 0 /\
      forall j, at_sample b j = clip (clipped_sum j fs 0 - at_sample (frame s p) j) /\
        ((forall k, -32768 <= total j (take k fs) <= 32767) -> at_sample b j = clip (total j (delete i fs))).
Proof.
  intros Hr Hst Hlive. destruct (mixRound_sent ss r Hr Hst Hlive) as (ss' & sent & H1 & H2 & _ & H3). cbv zeta in *. exists ss', sent.
  split; [done|]. split; [done|]. intros i s p Hi Hp. specialize (H3 i s p Hi Hp). set (fs := zip_with frame ss (r_pipes r)) in *.
  destruct (_ || _); [done|]. destruct H3 as (b & B1 & B2 & B3). exists b. split; [done|]. split; [done|]. intros j. split; [apply B3|]. intros Hk.
  rewrite B3, (clipped_sum_exact j fs 0) by (intros k; rewrite Z.add_0_l; apply Hk).
  rewrite (total_delete j fs i (frame s p)) by (by apply zip_with_lookup). f_equal. lia.
Qed.

(** C39. The loop of a conference goes on without whoever leaves: over any rounds it
    never panics, it ends only when every participant has left or when the bridge
    is being stopped, and a participant that has left stays out. *)
Theorem mix_loop_survives rs ss : Forall stream_wf ss -> Forall (fun r => Forall piped_wf (r_pipes r) /\ length ss = length (r_pipes r) /\ length ss = length (r_writes r)) rs ->
  exists sent ss' e, mixLoop rs ss = Some (sent, ss', e) /\ Forall stream_wf ss' /\
    Forall2 (fun s s' => markGone s = true -> markGone s' = true) ss ss' /\
    (e = None /\ length sent = length rs \/ e = Some errGone /\ Forall (fun s => markGone s = true) ss' \/
     exists r, rs !! length sent = Some r /\ r_state r <> 1 /\ e = Some errStopped).
Proof.
  intros Hs HF. revert ss Hs HF. induction rs as [|r rs IH]; intros ss Hs HF.
  - exists [], ss, None. split; [done|]. split; [done|]. split; [|by left]. clear. induction ss; constructor; auto.
  - apply Forall_cons in HF as [(Hp & L1 & L2) HF]. pose proof (mixRound_spec ss r (Build_round_wf _ _ Hs Hp L1 L2)) as HR. cbv zeta in HR.
    cbn [mixLoop]. destruct (mixRound r ss) as [[[ss1 sent]|e]|]; [| |done].
    + destruct HR as (W & G & _). assert (length ss = length ss1) as Hl by (by apply Forall2_length in G). rewrite Hl in HF.
      destruct (IH ss1 W HF) as (more & ss' & e & -> & W' & G' & He). eexists _, _, _. split; [reflexivity|]. split; [done|]. split; [by eapply gone_trans|].
      destruct He as [[-> Hm]|[He|(r' & H1 & H2)]]; [left; split; [done|]; cbn; lia|by right; left|right; right; by exists r'].
    + eexists _, _, _. split; [reflexivity|]. split; [done|]. split; [clear; induction ss; constructor; auto|].
      destruct HR as [[-> HA]|[-> HR]]; [by right; left|]. right. right. by exists r.
Qed.

Lemma clip_full v : 32767 < v -> clip v = 32767.
Proof. intros H. unfold clip. by replace (32767 <? v) with true by lia. Qed.

(** Two loud participants garble each other: when their samples [x] and [y] add
    up to more than 16 bits hold, the first hears the ceiling less its own sample
    instead of the second, less than what was said. *)
Theorem loud_pair_garbled i1 i2 x y : -32768 <= x <= 32767 -> -32768 <= y <= 32767 -> 32767 < x + y ->
  let r := {| r_pipes := [Frame [low x; high x]; Frame [low y; high y]]; r_state := 1; r_writes := [Wrote; Wrote] |} in
  exists ss' b1 b2, mixRound r [new_stream i1; new_stream i2] = Some (inl (ss', [Some b1; Some b2])) /\
    at_sample b1 0 = 32767 - x /\ at_sample b1 0 < y /\ at_sample b2 0 = 32767 - y.
Proof.
  intros Hx Hy Hxy r. assert (even [low x; high x] /\ even [low y; high y]) as [E1 E2] by (split; by exists 1%nat).
  destruct (mixRound_sent [new_stream i1; new_stream i2] r) as (ss' & sent & H1 & _ & L & H3).
  - split; [|repeat constructor; try done; cbn; unfold RTPBufSize; lia|done|done]. repeat constructor; apply length_replicate.
  - done.
  - by constructor.
  - destruct sent as [|o1 [|o2 [|? ?]]]; try done. pose proof (H3 0%nat _ _ eq_refl eq_refl) as A1. pose proof (H3 1%nat _ _ eq_refl eq_refl) as A2. cbn in A1, A2.
    destruct A1 as (b1 & [= ->] & _ & B1), A2 as (b2 & [= ->] & _ & B2). exists ss', b1, b2. split; [done|]. specialize (B1 0%nat). specialize (B2 0%nat). cbn in B1, B2.
    unfold clipped_sum, frame, new_stream, at_sample in B1, B2. cbn in B1, B2. rewrite !sample_low_high in B1, B2 by done.
    rewrite Z.add_0_l, (clip_exact x), (clip_full (x + y)) in B1, B2 by done.
    rewrite clip_exact in B1, B2 by lia. unfold at_sample in *. rewrite B1, B2. lia.
Qed.

(** ** Concrete rounds *)

Definition ex_streams : list bridgePCMStream := [new_stream 1; new_stream 2; new_stream 3].
(** Frames of the samples 100 -5 and 20, and a stream that sends nothing. *)
Definition ex_round : round :=
  {| r_pipes := [Frame [low 100; high 100; low (-5); high (-5)]; Frame [low 20; high 20]; NoFrame]; r_state := 1; r_writes := [Wrote; WriteClosed; Wrote] |}.

Lemma ex_pipes_wf : Forall piped_wf (r_pipes ex_round).
Proof. repeat constructor; try (by exists 1%nat); try (by exists 2%nat); cbn; unfold RTPBufSize; lia. Qed.
Lemma ex_streams_wf : Forall stream_wf ex_streams.
Proof. repeat constructor; apply length_replicate. Qed.

Lemma mix_hears_others_witness : exists ss' b1 b2 b3, mixRound ex_round ex_streams = Some (inl (ss', [Some b1; Some b2; Some b3])) /\
  samples b2 = [100; -5] /\ at_sample b1 0 = 20 /\ at_sample b3 0 = 120.
Proof.
  destruct (mix_hears_others ex_streams ex_round) as (ss' & sent & H & _ & H3).
  - split; [exact ex_streams_wf|exact ex_pipes_wf|reflexivity|reflexivity].
  - reflexivity.
  - left. reflexivity.
  - pose proof (H3 2%nat _ _ eq_refl eq_refl) as A3. vm_compute in H. injection H as <- <-. eexists _, _, _, _. split; [vm_compute; reflexivity|].
    split; [vm_compute; reflexivity|]. split; [vm_compute; reflexivity|]. destruct A3 as (b & [= <-] & _ & A3). destruct (A3 0%nat) as [A _]. exact A.
Defined.

Lemma mix_loop_survives_witness : exists sent ss', mixLoop [ex_round; ex_round; ex_round <| r_state := 2 |> <| r_pipes := [NoFrame; NoFrame; PipeClosed] |>] ex_streams = Some (sent, ss', Some errStopped) /\ length sent = 2%nat.
Proof.
  destruct (mix_loop_survives [ex_round; ex_round; ex_round <| r_state := 2 |> <| r_pipes := [NoFrame; NoFrame; PipeClosed] |>] ex_streams) as (sent & ss' & e & H & _ & _ & He).
  - exact ex_streams_wf.
  - constructor; [split; [exact ex_pipes_wf|split; reflexivity]|]. constructor; [split; [exact ex_pipes_wf|split; reflexivity]|].
    constructor; [split; [repeat constructor|split; reflexivity]|constructor].
  - vm_compute in H. injection H as <- <- <-. eexists _, _. split; [vm_compute; reflexivity|]. reflexivity.
Defined.

Lemma loud_pair_garbled_witness : exists ss' b1 b2,
  mixRound {| r_pipes := [Frame [low 30000; high 30000]; Frame [low 30000; high 30000]]; r_state := 1; r_writes := [Wrote; Wrote] |} [new_stream 1; new_stream 2] =
    Some (inl (ss', [Some b1; Some b2])) /\ at_sample b1 0 = 2767.
Proof.
  destruct (loud_pair_garbled 1 2 30000 30000 ltac:(lia) ltac:(lia) ltac:(lia)) as (ss' & b1 & b2 & H & H1 & _).
  exists ss', b1, b2. split; [exact H|exact H1].
Defined.

End MixProps.
