(* ===== verification/BridgeMix.v ===== *)
(** * The conference bridge: joins, leaves and media updates

    [BridgeMix] of [bridge.go] as its dialogs come, go and change their audio.
    Every operation stops the running mix, waits until its goroutines have
    finished and starts another; the lock is released while it waits, so
    operations of several goroutines interleave there. The definitions are the
    stretches of code that run under the lock; [step] puts them together with the
    goroutines of the mix.

    A dialog is named by its ID; its state, codec and RTP control at the time of a
    stretch are that stretch's [env]. *)
From S2P Require Import Prelude Codec.
Import Codecs.

Module BridgeMix.

Record env := {
  confirmed : string -> bool;
  hasMedia : string -> bool;
  codecOf : string -> Codec;
  stopRTP : string -> option error;
  startRTP : string -> option error;
  (** What [audioReaderWriterProps] gives, and why no decoder or encoder can be
      set up for a codec. *)
  streamProps : string -> Codec + error;
  pcmErr : Codec -> option error }.

Record BridgeMix := {
  dialogs : list string;
  mixState : Z;
  mixStopped : nat;
  mixCodec : Codec;
  streamCodecs : option (gmap string Codec);
  unhooks : gset string;
  WaitDialogsNum : Z;
  Poll : bool;
  (** The channels closed so far, the goroutines [mixWG] counts, and whether the
      mix loop's has yet to call [mixEnded]. *)
  closedChans : gset nat;
  nextChan : nat;
  mixWG : Z;
  looping : bool }.
#[export] Instance eta_bridge : Eta BridgeMix := fun b =>
  {| dialogs := dialogs b; mixState := mixState b; mixStopped := mixStopped b; mixCodec := mixCodec b; streamCodecs := streamCodecs b; unhooks := unhooks b;
     WaitDialogsNum := WaitDialogsNum b; Poll := Poll b; closedChans := closedChans b; nextChan := nextChan b; mixWG := mixWG b; looping := looping b |}.

(** [NewBridgeMix]. *)
Definition NewBridgeMix (wait : Z) : BridgeMix :=
  {| dialogs := []; mixState := 0; mixStopped := 0; mixCodec := codec_zero; streamCodecs := None; unhooks := ∅; WaitDialogsNum := wait; Poll := true;
     closedChans := ∅; nextChan := 1; mixWG := 0; looping := false |}.

(** ** Errors *)

Definition join (a b : option error) : option error :=
  match a, b with
  | Some e1, Some e2 => Some (ErrJoin e1 e2)
  | Some e, None | None, Some e => Some e
  | None, None => None
  end.
Definition joined (es : list (option error)) : option error := foldr join None es.

Definition bridgeRTPControlErr (e : option error) : option error :=
  match e with Some x => if errors_Is x net_ErrClosed then None else e | None => None end.

(** ** Starting *)

Definition bridgeSameAudio (a b : Codec) : bool := (SampleRate a =? SampleRate b) && (SampleDur a =? SampleDur b).

Definition addDialogStream (e : env) (d : string) (mix : Codec) : Codec + error :=
  match streamProps e d with
  | inr err => inr err
  | inl c =>
    if negb (bridgeSameAudio c mix) then inr (ErrNew "Codec missmatch. Resampling or transcoding is not supported")
    else match pcmErr e c with Some err => inr err | None => inl c end
  end.

(** The streams of the dialogs given that can be mixed, and why the others can not. *)
Fixpoint addStreams (e : env) (mix : Codec) (ds : list string) : gmap string Codec * gmap string error :=
  match ds with
  | [] => (∅, ∅)
  | d :: ds =>
    let '(streams, notMixed) := addStreams e mix ds in
    match addDialogStream e d mix with
    | inl c => (<[d := c]> streams, notMixed)
    | inr err => (streams, <[d := err]> notMixed)
    end
  end.

Definition mixStart (e : env) (b : BridgeMix) : BridgeMix * gmap string error :=
  if mixState b =? 2 then (b, ∅)
  else
    let b := b <| streamCodecs := None |> in
    match dialogs b with
    | [] => (b <| mixCodec := codec_zero |>, ∅)
    | first :: _ =>
      if len (dialogs b) <? WaitDialogsNum b then (b, ∅)
      else
        let mix := if existsb (fun d => bridgeSameAudio (codecOf e d) (mixCodec b)) (dialogs b) then mixCodec b else codecOf e first in
        let '(streams, notMixed) := addStreams e mix (dialogs b) in
        let b := b <| unhooks := unhooks b ∖ dom notMixed |> in
        let b := b <| dialogs := List.filter (fun d => bool_decide (notMixed !! d = None)) (dialogs b) |> in
        match dialogs b with
        | [] => (b <| mixCodec := codec_zero |>, notMixed)
        | _ =>
          if len (dialogs b) <? WaitDialogsNum b then (b, notMixed)
          else
            let b := b <| mixCodec := mix |> <| streamCodecs := Some streams |> in
            let readers := if Poll b then len (dialogs b) else 0 in
            (b <| mixWG := mixWG b + readers + 1 |> <| mixState := 1 |> <| looping := true |>, notMixed)
        end
    end.

(** ** Stopping *)

Definition mixStop (e : env) (b : BridgeMix) : BridgeMix * option error :=
  (b <| mixState := 2 |> <| mixStopped := nextChan b |> <| nextChan := S (nextChan b) |>,
   joined ((fun d => bridgeRTPControlErr (stopRTP e d)) <$> dialogs b)).

(** The end of [mixStopWait], once [mixWG] is drained. *)
Definition mixStopped_clear (e : env) (stopErr : option error) (b : BridgeMix) : BridgeMix * option error :=
  (b <| mixState := 0 |> <| closedChans := {[ mixStopped b ]} ∪ closedChans b |>,
   join stopErr (joined ((fun d => bridgeRTPControlErr (startRTP e d)) <$> dialogs b))).

(** The end of the mix loop. *)
Definition mixEnded (b : BridgeMix) : BridgeMix := (if mixState b =? 1 then b <| mixState := 0 |> else b) <| looping := false |>.

(** ** The operations *)

Inductive op := Add (d : string) | Remove (d : string) | MediaUpdated (d : string).

(** What an operation returns: its error, none for a media update. *)
Inductive thread := Waiting (o : op) (ch : nat) | Draining (o : op) (stopErr : option error) | Returned (o : op) (err : option error).

(** [mixStopWait] from its start, or from a wake-up, to where it waits. *)
Definition mixStopWait (e : env) (o : op) (b : BridgeMix) : BridgeMix * thread :=
  if mixState b =? 2 then (b, Waiting o (mixStopped b))
  else let '(b, stopErr) := mixStop e b in (b, Draining o stopErr).

Definition notAnswered : error := ErrNew "dialog must be answered before adding into bridge".
Definition noMedia (d : string) : error := ErrNew ("dialog session has no media " +:+ d).
Definition alreadyIn (d : string) : error := ErrNew ("dialog " +:+ d +:+ " is already in the bridge").
Definition stopFailed (e : error) : error := ErrWrap "failed to stop current mixing" e.

(** The operations up to their wait. *)
Definition AddDialogSession_enter (e : env) (d : string) (b : BridgeMix) : BridgeMix * thread :=
  if negb (confirmed e d) then (b, Returned (Add d) (Some notAnswered))
  else if negb (hasMedia e d) then (b, Returned (Add d) (Some (noMedia d)))
  else mixStopWait e (Add d) b.

Definition RemoveDialogSession_enter (e : env) (d : string) (b : BridgeMix) : BridgeMix * thread :=
  if bool_decide (d ∈ dialogs b) then mixStopWait e (Remove d) b else (b, Returned (Remove d) None).

Definition mediaUpdated_enter (e : env) (d : string) (b : BridgeMix) : BridgeMix * thread :=
  match streamCodecs b ≫= (fun m => m !! d) with
  | None => (b, Returned (MediaUpdated d) None)
  | Some c => if bool_decide (codecOf e d = c) then (b, Returned (MediaUpdated d) None) else mixStopWait e (MediaUpdated d) b
  end.

Definition begin (e : env) (o : op) (b : BridgeMix) : BridgeMix * thread :=
  match o with
  | Add d => AddDialogSession_enter e d b
  | Remove d => RemoveDialogSession_enter e d b
  | MediaUpdated d => mediaUpdated_enter e d b
  end.

Fixpoint remove_first (d : string) (ds : list string) : list string :=
  match ds with
  | [] => []
  | x :: ds => if String.eqb x d then ds else x :: remove_first d ds
  end.

(** The operations after their wait: [err] is what [mixStopWait] returned. *)
Definition AddDialogSession_finish (e : env) (d : string) (err : option error) (b : BridgeMix) : BridgeMix * option error :=
  match err with
  | Some x => let '(b, _) := mixStart e b in (b, Some (stopFailed x))
  | None =>
    if bool_decide (d ∈ dialogs b) then let '(b, _) := mixStart e b in (b, Some (alreadyIn d))
    else
      let b := b <| dialogs := dialogs b ++ [d] |> <| unhooks := {[ d ]} ∪ unhooks b |> in
      let '(b, notMixed) := mixStart e b in
      (b, notMixed !! d)
  end.

Definition RemoveDialogSession_finish (e : env) (d : string) (err : option error) (b : BridgeMix) : BridgeMix * option error :=
  let b := if bool_decide (d ∈ dialogs b) then b <| dialogs := remove_first d (dialogs b) |> <| unhooks := unhooks b ∖ {[ d ]} |> else b in
  let '(b, _) := mixStart e b in (b, stopFailed <$> err).

Definition mediaUpdated_finish (e : env) (b : BridgeMix) : BridgeMix * option error :=
  let '(b, _) := mixStart e b in (b, None).

Definition finish (e : env) (o : op) (err : option error) (b : BridgeMix) : BridgeMix * option error :=
  match o with
  | Add d => AddDialogSession_finish e d err b
  | Remove d => RemoveDialogSession_finish e d err b
  | MediaUpdated d => mediaUpdated_finish e b
  end.

Definition drained (e : env) (o : op) (stopErr : option error) (b : BridgeMix) : BridgeMix * thread :=
  let '(b, err) := mixStopped_clear e stopErr b in
  let '(b, r) := finish e o err b in (b, Returned o r).

(** ** The system: the bridge and the goroutines that call it *)

Inductive step : BridgeMix * list thread -> BridgeMix * list thread -> Prop :=
| S_begin b ts e o b' t : begin e o b = (b', t) -> step (b, ts) (b', ts ++ [t])
| S_wake b ts i o ch e b' t : ts !! i = Some (Waiting o ch) -> ch ∈ closedChans b -> mixStopWait e o b = (b', t) -> step (b, ts) (b', <[i := t]> ts)
| S_drained b ts i o err e b' t : ts !! i = Some (Draining o err) -> mixWG b = 0 -> drained e o err b = (b', t) -> step (b, ts) (b', <[i := t]> ts)
| S_ended b ts : looping b = true -> step (b, ts) (mixEnded b, ts)
| S_done b ts : (if looping b then 1 else 0) < mixWG b -> step (b, ts) (b <| mixWG := mixWG b - 1 |>, ts).

Inductive reachable (wait : Z) (poll : bool) : BridgeMix * list thread -> Prop :=
| reach_init : reachable wait poll (NewBridgeMix wait <| Poll := poll |>, [])
| reach_step s t : reachable wait poll s -> step s t -> reachable wait poll t.

End BridgeMix.

(** * The conference bridge: theorems

    The invariant of the bridge under every interleaving of joins, leaves and
    media updates, and what they return. *)
Import Codecs BridgeMix.

Module BridgeMixProps.

Definition is_draining (t : thread) : bool := match t with Draining _ _ => true | _ => false end.
Definition draining (ts : list thread) : nat := length (List.filter is_draining ts).

(** What holds of the bridge itself. *)
Record BInv (b : BridgeMix) : Prop := {
  bi_state : mixState b = 0 \/ mixState b = 1 \/ mixState b = 2;
  bi_nodup : NoDup (dialogs b);
  bi_hooks : unhooks b = list_to_set (dialogs b);
  bi_wg : (if looping b then 1 else 0) <= mixWG b;
  bi_run : mixState b = 1 -> looping b = true /\ dialogs b <> [] /\ WaitDialogsNum b <= len (dialogs b) /\
    exists m, streamCodecs b = Some m /\ dom m = list_to_set (dialogs b) /\ forall d c, m !! d = Some c -> bridgeSameAudio c (mixCodec b) = true;
  bi_chan : mixState b = 2 -> mixStopped b ∉ closedChans b;
  bi_fresh : (mixStopped b < nextChan b)%nat /\ forall ch, ch ∈ closedChans b -> (ch < nextChan b)%nat }.

(** And of the goroutines that wait in it. *)
Record Inv (s : BridgeMix * list thread) : Prop := {
  i_bridge : BInv s.1;
  i_drain : draining s.2 = if mixState s.1 =? 2 then 1%nat else 0%nat;
  i_wait : forall i o ch, s.2 !! i = Some (Waiting o ch) -> ch ∈ closedChans s.1 \/ (mixState s.1 = 2 /\ ch = mixStopped s.1) }.

(** ** Starting a mix *)

Lemma addStreams_spec e mix ds : NoDup ds ->
  let '(streams, notMixed) := addStreams e mix ds in
  dom streams ∪ dom notMixed = list_to_set ds /\ dom streams ## dom notMixed /\ (forall d c, streams !! d = Some c -> bridgeSameAudio c mix = true).
Proof.
  induction ds as [|d ds IH]; intros HN; [cbn; split; [set_solver|]; split; [set_solver|]; intros ? ?; by rewrite lookup_empty|].
  apply NoDup_cons in HN as [Hd HN]. specialize (IH HN). cbn [addStreams]. destruct (addStreams e mix ds) as [streams notMixed].
  destruct IH as (I1 & I2 & I3). destruct (addDialogStream e d mix) as [c|err] eqn:E.
  - rewrite dom_insert_L. split; [cbn; rewrite <- I1; set_solver|]. split; [set_solver|]. intros d' c' H.
    destruct (decide (d' = d)) as [->|Hne]; [|rewrite lookup_insert_ne in H by done; by eapply I3].
    rewrite lookup_insert_eq in H. injection H as <-. unfold addDialogStream in E. destruct (streamProps e d) as [c0|]; [|done].
    destruct (bridgeSameAudio c0 mix) eqn:Ea; [|done]. cbn in E. destruct (pcmErr e c0); [done|]. by injection E as <-.
  - rewrite dom_insert_L. split; [cbn; rewrite <- I1; set_solver|]. split; [set_solver|done].
Qed.

(** The bridge between a drained stop and the next start. *)
Record Stopped (b : BridgeMix) : Prop := {
  st_state : mixState b = 0;
  st_nodup : NoDup (dialogs b);
  st_hooks : unhooks b = list_to_set (dialogs b);
  st_wg : mixWG b = 0;
  st_loop : looping b = false;
  st_fresh : (mixStopped b < nextChan b)%nat /\ forall ch, ch ∈ closedChans b -> (ch < nextChan b)%nat }.

Lemma Stopped_BInv b : Stopped b -> BInv b.
Proof. intros [H1 H2 H3 H4 H5 H6]. split; try done; rewrite ?H5, ?H4; [by left|done|lia|lia]. Qed.

Lemma filter_not_mixed (notMixed : gmap string error) ds d :
  d ∈ List.filter (fun d => bool_decide (notMixed !! d = None)) ds <-> d ∈ ds /\ notMixed !! d = None.
Proof. by rewrite !list_elem_of_In, List.filter_In, bool_decide_eq_true. Qed.

Lemma NoDup_filter_std {A} (f : A -> bool) ds : NoDup ds -> NoDup (List.filter f ds).
Proof.
  induction 1 as [|d ds Hd HN IH]; cbn; [constructor|]. destruct (f d); [|done]. constructor; [|done].
  intros H. apply Hd. apply list_elem_of_In in H. apply List.filter_In in H as [H _]. by apply list_elem_of_In.
Qed.

Lemma mixStart_spec e b : Stopped b ->
  let '(b', notMixed) := mixStart e b in
  BInv b' /\ mixState b' <> 2 /\ closedChans b' = closedChans b /\ mixStopped b' = mixStopped b /\
  (forall d, d ∈ dialogs b' <-> d ∈ dialogs b /\ notMixed !! d = None).
Proof.
  intros [H1 H2 H3 H4 H5 H6]. destruct b as [ds st ch mc sc uh wn po cc nc wg lo]. cbn in *. subst st wg lo uh. unfold mixStart. cbn -[len].
  destruct ds as [|first ds].
  { split; [by split; cbn; try done; try lia; left|]. repeat split; try done; set_solver. }
  destruct (len (first :: ds) <? wn).
  { split; [by split; cbn; try done; try lia; left|]. repeat split; cbn; try done; set_solver. }
  set (ds' := first :: ds) in *. clearbody ds'. set (mix := if existsb (fun d => bridgeSameAudio (codecOf e d) mc) ds' then mc else codecOf e first). clearbody mix.
  pose proof (addStreams_spec e mix ds' H2) as HA. destruct (addStreams e mix ds') as [streams notMixed]. destruct HA as (A1 & A2 & A3).
  cbn -[len]. pose proof (NoDup_filter_std (fun d => bool_decide (notMixed !! d = None)) ds' H2) as HN.
  pose proof (filter_not_mixed notMixed ds') as HL. set (kept := List.filter _ ds') in *. clearbody kept.
  assert (list_to_set ds' ∖ dom notMixed = list_to_set kept :> gset string) as HU.
  { apply set_eq. intros d. rewrite elem_of_difference, !elem_of_list_to_set, HL, not_elem_of_dom. done. }
  assert (dom streams = list_to_set kept) as HD.
  { rewrite <- HU, <- A1. set_solver. }
  destruct kept as [|x kept'] eqn:El.
  { split; [split; cbn; try done; try lia; by left|]. split; [cbn; lia|]. split; [done|]. split; [done|]. exact HL. }
  rewrite <- El in *. assert (kept <> []) as Hne by (by rewrite El). clear El.
  destruct (Z.ltb_spec (len kept) wn) as [Hw|Hw].
  { split; [split; cbn; try done; try lia; by left|]. split; [cbn; lia|]. split; [done|]. split; [done|]. exact HL. }
  split; [|split; [cbn; lia|]; split; [done|]; split; [done|]; exact HL]. pose proof (len_nonneg kept).
  split; cbn -[len]; try done; [by right; left| |].
  - destruct po; lia.
  - intros _. split; [done|]. split; [done|]. split; [done|]. by exists streams.
Qed.

(** ** The stretches *)

Lemma remove_first_spec d ds : NoDup ds -> NoDup (remove_first d ds) /\ forall x, x ∈ remove_first d ds <-> x ∈ ds /\ x <> d.
Proof.
  induction 1 as [|y ds Hy HN [IH1 IH2]]; cbn; [split; [constructor|set_solver]|]. destruct (String.eqb_spec y d) as [->|Hne].
  - split; [done|]. set_solver.
  - split; [constructor; [rewrite IH2; tauto|done]|]. set_solver.
Qed.

(** What an operation leaves, and what it returns. *)
Lemma finish_spec e o err b : Stopped b ->
  let '(b', r) := finish e o err b in
  BInv b' /\ mixState b' <> 2 /\ closedChans b' = closedChans b /\ mixStopped b' = mixStopped b /\
  match o with
  | Add d => (r = None -> d ∈ dialogs b' /\ d ∉ dialogs b) /\ (r <> None -> d ∈ dialogs b' -> d ∈ dialogs b) /\ forall x, x ∈ dialogs b' -> x ∈ dialogs b \/ x = d
  | Remove d => (d ∉ dialogs b') /\ (r = None <-> err = None) /\ forall x, x ∈ dialogs b' -> x ∈ dialogs b
  | MediaUpdated _ => forall x, x ∈ dialogs b' -> x ∈ dialogs b
  end.
Proof.
  intros HS. pose proof (mixStart_spec e b HS) as HM. unfold finish, AddDialogSession_finish, RemoveDialogSession_finish, mediaUpdated_finish. destruct o as [d|d|d].
  - destruct err as [x|].
    { destruct (mixStart e b) as [b' nm]. destruct HM as (M1 & M2 & M3 & M4 & M5). repeat (split; [done|]). set_solver. }
    destruct (bool_decide (d ∈ dialogs b)) eqn:Ed.
    { destruct (mixStart e b) as [b' nm]. destruct HM as (M1 & M2 & M3 & M4 & M5). repeat (split; [done|]). set_solver. }
    apply bool_decide_eq_false in Ed. set (b1 := b <| dialogs := _ |> <| unhooks := _ |>).
    assert (Stopped b1) as HS1.
    { destruct HS as [S1 S2 S3 S4 S5 S6]. split; cbn; try done; [apply NoDup_app; split; [done|]; split; [set_solver|apply NoDup_singleton]|].
      rewrite S3, list_to_set_app_L. set_solver. }
    pose proof (mixStart_spec e b1 HS1) as HM1. destruct (mixStart e b1) as [b' nm]. destruct HM1 as (M1 & M2 & M3 & M4 & M5).
    repeat (split; [done|]). cbn in M5. split; [|split].
    + intros Hn. split; [|done]. apply M5. split; [set_solver|done].
    + intros Hn Hd. apply M5 in Hd as [_ Hd]. done.
    + intros x Hx. apply M5 in Hx as [Hx _]. set_solver.
  - set (b1 := if bool_decide (d ∈ dialogs b) then _ else b).
    assert (Stopped b1 /\ closedChans b1 = closedChans b /\ mixStopped b1 = mixStopped b /\ forall x, x ∈ dialogs b1 <-> x ∈ dialogs b /\ x <> d) as (HS1 & E1 & E2 & HD).
    { unfold b1. destruct (bool_decide (d ∈ dialogs b)) eqn:Ed; [apply bool_decide_eq_true in Ed|apply bool_decide_eq_false in Ed; split; [done|]; set_solver].
      destruct HS as [S1 S2 S3 S4 S5 S6]. destruct (remove_first_spec d (dialogs b) S2) as [R1 R2]. split; [|cbn; by repeat split; try done; apply R2].
      split; cbn; try done. rewrite S3. apply set_eq. intros x. rewrite elem_of_difference, !elem_of_list_to_set, R2. set_solver. }
    clearbody b1. pose proof (mixStart_spec e b1 HS1) as HM1. destruct (mixStart e b1) as [b' nm]. destruct HM1 as (M1 & M2 & M3 & M4 & M5).
    split; [done|]. split; [done|]. split; [congruence|]. split; [congruence|]. split; [rewrite M5, HD; tauto|]. split; [by destruct err|].
    intros x Hx. apply M5 in Hx as [Hx _]. by apply HD in Hx as [Hx _].
  - destruct (mixStart e b) as [b' nm]. destruct HM as (M1 & M2 & M3 & M4 & M5). repeat (split; [done|]). set_solver.
Qed.

(** The state once the stopping goroutine has waited the mix out. *)
Lemma clear_Stopped e err b : BInv b -> mixState b = 2 -> mixWG b = 0 ->
  Stopped (mixStopped_clear e err b).1 /\ closedChans (mixStopped_clear e err b).1 = {[ mixStopped b ]} ∪ closedChans b /\ dialogs (mixStopped_clear e err b).1 = dialogs b.
Proof.
  intros [B1 B2 B3 B4 B5 B6 [B7 B8]] Hs Hw. split; [|done]. split; cbn; try done.
  - destruct (looping b); [lia|done].
  - split; [done|]. intros ch. rewrite elem_of_union, elem_of_singleton. intros [->|H]; [done|by apply B8].
Qed.

(** Going into the wait. *)
Lemma mixStopWait_spec e o b : BInv b ->
  let '(b', t) := mixStopWait e o b in
  BInv b' /\ mixState b' = 2 /\ closedChans b' = closedChans b /\ dialogs b' = dialogs b /\ mixWG b' = mixWG b /\
  (if mixState b =? 2 then b' = b /\ t = Waiting o (mixStopped b) else is_draining t = true).
Proof.
  intros HB. unfold mixStopWait. destruct (Z.eqb_spec (mixState b) 2) as [Hs|Hs]; [done|].
  destruct HB as [B1 B2 B3 B4 B5 B6 [B7 B8]]. cbn. split; [|done]. split; cbn; try done; [by right; right|intros _ H; apply B8 in H; lia|].
  split; [lia|]. intros ch Hc. apply B8 in Hc. lia.
Qed.

Lemma begin_spec e o b : BInv b ->
  let '(b', t) := begin e o b in
  (b' = b /\ exists r, t = Returned o r) \/ mixStopWait e o b = (b', t).
Proof.
  intros HB. unfold begin, AddDialogSession_enter, RemoveDialogSession_enter, mediaUpdated_enter. destruct o as [d|d|d].
  - destruct (confirmed e d); cbn; [|left; eauto]. destruct (hasMedia e d); cbn; [|left; eauto]. destruct (mixStopWait e (Add d) b). by right.
  - destruct (bool_decide _); [|left; eauto]. destruct (mixStopWait e (Remove d) b). by right.
  - destruct (streamCodecs b ≫= _); [|left; eauto]. destruct (bool_decide _); [left; eauto|]. destruct (mixStopWait e (MediaUpdated d) b). by right.
Qed.

(** ** The invariant *)

Definition drain_count (t : thread) : nat := if is_draining t then 1 else 0.

Lemma draining_app ts t : draining (ts ++ [t]) = (draining ts + drain_count t)%nat.
Proof. unfold draining, drain_count. rewrite List.filter_app, length_app. cbn. by destruct (is_draining t). Qed.
Lemma draining_insert ts i old t : ts !! i = Some old -> (draining (<[i := t]> ts) + drain_count old = draining ts + drain_count t)%nat.
Proof.
  unfold draining, drain_count. revert i. induction ts as [|x ts IH]; intros [|i] H; [done..| |].
  - injection H as ->. cbn. destruct (is_draining old), (is_draining t); cbn; lia.
  - specialize (IH i H). change (<[S i := t]> (x :: ts)) with (x :: <[i := t]> ts). cbn [List.filter]. destruct (is_draining x); cbn [length]; lia.
Qed.

Lemma waiting_insert (ts : list thread) i t j o ch : <[i := t]> ts !! j = Some (Waiting o ch) -> t = Waiting o ch \/ ts !! j = Some (Waiting o ch).
Proof.
  intros H. destruct (decide (i = j)) as [->|Hne]; [|right; by rewrite list_lookup_insert_ne in H].
  destruct (decide (j < length ts)%nat).
  - rewrite list_lookup_insert_eq in H by done. left. congruence.
  - rewrite list_insert_ge in H by lia. by right.
Qed.

(** Entering the wait, from the start of an operation or after a wake-up. *)
Lemma wait_inv b ts e o b' t (put : thread -> list thread) : BInv b -> draining ts = (if mixState b =? 2 then 1%nat else 0%nat) ->
  (forall i o ch, ts !! i = Some (Waiting o ch) -> ch ∈ closedChans b \/ (mixState b = 2 /\ ch = mixStopped b)) ->
  mixStopWait e o b = (b', t) -> draining (put t) = (draining ts + drain_count t)%nat ->
  (forall i o ch, put t !! i = Some (Waiting o ch) -> t = Waiting o ch \/ exists j, ts !! j = Some (Waiting o ch)) -> Inv (b', put t).
Proof.
  intros HB Hd Hw E Hput Hlook. pose proof (mixStopWait_spec e o b HB) as HS. rewrite E in HS. destruct HS as (S1 & S2 & S3 & S4 & S5 & S6).
  destruct (Z.eqb_spec (mixState b) 2) as [Hs|Hs].
  - destruct S6 as [-> ->]. split; cbn [fst snd]; [done|rewrite Hput, Hd; cbn; by rewrite Hs|].
    intros i o' ch Hi. destruct (Hlook i o' ch Hi) as [[= -> <-]|(j & Hj)]; [by right|by eapply Hw].
  - split; cbn [fst snd]; [done|unfold drain_count in Hput; rewrite Hput, Hd, S6, S2; done|].
    intros i o' ch Hi. destruct (Hlook i o' ch Hi) as [->|(j & Hj)]; [done|]. rewrite S3. destruct (Hw j o' ch Hj) as [Hc|[Hc _]]; [by left|done].
Qed.

Lemma step_inv s t : Inv s -> step s t -> Inv t.
Proof.
  intros [HB Hd Hw] HS. destruct HS as [b ts e o b' t E|b ts i o ch e b' t Hi Hc E|b ts i o err e b' t Hi Hwg E|b ts Hl|b ts Hg]; cbn [fst snd] in *.
  - pose proof (begin_spec e o b HB) as HG. rewrite E in HG. destruct HG as [[-> [r ->]]|HG].
    + split; cbn [fst snd]; [done|rewrite draining_app, Hd; apply Nat.add_0_r|]. intros i o' ch Hi. apply lookup_snoc_Some in Hi as [[_ Hi]|[_ Hi]]; [by eapply Hw|done].
    + apply (wait_inv b ts e o b' t (fun t => ts ++ [t])); try done; [apply draining_app|].
      intros i o' ch Hi. apply lookup_snoc_Some in Hi as [[_ Hi]|[_ Hi]]; [right; by exists i|left; congruence].
  - apply (wait_inv b ts e o b' t (fun t => <[i := t]> ts)); try done.
    + pose proof (draining_insert ts i _ t Hi) as H. cbn in H. lia.
    + intros j o' ch' Hj. apply waiting_insert in Hj as [Hj|Hj]; [by left|right; by exists j].
  - assert (mixState b = 2) as Hs.
    { destruct (Z.eqb_spec (mixState b) 2) as [H|H]; [done|]. pose proof (draining_insert ts i _ (Returned o None) Hi) as H1. cbn in H1. lia. }
    destruct (clear_Stopped e err b HB Hs Hwg) as (C1 & C2 & C3). unfold drained in E. destruct (mixStopped_clear e err b) as [b1 err1]. cbn [fst] in *.
    pose proof (finish_spec e o err1 b1 C1) as HF. destruct (finish e o err1 b1) as [b2 r]. injection E as <- <-. destruct HF as (F1 & F2 & F3 & F4 & _).
    rewrite Hs in Hd. cbn in Hd. split; cbn [fst snd]; [done| |].
    + pose proof (draining_insert ts i _ (Returned o r) Hi) as H. cbn in H. replace (mixState b2 =? 2) with false by lia. lia.
    + intros j o' ch Hj. apply waiting_insert in Hj as [Hj|Hj]; [done|]. left. rewrite F3, C2. destruct (Hw j o' ch Hj) as [H|[_ ->]]; set_solver.
  - destruct HB as [B1 B2 B3 B4 B5 B6 B7]. rewrite Hl in B4. unfold mixEnded. destruct (Z.eqb_spec (mixState b) 1) as [H1|H1].
    + split; cbn [fst snd]; [split; cbn; try done; try lia; by left| |]; cbn; [rewrite Hd, H1; done|]. intros i o ch Hi. destruct (Hw i o ch Hi) as [H|[H _]]; [by left|lia].
    + split; cbn [fst snd]; [split; cbn; try done; lia| |]; cbn; done.
  - destruct HB as [B1 B2 B3 B4 B5 B6 B7]. split; cbn [fst snd]; [split; cbn; try done; lia| |]; cbn; done.
Qed.

Lemma bridge_inv wait poll s : reachable wait poll s -> Inv s.
Proof.
  induction 1 as [|s t _ IH HS]; [|by eapply step_inv]. split; cbn; [|done|done].
  split; cbn; try done; [by left|constructor|split; [lia|set_solver]].
Qed.

(** ** The theorems *)

(** C20. Under every interleaving of joins, leaves, media updates and the mix's own
    goroutines, no mix starts while a goroutine of an earlier one is left; no
    dialog is in the bridge twice; exactly the dialogs in it have a media update
    hook; and while a mix runs it has a stream for exactly the dialogs in the
    bridge, at least as many as the bridge waits for, all with the sample rate and
    the frame duration of the mix. *)
Theorem conference_stays_consistent wait poll s t : reachable wait poll s -> step s t ->
  (mixWG s.1 < mixWG t.1 -> mixWG s.1 = 0 /\ looping s.1 = false) /\
  NoDup (dialogs t.1) /\ unhooks t.1 = list_to_set (dialogs t.1) /\
  (mixState t.1 = 1 -> dialogs t.1 <> [] /\ WaitDialogsNum t.1 <= len (dialogs t.1) /\
     exists m, streamCodecs t.1 = Some m /\ dom m = list_to_set (dialogs t.1) /\ forall d c, m !! d = Some c -> bridgeSameAudio c (mixCodec t.1) = true).
Proof.
  intros Hr HS. pose proof (bridge_inv _ _ _ Hr) as HI. pose proof (step_inv _ _ HI HS) as [[B1 B2 B3 B4 B5 B6 B7] _ _]. destruct HI as [HB Hd Hw].
  split; [|split; [done|]; split; [done|]; intros H; by apply B5].
  assert (forall e o b b' t, BInv b -> mixStopWait e o b = (b', t) -> mixWG b' = mixWG b) as HW.
  { intros e o b b' u Hb E. pose proof (mixStopWait_spec e o b Hb) as HM. rewrite E in HM. by destruct HM as (_ & _ & _ & _ & HM & _). }
  destruct HS as [b ts e o b' t E|b ts i o ch e b' t Hi Hc E|b ts i o err e b' t Hi Hwg E|b ts Hl|b ts Hg]; cbn [fst snd] in *.
  - pose proof (begin_spec e o b HB) as HG. rewrite E in HG. destruct HG as [[-> _]|HG]; [lia|]. rewrite (HW _ _ _ _ _ HB HG). lia.
  - rewrite (HW _ _ _ _ _ HB E). lia.
  - intros _. split; [done|]. destruct HB as [_ _ _ C4 _ _ _]. destruct (looping b); [lia|done].
  - unfold mixEnded. destruct (mixState b =? 1); cbn; lia.
  - cbn. lia.
Qed.

(** No operation on the bridge is left waiting for good: as long as one has not
    returned, one goroutine, and only one, is waiting for the mix to finish, or
    the channel some waiting operation waits on is already closed. *)
Theorem conference_no_lost_wakeup wait poll b ts : reachable wait poll (b, ts) ->
  (draining ts <= 1)%nat /\
  ((exists i o ch, ts !! i = Some (Waiting o ch)) ->
    (exists i o err, ts !! i = Some (Draining o err) /\ mixState b = 2) \/ exists i o ch, ts !! i = Some (Waiting o ch) /\ ch ∈ closedChans b).
Proof.
  intros Hr. destruct (bridge_inv _ _ _ Hr) as [HB Hd Hw]. cbn [fst snd] in *. split; [destruct (mixState b =? 2); lia|].
  intros (i & o & ch & Hi). destruct (Hw i o ch Hi) as [Hc|[Hs _]]; [right; by exists i, o, ch|]. left. rewrite Hs in Hd. cbn in Hd.
  clear - Hd Hs. unfold draining in Hd. destruct (List.filter is_draining ts) as [|t l] eqn:E; [done|].
  assert (In t (List.filter is_draining ts)) as Ht by (rewrite E; by left). apply List.filter_In in Ht as [Ht1 Ht2].
  apply list_elem_of_In, list_elem_of_lookup in Ht1 as [j Hj]. destruct t as [o' ch|o' err|o' err]; try done. by exists j, o', err.
Qed.

(** What joins and leaves return is what they did: a join that returns no error
    has put the dialog into the bridge, which did not have it, one that returns
    an error has not; after a leave the dialog is out, even when stopping the mix
    failed, and the error of the stop is returned; and no operation brings in
    another dialog, whatever the operations around it do. *)
Theorem join_and_leave_results wait poll b ts i o err e b' r : reachable wait poll (b, ts) -> ts !! i = Some (Draining o err) -> mixWG b = 0 ->
  drained e o err b = (b', Returned o r) ->
  match o with
  | Add d => (r = None -> d ∈ dialogs b' /\ d ∉ dialogs b) /\ (r <> None -> d ∈ dialogs b' -> d ∈ dialogs b) /\ forall x, x ∈ dialogs b' -> x ∈ dialogs b \/ x = d
  | Remove d => (d ∉ dialogs b') /\ (r = None -> err = None) /\ forall x, x ∈ dialogs b' -> x ∈ dialogs b
  | MediaUpdated _ => forall x, x ∈ dialogs b' -> x ∈ dialogs b
  end.
Proof.
  intros Hr Hi Hw E. destruct (bridge_inv _ _ _ Hr) as [HB Hd _]. cbn [fst snd] in *.
  assert (mixState b = 2) as Hs.
  { destruct (Z.eqb_spec (mixState b) 2) as [H|H]; [done|]. pose proof (draining_insert ts i _ (Returned o None) Hi) as H1. cbn in H1. lia. }
  destruct (clear_Stopped e err b HB Hs Hw) as (C1 & _ & C3). unfold drained in E.
  destruct (mixStopped_clear e err b) as [b1 err1] eqn:Ec. cbn [fst] in *. pose proof (finish_spec e o err1 b1 C1) as HF.
  destruct (finish e o err1 b1) as [b2 r2]. injection E as <- <-. destruct HF as (_ & _ & _ & _ & HF). rewrite C3 in HF.
  destruct o as [d|d|d]; [done| |done]. destruct HF as (H1 & H2 & H3). split; [done|]. split; [|done]. intros H. apply H2 in H. subst err1.
  unfold mixStopped_clear in Ec. injection Ec as _ Ec. unfold join in Ec. destruct err; [|done]. by destruct (joined _).
Qed.

(** ** A concrete bridge *)

Definition ex_env : env :=
  {| confirmed := fun _ => true; hasMedia := fun _ => true; codecOf := fun _ => CodecAudioUlaw; stopRTP := fun _ => None; startRTP := fun _ => None;
     streamProps := fun _ => inl CodecAudioUlaw; pcmErr := fun _ => None |}.
Definition ex_new : BridgeMix := NewBridgeMix 1 <| Poll := true |>.
Definition ex_begin : BridgeMix * thread := begin ex_env (Add "a") ex_new.
Definition ex_begun : list thread := [] ++ [ex_begin.2].
Definition ex_drained : BridgeMix * thread := drained ex_env (Add "a") None ex_begin.1.
Definition ex_joined : list thread := <[0%nat := ex_drained.2]> ex_begun.
(** A second join begins while the first waits. *)
Definition ex_second : BridgeMix * thread := begin ex_env (Add "b") ex_begin.1.
Definition ex_waiting : list thread := ex_begun ++ [ex_second.2].

Lemma ex_begun_reachable : reachable 1 true (ex_begin.1, ex_begun).
Proof. eapply reach_step; [apply reach_init|]. apply (S_begin _ [] ex_env (Add "a")), surjective_pairing. Qed.
Lemma ex_waiting_reachable : reachable 1 true (ex_second.1, ex_waiting).
Proof. eapply reach_step; [apply ex_begun_reachable|]. apply (S_begin _ _ ex_env (Add "b")), surjective_pairing. Qed.
Lemma ex_joined_step : step (ex_begin.1, ex_begun) (ex_drained.1, ex_joined).
Proof.
  assert (ex_begun !! 0%nat = Some (Draining (Add "a") None)) as H1 by (vm_compute; reflexivity).
  assert (mixWG ex_begin.1 = 0) as H2 by (vm_compute; reflexivity).
  assert (drained ex_env (Add "a") None ex_begin.1 = (ex_drained.1, ex_drained.2)) as H3 by (unfold ex_drained; apply surjective_pairing).
  exact (S_drained ex_begin.1 ex_begun 0 (Add "a") None ex_env ex_drained.1 ex_drained.2 H1 H2 H3).
Qed.

Definition ex_after : BridgeMix * list thread := (ex_drained.1, ex_joined).
Lemma conference_stays_consistent_witness : mixWG ex_after.1 = 2 /\ mixState ex_after.1 = 1 /\ unhooks ex_after.1 = list_to_set (dialogs ex_after.1).
Proof.
  destruct (conference_stays_consistent 1 true (ex_begin.1, ex_begun) ex_after ex_begun_reachable ex_joined_step) as (_ & _ & H & _).
  split; [vm_compute; reflexivity|]. split; [vm_compute; reflexivity|]. exact H.
Defined.

Lemma conference_no_lost_wakeup_witness : exists i o err, ex_waiting !! i = Some (Draining o err).
Proof.
  destruct (conference_no_lost_wakeup 1 true ex_second.1 ex_waiting ex_waiting_reachable) as [_ H].
  destruct H as [(i & o & err & H & _)|(i & o & ch & _ & H)].
  - exists 1%nat, (Add "b"), 1%nat. vm_compute. reflexivity.
  - exists i, o, err. exact H.
  - exfalso. change (closedChans ex_second.1) with (∅ : gset nat) in H. exact (not_elem_of_empty ch H).
Defined.

Lemma join_and_leave_results_witness : "a" ∈ dialogs ex_drained.1.
Proof.
  destruct (join_and_leave_results 1 true ex_begin.1 ex_begun 0 (Add "a") None ex_env ex_drained.1 None) as [H _].
  - exact ex_begun_reachable.
  - vm_compute. reflexivity.
  - vm_compute. reflexivity.
  - vm_compute. reflexivity.
  - apply H. reflexivity.
Defined.

End BridgeMixProps.
