(* ===== verification/Register.v ===== *)
(** * Registration

    [register_transaction.go], the control loop of [register_keepalive.go] and the
    loop of [Diago.Register] in [diago.go]: the lifetime a registrar grants, when
    it is refreshed, and what a failure does. The SIP client is an argument: what
    [client.Do] and [client.DoDigestAuth] return. *)
From S2P Require Import Prelude GoStrings Float64.
Import GoStrings Float64.

Module Register.

(** 0.75 *)
Definition registerRefreshRatio : float64 := fdiv (of_Z 3) (of_Z 4).
Definition registerRetryMin : Z := 30 * Second.
Definition registerRetryBackoffInitial : Z := Second.
Definition registerRetryBackoffMax : Z := 5 * Minute.

(** Of a response: its status, the expires parameter of its Contact if it has
    one, and the values of the headers read. *)
Record response := {
  StatusCode : Z;
  contactExpires : option string;
  header : string -> option string }.

Inductive reg_error := Failed (e : error) | RegisterResponseError (res : response).

Record RegisterTransaction := {
  opts_Expiry : Z;
  RetryInterval : Z;
  expiry : Z;
  grantedExpires : Z;
  lastRegistered : Z;
  expiredEmitted : bool }.
#[export] Instance eta_register : Eta RegisterTransaction := fun t =>
  {| opts_Expiry := opts_Expiry t; RetryInterval := RetryInterval t; expiry := expiry t; grantedExpires := grantedExpires t;
     lastRegistered := lastRegistered t; expiredEmitted := expiredEmitted t |}.

Definition newRegisterTransaction (requested interval : Z) : RegisterTransaction :=
  {| opts_Expiry := requested; RetryInterval := interval; expiry := 0; grantedExpires := 0; lastRegistered := time_zero; expiredEmitted := false |}.

Definition recordGrant (granted now : Z) (t : RegisterTransaction) : RegisterTransaction :=
  t <| expiry := granted |> <| grantedExpires := granted |> <| lastRegistered := now |> <| expiredEmitted := false |>.

Definition setExpiry (d : Z) (t : RegisterTransaction) : RegisterTransaction := t <| expiry := d |>.

(** ** Requests *)

Definition isDigestChallenge (res : response) : bool :=
  if StatusCode res =? 401 then bool_decide (is_Some (header res "WWW-Authenticate"))
  else if StatusCode res =? 407 then bool_decide (is_Some (header res "Proxy-Authenticate"))
  else false.

(** A positive number of seconds. *)
Definition grant_of (v : option string) : option Z :=
  match v with
  | None => None
  | Some v => match Atoi (TrimSpace v) with
              | (n, None) => if 0 <? n then Some (i64 (n * Second)) else None
              | (_, Some _) => None
              end
  end.

Definition grantedExpiry (res : response) (requested : Z) : Z :=
  match grant_of (contactExpires res) with
  | Some d => d
  | None => default requested (grant_of (header res "Expires"))
  end.

(** [do_] and [auth] are what the client returned for the request and, after a
    challenge, for the one with credentials. *)
Definition doRequest (do_ auth : response + error) : response + reg_error :=
  let wrap (e : error) := Failed (ErrWrap "fail to get response" e) in
  match do_ with
  | inr e => inr (wrap e)
  | inl res =>
    match if isDigestChallenge res then auth else inl res with
    | inr e => inr (wrap e)
    | inl res => if StatusCode res =? 200 then inl res else inr (RegisterResponseError res)
    end
  end.

Definition Qualify (now : Z) (do_ auth : response + error) (t : RegisterTransaction) : RegisterTransaction * option reg_error :=
  match doRequest do_ auth with
  | inr e => (t, Some e)
  | inl res => (recordGrant (grantedExpiry res (opts_Expiry t)) now t, None)
  end.

(** [refresh] is [Qualify] with its logs. *)
Definition refresh := Qualify.

Definition calcRetry (e : Z) (t : RegisterTransaction) : Z :=
  let calc := fmul (Seconds e) registerRefreshRatio in
  let retry := i64 (to_Z calc * Second) in
  let ri := RetryInterval t in
  let retry := if (0 <? ri) && ((retry <=? 0) || (ri <? retry)) then ri else retry in
  if retry <=? 0 then registerRetryMin else retry.

Definition cadence (t : RegisterTransaction) : Z := calcRetry (expiry t) t.

Definition expired (now : Z) (t : RegisterTransaction) : RegisterTransaction * bool :=
  if expiredEmitted t || IsZero (lastRegistered t) || (grantedExpires t <=? 0) then (t, false)
  else if negb (lastRegistered t + grantedExpires t <? now) then (t, false)
  else (t <| expiredEmitted := true |>, true).

(** ** The refresh loop *)

(** One turn: whether the context ended while the timer ran; what the refresh
    got, when it returned; whether the context had ended by then. *)
Record attempt := { a_cancelled : bool; a_do : response + error; a_auth : response + error; a_now : Z; a_ended : bool }.

Inductive loop_end := Cancelled | GaveUp (e : reg_error).

(** The waits before each refresh, the last one begun included, the transaction
    and how the loop ended, [None] while it goes on. *)
Fixpoint registerRefreshLoop (initialBackoff maxBackoff : Z) (retry backoff : Z) (turns : list attempt) (t : RegisterTransaction) :
    list Z * RegisterTransaction * option loop_end :=
  match turns with
  | [] => ([retry], t, None)
  | a :: turns =>
    if a_cancelled a then ([retry], t, Some Cancelled)
    else
      let '(t, err) := refresh (a_now a) (a_do a) (a_auth a) t in
      if a_ended a then ([retry], t, Some Cancelled)
      else
        let go_on retry' backoff' t :=
          let '(waits, t, e) := registerRefreshLoop initialBackoff maxBackoff retry' backoff' turns t in (retry :: waits, t, e) in
        match err with
        | Some e =>
          let '(t, gone) := expired (a_now a) t in
          if gone then ([retry], t, Some (GaveUp e))
          else go_on backoff (Z.min (backoff * 2) maxBackoff) t
        | None => go_on (cadence t) initialBackoff t
        end
  end.

Definition QualifyLoop (turns : list attempt) (t : RegisterTransaction) : list Z * RegisterTransaction * option loop_end :=
  registerRefreshLoop registerRetryBackoffInitial registerRetryBackoffMax (calcRetry (expiry t) t) registerRetryBackoffInitial turns t.

(** ** Diago.Register *)

(** What the loop of [Register] does with the error of a [QualifyLoop]: return
    it ([None]) or go on with another cadence. *)
Definition afterQualify (e : loop_end) (t : RegisterTransaction) : option RegisterTransaction :=
  match e with
  | Cancelled => None
  | GaveUp (Failed _) => Some (setExpiry (5 * Second) t)
  | GaveUp (RegisterResponseError res) =>
    let c := StatusCode res in
    if (c =? 401) || (c =? 407) then None
    else if (500 <? c) && (c <? 600) then None
    else if (c <? 200) || (699 <? c) then None
    else
      let ra := match header res "Retry-After" with Some v => (Atoi v).1 | None => 0 end in
      Some (setExpiry (if 0 <? ra then i64 (ra * Second) else 5 * Second) t)
  end.

(** ** Keepalive *)

Definition optionsMaxFailures : Z := 3.

(** The probes' turns: whether the context ended before, the error, whether the
    context had ended after. *)
Fixpoint optionsKeepaliveLoop (maxFailures consecutive : Z) (probes : list (bool * option error * bool)) : option (option error) :=
  match probes with
  | [] => None
  | (cancelled, err, ended) :: probes =>
    if cancelled || ended then Some None
    else match err with
    | Some e => if maxFailures <=? consecutive + 1 then Some (Some e) else optionsKeepaliveLoop maxFailures (consecutive + 1) probes
    | None => optionsKeepaliveLoop maxFailures 0 probes
    end
  end.

(** ** When the binding is refreshed *)

Lemma calcRetry_ratio : forallb (fun n => to_Z (fmul (Seconds (n * Second)) registerRefreshRatio) =? n * 3 / 4) (seqZ 0 3601) = true.
Proof. vm_compute. reflexivity. Qed.

(** Three quarters of a whole number of seconds, for grants of up to an hour. *)
Lemma calcRetry_floor n : 0 <= n <= 3600 -> to_Z (fmul (Seconds (n * Second)) registerRefreshRatio) = n * 3 / 4.
Proof.
  intros Hn. pose proof calcRetry_ratio as H. rewrite List.forallb_forall in H. apply Z.eqb_eq, H, list_elem_of_In, elem_of_seqZ. lia.
Qed.

End Register.

(** * Registration: theorems

    The binding is refreshed before it lapses, an outage is ridden out with
    growing waits, and is escalated exactly when the binding has lapsed. *)
Import GoStrings Float64 Register.

Module RegisterProps.

(** The refresh comes before the binding lapses: for a grant of [n] whole
    seconds, two at least and up to an hour, the wait is positive and at most
    three quarters of the grant, whatever retry interval the caller asks for, and
    the caller's interval whenever it is shorter than that. A grant of one second
    is refreshed only after thirty. *)
Theorem refresh_before_expiry n t : 2 <= n <= 3600 ->
  0 < calcRetry (n * Second) t /\ 4 * calcRetry (n * Second) t <= 3 * (n * Second) /\
  (0 < RetryInterval t < n * 3 / 4 * Second -> calcRetry (n * Second) t = RetryInterval t) /\
  (RetryInterval t <= 0 -> calcRetry (1 * Second) t = 30 * Second).
Proof.
  intros Hn. unfold calcRetry. rewrite (calcRetry_floor n), (calcRetry_floor 1) by lia.
  assert (1 <= n * 3 / 4) by lia. rewrite !i64_small by (unfold Second; lia). unfold registerRetryMin, Second.
  replace (n * 3 / 4 * 1000000000 <=? 0) with false by lia. cbn [orb].
  destruct (Z.ltb_spec 0 (RetryInterval t)), (Z.ltb_spec (RetryInterval t) (n * 3 / 4 * 1000000000)); cbn [andb];
    (split; [case_match; lia|]); (split; [case_match; lia|]); (split; [intros; case_match; lia|]); intros; reflexivity || lia.
Qed.

(** ** Outages *)

Definition fails (a : attempt) (e : reg_error) : Prop :=
  a_cancelled a = false /\ a_ended a = false /\ doRequest (a_do a) (a_auth a) = inr e.

(** A transaction that holds a binding of [g] since [L]. *)
Definition holds (L g : Z) (t : RegisterTransaction) : Prop :=
  expiredEmitted t = false /\ lastRegistered t = L /\ grantedExpires t = g /\ L <> time_zero /\ 0 < g.

(** The wait after the [k]th failure in a row. *)
Definition backoff_after (k : nat) : Z := Z.min (2 ^ Z.of_nat k * Second) registerRetryBackoffMax.

Lemma backoff_next k : Z.min (backoff_after k * 2) registerRetryBackoffMax = backoff_after (S k).
Proof.
  unfold backoff_after, registerRetryBackoffMax, Minute, Second. rewrite Nat2Z.inj_succ, Z.pow_succ_r by lia.
  pose proof (Z.pow_pos_nonneg 2 (Z.of_nat k)). lia.
Qed.
Lemma backoff_min k : Second <= backoff_after k.
Proof.
  unfold backoff_after, registerRetryBackoffMax, Minute, Second. pose proof (Z.pow_pos_nonneg 2 (Z.of_nat k)). lia.
Qed.

Lemma loop_outage turns es L g t retry k : Forall2 fails turns es -> holds L g t ->
  let '(waits, _, e) := registerRefreshLoop registerRetryBackoffInitial registerRetryBackoffMax retry (backoff_after k) turns t in
  match list_find (fun a => L + g < a_now a) turns with
  | Some (i, _) => e = GaveUp <$> es !! i /\ length waits = S i
  | None => e = None /\ length waits = S (length turns)
  end /\
  waits !! 0%nat = Some retry /\ forall j w, waits !! S j = Some w -> w = backoff_after (k + j).
Proof.
  intros HF Ht. revert retry k. induction HF as [|a err turns es (F1 & F2 & F3) HF IH]; intros retry k; [by cbn; repeat split|].
  cbn [registerRefreshLoop]. rewrite F1. unfold refresh, Qualify. rewrite F3, F2. destruct Ht as (T1 & T2 & T3 & T4 & T5) eqn:Et. clear Et.
  unfold expired, IsZero. rewrite T1, T2, T3. apply Z.eqb_neq in T4 as T4'. rewrite T4'. replace (g <=? 0) with false by lia. cbn [orb].
  cbn [list_find]. destruct (Z.ltb_spec (L + g) (a_now a)) as [Hl|Hl]; cbn [negb].
  - rewrite decide_True by done. split; [done|]. by split.
  - rewrite decide_False by lia. rewrite backoff_next. specialize (IH (backoff_after k) (S k)).
    destruct (registerRefreshLoop _ _ _ _ turns t) as [[waits t'] e]. destruct IH as (IH1 & IH2 & IH3). split; [|split; [done|]].
    + destruct (list_find _ turns) as [[i b]|]; cbn; destruct IH1 as [-> ->]; done.
    + intros [|j] w Hw.
      * change (waits !! 0%nat = Some w) in Hw. rewrite IH2 in Hw. injection Hw as <-. by rewrite Nat.add_0_r.
      * rewrite (IH3 j w Hw). f_equal. lia.
Qed.

(** Refreshes as the loop's timer spaces them, none before the binding. *)
Definition spaced (L : Z) (waits : list Z) (turns : list attempt) : Prop :=
  (forall a, turns !! 0%nat = Some a -> L <= a_now a) /\
  forall i a b w, turns !! i = Some a -> turns !! S i = Some b -> waits !! S i = Some w -> a_now a + w <= a_now b.

Lemma spaced_time L waits turns i a : spaced L waits turns -> (forall j w, waits !! S j = Some w -> Second <= w) -> (length turns <= length waits)%nat ->
  turns !! i = Some a -> L + Z.of_nat i * Second <= a_now a.
Proof.
  intros [H0 HS] Hw Hl. revert a. induction i as [|i IH]; intros a Ha; [specialize (H0 a Ha); lia|].
  assert (exists b, turns !! i = Some b) as [b Hb] by (apply lookup_lt_is_Some; apply lookup_lt_Some in Ha; lia).
  assert (exists w, waits !! S i = Some w) as [w Hww] by (apply lookup_lt_is_Some; apply lookup_lt_Some in Ha; lia).
  specialize (IH b Hb). specialize (HS i b a w Hb Ha Hww). specialize (Hw i w Hww). lia.
Qed.

(** A registrar that stops answering is noticed when, and only when, the binding
    has lapsed: while every refresh fails the loop waits one second after the
    first failure, twice as long after each further one, five minutes at most; it
    gives up exactly at the first refresh that fails after the granted lifetime
    has passed, with the error of that refresh; and, its timer keeping the waits,
    it has given up after at most as many refreshes as the grant has seconds, and
    two more. *)
Theorem outage_escalates_when_lapsed turns es L g t : Forall2 fails turns es -> holds L g t ->
  let '(waits, _, e) := QualifyLoop turns t in
  match list_find (fun a => L + g < a_now a) turns with
  | Some (i, _) => e = GaveUp <$> es !! i /\ length waits = S i
  | None => e = None /\ length waits = S (length turns)
  end /\
  (forall j w, waits !! S j = Some w -> w = Z.min (2 ^ Z.of_nat j * Second) (5 * Minute)) /\
  (spaced L waits turns -> g + Second < len turns * Second -> exists err, e = Some (GaveUp err)).
Proof.
  intros HF Ht. unfold QualifyLoop. pose proof (loop_outage turns es L g t (calcRetry (expiry t) t) 0 HF Ht) as HL.
  change (backoff_after 0) with registerRetryBackoffInitial in HL.
  destruct (registerRefreshLoop _ _ _ _ turns t) as [[waits t'] e]. destruct HL as (H1 & _ & H3). split; [done|]. split; [exact H3|].
  intros Hsp Hlen. destruct (list_find _ turns) as [[i a]|] eqn:Ef.
  - destruct H1 as [-> _]. apply list_find_Some in Ef as (Hi & _). destruct (Forall2_lookup_l _ _ _ _ _ HF Hi) as (err & -> & _). by exists err.
  - exfalso. destruct Ht as (_ & _ & _ & _ & Hg). destruct H1 as [_ Hw]. apply list_find_None in Ef. unfold len in Hlen.
    assert (exists a, turns !! (length turns - 1)%nat = Some a) as [a Ha] by (apply lookup_lt_is_Some; unfold Second in Hlen; lia).
    rewrite Forall_forall in Ef. apply (Ef a); [by eapply list_elem_of_lookup_2|].
    pose proof (spaced_time L waits turns (length turns - 1) a Hsp) as HT. specialize (HT ltac:(intros j w Hj; rewrite (H3 j w Hj); apply backoff_min) ltac:(lia) Ha).
    unfold Second in *. lia.
Qed.

(** ** Concrete registrations *)

Definition ex_transaction : RegisterTransaction := recordGrant (3 * Second) (10 * Second) (newRegisterTransaction (3600 * Second) 0).
Definition ex_503 : response := {| StatusCode := 503; contactExpires := None; header := fun _ => None |}.
Definition ex_fail (now : Z) : attempt := {| a_cancelled := false; a_do := inl ex_503; a_auth := inl ex_503; a_now := now; a_ended := false |}.

Lemma refresh_before_expiry_witness : calcRetry (120 * Second) ex_transaction <= 90 * Second.
Proof.
  destruct (refresh_before_expiry 120 ex_transaction ltac:(lia)) as (_ & H & _). unfold Second in *. lia.
Defined.

Lemma outage_escalates_when_lapsed_witness :
  (QualifyLoop [ex_fail (12 * Second); ex_fail (13 * Second); ex_fail (15 * Second); ex_fail (19 * Second)] ex_transaction).2 = Some (GaveUp (RegisterResponseError ex_503)).
Proof.
  pose proof (outage_escalates_when_lapsed [ex_fail (12 * Second); ex_fail (13 * Second); ex_fail (15 * Second); ex_fail (19 * Second)]
    (replicate 4 (RegisterResponseError ex_503)) (10 * Second) (3 * Second) ex_transaction) as H.
  destruct (QualifyLoop _ ex_transaction) as [[waits t'] e]. destruct H as [[H _] _].
  - repeat constructor.
  - repeat split; discriminate.
  - cbn [snd]. rewrite H. reflexivity.
Defined.

End RegisterProps.
