(* ===== verification/Refer.v ===== *)
(** * REFER and its subscription

    The REFER attempts of a dialog: [dialog_media.go] from [beginReferAttempt] to
    [retireReferAttemptLocked], and of [dialog_session.go] the reading of a NOTIFY,
    its handling and the observation of a REFER. Attempts are shared objects that
    the dialog and the callers hold, so they live in a store and are named by
    their index; everything runs under one lock, so each definition is one step.
    Time is an argument; [T1] is sipgo's timer. *)
From S2P Require Import Prelude GoStrings SessionTimer.
Import GoStrings SessionTimer.

Module Refer.

Definition maxReferNotifies : Z := 32.
Definition Hour : Z := 60 * Minute.
Definition referSubscriptionMaxBound : Z := Hour.

(** [ReferEnd]; the zero value, an open attempt, is [None]. *)
Inductive ReferEnd :=
| ReferEndFinalNotify | ReferEndRefused | ReferEndCancelled | ReferEndSubscriptionEnded | ReferEndSubscriptionExpired | ReferEndNoNotify.
#[export] Instance end_eq_dec : EqDecision ReferEnd.
Proof. solve_decision. Defined.

Record ReferNotify := { Status : Z; Reason : string; SubscriptionState : option string; EventID : option Z }.

(** ** Reading a NOTIFY *)

Definition parseSipfragStatus (frag : string) : option (Z * string) :=
  let line := until_any frag ["013"; "010"]%char in
  if negb (HasPrefix line "SIP/2.0 ") then None
  else
    let rest := TrimSpace (TrimPrefix line "SIP/2.0 ") in
    let '(codeStr, reason, found) := Cut rest " " in
    let reason := if found then TrimSpace reason else EmptyString in
    match Atoi codeStr with
    | (code, None) => if (code <? 100) || (699 <? code) then None else Some (code, reason)
    | _ => None
    end.

Fixpoint event_id (parts : list string) : option Z :=
  match parts with
  | [] => None
  | part :: parts =>
    let part := TrimSpace part in
    if HasPrefix part "id=" then parseDeltaSeconds (TrimPrefix part "id=") else event_id parts
  end.

Definition referSubscriptionTerminated (value : string) : bool := EqualFold (TrimSpace (Cut value ";").1.1) "terminated".

Fixpoint expires_param (params : list string) : option Z :=
  match params with
  | [] => None
  | p :: params =>
    match Cut p "=" with
    | (name, v, true) => if EqualFold (TrimSpace name) "expires" then parseDeltaSeconds v else expires_param params
    | _ => expires_param params
    end
  end.

Definition referSubscriptionExpires (value : string) : option Z := expires_param (Split (Cut value ";").1.2 ";").

Section Reading.
Context {msg : Type} `{headerGetter msg} (ContentType : msg -> option string) (Body : msg -> string).

Definition parseReferNotifyEventID (req : msg) : option Z :=
  match GetHeader req "Event" with
  | None => None
  | Some v => event_id (Split v ";")
  end.
Definition parseReferSubscriptionState (req : msg) : option string := GetHeader req "Subscription-State".

Definition parseReferNotify (req : msg) : option ReferNotify :=
  match ContentType req with
  | None => None
  | Some ct =>
    if negb (HasPrefix ct "message/sipfrag") then None
    else if Nat.ltb (String.length (Body req)) (String.length "SIP/2.0 100 xx") then None
    else match parseSipfragStatus (Body req) with
    | None => None
    | Some (status, reason) =>
      Some {| Status := status; Reason := reason; SubscriptionState := parseReferSubscriptionState req; EventID := parseReferNotifyEventID req |}
    end
  end.

End Reading.

Definition isFinal (n : ReferNotify) : bool := 200 <=? Status n.
Definition endsSubscription (n : ReferNotify) : bool :=
  isFinal n || match SubscriptionState n with Some v => referSubscriptionTerminated v | None => false end.

(** ** Attempts *)

Record referAttempt := {
  cseq : Z;
  cseqKnown : bool;
  registered : bool;
  end_ : option ReferEnd;
  notifies : list ReferNotify;
  dropped : Z;
  notified : bool;
  deadline : Z;
  (** Whether [bound] is set, and how often it was armed. *)
  bound : bool;
  boundArmed : Z;
  (** How often [done] was closed: a second time panics. *)
  done_ : nat }.
#[export] Instance eta_attempt : Eta referAttempt := fun a =>
  {| cseq := cseq a; cseqKnown := cseqKnown a; registered := registered a; end_ := end_ a; notifies := notifies a; dropped := dropped a;
     notified := notified a; deadline := deadline a; bound := bound a; boundArmed := boundArmed a; done_ := done_ a |}.

Definition new_attempt : referAttempt :=
  {| cseq := 0; cseqKnown := false; registered := true; end_ := None; notifies := []; dropped := 0; notified := false; deadline := time_zero;
     bound := false; boundArmed := 0; done_ := 0 |}.
#[export] Instance attempt_inhabited : Inhabited referAttempt := populate new_attempt.

(** The dialog's part, and the store of all attempts. *)
Record refers := { store : list referAttempt; referAttempts : list nat; referHighestCSeq : Z; referLatest : option nat }.
#[export] Instance eta_refers : Eta refers := fun d =>
  {| store := store d; referAttempts := referAttempts d; referHighestCSeq := referHighestCSeq d; referLatest := referLatest d |}.

Definition no_refers : refers := {| store := []; referAttempts := []; referHighestCSeq := 0; referLatest := None |}.
Definition at_ (d : refers) (i : nat) : referAttempt := store d !!! i.
Definition set_ (i : nat) (a : referAttempt) (d : refers) : refers := d <| store := <[i := a]> (store d) |>.

Section Refer.
Context (T1 : Z).

Definition referSubscriptionBound (n : ReferNotify) : Z :=
  match SubscriptionState n ≫= referSubscriptionExpires with
  | Some seconds => Z.min (i64 (seconds * Second)) referSubscriptionMaxBound
  | None => i64 (64 * T1)
  end.

Definition beginReferAttempt (d : refers) : refers * nat :=
  let i := length (store d) in
  (d <| store := store d ++ [new_attempt] |> <| referAttempts := referAttempts d ++ [i] |> <| referLatest := Some i |>, i).

Definition setReferAttemptCSeq (i : nat) (c : Z) (d : refers) : refers :=
  let d := if referHighestCSeq d <? c then d <| referHighestCSeq := c |> else d in
  set_ i (at_ d i <| cseq := c |> <| cseqKnown := true |>) d.

Definition armReferBoundLocked (i : nat) (dl : Z) (d : refers) : refers :=
  set_ i (at_ d i <| boundArmed := u64 (boundArmed (at_ d i) + 1) |> <| deadline := dl |> <| bound := true |>) d.

Definition retireReferAttemptLocked (i : nat) (d : refers) : refers :=
  if negb (registered (at_ d i)) then d
  else
    let d := set_ i (at_ d i <| registered := false |> <| done_ := S (done_ (at_ d i)) |>) d in
    d <| referAttempts := List.filter (fun j => negb (Nat.eqb j i)) (referAttempts d) |>.

Definition startReferSubscription (i : nat) (now : Z) (d : refers) : refers :=
  if bool_decide (end_ (at_ d i) <> None) || bound (at_ d i) then d
  else armReferBoundLocked i (now + i64 (64 * T1)) d.

Definition endReferAttemptOnItsBoundLocked (i : nat) (d : refers) : refers :=
  let d := set_ i (at_ d i <| end_ := Some (if notified (at_ d i) then ReferEndSubscriptionExpired else ReferEndNoNotify) |>) d in
  retireReferAttemptLocked i d.

(** The bound's timer fires; [armed] is the count it was armed with. *)
Definition endReferAttemptOnItsBound (i : nat) (armed : Z) (d : refers) : refers :=
  if bool_decide (end_ (at_ d i) <> None) || negb (boundArmed (at_ d i) =? armed) then d
  else endReferAttemptOnItsBoundLocked i d.

(** The attempts in [l] that await their CSeq, and the first whose CSeq is [id]. *)
Fixpoint route (d : refers) (id : Z) (l : list nat) (awaiting : Z) : nat + Z :=
  match l with
  | [] => inr awaiting
  | i :: l =>
    if negb (cseqKnown (at_ d i)) then route d id l (awaiting + 1)
    else if cseq (at_ d i) =? id then inl i else route d id l awaiting
  end.

Definition referNotifyTargetLocked (n : ReferNotify) (d : refers) : option nat :=
  match EventID n with
  | Some id =>
    match route d id (referAttempts d) 0 with
    | inl i => Some i
    | inr awaitingCSeq =>
      match referLatest d with
      | Some l =>
        if registered (at_ d l) && negb (cseqKnown (at_ d l)) && (awaitingCSeq =? 1) && (referHighestCSeq d <? id) then Some l else None
      | None => None
      end
    end
  | None =>
    match referLatest d with
    | Some l => if registered (at_ d l) then Some l else None
    | None => None
    end
  end.

Definition recordLocked (n : ReferNotify) (a : referAttempt) : referAttempt :=
  let a :=
    if len (notifies a) <? maxReferNotifies then a <| notifies := notifies a ++ [n] |>
    else if endsSubscription n then a <| notifies := take (length (notifies a) - 1) (notifies a) ++ [n] |> <| dropped := dropped a + 1 |>
    else a <| dropped := dropped a + 1 |> in
  let a := a <| notified := true |> in
  if isFinal n then a <| end_ := Some ReferEndFinalNotify |>
  else if endsSubscription n then a <| end_ := Some ReferEndSubscriptionEnded |>
  else a.

Definition recordReferNotify (n : ReferNotify) (now : Z) (d : refers) : refers * option nat :=
  match referNotifyTargetLocked n d with
  | None => (d, None)
  | Some i =>
    if bool_decide (end_ (at_ d i) <> None) then (d, None)
    else if negb (IsZero (deadline (at_ d i))) && negb (now <? deadline (at_ d i)) then (endReferAttemptOnItsBoundLocked i d, None)
    else
      let first := negb (notified (at_ d i)) in
      let d := set_ i (recordLocked n (at_ d i)) d in
      let d :=
        if bool_decide (end_ (at_ d i) = None) then
          let dl := now + referSubscriptionBound n in
          let dl := if negb first && (deadline (at_ d i) <? dl) then deadline (at_ d i) else dl in
          armReferBoundLocked i dl d
        else d in
      (d, Some i)
  end.

Definition retireEndedReferAttempt (i : nat) (d : refers) : refers :=
  if bool_decide (end_ (at_ d i) <> None) then retireReferAttemptLocked i d else d.

Record ReferObservation := { End : option ReferEnd; CSeq : Z; CSeqKnown : bool; Notifies : list ReferNotify; NotifiesDropped : Z }.

Definition finishReferAttempt (i : nat) (e : option ReferEnd) (d : refers) : refers * ReferObservation :=
  let a := at_ d i in
  let d := if bool_decide (end_ a = None) || bool_decide (e = Some ReferEndRefused) then set_ i (a <| end_ := e |>) d else d in
  let d := retireReferAttemptLocked i d in
  let a := at_ d i in
  (d, {| End := end_ a; CSeq := cseq a; CSeqKnown := cseqKnown a; Notifies := notifies a; NotifiesDropped := dropped a |}).

Definition dropReferAttempt (i : nat) (d : refers) : refers := retireReferAttemptLocked i d.

(** Whether a NOTIFY has an open attempt to go to. *)
Definition referNotifyExpected (onNotify : bool) (n : ReferNotify) (d : refers) : bool :=
  onNotify || match referNotifyTargetLocked n d with Some i => bool_decide (end_ (at_ d i) = None) | None => false end.

(** ** Handling a NOTIFY *)

(** The status answered; the attempt to retire once it was; whether the NOTIFY is reported as unmatched. *)
Definition dialogHandleReferNotify (parsed : option ReferNotify) (onNot : bool) (now : Z) (d : refers) : refers * Z * option nat * bool :=
  match parsed with
  | None => (d, 400, None, false)
  | Some n =>
    match recordReferNotify n now d with
    | (d, None) => if onNot then (d, 200, None, false) else (d, 481, None, true)
    | (d, Some i) => (d, 200, Some i, false)
    end
  end.

(** ** The caller of a REFER *)

Definition referAccepted (status : Z) : bool := (200 <=? status) && (status <=? 299).

(** Where [dialogReferObserve] stands with its attempt: the REFER is out, [Do]
    has returned, it waits for the end, it is done, it dropped the attempt. *)
Inductive phase := PSent | PReturned | PWaiting | PDone | PDropped.
#[export] Instance phase_eq_dec : EqDecision phase.
Proof. solve_decision. Defined.
#[export] Instance phase_inhabited : Inhabited phase := populate PSent.

(** What happens to the dialog: the steps of a caller (the CSeq read off the
    REFER that [Do] left behind, then what its result leads to), a bound's timer, a
    NOTIFY recorded and, once it was answered, its attempt retired. *)
Inductive event :=
| EBegin
| EReturn (i : nat) (c : option Z)
| EDrop (i : nat)
| EFail (i : nat)
| EAnswer (i : nat) (status : Z)
| EDone (i : nat)
| ECancel (i : nat)
| EFire (i : nat) (armed : Z)
| ENotify (n : ReferNotify)
| ERetire (i : nat).

Record world := {
  dlg : refers;
  callers : list phase;
  (** When the subscription of an attempt began. *)
  begun : list (option Z) }.
#[export] Instance eta_world : Eta world := fun w => {| dlg := dlg w; callers := callers w; begun := begun w |}.

Definition no_world : world := {| dlg := no_refers; callers := []; begun := [] |}.

(** What [dialogReferObserve] does at each of its steps. *)
Definition handle (now : Z) (ev : event) (d : refers) : refers :=
  match ev with
  | EBegin => (beginReferAttempt d).1
  | EReturn i c => match c with Some c => setReferAttemptCSeq i c d | None => d end
  | EDrop i => dropReferAttempt i d
  | EFail i => (finishReferAttempt i (Some ReferEndCancelled) d).1
  | EAnswer i status =>
    if negb (referAccepted status) then (finishReferAttempt i (Some ReferEndRefused) d).1
    else startReferSubscription i now d
  | EDone i => (finishReferAttempt i None d).1
  | ECancel i => (finishReferAttempt i (Some ReferEndCancelled) d).1
  | EFire i armed => endReferAttemptOnItsBound i armed d
  | ENotify n => (dialogHandleReferNotify (Some n) false now d).1.1.1
  | ERetire i => retireEndedReferAttempt i d
  end.

(** The phase each step of a caller is taken in, and the one after. *)
Definition caller_step (ev : event) : option (nat * phase * phase) :=
  match ev with
  | EReturn i _ => Some (i, PSent, PReturned)
  | EDrop i => Some (i, PReturned, PDropped)
  | EFail i => Some (i, PReturned, PDone)
  | EAnswer i status => Some (i, PReturned, if referAccepted status then PWaiting else PDone)
  | EDone i | ECancel i => Some (i, PWaiting, PDone)
  | _ => None
  end.

(** A timer fires at its deadline, a caller sees [done] when it is closed, and the
    CSeq it reads is the one its REFER was sent with. *)
Definition enabled (sent : nat -> Z) (now : Z) (ev : event) (w : world) : bool :=
  match caller_step ev with
  | Some (i, p, _) => bool_decide (callers w !! i = Some p)
  | None => true
  end &&
  match ev with
  | EReturn i (Some c) => c =? sent i
  | EDone i => Nat.ltb 0 (done_ (at_ (dlg w) i))
  | EFire i armed => bool_decide (i < length (store (dlg w)))%nat && (negb (boundArmed (at_ (dlg w) i) =? armed) || bound (at_ (dlg w) i) && (deadline (at_ (dlg w) i) <=? now))
  | ERetire i => bool_decide (i < length (store (dlg w)))%nat
  | _ => true
  end.

Definition after (now : Z) (ev : event) (w : world) : world :=
  let d := handle now ev (dlg w) in
  {| dlg := d;
     callers := match ev with
                | EBegin => callers w ++ [PSent]
                | _ => match caller_step ev with Some (i, _, p) => <[i := p]> (callers w) | None => callers w end
                end;
     begun := imap (fun i a => match begun w !! i with
                               | Some (Some s) => Some s
                               | _ => if bound a then Some now else None
                               end) (store d) |}.

(** What can have happened by the time [t], with the CSeqs [sent]. *)
Inductive history (sent : nat -> Z) : Z -> world -> Prop :=
| h_nil t : time_zero < t -> history sent t no_world
| h_step t now ev w : history sent t w -> t <= now -> enabled sent now ev w = true -> history sent now (after now ev w).

(** What [dialogReferObserve] returns, at the step it returns an observation at. *)
Definition observed (ev : event) (d : refers) : option ReferObservation :=
  match ev with
  | EFail i | ECancel i => Some (finishReferAttempt i (Some ReferEndCancelled) d).2
  | EAnswer i status => if negb (referAccepted status) then Some (finishReferAttempt i (Some ReferEndRefused) d).2 else None
  | EDone i => Some (finishReferAttempt i None d).2
  | _ => None
  end.

(** The error [dialogRefer] returns for an observation, when it waited; [None] is success. *)
Inductive referError := ErrDialogResponse | ReferFailureError (status : Z) (reason : string) | errReferEnded.

Definition LastNotify (o : ReferObservation) : option ReferNotify := last (Notifies o).

Definition dialogRefer_result (obs : ReferObservation) : option referError :=
  match End obs with
  | Some ReferEndRefused => Some ErrDialogResponse
  | Some ReferEndFinalNotify =>
    let last := default {| Status := 0; Reason := ""; SubscriptionState := None; EventID := None |} (LastNotify obs) in
    if Status last <? 300 then None else Some (ReferFailureError (Status last) (Reason last))
  | Some (ReferEndSubscriptionExpired | ReferEndNoNotify) => Some (ReferFailureError 0 "timeout")
  | Some ReferEndCancelled => Some (ReferFailureError 0 "cancelled")
  | Some ReferEndSubscriptionEnded => Some (ReferFailureError 0 "subscription ended")
  | None => Some errReferEnded
  end.

End Refer.

End Refer.
