(* ===== verification/ReferProps.v ===== *)
(** * REFER and its subscription: theorems

    The attempts of a dialog stay consistent whatever the order of callers, timers
    and NOTIFYs; a subscription has a bounded life; and a NOTIFY goes to the REFER
    it reports on. Each event changes one attempt, so the invariant is proved of
    the changes of one attempt ([move]). *)
From S2P Require Import Prelude GoStrings SessionTimer Refer.
Import GoStrings SessionTimer Refer.

Module ReferProps.

(** ** One attempt changed

    [upd i a d] is [d] with the attempt [i] replaced by [a] and kept in the
    registry as long as it is registered. *)

Definition drop_i (i : nat) (l : list nat) : list nat := List.filter (fun j => negb (Nat.eqb j i)) l.

Definition upd (i : nat) (a : referAttempt) (d : refers) : refers :=
  set_ i a d <| referAttempts := if registered a then referAttempts d else drop_i i (referAttempts d) |>.

(** The registry: what is in it, once each, is what is registered. *)
Definition registry (d : refers) : Prop :=
  NoDup (referAttempts d) /\ (forall i, i ∈ referAttempts d <-> (i < length (store d))%nat /\ registered (at_ d i) = true) /\
  (forall l, referLatest d = Some l -> (l < length (store d))%nat).

Lemma elem_drop_i i j l : j ∈ drop_i i l <-> j ∈ l /\ j <> i.
Proof.
  unfold drop_i. rewrite !list_elem_of_In, filter_In, negb_true_iff, Nat.eqb_neq. done.
Qed.

Lemma drop_i_none i l : i ∉ l -> drop_i i l = l.
Proof.
  induction l as [|j l IH]; [done|]. intros H. unfold drop_i in *. cbn. apply not_elem_of_cons in H as [H1 H2].
  destruct (Nat.eqb_spec j i); [congruence|]. cbn. by rewrite IH.
Qed.

Lemma drop_i_twice i l : drop_i i (drop_i i l) = drop_i i l.
Proof. apply drop_i_none. rewrite elem_drop_i. naive_solver. Qed.

Lemma NoDup_drop_i i l : NoDup l -> NoDup (drop_i i l).
Proof. rewrite !NoDup_ListNoDup. apply List.NoDup_filter. Qed.

Lemma at_set d i a j : (i < length (store d))%nat -> at_ (set_ i a d) j = if Nat.eqb i j then a else at_ d j.
Proof.
  intros Hi. unfold at_, set_. cbn. destruct (Nat.eqb_spec i j) as [->|Hne].
  - by rewrite list_lookup_total_insert_eq.
  - by rewrite list_lookup_total_insert_ne.
Qed.

Lemma at_upd d i a j : (i < length (store d))%nat -> at_ (upd i a d) j = if Nat.eqb i j then a else at_ d j.
Proof. intros Hi. rewrite <- at_set by done. done. Qed.

Lemma at_upd_eq d i a : (i < length (store d))%nat -> at_ (upd i a d) i = a.
Proof. intros Hi. by rewrite at_upd, Nat.eqb_refl. Qed.

Lemma at_set_eq d i a : (i < length (store d))%nat -> at_ (set_ i a d) i = a.
Proof. intros Hi. by rewrite at_set, Nat.eqb_refl. Qed.

Lemma length_upd d i a : length (store (upd i a d)) = length (store d).
Proof. unfold upd, set_. cbn. by rewrite length_insert. Qed.

Lemma set_same d i : (i < length (store d))%nat -> set_ i (at_ d i) d = d.
Proof.
  intros Hi. unfold set_, at_. destruct d as [st l h x]. cbn in *. f_equal. apply list_insert_id.
  by apply list_lookup_lookup_total_lt.
Qed.

Lemma set_set d i a b : set_ i a (set_ i b d) = set_ i a d.
Proof. unfold set_. destruct d. cbn. f_equal. apply list_insert_insert_eq. Qed.

(** The registered and the retired case of a change. *)
Lemma upd_registered d i a : registered a = true -> upd i a d = set_ i a d.
Proof. intros H. unfold upd. rewrite H. by destruct d. Qed.

Lemma upd_set d i a b : upd i a (set_ i b d) = upd i a d.
Proof. unfold upd. rewrite set_set. done. Qed.

Lemma set_upd d i a : registry d -> (i < length (store d))%nat -> registered a = registered (at_ d i) -> set_ i a d = upd i a d.
Proof.
  intros (_ & Hr & _) Hi E. unfold upd. destruct (registered a) eqn:Ha; [by destruct d|].
  rewrite drop_i_none; [by destruct d|]. rewrite Hr. intros [_ H]. congruence.
Qed.

Lemma upd_same d i : registry d -> (i < length (store d))%nat -> upd i (at_ d i) d = d.
Proof. intros Hd Hi. rewrite <- set_upd by done. by apply set_same. Qed.

(** What [retireReferAttemptLocked] makes of an attempt. *)
Definition retire (a : referAttempt) : referAttempt :=
  if registered a then a <| registered := false |> <| done_ := S (done_ a) |> else a.

Lemma retire_registered a : registered (retire a) = false.
Proof. unfold retire. by destruct (registered a) eqn:E. Qed.

(** An attempt changed, then retired. *)
Lemma retire_set d i a : registry d -> (i < length (store d))%nat -> registered a = registered (at_ d i) ->
  retireReferAttemptLocked i (set_ i a d) = upd i (retire a) d.
Proof.
  intros Hd Hi E. unfold retireReferAttemptLocked. rewrite at_set_eq by done. unfold retire.
  destruct (registered a) eqn:Ha; cbn [negb].
  - rewrite set_set. by destruct d.
  - rewrite (set_upd d i a) by congruence. done.
Qed.

Lemma retire_upd d i : registry d -> (i < length (store d))%nat -> retireReferAttemptLocked i d = upd i (retire (at_ d i)) d.
Proof. intros Hd Hi. rewrite <- retire_set by done. by rewrite set_same. Qed.

Lemma registry_upd d i a : registry d -> (i < length (store d))%nat -> (registered a = true -> registered (at_ d i) = true) -> registry (upd i a d).
Proof.
  intros (Hn & Hr & Hl) Hi Ha. split; [|split].
  - unfold upd. cbn. destruct (registered a); [done|by apply NoDup_drop_i].
  - intros j. rewrite length_upd, at_upd by done. unfold upd. cbn.
    destruct (Nat.eqb_spec i j) as [->|Hj]; destruct (registered a) eqn:E.
    + rewrite Hr. naive_solver.
    + rewrite elem_drop_i. naive_solver.
    + apply Hr.
    + rewrite elem_drop_i, Hr. naive_solver.
  - intros l. rewrite length_upd. apply Hl.
Qed.

(** ** What an event does to the attempt it is about *)

Section Changes.
Context (T1 : Z).

Definition expire (a : referAttempt) : referAttempt :=
  retire (a <| end_ := Some (if notified a then ReferEndSubscriptionExpired else ReferEndNoNotify) |>).
Definition arm (dl : Z) (a : referAttempt) : referAttempt := a <| boundArmed := u64 (boundArmed a + 1) |> <| deadline := dl |> <| bound := true |>.
Definition finished (e : option ReferEnd) (a : referAttempt) : referAttempt :=
  retire (if bool_decide (end_ a = None) || bool_decide (e = Some ReferEndRefused) then a <| end_ := e |> else a).
Definition past_deadline (now : Z) (a : referAttempt) : bool := negb (IsZero (deadline a)) && negb (now <? deadline a).
Definition record (n : ReferNotify) (now : Z) (a : referAttempt) : referAttempt :=
  let a' := recordLocked n a in
  if bool_decide (end_ a' = None) then
    let dl := now + referSubscriptionBound T1 n in
    arm (if notified a && (deadline a <? dl) then deadline a else dl) a'
  else a'.

Definition change (now : Z) (ev : event) (a : referAttempt) : referAttempt :=
  match ev with
  | EBegin => a
  | EReturn _ c => match c with Some c => a <| cseq := c |> <| cseqKnown := true |> | None => a end
  | EDrop _ => retire a
  | EFail _ | ECancel _ => finished (Some ReferEndCancelled) a
  | EAnswer _ status =>
    if negb (referAccepted status) then finished (Some ReferEndRefused) a
    else if bool_decide (end_ a <> None) || bound a then a else arm (now + i64 (64 * T1)) a
  | EDone _ => finished None a
  | EFire _ armed => if bool_decide (end_ a <> None) || negb (boundArmed a =? armed) then a else expire a
  | ENotify n => if bool_decide (end_ a <> None) then a else if past_deadline now a then expire a else record n now a
  | ERetire _ => if bool_decide (end_ a <> None) then retire a else a
  end.

Definition target (ev : event) (d : refers) : option nat :=
  match ev with
  | EBegin => None
  | EReturn i _ | EDrop i | EFail i | EAnswer i _ | EDone i | ECancel i | EFire i _ | ERetire i => Some i
  | ENotify n => referNotifyTargetLocked n d
  end.

Definition raise_cseq (ev : event) (d : refers) : refers :=
  match ev with
  | EReturn _ (Some c) => if referHighestCSeq d <? c then d <| referHighestCSeq := c |> else d
  | _ => d
  end.

Lemma raise_cseq_store ev d : store (raise_cseq ev d) = store d.
Proof. unfold raise_cseq. by repeat case_match. Qed.
Lemma raise_cseq_at ev d i : at_ (raise_cseq ev d) i = at_ d i.
Proof. unfold at_. by rewrite raise_cseq_store. Qed.
Lemma raise_cseq_registry ev d : registry d -> registry (raise_cseq ev d).
Proof. unfold raise_cseq. by repeat case_match. Qed.

Lemma finish_upd d i e : registry d -> (i < length (store d))%nat -> (finishReferAttempt i e d).1 = upd i (finished e (at_ d i)) d.
Proof.
  intros Hd Hi. unfold finishReferAttempt, finished. cbn [fst]. case_match; [by apply retire_set|by apply retire_upd].
Qed.

Lemma recordLocked_registered n a : registered (recordLocked n a) = registered a.
Proof. destruct a. unfold recordLocked. cbn. by repeat case_match. Qed.

Lemma notify_upd n now d i : registry d -> (i < length (store d))%nat -> referNotifyTargetLocked n d = Some i ->
  (recordReferNotify T1 n now d).1 = upd i (change now (ENotify n) (at_ d i)) d.
Proof.
  intros Hd Hi Ht. unfold recordReferNotify, change. rewrite Ht. case_match; [by rewrite upd_same|].
  fold (past_deadline now (at_ d i)). destruct (past_deadline now (at_ d i)); cbn [fst]; [by apply retire_set|].
  unfold record. rewrite !at_set_eq by done. case_match.
  - unfold armReferBoundLocked. rewrite at_set_eq, set_set by done. rewrite negb_involutive.
    replace (deadline (recordLocked n (at_ d i))) with (deadline (at_ d i)) by (destruct (at_ d i); unfold recordLocked; cbn; by repeat case_match).
    rewrite set_upd; [done|done|done|]. unfold arm. cbn. apply recordLocked_registered.
  - apply set_upd; [done..|apply recordLocked_registered].
Qed.

Lemma handle_change now ev d i : registry d -> target ev d = Some i -> (i < length (store d))%nat ->
  handle T1 now ev d = upd i (change now ev (at_ d i)) (raise_cseq ev d).
Proof.
  intros Hd Ht Hi. destruct ev as [|j c|j|j|j st|j|j|j armed|n|j]; cbn in Ht; simplify_eq; cbn [handle change raise_cseq].
  - destruct c as [c|]; [|by rewrite upd_same]. unfold setReferAttemptCSeq. fold (raise_cseq (EReturn i (Some c)) d).
    rewrite raise_cseq_at. rewrite set_upd; [done|by apply raise_cseq_registry|by rewrite raise_cseq_store|by rewrite raise_cseq_at].
  - by apply retire_upd.
  - by apply finish_upd.
  - case_match; [by apply finish_upd|]. unfold startReferSubscription. case_match; [by rewrite upd_same|]. by apply set_upd.
  - by apply finish_upd.
  - by apply finish_upd.
  - unfold endReferAttemptOnItsBound. case_match; [by rewrite upd_same|]. by apply retire_set.
  - pose proof (notify_upd n now d i Hd Hi Ht) as E. cbn [change] in E. rewrite <- E. unfold dialogHandleReferNotify. by destruct (recordReferNotify T1 n now d) as [d' [j|]].
  - unfold retireEndedReferAttempt. case_match; [by apply retire_upd|by rewrite upd_same].
Qed.

Lemma handle_untargeted now ev d : ev <> EBegin -> target ev d = None -> handle T1 now ev d = d.
Proof.
  destruct ev as [|j c|j|j|j st|j|j|j armed|n|j]; cbn; try done. intros _ H. unfold dialogHandleReferNotify, recordReferNotify. by rewrite H.
Qed.

(** ** The invariant of one attempt *)

Definition quiet (l : list ReferNotify) : Prop := Forall (fun n => endsSubscription n = false) l.

(** [done] is closed once, when the attempt is retired, and an attempt its caller
    still looks at is retired only with its end decided. *)
Definition life (p : phase) (a : referAttempt) : Prop :=
  done_ a = (if registered a then 0 else 1)%nat /\
  (registered a = false -> p <> PDropped -> end_ a <> None) /\
  (p = PDone \/ p = PDropped -> registered a = false) /\
  (p = PSent -> cseqKnown a = false) /\
  (end_ a = Some ReferEndCancelled \/ end_ a = Some ReferEndRefused -> p = PDone).

(** What is kept of the NOTIFYs says how the attempt ended. *)
Definition log (a : referAttempt) : Prop :=
  len (notifies a) <= maxReferNotifies /\ 0 <= dropped a /\ (0 < dropped a -> len (notifies a) = maxReferNotifies) /\
  (notified a = false <-> notifies a = []) /\
  match end_ a with
  | None | Some ReferEndCancelled => quiet (notifies a)
  | Some ReferEndFinalNotify => exists l n, notifies a = l ++ [n] /\ quiet l /\ isFinal n = true
  | Some ReferEndSubscriptionEnded => exists l n, notifies a = l ++ [n] /\ quiet l /\ isFinal n = false /\ endsSubscription n = true
  | Some ReferEndSubscriptionExpired => quiet (notifies a) /\ notifies a <> []
  | Some ReferEndNoNotify => notifies a = []
  | Some ReferEndRefused => quiet (removelast (notifies a))
  end.

Lemma is_open a : bool_decide (end_ a <> None) = false -> end_ a = None.
Proof. intros H. apply bool_decide_eq_false in H. by destruct (end_ a); [exfalso; apply H|]. Qed.

Lemma retire_log a : log a -> log (retire a).
Proof. unfold retire. by destruct (registered a). Qed.

Lemma quiet_removelast l : quiet l -> quiet (removelast l).
Proof.
  intros H. destruct l as [|x l _] using rev_ind; [done|]. rewrite removelast_last. by apply Forall_app in H as [H _].
Qed.

Lemma log_ended_quiet a : log a -> quiet (removelast (notifies a)).
Proof.
  intros (_ & _ & _ & _ & H). destruct (end_ a) as [[]|]; try (by apply quiet_removelast); try done.
  - destruct H as (l & n & -> & H & _). by rewrite removelast_last.
  - destruct H as (l & n & -> & H & _). by rewrite removelast_last.
  - apply quiet_removelast, H.
  - rewrite H. constructor.
Qed.

Lemma finish_log e a : e = None \/ e = Some ReferEndCancelled \/ e = Some ReferEndRefused -> log a -> log (finished e a).
Proof.
  intros He Ha. apply retire_log. pose proof (log_ended_quiet a Ha) as Hq. case_match eqn:E; [|done].
  destruct Ha as (H1 & H2 & H3 & H4 & H5). unfold log. cbn. repeat (split; [done|]).
  destruct He as [->|[->| ->]]; [| |done]; cbn in E; rewrite orb_false_r in E; apply bool_decide_eq_true in E; by rewrite E in H5.
Qed.

Lemma expire_log a : end_ a = None -> log a -> log (expire a).
Proof.
  intros He (H1 & H2 & H3 & H4 & H5). apply retire_log. rewrite He in H5. unfold log. cbn. repeat (split; [done|]).
  destruct (notified a); [|by apply H4]. split; [done|]. intros H. by apply H4 in H.
Qed.

Lemma isFinal_ends n : isFinal n = true -> endsSubscription n = true.
Proof. unfold endsSubscription. by intros ->. Qed.

(** The entries [recordLocked] keeps. *)
Definition kept (n : ReferNotify) (a : referAttempt) : list ReferNotify :=
  if len (notifies a) <? maxReferNotifies then notifies a ++ [n]
  else if endsSubscription n then take (length (notifies a) - 1) (notifies a) ++ [n] else notifies a.

Lemma recordLocked_fields n a :
  notifies (recordLocked n a) = kept n a /\
  dropped (recordLocked n a) = dropped a + (if len (notifies a) <? maxReferNotifies then 0 else 1) /\
  notified (recordLocked n a) = true /\
  end_ (recordLocked n a) = (if isFinal n then Some ReferEndFinalNotify else if endsSubscription n then Some ReferEndSubscriptionEnded else end_ a).
Proof.
  unfold recordLocked, kept. destruct a. cbn. repeat case_match; cbn; repeat split; lia.
Qed.

Lemma kept_len n a : len (notifies a) <= maxReferNotifies ->
  len (kept n a) = (if len (notifies a) <? maxReferNotifies then len (notifies a) + 1 else maxReferNotifies) /\ kept n a <> [].
Proof.
  unfold kept, len, maxReferNotifies. intros H. destruct (Z.ltb_spec (Z.of_nat (length (notifies a))) 32).
  - rewrite length_app. cbn. split; [lia|]. by destruct (notifies a).
  - destruct (endsSubscription n); [rewrite length_app, length_take; cbn; split; [lia|by destruct (take _ _)]|]. split; [lia|]. intros E. rewrite E in *. cbn in *. lia.
Qed.

Lemma kept_quiet n a : quiet (notifies a) ->
  if endsSubscription n then exists l, kept n a = l ++ [n] /\ quiet l else quiet (kept n a).
Proof.
  intros H. unfold kept. destruct (endsSubscription n) eqn:E; [|by case_match; [apply Forall_app_2; [|constructor]|]].
  case_match; eexists; split; try done. by apply Forall_take.
Qed.

Lemma recordLocked_log n a : end_ a = None -> log a -> log (recordLocked n a).
Proof.
  intros He (H1 & H2 & H3 & H4 & H5). rewrite He in H5. destruct (recordLocked_fields n a) as (E1 & E2 & E3 & E4).
  pose proof (kept_len n a H1) as [L1 L2]. pose proof (kept_quiet n a H5) as Hq.
  unfold log. rewrite E1, E2, E3, E4, He, L1. split; [destruct (Z.ltb_spec (len (notifies a)) maxReferNotifies); lia|].
  split; [destruct (_ <? _); lia|]. split; [destruct (Z.ltb_spec (len (notifies a)) maxReferNotifies); [|done]; intros H'; specialize (H3 ltac:(lia)); lia|]. split; [done|].
  destruct (isFinal n) eqn:Hf; [rewrite (isFinal_ends n Hf) in Hq; naive_solver|]. destruct (endsSubscription n) eqn:Hn; naive_solver.
Qed.

Lemma change_log now ev a : log a -> log (change now ev a).
Proof.
  intros Ha. destruct ev as [|j c|j|j|j st|j|j|j armed|n|j]; cbn [change]; try done.
  - by destruct c.
  - by apply retire_log.
  - apply finish_log; [naive_solver|done].
  - case_match; [apply finish_log; [naive_solver|done]|]. by case_match.
  - apply finish_log; [naive_solver|done].
  - apply finish_log; [naive_solver|done].
  - case_match eqn:E; [done|]. apply orb_false_iff in E as [E _]. apply expire_log; [by apply is_open|done].
  - case_match eqn:E; [done|]. apply is_open in E as He.
    case_match; [by apply expire_log|]. unfold record. pose proof (recordLocked_log n a He Ha) as H'. by case_match.
  - case_match; [by apply retire_log|done].
Qed.

(** *** Retirement *)

Lemma retire_life a p : done_ a = (if registered a then 0 else 1)%nat -> (p = PDropped \/ end_ a <> None) -> (p = PSent -> cseqKnown a = false) ->
  (end_ a = Some ReferEndCancelled \/ end_ a = Some ReferEndRefused -> p = PDone) -> life p (retire a).
Proof.
  intros H1 He Hs Hc. unfold life. rewrite retire_registered. unfold retire. destruct (registered a) eqn:E; cbn; rewrite H1.
  - split; [done|]. split; [naive_solver|]. by split.
  - split; [done|]. split; [naive_solver|]. by split.
Qed.

Lemma life_open p a : life p a -> p <> PDropped -> end_ a = None -> registered a = true.
Proof. intros (_ & H & _) Hp He. destruct (registered a); [done|]. by destruct (H eq_refl Hp He). Qed.

(** The phase an event leaves its attempt's caller in. *)
Definition phase_after (ev : event) (p : phase) : phase := match caller_step ev with Some (_, _, q) => q | None => p end.
Definition phase_before (ev : event) (p : phase) : Prop := match caller_step ev with Some (_, q, _) => p = q | None => True end.

Lemma finish_life p e a : life p a -> p <> PDropped -> (e = None -> end_ a <> None) -> life PDone (finished e a).
Proof.
  intros (H1 & _) Hp He. unfold finished. destruct (_ || _) eqn:E.
  - apply retire_life; [done| |done..]. right. cbn. intros ->. destruct (He eq_refl). rewrite orb_false_r in E. by apply bool_decide_eq_true in E.
  - apply retire_life; [done| |done..]. right. intros H'. rewrite H' in E. done.
Qed.

Lemma expire_life p a : life p a -> life p (expire a).
Proof.
  intros (H1 & H2 & H3 & H4 & H5). apply retire_life; [done|by right|done|]. cbn. intros [H|H]; destruct (notified a); done.
Qed.

Lemma record_life p n now a : life p a -> registered a = true -> life p (record n now a).
Proof.
  intros (H1 & H2 & H3 & H4 & H5) Hr.
  assert (registered (record n now a) = registered a /\ done_ (record n now a) = done_ a /\ cseqKnown (record n now a) = cseqKnown a) as (E1 & E2 & E3).
  { unfold record, recordLocked, arm. destruct a. cbn. by repeat (case_match; cbn). }
  assert (end_ (record n now a) = end_ (recordLocked n a)) as E4 by (unfold record; by destruct (bool_decide _)).
  destruct (recordLocked_fields n a) as (_ & _ & _ & E5). unfold life. rewrite E1, E2, E3, E4, E5. split; [done|]. split; [congruence|]. split; [done|].
  split; [done|]. destruct (isFinal n); [naive_solver|]. destruct (endsSubscription n); [naive_solver|done].
Qed.

Definition sees_done (ev : event) (a : referAttempt) : Prop := match ev with EDone _ => (0 < done_ a)%nat | _ => True end.
Definition routed (ev : event) (a : referAttempt) : Prop := match ev with ENotify _ => registered a = true | _ => True end.

Lemma change_life now ev p a : life p a -> phase_before ev p -> sees_done ev a -> routed ev a -> life (phase_after ev p) (change now ev a).
Proof.
  intros Ha Hp Hd Hr. destruct ev as [|j c|j|j|j st|j|j|j armed|n|j]; cbn in *; subst; try done.
  - destruct Ha as (H1 & H2 & H3 & H4 & H5). destruct c; (split; [done|]); (split; [intros Hr' _; by apply H2|]); (split; [by intros [?|?]|]); (split; [done|]); intros H; discriminate (H5 H).
  - destruct Ha as (H1 & H2 & H3 & H4 & H5). apply retire_life; [done|by left|done|]. intros H; discriminate (H5 H).
  - by eapply finish_life.
  - destruct (referAccepted st); cbn [negb]; [|by eapply finish_life]. destruct Ha as (H1 & H2 & H3 & H4 & H5).
    destruct (_ || bound a); (split; [done|]); (split; [intros Hr' _; by apply H2|]); (split; [by intros [?|?]|]); (split; [done|]); intros H; discriminate (H5 H).
  - eapply finish_life; [done..|]. intros _. destruct Ha as (H1 & H2 & _). apply H2; [|done]. destruct (registered a); [lia|done].
  - by eapply finish_life.
  - destruct (_ || _); [done|by apply expire_life].
  - destruct (bool_decide _); [done|]. destruct (past_deadline now a); [by apply expire_life|by apply record_life].
  - destruct (bool_decide _) eqn:E; [|done]. apply bool_decide_eq_true in E. destruct Ha as (H1 & H2 & H3 & H4 & H5). apply retire_life; [done|by right|done..].
Qed.

(** *** The deadline *)

Lemma parse_digits_range maxv s n : 0 <= n <= maxv -> forall v, parse_digits maxv s n = (v, None) -> 0 <= v <= maxv.
Proof.
  revert n. induction s as [|c s IH]; intros n Hn v; cbn.
  - intros [= ->]. done.
  - destruct (digit c) as [d|] eqn:Hd; [|done]. destruct (Z.ltb_spec maxv (n * 10 + d)); [done|]. apply IH. split; [|done].
    unfold digit in Hd. case_match eqn:E; simplify_eq. lia.
Qed.

Lemma parseDelta_range s v : parseDeltaSeconds s = Some v -> 0 <= v < 2 ^ 32.
Proof.
  unfold parseDeltaSeconds. destruct (ParseUint (TrimSpace s) 32) as [w [e|]] eqn:E; [done|]. intros [= ->].
  unfold ParseUint in E. destruct (String.eqb _ _); [done|]. apply parse_digits_range in E; lia.
Qed.

Lemma expires_range v s : referSubscriptionExpires v = Some s -> 0 <= s < 2 ^ 32.
Proof.
  unfold referSubscriptionExpires. generalize (Split (Cut v ";").1.2 ";"). intros l. induction l as [|p l IH]; [done|]. cbn.
  destruct (Cut p "=") as [[name x] []]; [|done]. case_match; [apply parseDelta_range|done].
Qed.

Hypothesis T1_range : 0 < T1 /\ 64 * T1 <= Hour.

Lemma wait_range : 0 < i64 (64 * T1) <= Hour /\ i64 (64 * T1) = 64 * T1.
Proof. unfold Hour, Minute, Second in *. rewrite i64_small; lia. Qed.

Lemma bound_range n : 0 <= referSubscriptionBound T1 n <= Hour.
Proof.
  unfold referSubscriptionBound, referSubscriptionMaxBound. destruct (SubscriptionState n ≫= referSubscriptionExpires) as [s|] eqn:E; [|pose proof wait_range; lia].
  apply bind_Some in E as (v & _ & E%expires_range). unfold Hour, Minute, Second. rewrite i64_small; lia.
Qed.

(** The deadline stands from when the subscription began at [b], and the bound is
    armed for as long as anything waits for the end. *)
Definition timed (t : Z) (p : phase) (b : option Z) (a : referAttempt) : Prop :=
  match b with
  | None => bound a = false /\ deadline a = time_zero
  | Some s => bound a = true /\ time_zero < s <= t /\ s <= deadline a <= s + 64 * T1 + (if notified a then Hour else 0)
  end /\
  (p = PWaiting \/ notified a = true -> bound a = true \/ end_ a <> None).

Definition begun_after (now : Z) (b : option Z) (a : referAttempt) : option Z :=
  match b with Some s => Some s | None => if bound a then Some now else None end.

Lemma timed_begun t p b a : timed t p b a -> begun_after t b a = b.
Proof. intros [H _]. destruct b; [done|]. cbn. by destruct H as [-> _]. Qed.

Lemma timed_later t now p b a : t <= now -> timed t p b a -> timed now p b a.
Proof. intros Ht [H1 H2]. split; [|done]. destruct b; [|done]. naive_solver lia. Qed.

(** A change that leaves the deadline alone. *)
Lemma timed_same t p q b a a' : timed t p b a -> bound a' = bound a -> deadline a' = deadline a -> notified a' = notified a ->
  (end_ a' = None -> end_ a = None) -> (q = PWaiting -> p = PWaiting \/ end_ a' <> None) -> timed t q (begun_after t b a') a'.
Proof.
  intros [H1 H2] E1 E2 E3 E4 Hq. assert (begun_after t b a' = b) as -> by (destruct b; [done|]; cbn; by rewrite E1, (proj1 H1)).
  split; [by rewrite E1, E2, E3|]. rewrite E1, E3. intros [->|Hn].
  - destruct Hq as [->|]; [done| |by right]. destruct H2 as [|He]; [by left|by left|]. right. intros H. by apply He, E4.
  - destruct H2 as [|He]; [by right|by left|]. right. intros H. by apply He, E4.
Qed.

Lemma retire_same a : bound (retire a) = bound a /\ deadline (retire a) = deadline a /\ notified (retire a) = notified a /\ end_ (retire a) = end_ a.
Proof. unfold retire. by destruct (registered a). Qed.

Lemma expire_same a : bound (expire a) = bound a /\ deadline (expire a) = deadline a /\ notified (expire a) = notified a /\ end_ (expire a) <> None.
Proof.
  unfold expire. destruct (retire_same (a <| end_ := Some (if notified a then ReferEndSubscriptionExpired else ReferEndNoNotify) |>)) as (-> & -> & -> & ->). done.
Qed.

Lemma finish_same e a : bound (finished e a) = bound a /\ deadline (finished e a) = deadline a /\ notified (finished e a) = notified a /\
  (end_ (finished e a) = None -> end_ a = None).
Proof.
  unfold finished. destruct (bool_decide (end_ a = None) || _) eqn:E.
  - destruct (retire_same (a <| end_ := e |>)) as (-> & -> & -> & ->). split_and!; [done..|]. cbn. intros ->.
    rewrite orb_false_r in E. by apply bool_decide_eq_true in E.
  - by destruct (retire_same a) as (-> & -> & -> & ->).
Qed.

Lemma finish_timed t p b e a : timed t p b a -> timed t PDone (begun_after t b (finished e a)) (finished e a).
Proof. intros Ha. destruct (finish_same e a) as (E1 & E2 & E3 & E4). by eapply timed_same. Qed.

Lemma expire_timed t p b a : timed t p b a -> timed t p (begun_after t b (expire a)) (expire a).
Proof.
  intros Ha. destruct (expire_same a) as (E1 & E2 & E3 & E4). eapply timed_same; [done..|by intros H; destruct (E4 H)|by left].
Qed.

Lemma retire_timed t p q b a : timed t p b a -> q <> PWaiting \/ q = p -> timed t q (begun_after t b (retire a)) (retire a).
Proof.
  intros Ha Hq. destruct (retire_same a) as (E1 & E2 & E3 & E4). eapply timed_same; [done..|by rewrite E4|]. intros ->. destruct Hq as [?|<-]; [done|by left].
Qed.

Lemma recordLocked_timing n a : bound (recordLocked n a) = bound a /\ deadline (recordLocked n a) = deadline a.
Proof. destruct a. unfold recordLocked. cbn. by repeat (case_match; cbn). Qed.

(** A NOTIFY in time, on an open attempt. *)
Lemma record_timed t p b n a : time_zero < t -> end_ a = None -> past_deadline t a = false -> timed t p b a -> timed t p (begun_after t b (record n t a)) (record n t a).
Proof.
  intros Ht He Hx [H1 H2]. destruct (recordLocked_timing n a) as [B1 B2]. destruct (recordLocked_fields n a) as (_ & _ & B3 & B4). rewrite He in B4.
  unfold record. destruct (bool_decide (end_ (recordLocked n a) = None)) eqn:E.
  - pose proof (bound_range n) as Hb. assert (64 * T1 > 0) by lia. split; [|by left]. cbn. rewrite B3.
    assert (t < deadline a \/ b = None) as Ht'.
    { destruct b as [s|]; [|by right]. left. unfold past_deadline, IsZero in Hx. destruct H1 as (_ & Hs & Hd).
      destruct (Z.eqb_spec (deadline a) time_zero); [lia|]. destruct (Z.ltb_spec t (deadline a)); done. }
    destruct b as [s|]; cbn.
    + destruct H1 as (Hbd & Hs & Hd). split; [done|]. split; [done|]. destruct (notified a); cbn; [destruct (Z.ltb_spec (deadline a) (t + referSubscriptionBound T1 n)); lia|].
      destruct Ht'; [lia|done].
    + destruct H1 as (Hbd & Hs). split; [done|]. split; [lia|]. destruct (notified a) eqn:En; cbn; [|lia].
      destruct H2 as [?|?]; [by right|congruence|done].
  - apply bool_decide_eq_false in E. assert (begun_after t b (recordLocked n a) = b) as -> by (destruct b; [done|]; cbn; by rewrite B1, (proj1 H1)).
    split; [|by right]. rewrite B1, B2, B3. destruct b as [s|]; [|done]. destruct H1 as (? & ? & ?). split; [done|]. split; [done|].
    destruct (notified a); [done|]. unfold Hour, Minute, Second. lia.
Qed.

Lemma change_timed t ev p b a : time_zero < t -> timed t p b a -> phase_before ev p ->
  timed t (phase_after ev p) (begun_after t b (change t ev a)) (change t ev a).
Proof.
  intros Ht Ha Hp. destruct ev as [|j c|j|j|j st|j|j|j armed|n|j]; cbn in *; subst; try (by rewrite (timed_begun _ _ _ _ Ha)).
  - destruct c; by eapply timed_same.
  - eapply retire_timed; [done|by left].
  - by eapply finish_timed.
  - destruct (referAccepted st); cbn [negb]; [|by eapply finish_timed].
    destruct (bool_decide (end_ a <> None)) eqn:E; cbn [orb].
    { apply bool_decide_eq_true in E. eapply timed_same; try done. by right. }
    apply is_open in E. destruct Ha as [H1 H2]. destruct (bound a) eqn:Hb.
    { destruct b; [|naive_solver]. split; [cbn; by rewrite Hb|by left]. }
    destruct b; [naive_solver|]. cbn. pose proof wait_range as [W1 W2]. split; [|by left]. split; [done|]. split; [lia|]. cbn.
    rewrite W2. destruct (notified a); lia.
  - by eapply finish_timed.
  - by eapply finish_timed.
  - destruct (_ || _); [by rewrite (timed_begun _ _ _ _ Ha)|by apply expire_timed].
  - destruct (bool_decide _) eqn:E; [by rewrite (timed_begun _ _ _ _ Ha)|]. apply is_open in E.
    destruct (past_deadline t a) eqn:Hx; [by apply expire_timed|by apply record_timed].
  - destruct (bool_decide _); [eapply retire_timed; [done|by right]|by rewrite (timed_begun _ _ _ _ Ha)].
Qed.

(** ** Histories *)

Definition attempt_ok (t : Z) (p : phase) (b : option Z) (a : referAttempt) : Prop := life p a /\ log a /\ timed t p b a.

Definition wf (t : Z) (w : world) : Prop :=
  registry (dlg w) /\ length (callers w) = length (store (dlg w)) /\ length (begun w) = length (store (dlg w)) /\
  forall i, (i < length (store (dlg w)))%nat -> attempt_ok t (callers w !!! i) (begun w !!! i) (at_ (dlg w) i).

Lemma route_spec d id l k : match route d id l k with
  | inl i => i ∈ l /\ cseqKnown (at_ d i) = true /\ cseq (at_ d i) = id
  | inr m => m = k + len (List.filter (fun i => negb (cseqKnown (at_ d i))) l) /\ forall i, i ∈ l -> cseqKnown (at_ d i) = true -> cseq (at_ d i) <> id
  end.
Proof.
  revert k. induction l as [|i l IH]; intros k; cbn [route List.filter].
  - unfold len. cbn. split; [lia|]. intros i H. by apply elem_of_nil in H.
  - destruct (cseqKnown (at_ d i)) eqn:Hk; cbn [negb].
    + destruct (Z.eqb_spec (cseq (at_ d i)) id); [split; [by apply list_elem_of_here|done]|].
      specialize (IH k). destruct (route d id l k); [split; [apply list_elem_of_further, IH|apply IH]|]. split; [apply IH|].
      intros j [->|Hj]%elem_of_cons; [done|]. by apply IH.
    + specialize (IH (k + 1)). destruct (route d id l (k + 1)); [split; [apply list_elem_of_further, IH|apply IH]|].
      destruct IH as [-> IH]. split; [unfold len; cbn [length]; lia|]. intros j [->|Hj]%elem_of_cons; [congruence|]. by apply IH.
Qed.

Lemma target_registered n d i : registry d -> referNotifyTargetLocked n d = Some i -> (i < length (store d))%nat /\ registered (at_ d i) = true.
Proof.
  intros (_ & Hr & Hl) H. unfold referNotifyTargetLocked in H.
  destruct (EventID n) as [id|].
  - pose proof (route_spec d id (referAttempts d) 0) as Hs. destruct (route d id (referAttempts d) 0); simplify_eq; [apply Hr, Hs|].
    destruct (referLatest d) as [l|] eqn:El; [|done]. destruct (registered (at_ d l)) eqn:E; [|done]. case_match; simplify_eq. split; [by apply Hl|done].
  - destruct (referLatest d) as [l|] eqn:El; [|done]. destruct (registered (at_ d l)) eqn:E; simplify_eq. split; [by apply Hl|done].
Qed.

(** What an enabled event is about. *)
Lemma enabled_target sent now ev w i : registry (dlg w) -> length (callers w) = length (store (dlg w)) -> enabled sent now ev w = true -> target ev (dlg w) = Some i ->
  (i < length (store (dlg w)))%nat /\ phase_before ev (callers w !!! i) /\ sees_done ev (at_ (dlg w) i) /\ routed ev (at_ (dlg w) i) /\
  match caller_step ev with Some (j, _, _) => j = i | None => True end.
Proof.
  intros Hd Hc He Ht. unfold enabled in He. apply andb_true_iff in He as [H1 H2].
  assert (forall j p, bool_decide (callers w !! j = Some p) = true -> (j < length (store (dlg w)))%nat /\ callers w !!! j = p) as Hcall.
  { intros j p H. apply bool_decide_eq_true in H. rewrite <- Hc. split; [by eapply lookup_lt_Some|by apply list_lookup_total_correct]. }
  destruct ev as [|j c|j|j|j st|j|j|j armed|n|j]; cbn in *; simplify_eq; try (by apply Hcall in H1 as [? ->]).
  - apply Hcall in H1 as [? ->]. split_and!; try done. destruct (done_ _); [done|lia].
  - apply andb_true_iff in H2 as [H2 _]. by apply bool_decide_eq_true in H2.
  - by destruct (target_registered n (dlg w) i Hd Ht).
  - by apply bool_decide_eq_true in H2.
Qed.

Lemma change_registered now ev a : registered (change now ev a) = true -> registered a = true.
Proof.
  assert (registered (retire a) = true -> registered a = true) as Hr by (by rewrite retire_registered).
  assert (forall e, registered (finished e a) = true -> registered a = true) as Hf by (intros e; unfold finished; by rewrite retire_registered).
  assert (registered (expire a) = true -> registered a = true) as Hx by (unfold expire; by rewrite retire_registered).
  destruct ev as [|j c|j|j|j st|j|j|j armed|n|j]; cbn [change]; try (by auto); try (by apply Hf).
  - by destruct c.
  - destruct (negb _); [by apply Hf|]. by destruct (_ || _).
  - destruct (_ || _); auto.
  - destruct (bool_decide _); auto. destruct (past_deadline now a); auto. unfold record. destruct (bool_decide _); cbn; by rewrite recordLocked_registered.
  - destruct (bool_decide _); auto.
Qed.

Lemma change_ok t ev p b a : time_zero < t -> attempt_ok t p b a -> phase_before ev p -> sees_done ev a -> routed ev a ->
  attempt_ok t (phase_after ev p) (begun_after t b (change t ev a)) (change t ev a).
Proof.
  intros Ht (H1 & H2 & H3) Hp Hs Hr. split; [by apply change_life|]. split; [by apply change_log|by apply change_timed].
Qed.

Lemma begun_lookup now ev w i : (i < length (store (handle T1 now ev (dlg w))))%nat -> length (begun w) = length (store (dlg w)) ->
  begun (after T1 now ev w) !!! i = begun_after now (if (i <? length (store (dlg w)))%nat then begun w !!! i else None) (at_ (handle T1 now ev (dlg w)) i).
Proof.
  intros Hi Hb. apply list_lookup_total_correct. cbn [begun after]. rewrite list_lookup_imap. unfold at_.
  rewrite (list_lookup_lookup_total_lt _ i Hi). destruct (Nat.ltb_spec i (length (store (dlg w)))); cbn; f_equal.
  - rewrite (list_lookup_lookup_total_lt (begun w) i) by lia. by destruct (begun w !!! i).
  - by rewrite (lookup_ge_None_2 (begun w) i) by lia.
Qed.

Lemma new_attempt_ok t : attempt_ok t PSent None new_attempt.
Proof.
  split; [by split_and!; try intros [?|?]|]. split; [|split; [done|by intros [?|?]]]. unfold log, maxReferNotifies, len. cbn. split_and!; try done; try lia. constructor.
Qed.

Lemma attempt_ok_later t now p b a : t <= now -> attempt_ok t p b a -> attempt_ok now p b a.
Proof. intros Ht (H1 & H2 & H3). split; [done|]. split; [done|by eapply timed_later]. Qed.

Lemma callers_lookup ev w i j : target ev (dlg w) = Some i -> (i < length (callers w))%nat -> (match caller_step ev with Some (k, _, _) => k = i | None => True end) ->
  match caller_step ev with Some (k, _, p) => <[k := p]> (callers w) | None => callers w end !!! j =
  if Nat.eqb i j then phase_after ev (callers w !!! i) else callers w !!! j.
Proof.
  intros Ht Hi Hk. unfold phase_after. destruct (caller_step ev) as [[[k q] p]|]; [subst k|].
  - destruct (Nat.eqb_spec i j) as [<-|]; [by apply list_lookup_total_insert_eq|by apply list_lookup_total_insert_ne].
  - by destruct (Nat.eqb_spec i j) as [<-|].
Qed.

Lemma wf_begin t w : wf t w -> wf t (after T1 t EBegin w).
Proof.
  intros ((Hn & Hr & Hl) & Hc & Hb & Ha). set (k := length (store (dlg w))) in *.
  assert (forall j, (j < k)%nat -> at_ (handle T1 t EBegin (dlg w)) j = at_ (dlg w) j) as Hold by (intros j Hj; unfold at_; cbn; by rewrite lookup_total_app_l).
  assert (at_ (handle T1 t EBegin (dlg w)) k = new_attempt) as Hnew by (unfold at_; cbn; by rewrite lookup_total_app_r, Nat.sub_diag).
  assert (referAttempts (handle T1 t EBegin (dlg w)) = referAttempts (dlg w) ++ [k]) as Hra by done.
  assert (length (store (handle T1 t EBegin (dlg w))) = S k) as Hlen by (cbn; rewrite length_app; cbn; lia).
  split; [|split; [|split]].
  - split; [|split].
    + cbn. apply NoDup_app. split; [done|]. split; [|apply NoDup_singleton]. intros j Hj [->|H]%elem_of_cons; [|by apply elem_of_nil in H]. apply Hr in Hj. lia.
    + intros i. cbn [after dlg]. rewrite Hlen, Hra. rewrite elem_of_app, elem_of_cons, elem_of_nil, Hr. fold k. split.
      * intros [[Hi Hg]|[->|[]]]; [rewrite <- Hold in Hg by done; split; [lia|done]|]. split; [lia|by rewrite Hnew].
      * intros [Hi Hg]. destruct (decide (i = k)) as [->|]; [by right; left|]. left. rewrite Hold in Hg by lia. split; [lia|done].
    + intros l [= <-]. cbn [after dlg]. rewrite Hlen. lia.
  - cbn. rewrite !length_app. cbn. lia.
  - cbn. by rewrite length_imap.
  - intros i. cbn [after dlg]. rewrite Hlen. intros Hi. rewrite begun_lookup by lia. fold k. destruct (Nat.ltb_spec i k).
    + rewrite Hold by done. cbn [after callers]. rewrite lookup_total_app_l by lia. destruct (Ha i) as (H1 & H2 & H3); [done|].
      rewrite (timed_begun _ _ _ _ H3). done.
    + replace i with k by lia. rewrite Hnew. cbn [after callers]. rewrite lookup_total_app_r by lia. rewrite Hc, Nat.sub_diag. cbn. apply new_attempt_ok.
Qed.

Lemma wf_step sent t ev w : time_zero < t -> wf t w -> enabled sent t ev w = true -> wf t (after T1 t ev w).
Proof.
  intros Ht Hw He. assert (ev = EBegin \/ ev <> EBegin) as [->|Hev] by (destruct ev; [by left|by right..]); [by apply wf_begin|].
  destruct Hw as (Hd & Hc & Hb & Ha).
  destruct (target ev (dlg w)) as [i|] eqn:Hti.
  - destruct (enabled_target sent t ev w i Hd Hc He Hti) as (Hi & Hp & Hs & Hr & Hk).
    pose proof (handle_change t ev (dlg w) i Hd Hti Hi) as Hh. set (a' := change t ev (at_ (dlg w) i)) in *.
    assert (length (store (handle T1 t ev (dlg w))) = length (store (dlg w))) as Hlen by (by rewrite Hh, length_upd, raise_cseq_store).
    assert (callers (after T1 t ev w) = match caller_step ev with Some (k, _, p) => <[k := p]> (callers w) | None => callers w end) as Hcl by (by destruct ev).
    split; [|split; [|split]].
    + cbn [after dlg]. rewrite Hh. apply registry_upd; [by apply raise_cseq_registry|by rewrite raise_cseq_store|]. rewrite raise_cseq_at. apply change_registered.
    + rewrite Hcl. cbn [after dlg]. rewrite Hlen. by destruct (caller_step ev) as [[[k q] p]|]; [rewrite length_insert|].
    + cbn [after begun dlg]. by rewrite length_imap.
    + intros j. cbn [after dlg]. rewrite Hlen. intros Hj. rewrite begun_lookup by (by rewrite ?Hlen). rewrite Hcl, (callers_lookup ev w i j Hti) by (by rewrite ?Hc).
      apply Nat.ltb_lt in Hj as Hj'. rewrite Hj'. rewrite Hh, at_upd by (by rewrite raise_cseq_store). rewrite raise_cseq_at.
      destruct (Nat.eqb_spec i j) as [<-|]; [apply change_ok; [done|by apply Ha|done..]|]. destruct (Ha j Hj) as (H1 & H2 & H3). rewrite (timed_begun _ _ _ _ H3). done.
  - pose proof (handle_untargeted t ev (dlg w) Hev Hti) as Hh.
    assert (callers (after T1 t ev w) = callers w) as Hcl by (by destruct ev).
    split; [cbn [after dlg]; by rewrite Hh|]. split; [cbn [after dlg]; by rewrite Hcl, Hh|]. split; [cbn [after begun dlg]; by rewrite length_imap|].
    intros j. cbn [after dlg]. rewrite Hh. intros Hj. rewrite begun_lookup by (by rewrite ?Hh). rewrite Hcl, Hh. apply Nat.ltb_lt in Hj as Hj'. rewrite Hj'.
    destruct (Ha j Hj) as (H1 & H2 & H3). rewrite (timed_begun _ _ _ _ H3). done.
Qed.

Lemma history_wf sent t w : history T1 sent t w -> time_zero < t /\ wf t w.
Proof.
  induction 1 as [t Ht|t now ev w Hw [Ht IH] Hn He].
  - split; [done|]. split_and!; try done; [|intros i H; cbn in H; lia]. split; [constructor|]. split; [|done].
    intros i. cbn. rewrite elem_of_nil. split; [done|lia].
  - assert (time_zero < now) by lia. split; [done|]. apply (wf_step sent); [done| |done]. destruct IH as (H1 & H2 & H3 & H4). split_and!; try done.
    intros i Hi. by eapply attempt_ok_later, H4.
Qed.

Lemma history_ok sent t w i a : history T1 sent t w -> store (dlg w) !! i = Some a ->
  wf t w /\ (i < length (store (dlg w)))%nat /\ at_ (dlg w) i = a /\ attempt_ok t (callers w !!! i) (begun w !!! i) a.
Proof.
  intros Hh Hi. destruct (history_wf sent t w Hh) as [_ Hw]. pose proof (lookup_lt_Some _ _ _ Hi) as Hl. pose proof Hw as (_ & _ & _ & Ha). specialize (Ha i Hl).
  apply list_lookup_total_correct in Hi. unfold at_ in *. rewrite Hi in Ha. done.
Qed.

(** An observation is the attempt as finishing leaves it. *)
Lemma observation d i e : registry d -> (i < length (store d))%nat ->
  (finishReferAttempt i e d).2 = let a := finished e (at_ d i) in
    {| End := end_ a; CSeq := cseq a; CSeqKnown := cseqKnown a; Notifies := notifies a; NotifiesDropped := dropped a |}.
Proof.
  intros Hd Hi. pose proof (finish_upd d i e Hd Hi) as E. unfold finishReferAttempt in *. cbn [fst snd] in *. rewrite E, at_upd_eq by done. done.
Qed.

(** The end a caller's step decides on: [None] when it returns no observation. *)
Definition caller_verdict (ev : event) : option (nat * option ReferEnd) :=
  match ev with
  | EFail i | ECancel i => Some (i, Some ReferEndCancelled)
  | EAnswer i status => if referAccepted status then None else Some (i, Some ReferEndRefused)
  | EDone i => Some (i, None)
  | _ => None
  end.

Lemma observed_verdict ev d o : observed ev d = Some o -> exists i e, caller_verdict ev = Some (i, e) /\ target ev d = Some i /\ (finishReferAttempt i e d).2 = o /\
  (forall now a, change now ev a = finished e a) /\ phase_after ev PDropped = PDone.
Proof.
  destruct ev as [|j c|j|j|j st|j|j|j armed|n|j]; cbn; try done; [| |intros [= <-]; eauto 10..].
  - intros [= <-]. eauto 10.
  - destruct (referAccepted st); [done|]. intros [= <-]. cbn. eauto 10.
Qed.

End Changes.

(** ** Theorems *)

(** What finishing decides, when the caller has not finished before. *)
Lemma finish_verdict p e a : life p a -> p <> PDone ->
  (end_ (finished e a) = Some ReferEndRefused <-> e = Some ReferEndRefused) /\ (end_ (finished e a) = Some ReferEndCancelled -> e = Some ReferEndCancelled).
Proof.
  intros (_ & _ & _ & _ & H) Hp. unfold finished. destruct (_ || _) eqn:E.
  - by destruct (retire_same (a <| end_ := e |>)) as (_ & _ & _ & ->).
  - destruct (retire_same a) as (_ & _ & _ & ->). apply orb_false_iff in E as [_ E]. apply bool_decide_eq_false in E. naive_solver.
Qed.

Definition observation_of (a : referAttempt) : ReferObservation :=
  {| End := end_ a; CSeq := cseq a; CSeqKnown := cseqKnown a; Notifies := notifies a; NotifiesDropped := dropped a |}.

(** The final NOTIFY of an attempt, and what [dialogRefer] makes of it. *)
Lemma log_final a : log a -> end_ a = Some ReferEndFinalNotify -> exists n, last (notifies a) = Some n /\ 200 <= Status n.
Proof.
  intros (_ & _ & _ & _ & H) He. rewrite He in H. destruct H as (l & n & -> & _ & Hf). exists n. rewrite last_snoc. split; [done|]. unfold isFinal in Hf. lia.
Qed.

Lemma log_success a : log a ->
  dialogRefer_result (observation_of a) = None <-> end_ a = Some ReferEndFinalNotify /\ exists n, last (notifies a) = Some n /\ 200 <= Status n < 300.
Proof.
  intros Ha. pose proof (log_final a Ha) as Hf. unfold dialogRefer_result, LastNotify. cbn. destruct (end_ a) as [[]|]; try (by split; [|intros [? _]]).
  destruct Hf as (n & Hl & Hn); [done|]. rewrite Hl. cbn. destruct (Z.ltb_spec (Status n) 300); split; try done.
  - intros _. split; [done|]. by exists n.
  - intros (_ & m & [= <-] & Hm). lia.
Qed.

Lemma log_failure a st r : log a -> dialogRefer_result (observation_of a) = Some (ReferFailureError st r) -> st <> 0 ->
  exists n, last (notifies a) = Some n /\ Status n = st /\ Reason n = r /\ 300 <= st.
Proof.
  intros Ha. pose proof (log_final a Ha) as Hf. unfold dialogRefer_result, LastNotify. cbn. destruct (end_ a) as [[]|]; try done; try (by intros [= <- _]).
  destruct Hf as (n & Hl & Hn); [done|]. rewrite Hl. cbn. destruct (Z.ltb_spec (Status n) 300); [done|]. intros [= <- <-] _. eauto.
Qed.

(** However callers, timers and NOTIFYs interleave, the attempts of a dialog
    are consistent: [done] is closed exactly when the attempt is retired, so never
    twice (which would panic); the registry holds each registered attempt once
    and nothing else; an attempt a caller has finished with is retired, and one
    retired under its caller has its end decided; at most 32 NOTIFYs are kept, all
    but the last non-terminal, and none is terminal while the attempt is open. *)
Theorem refer_attempts_consistent T1 sent t w i a p :
  0 < T1 /\ 64 * T1 <= Hour -> history T1 sent t w -> store (dlg w) !! i = Some a -> callers w !! i = Some p ->
  done_ a = (if registered a then 0 else 1)%nat /\
  NoDup (referAttempts (dlg w)) /\ (i ∈ referAttempts (dlg w) <-> registered a = true) /\
  (p = PDone \/ p = PDropped -> registered a = false) /\ (registered a = false -> p <> PDropped -> end_ a <> None) /\
  len (notifies a) <= maxReferNotifies /\ (0 < dropped a -> len (notifies a) = maxReferNotifies) /\
  Forall (fun n => endsSubscription n = false) (removelast (notifies a)) /\
  (end_ a = None -> Forall (fun n => endsSubscription n = false) (notifies a)).
Proof.
  intros HT Hh Hi Hp. destruct (history_ok T1 HT sent t w i a Hh Hi) as (((Hn & Hr & _) & _) & Hl & Ea & (L1 & L2 & L3 & _) & Hlog & _).
  apply list_lookup_total_correct in Hp. rewrite Hp in *. pose proof (log_ended_quiet a Hlog) as Hq. destruct Hlog as (G1 & _ & G3 & _ & G5).
  split_and!; try done; [|intros He; by rewrite He in G5]. rewrite Hr, Ea. naive_solver.
Qed.

(** C14. Every observation a REFER returns has an end: final and subscription-ended
    when the kept NOTIFYs say so, refused exactly when the REFER was refused,
    cancelled only when the caller gave up, and otherwise a deadline. The waiting
    [Refer] reports success if and only if a final NOTIFY with a 2xx status ended
    the attempt, and a failure with a status only for the final NOTIFY that has it. *)
Theorem refer_outcome T1 sent t now w ev o :
  0 < T1 /\ 64 * T1 <= Hour -> history T1 sent t w -> t <= now -> enabled sent now ev w = true -> observed ev (dlg w) = Some o ->
  End o <> None /\
  (dialogRefer_result o = None <-> End o = Some ReferEndFinalNotify /\ exists n, last (Notifies o) = Some n /\ 200 <= Status n < 300) /\
  (forall st r, dialogRefer_result o = Some (ReferFailureError st r) -> st <> 0 -> exists n, last (Notifies o) = Some n /\ Status n = st /\ Reason n = r /\ 300 <= st) /\
  (End o = Some ReferEndRefused <-> exists i status, ev = EAnswer i status) /\
  (End o = Some ReferEndCancelled -> exists i, ev = EFail i \/ ev = ECancel i).
Proof.
  intros HT Hh Hn He Ho. destruct (history_wf T1 HT sent t w Hh) as [_ (Hd & Hc & _ & Ha)].
  destruct (observed_verdict T1 ev (dlg w) o Ho) as (i & e & Hv & Ht & <- & Hch & Hph).
  destruct (enabled_target sent now ev w i Hd Hc He Ht) as (Hi & Hp & Hs & Hr & _). rewrite observation by done.
  destruct (Ha i Hi) as (HL & HG & _). set (a := at_ (dlg w) i) in *. set (p := callers w !!! i) in *. fold (observation_of (finished e a)).
  pose proof (change_life T1 now ev p a HL Hp Hs Hr) as HL'. pose proof (change_log T1 now ev a HG) as HG'. rewrite Hch in HL', HG'.
  assert (phase_after ev p = PDone /\ p <> PDone) as [Hq Hp'] by (destruct ev; cbn in Hv, Hp |- *; simplify_eq; try (by rewrite Hp); destruct (referAccepted status); simplify_eq; by rewrite Hp).
  rewrite Hq in HL'. destruct (finish_verdict p e a HL Hp') as [V1 V2]. split; [|split; [by apply log_success|split; [by intros st r; apply log_failure|]]].
  - cbn. destruct HL' as (_ & H & _). apply H; [apply retire_registered|done].
  - cbn. rewrite V1. split; [|intros H; apply V2 in H; subst e; destruct ev; cbn in Hv; simplify_eq; eauto; destruct (referAccepted status); simplify_eq].
    destruct ev; cbn in Hv; try (destruct (referAccepted status)); simplify_eq; naive_solver.
Qed.

(** C26. A subscription has a bounded life. Begun at [s] (the 2xx, or a NOTIFY before
    it), its deadline is at most 64 T1 and one hour later, a NOTIFY after the
    first never moves it later, and an attempt its caller waits on is ended or has
    its timer armed. At the deadline the timer ends an open attempt and retires it,
    and a NOTIFY that comes then is refused and ends it in the same way. *)
Theorem refer_subscription_bounded T1 sent t now w i a s :
  0 < T1 /\ 64 * T1 <= Hour -> history T1 sent t w -> t <= now -> store (dlg w) !! i = Some a -> begun w !! i = Some (Some s) ->
  bound a = true /\ s <= deadline a <= s + 64 * T1 + referSubscriptionMaxBound /\
  (forall n, referNotifyTargetLocked n (dlg w) = Some i -> notified a = true ->
     deadline (at_ (handle T1 now (ENotify n) (dlg w)) i) <= deadline a) /\
  (end_ a = None -> deadline a <= now ->
     enabled sent now (EFire i (boundArmed a)) w = true /\
     end_ (at_ (handle T1 now (EFire i (boundArmed a)) (dlg w)) i) <> None /\ registered (at_ (handle T1 now (EFire i (boundArmed a)) (dlg w)) i) = false /\
     forall n, referNotifyTargetLocked n (dlg w) = Some i ->
       recordReferNotify T1 n now (dlg w) = (handle T1 now (EFire i (boundArmed a)) (dlg w), None)).
Proof.
  intros HT Hh Hn Hi Hb. destruct (history_ok T1 HT sent t w i a Hh Hi) as ((Hd & _) & Hl & Ea & _ & _ & Htm & _).
  apply list_lookup_total_correct in Hb. rewrite Hb in Htm. destruct Htm as (B & Hs & Hdl).
  assert (0 < Hour) by (unfold Hour, Minute, Second; lia).
  split; [done|]. split; [unfold referSubscriptionMaxBound; destruct (notified a); lia|]. split.
  - intros n Ht Hnf. rewrite (handle_change T1 now (ENotify n) (dlg w) i Hd Ht Hl), at_upd_eq, Ea by done. cbn [change].
    destruct (bool_decide _); [done|]. destruct (past_deadline now a); [by destruct (expire_same a) as (_ & -> & _)|].
    unfold record. destruct (recordLocked_timing n a) as [_ B2]. destruct (bool_decide _); [|by rewrite B2]. cbn. rewrite Hnf. cbn.
    destruct (Z.ltb_spec (deadline a) (now + referSubscriptionBound T1 n)); lia.
  - intros He Hdl'. assert (bool_decide (end_ a <> None) = false) as Hop by (rewrite bool_decide_eq_false; naive_solver).
    pose proof (handle_change T1 now (EFire i (boundArmed a)) (dlg w) i Hd eq_refl Hl) as Hf. rewrite Ea in Hf. cbn [change] in Hf.
    rewrite Hop, Z.eqb_refl in Hf. cbn [orb negb raise_cseq] in Hf. rewrite Hf, at_upd_eq by done. split; [|split; [|split; [apply retire_registered|]]].
    + unfold enabled. cbn. rewrite Ea, B, Z.eqb_refl, bool_decide_true by done. cbn. by apply Z.leb_le.
    + apply expire_same.
    + intros n Ht. unfold recordReferNotify. rewrite Ht, Ea, Hop. fold (past_deadline now a).
      assert (past_deadline now a = true) as ->.
      { unfold past_deadline, IsZero. destruct (Z.eqb_spec (deadline a) time_zero); [lia|]. cbn. by destruct (Z.ltb_spec now (deadline a)); [lia|]. }
      rewrite <- Hf. unfold handle, endReferAttemptOnItsBound. by rewrite Ea, Hop, Z.eqb_refl.
Qed.

(** *** Routing *)

Definition known_cseq (a : referAttempt) : option Z := if cseqKnown a then Some (cseq a) else None.

Lemma change_cseq T1 now ev a : known_cseq (change T1 now ev a) = match ev with EReturn _ (Some c) => Some c | _ => known_cseq a end.
Proof.
  assert (forall b, known_cseq (retire b) = known_cseq b) as Hr by (intros b; unfold retire; by destruct (registered b)).
  destruct ev as [|j c|j|j|j st|j|j|j armed|n|j]; cbn [change]; try done.
  - by destruct c.
  - unfold finished. rewrite Hr. by destruct (_ || _).
  - destruct (negb _); [|by destruct (_ || _)]. unfold finished. rewrite Hr. by destruct (_ || _).
  - unfold finished. rewrite Hr. by destruct (_ || _).
  - unfold finished. rewrite Hr. by destruct (_ || _).
  - destruct (_ || _); [done|]. unfold expire. by rewrite Hr.
  - destruct (bool_decide _); [done|]. destruct (past_deadline now a); [unfold expire; by rewrite Hr|].
    assert (known_cseq (recordLocked n a) = known_cseq a) as <- by (destruct a; unfold recordLocked; cbn; by repeat (case_match; cbn)).
    unfold record. by destruct (bool_decide _).
  - by destruct (bool_decide _).
Qed.

(** The CSeqs recorded are those sent, and none is above the high-water mark. *)
Definition cseqs_sent (sent : nat -> Z) (d : refers) : Prop :=
  forall i c, (i < length (store d))%nat -> known_cseq (at_ d i) = Some c -> c = sent i /\ c <= referHighestCSeq d.

Lemma raise_cseq_highest ev d : referHighestCSeq d <= referHighestCSeq (raise_cseq ev d) /\
  forall i c, ev = EReturn i (Some c) -> c <= referHighestCSeq (raise_cseq ev d).
Proof.
  unfold raise_cseq. destruct ev as [|j [c|]| | | | | | | |]; try done. destruct (Z.ltb_spec (referHighestCSeq d) c); cbn; split; try lia; by intros ? ? [= <- <-].
Qed.

Lemma history_cseq T1 sent t w : 0 < T1 /\ 64 * T1 <= Hour -> history T1 sent t w -> cseqs_sent sent (dlg w).
Proof.
  intros HT. induction 1 as [t Ht|t now ev w Hw IH Hn He]; [intros i c H; cbn in H; lia|].
  destruct (history_wf T1 HT sent t w Hw) as [_ (Hd & Hc & _)]. cbn [dlg after]. intros j c.
  assert (ev = EBegin \/ ev <> EBegin) as [->|Hev] by (destruct ev; [by left|by right..]).
  { cbn. rewrite length_app. unfold at_. cbn. intros Hj. destruct (decide (j < length (store (dlg w)))%nat).
    - rewrite lookup_total_app_l by done. by apply IH.
    - replace j with (length (store (dlg w))) by (cbn in Hj; lia). by rewrite lookup_total_app_r, Nat.sub_diag. }
  destruct (target ev (dlg w)) as [i|] eqn:Ht; [|rewrite (handle_untargeted T1 now ev _ Hev Ht); apply IH].
  destruct (enabled_target sent now ev w i Hd Hc He Ht) as (Hi & _). destruct (raise_cseq_highest ev (dlg w)) as [R1 R2].
  rewrite (handle_change T1 now ev (dlg w) i Hd Ht Hi), length_upd, at_upd, raise_cseq_store, raise_cseq_at by (by rewrite raise_cseq_store).
  change (referHighestCSeq (upd i _ ?d)) with (referHighestCSeq d). intros Hj. destruct (Nat.eqb_spec i j) as [<-|]; [rewrite change_cseq|].
  - intros Hk. assert (ev = EReturn i (Some c) \/ known_cseq (at_ (dlg w) i) = Some c) as [->|Hk'].
    { destruct ev as [|k [x|]| | | | | | | |]; cbn in Ht; simplify_eq; try (by right). by left. }
    + unfold enabled in He. apply andb_true_iff in He as [_ He]. apply Z.eqb_eq in He. split; [done|by apply (R2 i)].
    + destruct (IH i c Hi Hk') as [-> ?]. split; [done|lia].
  - intros Hk. destruct (IH j c Hj Hk) as [-> ?]. split; [done|lia].
Qed.

(** The registered attempts that wait for their CSeq. *)
Definition waiting (d : refers) : list nat := List.filter (fun i => negb (cseqKnown (at_ d i))) (referAttempts d).

Lemma elem_waiting d k : k ∈ waiting d <-> k ∈ referAttempts d /\ cseqKnown (at_ d k) = false.
Proof. unfold waiting. by rewrite !list_elem_of_In, filter_In, negb_true_iff. Qed.


Lemma waiting_one d i : NoDup (referAttempts d) -> i ∈ referAttempts d -> (forall j, j ∈ referAttempts d -> cseqKnown (at_ d j) = false <-> j = i) -> 0 + len (waiting d) = 1.
Proof.
  intros Hn Hi Hone. unfold len. assert (waiting d ≡ₚ [i]) as ->; [|done].
  apply NoDup_Permutation; [unfold waiting; rewrite NoDup_ListNoDup in *; by apply List.NoDup_filter|apply NoDup_singleton|].
  intros j. rewrite elem_waiting, list_elem_of_singleton. naive_solver.
Qed.

Lemma waiting_same d i j : 0 + len (waiting d) = 1 -> i ∈ waiting d -> j ∈ waiting d -> i = j.
Proof.
  intros Hw F1 F2. destruct (waiting d) as [|x [|y l]]; unfold len in Hw; cbn in Hw; [lia| |lia].
  apply list_elem_of_singleton in F1 as ->. by apply list_elem_of_singleton in F2 as ->.
Qed.

(** A NOTIFY with an Event id goes to the REFER of that CSeq or to none: with
    the CSeqs of the dialog's REFERs distinct, a NOTIFY that reports on the
    REFER of attempt [i] is routed to [i] whenever [i] is open with its CSeq
    recorded, to [i] if it raced ahead of the response and [i] is the latest and
    the only one still waiting for its CSeq, and to no other attempt, unless [i] was
    retired before its CSeq was recorded. *)
Theorem refer_notify_routing T1 sent t w n i a :
  0 < T1 /\ 64 * T1 <= Hour -> history T1 sent t w -> (forall j k, sent j = sent k -> j = k) ->
  store (dlg w) !! i = Some a -> EventID n = Some (sent i) ->
  (registered a = true -> cseqKnown a = true -> referNotifyTargetLocked n (dlg w) = Some i) /\
  (registered a = true -> referLatest (dlg w) = Some i -> referHighestCSeq (dlg w) < sent i ->
     (forall j, j ∈ referAttempts (dlg w) -> cseqKnown (at_ (dlg w) j) = false <-> j = i) -> referNotifyTargetLocked n (dlg w) = Some i) /\
  (forall j, referNotifyTargetLocked n (dlg w) = Some j -> registered a = true \/ cseqKnown a = true -> j = i).
Proof.
  intros HT Hh Hinj Hi Hid. pose proof (history_cseq T1 sent t w HT Hh) as Hcs. destruct (history_ok T1 HT sent t w i a Hh Hi) as ((Hd & _) & Hl & Ea & _).
  destruct Hd as (Hnd & Hr & Hlat). set (d := dlg w) in *.
  assert (forall j, j ∈ referAttempts d -> cseqKnown (at_ d j) = true -> cseq (at_ d j) = sent j) as Hk.
  { intros j Hj Hk. apply Hr in Hj as [Hj _]. apply (Hcs j (cseq (at_ d j)) Hj). unfold known_cseq. by rewrite Hk. }
  pose proof (route_spec d (sent i) (referAttempts d) 0) as Hroute. unfold referNotifyTargetLocked. rewrite Hid.
  destruct (route d (sent i) (referAttempts d) 0) as [j|m].
  - destruct Hroute as (Hj & Hkj & Ej). rewrite Hk in Ej by done. apply Hinj in Ej as ->. split; [done|]. split; [done|]. by intros j [= ->].
  - destruct Hroute as [-> Hno]. assert (registered a = true -> i ∈ referAttempts d) as Hin by (intros Hra; apply Hr; by rewrite Ea).
    assert (registered a = true -> cseqKnown a = false) as Hunk.
    { intros Hra. destruct (cseqKnown a) eqn:Hka; [|done]. destruct (Hno i (Hin Hra)); [by rewrite Ea|]. apply Hk; [by apply Hin|by rewrite Ea]. }
    split; [|split].
    + intros Hra Hka. by rewrite Hunk in Hka.
    + intros Hra -> Hhi Hone. rewrite Ea, Hra, Hunk by done. cbn [andb negb].
      fold (waiting d). rewrite (waiting_one d i) by (try done; by apply Hin). rewrite Z.eqb_refl. cbn. by apply Z.ltb_lt in Hhi as ->.
    + intros j Hj Hor. destruct (referLatest d) as [l|] eqn:El; [|done]. destruct (registered (at_ d l)) eqn:Hrl; [|done].
      destruct (cseqKnown (at_ d l)) eqn:Hkl; [done|]. cbn [andb negb] in Hj. fold (waiting d) in Hj. destruct (Z.eqb_spec (0 + len (waiting d)) 1); [|done].
      destruct (Z.ltb_spec (referHighestCSeq d) (sent i)); [|done]. cbn in Hj. injection Hj as <-. destruct Hor as [Hra|Hka].
      * eapply waiting_same; [done|apply elem_waiting; split; [|done]; apply Hr; split; [by apply Hlat|done]|].
        apply elem_waiting. split; [by apply Hin|by rewrite Ea, Hunk].
      * destruct (Hcs i (cseq a) Hl) as [-> ?]; [unfold known_cseq; by rewrite Ea, Hka|lia].
Qed.

(** ** Runs *)

Fixpoint play (T1 : Z) (sent : nat -> Z) (evs : list (Z * event)) (t : Z) (w : world) : option (Z * world) :=
  match evs with
  | [] => Some (t, w)
  | (now, ev) :: evs => if (t <=? now) && enabled sent now ev w then play T1 sent evs now (after T1 now ev w) else None
  end.

Lemma play_history T1 sent evs t w t' w' : history T1 sent t w -> play T1 sent evs t w = Some (t', w') -> history T1 sent t' w'.
Proof.
  revert t w. induction evs as [|[now ev] evs IH]; intros t w Hw; cbn [play]; [by intros [= <- <-]|].
  destruct (t <=? now) eqn:Ht; [|done]. destruct (enabled sent now ev w) eqn:He; [|done]. cbn [andb]. apply IH. apply (h_step T1 sent t); [done|lia|done].
Qed.

Definition ms (n : Z) : Z := n * Millisecond.
Definition T1_ms : Z := ms 500.
Definition sent_from (n : Z) (i : nat) : Z := n + Z.of_nat i.
Definition make_notify (status : Z) (reason state : string) (id : Z) : ReferNotify :=
  {| Status := status; Reason := reason; SubscriptionState := Some state; EventID := Some id |}.

(** A transfer that rings, is answered, and is reported as such. *)
Definition ringing_run : list (Z * event) :=
  [(1, EBegin); (2, EReturn 0 (Some 5)); (3, EAnswer 0 202); (ms 100, ENotify (make_notify 180 "Ringing" "active;expires=60" 5))].
Definition answered_run : list (Z * event) :=
  ringing_run ++ [(ms 9000, ENotify (make_notify 200 "OK" "terminated;reason=noresource" 5)); (ms 9001, ERetire 0)].
Definition after_run (evs : list (Z * event)) : Z * world := default (0, no_world) (play T1_ms (sent_from 5) evs 1 no_world).
Definition run_time (evs : list (Z * event)) : Z := (after_run evs).1.
Definition run_world (evs : list (Z * event)) : world := (after_run evs).2.

Lemma run_history evs : bool_decide (is_Some (play T1_ms (sent_from 5) evs 1 no_world)) = true -> history T1_ms (sent_from 5) (run_time evs) (run_world evs).
Proof.
  intros [[t w] H]%bool_decide_eq_true. unfold run_time, run_world, after_run. rewrite H. cbn. apply (play_history _ _ evs 1 no_world); [by apply h_nil|done].
Qed.

Lemma T1_ms_range : 0 < T1_ms /\ 64 * T1_ms <= Hour.
Proof. unfold T1_ms, ms, Hour, Minute, Second, Millisecond. lia. Qed.

Lemma sent_from_inj n j k : sent_from n j = sent_from n k -> j = k.
Proof. unfold sent_from. lia. Qed.

Definition ringing_attempt : referAttempt := at_ (dlg (run_world ringing_run)) 0.
Definition answered_attempt : referAttempt := at_ (dlg (run_world answered_run)) 0.

Lemma refer_attempts_consistent_witness :
  store (dlg (run_world answered_run)) !! 0%nat = Some answered_attempt /\ done_ answered_attempt = 1%nat /\ length (notifies answered_attempt) = 2%nat.
Proof.
  assert (store (dlg (run_world answered_run)) !! 0%nat = Some answered_attempt) as Hi by (vm_compute; reflexivity).
  split; [exact Hi|]. split; [|vm_compute; reflexivity].
  destruct (refer_attempts_consistent T1_ms (sent_from 5) (run_time answered_run) (run_world answered_run) 0 answered_attempt PWaiting T1_ms_range
    (run_history answered_run ltac:(vm_compute; reflexivity)) Hi ltac:(vm_compute; reflexivity)) as (Hd & _).
  rewrite Hd. vm_compute. reflexivity.
Defined.

Definition answered_outcome : ReferObservation := (finishReferAttempt 0 None (dlg (run_world answered_run))).2.

Lemma refer_outcome_witness :
  End answered_outcome <> None /\ dialogRefer_result answered_outcome = None /\ enabled (sent_from 5) (ms 9002) (EDone 0) (run_world answered_run) = true.
Proof.
  assert (enabled (sent_from 5) (ms 9002) (EDone 0) (run_world answered_run) = true) as He by (vm_compute; reflexivity).
  destruct (refer_outcome T1_ms (sent_from 5) (run_time answered_run) (ms 9002) (run_world answered_run) (EDone 0) answered_outcome T1_ms_range
    (run_history answered_run ltac:(vm_compute; reflexivity)) ltac:(vm_compute; discriminate) He eq_refl) as (H1 & H2 & _).
  split; [exact H1|]. split; [|exact He]. apply H2. split; [vm_compute; reflexivity|]. exists (make_notify 200 "OK" "terminated;reason=noresource" 5).
  split; [vm_compute; reflexivity|]. cbn. lia.
Defined.

Lemma refer_subscription_bounded_witness :
  deadline ringing_attempt = ms 60100 /\ deadline ringing_attempt <= 3 + 64 * T1_ms + referSubscriptionMaxBound /\
  end_ (at_ (handle T1_ms (ms 60100) (EFire 0 (boundArmed ringing_attempt)) (dlg (run_world ringing_run))) 0) <> None.
Proof.
  assert (store (dlg (run_world ringing_run)) !! 0%nat = Some ringing_attempt) as Hi by (vm_compute; reflexivity).
  assert (begun (run_world ringing_run) !! 0%nat = Some (Some 3)) as Hb by (vm_compute; reflexivity).
  destruct (refer_subscription_bounded T1_ms (sent_from 5) (run_time ringing_run) (ms 60100) (run_world ringing_run) 0 ringing_attempt 3 T1_ms_range
    (run_history ringing_run ltac:(vm_compute; reflexivity)) ltac:(vm_compute; discriminate) Hi Hb) as (_ & Hd & _ & He).
  split; [vm_compute; reflexivity|]. split; [apply Hd|].
  apply He; [vm_compute; reflexivity|vm_compute; discriminate].
Defined.

Definition second_progress : ReferNotify := make_notify 183 "Session Progress" "active;expires=60" 5.

Lemma refer_notify_routing_witness :
  EventID second_progress = Some (sent_from 5 0) /\ referNotifyTargetLocked second_progress (dlg (run_world ringing_run)) = Some 0%nat.
Proof.
  assert (store (dlg (run_world ringing_run)) !! 0%nat = Some ringing_attempt) as Hi by (vm_compute; reflexivity).
  split; [reflexivity|].
  destruct (refer_notify_routing T1_ms (sent_from 5) (run_time ringing_run) (run_world ringing_run) second_progress 0 ringing_attempt T1_ms_range
    (run_history ringing_run ltac:(vm_compute; reflexivity)) (sent_from_inj 5) Hi eq_refl) as (H & _). apply H; vm_compute; reflexivity.
Defined.

(** The exception is reached. The first REFER is ended by a NOTIFY that races ahead
    of its response, a second REFER is sent meanwhile, and a late provisional NOTIFY
    of the first is recorded on the second. *)
Definition raced : list (Z * event) :=
  [(1, EBegin); (2, ENotify (make_notify 200 "OK" "terminated" 5)); (3, ERetire 0); (4, EBegin)].

Lemma refer_late_notify_misrouted :
  history T1_ms (sent_from 5) (run_time raced) (run_world raced) /\ EventID second_progress = Some (sent_from 5 0) /\
  referNotifyTargetLocked second_progress (dlg (run_world raced)) = Some 1%nat.
Proof. split; [by apply run_history|]. split; [reflexivity|]. vm_compute. reflexivity. Qed.

End ReferProps.
