(* ===== verification/ReInvite.v ===== *)
(** * The peer's re-INVITE: its answer, its ACK and the BYE

    [dialog_media.go] from [ackTimers] to [terminatePeerReInviteLocked] and from
    [beginOwnMediaUpdate] to [endMediaUpdate], and the handlers of the server and
    client session that use them ([handleReInvite], [ReadBye], the ACK). Each
    definition is one stretch of code under [answerMu] or [mu]; [step] interleaves
    the handler of the re-INVITE, the goroutine that retransmits its 2xx, the ACK,
    the BYE and our own re-INVITEs. A transaction is a number; what is passed to
    one is recorded in [outs]. Time is an argument; [sip_T1] and [sip_T2] are
    sipgo's timers. *)
From S2P Require Import Prelude.

Module ReInvite.

(** What is passed to a transaction: the answer to a re-INVITE, its 2xx again, the
    200 or the 500 to a BYE. [On2xx] is the call of the hook of
    [onPeerReInvite2xx]. *)
Inductive out := Answer (i : nat) (status : Z) | Again (i : nat) | ByeAnswered | ByeRefused | On2xx (i : nat).
#[export] Instance out_eq_dec : EqDecision out.
Proof. solve_decision. Defined.

Definition IsSuccess (status : Z) : bool := (200 <=? status) && (status <=? 299).
Definition StatusRequestTerminated : Z := 487.
Definition StatusRequestPending : Z := 491.
Definition StatusCallTransactionDoesNotExists : Z := 481.

Record ackTimers := { t1 : Z; t2 : Z; timeout : Z }.

(** The goroutine [retransmitReInvite2xx] between two of its steps. *)
Record retransmitter := { interval : Z; timer : Z; deadline : Z }.

(** [acked] and [retransmitted] are channels: nil, open ([Some false]) or closed.
    [ackErr] is [errReInviteAckTimeout], alone or joined with the error of a write. *)
Record pendingReInvite := {
  cseq : Z;
  answered : bool;
  on2xx : bool;
  acked : option bool;
  retransmitted : option bool;
  ackErr : bool;
  worker : option retransmitter }.
#[export] Instance eta_pending : Eta pendingReInvite := fun p =>
  {| cseq := cseq p; answered := answered p; on2xx := on2xx p; acked := acked p; retransmitted := retransmitted p; ackErr := ackErr p; worker := worker p |}.
#[export] Instance pending_inhabited : Inhabited pendingReInvite :=
  populate {| cseq := 0; answered := false; on2xx := false; acked := None; retransmitted := None; ackErr := false; worker := None |}.

(** Whose re-INVITE [mediaUpdateDone] stands for. *)
Inductive party := Peer (i : nat) | Own (k : nat).
#[export] Instance party_eq_dec : EqDecision party.
Proof. solve_decision. Defined.

Record dialog := {
  ended : bool;
  closed : bool;
  (** The re-INVITEs recorded, by their transaction. *)
  pendings : gmap nat pendingReInvite;
  peerReInvite : option nat;
  (** The re-INVITE whose contact is the remote target. *)
  remoteContactTarget : option nat;
  mediaUpdateDone : option party;
  terminatingBye : option nat;
  outs : list out }.
#[export] Instance eta_dialog : Eta dialog := fun d =>
  {| ended := ended d; closed := closed d; pendings := pendings d; peerReInvite := peerReInvite d; remoteContactTarget := remoteContactTarget d;
     mediaUpdateDone := mediaUpdateDone d; terminatingBye := terminatingBye d; outs := outs d |}.

Definition put (o : out) (d : dialog) : dialog := d <| outs := outs d ++ [o] |>.
Definition set_pending (i : nat) (p : pendingReInvite) (d : dialog) : dialog := d <| pendings := <[i := p]> (pendings d) |>.
(** The re-INVITE of the transaction [i], when it is the one being handled. *)
Definition current (i : nat) (d : dialog) : option pendingReInvite :=
  if bool_decide (peerReInvite d = Some i) then pendings d !! i else None.

Section ReInvite.
Context (sip_T1 sip_T2 : Z).

Definition values (t : ackTimers) : Z * Z * Z :=
  (if t1 t <=? 0 then sip_T1 else t1 t, if t2 t <=? 0 then sip_T2 else t2 t, if timeout t <=? 0 then i64 (64 * sip_T1) else timeout t).

(** [beginPeerReInvite]; whether it answered. *)
Definition beginPeerReInvite (i : nat) (c : Z) (d : dialog) : dialog * bool :=
  if ended d then (put (Answer i StatusCallTransactionDoesNotExists) d, true)
  else
    let p := {| cseq := c; answered := false; on2xx := false; acked := None; retransmitted := None; ackErr := false; worker := None |} in
    (set_pending i p d <| peerReInvite := Some i |>, false).

Definition onPeerReInvite2xx (i : nat) (d : dialog) : dialog :=
  match current i d with
  | Some p => set_pending i (p <| on2xx := true |>) d
  | None => d
  end.

(** What [endPeerReInvite] waits for before it goes on, and its two parts: it
    returns [ackErr] and forgets the re-INVITE. *)
Definition end_ready (i : nat) (d : dialog) : bool :=
  match current i d with
  | Some p => match retransmitted p with Some b => b | None => true end
  | None => true
  end.
Definition endPeerReInvite (i : nat) (d : dialog) : dialog * bool :=
  match current i d with
  | Some p => (d <| peerReInvite := None |>, match retransmitted p with Some _ => ackErr p | None => false end)
  | None => (d, false)
  end.

Definition ackPeerReInvite (c : Z) (d : dialog) : dialog :=
  match peerReInvite d with
  | None => d
  | Some i =>
    match pendings d !! i with
    | Some p =>
      match acked p with
      | Some _ => if negb (cseq p =? c) then d else set_pending i (p <| acked := Some true |>) d
      | None => d
      end
    | None => d
    end
  end.

(** [respondPeerReInvite]; [fails] is whether the transaction refuses what it is
    passed. The result is whether [status] was sent, and whether an error is returned. *)
Definition respondPeerReInvite (t : ackTimers) (i : nat) (status : Z) (fails : bool) (now : Z) (d : dialog) : dialog * bool * bool :=
  match current i d with
  | None => (put (Answer i status) d, true, fails)
  | Some p =>
    if answered p then (d, false, false)
    else
      let p := p <| answered := true |> in
      if ended d then (put (Answer i StatusRequestTerminated) (set_pending i p d), false, fails)
      else if negb (IsSuccess status) then (put (Answer i status) (set_pending i p d), true, fails)
      else
        let d := if on2xx p then put (On2xx i) d else d in
        let d := d <| remoteContactTarget := Some i |> in
        let p := p <| acked := Some false |> in
        let d := put (Answer i status) d in
        if fails then (set_pending i p d, true, true)
        else
          let '(t1, t2, timeout) := values t in
          let w := {| interval := t1; timer := now + t1; deadline := now + timeout |} in
          (set_pending i (p <| retransmitted := Some false |> <| worker := Some w |>) d, true, false)
  end.

Definition terminatePeerReInviteLocked (d : dialog) : dialog :=
  match peerReInvite d with
  | Some i =>
    match pendings d !! i with
    | Some p => if answered p then d else put (Answer i StatusRequestTerminated) (set_pending i (p <| answered := true |>) d)
    | None => d
    end
  | None => d
  end.

(** *** [retransmitReInvite2xx], a case of its select at a time *)

Inductive wake := WAcked | WEnded | WDeadline | WTimer (fails : bool).

(** Whether a case can be taken. *)
Definition wake_ready (now : Z) (d : dialog) (p : pendingReInvite) (w : retransmitter) (c : wake) : bool :=
  match c with
  | WAcked => match acked p with Some b => b | None => false end
  | WEnded => ended d
  | WDeadline => deadline w <=? now
  | WTimer _ => timer w <=? now
  end.

Definition stop (e : bool) (p : pendingReInvite) : pendingReInvite := p <| ackErr := e |> <| worker := None |> <| retransmitted := Some true |>.

Definition retransmit (t : ackTimers) (i : nat) (p : pendingReInvite) (w : retransmitter) (c : wake) (now : Z) (d : dialog) : dialog :=
  match c with
  | WAcked | WEnded => set_pending i (stop (ackErr p) p) d
  | WDeadline => set_pending i (stop true p) d
  | WTimer fails =>
    if ended d then set_pending i (stop (ackErr p) p) d
    else
      let d := put (Again i) d in
      if fails then set_pending i (stop true p) d
      else
        let '(_, t2, _) := values t in
        let interval := Z.min (2 * interval w) t2 in
        set_pending i (p <| worker := Some {| interval := interval; timer := now + interval; deadline := deadline w |} |>) d
  end.

(** *** The BYE *)

(** How the [ReadBye] of the embedded sipgo session comes out: the BYE taken and
    answered 200; refused as out of order, answered by it or not; another failure,
    with the dialog ended or not. *)
Inductive bye := ByeTaken | ByeInvalidCseq (responded : bool) | ByeFailed (ends : bool).

(** [readByeOnce]; whether it returns an error. *)
Definition readByeOnce (r : bye) (d : dialog) : dialog * bool :=
  match r with
  | ByeTaken => (put ByeAnswered (d <| ended := true |>), false)
  | ByeInvalidCseq responded => (put ByeRefused d, true)
  | ByeFailed ends => (if ends then d <| ended := true |> else d, true)
  end.

Definition ReadBye (req : nat) (r : bye) (d : dialog) : dialog :=
  let d := d <| terminatingBye := Some req |> in
  let '(d, err) := readByeOnce r d in
  if err then
    if match r with ByeInvalidCseq _ => true | _ => false end || negb (ended d) then
      if bool_decide (terminatingBye d = Some req) then d <| terminatingBye := None |> else d
    else d
  else terminatePeerReInviteLocked d.

(** *** Taking turns *)

(** [beginOwnMediaUpdate] once it need not wait: [inl] is the error. *)
Definition beginOwnMediaUpdate (k : nat) (d : dialog) : option (dialog + unit) :=
  if closed d then Some (inr tt)
  else match mediaUpdateDone d with
       | None => Some (inl (d <| mediaUpdateDone := Some (Own k) |>))
       | Some _ => None
       end.

Definition beginPeerMediaUpdate (i : nat) (d : dialog) : dialog * bool :=
  match mediaUpdateDone d with
  | Some _ => (d, false)
  | None => (d <| mediaUpdateDone := Some (Peer i) |>, true)
  end.

Definition endMediaUpdate (p : party) (d : dialog) : dialog :=
  if bool_decide (mediaUpdateDone d = Some p) then d <| mediaUpdateDone := None |> else d.

(** [reInviteRetryWait]: the wait drawn, [draw] being what [mrand.IntN] returns. *)
Definition reInviteRetryWait (callIDOwner : bool) (draw : Z) : Z :=
  if callIDOwner then i64 ((210 + draw) * 10 * Millisecond) else i64 (draw * 10 * Millisecond).
Definition retry_draws (callIDOwner : bool) : Z := if callIDOwner then 191 else 201.

(** ** The handlers *)

(** Where [handleReInvite] is: recorded, its update begun, its final response
    passed on. [Answering own] is whether it began an update. *)
Inductive stage := Recorded | Updating | Responded (updating : bool).
#[export] Instance stage_eq_dec : EqDecision stage.
Proof. solve_decision. Defined.

Record world := {
  dlg : dialog;
  (** The re-INVITEs that have come, and the handler that holds [requestMu]. *)
  arrived : nat;
  handling : option (nat * stage);
  (** Our re-INVITEs in progress. *)
  owns : gset nat }.
#[export] Instance eta_world : Eta world := fun w => {| dlg := dlg w; arrived := arrived w; handling := handling w; owns := owns w |}.

Definition no_dialog : dialog :=
  {| ended := false; closed := false; pendings := ∅; peerReInvite := None; remoteContactTarget := None; mediaUpdateDone := None; terminatingBye := None; outs := [] |}.
Definition fresh_world : world := {| dlg := no_dialog; arrived := 0; handling := None; owns := ∅ |}.

Inductive event :=
| EReInvite (c : Z) (timerRuns : bool)
| ERefuse (status : Z) (fails : bool)
| EUpdate (fails : bool)
| EAnswer (status : Z) (fails : bool)
| EEnd
| EAck (c : Z)
| EWake (i : nat) (c : wake)
| EBye (req : nat) (r : bye)
| EHangup
| EClose
| EOwnBegin (k : nat)
| EOwnEnd (k : nat).

Definition at_dialog (f : dialog -> dialog) (w : world) : world := w <| dlg := f (dlg w) |>.

(** A step of a handler, or of the outside. [None]: it cannot be taken. *)
Definition step (t : ackTimers) (now : Z) (ev : event) (w : world) : option world :=
  match ev with
  | EReInvite c timerRuns =>
    match handling w with
    | Some _ => None
    | None =>
      let i := arrived w in
      match beginPeerReInvite i c (dlg w) with
      | (d, true) => Some (w <| dlg := d |> <| arrived := S i |>)
      | (d, false) => Some (w <| dlg := if timerRuns then onPeerReInvite2xx i d else d |> <| arrived := S i |> <| handling := Some (i, Recorded) |>)
      end
    end
  | ERefuse status fails =>
    match handling w with
    | Some (i, Recorded) =>
      if IsSuccess status then None
      else Some (w <| dlg := (respondPeerReInvite t i status fails now (dlg w)).1.1 |> <| handling := Some (i, Responded false) |>)
    | _ => None
    end
  | EUpdate fails =>
    match handling w with
    | Some (i, Recorded) =>
      match beginPeerMediaUpdate i (dlg w) with
      | (d, true) => Some (w <| dlg := d |> <| handling := Some (i, Updating) |>)
      | (d, false) => Some (w <| dlg := (respondPeerReInvite t i StatusRequestPending fails now d).1.1 |> <| handling := Some (i, Responded false) |>)
      end
    | _ => None
    end
  | EAnswer status fails =>
    match handling w with
    | Some (i, Updating) => Some (w <| dlg := (respondPeerReInvite t i status fails now (dlg w)).1.1 |> <| handling := Some (i, Responded true) |>)
    | _ => None
    end
  | EEnd =>
    match handling w with
    | Some (i, Responded updating) =>
      if end_ready i (dlg w) then
        let d := (endPeerReInvite i (dlg w)).1 in
        Some (w <| dlg := if updating then endMediaUpdate (Peer i) d else d |> <| handling := None |>)
      else None
    | _ => None
    end
  | EAck c => Some (at_dialog (ackPeerReInvite c) w)
  | EWake i c =>
    match pendings (dlg w) !! i with
    | Some p =>
      match worker p with
      | Some wk => if wake_ready now (dlg w) p wk c then Some (at_dialog (retransmit t i p wk c now) w) else None
      | None => None
      end
    | None => None
    end
  | EBye req r => Some (at_dialog (ReadBye req r) w)
  | EHangup => Some (at_dialog (fun d => d <| ended := true |>) w)
  | EClose => Some (at_dialog (fun d => d <| closed := true |>) w)
  | EOwnBegin k =>
    if bool_decide (k ∈ owns w) then None
    else match beginOwnMediaUpdate k (dlg w) with
         | Some (inl d) => Some (w <| dlg := d |> <| owns := {[k]} ∪ owns w |>)
         | Some (inr _) => Some w
         | None => None
         end
  | EOwnEnd k =>
    if bool_decide (k ∈ owns w) then Some (w <| dlg := endMediaUpdate (Own k) (dlg w) |> <| owns := owns w ∖ {[k]} |>) else None
  end.

(** The worlds reached by the time [now], with a log of what happened. *)
Inductive run (t : ackTimers) : Z -> list (Z * event) -> world -> Prop :=
| run_start now : run t now [] fresh_world
| run_step was now log w ev w' : run t was log w -> was <= now -> step t now ev w = Some w' -> run t now (log ++ [(now, ev)]) w'.

End ReInvite.

End ReInvite.
