(* ===== verification/ReInviteProps.v ===== *)
(** * The peer's re-INVITE: theorems

    Every re-INVITE is answered once, nothing of it follows the 200 to a BYE, its 2xx
    is retransmitted at the pace of RFC 3261 until its ACK or its time is over, and
    no two re-INVITEs are in progress at a time. *)
From S2P Require Import Prelude ReInvite.
Import ReInvite.

Module ReInviteProps.

(** ** What has been passed on *)

Definition is_answer (i : nat) (o : out) : bool := match o with Answer j _ => Nat.eqb j i | _ => false end.
Definition is_again (i : nat) (o : out) : bool := match o with Again j => Nat.eqb j i | _ => false end.
Definition count_outs (f : out -> bool) (l : list out) : nat := length (List.filter f l).

#[local] Arguments count_outs : simpl never.

(** What may follow the 200 to a BYE: anything but a 2xx to a re-INVITE. *)
Definition harmless (o : out) : Prop := match o with Answer _ status => IsSuccess status = false | Again _ => False | _ => True end.
Definition safe (l : list out) : Prop := forall pre post, l = pre ++ ByeAnswered :: post -> Forall harmless post.

(** The last re-INVITE passed a 2xx. *)
Fixpoint last_ok (l : list out) (r : option nat) : option nat :=
  match l with
  | [] => r
  | o :: l => last_ok l (match o with Answer i status => if IsSuccess status then Some i else r | _ => r end)
  end.

Lemma count_snoc f l o : count_outs f (l ++ [o]) = (count_outs f l + if f o then 1 else 0)%nat.
Proof. unfold count_outs. rewrite List.filter_app, length_app. cbn. by destruct (f o). Qed.

Lemma last_ok_snoc l r o : last_ok (l ++ [o]) r = match o with Answer i status => if IsSuccess status then Some i else last_ok l r | _ => last_ok l r end.
Proof. revert r. induction l as [|x l IH]; intros r; cbn; [done|apply IH]. Qed.

Lemma safe_snoc l o : safe l -> (ByeAnswered ∈ l -> harmless o) -> safe (l ++ [o]).
Proof.
  intros Hs Ho pre post E. destruct post as [|x post _] using rev_ind; [constructor|].
  rewrite app_comm_cons, app_assoc in E. apply app_inj_tail in E as [E ->]. apply Forall_app. split; [by eapply Hs|].
  constructor; [|constructor]. apply Ho. rewrite E. apply elem_of_app. right. by left.
Qed.

(** ** The invariant of the dialog

    [n] re-INVITEs have come and [h] is the one being handled. *)

Definition worker_ok (p : pendingReInvite) : Prop :=
  match worker p with
  | Some _ => retransmitted p = Some false /\ is_Some (acked p) /\ answered p = true
  | None => retransmitted p <> Some false
  end.

Record dinv (n : nat) (h : option nat) (d : dialog) : Prop := {
  di_current : peerReInvite d = h;
  di_handled : forall i, h = Some i -> is_Some (pendings d !! i);
  di_known : forall i p, pendings d !! i = Some p -> (i < n)%nat /\ worker_ok p /\ (h <> Some i -> answered p = true /\ worker p = None);
  di_count : forall i, (i < n)%nat -> count_outs (is_answer i) (outs d) = match pendings d !! i with Some p => if answered p then 1 else 0 | None => 1 end%nat;
  di_fresh : forall i, (n <= i)%nat -> count_outs (is_answer i) (outs d) = 0%nat;
  di_bye : ByeAnswered ∈ outs d -> ended d = true;
  di_safe : safe (outs d);
  di_target : remoteContactTarget d = last_ok (outs d) None }.

(** The fields the invariant reads. *)
Lemma dinv_same n h d d' : dinv n h d -> peerReInvite d' = peerReInvite d -> pendings d' = pendings d -> outs d' = outs d ->
  remoteContactTarget d' = remoteContactTarget d -> (ended d = true -> ended d' = true) -> dinv n h d'.
Proof.
  intros [H1 H2 H3 H4 H5 H6 H7 H8] E1 E2 E3 E4 E5. constructor; rewrite ?E1, ?E2, ?E3, ?E4; try done. auto.
Qed.

(** Something that is no answer is passed on. *)
Lemma dinv_put n h d o : dinv n h d -> match o with Answer _ _ => False | Again _ => ended d = false | ByeAnswered => False | _ => True end -> dinv n h (put o d).
Proof.
  intros [H1 H2 H3 H4 H5 H6 H7 H8] Ho. assert (forall i, count_outs (is_answer i) (outs d ++ [o]) = count_outs (is_answer i) (outs d)) as Hc.
  { intros i. rewrite count_snoc. destruct o; cbn; [done|lia..]. }
  constructor; cbn; try done.
  - intros i Hi. rewrite Hc. by apply H4.
  - intros i Hi. rewrite Hc. by apply H5.
  - intros Hb. apply elem_of_app in Hb as [Hb|Hb]; [by apply H6|]. apply list_elem_of_singleton in Hb. by subst o.
  - apply safe_snoc; [done|]. intros Hb. specialize (H6 Hb). by destruct o; [|congruence|..].
  - rewrite last_ok_snoc. by destruct o.
Qed.

(** A re-INVITE's record changes, not whether it is answered. *)
Lemma dinv_record n h d i p p' : dinv n h d -> pendings d !! i = Some p -> answered p' = answered p -> worker_ok p' -> (worker p = None -> worker p' = None) ->
  dinv n h (set_pending i p' d).
Proof.
  intros [H1 H2 H3 H4 H5 H6 H7 H8] Hi Ha Hw Hn. constructor; cbn; try done.
  - intros j Hj. destruct (decide (i = j)) as [->|]; [rewrite lookup_insert_eq; eauto|rewrite lookup_insert_ne by done; by apply H2].
  - intros j q Hq. destruct (decide (i = j)) as [<-|]; [rewrite lookup_insert_eq in Hq; injection Hq as <-|rewrite lookup_insert_ne in Hq by done; by apply H3].
    destruct (H3 i p Hi) as (G1 & G2 & G3). split; [done|]. split; [done|]. intros Hh. destruct (G3 Hh). rewrite Ha. auto.
  - intros j Hj. rewrite H4 by done. destruct (decide (i = j)) as [<-|]; [by rewrite lookup_insert_eq, Hi, Ha|by rewrite lookup_insert_ne].
Qed.

(** The re-INVITE being handled gets its answer. *)
Lemma dinv_answer n d i p p' status : dinv n (Some i) d -> pendings d !! i = Some p -> answered p = false -> answered p' = true -> worker_ok p' ->
  (ended d = true -> IsSuccess status = false) ->
  dinv n (Some i) (put (Answer i status) (set_pending i p' d <| remoteContactTarget := if IsSuccess status then Some i else remoteContactTarget d |>)).
Proof.
  intros [H1 H2 H3 H4 H5 H6 H7 H8] Hi Ha Ha' Hw He. destruct (H3 i p Hi) as (Hn & _ & _). constructor; cbn; try done.
  - intros j [= <-]. rewrite lookup_insert_eq. eauto.
  - intros j q Hq. destruct (decide (i = j)) as [<-|]; [rewrite lookup_insert_eq in Hq; injection Hq as <-|rewrite lookup_insert_ne in Hq by done; by apply H3].
    split; [done|]. split; [done|]. congruence.
  - intros j Hj. rewrite count_snoc, H4 by done. cbn. destruct (Nat.eqb_spec i j) as [<-|].
    + by rewrite lookup_insert_eq, Hi, Ha, Ha'.
    + rewrite lookup_insert_ne by done. lia.
  - intros j Hj. rewrite count_snoc, H5 by done. cbn. destruct (Nat.eqb_spec i j); lia.
  - intros Hb. apply elem_of_app in Hb as [Hb|Hb]; [by apply H6|by apply list_elem_of_singleton in Hb].
  - apply safe_snoc; [done|]. intros Hb. apply He, H6, Hb.
  - rewrite last_ok_snoc, H8. by destruct (IsSuccess status).
Qed.

Section Steps.
Context (sip_T1 sip_T2 : Z) (t : ackTimers).

Definition has_answer (i : nat) (d : dialog) : Prop := exists p, pendings d !! i = Some p /\ answered p = true.

Lemma current_inv n i d : dinv n (Some i) d -> exists p, current i d = Some p /\ pendings d !! i = Some p.
Proof.
  intros H. destruct (di_handled _ _ _ H i eq_refl) as [p Hp]. exists p. unfold current. by rewrite (di_current _ _ _ H), bool_decide_true.
Qed.

Lemma respond_inv n i status fails now d : dinv n (Some i) d ->
  dinv n (Some i) (respondPeerReInvite sip_T1 sip_T2 t i status fails now d).1.1 /\ has_answer i (respondPeerReInvite sip_T1 sip_T2 t i status fails now d).1.1.
Proof.
  intros H. destruct (current_inv n i d H) as (p & Hc & Hp). unfold respondPeerReInvite. rewrite Hc.
  destruct (answered p) eqn:Ha; [split; [done|by exists p]|].
  destruct (di_known _ _ _ H i p Hp) as (_ & Hw & _).
  assert (worker p = None) as Hwn by (unfold worker_ok in Hw; destruct (worker p); [destruct Hw as (_ & _ & ?); congruence|done]).
  assert (worker_ok (p <| answered := true |>)) as Hw' by (revert Hw; unfold worker_ok; cbn; by rewrite Hwn).
  assert (worker_ok (p <| answered := true |> <| acked := Some false |>)) as Hw'' by (revert Hw; unfold worker_ok; cbn; by rewrite Hwn).
  destruct (ended d) eqn:He; cbn [fst].
  { split; [|eexists; split; [apply lookup_insert_eq|done]]. eapply dinv_same; [by eapply (dinv_answer n d i p (p <| answered := true |>) StatusRequestTerminated)|done..]. }
  destruct (IsSuccess status) eqn:Hs; cbn [negb fst].
  2:{ split; [|eexists; split; [apply lookup_insert_eq|done]]. eapply dinv_same; [by eapply (dinv_answer n d i p (p <| answered := true |>) status)|try done..]. cbn. by rewrite Hs. }
  set (d1 := if on2xx p then put (On2xx i) d else d).
  assert (dinv n (Some i) d1 /\ pendings d1 = pendings d /\ ended d1 = false) as (H1 & E1 & E2).
  { unfold d1. destruct (on2xx p); [|done]. split; [by apply dinv_put|done]. }
  destruct fails; cbn [fst].
  { split; [|eexists; split; [apply lookup_insert_eq|done]].
    eapply dinv_same; [eapply (dinv_answer n d1 i p (p <| answered := true |> <| acked := Some false |>) status); [done|by rewrite E1|done..|by rewrite E2]|try done..]. cbn. by rewrite Hs. }
  destruct (values sip_T1 sip_T2 t) as [[v1 v2] v3]. cbn [fst]. split; [|eexists; split; [apply lookup_insert_eq|done]].
  set (q := p <| answered := true |> <| acked := Some false |> <| retransmitted := Some false |> <| worker := Some {| interval := v1; timer := now + v1; deadline := now + v3 |} |>).
  eapply dinv_same; [eapply (dinv_answer n d1 i p q status); [done|by rewrite E1|done|done|by split_and!|by rewrite E2]|try done..]. cbn. by rewrite Hs.
Qed.

(** A response that is refused, before any 2xx, is no 2xx. *)
Lemma terminate_inv n h d : dinv n h d -> ended d = true ->
  dinv n h (terminatePeerReInviteLocked d) /\ forall i p, pendings (terminatePeerReInviteLocked d) !! i = Some p -> answered p = true.
Proof.
  intros H He. unfold terminatePeerReInviteLocked.
  assert (forall j q, h <> Some j -> pendings d !! j = Some q -> answered q = true) as Hold by (intros j q Hj Hq; by apply (di_known _ _ _ H j q Hq)).
  rewrite (di_current _ _ _ H). destruct h as [i|]; [|split; [done|intros j q; by apply Hold]].
  destruct (di_handled _ _ _ H i eq_refl) as [p Hp]. rewrite Hp. destruct (answered p) eqn:Ha.
  - split; [done|]. intros j q Hq. destruct (decide (i = j)) as [<-|]; [congruence|]. by apply (Hold j); [congruence|].
  - destruct (di_known _ _ _ H i p Hp) as (_ & Hw & _).
    assert (worker_ok (p <| answered := true |>)) as Hw' by (revert Hw; unfold worker_ok; cbn; destruct (worker p); naive_solver).
    split; [eapply dinv_same; [by eapply (dinv_answer n d i p (p <| answered := true |>) StatusRequestTerminated)|done..]|].
    intros j q. cbn. destruct (decide (i = j)) as [<-|]; [rewrite lookup_insert_eq; by intros [= <-]|]. rewrite lookup_insert_ne by done. apply Hold. congruence.
Qed.

Lemma hangup_inv n h d : dinv n h d -> dinv n h (d <| ended := true |>).
Proof. intros H. by eapply dinv_same. Qed.

Lemma taken_inv n h d : dinv n h d -> dinv n h (put ByeAnswered (d <| ended := true |>)).
Proof.
  intros [H1 H2 H3 H4 H5 H6 H7 H8]. constructor; cbn; try done.
  - intros i Hi. rewrite count_snoc, H4 by done. cbn. lia.
  - intros i Hi. rewrite count_snoc, H5 by done. done.
  - by apply safe_snoc.
  - by rewrite last_ok_snoc.
Qed.

Lemma bye_inv n h d req r : dinv n h d -> dinv n h (ReadBye req r d).
Proof.
  intros H. unfold ReadBye. cbv zeta. match goal with |- context [readByeOnce r ?x] => assert (dinv n h x) as H0 by (by eapply dinv_same); revert H0; generalize x end. clear H d.
  intros d H. assert (forall d', dinv n h d' -> forall b : bool, dinv n h (if b then if bool_decide (terminatingBye d' = Some req) then d' <| terminatingBye := None |> else d' else d')) as Hroll.
  { intros d' H' []; [|done]. case_bool_decide; [by eapply dinv_same|done]. }
  destruct r as [|responded|ends]; cbn [readByeOnce].
  - apply terminate_inv; [by apply taken_inv|done].
  - apply (Hroll (put ByeRefused d)). by apply dinv_put.
  - apply (Hroll (if ends then d <| ended := true |> else d)). destruct ends; [by apply hangup_inv|done].
Qed.

(** Nothing is unanswered once a BYE was answered. *)
Definition bye_done (d : dialog) : Prop := ByeAnswered ∈ outs d -> forall i p, pendings d !! i = Some p -> answered p = true.

Definition keeps_record (d d' : dialog) : Prop :=
  (forall i p', pendings d' !! i = Some p' -> answered p' = true \/ exists p, pendings d !! i = Some p /\ answered p' = answered p) /\
  (ByeAnswered ∈ outs d' -> ByeAnswered ∈ outs d) /\ mediaUpdateDone d' = mediaUpdateDone d.

Lemma bye_done_keeps d d' : keeps_record d d' -> bye_done d -> bye_done d'.
Proof. intros (H1 & H2 & _) H Hb i p' Hp. destruct (H1 i p' Hp) as [|(p & Hp' & ->)]; [done|]. by eapply H; [apply H2|]. Qed.

Lemma keeps_refl d : keeps_record d d.
Proof. split; [|done]. intros i p' Hp. right. by exists p'. Qed.

Lemma keeps_put d d' o : o <> ByeAnswered -> keeps_record d d' -> keeps_record d (put o d').
Proof.
  intros Ho (H1 & H2 & H3). split; [done|]. split; [|done]. cbn. intros [H|H]%elem_of_app; [by apply H2|]. apply list_elem_of_singleton in H. congruence.
Qed.

Lemma keeps_set d d' i p' : keeps_record d d' -> answered p' = true \/ (exists p, pendings d !! i = Some p /\ answered p' = answered p) -> keeps_record d (set_pending i p' d').
Proof.
  intros (H1 & H2 & H3) Hp. split; [|done]. intros j q. cbn. destruct (decide (i = j)) as [<-|]; [rewrite lookup_insert_eq; by intros [= <-]|].
  rewrite lookup_insert_ne by done. apply H1.
Qed.

Lemma keeps_same d d' d'' : keeps_record d d' -> pendings d'' = pendings d' -> outs d'' = outs d' -> mediaUpdateDone d'' = mediaUpdateDone d' -> keeps_record d d''.
Proof. unfold keeps_record. by intros H -> -> ->. Qed.

Lemma respond_keeps i status fails now d : keeps_record d (respondPeerReInvite sip_T1 sip_T2 t i status fails now d).1.1.
Proof.
  unfold respondPeerReInvite. destruct (current i d) as [p|]; [|apply keeps_put; [done|apply keeps_refl]].
  destruct (answered p); [apply keeps_refl|]. destruct (ended d); cbn [fst]; [apply keeps_put; [done|]; apply keeps_set; [apply keeps_refl|by left]|].
  destruct (IsSuccess status); cbn [negb fst]; [|apply keeps_put; [done|]; apply keeps_set; [apply keeps_refl|by left]].
  set (d1 := if on2xx p then put (On2xx i) d else d). assert (keeps_record d d1) as H1 by (unfold d1; destruct (on2xx p); [apply keeps_put; [done|]|]; apply keeps_refl).
  set (d2 := put (Answer i status) (d1 <| remoteContactTarget := Some i |>)).
  assert (keeps_record d d2) as H2 by (apply keeps_put; [done|]; by eapply keeps_same).
  destruct fails; cbn [fst]; [by apply keeps_set; [|left]|]. destruct (values sip_T1 sip_T2 t) as [[v1 v2] v3]. by apply keeps_set; [|left].
Qed.

Lemma retransmit_ok n h i p w c now d : dinv n h d -> pendings d !! i = Some p -> worker p = Some w ->
  dinv n h (retransmit sip_T1 sip_T2 t i p w c now d) /\ keeps_record d (retransmit sip_T1 sip_T2 t i p w c now d).
Proof.
  intros H Hp Hw. destruct (di_known _ _ _ H i p Hp) as (_ & Hok & _). unfold worker_ok in Hok. rewrite Hw in Hok. destruct Hok as (O1 & O2 & O3).
  assert (forall e d', dinv n h d' -> keeps_record d d' -> pendings d' !! i = Some p -> dinv n h (set_pending i (stop e p) d') /\ keeps_record d (set_pending i (stop e p) d')) as Hstop.
  { intros e d' H' K' Hp'. split; [by eapply dinv_record|]. apply keeps_set; [done|]. right. by exists p. }
  pose proof (keeps_refl d) as K. unfold retransmit. destruct c as [| | |fails]; try (by apply Hstop).
  destruct (ended d) eqn:He; [by apply Hstop|]. assert (dinv n h (put (Again i) d)) as H1 by (by apply dinv_put). assert (keeps_record d (put (Again i) d)) as K1 by (by apply keeps_put).
  destruct fails; [by apply Hstop|]. destruct (values sip_T1 sip_T2 t) as [[v1 v2] v3]. split.
  - eapply dinv_record; [done|exact Hp|done|by split_and!|congruence].
  - apply keeps_set; [done|]. right. by exists p.
Qed.

Lemma ack_ok n h c d : dinv n h d -> dinv n h (ackPeerReInvite c d) /\ keeps_record d (ackPeerReInvite c d).
Proof.
  intros H. pose proof (keeps_refl d) as K. unfold ackPeerReInvite. destruct (peerReInvite d) as [i|]; [|done]. destruct (pendings d !! i) as [p|] eqn:Hp; [|done].
  destruct (acked p) as [b|] eqn:Hb; [|done]. destruct (negb _); [done|]. destruct (di_known _ _ _ H i p Hp) as (_ & Hok & _). split.
  - eapply dinv_record; [done|exact Hp|done| |done]. revert Hok. unfold worker_ok. cbn. destruct (worker p); naive_solver.
  - apply keeps_set; [done|]. right. by exists p.
Qed.

Lemma bye_keeps req r d : r <> ByeTaken -> keeps_record d (ReadBye req r d).
Proof.
  intros Hr. unfold ReadBye. cbv zeta. match goal with |- context [readByeOnce r ?x] => assert (keeps_record d x) as K by (by eapply keeps_same; [apply keeps_refl|..]); revert K; generalize x end.
  intros d' K. assert (forall d'', keeps_record d d'' -> forall b : bool, keeps_record d (if b then if bool_decide (terminatingBye d'' = Some req) then d'' <| terminatingBye := None |> else d'' else d'')) as Hroll.
  { intros d'' K' []; [|done]. case_bool_decide; [by eapply keeps_same|done]. }
  destruct r as [|responded|ends]; [done| |]; cbn [readByeOnce].
  - apply (Hroll (put ByeRefused d')). by apply keeps_put.
  - apply (Hroll (if ends then d' <| ended := true |> else d')). destruct ends; [by eapply keeps_same|done].
Qed.

Lemma terminate_update d : mediaUpdateDone (terminatePeerReInviteLocked d) = mediaUpdateDone d.
Proof. unfold terminatePeerReInviteLocked. by repeat case_match. Qed.

Lemma bye_ok n h req r d : dinv n h d -> bye_done d -> bye_done (ReadBye req r d) /\ mediaUpdateDone (ReadBye req r d) = mediaUpdateDone d.
Proof.
  intros H Hb. destruct r as [|responded|ends].
  2,3: split; [by eapply bye_done_keeps; [apply bye_keeps|]|by apply bye_keeps].
  unfold ReadBye. cbv zeta. cbn [readByeOnce]. rewrite terminate_update. split; [|done]. intros _.
  match goal with |- context [terminatePeerReInviteLocked ?x] => destruct (terminate_inv n h x) as [_ Ht] end; [apply taken_inv; by eapply dinv_same|done|exact Ht].
Qed.

(** ** The invariant of the world *)

(** The re-INVITE whose media update is in progress. *)
Definition updating (h : option (nat * stage)) : option nat :=
  match h with Some (i, Updating) | Some (i, Responded true) => Some i | _ => None end.

(** [mediaUpdateDone] stands for the one re-INVITE in progress, theirs or ours. *)
Definition turns (u : option party) (h : option (nat * stage)) (o : gset nat) : Prop :=
  match u with
  | None => updating h = None /\ o = ∅
  | Some (Peer i) => updating h = Some i /\ o = ∅
  | Some (Own k) => updating h = None /\ o = {[k]}
  end.

Record winv (w : world) : Prop := {
  wi_dialog : dinv (arrived w) (fst <$> handling w) (dlg w);
  wi_bye : bye_done (dlg w);
  wi_answered : forall i u, handling w = Some (i, Responded u) -> has_answer i (dlg w);
  wi_turns : turns (mediaUpdateDone (dlg w)) (handling w) (owns w) }.

Lemma winv_start : winv fresh_world.
Proof.
  constructor; cbn; try done. constructor; cbn; try done; try lia.
  - intros H. by apply elem_of_nil in H.
  - intros pre post E. by destruct pre.
Qed.

(** A stretch of another goroutine than the handler. *)
Lemma winv_at w f : winv w -> dinv (arrived w) (fst <$> handling w) (f (dlg w)) -> bye_done (f (dlg w)) ->
  (forall i, has_answer i (dlg w) -> has_answer i (f (dlg w))) -> mediaUpdateDone (f (dlg w)) = mediaUpdateDone (dlg w) -> winv (at_dialog f w).
Proof. intros [H1 H2 H3 H4] G1 G2 G3 G4. constructor; cbn; try done; [|by rewrite G4]. intros i u Hh. by eapply G3, H3. Qed.

(** What has an answer keeps_record it. *)
Lemma has_answer_set i j p p' d : pendings d !! j = Some p -> (answered p = true -> answered p' = true) -> has_answer i d -> has_answer i (set_pending j p' d).
Proof.
  intros Hj Ha (q & Hq & Hqa). unfold has_answer. cbn. destruct (decide (j = i)) as [<-|]; [rewrite lookup_insert_eq; simplify_eq; eauto|rewrite lookup_insert_ne by done; eauto].
Qed.

Lemma has_answer_same i d d' : pendings d' = pendings d -> has_answer i d -> has_answer i d'.
Proof. unfold has_answer. by intros ->. Qed.

Lemma retransmit_answer i j p w c now d : pendings d !! j = Some p -> has_answer i d -> has_answer i (retransmit sip_T1 sip_T2 t j p w c now d).
Proof.
  intros Hp Ha. unfold retransmit. destruct c as [| | |fails]; try (by eapply has_answer_set).
  destruct (ended d); [by eapply has_answer_set|]. assert (has_answer i (put (Again j) d)) as Ha' by (by eapply has_answer_same).
  destruct fails; [by eapply has_answer_set|]. destruct (values sip_T1 sip_T2 t) as [[v1 v2] v3]. by eapply has_answer_set.
Qed.

Lemma ack_answer i c d : has_answer i d -> has_answer i (ackPeerReInvite c d).
Proof. intros Ha. unfold ackPeerReInvite. repeat case_match; try done. by eapply has_answer_set. Qed.

Lemma terminate_answer i d : has_answer i d -> has_answer i (terminatePeerReInviteLocked d).
Proof.
  intros Ha. unfold terminatePeerReInviteLocked. destruct (peerReInvite d) as [j|]; [|done]. destruct (pendings d !! j) as [p|] eqn:E; [|done].
  destruct (answered p); [done|]. apply (has_answer_same i (set_pending j (p <| answered := true |>) d)); [done|]. by eapply has_answer_set.
Qed.

Lemma bye_answer i req r d : has_answer i d -> has_answer i (ReadBye req r d).
Proof.
  intros Ha. unfold ReadBye. cbv zeta. match goal with |- context [readByeOnce r ?x] => assert (has_answer i x) as K by (by eapply has_answer_same); revert K; generalize x end.
  intros d' K. destruct (readByeOnce r d') as [d'' e] eqn:E. assert (has_answer i d'') as K'.
  { destruct r as [|responded|[]]; cbn in E; simplify_eq; by eapply has_answer_same. }
  destruct e; [|by apply terminate_answer]. repeat case_match; by eapply has_answer_same.
Qed.

Lemma begin_winv c (tr : bool) w (i : bool) d : winv w -> handling w = None -> beginPeerReInvite (arrived w) c (dlg w) = (d, i) ->
  winv (if i then w <| dlg := d |> <| arrived := S (arrived w) |>
        else w <| dlg := if tr then onPeerReInvite2xx (arrived w) d else d |> <| arrived := S (arrived w) |> <| handling := Some (arrived w, Recorded) |>).
Proof.
  intros [[D1 D2 D3 D4 D5 D6 D7 D8] H2 H3 H4] Hh. rewrite Hh in *. unfold beginPeerReInvite. cbn in D1, D2, D3.
  destruct (ended (dlg w)) eqn:He; intros [= <- <-].
  - constructor; cbn; rewrite ?Hh; try done.
    + constructor; cbn; try done.
      * intros j p Hp. destruct (D3 j p Hp) as (? & ? & ?). split; [lia|done].
      * intros j Hj. rewrite count_snoc. cbn. destruct (Nat.eqb_spec (arrived w) j) as [<-|]; [|rewrite D4 by lia; lia].
        rewrite D5 by done. destruct (pendings (dlg w) !! arrived w) as [p|] eqn:Hp; [|done]. destruct (D3 _ p Hp). lia.
      * intros j Hj. rewrite count_snoc, D5 by lia. cbn. destruct (Nat.eqb_spec (arrived w) j); lia.
      * by apply safe_snoc.
      * by rewrite last_ok_snoc.
    + eapply bye_done_keeps; [|exact H2]. apply keeps_put; [done|apply keeps_refl].
  - assert (ByeAnswered ∉ outs (dlg w)) as Hnb by (intros Hb; apply D6 in Hb; congruence).
    set (p := {| cseq := c; answered := false; on2xx := false; acked := None; retransmitted := None; ackErr := false; worker := None |}).
    assert (forall q, answered q = false -> worker q = None -> retransmitted q = None -> forall d, pendings d = <[arrived w := q]> (pendings (dlg w)) -> peerReInvite d = Some (arrived w) -> outs d = outs (dlg w) ->
      remoteContactTarget d = remoteContactTarget (dlg w) -> ended d = false -> dinv (S (arrived w)) (Some (arrived w)) d) as Hd.
    { intros q Q1 Q2 Q3 d E1 E2 E3 E4 E5. constructor; rewrite ?E1, ?E2, ?E3, ?E4; try done.
      - intros j [= <-]. rewrite lookup_insert_eq. eauto.
      - intros j p'. destruct (decide (arrived w = j)) as [<-|Hj]; [rewrite lookup_insert_eq; intros [= <-]|rewrite lookup_insert_ne by done].
        + split; [lia|]. split; [unfold worker_ok; by rewrite Q2, Q3|done].
        + intros Hp. destruct (D3 j p' Hp) as (G1 & G2 & G3). split; [lia|]. split; [done|]. intros _. by apply G3.
      - intros j Hj. destruct (decide (arrived w = j)) as [<-|Hne]; [rewrite lookup_insert_eq, Q1; by apply D5|rewrite lookup_insert_ne by done; apply D4; lia].
      - intros j Hj. apply D5. lia. }
    constructor; cbn.
    + destruct tr.
      * unfold onPeerReInvite2xx, current. cbn. rewrite bool_decide_true, lookup_insert_eq by done. apply (Hd (p <| on2xx := true |>)); try done. cbn. by rewrite insert_insert_eq.
      * by apply (Hd p).
    + intros Hb. exfalso. apply Hnb. destruct tr; [|done]. revert Hb. unfold onPeerReInvite2xx. by destruct (current _ _).
    + done.
    + assert (mediaUpdateDone (if tr then onPeerReInvite2xx (arrived w) (set_pending (arrived w) p (dlg w) <| peerReInvite := Some (arrived w) |>) else set_pending (arrived w) p (dlg w) <| peerReInvite := Some (arrived w) |>) = mediaUpdateDone (dlg w)) as E
        by (destruct tr; [unfold onPeerReInvite2xx; by destruct (current _ _)|done]).
      unfold turns in *. cbn in E. rewrite E. exact H4.
Qed.

Lemma respond_winv i st u status fails now w : winv w -> handling w = Some (i, st) -> updating (Some (i, Responded u)) = updating (handling w) ->
  winv (w <| dlg := (respondPeerReInvite sip_T1 sip_T2 t i status fails now (dlg w)).1.1 |> <| handling := Some (i, Responded u) |>).
Proof.
  intros [H1 H2 H3 H4] Hh Hu. rewrite Hh in H1. destruct (respond_inv (arrived w) i status fails now (dlg w) H1) as [R1 R2].
  pose proof (respond_keeps i status fails now (dlg w)) as K. constructor; cbn; try done.
  - by eapply bye_done_keeps.
  - intros j v [= <- _]. done.
  - destruct K as (_ & _ & ->). unfold turns in *. rewrite <- Hu in H4. exact H4.
Qed.

Lemma end_winv i (u : bool) w : winv w -> handling w = Some (i, Responded u) -> end_ready i (dlg w) = true ->
  winv (w <| dlg := if u then endMediaUpdate (Peer i) (endPeerReInvite i (dlg w)).1 else (endPeerReInvite i (dlg w)).1 |> <| handling := None |>).
Proof.
  intros [H1 H2 H3 H4] Hh He. destruct (H3 i u Hh) as (p & Hp & Ha). rewrite Hh in H1. cbn in H1. destruct (current_inv _ i _ H1) as (p' & Hc & Hp'). rewrite Hp in Hp'. injection Hp' as <-.
  unfold end_ready in He. rewrite Hc in He. unfold endPeerReInvite. rewrite Hc. cbn [fst].
  assert (dinv (arrived w) None (dlg w <| peerReInvite := None |>)) as Hd.
  { destruct H1 as [D1 D2 D3 D4 D5 D6 D7 D8]. constructor; cbn; try done. intros j q Hq. destruct (D3 j q Hq) as (G1 & G2 & G3). split; [done|]. split; [done|]. intros _.
    destruct (decide (i = j)) as [<-|Hj]; [|apply G3; congruence]. rewrite Hp in Hq. injection Hq as <-. split; [done|].
    unfold worker_ok in G2. destruct (worker p); [|done]. destruct G2 as (G2 & _). by rewrite G2 in He. }
  set (d := dlg w <| peerReInvite := None |>) in *. assert (bye_done d) as Hb by done.
  destruct u.
  - unfold endMediaUpdate. constructor; cbn; try done.
    + destruct (bool_decide _); [by eapply dinv_same|done].
    + by destruct (bool_decide _).
    + change (mediaUpdateDone d) with (mediaUpdateDone (dlg w)). rewrite Hh in H4. destruct (mediaUpdateDone (dlg w)) as [[j|k]|]; cbn in H4; destruct H4 as [E1 E2]; try done.
      injection E1 as <-. by rewrite bool_decide_true.
  - constructor; cbn; try done. rewrite Hh in H4. destruct (mediaUpdateDone (dlg w)) as [[j|k]|]; cbn in *; by destruct H4 as [E1 E2].
Qed.

Lemma own_begin_winv k w : winv w -> k ∉ owns w -> mediaUpdateDone (dlg w) = None ->
  winv (w <| dlg := dlg w <| mediaUpdateDone := Some (Own k) |> |> <| owns := {[k]} ∪ owns w |>).
Proof.
  intros [H1 H2 H3 H4] Hk Hn. rewrite Hn in H4. destruct H4 as [E1 E2]. constructor; cbn; [by eapply dinv_same|exact H2|exact H3|]. split; [done|]. rewrite E2. set_solver.
Qed.

Lemma own_end_winv k w : winv w -> k ∈ owns w -> winv (w <| dlg := endMediaUpdate (Own k) (dlg w) |> <| owns := owns w ∖ {[k]} |>).
Proof.
  intros [H1 H2 H3 H4] Hk. unfold endMediaUpdate. destruct (mediaUpdateDone (dlg w)) as [[i|k']|] eqn:E; cbn in H4; destruct H4 as [E1 E2]; rewrite E2 in Hk; try set_solver.
  apply elem_of_singleton in Hk as ->. rewrite bool_decide_true by done. constructor; cbn; [by eapply dinv_same|exact H2|exact H3|]. split; [done|]. rewrite E2. set_solver.
Qed.

Lemma update_winv i w : winv w -> handling w = Some (i, Recorded) -> mediaUpdateDone (dlg w) = None ->
  winv (w <| dlg := dlg w <| mediaUpdateDone := Some (Peer i) |> |> <| handling := Some (i, Updating) |>).
Proof.
  intros [H1 H2 H3 H4] Hh Hn. rewrite Hn in H4. destruct H4 as [E1 E2]. rewrite Hh in H1. constructor; cbn; [by eapply dinv_same|exact H2|done|by split].
Qed.

Lemma step_winv now ev w w' : winv w -> step sip_T1 sip_T2 t now ev w = Some w' -> winv w'.
Proof.
  intros Hw Hs. pose proof Hw as [H1 H2 H3 H4].
  destruct ev as [c tr|status fails|fails|status fails| |c|i c|req r| | |k|k]; cbn [step] in Hs.
  - destruct (handling w) eqn:Hh; [done|]. destruct (beginPeerReInvite (arrived w) c (dlg w)) as [d b] eqn:E.
    pose proof (begin_winv c tr w b d Hw Hh E) as G. destruct b; by injection Hs as <-.
  - destruct (handling w) as [[i []]|] eqn:Hh; try done. destruct (IsSuccess status); [done|]. injection Hs as <-. eapply respond_winv; [done|exact Hh|by rewrite Hh].
  - destruct (handling w) as [[i []]|] eqn:Hh; try done. unfold beginPeerMediaUpdate in Hs.
    destruct (mediaUpdateDone (dlg w)) eqn:E; injection Hs as <-; [eapply respond_winv; [done|exact Hh|by rewrite Hh]|by apply update_winv].
  - destruct (handling w) as [[i []]|] eqn:Hh; try done. injection Hs as <-. eapply respond_winv; [done|exact Hh|by rewrite Hh].
  - destruct (handling w) as [[i [| |u]]|] eqn:Hh; try done. destruct (end_ready i (dlg w)) eqn:He; [|done]. injection Hs as <-. by apply end_winv.
  - injection Hs as <-. destruct (ack_ok _ _ c _ H1) as [A1 A2]. apply winv_at; [done|done|by eapply bye_done_keeps|intros i; apply ack_answer|by apply A2].
  - destruct (pendings (dlg w) !! i) as [p|] eqn:Hp; [|done]. destruct (worker p) as [wk|] eqn:Hwk; [|done]. destruct (wake_ready _ _ _ _ _); [|done]. injection Hs as <-.
    destruct (retransmit_ok _ _ i p wk c now (dlg w) H1 Hp Hwk) as [A1 A2]. apply winv_at; [done|done|by eapply bye_done_keeps|intros j; by apply retransmit_answer|by apply A2].
  - injection Hs as <-. destruct (bye_ok _ _ req r _ H1 H2) as [A1 A2]. apply winv_at; [done|by apply bye_inv|done|intros j; apply bye_answer|done].
  - injection Hs as <-. by apply winv_at; [|apply hangup_inv|..].
  - injection Hs as <-. apply winv_at; [done|by eapply dinv_same|done..].
  - case_bool_decide as Hk; [done|]. unfold beginOwnMediaUpdate in Hs. destruct (closed (dlg w)); [by injection Hs as <-|].
    destruct (mediaUpdateDone (dlg w)) eqn:E; [done|]. injection Hs as <-. by apply own_begin_winv.
  - case_bool_decide as Hk; [|done]. injection Hs as <-. by apply own_end_winv.
Qed.

Lemma run_winv now log w : run sip_T1 sip_T2 t now log w -> winv w.
Proof. induction 1 as [|was now log w ev w' _ IH _ Hs]; [apply winv_start|by eapply step_winv]. Qed.

(** ** The pace of the 2xx *)

Definition T1 : Z := (values sip_T1 sip_T2 t).1.1.
Definition T2 : Z := (values sip_T1 sip_T2 t).1.2.
Definition TO : Z := (values sip_T1 sip_T2 t).2.

(** The interval after [n] retransmissions, and when the next one is due. *)
Definition pace (n : nat) : Z := Z.min (2 ^ Z.of_nat n * T1) T2.
Fixpoint elapsed (n : nat) : Z := match n with O => pace 0 | S m => elapsed m + pace n end.

Definition paced_worker (now : Z) (n : nat) (w : retransmitter) : Prop :=
  exists sent, sent <= now /\ interval w = pace n /\ sent + elapsed n <= timer w /\ deadline w = sent + TO.

Definition paced_pending (now : Z) (n : nat) (p : pendingReInvite) : Prop :=
  match worker p with
  | Some w => paced_worker now n w /\ ackErr p = false
  | None => answered p = false -> n = 0%nat /\ ackErr p = false
  end.

Definition paced (now : Z) (d : dialog) : Prop :=
  forall i, match pendings d !! i with
            | Some p => paced_pending now (count_outs (is_again i) (outs d)) p
            | None => count_outs (is_again i) (outs d) = 0%nat
            end.

Lemma paced_later now now' d : now <= now' -> paced now d -> paced now' d.
Proof.
  intros Hn H i. specialize (H i). destruct (pendings d !! i) as [p|]; [|done]. unfold paced_pending in *. destruct (worker p); [|done].
  destruct H as [(sent & ? & ?) ?]. split; [|done]. exists sent. split; [lia|done].
Qed.

Lemma paced_put now o d : match o with Again _ => False | _ => True end -> paced now d -> paced now (put o d).
Proof.
  intros Ho H i. specialize (H i). cbn. assert (count_outs (is_again i) (outs d ++ [o]) = count_outs (is_again i) (outs d)) as -> by (rewrite count_snoc; destruct o; cbn; [lia|done|lia..]). done.
Qed.

Lemma paced_set now i p d : paced now d -> paced_pending now (count_outs (is_again i) (outs d)) p -> paced now (set_pending i p d).
Proof.
  intros H Hp j. cbn. destruct (decide (i = j)) as [<-|]; [by rewrite lookup_insert_eq|]. rewrite lookup_insert_ne by done. apply H.
Qed.

Lemma paced_same now d d' : paced now d -> pendings d' = pendings d -> outs d' = outs d -> paced now d'.
Proof. unfold paced. by intros H -> ->. Qed.

Lemma paced_lookup now i p d : paced now d -> pendings d !! i = Some p -> paced_pending now (count_outs (is_again i) (outs d)) p.
Proof. intros H Hp. specialize (H i). by rewrite Hp in H. Qed.

Lemma stop_paced now n e p : answered p = true -> paced_pending now n (stop e p).
Proof. unfold paced_pending. cbn. congruence. Qed.

Hypothesis T1_T2 : 0 < T1 <= T2.

Lemma pace_0 : pace 0 = T1.
Proof. unfold pace. cbn [Z.of_nat Z.pow]. change (2 ^ 0) with 1. lia. Qed.

Lemma pace_S n : Z.min (2 * pace n) T2 = pace (S n).
Proof.
  unfold pace. rewrite Nat2Z.inj_succ, Z.pow_succ_r by lia. assert (0 < 2 ^ Z.of_nat n) by (apply Z.pow_pos_nonneg; lia). nia.
Qed.

Lemma respond_paced n i status fails now d : dinv n (Some i) d -> paced now d -> paced now (respondPeerReInvite sip_T1 sip_T2 t i status fails now d).1.1.
Proof.
  intros Hd H. destruct (current_inv n i d Hd) as (p & Hc & Hp). unfold respondPeerReInvite. rewrite Hc.
  destruct (answered p) eqn:Ha; [done|]. pose proof (paced_lookup now i p d H Hp) as Hpp. unfold paced_pending in Hpp.
  assert (worker p = None) as Hw.
  { destruct (di_known _ _ _ Hd i p Hp) as (_ & Hw & _). unfold worker_ok in Hw. destruct (worker p); [|done]. destruct Hw as (_ & _ & ?). congruence. }
  rewrite Hw in Hpp. destruct (Hpp Ha) as [H0 He].
  destruct (ended d); cbn [fst]; [apply paced_put; [done|]; apply paced_set; [done|]; unfold paced_pending; cbn; by rewrite Hw|].
  destruct (IsSuccess status); cbn [negb fst]; [|apply paced_put; [done|]; apply paced_set; [done|]; unfold paced_pending; cbn; by rewrite Hw].
  set (d1 := if on2xx p then put (On2xx i) d else d).
  assert (paced now d1 /\ count_outs (is_again i) (outs d1) = 0%nat) as [H1 H01].
  { unfold d1. destruct (on2xx p); [|done]. split; [by apply paced_put|]. cbn. by rewrite count_snoc, H0. }
  set (d2 := put (Answer i status) (d1 <| remoteContactTarget := Some i |>)).
  assert (paced now d2 /\ count_outs (is_again i) (outs d2) = 0%nat) as [H2 H02].
  { split; [apply paced_put; [done|]; by eapply paced_same|]. cbn. by rewrite count_snoc, H01. }
  destruct fails; cbn [fst]; [apply paced_set; [done|]; unfold paced_pending; cbn; by rewrite Hw|].
  destruct (values sip_T1 sip_T2 t) as [[v1 v2] v3] eqn:Ev. apply (paced_set now i _ d2); [done|]. rewrite H02. split; [|done].
  assert (v1 = T1) as -> by (unfold T1; by rewrite Ev). assert (v3 = TO) as -> by (unfold TO; by rewrite Ev).
  exists now. split; [lia|]. cbn [interval timer deadline elapsed]. rewrite pace_0. split; [done|]. split; [lia|done].
Qed.

Lemma retransmit_paced n h i p w c now d : dinv n h d -> paced now d -> pendings d !! i = Some p -> worker p = Some w -> wake_ready now d p w c = true ->
  paced now (retransmit sip_T1 sip_T2 t i p w c now d).
Proof.
  intros Hd H Hp Hw Hr. destruct (di_known _ _ _ Hd i p Hp) as (_ & Hok & _). unfold worker_ok in Hok. rewrite Hw in Hok. destruct Hok as (_ & _ & Ha).
  pose proof (paced_lookup now i p d H Hp) as Hpp. unfold paced_pending in Hpp. rewrite Hw in Hpp. destruct Hpp as [(sent & P1 & P2 & P3 & P4) He].
  unfold retransmit. destruct c as [| | |fails]; try (by apply paced_set; [|apply stop_paced]).
  destruct (ended d); [by apply paced_set; [|apply stop_paced]|]. cbn in Hr.
  assert (count_outs (is_again i) (outs (put (Again i) d)) = S (count_outs (is_again i) (outs d))) as Hc by (cbn; rewrite count_snoc; cbn; rewrite Nat.eqb_refl; lia).
  assert (forall q, paced_pending now (S (count_outs (is_again i) (outs d))) q -> paced now (set_pending i q (put (Again i) d))) as Hset.
  { intros q Hq j. cbn. destruct (decide (i = j)) as [<-|Hj]; [rewrite lookup_insert_eq; cbn in Hc; by rewrite Hc|]. rewrite lookup_insert_ne by done.
    specialize (H j). assert (count_outs (is_again j) (outs d ++ [Again i]) = count_outs (is_again j) (outs d)) as ->; [|done].
    rewrite count_snoc. cbn. destruct (Nat.eqb_spec i j); [congruence|lia]. }
  destruct fails; [by apply Hset, stop_paced|]. destruct (values sip_T1 sip_T2 t) as [[v1 v2] v3] eqn:Ev. apply Hset. unfold paced_pending. cbn [worker ackErr]. split; [|done].
  assert (v2 = T2) as -> by (unfold T2; by rewrite Ev). exists sent. split; [done|]. cbn [interval timer deadline]. rewrite P2, pace_S. split; [done|]. split; [cbn [elapsed]; lia|done].
Qed.

Lemma ack_paced c now d : paced now d -> paced now (ackPeerReInvite c d).
Proof.
  intros H. unfold ackPeerReInvite. destruct (peerReInvite d) as [i|]; [|done]. destruct (pendings d !! i) as [p|] eqn:Hp; [|done].
  destruct (acked p); [|done]. destruct (negb _); [done|]. apply paced_set; [done|]. apply (paced_lookup now i p d H Hp).
Qed.

Lemma terminate_paced now d : paced now d -> paced now (terminatePeerReInviteLocked d).
Proof.
  intros H. unfold terminatePeerReInviteLocked. destruct (peerReInvite d) as [i|]; [|done]. destruct (pendings d !! i) as [p|] eqn:Hp; [|done].
  destruct (answered p); [done|]. apply paced_put; [done|]. apply paced_set; [done|]. pose proof (paced_lookup now i p d H Hp) as Hpp. unfold paced_pending in *. cbn. by destruct (worker p).
Qed.

Lemma bye_paced req r now d : paced now d -> paced now (ReadBye req r d).
Proof.
  intros H. unfold ReadBye. cbv zeta. match goal with |- context [readByeOnce r ?x] => assert (paced now x) as K by (by eapply paced_same); revert K; generalize x end.
  intros d' K. destruct (readByeOnce r d') as [d'' e] eqn:E. assert (paced now d'') as K'.
  { destruct r as [|responded|[]]; cbn in E; simplify_eq; try (apply paced_put; [done|]); by try (eapply paced_same). }
  destruct e; [|by apply terminate_paced]. repeat case_match; try done; by eapply paced_same.
Qed.

Lemma begin_paced i c (tr : bool) now d : paced now d -> pendings d !! i = None ->
  paced now (let d' := (beginPeerReInvite i c d).1 in if (beginPeerReInvite i c d).2 then d' else if tr then onPeerReInvite2xx i d' else d').
Proof.
  intros H Hn. unfold beginPeerReInvite. destruct (ended d); cbn [fst snd]; [by apply paced_put|].
  pose proof (H i) as Hi. rewrite Hn in Hi.
  set (p := {| cseq := c; answered := false; on2xx := false; acked := None; retransmitted := None; ackErr := false; worker := None |}).
  assert (paced now (set_pending i p d <| peerReInvite := Some i |>)) as H1 by (eapply paced_same; [by apply (paced_set now i p)|done..]).
  destruct tr; [|done]. unfold onPeerReInvite2xx, current. cbn. rewrite bool_decide_true, lookup_insert_eq by done.
  apply paced_set; [exact H1|]. cbn. by rewrite Hi.
Qed.

Lemma end_dialog_paced i u now d : paced now d -> paced now (if u : bool then endMediaUpdate (Peer i) (endPeerReInvite i d).1 else (endPeerReInvite i d).1).
Proof.
  intros H. assert (paced now (endPeerReInvite i d).1) as H1 by (unfold endPeerReInvite; destruct (current i d); [by eapply paced_same|done]).
  destruct u; [|done]. unfold endMediaUpdate. destruct (bool_decide _); [by eapply paced_same|done].
Qed.

Lemma step_paced now ev w w' : winv w -> paced now (dlg w) -> step sip_T1 sip_T2 t now ev w = Some w' -> paced now (dlg w').
Proof.
  intros [H1 _ _ _] H Hs. destruct ev as [c tr|status fails|fails|status fails| |c|i c|req r| | |k|k]; cbn [step] in Hs.
  - destruct (handling w) eqn:Hh; [done|]. assert (pendings (dlg w) !! arrived w = None) as Hn.
    { destruct (pendings (dlg w) !! arrived w) as [p|] eqn:E; [|done]. destruct (di_known _ _ _ H1 _ _ E). lia. }
    pose proof (begin_paced (arrived w) c tr now (dlg w) H Hn) as G. destruct (beginPeerReInvite (arrived w) c (dlg w)) as [d []]; by injection Hs as <-.
  - destruct (handling w) as [[i []]|] eqn:Hh; try done. destruct (IsSuccess status); [done|]. injection Hs as <-. by eapply respond_paced.
  - destruct (handling w) as [[i []]|] eqn:Hh; try done. unfold beginPeerMediaUpdate in Hs.
    destruct (mediaUpdateDone (dlg w)); injection Hs as <-; [by eapply respond_paced|by eapply paced_same].
  - destruct (handling w) as [[i []]|] eqn:Hh; try done. injection Hs as <-. by eapply respond_paced.
  - destruct (handling w) as [[i [| |u]]|] eqn:Hh; try done. destruct (end_ready i (dlg w)); [|done]. injection Hs as <-. by apply end_dialog_paced.
  - injection Hs as <-. by apply ack_paced.
  - destruct (pendings (dlg w) !! i) as [p|] eqn:Hp; [|done]. destruct (worker p) as [wk|] eqn:Hwk; [|done]. destruct (wake_ready _ _ _ _ _) eqn:Hr; [|done]. injection Hs as <-.
    by eapply retransmit_paced.
  - injection Hs as <-. by apply bye_paced.
  - injection Hs as <-. by eapply paced_same.
  - injection Hs as <-. by eapply paced_same.
  - case_bool_decide; [done|]. unfold beginOwnMediaUpdate in Hs. destruct (closed (dlg w)); [by injection Hs as <-|].
    destruct (mediaUpdateDone (dlg w)); [done|]. injection Hs as <-. by eapply paced_same.
  - case_bool_decide; [|done]. injection Hs as <-. cbn. unfold endMediaUpdate. destruct (bool_decide _); [by eapply paced_same|done].
Qed.

Lemma run_paced now log w : run sip_T1 sip_T2 t now log w -> paced now (dlg w).
Proof.
  induction 1 as [|was now log w ev w' Hr IH Hn Hs]; [done|]. eapply step_paced; [by eapply run_winv|by eapply paced_later|done].
Qed.

(** ** Theorems *)

(** C11. Every re-INVITE of the peer's gets one final response: exactly one once
    its handler is done, whatever BYEs, ACKs and retransmissions come between, and
    none or one while it is being handled. A BYE leaves none unanswered. The remote
    target is the contact of the last re-INVITE answered 2xx. *)
Theorem reinvites_answered_once now log w i :
  run sip_T1 sip_T2 t now log w -> (i < arrived w)%nat ->
  (count_outs (is_answer i) (outs (dlg w)) <= 1)%nat /\
  (count_outs (is_answer i) (outs (dlg w)) = 0%nat -> exists s, handling w = Some (i, s) /\ (s = Recorded \/ s = Updating) /\ ByeAnswered ∉ outs (dlg w)) /\
  remoteContactTarget (dlg w) = last_ok (outs (dlg w)) None.
Proof.
  clear T1_T2. intros Hr Hi. destruct (run_winv now log w Hr) as [H1 H2 H3 _]. pose proof (di_count _ _ _ H1 i Hi) as Hc. split; [|split; [|apply H1]].
  - rewrite Hc. repeat case_match; lia.
  - intros H0. rewrite Hc in H0. destruct (pendings (dlg w) !! i) as [p|] eqn:Hp; [|done]. destruct (answered p) eqn:Ha; [done|].
    destruct (di_known _ _ _ H1 i p Hp) as (_ & _ & Hk). destruct (handling w) as [[j s]|] eqn:Hh; [|by destruct Hk; [done|congruence]].
    destruct (decide (j = i)) as [->|Hj]; [|destruct Hk; [cbn; congruence|congruence]]. exists s. split; [done|]. split.
    + destruct s as [| |u]; [by left|by right|]. destruct (H3 i u eq_refl) as (q & Hq & Hqa). congruence.
    + intros Hb. by rewrite (H2 Hb i p Hp) in Ha.
Qed.

(** C16. No 2xx to a re-INVITE, first or retransmitted, follows the 200 to a BYE. *)
Theorem no_ok_after_bye now log w pre post o :
  run sip_T1 sip_T2 t now log w -> outs (dlg w) = pre ++ ByeAnswered :: post -> o ∈ post ->
  match o with Answer _ status => IsSuccess status = false | Again _ => False | _ => True end.
Proof.
  intros Hr E Ho. destruct (run_winv now log w Hr) as [H1 _ _ _]. pose proof (di_safe _ _ _ H1 pre post E) as Hf. by eapply Forall_forall in Hf.
Qed.

(** At most one re-INVITE is in progress on a dialog, in either direction,
    until its ACK. One of ours is begun only when none of the peer's is, the
    peer's is answered 491 while ours is, unless a BYE has answered it, and the
    waits after a 491 keep the two apart: 2.1 to 4 s for the owner of the Call-ID,
    at most 2 s for the other. *)
Theorem one_reinvite_at_a_time now log w k draw draw' :
  run sip_T1 sip_T2 t now log w -> 0 <= draw < retry_draws true -> 0 <= draw' < retry_draws false ->
  (k ∈ owns w -> owns w = {[k]} /\ updating (handling w) = None /\
     forall i w' fails, handling w = Some (i, Recorded) -> step sip_T1 sip_T2 t now (EUpdate fails) w = Some w' ->
       updating (handling w') = None /\ (ended (dlg w) = false -> count_outs (is_answer i) (outs (dlg w)) = 0%nat -> outs (dlg w') = outs (dlg w) ++ [Answer i StatusRequestPending])) /\
  (updating (handling w) <> None -> owns w = ∅ /\ (closed (dlg w) = false -> step sip_T1 sip_T2 t now (EOwnBegin k) w = None)) /\
  0 <= reInviteRetryWait false draw' <= 2000 * Millisecond /\ 2100 * Millisecond <= reInviteRetryWait true draw <= 4000 * Millisecond.
Proof.
  clear T1_T2. intros Hr Hd Hd'. destruct (run_winv now log w Hr) as [H1 H2 H3 H4]. split; [|split].
  - intros Hk. destruct (mediaUpdateDone (dlg w)) as [[j|k']|] eqn:E; cbn in H4; destruct H4 as [E1 E2]; rewrite E2 in Hk |- *; try set_solver.
    apply elem_of_singleton in Hk as ->. split; [done|]. split; [done|]. intros i w' fails Hh. cbn [step]. rewrite Hh. unfold beginPeerMediaUpdate. rewrite E. intros [= <-]. split; [done|]. intros He H0. cbn.
    rewrite Hh in H1. destruct (current_inv _ i _ H1) as (p & Hc & Hp). rewrite (di_count _ _ _ H1 i) in H0 by (by eapply di_known). rewrite Hp in H0.
    unfold respondPeerReInvite. rewrite Hc. destruct (answered p); [done|]. by rewrite He.
  - intros Hu. destruct (mediaUpdateDone (dlg w)) as [[j|k']|] eqn:E; cbn in H4; destruct H4 as [E1 E2]; try congruence. split; [done|]. intros Hcl. cbn [step].
    rewrite bool_decide_false by (rewrite E2; set_solver). unfold beginOwnMediaUpdate. by rewrite Hcl, E.
  - unfold retry_draws, reInviteRetryWait, Millisecond in *. rewrite !i64_small by lia. lia.
Qed.

(** The 2xx to a re-INVITE is retransmitted at the pace of RFC 3261 until its
    ACK: after [n] retransmissions the interval is T1 doubled [n] times, up to T2,
    the next one is not due before the intervals so far have passed, and the
    wait ends 64 T1 after the 2xx. From then on the goroutine can stop, with the
    timeout for the handler to end the call on; once the ACK was read it can stop
    with no error. Either way the handler goes on. *)
Theorem ok_retransmitted_until_ack now log w i p wk :
  run sip_T1 sip_T2 t now log w -> pendings (dlg w) !! i = Some p -> worker p = Some wk ->
  let n := count_outs (is_again i) (outs (dlg w)) in
  (exists sent, sent <= now /\ interval wk = Z.min (2 ^ Z.of_nat n * T1) T2 /\ sent + elapsed n <= timer wk /\ deadline wk = sent + TO) /\
  (forall now', deadline wk <= now' -> exists w', step sip_T1 sip_T2 t now' (EWake i WDeadline) w = Some w' /\
     end_ready i (dlg w') = true /\ (endPeerReInvite i (dlg w')).2 = true) /\
  (acked p = Some true -> exists w', step sip_T1 sip_T2 t now (EWake i WAcked) w = Some w' /\
     end_ready i (dlg w') = true /\ (endPeerReInvite i (dlg w')).2 = false).
Proof.
  intros Hr Hp Hw n. destruct (run_winv now log w Hr) as [H1 _ _ _]. pose proof (paced_lookup now i p _ (run_paced now log w Hr) Hp) as Hpp.
  unfold paced_pending in Hpp. rewrite Hw in Hpp. destruct Hpp as [Hpace He]. split; [exact Hpace|].
  assert (peerReInvite (dlg w) = Some i) as Hcur.
  { destruct (di_known _ _ _ H1 i p Hp) as (_ & _ & Hk). rewrite (di_current _ _ _ H1). destruct (decide ((fst <$> handling w) = Some i)) as [|Hne]; [done|].
    destruct (Hk Hne) as [_ ?]. congruence. }
  assert (forall e, current i (set_pending i (stop e p) (dlg w)) = Some (stop e p)) as Hs.
  { intros e. unfold current. cbn. by rewrite Hcur, bool_decide_true, lookup_insert_eq. }
  assert (forall e, end_ready i (set_pending i (stop e p) (dlg w)) = true /\ (endPeerReInvite i (set_pending i (stop e p) (dlg w))).2 = e) as Hend.
  { intros e. unfold end_ready, endPeerReInvite. by rewrite Hs. }
  split.
  - intros now' Hd. eexists. cbn [step]. rewrite Hp, Hw. cbn [wake_ready]. apply Z.leb_le in Hd. rewrite Hd. split; [done|]. apply Hend.
  - intros Ha. eexists. cbn [step]. rewrite Hp, Hw. cbn [wake_ready]. rewrite Ha. split; [done|]. pose proof (Hend (ackErr p)) as He'. rewrite He in He' at 3. exact He'.
Qed.

End Steps.

(** ** Runs *)

Definition std_T1 : Z := 500 * Millisecond.
Definition std_T2 : Z := 4000 * Millisecond.
Definition std_timers : ackTimers := {| t1 := 0; t2 := 0; timeout := 0 |}.

Fixpoint play (evs : list (Z * event)) (was : Z) (w : world) : option (Z * world) :=
  match evs with
  | [] => Some (was, w)
  | (now, ev) :: evs => if was <=? now then match step std_T1 std_T2 std_timers now ev w with Some w' => play evs now w' | None => None end else None
  end.

Lemma play_run evs was w log now w' : run std_T1 std_T2 std_timers was log w -> play evs was w = Some (now, w') -> run std_T1 std_T2 std_timers now (log ++ evs) w'.
Proof.
  revert was w log. induction evs as [|[at_ ev] evs IH]; intros was w log Hr; cbn [play]; [rewrite app_nil_r; by intros [= <- <-]|].
  destruct (Z.leb_spec was at_); [|done]. destruct (step _ _ _ _ _ _) as [w1|] eqn:Hs; [|done]. intros Hpl.
  rewrite cons_middle, app_assoc. eapply IH; [by eapply run_step|done].
Qed.

(** A re-INVITE accepted, its 2xx retransmitted once; then the peer hangs up, and one
    that comes after the BYE. *)
Definition accepted_run : list (Z * event) :=
  [(1, EReInvite 7 true); (2, EUpdate false); (3, EAnswer 200 false); (3 + std_T1, EWake 0 (WTimer false))].
Definition hung_up_run : list (Z * event) :=
  accepted_run ++ [(4 + std_T1, EBye 9 ByeTaken); (5 + std_T1, EWake 0 WEnded); (6 + std_T1, EEnd); (7 + std_T1, EReInvite 8 false)].
(** Our re-INVITE is in progress as the peer's comes. *)
Definition glare_run : list (Z * event) := [(1, EOwnBegin 4); (2, EReInvite 7 false)].

Definition after_run (evs : list (Z * event)) : Z * world := default (0, fresh_world) (play evs 0 fresh_world).
Lemma run_after evs : bool_decide (is_Some (play evs 0 fresh_world)) = true -> run std_T1 std_T2 std_timers (after_run evs).1 evs (after_run evs).2.
Proof.
  intros [[now w] H]%bool_decide_eq_true. unfold after_run. rewrite H. apply (play_run evs 0 fresh_world []); [apply run_start|done].
Qed.

Lemma reinvites_answered_once_witness : (1 < arrived (after_run hung_up_run).2)%nat /\ (count_outs (is_answer 0) (outs (dlg (after_run hung_up_run).2)) <= 1)%nat.
Proof.
  assert (1 < arrived (after_run hung_up_run).2)%nat as Hi by (vm_compute; lia). split; [exact Hi|].
  apply (reinvites_answered_once std_T1 std_T2 std_timers _ hung_up_run (after_run hung_up_run).2 0 (run_after hung_up_run ltac:(vm_compute; reflexivity))). vm_compute. lia.
Defined.

Lemma no_ok_after_bye_witness : outs (dlg (after_run hung_up_run).2) = [On2xx 0; Answer 0 200; Again 0] ++ ByeAnswered :: [Answer 1 481] /\ IsSuccess 481 = false.
Proof.
  assert (outs (dlg (after_run hung_up_run).2) = [On2xx 0; Answer 0 200; Again 0] ++ ByeAnswered :: [Answer 1 481]) as E by (vm_compute; reflexivity). split; [exact E|].
  apply (no_ok_after_bye std_T1 std_T2 std_timers _ hung_up_run (after_run hung_up_run).2 _ _ (Answer 1 481) (run_after hung_up_run ltac:(vm_compute; reflexivity)) E). left.
Defined.

Lemma one_reinvite_at_a_time_witness : 4%nat ∈ owns (after_run glare_run).2 /\ updating (handling (after_run glare_run).2) = None.
Proof.
  assert (bool_decide (4%nat ∈ owns (after_run glare_run).2) = true) as Hk by (vm_compute; reflexivity). apply bool_decide_eq_true in Hk. split; [exact Hk|].
  destruct (one_reinvite_at_a_time std_T1 std_T2 std_timers _ glare_run (after_run glare_run).2 4 190 200 (run_after glare_run ltac:(vm_compute; reflexivity))
    ltac:(vm_compute; split; congruence) ltac:(vm_compute; split; congruence)) as (H & _). apply (H Hk).
Defined.

Lemma ok_retransmitted_until_ack_witness :
  exists p wk, pendings (dlg (after_run accepted_run).2) !! 0%nat = Some p /\ worker p = Some wk /\ interval wk = 1000 * Millisecond /\
  exists w', step std_T1 std_T2 std_timers (4 + 64 * std_T1) (EWake 0 WDeadline) (after_run accepted_run).2 = Some w' /\ (endPeerReInvite 0 (dlg w')).2 = true.
Proof.
  eexists _, _. split; [vm_compute; reflexivity|]. split; [reflexivity|]. split; [vm_compute; reflexivity|].
  destruct (ok_retransmitted_until_ack std_T1 std_T2 std_timers ltac:(vm_compute; split; congruence) _ accepted_run (after_run accepted_run).2 0 _ _
    (run_after accepted_run ltac:(vm_compute; reflexivity)) ltac:(vm_compute; reflexivity) eq_refl) as (_ & H & _).
  destruct (H (4 + 64 * std_T1) ltac:(vm_compute; congruence)) as (w' & H1 & H2 & H3). exists w'. split; [exact H1|exact H3].
Defined.

(** With the standard timers the tenth retransmission is the last before the wait
    ends: the eleventh would be due after the 32 s. *)
Lemma standard_retransmissions : elapsed std_T1 std_T2 std_timers 9 = 31500 * Millisecond /\ TO std_T1 std_T2 std_timers = 32000 * Millisecond /\
  TO std_T1 std_T2 std_timers < elapsed std_T1 std_T2 std_timers 10.
Proof. vm_compute. done. Qed.

End ReInviteProps.
