(* ===== verification/Method.v ===== *)
(** * Methods as computations

    The methods of a dialog run one after the other on its state and end in one
    of four ways. This file has the state and error monad they are written in and
    its weakest preconditions, for the components that model a dialog. *)
From S2P Require Import Prelude.

Module Method.

(** A method returns, fails, panics or waits for what does not come. *)
Inductive res (A : Type) := Return (a : A) | Fail (e : error) | Panics | Waits.
Arguments Return {A}. Arguments Fail {A}. Arguments Panics {A}. Arguments Waits {A}.

(** A method over the state [D] that returns an [A]. *)
Definition M (D A : Type) : Type := D -> D * res A.

Section Operations.
Context {D : Type}.

Definition ret {A} (a : A) : M D A := fun d => (d, Return a).
Definition fail {A} (e : error) : M D A := fun d => (d, Fail e).
Definition panic {A} : M D A := fun d => (d, Panics).
Definition waits {A} : M D A := fun d => (d, Waits).
Definition bind {A B} (m : M D A) (f : A -> M D B) : M D B := fun d =>
  match m d with
  | (d, Return a) => f a d
  | (d, Fail e) => (d, Fail e)
  | (d, Panics) => (d, Panics)
  | (d, Waits) => (d, Waits)
  end.
Definition modify (f : D -> D) : M D unit := fun d => (f d, Return tt).
Definition gets {A} (f : D -> A) : M D A := fun d => (d, Return (f d)).
(** An error value as the result of a method: nil is success. *)
Definition check (e : option error) : M D unit := match e with Some e => fail e | None => ret tt end.
(** The error of a method as a value, for the caller that goes on after it. *)
Definition try (m : M D unit) : M D (option error) := fun d =>
  match m d with
  | (d, Return _) => (d, Return None)
  | (d, Fail e) => (d, Return (Some e))
  | (d, Panics) => (d, Panics)
  | (d, Waits) => (d, Waits)
  end.
(** [defer f]: as the method returns, [f] runs. *)
Definition defer {A} (f : D -> D) (m : M D A) : M D A := fun d =>
  match m d with
  | (d, Return a) => (f d, Return a)
  | (d, Fail e) => (f d, Fail e)
  | (d, Panics) => (d, Panics)
  | (d, Waits) => (d, Waits)
  end.

End Operations.

Declare Scope method_scope.
Delimit Scope method_scope with method.
Notation "'let!' x ':=' m 'in' k" := (bind m (fun x => k)) (at level 89, x pattern, m at level 88, k at level 89, right associativity) : method_scope.
Notation "m ';;;' k" := (bind m (fun _ => k)) (at level 89, right associativity) : method_scope.

(** ** Weakest preconditions

    [wp m Q d]: run from [d], [m] ends with a result and a state that satisfy [Q]. *)
Section Wp.
Context {D : Type}.

Definition wp {A} (m : M D A) (Q : res A -> D -> Prop) (d : D) : Prop := Q (m d).2 (m d).1.

(** A result that ends the caller too. *)
Definition cast {A B} (r : res A) : res B :=
  match r with Return _ => Waits | Fail e => Fail e | Panics => Panics | Waits => Waits end.

(** [Q] of the whole from what the first part comes to. *)
Definition next {A B} (f : A -> M D B) (Q : res B -> D -> Prop) : res A -> D -> Prop := fun r d =>
  match r with Return a => wp (f a) Q d | r => Q (cast r) d end.

Lemma wp_run {A} (m : M D A) (Q : res A -> D -> Prop) d d' r : wp m Q d -> m d = (d', r) -> Q r d'.
Proof. unfold wp. intros H E. by rewrite E in H. Qed.

Lemma wp_mono {A} (m : M D A) (P Q : res A -> D -> Prop) d :
  wp m P d -> (forall r d', P r d' -> Q r d') -> wp m Q d.
Proof. unfold wp. auto. Qed.

Lemma wp_and {A} (m : M D A) (P Q : res A -> D -> Prop) d : wp m P d -> wp m Q d -> wp m (fun r d' => P r d' /\ Q r d') d.
Proof. done. Qed.

Lemma wp_bind {A B} (m : M D A) (f : A -> M D B) Q d : wp m (next f Q) d -> wp (bind m f) Q d.
Proof. unfold wp, next, bind. by destruct (m d) as [d' []]. Qed.

Lemma wp_bind_ret (m : M D unit) (Q : res unit -> D -> Prop) d : wp (bind m (fun _ => ret tt)) Q d -> wp m Q d.
Proof. unfold wp, bind, ret. by destruct (m d) as [d' [[]| | |]]. Qed.

Lemma wp_ret {A} (a : A) (Q : res A -> D -> Prop) d : Q (Return a) d -> wp (ret a) Q d.
Proof. done. Qed.

Lemma wp_fail {A} e (Q : res A -> D -> Prop) d : Q (Fail e) d -> wp (fail e) Q d.
Proof. done. Qed.

Lemma wp_panic {A} (Q : res A -> D -> Prop) d : Q Panics d -> wp panic Q d.
Proof. done. Qed.

Lemma wp_waits {A} (Q : res A -> D -> Prop) d : Q Waits d -> wp waits Q d.
Proof. done. Qed.

Lemma wp_modify f (Q : res unit -> D -> Prop) d : Q (Return tt) (f d) -> wp (modify f) Q d.
Proof. done. Qed.

Lemma wp_gets {A} (f : D -> A) (Q : res A -> D -> Prop) d : Q (Return (f d)) d -> wp (gets f) Q d.
Proof. done. Qed.

Lemma wp_check e (Q : res unit -> D -> Prop) d :
  match e with Some e => Q (Fail e) d | None => Q (Return tt) d end -> wp (check e) Q d.
Proof. by destruct e. Qed.

Lemma wp_try (m : M D unit) (Q : res (option error) -> D -> Prop) d :
  wp m (fun r d' => match r with Return _ => Q (Return None) d' | Fail e => Q (Return (Some e)) d' | Panics => Q Panics d' | Waits => Q Waits d' end) d ->
  wp (try m) Q d.
Proof. unfold wp, try. by destruct (m d) as [d' []]. Qed.

Lemma wp_defer {A} f (m : M D A) (Q : res A -> D -> Prop) d :
  wp m (fun r d' => match r with Return _ | Fail _ => Q r (f d') | _ => Q r d' end) d -> wp (defer f m) Q d.
Proof. unfold wp, defer. by destruct (m d) as [d' []]. Qed.

End Wp.

(** One step of a method: the rule of its first operation. *)
Ltac wp_step :=
  cbv beta iota;
  lazymatch goal with
  | |- next _ _ (Return _) _ => cbv beta iota delta [next]
  | |- next _ _ (Fail _) _ => cbv beta iota delta [next cast]
  | |- next _ _ Panics _ => cbv beta iota delta [next cast]
  | |- next _ _ Waits _ => cbv beta iota delta [next cast]
  | |- wp (bind _ _) _ _ => apply wp_bind
  | |- wp (ret _) _ _ => apply wp_ret
  | |- wp (fail _) _ _ => apply wp_fail
  | |- wp panic _ _ => apply wp_panic
  | |- wp waits _ _ => apply wp_waits
  | |- wp (modify _) _ _ => apply wp_modify
  | |- wp (gets _) _ _ => apply wp_gets
  | |- wp (check _) _ _ => apply wp_check
  | |- wp (try _) _ _ => apply wp_try
  | |- wp (defer _ _) _ _ => apply wp_defer
  end.
Ltac wp_steps := repeat wp_step; cbv beta iota.
(** The rule of a method whose specification is [H]. *)
Tactic Notation "wp_call" uconstr(H) := eapply wp_mono; [eapply H|].

End Method.
