(* ===== verification/Answer.v ===== *)
(** * Answering a call

    [dialog_server_session.go] from [ProgressMediaOptions] to [ReadAck], with
    [initMediaSessionFromConf] of [dialog_media.go]: early media, the answer in its
    forms, and the ACK that confirms it, as methods in the monad of [Method]. What
    they ask of a media session is the interface [MediaOps], which the session of
    [MediaSession] and [MediaLifecycle] implements ([session_ops]).

    The 2xx is passed to sipgo, whose [Respond] returns once the ACK is read or
    not to be had, so the answer takes what the ACK brings as an argument and
    runs [ReadAck] there. *)
From S2P Require Import Prelude GoStrings NetIP Codec MediaSdp MediaSession MediaLifecycle SessionTimer Method.
Import GoStrings NetIP Codecs MediaSdp MediaSession SessionTimer Method.

Module Answer.
Open Scope method_scope.

(** [MediaConfig]; whether there is an allocator. *)
Record MediaConfig (cert : Type) := {
  Codecs : list Codec;
  SecureRTPAlg : option ProtectionProfile;
  DTLSConfig_ : option (MediaSession.DTLSConfig (cert := cert));
  ICEConfig : option bool;
  RTPPortAllocator : bool;
  secureRTP : SecureRTPMode;
  bindIP : IP;
  externalIP : IP;
  rtpNAT : Z }.
Arguments Codecs {cert}. Arguments SecureRTPAlg {cert}. Arguments DTLSConfig_ {cert}. Arguments ICEConfig {cert}. Arguments RTPPortAllocator {cert}.
Arguments secureRTP {cert}. Arguments bindIP {cert}. Arguments externalIP {cert}. Arguments rtpNAT {cert}.
#[export] Instance eta_config {cert} : Eta (MediaConfig cert) := fun c =>
  {| Codecs := Codecs c; SecureRTPAlg := SecureRTPAlg c; DTLSConfig_ := DTLSConfig_ c; ICEConfig := ICEConfig c; RTPPortAllocator := RTPPortAllocator c;
     secureRTP := secureRTP c; bindIP := bindIP c; externalIP := externalIP c; rtpNAT := rtpNAT c |}.

(** ** What an answer asks of a media session

    [mo_env] is what the peer, the stacks and the system make of one call. *)
Class MediaOps (cert S : Type) := {
  mo_env : Type;
  (** The session of a configuration on an address, and its [Init]. *)
  mo_new : mo_env -> IP -> Z -> MediaConfig cert -> S + error;
  mo_RemoteSDP : mo_env -> string -> S -> S * outcome;
  (** [RemoteSDPIsAnswer = true]. *)
  mo_expectAnswer : S -> S;
  mo_LocalSDP : mo_env -> S -> S * string;
  mo_FinalizeWithin : mo_env -> S -> S * option error;
  (** [None]: the negotiation has not come to an end. *)
  mo_FinalizeContext : mo_env -> S -> option (S * option error) }.

(** The session of [media_session.go]. *)
Section Session.
Context {cert srtp_ctx : Type} (dtlsSHA256Fingerprint : cert -> string + error).
Context (CreateContext : bytes -> bytes -> ProtectionProfile -> srtp_ctx + error) (KeyLen : ProtectionProfile -> Z).
Context (candidate_ok : string -> bool) (preferLocal : bool).
Context (ListenUDP : nat -> IP -> Z -> (UDPAddr * nat) + error).

(** [se_run]: what a negotiation left running has returned with by the time
    [FinalizeContext] has waited for it. *)
Record session_env := {
  se_init : MediaLifecycle.init_env; se_ports : MediaLifecycle.ports; se_calls : nat;
  se_remote : MediaSession.env; se_local : local_env;
  se_within : option MediaLifecycle.handshake; se_run : option MediaLifecycle.handshake; se_wait : MediaLifecycle.wait; se_handshake : MediaLifecycle.handshake }.

Definition newMediaSession (ip : IP) (port : Z) (conf : MediaConfig cert) : @MediaSession.MediaSession cert srtp_ctx :=
  session_zero (default {| Certificates := []; SDPSetupRole := None |} (DTLSConfig_ conf))
    <| ms_Codecs := Codecs conf |> <| Laddr := {| ua_IP := ip; ua_Port := port; ua_Zone := EmptyString |} |> <| ExternalIP := externalIP conf |>
    <| Mode := "sendrecv" |> <| SecureRTP := secureRTP conf |> <| SRTPAlg := SecureRTPAlg conf |> <| RTPNAT := rtpNAT conf |> <| ICEConf := ICEConfig conf |>.

#[export] Instance session_ops : MediaOps cert (@MediaSession.MediaSession cert srtp_ctx) := {
  mo_env := session_env;
  mo_new e ip port conf :=
    match MediaLifecycle.Init ListenUDP (se_init e) (se_ports e) (se_calls e) (newMediaSession ip port conf) with
    | (_, _, s, None) => inl s
    | (_, _, _, Some err) => inr err
    end;
  mo_RemoteSDP e sdp s := MediaSession.RemoteSDP dtlsSHA256Fingerprint CreateContext candidate_ok preferLocal (se_remote e) sdp s;
  mo_expectAnswer s := s <| RemoteSDPIsAnswer := true |>;
  mo_LocalSDP e s := MediaSession.LocalSDP dtlsSHA256Fingerprint CreateContext KeyLen (se_local e) s;
  mo_FinalizeWithin e s := MediaLifecycle.FinalizeWithin CreateContext (se_within e) s;
  mo_FinalizeContext e s :=
    let s := match se_run e with Some h => MediaLifecycle.negotiate CreateContext h s | None => s end in
    MediaLifecycle.FinalizeContext CreateContext (se_wait e) (se_handshake e) s }.

End Session.

(** ** The dialog *)

(** sipgo's state of the dialog, as the 2xx, the ACK and a BYE change it. *)
Inductive dialogState := Early | Established | Confirmed | Ended.
#[export] Instance dialogState_eq_dec : EqDecision dialogState.
Proof. solve_decision. Defined.

(** What is passed to sipgo: a response to the INVITE, with the headers of the
    session timer and its body, or a BYE. *)
Inductive out := Resp (status : Z) (headers : list header) (body : string) | Bye.
#[export] Instance out_eq_dec : EqDecision out.
Proof. solve_decision. Defined.

Record server (cert S : Type) := {
  mediaConf : MediaConfig cert;
  mediaSession : option S;
  (** [releaseRTPPort]: the port it returns. *)
  releaseRTPPort : option Z;
  (** The ports returned to the allocator. *)
  releasedPorts : list Z;
  (** [initRTPSessionUnsafe] ran: RTP session, packet reader and writer exist. *)
  rtpSession : bool;
  (** [MonitorBackground] started its goroutines. *)
  monitoring : bool;
  timerAnswer_ : option timerAnswer;
  (** The session timer set by the 2xx. *)
  timer : option sessionTimerState;
  (** Whether the channel [answering] is there and open. *)
  answering : bool;
  ackAnswerErr : option error;
  ackCarriesAnswer : bool;
  earlyAnswerSDP : option string;
  earlyUnkeyed : bool;
  (** The callbacks of the application, by a name. *)
  onReferDialog : option nat;
  onMediaUpdate : option nat;
  state : dialogState;
  outs : list out }.
Arguments mediaConf {cert S}. Arguments mediaSession {cert S}. Arguments releaseRTPPort {cert S}. Arguments releasedPorts {cert S}.
Arguments rtpSession {cert S}. Arguments monitoring {cert S}. Arguments timerAnswer_ {cert S}. Arguments timer {cert S}.
Arguments answering {cert S}. Arguments ackAnswerErr {cert S}. Arguments ackCarriesAnswer {cert S}. Arguments earlyAnswerSDP {cert S}.
Arguments earlyUnkeyed {cert S}. Arguments onReferDialog {cert S}. Arguments onMediaUpdate {cert S}. Arguments state {cert S}. Arguments outs {cert S}.
#[export] Instance eta_server {cert S} : Eta (server cert S) := fun d =>
  {| mediaConf := mediaConf d; mediaSession := mediaSession d; releaseRTPPort := releaseRTPPort d; releasedPorts := releasedPorts d;
     rtpSession := rtpSession d; monitoring := monitoring d; timerAnswer_ := timerAnswer_ d; timer := timer d; answering := answering d;
     ackAnswerErr := ackAnswerErr d; ackCarriesAnswer := ackCarriesAnswer d; earlyAnswerSDP := earlyAnswerSDP d; earlyUnkeyed := earlyUnkeyed d;
     onReferDialog := onReferDialog d; onMediaUpdate := onMediaUpdate d; state := state d; outs := outs d |}.

(** A dialog as an INVITE makes it. *)
Definition new_server {cert S} (conf : MediaConfig cert) : server cert S :=
  {| mediaConf := conf; mediaSession := None; releaseRTPPort := None; releasedPorts := []; rtpSession := false; monitoring := false; timerAnswer_ := None; timer := None;
     answering := false; ackAnswerErr := None; ackCarriesAnswer := false; earlyAnswerSDP := None; earlyUnkeyed := false;
     onReferDialog := None; onMediaUpdate := None; state := Early; outs := [] |}.

Section Methods.
Context {cert S : Type} {mo : MediaOps cert S}.
Context {msg : Type} `{headerGetter msg}.
Abbreviation method := (M (server cert S)).

Definition errAckCarriesNoAnswer : error := ErrNew "the ACK to the 2xx carrying our offer carries no answer".
Definition ErrEarlyMediaNotKeyed : error := ErrNew "early media not keyed: the caller has not completed the DTLS handshake".
Definition errSessionIntervalTooSmall : error := ErrNew "session interval too small".
Definition errNoSDP : error := ErrNew "no sdp present in INVITE".

(** What reading the ACK comes to: the body of an ACK of type [application/sdp],
    what the peer makes of it, and the error of sipgo's [ReadAck]. *)
Record ack := { a_body : option string; a_env : mo_env; a_err : option error }.

(** What everything outside makes of one call of a method: the interface
    address found and the port allocated; the errors of sipgo's [Respond] with a
    provisional or a refusing status; how the 2xx comes out, with an error, or the
    ACK; the environments of the calls of the media session; a BYE, whether it is
    sent and its error; the error of [MonitorBackground]. *)
Record call_env := {
  c_resolve : IP + error;
  c_alloc : Z + error;
  c_new : mo_env;
  c_respond : option error;
  c_ok : error + ack;
  c_remote : mo_env;
  c_local : mo_env;
  c_within : mo_env;
  c_final : mo_env;
  c_bye : bool * option error;
  c_monitor : option error }.

(** The INVITE and the timer policy of the dialog. *)
Record invite := { i_msg : msg; i_body : option string; i_policy : SessionTimerPolicy }.

(** [errors.Join] with an error that may be nil. *)
Definition join (e : error) (e2 : option error) : error := match e2 with Some e2 => ErrJoin e e2 | None => e end.

Definition put (o : out) (d : server cert S) : server cert S := d <| outs := outs d ++ [o] |>.
Definition Respond (status : Z) (headers : list header) (body : string) (err : option error) : method unit :=
  modify (put (Resp status headers body)) ;;; check err.

(** [Hangup] and [hangupNoMedia]. A BYE that is sent ends the dialog; one that
    waits in vain for the ACK is not. *)
Definition Hangup (bye : bool * option error) : method unit :=
  let! d := gets id in
  if bool_decide (state d = Early) then Respond 480 [] "" bye.2
  else modify (fun d => if bye.1 then put Bye d <| state := Ended |> else d) ;;; check bye.2.
Definition hangupNoMedia (bye : bool * option error) : method (option error) := try (Hangup bye).

(** ** The media session of the dialog

    A method that reads it without looking whether it is there panics when it is not. *)
Definition session : method S := let! d := gets mediaSession in match d with Some s => ret s | None => panic end.
Definition set_session (s : S) : method unit := modify (fun d => d <| mediaSession := Some s |>).

Definition RemoteSDP (e : mo_env) (sdp : string) : method unit :=
  let! s := session in
  let '(s, o) := mo_RemoteSDP e sdp s in
  set_session s ;;; match o with Ok => ret tt | Err e => fail e | Panic => panic end.
Definition LocalSDP (e : mo_env) : method string :=
  let! s := session in
  let '(s, body) := mo_LocalSDP e s in
  set_session s ;;; ret body.
Definition FinalizeWithin (e : mo_env) : method (option error) :=
  let! s := session in
  let '(s, err) := mo_FinalizeWithin e s in
  set_session s ;;; ret err.
Definition FinalizeContext (e : mo_env) : method unit :=
  let! s := session in
  match mo_FinalizeContext e s with
  | Some (s, err) => set_session s ;;; check err
  | None => waits
  end.

Definition initMediaSessionFromConf (e : call_env) : method unit :=
  let! d := gets id in
  let conf := mediaConf d in
  match mediaSession d with
  | Some _ => ret tt
  | None =>
    match match bindIP conf with None => c_resolve e | ip => inl ip end with
    | inr err => fail err
    | inl ip =>
      match if RTPPortAllocator conf then c_alloc e else inl 0 with
      | inr err => fail err
      | inl port =>
        match mo_new (c_new e) ip port conf with
        | inr err => modify (fun d => if RTPPortAllocator conf then d <| releasedPorts := releasedPorts d ++ [port] |> else d) ;;; fail err
        | inl s => modify (fun d => d <| mediaSession := Some s |> <| releaseRTPPort := if RTPPortAllocator conf then Some port else None |>)
        end
      end
    end
  end.

Definition initRTPSessionUnsafe : method unit := modify (fun d => d <| rtpSession := true |>).
Definition MonitorBackground (err : option error) : method unit :=
  match err with Some e => fail e | None => modify (fun d => d <| monitoring := true |>) end.

(** [codecs] is nil for none. *)
Definition updateMediaConf (codecs : option (list Codec)) (nat_ : Z) : method unit :=
  modify (fun d => d <| mediaConf := (match codecs with Some cs => mediaConf d <| Codecs := cs |> | None => mediaConf d end) <| rtpNAT := nat_ |> |>).

(** ** Session timers *)

Definition prepareSessionTimers (inv : invite) (e : call_env) : method unit :=
  let '(ta, hdrs, status) := buildTimerAnswer (i_msg inv) (i_policy inv) in
  if status =? statusSessionIntervalTooSmall then
    Respond statusSessionIntervalTooSmall hdrs "" (c_respond e) ;;; fail errSessionIntervalTooSmall
  else match ta with
       | None => ret tt
       | Some ta => modify (fun d => d <| timerAnswer_ := Some ta |>)
       end.

Definition launchSessionTimers (ta : timerAnswer) : method unit :=
  modify (fun d => match timer d with Some _ => d | None => d <| timer := Some (launched ta) |> end).

(** ** The ACK *)

(** The ACK read under the lock: whether an answer waits for it, and the error of
    the answer it carries. *)
Definition answerWaiting (d : server cert S) : bool :=
  match mediaSession d with Some _ => bool_decide (state d = Established) && answering d | None => false end.
Definition applyAck (a : ack) : method unit :=
  let! d := gets id in
  match mediaSession d with
  | None => ret tt
  | Some s =>
    if negb (bool_decide (state d = Established)) then ret tt
    else match a_body a with
    | None =>
      if ackCarriesAnswer d then modify (fun d => d <| ackAnswerErr := Some errAckCarriesNoAnswer |>) ;;; fail errAckCarriesNoAnswer
      else ret tt
    | Some body =>
      let! err := try (set_session (mo_expectAnswer s) ;;; RemoteSDP (a_env a) body ;;; FinalizeContext (a_env a)) in
      match err with
      | Some e => modify (fun d => d <| ackAnswerErr := Some e |>) ;;; fail e
      | None => ret tt
      end
    end
  end.

(** sipgo's [ReadAck] confirms the dialog. *)
Definition sipgo_ReadAck (a : ack) : method unit :=
  check (a_err a) ;;; modify (fun d => if bool_decide (state d = Established) then d <| state := Confirmed |> else d).

(** [ReadAck] of an ACK that answers no re-INVITE. *)
Definition ReadAck (a : ack) (bye : bool * option error) : method unit :=
  let! waiting := gets answerWaiting in
  let! err := try (applyAck a) in
  match err with
  | Some err =>
    let! ackErr := try (sipgo_ReadAck a) in
    match ackErr with
    | Some ackErr => fail (ErrJoin err ackErr)
    | None =>
      if waiting then fail err
      else let! b := hangupNoMedia bye in fail (join err b)
    end
  | None => sipgo_ReadAck a
  end.

(** ** The 2xx *)

(** sipgo's [Respond] with a 2xx: it returns once the ACK is read, or with an error. *)
Definition Respond200 (e : call_env) (headers : list header) (body : string) : method unit :=
  modify (fun d => put (Resp 200 headers body) d <| state := Established |>) ;;;
  match c_ok e with
  | inl err => fail err
  | inr a => let! _ := try (ReadAck a (c_bye e)) in check (a_err a)
  end.

Definition respondSDP (e : call_env) (body : string) : method unit :=
  let! ta := gets timerAnswer_ in
  Respond200 e (match ta with Some ta => ta_headers ta | None => [] end) body ;;;
  let! ackErr := gets ackAnswerErr in
  match ackErr with
  | Some ackErr => let! b := hangupNoMedia (c_bye e) in fail (join ackErr b)
  | None => match ta with Some ta => launchSessionTimers ta | None => ret tt end
  end.

Definition begin_answer : method unit := modify (fun d => d <| answering := true |>).
Definition end_answer (d : server cert S) : server cert S := d <| answering := false |>.

Definition RespondSDP (e : call_env) (body : string) : method unit :=
  begin_answer ;;; defer end_answer (respondSDP e body).

Definition answerUnkeyedEarlyMedia (e : call_env) (earlyAnswer : string) : method unit :=
  begin_answer ;;; defer end_answer (
    let! err := FinalizeWithin (c_within e) in
    match err with
    | Some err =>
      if errors_Is err ErrFinalizeInProgress then ret tt
      else let! b := try (Respond 488 [] "" (c_respond e)) in fail (join err b)
    | None => ret tt
    end ;;;
    respondSDP e earlyAnswer ;;;
    FinalizeContext (c_final e) ;;;
    initRTPSessionUnsafe ;;;
    MonitorBackground (c_monitor e)).

Definition answerEarlyMedia (e : call_env) : method unit :=
  let! d := gets id in
  if earlyUnkeyed d then answerUnkeyedEarlyMedia e (default "" (earlyAnswerSDP d))
  else match earlyAnswerSDP d with
       | Some early => RespondSDP e early
       | None => let! early := LocalSDP (c_local e) in RespondSDP e early
       end.

Definition answerSession (inv : invite) (e : call_env) : method unit :=
  match i_body inv with
  | None => fail errNoSDP
  | Some sdp =>
    RemoteSDP (c_remote e) sdp ;;;
    initRTPSessionUnsafe ;;;
    begin_answer ;;; defer end_answer (
      let! body := LocalSDP (c_local e) in
      respondSDP e body ;;;
      FinalizeContext (c_final e) ;;;
      MonitorBackground (c_monitor e))
  end.

(** ** The methods of the application *)

Definition Answer (inv : invite) (e : call_env) : method unit :=
  prepareSessionTimers inv e ;;;
  let! s := gets mediaSession in
  match s with
  | Some _ => answerEarlyMedia e
  | None => initMediaSessionFromConf e ;;; answerSession inv e
  end.

Record AnswerOptions_ := { OnMediaUpdate : option nat; OnRefer : option nat; ao_Codecs : option (list Codec); ao_RTPNAT : Z }.
Definition AnswerOptions (opt : AnswerOptions_) (inv : invite) (e : call_env) : method unit :=
  modify (fun d => d <| onReferDialog := OnRefer opt |> <| onMediaUpdate := OnMediaUpdate opt |>) ;;;
  prepareSessionTimers inv e ;;;
  let! s := gets mediaSession in
  match s with
  | Some _ => answerEarlyMedia e
  | None => updateMediaConf (ao_Codecs opt) (ao_RTPNAT opt) ;;; initMediaSessionFromConf e ;;; answerSession inv e
  end.

Definition AnswerLate (inv : invite) (e : call_env) : method unit :=
  prepareSessionTimers inv e ;;;
  initMediaSessionFromConf e ;;;
  let! localSDP := LocalSDP (c_local e) in
  initRTPSessionUnsafe ;;;
  begin_answer ;;; modify (fun d => d <| ackCarriesAnswer := true |>) ;;; defer end_answer (
    respondSDP e localSDP ;;;
    MonitorBackground (c_monitor e)).

Definition ProgressMediaOptions (codecs : option (list Codec)) (nat_ : Z) (inv : invite) (e : call_env) : method unit :=
  updateMediaConf codecs nat_ ;;;
  initMediaSessionFromConf e ;;;
  match i_body inv with
  | None => fail errNoSDP
  | Some offer =>
    RemoteSDP (c_remote e) offer ;;;
    let! body := LocalSDP (c_local e) in
    Respond 183 [] body (c_respond e) ;;;
    let! err := FinalizeWithin (c_within e) in
    match err with
    | Some err =>
      if errors_Is err ErrFinalizeInProgress then
        modify (fun d => d <| earlyAnswerSDP := Some body |> <| earlyUnkeyed := true |>) ;;; fail ErrEarlyMediaNotKeyed
      else fail err
    | None =>
      initRTPSessionUnsafe ;;;
      modify (fun d => d <| earlyAnswerSDP := Some body |>) ;;;
      MonitorBackground (c_monitor e)
    end
  end.

End Methods.

End Answer.
