(* ===== verification/AnswerLaws.v ===== *)
(** * What an answer relies on in a media session

    [MediaLaws] says when the negotiation of a media session has ended; the session
    of [media_session.go] keeps it ([session_laws]). *)
From S2P Require Import Prelude GoStrings NetIP Sdp Codec MediaSdp MediaSession MediaLifecycle Method Answer.
Import GoStrings NetIP Sdp Codecs MediaSdp MediaSession Answer.

Module AnswerLaws.

(** A negotiation is armed until it is run, and may be left running. *)
Class MediaLaws {cert S : Type} (mo : MediaOps cert S) := {
  is_armed : S -> bool;
  is_running : S -> bool;
  ml_new e ip port conf s : mo_new e ip port conf = inl s -> is_armed s = false /\ is_running s = false;
  ml_RemoteSDP e sdp s s' o : mo_RemoteSDP e sdp s = (s', o) -> is_running s' = is_running s;
  ml_expect s : is_armed (mo_expectAnswer s) = is_armed s /\ is_running (mo_expectAnswer s) = is_running s;
  ml_LocalSDP e s s' body : mo_LocalSDP e s = (s', body) -> is_armed s' = is_armed s /\ is_running s' = is_running s;
  ml_within e s s' err : mo_FinalizeWithin e s = (s', err) -> is_running s && is_armed s = false ->
    is_running s' && is_armed s' = false /\ (err = None -> is_running s' = false /\ is_armed s' = false);
  ml_context e s s' : mo_FinalizeContext e s = Some (s', None) ->
    is_running s' = false /\ (is_running s && is_armed s = false -> is_armed s' = false) }.

Section Session.
Context {cert srtp_ctx : Type} (dtlsSHA256Fingerprint : cert -> string + error).
Context (CreateContext : bytes -> bytes -> ProtectionProfile -> srtp_ctx + error) (KeyLen : ProtectionProfile -> Z).
Context (candidate_ok : string -> bool) (preferLocal : bool).
Context (ListenUDP : nat -> IP -> Z -> (UDPAddr * nat) + error).
Abbreviation session := (@MediaSession.MediaSession cert srtp_ctx).

(** The run of a session, which no description changes. *)
Record same_run (s t : session) : Prop := { sr_run : ms_finalizeRun t = ms_finalizeRun s }.
Lemma same_run_trans s t u : same_run s t -> same_run t u -> same_run s u.
Proof. intros [] []. split. congruence. Qed.

Lemma andThen_run (s : session) r k : same_run s r.1 -> (forall t, same_run s t -> same_run s (k t).1) -> same_run s (andThen r k).1.
Proof. destruct r as [t []]; simpl; auto. Qed.

Lemma applyCodecs_run md attrs (s : session) : same_run s (applyCodecs preferLocal md attrs s).1.
Proof.
  unfold applyCodecs. destruct (CodecsFromSDPRead _ _ _) as [[|c cs]|]; try done.
  assert (same_run s (updateRemoteCodecs preferLocal (c :: cs) (negb (RemoteSDPIsAnswer s)) s).1) as HS by (unfold updateRemoteCodecs; by destruct (ms_Codecs s)).
  destruct (updateRemoteCodecs _ _ _ _) as [t n]. by destruct (n =? 0).
Qed.
Lemma applyTransport_run sd md (s : session) : same_run s (applyTransport sd md s).1.
Proof. unfold applyTransport. destruct (sd_ConnectionInformation sd) as [ci|]; [|done]. destruct (_ || _); [done|]. by destruct (ci_IP ci). Qed.
Lemma crypto_run v (s : session) : same_run s (crypto_attr CreateContext v s).1.
Proof. unfold crypto_attr. by repeat case_match. Qed.
Lemma readSDES_run attrs (s : session) : same_run s (readSDES CreateContext attrs s).1.
Proof.
  revert s. induction attrs as [|v attrs IH]; intros s; cbn [readSDES]; [done|]. destruct (HasPrefix v "crypto:"); [|apply IH].
  pose proof (crypto_run v s) as HF. destruct (crypto_attr CreateContext v s) as [u [r|]]; [done|].
  eapply same_run_trans; [exact HF|apply IH].
Qed.
Lemma remoteICE_run attrs (s : session) : same_run s (remoteICE candidate_ok attrs s).1.
Proof. unfold remoteICE. by repeat case_match. Qed.
Lemma arm_run e setup fps tlsID (s : session) : same_run s (armDTLSHandshake dtlsSHA256Fingerprint e setup fps tlsID s).1.
Proof. unfold armDTLSHandshake. by destruct (if iceEnabled s then _ else _). Qed.
Lemma tlsid_run tid r (s : session) : same_run s (newAnswerTLSID tid r s).
Proof. unfold newAnswerTLSID. by destruct (RemoteSDPIsAnswer s). Qed.
Lemma close_run (s : session) : same_run s (closeConns s).
Proof. unfold closeConns. by destruct (iceAgent _). Qed.
Lemma rebind_run e (s : session) : same_run s (rebind e s).1.
Proof. unfold rebind. by destruct (e_bind e) as [[[]]|]. Qed.

Lemma rearm_run e setup fps tlsID (s : session) :
  same_run s (armDTLSHandshake dtlsSHA256Fingerprint e setup fps tlsID (newAnswerTLSID (e_tlsID e) tlsID s)).1.
Proof. eapply same_run_trans; [apply tlsid_run|apply arm_run]. Qed.

Lemma negotiate_run e setup fps tlsID (s : session) : same_run s (negotiateDTLSAssociation dtlsSHA256Fingerprint e setup fps tlsID s).1.
Proof.
  unfold negotiateDTLSAssociation. destruct (dtlsAssoc s) as [assoc|]; [|apply rearm_run].
  destruct (String.eqb _ _); [done|]. destruct (iceEnabled s); [done|]. destruct (_ && _); [done|].
  set (same := sameUDPAddr _ _). assert (same_run s (if same then rebind e s else (s, Ok)).1) as HF by (destruct same; [apply rebind_run|done]).
  destruct (if same then rebind e s else (s, Ok)) as [u [|er|]]; try done. cbn [fst] in HF.
  set (v := u <| dtlsKeyed := false |> <| dtlsAssoc := None |> <| localCtxSRTP := None |> <| remoteCtxSRTP := None |>).
  assert (same_run s v) as Hv by (eapply same_run_trans; [exact HF|done]). clearbody v.
  pose proof (same_run_trans _ _ _ Hv (rearm_run e setup fps tlsID v)) as HB. revert HB.
  destruct (armDTLSHandshake _ _ _ _ _ _) as [w [|er|]]; intros HB; try done. cbn [fst] in *. destruct same; [|done].
  eapply same_run_trans; [exact HB|apply close_run].
Qed.

Lemma remoteDTLS_run e attrs (s : session) : same_run s (remoteDTLS dtlsSHA256Fingerprint e attrs s).1.
Proof.
  unfold remoteDTLS. destruct (read_dtls _ _) as [r|]; [|done]. destruct (negb _); [done|]. destruct (String.eqb _ _); [done|].
  destruct (negb _); [done|]. set (u := s <| dtlsRemoteSetup := _ |> <| dtlsRemoteTLSID := _ |>).
  eapply same_run_trans; [|apply negotiate_run]. done.
Qed.

Lemma applySecurity_run req (s : session) : same_run s (applySecurity req s).1.
Proof. unfold applySecurity. cbv zeta. destruct (_ && negb req); by destruct (_ && _). Qed.

Lemma applySDP_run e sections audio md sd (s : session) :
  same_run s (applySDP dtlsSHA256Fingerprint CreateContext candidate_ok preferLocal e sections audio md sd s).1.
Proof.
  unfold applySDP. destruct (sd_SessionInformation sd) as [si|]; [|done]. cbv zeta.
  assert (same_run s (applyOrigin si s)) as H0 by (unfold applyOrigin; by destruct (_ =? _)). revert H0.
  generalize (applyOrigin si s). intros s0 H0. destruct (parseRTPProfile _) as [prof|]; [|done].
  set (s1 := if RemoteSDPIsAnswer _ then _ else _). assert (same_run s s1) as H1.
  { eapply same_run_trans; [exact H0|]. unfold s1. by destruct (RemoteSDPIsAnswer _). }
  clearbody s1. clear H0. set (attrs := Values sd "a"). clearbody attrs.
  apply andThen_run; [eapply same_run_trans; [exact H1|apply applyCodecs_run]|]. intros s2 H2.
  apply andThen_run; [eapply same_run_trans; [exact H2|apply applyTransport_run]|]. intros s3 H3.
  apply andThen_run; [eapply same_run_trans; [exact H3|apply readSDES_run]|]. intros s4 H4.
  apply andThen_run; [destruct (iceEnabled s4); [|done]; eapply same_run_trans; [exact H4|apply remoteICE_run]|]. intros s5 H5.
  apply andThen_run; [destruct (dtlsSRTP s5); [|done]; eapply same_run_trans; [exact H5|apply remoteDTLS_run]|]. intros s6 H6.
  eapply same_run_trans; [exact H6|apply applySecurity_run].
Qed.

Lemma RemoteSDP_run e sdp (s : session) : same_run s (MediaSession.RemoteSDP dtlsSHA256Fingerprint CreateContext candidate_ok preferLocal e sdp s).1.
Proof.
  unfold MediaSession.RemoteSDP. destruct (UnmarshalSections sdp) as [sections [err|]]; [done|].
  destruct (audioStream _) as [i|]; [|done]. destruct (sec_Media sections !! i), (Description sections i); try done. apply applySDP_run.
Qed.

(** The same of what [LocalSDP] and [Init] do, which leave the armed negotiation too. *)
Record same_fin (s t : session) : Prop := { sf_run : ms_finalizeRun t = ms_finalizeRun s; sf_arm : onFinalize t = onFinalize s }.
Lemma same_fin_trans s t u : same_fin s t -> same_fin t u -> same_fin s u.
Proof. intros [] []. split; congruence. Qed.

Lemma localSDES_fin le (s : session) : same_fin s (localSDES CreateContext KeyLen le s).1.1.
Proof. unfold localSDES, sdesOffer. by repeat case_match; simplify_eq/=. Qed.
Lemma localDTLS_fin le (s : session) : same_fin s (localDTLS dtlsSHA256Fingerprint le s).1.
Proof. unfold localDTLS, localSDPTLSID. by repeat case_match; simplify_eq/=. Qed.
Lemma nextVersion_fin le (s : session) : same_fin s (nextVersion le s).
Proof. unfold nextVersion. by repeat case_match. Qed.

Lemma LocalSDP_fin le (s : session) : same_fin s (MediaSession.LocalSDP dtlsSHA256Fingerprint CreateContext KeyLen le s).1.
Proof.
  unfold MediaSession.LocalSDP. destruct (negb _); [done|]. cbv zeta.
  pose proof (localSDES_fin le s) as H1. destruct (localSDES _ _ _ _) as [[s1 sdes] profile]. cbn [fst] in H1.
  pose proof (localDTLS_fin le s1) as H2. destruct (localDTLS _ _ _) as [s2 dtlsSet]. cbn [fst] in H2 |- *.
  eapply same_fin_trans; [exact H1|]. eapply same_fin_trans; [exact H2|]. apply nextVersion_fin.
Qed.

(** Binding sockets. *)
Lemma listen_fin n laddr (s : session) : same_fin s (MediaLifecycle.listen ListenUDP n laddr s).1.2.
Proof. unfold MediaLifecycle.listen, MediaLifecycle.listenICE, MediaLifecycle.listenRTPandRTCP. by repeat case_match. Qed.
Lemma listen_range_fin fuel own port rtpPortEnd n laddr err (s : session) :
  same_fin s (MediaLifecycle.listen_range ListenUDP fuel own port rtpPortEnd n laddr err s).1.1.2.
Proof.
  revert port n laddr err s. induction fuel as [|fuel IH]; intros port n laddr err s; cbn [MediaLifecycle.listen_range]; [done|].
  destruct (port <? rtpPortEnd); [|done]. set (l := {| ua_IP := _; ua_Port := _; ua_Zone := _ |}). cbv zeta.
  match goal with |- context [MediaLifecycle.listen _ n l ?x] => set (s0 := x) end.
  assert (same_fin s s0) as H0 by (unfold s0; by destruct own). clearbody s0. pose proof (listen_fin n l s0) as H1.
  destruct (MediaLifecycle.listen _ _ _ _) as [[n' s1] [e|]]; cbn [fst snd] in *; eapply same_fin_trans; eauto.
  eapply same_fin_trans; [exact H1|apply IH].
Qed.
Lemma listen_retry_fin retries n laddr err (s : session) : same_fin s (MediaLifecycle.listen_retry ListenUDP retries n laddr err s).1.2.
Proof.
  revert n err s. induction retries as [|retries IH]; intros n err s; cbn [MediaLifecycle.listen_retry]; [done|].
  pose proof (listen_fin n laddr s) as H1. destruct (MediaLifecycle.listen _ _ _ _) as [[n' s1] [e|]]; cbn [fst snd] in *; [|done].
  eapply same_fin_trans; [exact H1|apply IH].
Qed.
Lemma createListeners_fin own laddr p n (s : session) : same_fin s (MediaLifecycle.createListeners ListenUDP own laddr p n s).1.2.
Proof.
  unfold MediaLifecycle.createListeners. destruct (negb _).
  { pose proof (listen_fin n laddr s) as H. by destruct (MediaLifecycle.listen _ _ _ _) as [[n' s1] err]. }
  destruct (_ && _); cbv zeta.
  - match goal with |- context [MediaLifecycle.listen_range ?a ?b ?c ?d ?e ?f ?g ?h ?i] => pose proof (listen_range_fin b c d e f g h i) as H; revert H;
      destruct (MediaLifecycle.listen_range a b c d e f g h i) as [[[n' s1] port] [err|]] end; done.
  - pose proof (listen_retry_fin 10 n laddr None s) as H. by destruct (MediaLifecycle.listen_retry _ _ _ _ _ _) as [[n' s1] err].
Qed.
Lemma Init_fin ie p n (s : session) : same_fin s (MediaLifecycle.Init ListenUDP ie p n s).1.2.
Proof.
  unfold MediaLifecycle.Init. destruct (ms_Codecs s); [done|]. destruct (String.eqb _ _); [done|]. destruct (ua_IP (Laddr s)); [|done]. cbv zeta.
  set (s0 := if negb _ && _ then _ else s). assert (same_fin s s0) as H0 by (unfold s0; by destruct (_ && _)). clearbody s0.
  destruct (if bool_decide _ then _ else _); [done|]. set (s1 := match rtpConn s0 with Some _ => _ | None => s0 end).
  assert (same_fin s s1) as H1 by (eapply same_fin_trans; [exact H0|]; unfold s1; by destruct (rtpConn s0)). clearbody s1.
  pose proof (createListeners_fin true (Laddr s1) p n s1) as H2. destruct (MediaLifecycle.createListeners _ _ _ _ _ _) as [[[p' n'] s2] [e|]]; cbn [fst snd] in *.
  { by eapply same_fin_trans. }
  pose proof (same_fin_trans _ _ _ H1 H2) as H. destruct (iceEnabled s2); [|done].
  assert (same_fin s2 (MediaLifecycle.initICE ie s2).1) as H3 by (unfold MediaLifecycle.initICE; by repeat case_match).
  destruct (MediaLifecycle.initICE ie s2) as [s3 err]. by eapply same_fin_trans.
Qed.

(** ** Finalization *)

Definition armed_b (s : session) : bool := bool_decide (is_Some (onFinalize s)).
Definition running_b (s : session) : bool := bool_decide (is_Some (ms_finalizeRun s)).

(** Running a negotiation leaves which one is armed or running to its caller. *)
Lemma startICE_fin h (s : session) : same_fin s (MediaLifecycle.startICE h s).1.
Proof. unfold MediaLifecycle.startICE, SetRemoteAddr. by repeat case_match. Qed.
Lemma keySRTP_fin h a (s : session) : same_fin s (MediaLifecycle.keySRTP CreateContext h a s).1.
Proof. unfold MediaLifecycle.keySRTP. cbv zeta. by repeat case_match. Qed.
Lemma runNegotiation_fin h a (s : session) : same_fin s (MediaLifecycle.runNegotiation CreateContext h a s).1.
Proof.
  unfold MediaLifecycle.runNegotiation.
  match goal with |- context [if iceEnabled s then ?x else ?y] => assert (same_fin s (if iceEnabled s then x else y).1) as H;
    [|revert H; destruct (if iceEnabled s then x else y) as [s1 [e|]]; [done|]; intros H] end.
  { destruct (iceEnabled s); [|done]. pose proof (startICE_fin h s) as H. by destruct (MediaLifecycle.startICE h s) as [s1 [e|]]. }
  destruct (MediaLifecycle.hs_handshake h); [done|]. destruct (MediaLifecycle.hs_close h); [done|]. destruct (MediaLifecycle.hs_state h); [|done].
  eapply same_fin_trans; [exact H|apply keySRTP_fin].
Qed.
Lemma negotiate_armed h (s : session) : armed_b (MediaLifecycle.negotiate CreateContext h s) = armed_b s.
Proof.
  unfold MediaLifecycle.negotiate, armed_b. destruct (ms_finalizeRun s) as [[a [err|]]|]; [done| |done].
  pose proof (runNegotiation_fin h a s) as [_ H]. destruct (MediaLifecycle.runNegotiation _ _ _ _) as [s1 err]. cbn in *. by rewrite H.
Qed.
Lemma negotiate_running h (s : session) : running_b (MediaLifecycle.negotiate CreateContext h s) = running_b s.
Proof.
  unfold MediaLifecycle.negotiate, running_b. destruct (ms_finalizeRun s) as [[a [err|]]|] eqn:E; [by rewrite E| |by rewrite E].
  by destruct (MediaLifecycle.runNegotiation _ _ _ _) as [s1 err].
Qed.
Lemma endFinalizeRun_spec err (s : session) :
  let '(s', err') := MediaLifecycle.endFinalizeRun err s in err' = err /\ running_b s' = false /\ armed_b s' = armed_b s.
Proof. by destruct err. Qed.

Lemma session_within e (s s' : session) err : MediaLifecycle.FinalizeWithin CreateContext e s = (s', err) -> running_b s && armed_b s = false ->
  running_b s' && armed_b s' = false /\ (err = None -> running_b s' = false /\ armed_b s' = false).
Proof.
  unfold MediaLifecycle.FinalizeWithin. cbv zeta.
  assert (forall t : session, armed_b t = false ->
    (let u := match e with Some h => MediaLifecycle.negotiate CreateContext h t | None => t end in
     match ms_finalizeRun u with Some {| fr_done := Some r |} => MediaLifecycle.endFinalizeRun r u | _ => (u, Some ErrFinalizeInProgress) end) = (s', err) ->
    armed_b s' = false /\ (err = None -> running_b s' = false)) as Hwait.
  { intros t Ht. cbv zeta. assert (armed_b match e with Some h => MediaLifecycle.negotiate CreateContext h t | None => t end = false) as Hu.
    { destruct e; [by rewrite negotiate_armed|done]. } revert Hu. generalize (match e with Some h => MediaLifecycle.negotiate CreateContext h t | None => t end).
    intros u Hu. destruct (ms_finalizeRun u) as [[a [r|]]|]; try (by intros [= <- <-]).
    pose proof (endFinalizeRun_spec r u) as HE. destruct (MediaLifecycle.endFinalizeRun r u) as [u' r']. destruct HE as (_ & H1 & H2).
    intros [= <- <-]. split; [congruence|done]. }
  intros H Hc. destruct (ms_finalizeRun s) as [run|] eqn:E.
  - assert (armed_b s = false) as Ha by (unfold running_b in Hc; rewrite E in Hc; by rewrite bool_decide_true in Hc by done).
    apply Hwait in H as [H1 H2]; [|done]. rewrite H1, andb_false_r. auto.
  - destruct (finalizeErr s); [injection H as <- <-; done|]. destruct (onFinalize s) as [a|] eqn:Ea.
    + apply Hwait in H as [H1 H2]; [|done]. rewrite H1, andb_false_r. auto.
    + injection H as <- <-. split; [done|]. intros _. unfold running_b, armed_b. by rewrite E, Ea.
Qed.

Lemma session_context w h (s s' : session) : MediaLifecycle.FinalizeContext CreateContext w h s = Some (s', None) ->
  running_b s' = false /\ (running_b s && armed_b s = false -> armed_b s' = false).
Proof.
  unfold MediaLifecycle.FinalizeContext. destruct (ms_finalizeRun s) as [run|] eqn:E.
  - assert (running_b s = true) as Hr by (unfold running_b; rewrite E; by apply bool_decide_true). rewrite Hr. cbn [andb].
    unfold MediaLifecycle.awaitFinalizeRun. destruct w as [|stop h'].
    + destruct (fr_done run) as [err|]; [|done]. pose proof (endFinalizeRun_spec err s) as HE. destruct (MediaLifecycle.endFinalizeRun err s) as [u r].
      destruct HE as (-> & H1 & H2). intros [= <- _]. split; [done|]. congruence.
    + pose proof (negotiate_armed h' s) as Ha. destruct (ms_finalizeRun (MediaLifecycle.negotiate CreateContext h' s)) as [[a [err|]]|]; try done.
      pose proof (endFinalizeRun_spec err (MediaLifecycle.negotiate CreateContext h' s)) as HE. destruct (MediaLifecycle.endFinalizeRun err _) as [u r].
      destruct HE as (-> & H1 & H2). intros [= <- _]. split; [done|]. congruence.
  - destruct (finalizeErr s); [done|]. destruct (onFinalize s) as [a|] eqn:Ea.
    + pose proof (runNegotiation_fin h a s) as [H _]. destruct (MediaLifecycle.runNegotiation _ _ _ _) as [u err]. cbn in H.
      intros [= <- _]. unfold running_b, armed_b. cbn. by rewrite H, E.
    + intros [= <-]. unfold running_b, armed_b. by rewrite E, Ea.
Qed.

#[export] Program Instance session_laws :
  MediaLaws (session_ops dtlsSHA256Fingerprint CreateContext KeyLen candidate_ok preferLocal ListenUDP) :=
  {| is_armed := armed_b; is_running := running_b |}.
Next Obligation.
  intros e ip port conf s. cbn. pose proof (Init_fin (se_init e) (se_ports e) (se_calls e) (newMediaSession ip port conf)) as [H1 H2].
  destruct (MediaLifecycle.Init _ _ _ _ _) as [[[p n] t] [err|]]; [done|]. cbn in H1, H2. intros [= <-]. unfold armed_b, running_b. by rewrite H1, H2.
Qed.
Next Obligation.
  intros e sdp s s' o. cbn. pose proof (RemoteSDP_run (se_remote e) sdp s) as [H]. intros E. rewrite E in H. cbn in H. unfold running_b. by rewrite H.
Qed.
Next Obligation. done. Qed.
Next Obligation.
  intros e s s' body. cbn. pose proof (LocalSDP_fin (se_local e) s) as [H1 H2]. intros E. rewrite E in H1, H2. cbn in H1, H2. unfold armed_b, running_b. by rewrite H1, H2.
Qed.
Next Obligation. intros e s s' err. cbn. apply session_within. Qed.
Next Obligation.
  intros e s s'. cbn. destruct (se_run e) as [h|]; [|apply session_context]. rewrite <- (negotiate_running h s), <- (negotiate_armed h s). apply session_context.
Qed.

End Session.
End AnswerLaws.
