(* ===== verification/AnswerProps.v ===== *)
(** * Answering a call: theorems

    Each method gets a specification in the terms of [Method.wp]; the theorems put
    them together: what a successful answer leaves, what a failed one has sent, what
    the ACK to the 2xx of an offerless INVITE decides. They are proved against
    [MediaLaws]. *)
From S2P Require Import Prelude GoStrings NetIP Codec MediaSdp MediaSession MediaLifecycle SessionTimer Method Answer AnswerLaws.
Import GoStrings Codecs MediaSdp MediaSession SessionTimer Method Answer AnswerLaws.

Module AnswerProps.
Open Scope method_scope.

Section Methods.
Context {cert S : Type} {mo : MediaOps cert S} {laws : MediaLaws mo}.
Context {msg : Type} `{headerGetter msg}.
Abbreviation dialog := (server cert S).
Abbreviation method := (M (server cert S)).
Implicit Type inv : invite (msg := msg).

(** No negotiation armed or running; at most one of the two. *)
Definition settled (s : S) : Prop := is_armed s = false /\ is_running s = false.
Definition clean (s : S) : Prop := is_running s && is_armed s = false.
Lemma settled_clean s : settled s -> clean s.
Proof. intros [H1 H2]. unfold clean. by rewrite H2. Qed.

(** ** The media session *)

Lemma wp_session (Q : res S -> dialog -> Prop) d s : mediaSession d = Some s -> Q (Return s) d -> wp session Q d.
Proof. intros E HQ. unfold session. do 2 wp_step. wp_step. rewrite E. by wp_step. Qed.

Lemma wp_RemoteSDP e sdp (Q : res unit -> dialog -> Prop) d s : mediaSession d = Some s ->
  (forall s' o, mo_RemoteSDP e sdp s = (s', o) ->
    Q match o with Ok => Return tt | Err e => Fail e | Panic => Panics end (d <| mediaSession := Some s' |>)) -> wp (RemoteSDP e sdp) Q d.
Proof.
  intros E HQ. unfold RemoteSDP. wp_step. eapply wp_session; [done|]. wp_step. destruct (mo_RemoteSDP e sdp s) as [s' o] eqn:Eo.
  specialize (HQ s' o eq_refl). unfold set_session. wp_steps. by destruct o.
Qed.

Lemma wp_LocalSDP e (Q : res string -> dialog -> Prop) d s : mediaSession d = Some s ->
  (forall s' body, mo_LocalSDP e s = (s', body) -> Q (Return body) (d <| mediaSession := Some s' |>)) -> wp (LocalSDP e) Q d.
Proof.
  intros E HQ. unfold LocalSDP. wp_step. eapply wp_session; [done|]. wp_step. destruct (mo_LocalSDP e s) as [s' body] eqn:Eo.
  unfold set_session. wp_steps. by apply HQ.
Qed.

Lemma wp_FinalizeWithin e (Q : res (option error) -> dialog -> Prop) d s : mediaSession d = Some s ->
  (forall s' err, mo_FinalizeWithin e s = (s', err) -> Q (Return err) (d <| mediaSession := Some s' |>)) -> wp (FinalizeWithin e) Q d.
Proof.
  intros E HQ. unfold FinalizeWithin. wp_step. eapply wp_session; [done|]. wp_step. destruct (mo_FinalizeWithin e s) as [s' err] eqn:Eo.
  unfold set_session. wp_steps. by apply HQ.
Qed.

Lemma wp_FinalizeContext e (Q : res unit -> dialog -> Prop) d s : mediaSession d = Some s ->
  (forall s' err, mo_FinalizeContext e s = Some (s', err) -> Q match err with Some e => Fail e | None => Return tt end (d <| mediaSession := Some s' |>)) ->
  Q Waits d -> wp (FinalizeContext e) Q d.
Proof.
  intros E HQ HW. unfold FinalizeContext. wp_step. eapply wp_session; [done|]. wp_step. destruct (mo_FinalizeContext e s) as [[s' err]|] eqn:Eo.
  - specialize (HQ s' err eq_refl). unfold set_session. wp_steps. by destruct err.
  - by wp_step.
Qed.

(** The session a dialog gets has nothing armed. *)
Lemma wp_init e (Q : res unit -> dialog -> Prop) d : mediaSession d = None ->
  (forall s port, settled s -> Q (Return tt) (d <| mediaSession := Some s |> <| releaseRTPPort := port |>)) ->
  (forall err ports, Q (Fail err) (d <| releasedPorts := ports |>)) -> wp (initMediaSessionFromConf e) Q d.
Proof.
  intros E HS HF. assert (forall err, Q (Fail err) d) as HF'.
  { intros err. specialize (HF err (releasedPorts d)). by destruct d. }
  unfold initMediaSessionFromConf. do 3 wp_step. cbn [id]. rewrite E.
  destruct (match bindIP _ with None => _ | Some _ => _ end) as [ip|err]; [|by wp_step].
  destruct (if RTPPortAllocator _ then _ else _) as [port|err]; [|by wp_step].
  destruct (mo_new _ _ _ _) as [s|err] eqn:En.
  - wp_step. apply HS. by apply ml_new in En.
  - do 4 wp_step. destruct (RTPPortAllocator _); [apply HF|apply HF'].
Qed.

(** ** The ACK and the 2xx *)

(** What applying the answer of the ACK makes of the session: nothing of an ACK
    without one, which must be allowed. *)
Definition acked (late : bool) (a : ack) (s s' : S) : Prop :=
  match a_body a with
  | None => late = false /\ s' = s
  | Some body => exists s1, mo_RemoteSDP (a_env a) body (mo_expectAnswer s) = (s1, Ok) /\ mo_FinalizeContext (a_env a) s1 = Some (s', None)
  end.
Lemma acked_settled late a s s' : acked late a s s' -> settled s -> settled s'.
Proof.
  unfold acked. destruct (a_body a) as [body|]; [|by intros [_ ->]]. intros (s1 & HR & HF) [Ha Hr].
  destruct (ml_expect s) as [_ E]. apply ml_RemoteSDP in HR. destruct (ml_context _ _ _ HF) as [H1 H2]. split; [|done].
  apply H2. by rewrite HR, E, Hr.
Qed.
Lemma acked_clean late a s s' : acked late a s s' -> clean s -> clean s'.
Proof.
  unfold acked. destruct (a_body a) as [body|]; [|by intros [_ ->]]. intros (s1 & HR & HF) _.
  destruct (ml_context _ _ _ HF) as [H1 H2]. unfold clean. by rewrite H1.
Qed.
Lemma context_settled e s s' : mo_FinalizeContext e s = Some (s', None) -> clean s -> settled s'.
Proof. intros HF Hc. destruct (ml_context _ _ _ HF) as [H1 H2]. split; auto. Qed.

Lemma same_session (d : dialog) s : mediaSession d = Some s -> d = d <| mediaSession := Some s |>.
Proof. destruct d; cbn. by intros ->. Qed.
Lemma same_session' (d : dialog) s : mediaSession d = Some s -> d <| mediaSession := Some s |> = d.
Proof. intros E. by rewrite <- same_session. Qed.

Lemma applyAck_spec a (d : dialog) s : mediaSession d = Some s -> state d = Established ->
  wp (applyAck a) (fun r d' => match r with
    | Return _ => exists s', acked (ackCarriesAnswer d) a s s' /\ d' = d <| mediaSession := Some s' |>
    | Fail err => exists s', d' = d <| mediaSession := Some s' |> <| ackAnswerErr := Some err |> /\ (a_body a = None -> err = errAckCarriesNoAnswer)
    | _ => True
    end) d.
Proof.
  intros E Es. unfold applyAck. wp_steps. cbn [id]. rewrite E, Es. rewrite bool_decide_true by done. cbn [negb].
  unfold acked. destruct (a_body a) as [body|].
  - unfold set_session. wp_steps.
    eapply wp_RemoteSDP; [done|]. intros s1 o HR. destruct o as [|err|]; wp_steps; [|by eexists|done].
    eapply wp_FinalizeContext; [done| |by wp_steps]. intros s' err HF. destruct err as [err|]; wp_steps; [by eexists|eauto].
  - destruct (ackCarriesAnswer d); wp_steps; exists s; by rewrite same_session'.
Qed.

(** What the 2xx comes to: confirmed with its ACK applied or not, or not confirmed. *)
Lemma Respond200_spec e h b (d : dialog) s : mediaSession d = Some s -> answering d = true -> ackAnswerErr d = None ->
  let d1 := put (Resp 200 h b) d in
  wp (Respond200 e h b) (fun r d' => match r with
    | Return _ => exists a s', c_ok e = inr a /\ a_err a = None /\
      ((acked (ackCarriesAnswer d) a s s' /\ d' = d1 <| mediaSession := Some s' |> <| state := Confirmed |>) \/
       exists err, d' = d1 <| mediaSession := Some s' |> <| ackAnswerErr := Some err |> <| state := Confirmed |> /\
         (a_body a = None -> err = errAckCarriesNoAnswer))
    | Fail err => exists s' o, d' = d1 <| mediaSession := Some s' |> <| ackAnswerErr := o |> <| state := Established |>
    | _ => True
    end) d.
Proof.
  intros E Ea Ee d1. unfold Respond200. wp_steps. destruct (c_ok e) as [err|a] eqn:Eo; wp_steps.
  { exists s, None. unfold d1. destruct d; cbn in *. by rewrite E, Ee. }
  unfold ReadAck. wp_steps.
  set (d2 := put (Resp 200 h b) d <| state := Established |>).
  assert (answerWaiting d2 = true) as -> by (unfold answerWaiting; cbn; by rewrite E, Ea).
  wp_call (applyAck_spec a d2 s); [done..|]. intros r d' Hr. unfold sipgo_ReadAck. destruct r as [[]|err| |]; wp_steps; try done.
  - destruct Hr as (s' & HA & ->). wp_steps. destruct (a_err a) as [err|] eqn:Er; wp_steps.
    + exists s', None. subst d2 d1. destruct d; cbn in *. by rewrite Ee.
    + exists a, s'. split; [done|]. split; [done|]. left. done.
  - destruct Hr as (s' & -> & HN). destruct (a_err a) as [err'|] eqn:Er; wp_steps; cbn [bool_decide].
    + by exists s', (Some err).
    + exists a, s'. split; [done|]. split; [done|]. right. by exists err.
Qed.

Lemma wp_hangup (bye : bool * option error) (Q : res (option error) -> dialog -> Prop) d : state d <> Early ->
  Q (Return bye.2) (if bye.1 then put Bye d <| state := Ended |> else d) -> wp (hangupNoMedia bye) Q d.
Proof.
  intros Hs HQ. unfold hangupNoMedia, Hangup. do 4 wp_step. cbn [id]. rewrite bool_decide_false by done.
  destruct bye as [sent [err|]]; cbn [snd fst] in *; by wp_steps.
Qed.

(** The session timer after a 2xx with the prepared answer [ta]. *)
Definition started (ta : option timerAnswer) (t : option sessionTimerState) : option sessionTimerState :=
  match ta with Some ta => Some (default (launched ta) t) | None => t end.
Definition timer_headers (ta : option timerAnswer) : list header := match ta with Some ta => ta_headers ta | None => [] end.

Lemma wp_launch ta (Q : res unit -> dialog -> Prop) d :
  Q (Return tt) (d <| timer := started ta (timer d) |>) -> wp (match ta with Some ta => launchSessionTimers ta | None => ret tt end) Q d.
Proof.
  intros HQ. destruct ta as [ta|]; unfold launchSessionTimers; wp_step.
  - destruct (timer d) eqn:E; [|done]. cbn in HQ. destruct d; cbn in *. by subst.
  - destruct d; exact HQ.
Qed.

Lemma respondSDP_spec e b (d : dialog) s : mediaSession d = Some s -> answering d = true -> ackAnswerErr d = None ->
  let d1 := put (Resp 200 (timer_headers (timerAnswer_ d)) b) d in
  wp (respondSDP e b) (fun r d' => match r with
    | Return _ => exists a s', c_ok e = inr a /\ acked (ackCarriesAnswer d) a s s' /\
        d' = d1 <| mediaSession := Some s' |> <| state := Confirmed |> <| timer := started (timerAnswer_ d) (timer d) |>
    | Fail err => exists s',
        (exists o, d' = d1 <| mediaSession := Some s' |> <| ackAnswerErr := o |> <| state := Established |>) \/
        exists a err1, c_ok e = inr a /\ (a_body a = None -> err1 = errAckCarriesNoAnswer) /\ err = join err1 (c_bye e).2 /\
          let d2 := d1 <| mediaSession := Some s' |> <| ackAnswerErr := Some err1 |> <| state := Confirmed |> in
          d' = if (c_bye e).1 then put Bye d2 <| state := Ended |> else d2
    | _ => True
    end) d.
Proof.
  intros E Ea Ee d1. unfold respondSDP. wp_steps.
  wp_call (Respond200_spec e (timer_headers (timerAnswer_ d)) b d s); [done..|]. fold d1. intros r d' Hr. destruct r as [[]|err| |]; wp_steps; try done.
  - destruct Hr as (a & s' & Eo & Er & [[HA ->]|(err & -> & HN)]).
    + replace (ackAnswerErr _) with (@None error) by done. apply wp_launch. exists a, s'. done.
    + replace (ackAnswerErr _) with (Some err) by done. cbv iota. wp_step. apply wp_hangup; [done|]. wp_steps.
      exists s'. right. exists a, err. done.
  - destruct Hr as (s' & o & ->). exists s'. left. by exists o.
Qed.

(** ** The forms of the answer

    A dialog ready to be answered: fresh, or with the early media [early] of a
    [ProgressMedia] that keyed it or left it unkeyed. *)
Record ready (early : option string) (d : dialog) : Prop := {
  r_state : state d = Early;
  r_ack : ackAnswerErr d = None;
  r_late : ackCarriesAnswer d = false;
  r_timer : timer d = None;
  r_answering : answering d = false;
  r_early : earlyAnswerSDP d = early;
  r_media : match early with
            | None => mediaSession d = None /\ earlyUnkeyed d = false
            | Some _ => exists s, mediaSession d = Some s /\
                if earlyUnkeyed d then clean s else settled s /\ rtpSession d = true /\ monitoring d = true
            end }.

(** What an answer that succeeds leaves, with the session timer [ta] prepared. *)
Record settled_call (ta : option timerAnswer) (early : option string) (d d' : dialog) : Prop := {
  an_outs : exists b, outs d' = outs d ++ [Resp 200 (timer_headers ta) b] /\ forall b', early = Some b' -> b = b';
  an_media : exists s, mediaSession d' = Some s /\ settled s;
  an_rtp : rtpSession d' = true /\ monitoring d' = true;
  an_timer : timer d' = launched <$> ta;
  an_state : state d' = Confirmed;
  an_ack : ackAnswerErr d' = None;
  an_answering : answering d' = false;
  an_copies : forall a bye, (ReadAck a bye d').1 = d' }.

(** What an answer that fails has sent. *)
Inductive failure (ta : option timerAnswer) (e : call_env (S := S)) (d d' : dialog) : Prop :=
| failed_before : outs d' = outs d -> state d' = Early -> timer d' = None -> failure ta e d d'
| failed_488 : outs d' = outs d ++ [Resp 488 [] ""] -> state d' = Early -> timer d' = None -> failure ta e d d'
| failed_2xx b : outs d' = outs d ++ [Resp 200 (timer_headers ta) b] -> state d' = Established -> timer d' = None -> failure ta e d d'
| failed_ack b err : outs d' = outs d ++ Resp 200 (timer_headers ta) b :: (if (c_bye e).1 then [Bye] else []) ->
    state d' = (if (c_bye e).1 then Ended else Confirmed) -> ackAnswerErr d' = Some err -> timer d' = None -> failure ta e d d'
| failed_media b : outs d' = outs d ++ [Resp 200 (timer_headers ta) b] -> state d' = Confirmed -> ackAnswerErr d' = None -> timer d' = launched <$> ta ->
    failure ta e d d'.

Definition answer_post (ta : option timerAnswer) (e : call_env (S := S)) (early : option string) (d : dialog) (r : res unit) (d' : dialog) : Prop :=
  match r with
  | Return _ => settled_call ta early d d'
  | Fail _ => answering d' = false /\ failure ta e d d'
  | _ => True
  end.

(** A copy of the ACK that is read later answers nothing. *)
Lemma ReadAck_copy a bye (d : dialog) : state d <> Established -> (ReadAck a bye d).1 = d.
Proof.
  intros Hs. enough (wp (ReadAck a bye) (fun _ d' => d' = d) d) as HW by exact HW. unfold ReadAck, applyAck, sipgo_ReadAck. wp_steps. cbn [id].
  rewrite (bool_decide_false (state d = Established)) by done. destruct (mediaSession d); cbn [negb]; wp_steps; destruct (a_err a); wp_steps; try done; by rewrite (bool_decide_false (state d = Established)).
Qed.

Lemma started_none ta : started ta None = launched <$> ta.
Proof. by destruct ta. Qed.

(** A 2xx and what follows it, [k], within [defer]. *)
Lemma answer_2xx e ta early b (k : method unit) (d0 d : dialog) s :
  mediaSession d = Some s -> answering d = true -> ackAnswerErr d = None -> ackCarriesAnswer d = false -> timer d = None -> timerAnswer_ d = ta ->
  outs d = outs d0 -> (forall b', early = Some b' -> b = b') ->
  (forall a s', acked false a s s' ->
     let d1 := put (Resp 200 (timer_headers ta) b) d <| mediaSession := Some s' |> <| state := Confirmed |> <| timer := launched <$> ta |> in
     wp k (fun r d' => match r with
       | Return _ => exists s'', settled s'' /\ rtpSession d' = true /\ monitoring d' = true /\
           d' = d1 <| mediaSession := Some s'' |> <| rtpSession := rtpSession d' |> <| monitoring := monitoring d' |>
       | Fail _ => exists s'', d' = d1 <| mediaSession := Some s'' |> <| rtpSession := rtpSession d' |> <| monitoring := monitoring d' |>
       | _ => True end) d1) ->
  wp (respondSDP e b ;;; k) (fun r d' => match r with Return _ | Fail _ => answer_post ta e early d0 r (end_answer d') | _ => True end) d.
Proof.
  intros Es Ea Ee El Et Eta Eo Hb Hk. wp_step. wp_call (respondSDP_spec e b d s); [done..|]. cbv zeta. rewrite Eta, Et, started_none, El.
  intros r d' Hr. destruct r as [[]|err| |]; wp_steps; try done.
  - destruct Hr as (a & s' & _ & HA & ->). specialize (Hk a s' HA). cbv zeta in Hk. revert Hk.
    set (d1 := put _ _ <| mediaSession := _ |> <| state := _ |> <| timer := _ |>).
    assert (outs d1 = outs d0 ++ [Resp 200 (timer_headers ta) b]) as Ho by (unfold d1; cbn; by rewrite Eo).
    assert (state d1 = Confirmed /\ ackAnswerErr d1 = None /\ timer d1 = launched <$> ta) as (Hst & Hak & Htm) by (unfold d1; by cbn). clearbody d1.
    intros Hk. wp_call Hk. intros r d' Hr. destruct r as [[]|err| |]; try done.
    + destruct Hr as (s'' & Hs & Hrtp & Hmon & E). split; try (by rewrite E).
      * exists b. split; [by rewrite E|done].
      * exists s''. split; [by rewrite E|done].
      * intros a' bye. apply ReadAck_copy. change (state d' <> Established). rewrite E. cbn. by rewrite Hst.
    + destruct Hr as (s'' & E). split; [done|]. eapply failed_media with b; by rewrite E.
  - destruct Hr as (s' & [(o & ->)|(a & err1 & _ & HN & _ & ->)]); (split; [done|]).
    + eapply failed_2xx with b; [|done..]. cbn. by rewrite Eo.
    + eapply failed_ack with b err1; destruct (c_bye e).1; try done; cbn; rewrite Eo; [by rewrite <- app_assoc|done].
Qed.

(** Early media, keyed and not. *)
Lemma answerEarlyMedia_spec ta early e (d : dialog) : ready (Some early) d -> timerAnswer_ d = ta ->
  wp (answerEarlyMedia e) (answer_post ta e (Some early) d) d.
Proof.
  intros Hr Eta. pose proof Hr as [Hs Ha Hl Ht Han He (s & Es & Hm)]. unfold answerEarlyMedia. do 3 wp_step. cbn [id]. rewrite He. cbn [default].
  destruct (earlyUnkeyed d).
  - unfold answerUnkeyedEarlyMedia, begin_answer. do 4 wp_step. wp_step. eapply wp_FinalizeWithin; [done|]. intros s1 err HW.
    destruct (ml_within _ _ _ _ HW Hm) as [Hc _].
    assert (forall d1 : dialog, d1 = d <| answering := true |> <| mediaSession := Some s1 |> ->
      wp (respondSDP e early ;;; FinalizeContext (c_final e) ;;; initRTPSessionUnsafe ;;; MonitorBackground (c_monitor e))
        (fun r d' => match r with Return _ | Fail _ => answer_post ta e (Some early) d r (end_answer d') | _ => True end) d1) as Hgo.
    { intros d1 ->. eapply answer_2xx with s1; try done; [by intros b' [= ->]|].
      intros a s2 HA. cbv zeta. set (d2 := put _ _ <| mediaSession := _ |> <| state := _ |> <| timer := _ |>).
      assert (mediaSession d2 = Some s2) as E2 by done. clearbody d2. wp_step. eapply wp_FinalizeContext; [done| |done].
      intros s3 err3 HF. destruct err3 as [err3|].
      + wp_steps. exists s3. by destruct d2.
      + assert (settled s3) by (eapply context_settled; [done|by eapply acked_clean]). unfold initRTPSessionUnsafe, MonitorBackground. wp_steps.
        destruct (c_monitor e); wp_steps; exists s3; by destruct d2. }
    wp_step. wp_step. cbn [id]. set (d1 := d <| answering := true |> <| mediaSession := Some s1 |>) in *.
    assert (wp (try (Respond 488 [] "" (c_respond e))) (fun r d' => d' = put (Resp 488 [] "") d1 /\ exists b, r = Return b) d1) as H488.
    { unfold Respond. destruct (c_respond e); wp_steps; eauto. }
    destruct err as [err|]; [destruct (errors_Is err ErrFinalizeInProgress)|].
    + do 2 wp_step. wp_call (Hgo d1 eq_refl). by intros [] d'.
    + wp_step. wp_call H488. intros r d' (-> & b & ->). wp_steps. split; [done|]. apply failed_488; [done|by rewrite <- Hs|by rewrite <- Ht].
    + do 2 wp_step. wp_call (Hgo d1 eq_refl). by intros [] d'.
  - destruct Hm as (Hset & Hrtp & Hmon). unfold RespondSDP, begin_answer. do 4 wp_step. apply wp_bind_ret.
    wp_call (answer_2xx e ta (Some early) early (ret tt) d (d <| answering := true |>) s); try done; [by intros b' [= ->]| |].
    + intros a s' HA. cbv zeta. set (d2 := put _ _ <| mediaSession := _ |> <| state := _ |> <| timer := _ |>). wp_step.
      exists s'. split; [by eapply acked_settled|]. split; [done|]. split; [done|]. unfold d2. cbn. by rewrite Hrtp, Hmon.
    + by intros [] d'.
Qed.

(** A fresh media session. *)
Lemma answerSession_spec ta inv e (d0 d : dialog) s :
  mediaSession d = Some s -> settled s -> state d = Early -> ackAnswerErr d = None -> ackCarriesAnswer d = false -> timer d = None -> answering d = false ->
  timerAnswer_ d = ta -> outs d = outs d0 -> wp (answerSession inv e) (answer_post ta e None d0) d.
Proof.
  intros Es Hset Hs Ha Hl Ht Han Eta Eo. unfold answerSession. destruct (i_body inv) as [sdp|]; [|wp_step; split; [done|by apply failed_before]].
  wp_step. eapply wp_RemoteSDP; [done|]. intros s1 o HR. apply ml_RemoteSDP in HR as Hrun.
  assert (clean s1) as Hc1 by (unfold clean; rewrite Hrun; by destruct Hset as [_ ->]).
  destruct o as [|err|]; wp_step; [|split; [done|by apply failed_before]|done].
  unfold initRTPSessionUnsafe, begin_answer. do 8 wp_step.
  eapply wp_LocalSDP; [done|]. intros s2 body HL. apply ml_LocalSDP in HL as [HLa HLr]. wp_step.
  assert (clean s2) as Hc2 by (unfold clean; by rewrite HLa, HLr).
  set (d2 := d <| mediaSession := Some s1 |> <| rtpSession := true |> <| answering := true |> <| mediaSession := Some s2 |>).
  wp_call (answer_2xx e ta None body (FinalizeContext (c_final e) ;;; MonitorBackground (c_monitor e)) d0 d2 s2); try done.
  - intros a s3 HA. cbv zeta. set (d3 := put _ _ <| mediaSession := _ |> <| state := _ |> <| timer := _ |>).
    assert (mediaSession d3 = Some s3 /\ rtpSession d3 = true) as [E3 Hr3] by done. clearbody d3. wp_step. eapply wp_FinalizeContext; [done| |done].
    intros s4 err HF. destruct err as [err|]; wp_step.
    + exists s4. by destruct d3.
    + assert (settled s4) by (eapply context_settled; [done|by eapply acked_clean]). unfold MonitorBackground.
      destruct (c_monitor e); wp_step; exists s4; [by destruct d3|]. split; [done|]. split; [done|]. split; [done|]. destruct d3; cbn in *. by rewrite Hr3.
  - by intros [] d'.
Qed.

(** ** Timers before the answer *)

Definition negotiated (inv : invite) : option timerAnswer := (buildTimerAnswer (i_msg inv) (i_policy inv)).1.1.
Definition too_small (inv : invite) : bool := (buildTimerAnswer (i_msg inv) (i_policy inv)).2 =? statusSessionIntervalTooSmall.
Definition refused (inv : invite) (d : dialog) : dialog :=
  put (Resp statusSessionIntervalTooSmall (buildTimerAnswer (i_msg inv) (i_policy inv)).1.2 "") d.

Lemma wp_prepare inv e (Q : res unit -> dialog -> Prop) d : timerAnswer_ d = None ->
  (too_small inv = true -> forall err, Q (Fail err) (refused inv d)) ->
  (too_small inv = false -> Q (Return tt) (d <| timerAnswer_ := negotiated inv |>)) -> wp (prepareSessionTimers inv e) Q d.
Proof.
  intros Et HF HS. unfold prepareSessionTimers, too_small, refused, negotiated in *. destruct (buildTimerAnswer _ _) as [[ta hdrs] status]. cbn [fst snd] in *.
  destruct (status =? statusSessionIntervalTooSmall).
  - unfold Respond. wp_steps. destruct (c_respond e); wp_steps; by apply HF.
  - destruct ta; wp_step; [by apply HS|]. specialize (HS eq_refl). destruct d; cbn in *. by subst.
Qed.

(** ** The theorems *)

(** [Answer], and [AnswerOptions] when there are options. *)
Definition answer_call (opt : option AnswerOptions_) (inv : invite) (e : call_env) : method unit :=
  match opt with Some opt => AnswerOptions opt inv e | None => Answer inv e end.

Definition call_post (early : option string) (inv : invite) (e : call_env (S := S)) (d : dialog) (r : res unit) (d' : dialog) : Prop :=
  match r with
  | Return _ => too_small inv = false /\ settled_call (negotiated inv) early d d'
  | Fail _ => answering d' = false /\
      ((too_small inv = true /\ outs d' = outs (refused inv d) /\ state d' = Early /\ timer d' = None /\ mediaSession d' = mediaSession d) \/
       (too_small inv = false /\ failure (negotiated inv) e d d'))
  | _ => True
  end.
Lemma answer_call_post early inv e (d0 d d' : dialog) r : too_small inv = false -> outs d = outs d0 ->
  answer_post (negotiated inv) e early d r d' -> call_post early inv e d0 r d'.
Proof.
  intros Hts Eo. destruct r as [[]|err| |]; cbn; [|intros [? Hf]|done..].
  - intros []. split; [done|]. split; try done. by rewrite <- Eo.
  - split; [done|]. right. split; [done|]. destruct Hf; [eapply failed_before|eapply failed_488|eapply failed_2xx|eapply failed_ack|eapply failed_media];
      rewrite <- ?Eo; eauto.
Qed.

Lemma answer_call_spec opt early inv e (d : dialog) : ready early d -> timerAnswer_ d = None -> wp (answer_call opt inv e) (call_post early inv e d) d.
Proof.
  intros Hr Hta. set (d0 := match opt with Some o => d <| onReferDialog := OnRefer o |> <| onMediaUpdate := OnMediaUpdate o |> | None => d end).
  assert (ready early d0 /\ timerAnswer_ d0 = None /\ outs d0 = outs d /\ mediaSession d0 = mediaSession d) as (Hr0 & Eta & Eo & Em)
    by (unfold d0; destruct opt; by destruct Hr).
  set (m := prepareSessionTimers inv e ;;;
    let! s := gets mediaSession in
    match s with
    | Some _ => answerEarlyMedia e
    | None => (match opt with Some o => updateMediaConf (ao_Codecs o) (ao_RTPNAT o) | None => ret tt end) ;;; initMediaSessionFromConf e ;;; answerSession inv e
    end).
  enough (wp m (call_post early inv e d) d0) as HM.
  { destruct opt as [o|]; unfold answer_call, Answer, AnswerOptions; [by do 3 wp_step|]. unfold m in HM. exact HM. }
  clearbody d0. unfold m. wp_step. apply wp_prepare; [done| |]; intros Hts.
  - intros err. wp_step. destruct Hr0. split; [done|]. left. split; [done|]. unfold refused. cbn. by rewrite Eo.
  - set (d1 := d0 <| timerAnswer_ := negotiated inv |>).
    assert (ready early d1 /\ timerAnswer_ d1 = negotiated inv /\ outs d1 = outs d) as (Hr1 & Et1 & Eo1) by (by destruct Hr0). clearbody d1. do 4 wp_step.
    destruct early as [early|].
    + pose proof (r_media _ _ Hr1) as (s & Es & _). rewrite Es. wp_call (answerEarlyMedia_spec (negotiated inv) early e d1); [done..|].
      intros r d'. by apply answer_call_post.
    + pose proof Hr1 as [Hs Ha Hl Ht Han He [Es Hu]]. rewrite Es. wp_step.
      set (n := match opt with Some _ => _ | None => _ end).
      assert (wp n (fun r d' => r = Return tt /\ d' = d1 <| mediaConf := mediaConf d' |>) d1) as Hn.
      { unfold n, updateMediaConf. destruct opt; wp_step; [by destruct d1|]. split; [done|]. by destruct d1. }
      wp_call Hn. intros r d2 [-> E2]. wp_step. clear n Hn.
      assert (mediaSession d2 = None /\ state d2 = Early /\ ackAnswerErr d2 = None /\ ackCarriesAnswer d2 = false /\ timer d2 = None /\ answering d2 = false /\
        timerAnswer_ d2 = negotiated inv /\ outs d2 = outs d) as (? & ? & ? & ? & ? & ? & ? & ?) by (rewrite E2; cbn; by split_and!). clear E2. wp_step.
      apply wp_init; [done| |].
      * intros s port Hset. wp_step. wp_call (answerSession_spec (negotiated inv) inv e d (d2 <| mediaSession := Some s |> <| releaseRTPPort := port |>) s); try done.
        intros r d'. by apply answer_call_post.
      * intros err ports. wp_step. split; [done|]. right. split; [done|]. by apply failed_before.
Qed.

(** [ProgressMedia] on a fresh dialog: keyed, left unkeyed, or failed before or
    after the media session was made. *)
Definition progress_post (d : dialog) (r : res unit) (d' : dialog) : Prop :=
  match r with
  | Return _ => exists body, ready (Some body) d' /\ earlyUnkeyed d' = false /\ outs d' = outs d ++ [Resp 183 [] body] /\ timerAnswer_ d' = timerAnswer_ d
  | Fail err => earlyUnkeyed d' = true -> exists body, ready (Some body) d' /\ err = ErrEarlyMediaNotKeyed /\
      outs d' = outs d ++ [Resp 183 [] body] /\ timerAnswer_ d' = timerAnswer_ d
  | _ => True
  end.

Lemma progress_failed (d d' : dialog) err : earlyUnkeyed d' = false -> progress_post d (Fail err) d'.
Proof. intros E. cbn. by rewrite E. Qed.

(** What a dialog being answered has besides its session. *)
Record plain (d : dialog) : Prop := {
  pl_state : state d = Early; pl_ack : ackAnswerErr d = None; pl_late : ackCarriesAnswer d = false; pl_timer : timer d = None;
  pl_answering : answering d = false; pl_unkeyed : earlyUnkeyed d = false }.

(** [ProgressMediaOptions] once its session is offered the description. *)
Lemma progress_wait e body (d0 d : dialog) s : plain d -> mediaSession d = Some s -> clean s -> timerAnswer_ d = timerAnswer_ d0 -> outs d = outs d0 ->
  wp (Respond 183 [] body (c_respond e) ;;;
      let! err := FinalizeWithin (c_within e) in
      match err with
      | Some err =>
        if errors_Is err ErrFinalizeInProgress then
          modify (fun d => d <| earlyAnswerSDP := Some body |> <| earlyUnkeyed := true |>) ;;; fail ErrEarlyMediaNotKeyed
        else fail err
      | None =>
        initRTPSessionUnsafe ;;;
        modify (fun d => d <| earlyAnswerSDP := Some body |>) ;;;
        MonitorBackground (c_monitor e)
      end) (progress_post d0) d.
Proof.
  intros [Hs Ha Hl Ht Han Hu] Es Hc Eta Eo. unfold Respond. do 5 wp_step. destruct (c_respond e) as [err|]; [by apply progress_failed|]. wp_step.
  eapply wp_FinalizeWithin; [done|]. intros s3 err HW. destruct (ml_within _ _ _ _ HW Hc) as [Hc3 Hok]. wp_step. cbv beta iota.
  set (d3 := put _ d <| mediaSession := Some s3 |>).
  assert (plain d3 /\ mediaSession d3 = Some s3 /\ timerAnswer_ d3 = timerAnswer_ d0 /\ outs d3 = outs d0 ++ [Resp 183 [] body])
    as ([? ? ? ? ? Hu3] & E3 & Et3 & Eo3) by (unfold d3; split; [by split|]; split_and!; try done; cbn; by rewrite Eo). clearbody d3.
  destruct err as [err|]; [destruct (errors_Is err ErrFinalizeInProgress)|].
  - do 4 wp_step. intros _. exists body. split; [|done]. split; try done. by exists s3.
  - wp_step. by apply progress_failed.
  - unfold initRTPSessionUnsafe, MonitorBackground. do 6 wp_step. destruct (c_monitor e) as [err|]; wp_step.
    + by apply progress_failed.
    + exists body. split; [|done]. split; try done. exists s3. split; [done|].
      change (if earlyUnkeyed d3 then clean s3 else settled s3 /\ true = true /\ true = true). rewrite Hu3. by destruct (Hok eq_refl).
Qed.

Lemma progress_spec codecs nat_ inv e (d : dialog) : ready None d -> wp (ProgressMediaOptions codecs nat_ inv e) (progress_post d) d.
Proof.
  intros [Hs Ha Hl Ht Han He [Es Hu]]. unfold ProgressMediaOptions, updateMediaConf. do 4 wp_step.
  apply wp_init; [done| |]; [|intros err ports; wp_step; by apply progress_failed].
  intros s port Hset. wp_step. destruct (i_body inv) as [offer|]; [|wp_step; by apply progress_failed]. wp_step.
  eapply wp_RemoteSDP; [done|]. intros s1 o HR. apply ml_RemoteSDP in HR as Hrun.
  assert (clean s1) as Hc1 by (unfold clean; rewrite Hrun; by destruct Hset as [_ ->]).
  destruct o as [|err|]; wp_step; [|by apply progress_failed|done]. wp_step.
  eapply wp_LocalSDP; [done|]. intros s2 body HL. apply ml_LocalSDP in HL as [HLa HLr]. wp_step.
  assert (clean s2) as Hc2 by (unfold clean; by rewrite HLa, HLr).
  apply progress_wait with s2; try done.
Qed.

(** [AnswerLate]: what its failures have sent. *)
Inductive late_failure inv (e : call_env) (d : dialog) (err : error) (d' : dialog) : Prop :=
| late_too_small : too_small inv = true -> outs d' = outs (refused inv d) -> late_failure inv e d err d'
| late_before : too_small inv = false -> outs d' = outs d -> late_failure inv e d err d'
| late_2xx b : outs d' = outs d ++ [Resp 200 (timer_headers (negotiated inv)) b] -> state d' = Established -> timer d' = None -> late_failure inv e d err d'
| late_ack b a err1 : c_ok e = inr a -> (a_body a = None -> err1 = errAckCarriesNoAnswer) -> err = join err1 (c_bye e).2 ->
    outs d' = outs d ++ Resp 200 (timer_headers (negotiated inv)) b :: (if (c_bye e).1 then [Bye] else []) -> timer d' = None -> late_failure inv e d err d'
| late_monitor b : outs d' = outs d ++ [Resp 200 (timer_headers (negotiated inv)) b] -> c_monitor e = Some err -> late_failure inv e d err d'.

Definition late_post inv (e : call_env) (d : dialog) (r : res unit) (d' : dialog) : Prop :=
  match r with
  | Return _ => too_small inv = false /\ settled_call (negotiated inv) None d d' /\
      exists a body s0 s1 s', c_ok e = inr a /\ a_body a = Some body /\ mo_RemoteSDP (a_env a) body (mo_expectAnswer s0) = (s1, Ok) /\
        mo_FinalizeContext (a_env a) s1 = Some (s', None) /\ mediaSession d' = Some s'
  | Fail err => answering d' = false /\ late_failure inv e d err d'
  | _ => True
  end.

Lemma late_spec inv e (d : dialog) : ready None d -> timerAnswer_ d = None -> wp (AnswerLate inv e) (late_post inv e d) d.
Proof.
  intros [Hs Ha Hl Ht Han He [Es Hu]] Hta. unfold AnswerLate. wp_step. apply wp_prepare; [done| |]; intros Hts.
  { intros err. wp_step. split; [done|]. by apply late_too_small. }
  do 2 wp_step. apply wp_init; [done| |]; [|by intros err ports; wp_step; split; [|apply late_before]].
  intros s port Hset. do 2 wp_step. eapply wp_LocalSDP; [done|]. intros s1 b HL. apply ml_LocalSDP in HL as [HLa HLr].
  assert (settled s1) as Hset1 by (destruct Hset; split; congruence).
  unfold initRTPSessionUnsafe, begin_answer. do 12 wp_step.
  set (d1 := d <| timerAnswer_ := _ |> <| mediaSession := _ |> <| releaseRTPPort := _ |> <| mediaSession := _ |> <| rtpSession := _ |> <| answering := _ |> <| ackCarriesAnswer := _ |>).
  assert (mediaSession d1 = Some s1 /\ answering d1 = true /\ ackAnswerErr d1 = None /\ ackCarriesAnswer d1 = true /\ timerAnswer_ d1 = negotiated inv /\ timer d1 = None /\ rtpSession d1 = true /\ outs d1 = outs d)
    as (E1 & A1 & K1 & C1 & T1 & M1 & R1 & O1) by (unfold d1; by split_and!). clearbody d1.
  wp_call (respondSDP_spec e b d1 s1); [done..|]. cbv zeta. rewrite T1, M1, C1, started_none. intros r d' Hr. destruct r as [[]|err| |]; wp_step; try done.
  - destruct Hr as (a & s' & Ec & HA & ->). set (d2 := put _ _ <| mediaSession := _ |> <| state := _ |> <| timer := _ |>). unfold MonitorBackground.
    destruct (c_monitor e) as [err|] eqn:Em; wp_step.
    + split; [done|]. eapply late_monitor with b; [|done]. unfold d2. cbn. by rewrite O1.
    + split; [done|]. split.
      * split; try done.
        -- exists b. unfold d2. cbn. by rewrite O1.
        -- exists s'. split; [done|]. by eapply acked_settled.
        -- intros a' bye. by apply ReadAck_copy.
      * pose proof HA as HA'. unfold acked in HA'. destruct (a_body a) as [body|] eqn:Eb; [|by destruct HA']. destruct HA' as (s2 & HR & HF).
        by exists a, body, s1, s2, s'.
  - destruct Hr as (s' & [(o & ->)|(a & err1 & Ec & HN & Ej & ->)]); (split; [done|]).
    + eapply late_2xx with b; [|done..]. cbn. by rewrite O1.
    + destruct (c_bye e) as [[] be] eqn:Eb; cbn [fst snd] in *; eapply late_ack with b a err1; rewrite ?Eb; try done; cbn; rewrite O1; [by rewrite <- app_assoc|done].
Qed.

End Methods.
End AnswerProps.
