(* ===== verification/AnswerTheorems.v ===== *)
(** * Answering a call: the theorems

    What the application and the caller can rely on when a call is answered, and
    the runs that show the hypotheses can hold. *)
From S2P Require Import Prelude GoStrings NetIP Sdp Codec MediaSdp MediaSession MediaLifecycle MediaSecurity SessionTimer Method Answer AnswerLaws AnswerProps.
Import GoStrings NetIP Sdp Codecs MediaSdp MediaSession SessionTimer SessionTimerProps Method Answer AnswerLaws AnswerProps.

Module AnswerTheorems.

Section Theorems.
Context {cert S : Type} {mo : MediaOps cert S} {laws : MediaLaws mo}.
Context {msg : Type} `{headerGetter msg}.
Abbreviation dialog := (server cert S).
Implicit Type inv : invite (msg := msg).

(** C3. A call that is answered: when [Answer] or [AnswerOptions] returns nil, fresh
    or after early media that was keyed or not, it has sent exactly one 2xx, with
    the headers of the session timer negotiated and with the answer of the 183 if
    there was one; the dialog is confirmed, its media session negotiates nothing any
    more and carries media through its RTP session and its monitor; the session
    timer runs as negotiated; requests no longer wait for the answer; and a copy
    of the ACK changes nothing. *)
Theorem answer_settles_call opt early inv (e : call_env) (d d' : dialog) :
  ready early d -> timerAnswer_ d = None -> answer_call opt inv e d = (d', Return tt) ->
  too_small inv = false /\ settled_call (negotiated inv) early d d'.
Proof. intros Hr Ht E. apply (wp_run _ _ _ _ _ (answer_call_spec opt early inv e d Hr Ht) E). Qed.

(** C9. A call whose answer fails has sent at most one final response: the 422 that
    refuses its session interval, before any media; the 488 of early media whose
    handshake failed; or one 2xx, not acknowledged, or acknowledged with an answer
    that could not be applied, which ends the call by a BYE, or whose media failed
    afterwards. The session timer runs only of a 2xx that was acknowledged, and
    requests no longer wait for the answer. *)
Theorem answer_fails_once opt early inv (e : call_env) (d d' : dialog) err :
  ready early d -> timerAnswer_ d = None -> answer_call opt inv e d = (d', Fail err) ->
  answering d' = false /\
  if too_small inv then outs d' = outs (refused inv d) /\ state d' = Early /\ timer d' = None /\ mediaSession d' = mediaSession d
  else failure (negotiated inv) e d d'.
Proof.
  intros Hr Ht E. destruct (wp_run _ _ _ _ _ (answer_call_spec opt early inv e d Hr Ht) E) as [Ha [(-> & ?)|(-> & ?)]]; done.
Qed.

(** Early media is answered by what it promised: after a [ProgressMedia] that
    keyed it, or left it unkeyed with [ErrEarlyMediaNotKeyed], an answer that
    succeeds sends a 200 with the body of the 183, and its media is then keyed and
    carried. *)
Theorem early_media_answered codecs nat_ opt inv (e1 e2 : call_env) (d d1 d2 : dialog) r :
  ready None d -> timerAnswer_ d = None ->
  ProgressMediaOptions codecs nat_ inv e1 d = (d1, r) -> r = Return tt \/ (exists err, r = Fail err /\ earlyUnkeyed d1 = true) ->
  answer_call opt inv e2 d1 = (d2, Return tt) ->
  (forall err, r = Fail err -> err = ErrEarlyMediaNotKeyed) /\
  exists body s, outs d2 = outs d ++ [Resp 183 [] body; Resp 200 (timer_headers (negotiated inv)) body] /\
    mediaSession d2 = Some s /\ settled s /\ rtpSession d2 = true /\ monitoring d2 = true /\ state d2 = Confirmed.
Proof.
  intros Hr Ht E1 Hcase E2. pose proof (wp_run _ _ _ _ _ (progress_spec codecs nat_ inv e1 d Hr) E1) as HP.
  assert (exists body, ready (Some body) d1 /\ outs d1 = outs d ++ [Resp 183 [] body] /\ timerAnswer_ d1 = timerAnswer_ d /\ forall err, r = Fail err -> err = ErrEarlyMediaNotKeyed)
    as (body & Hr1 & Ho & Ht1 & He).
  { destruct Hcase as [->|(err & -> & Hu)]; cbn in HP.
    - destruct HP as (body & ? & _ & ? & ?). by exists body.
    - destruct (HP Hu) as (body & ? & ? & ? & ?). exists body. split_and!; try done. by intros ? [= <-]. }
  split; [done|]. rewrite <- Ht1 in Ht. destruct (wp_run _ _ _ _ _ (answer_call_spec opt (Some body) inv e2 d1 Hr1 Ht) E2) as [_ [(b & Hb & HB) (s & Es & Hs) [? ?] _ ? _ _ _]].
  exists body, s. rewrite Hb, Ho, (HB body eq_refl), <- app_assoc. done.
Qed.

(** [AnswerLate], whose 2xx carries our offer: it succeeds only on an ACK whose
    answer was applied and whose negotiation has ended, and a dialog whose ACK
    brings none or one that cannot be applied gets a BYE. *)
Theorem late_answer_settled inv (e : call_env) (d d' : dialog) r :
  ready None d -> timerAnswer_ d = None -> AnswerLate inv e d = (d', r) ->
  match r with
  | Return _ => too_small inv = false /\ settled_call (negotiated inv) None d d' /\
      exists a body s0 s1 s', c_ok e = inr a /\ a_body a = Some body /\ mo_RemoteSDP (a_env a) body (mo_expectAnswer s0) = (s1, Ok) /\
        mo_FinalizeContext (a_env a) s1 = Some (s', None) /\ mediaSession d' = Some s'
  | Fail err => answering d' = false /\ late_failure inv e d err d'
  | Panics | Waits => True
  end.
Proof. intros Hr Ht E. pose proof (wp_run _ _ _ _ _ (late_spec inv e d Hr Ht) E) as HP. by destruct r. Qed.

(** What an answer over such a session does. *)
Lemma answer_bare inv (e : call_env) (d : dialog) s : mediaSession d = Some s -> earlyUnkeyed d = false -> earlyAnswerSDP d = None -> ackAnswerErr d = None ->
  timerAnswer_ d = negotiated inv ->
  wp (answerEarlyMedia e) (fun r d' => r = Return tt ->
    rtpSession d' = rtpSession d /\ monitoring d' = monitoring d /\ exists b, outs d' = outs d ++ [Resp 200 (timer_headers (negotiated inv)) b]) d.
Proof.
  intros Es Hu He Ha Ht. unfold answerEarlyMedia. do 3 wp_step. cbn [id]. rewrite Hu, He. wp_step.
  eapply wp_LocalSDP; [done|]. intros s1 b _. unfold RespondSDP, begin_answer. do 5 wp_step.
  set (y := d <| mediaSession := _ |> <| answering := _ |>).
  wp_call (respondSDP_spec e b y s1); [done..|]. intros r z Hz. destruct r as [[]|err| |]; try done. destruct Hz as (a & s' & _ & _ & ->). intros _.
  split; [done|]. split; [done|]. exists b. unfold y. cbn. by rewrite Ht.
Qed.

(** A media session left by a [ProgressMedia] that failed: an answer that succeeds
    then sends the 2xx, but the call gets no RTP session and no monitor. *)
Theorem answer_after_failed_progress opt inv (e : call_env) (d d' : dialog) s :
  mediaSession d = Some s -> earlyUnkeyed d = false -> earlyAnswerSDP d = None -> ackAnswerErr d = None -> timerAnswer_ d = None ->
  answer_call opt inv e d = (d', Return tt) ->
  rtpSession d' = rtpSession d /\ monitoring d' = monitoring d /\ exists b, outs d' = outs d ++ [Resp 200 (timer_headers (negotiated inv)) b].
Proof.
  intros Es Hu He Ha Ht E. set (x := match opt with Some o => d <| onReferDialog := OnRefer o |> <| onMediaUpdate := OnMediaUpdate o |> | None => d end).
  assert (mediaSession x = Some s /\ timerAnswer_ x = None) as [Ex Tx] by (unfold x; by destruct opt).
  pose proof (answer_bare inv e (x <| timerAnswer_ := negotiated inv |>) s) as HB.
  enough (wp (answer_call opt inv e) (fun r d' => r = Return tt -> rtpSession d' = rtpSession d /\ monitoring d' = monitoring d /\
    exists b, outs d' = outs d ++ [Resp 200 (timer_headers (negotiated inv)) b]) d) as HW by (by apply (wp_run _ _ _ _ _ HW E)). clear E.
  destruct opt as [o|]; unfold answer_call, Answer, AnswerOptions; [do 3 wp_step|]; fold x; wp_step; (apply wp_prepare; [done|by intros|]); intros _; do 4 wp_step;
    fold x; set (y := x <| timerAnswer_ := _ |>) in *; (assert (mediaSession y = Some s) as -> by done); by apply HB.
Qed.

End Theorems.

(** ** A call with DTLS media *)

Definition ex_listen (n : nat) (ip : IP) (p : Z) : (UDPAddr * nat) + error := inl ({| ua_IP := ip; ua_Port := p; ua_Zone := EmptyString |}, n).
Definition ex_ops : MediaOps unit (@MediaSession.MediaSession unit (bytes * bytes)) :=
  session_ops MediaSecurity.ex_fp MediaSecurity.ex_ctx (fun _ => 16) (fun _ => true) false ex_listen.
Definition ex_laws : MediaLaws ex_ops := session_laws MediaSecurity.ex_fp MediaSecurity.ex_ctx (fun _ => 16) (fun _ => true) false ex_listen.
#[local] Existing Instance ex_ops | 0.
#[local] Existing Instance ex_laws | 0.

Definition ex_mconf (secure : SecureRTPMode) : MediaConfig unit :=
  {| Codecs := [CodecAudioUlaw]; SecureRTPAlg := None; DTLSConfig_ := if bool_decide (secure = SecureRTPModeDTLS) then Some MediaSecurity.ex_conf else None;
     ICEConfig := None; RTPPortAllocator := true; secureRTP := secure; bindIP := Some [10; 0; 0; 1]; externalIP := None; rtpNAT := 0 |}.
Definition ex_offer : string := write_lines ["v=0"; "o=- 3 4 IN IP4 10.0.0.9"; "s=-"; "c=IN IP4 10.0.0.9"; "t=0 0";
  "m=audio 7004 UDP/TLS/RTP/SAVP 0"; "a=fingerprint:SHA-256 CC:DD"; "a=setup:actpass"; "a=sendrecv"].
Definition ex_plain_answer : string := write_lines ["v=0"; "o=- 3 4 IN IP4 10.0.0.9"; "s=-"; "c=IN IP4 10.0.0.9"; "t=0 0";
  "m=audio 7004 RTP/AVP 0"; "a=sendrecv"].
Definition ex_inv (body : option string) : invite (msg := list header) :=
  {| i_msg := [("Session-Expires", "1800;refresher=uac")]; i_body := body; i_policy := SessionTimerProps.ex_policy |}.
Definition ex_menv (within run : option MediaLifecycle.handshake) : session_env :=
  {| se_init := {| MediaLifecycle.ie_certs := None; MediaLifecycle.ie_agent := inr (ErrNew "unused"); MediaLifecycle.ie_agentInit := None |};
     se_ports := {| MediaLifecycle.RTPPortStart := 0; MediaLifecycle.RTPPortEnd := 0; MediaLifecycle.rtpPortOffset := 0 |}; se_calls := 1;
     se_remote := MediaSecurity.ex_e (inr (ErrNew "unused")); se_local := {| le_savpDisable := false; le_keysalt := []; le_tlsID := "id"; le_ntp := 7 * 2 ^ 32 |};
     se_within := within; se_run := run; se_wait := MediaLifecycle.RunDone; se_handshake := MediaSecurity.ex_hs None |}.
(** The caller keys the media [run], after the wait for early media; its ACK has
    the body [b]. *)
Definition ex_call (within run : option MediaLifecycle.handshake) (b : option string) (monitor : option error) :
    call_env (S := @MediaSession.MediaSession unit (bytes * bytes)) :=
  let m := ex_menv within run in
  {| c_resolve := inr (ErrNew "unused"); c_alloc := inl 5004; c_new := m; c_respond := None;
     c_ok := inr {| a_body := b; a_env := m; a_err := None |}; c_remote := m; c_local := m; c_within := m; c_final := m;
     c_bye := (true, None); c_monitor := monitor |}.
Definition ex_fresh (secure : SecureRTPMode) : server unit (@MediaSession.MediaSession unit (bytes * bytes)) := new_server (ex_mconf secure).
Lemma ex_ready secure : ready None (ex_fresh secure).
Proof. by split. Qed.

Definition ex_keyed_call := ex_call None (Some (MediaSecurity.ex_hs None)) None None.
Lemma result_of {A B} (p : A * B) (r : B) : p.2 = r -> p = (p.1, r).
Proof. by destruct p; intros <-. Qed.
Definition ex_unkeyed := (ProgressMediaOptions None 0 (ex_inv (Some ex_offer)) ex_keyed_call (ex_fresh SecureRTPModeDTLS)).1.
Lemma ex_progress : ProgressMediaOptions None 0 (ex_inv (Some ex_offer)) ex_keyed_call (ex_fresh SecureRTPModeDTLS) = (ex_unkeyed, Fail ErrEarlyMediaNotKeyed).
Proof. unfold ex_unkeyed. match goal with |- ?p = (_, ?r) => refine (result_of p r _) end. vm_compute. reflexivity. Qed.
Lemma ex_is_unkeyed : earlyUnkeyed ex_unkeyed = true.
Proof. vm_compute. reflexivity. Qed.
Definition ex_bad_call := ex_call (Some (MediaSecurity.ex_hs (Some (ErrNew "bad certificate")))) None None None.
Definition ex_failed := (ProgressMediaOptions None 0 (ex_inv (Some ex_offer)) ex_bad_call (ex_fresh SecureRTPModeDTLS)).1.

Ltac result E := match type of E with _ = (_, ?r) => let H := fresh in pose proof (f_equal snd E) as H; vm_compute in H; subst r end.

Lemma answer_settles_call_witness : exists d', answer_call None (ex_inv (Some ex_offer)) ex_keyed_call (ex_fresh SecureRTPModeDTLS) = (d', Return tt) /\
  state d' = Confirmed /\ rtpSession d' = true /\ timer d' = launched <$> negotiated (ex_inv (Some ex_offer)).
Proof.
  destruct (answer_call None (ex_inv (Some ex_offer)) ex_keyed_call (ex_fresh SecureRTPModeDTLS)) as [d' r] eqn:E. result E. exists d'. split; [reflexivity|].
  destruct (answer_settles_call None None (ex_inv (Some ex_offer)) ex_keyed_call (ex_fresh SecureRTPModeDTLS) d') as [_ [_ _ [H1 _] H2 H3 _ _ _]];
    [apply ex_ready|reflexivity|exact E|]. split; [exact H3|]. split; [exact H1|exact H2].
Defined.

Lemma answer_fails_once_witness : exists d' err, answer_call None (ex_inv None) ex_keyed_call (ex_fresh SecureRTPModeNone) = (d', Fail err) /\
  answering d' = false /\ failure (negotiated (ex_inv None)) ex_keyed_call (ex_fresh SecureRTPModeNone) d'.
Proof.
  destruct (answer_call None (ex_inv None) ex_keyed_call (ex_fresh SecureRTPModeNone)) as [d' r] eqn:E. result E. eexists d', _. split; [reflexivity|].
  pose proof (answer_fails_once None None (ex_inv None) ex_keyed_call (ex_fresh SecureRTPModeNone) d' _ (ex_ready _) eq_refl E) as [H1 H2].
  split; [exact H1|]. assert (too_small (ex_inv None) = false) as Ht by (vm_compute; reflexivity). rewrite Ht in H2. exact H2.
Defined.

Lemma early_media_answered_witness : exists d2 body,
  answer_call None (ex_inv (Some ex_offer)) ex_keyed_call ex_unkeyed = (d2, Return tt) /\
  outs d2 = [Resp 183 [] body; Resp 200 (timer_headers (negotiated (ex_inv (Some ex_offer)))) body] /\ monitoring d2 = true.
Proof.
  destruct (answer_call None (ex_inv (Some ex_offer)) ex_keyed_call ex_unkeyed) as [d2 r2] eqn:E2. result E2.
  destruct (early_media_answered None 0 None (ex_inv (Some ex_offer)) ex_keyed_call ex_keyed_call (ex_fresh SecureRTPModeDTLS) ex_unkeyed d2 _
    (ex_ready SecureRTPModeDTLS) eq_refl ex_progress (or_intror (ex_intro _ _ (conj eq_refl ex_is_unkeyed))) E2) as [_ (body & s & H1 & _ & _ & _ & H2 & _)].
  exists d2, body. split; [reflexivity|]. split; [exact H1|exact H2].
Defined.

Lemma late_answer_settled_witness :
  (exists d', AnswerLate (ex_inv None) (ex_call None None (Some ex_plain_answer) None) (ex_fresh SecureRTPModeNone) = (d', Return tt) /\ state d' = Confirmed) /\
  exists d' err, AnswerLate (ex_inv None) (ex_call None None None None) (ex_fresh SecureRTPModeNone) = (d', Fail err) /\
    late_failure (ex_inv None) (ex_call None None None None) (ex_fresh SecureRTPModeNone) err d'.
Proof.
  split.
  - destruct (AnswerLate (ex_inv None) (ex_call None None (Some ex_plain_answer) None) (ex_fresh SecureRTPModeNone)) as [d' r] eqn:E. result E. exists d'.
    split; [reflexivity|]. destruct (late_answer_settled (ex_inv None) (ex_call None None (Some ex_plain_answer) None) (ex_fresh SecureRTPModeNone) d' _ (ex_ready _) eq_refl E)
      as (_ & [_ _ _ _ H _ _ _] & _). exact H.
  - destruct (AnswerLate (ex_inv None) (ex_call None None None None) (ex_fresh SecureRTPModeNone)) as [d' r] eqn:E. result E. eexists d', _.
    split; [reflexivity|]. exact (proj2 (late_answer_settled (ex_inv None) (ex_call None None None None) (ex_fresh SecureRTPModeNone) d' _ (ex_ready _) eq_refl E)).
Defined.

(** The certificate of the caller does not match its fingerprint: [ProgressMedia]
    fails, and [Answer] returns nil. *)
Lemma answer_after_failed_progress_witness : exists d', answer_call None (ex_inv (Some ex_offer)) ex_keyed_call ex_failed = (d', Return tt) /\ rtpSession d' = false.
Proof.
  destruct (answer_call None (ex_inv (Some ex_offer)) ex_keyed_call ex_failed) as [d' r] eqn:E. result E. exists d'. split; [reflexivity|].
  assert (is_Some (mediaSession ex_failed)) as [s Es] by (vm_compute; eexists; reflexivity).
  destruct (answer_after_failed_progress None (ex_inv (Some ex_offer)) ex_keyed_call ex_failed d' s Es) as [H _]; [vm_compute; reflexivity..|exact E|].
  rewrite H. vm_compute. reflexivity.
Defined.

End AnswerTheorems.
