(* ===== verification/TwoParty.v ===== *)
(** * The two-party bridge

    [Bridge] of [bridge.go]: who may join, the proxy between the two dialogs and
    its end, and the copy loop of [media/rtp_utils.go] each direction runs. A
    dialog is a number; what the bridge reads of it, its [dialog], is an argument.
    The proxy is a transition system of [proxyWait] and its two directions, each
    of which reads a frame of its dialog and writes it to the other. *)
From S2P Require Import Prelude Codec BridgeMix.
Import Codecs.

Module TwoParty.

(** ** Joining *)

Record dialog := {
  hasMedia : bool;
  audioCodec : Codec;
  RTPPacketReader : bool;
  RTPPacketWriter : bool }.

Record Bridge := {
  Originator : option nat;
  dialogs : list nat;
  (** The dialogs of the proxy started last. *)
  proxy : option (list nat);
  WaitDialogsNum : Z }.
#[export] Instance eta_bridge : Eta Bridge := fun b =>
  {| Originator := Originator b; dialogs := dialogs b; proxy := proxy b; WaitDialogsNum := WaitDialogsNum b |}.

Definition errBridgeNoTranscoding : error := ErrNew "no transcoding supported in bridge".
Definition errNoMedia : error := ErrNew "dialog session has no media".
Definition errTwoParty : error := ErrNew "currently bridge only support 2 party".
Definition errNotAnswered : error := ErrNew "dialog session not answered".

Definition bridgeCodecErr (c1 c2 : Codec) : option error :=
  if bool_decide (c1 <> c2) then Some (ErrWrap "codecs differ" errBridgeNoTranscoding) else None.

Definition Init (b : Bridge) : Bridge := if WaitDialogsNum b =? 0 then b <| WaitDialogsNum := 2 |> else b.
Definition NewBridge : Bridge := Init {| Originator := None; dialogs := []; proxy := None; WaitDialogsNum := 0 |}.

(** [AddDialogSession]; the proxy it starts runs on [proxy]. *)
Definition AddDialogSession (e : nat -> dialog) (d : nat) (b : Bridge) : Bridge * option error :=
  if negb (hasMedia (e d)) then (b, Some errNoMedia)
  else
    match Originator b ≫= fun o => bridgeCodecErr (audioCodec (e o)) (audioCodec (e d)) with
    | Some err => (b, Some err)
    | None =>
      let ds := dialogs b ++ [d] in
      if (WaitDialogsNum b <=? len ds) && (2 <? len ds) then (b, Some errTwoParty)
      else if (WaitDialogsNum b <=? len ds) && existsb (fun d => negb (RTPPacketReader (e d)) || negb (RTPPacketWriter (e d))) ds then (b, Some errNotAnswered)
      else
        let b := b <| dialogs := ds |> in
        let b := if len ds =? 1 then b <| Originator := Some d |> else b in
        if len ds <? WaitDialogsNum b then (b, None)
        else (b <| proxy := Some ds |>, None)
    end.

(** [proxyDialogs], what a proxy started by hand runs on. *)
Definition proxyDialogs (b : Bridge) : list nat + error :=
  if len (dialogs b) <? 2 then inr (ErrNew "number of dialogs must equal to 2")
  else if WaitDialogsNum b <? 3 then inr (ErrNew "you are already running proxy media. Increase WaitDialogsNum")
  else inl (dialogs b).

(** The start of [proxyMedia]: the two dialogs it runs between, or the error it
    ends with; [None] is the panic of an index out of range. *)
Definition proxyMedia_start (e : nat -> dialog) (ds : list nat) : option (nat * nat + error) :=
  match ds !! 0%nat, ds !! 1%nat with
  | Some d1, Some d2 =>
    match bridgeCodecErr (audioCodec (e d1)) (audioCodec (e d2)) with
    | Some err => Some (inr err)
    | None => Some (inl (d1, d2))
    end
  | _, _ => None
  end.

(** ** Copying *)

(** [CopyWithBuf] over what the reader gives, in order; the result is [None] when
    it still waits for more. *)
Section Copy.
Context {W : Type} (Write : W -> bytes -> W * Z * option error).

Fixpoint CopyWithBuf (reads : list (bytes * option error)) (totalWritten : Z) (w : W) {struct reads} : W * option (Z * error) :=
  match reads with
  | [] => (w, None)
  | (b, Some err) :: _ => (w, Some (totalWritten, err))
  | (b, None) :: reads =>
    let '(w, nn, werr) := Write w b in
    match werr with
    | Some err => (w, Some (totalWritten, err))
    | None =>
      let totalWritten := i64 (totalWritten + nn) in
      if len b <? nn then (w, Some (totalWritten, io_ErrShortWrite)) else CopyWithBuf reads totalWritten w
    end
  end.

End Copy.

(** ** The proxy *)

Definition os_ErrDeadlineExceeded : error := ErrNew "i/o timeout".

(** One direction, [proxyMediaBackground]: in a read, about to write what it read,
    or done with its result sent. *)
Inductive direction := Reading | Writing (f : nat) | Sent.
#[export] Instance direction_eq_dec : EqDecision direction.
Proof. solve_decision. Defined.

(** [proxyWait]: waiting, stopping the reads of the dialog [k], draining [running]
    results, clearing the deadline of the dialog [k], returned. *)
Inductive waiting := Waiting | Stopping (k : nat) (running : nat) | Draining (running : nat) | Clearing (k : nat) | Returned.

Record proxy_state := {
  wait : waiting;
  (** The errors so far, which [errors.Join] collects. *)
  err : list error;
  stopErr : list error;
  startErr : list error;
  (** Direction [i] reads the dialog [i]; the channel of results. *)
  dirs : list direction;
  errCh : list (option error);
  (** The read deadlines set, the dialogs ended, their media closed. *)
  deadlines : list bool;
  ended : list bool;
  mediaClosed : list bool;
  stopping : bool;
  mismatch : option error;
  (** The frames read of each dialog and those written to the other. *)
  frames : list (list nat);
  written : list (list nat) }.
#[export] Instance eta_proxy_state : Eta proxy_state := fun p =>
  {| wait := wait p; err := err p; stopErr := stopErr p; startErr := startErr p; dirs := dirs p; errCh := errCh p; deadlines := deadlines p; ended := ended p; mediaClosed := mediaClosed p;
     stopping := stopping p; mismatch := mismatch p; frames := frames p; written := written p |}.

Definition proxy_start : proxy_state :=
  {| wait := Waiting; err := []; stopErr := []; startErr := []; dirs := [Reading; Reading]; errCh := []; deadlines := [false; false]; ended := [false; false]; mediaClosed := [false; false];
     stopping := false; mismatch := None; frames := [[]; []]; written := [[]; []] |}.

Definition flag (l : list bool) (i : nat) : bool := default false (l !! i).
Definition add_err (l : list error) (e : option error) : list error := l ++ match e with Some e => [e] | None => [] end.

(** What a direction sends as its result: a deadline ends it without an error. *)
Definition result (e : error) : option error := if errors_Is e os_ErrDeadlineExceeded then None else Some e.

Definition send (i : nat) (e : error) (p : proxy_state) : proxy_state :=
  p <| dirs := <[i := Sent]> (dirs p) |> <| errCh := errCh p ++ [result e] |>.

(** How a read of a dialog ends: with a deadline set it times out, closed media
    fails it, and it can fail by itself. *)
Inductive act :=
| ARead (i f : nat)
| AReadFails (i : nat) (e : error)
| ATimeout (i : nat)
| AClosed (i : nat)
| AWrite (i : nat)
| AWriteFails (i : nat) (e : error)
(** The cases of [proxyWait]'s select, then its other steps. *)
| AResult | AMismatch | ADialog (k : nat) | AStopping
| AStop (ctl : option error) | ADrain | AClear (ctl : option error)
(** What happens outside. *)
| AEnd (k : nat) | AClose (k : nat) | AStopCall | ACodec (e : error).

(** A stop or start of the reads of a dialog with closed media fails with
    [net.ErrClosed], which [bridgeRTPControlErr] drops. *)
Definition astep (a : act) (p : proxy_state) : option proxy_state :=
  match a with
  | ARead i f =>
    if bool_decide (dirs p !! i = Some Reading) && negb (flag (deadlines p) i) && negb (flag (mediaClosed p) i)
    then Some (p <| dirs := <[i := Writing f]> (dirs p) |> <| frames := alter (fun l => l ++ [f]) i (frames p) |>) else None
  | AReadFails i e => if bool_decide (dirs p !! i = Some Reading) then Some (send i e p) else None
  | ATimeout i => if bool_decide (dirs p !! i = Some Reading) && flag (deadlines p) i then Some (send i os_ErrDeadlineExceeded p) else None
  | AClosed i => if bool_decide (dirs p !! i = Some Reading) && flag (mediaClosed p) i then Some (send i net_ErrClosed p) else None
  | AWrite i =>
    match dirs p !! i with
    | Some (Writing f) => Some (p <| dirs := <[i := Reading]> (dirs p) |> <| written := alter (fun l => l ++ [f]) i (written p) |>)
    | _ => None
    end
  | AWriteFails i e =>
    match dirs p !! i with
    | Some (Writing _) => Some (send i e p)
    | _ => None
    end
  | AResult =>
    match wait p, errCh p with
    | Waiting, e :: l => Some (p <| wait := Stopping 0 1 |> <| err := add_err (err p) e |> <| errCh := l |>)
    | _, _ => None
    end
  | AMismatch =>
    match wait p, mismatch p with
    | Waiting, Some e => Some (p <| wait := Stopping 0 2 |> <| err := add_err (err p) (Some e) |> <| mismatch := None |>)
    | _, _ => None
    end
  | ADialog k =>
    match wait p with
    | Waiting => if flag (ended p) k then Some (p <| wait := Stopping 0 2 |>) else None
    | _ => None
    end
  | AStopping =>
    match wait p with
    | Waiting => if stopping p then Some (p <| wait := Stopping 0 2 |>) else None
    | _ => None
    end
  | AStop ctl =>
    match wait p with
    | Stopping k running =>
      (* The deadline is set unless the control failed, as it does on closed media. *)
      if bool_decide (ctl <> None) && negb (flag (mediaClosed p) k) then None
      else
        let p := match ctl with None => p <| deadlines := <[k := true]> (deadlines p) |> | Some _ => p end in
        Some (p <| stopErr := add_err (stopErr p) (BridgeMix.bridgeRTPControlErr ctl) |> <| wait := if Nat.ltb (S k) 2 then Stopping (S k) running else Draining running |>)
    | _ => None
    end
  | ADrain =>
    match wait p with
    | Draining 0 => Some (p <| wait := Clearing 0 |>)
    | Draining (S n) => match errCh p with e :: l => Some (p <| wait := Draining n |> <| err := add_err (err p) e |> <| errCh := l |>) | [] => None end
    | _ => None
    end
  | AClear ctl =>
    match wait p with
    | Clearing k =>
      if bool_decide (ctl <> None) && negb (flag (mediaClosed p) k) then None
      else
        let p := match ctl with None => p <| deadlines := <[k := false]> (deadlines p) |> | Some _ => p end in
        Some (p <| startErr := add_err (startErr p) (BridgeMix.bridgeRTPControlErr ctl) |> <| wait := if Nat.ltb (S k) 2 then Clearing (S k) else Returned |>)
    | _ => None
    end
  | AEnd k => Some (p <| ended := <[k := true]> (ended p) |>)
  | AClose k => Some (p <| mediaClosed := <[k := true]> (mediaClosed p) |>)
  | AStopCall => Some (p <| stopping := true |>)
  | ACodec e => Some (match mismatch p with Some _ => p | None => p <| mismatch := Some e |> end)
  end.

(** The errors [proxyWait] returns, joined: none is nil. *)
Definition proxy_result (p : proxy_state) : list error := err p ++ stopErr p ++ startErr p.

(** The steps of the proxy itself, as opposed to what happens outside. *)
Definition internal (a : act) : bool := match a with AEnd _ | AClose _ | AStopCall | ACodec _ => false | _ => true end.

Inductive proxy_reachable : proxy_state -> Prop :=
| r_start : proxy_reachable proxy_start
| r_step p a p' : proxy_reachable p -> astep a p = Some p' -> proxy_reachable p'.

End TwoParty.
