(* ===== verification/TwoPartyProps.v ===== *)
(** * The two-party bridge: theorems

    Who joins, what the copy loop passes on, and that a proxy that has a reason to
    end does so with both directions done and the dialogs readable again. *)
From S2P Require Import Prelude Codec TwoParty.
Import Codecs TwoParty.

Module TwoPartyProps.

(** ** Joining *)

Lemma codec_err_none c1 c2 : bridgeCodecErr c1 c2 = None <-> c1 = c2.
Proof. unfold bridgeCodecErr. case_bool_decide; split; try done. Qed.

(** The bridges that joins make out of a fresh one that waits for at least two. *)
Inductive bridge_joined : Bridge -> Prop :=
| j_fresh n : 2 <= n -> bridge_joined {| Originator := None; dialogs := []; proxy := None; WaitDialogsNum := n |}
| j_join b e d : bridge_joined b -> bridge_joined (AddDialogSession e d b).1.

Lemma joined_inv b : bridge_joined b -> 2 <= WaitDialogsNum b /\ Originator b = head (dialogs b).
Proof.
  induction 1 as [n Hn|b e d Hb [IH1 IH2]]; [done|]. unfold AddDialogSession. destruct (negb _); [done|].
  destruct (Originator b ≫= _) as [err|]; [done|]. destruct (_ && (2 <? _)); [done|]. destruct (_ && existsb _ _); [done|].
  set (ds := dialogs b ++ [d]). destruct (Z.eqb_spec (len ds) 1) as [E|E].
  - assert (dialogs b = []) as E' by (unfold ds, len in E; rewrite length_app in E; cbn in E; destruct (dialogs b); [done|cbn in E; lia]).
    unfold ds in *. rewrite E' in *. cbn in *. by destruct (_ <? _).
  - assert (head ds = head (dialogs b)) as E' by (unfold ds, len in *; destruct (dialogs b); [cbn in E; lia|done]).
    cbn. destruct (len ds <? WaitDialogsNum b); cbn; by rewrite E'.
Qed.

(** A join: refused, it leaves the bridge as it was; accepted, the dialog has
    media and the codec of the originator, and comes last. When it is the one the
    bridge waits for, the proxy it starts runs between exactly two dialogs that are
    answered and have the same codec, so it neither panics nor ends at once. *)
Theorem join_starts_sound_proxy e d b b' err :
  bridge_joined b -> AddDialogSession e d b = (b', err) ->
  (err <> None -> b' = b) /\
  (err = None -> hasMedia (e d) = true /\ dialogs b' = dialogs b ++ [d] /\
     (forall o, head (dialogs b) = Some o -> audioCodec (e o) = audioCodec (e d)) /\
     (WaitDialogsNum b <= len (dialogs b') ->
        exists d1, dialogs b' = [d1; d] /\ proxy b' = Some [d1; d] /\ proxyMedia_start e [d1; d] = Some (inl (d1, d)) /\
        forall x, x ∈ [d1; d] -> RTPPacketReader (e x) = true /\ RTPPacketWriter (e x) = true) /\
     (len (dialogs b') < WaitDialogsNum b -> proxy b' = proxy b)).
Proof.
  intros Hj. destruct (joined_inv b Hj) as [Hn Ho]. unfold AddDialogSession. destruct (hasMedia (e d)) eqn:Hm; cbn [negb]; [|by intros [= <- <-]].
  destruct (Originator b ≫= _) as [err'|] eqn:Hc; [by intros [= <- <-]|]. set (ds := dialogs b ++ [d]).
  destruct ((WaitDialogsNum b <=? len ds) && (2 <? len ds)) eqn:E1; [by intros [= <- <-]|].
  destruct ((WaitDialogsNum b <=? len ds) && existsb _ ds) eqn:E2; [by intros [= <- <-]|].
  assert (forall o, head (dialogs b) = Some o -> audioCodec (e o) = audioCodec (e d)) as Hcodec.
  { intros o Eo. rewrite Ho, Eo in Hc. by apply codec_err_none in Hc. }
  assert (forall b1, dialogs b1 = ds -> proxy b1 = proxy b -> WaitDialogsNum b1 = WaitDialogsNum b ->
    (if len ds <? WaitDialogsNum b1 then (b1, None) else (b1 <| proxy := Some ds |>, None)) = (b', err) ->
    err = None /\ dialogs b' = ds /\ proxy b' = if len ds <? WaitDialogsNum b then proxy b else Some ds) as Hend.
  { intros b1 B1 B2 B3. rewrite B3. destruct (len ds <? WaitDialogsNum b); intros [= <- <-]; done. }
  intros E. assert (err = None /\ dialogs b' = ds /\ proxy b' = if len ds <? WaitDialogsNum b then proxy b else Some ds) as (-> & Ed & Ep).
  { revert E. destruct (len ds =? 1); by apply Hend. }
  split; [done|]. intros _. split; [done|]. split; [done|]. split; [done|]. rewrite Ed. split.
  - intros Hw. apply Z.leb_le in Hw as Hw'. rewrite Hw' in E1, E2. cbn in E1, E2.
    assert (exists d1, dialogs b = [d1]) as (d1 & E3).
    { apply Z.ltb_ge in E1. unfold ds, len in E1, Hw. rewrite length_app in E1, Hw. cbn in E1, Hw. destruct (dialogs b) as [|d1 [|]]; cbn in *; try lia. by exists d1. }
    exists d1. unfold ds in *. rewrite E3 in *. cbn in Ed, Ep, E2 |- *. split; [done|].
    assert ((len [d1; d] <? WaitDialogsNum b) = false) as E4 by (apply Z.ltb_ge; done). split; [by rewrite Ep; cbn in E4; rewrite E4|].
    split; [unfold proxyMedia_start; cbn; by rewrite (proj2 (codec_err_none _ _) (Hcodec d1 eq_refl))|].
    rewrite orb_false_r in E2. apply orb_false_iff in E2 as [F1 F2]. apply orb_false_iff in F1 as [F1 F3]. apply orb_false_iff in F2 as [F2 F4].
    intros x [->|[->|[]%elem_of_nil]%elem_of_cons]%elem_of_cons; by rewrite <- !negb_false_iff.
  - intros Hl. rewrite Ep. by apply Z.ltb_lt in Hl as ->.
Qed.

(** A bridge set to wait for one dialog starts its proxy on that one, and the proxy
    indexes past it. *)
Lemma waiting_for_one_panics e d : hasMedia (e d) = true -> RTPPacketReader (e d) = true -> RTPPacketWriter (e d) = true ->
  exists b', AddDialogSession e d (Init {| Originator := None; dialogs := []; proxy := None; WaitDialogsNum := 1 |}) = (b', None) /\
  proxy b' = Some [d] /\ proxyMedia_start e [d] = None.
Proof. intros H1 H2 H3. unfold AddDialogSession. cbn. rewrite H1, H2, H3. cbn. eexists. split; [done|done]. Qed.

(** ** Copying *)

Lemma i64_plus a b : i64 (i64 a + b) = i64 (a + b).
Proof.
  unfold i64. f_equal. replace ((a + 2 ^ 63) mod 2 ^ 64 - 2 ^ 63 + b + 2 ^ 63) with ((a + 2 ^ 63) mod 2 ^ 64 + b) by lia.
  rewrite Zplus_mod_idemp_l. f_equal. lia.
Qed.

Section Copying.
Context {W : Type} (Write : W -> bytes -> W * Z * option error).
(** A writer that writes the whole of what it is given, or fails. *)
Hypothesis Write_whole : forall w b, (Write w b).2 = None -> (Write w b).1.2 = len b.

Definition writes (l : list bytes) (w : W) : W := fold_left (fun w b => (Write w b).1.1) l w.
Definition lens (l : list bytes) : Z := fold_right (fun b n => len b + n) 0 l.

Lemma copy_from total reads w :
  exists fs rest, reads = map (fun b => (b, None)) fs ++ rest /\
  match CopyWithBuf Write reads (i64 total) w with
  | (w', None) => rest = [] /\ w' = writes fs w
  | (w', Some (n, e)) => n = i64 (total + lens fs) /\
      exists b r rest', rest = (b, r) :: rest' /\
        match r with Some e' => e = e' /\ w' = writes fs w | None => Write (writes fs w) b = (w', (Write (writes fs w) b).1.2, Some e) end
  end.
Proof.
  revert total w. induction reads as [|[b [e|]] reads IH]; intros total w; cbn [CopyWithBuf].
  - exists [], []. done.
  - exists [], ((b, Some e) :: reads). split; [done|]. cbn. rewrite Z.add_0_r. split; [done|]. exists b, (Some e), reads. done.
  - destruct (Write w b) as [[w1 nn] [e|]] eqn:Hw.
    + exists [], ((b, None) :: reads). split; [done|]. cbn. rewrite Z.add_0_r. split; [done|]. exists b, None, reads. split; [done|]. by rewrite Hw.
    + assert (nn = len b) as -> by (pose proof (Write_whole w b) as Hl; rewrite Hw in Hl; by apply Hl).
      rewrite Z.ltb_irrefl. rewrite i64_plus. destruct (IH (total + len b) w1) as (fs & rest & E & H). exists (b :: fs), rest. split; [by rewrite E|].
      cbn [writes fold_left lens fold_right]. rewrite Hw. cbn [fst]. fold (writes fs w1). fold (lens fs). rewrite Z.add_assoc. done.
Qed.

(** What a direction of the bridge copies: over any sequence of reads, every
    frame read before the first error is written, whole and in order, and nothing
    else is; the loop ends with the first error of a read or a write and with the
    count of the bytes written before, and as long as there is none it goes on. *)
Theorem copy_forwards_in_order reads w :
  exists fs rest, reads = map (fun b => (b, None)) fs ++ rest /\
  match CopyWithBuf Write reads 0 w with
  | (w', None) => rest = [] /\ w' = writes fs w
  | (w', Some (n, e)) => n = i64 (lens fs) /\
      exists b r rest', rest = (b, r) :: rest' /\
        match r with Some e' => e = e' /\ w' = writes fs w | None => Write (writes fs w) b = (w', (Write (writes fs w) b).1.2, Some e) end
  end.
Proof. apply (copy_from 0). Qed.

End Copying.

(** A writer that takes part of what it is given without an error: the loop, which
    compares the two counts the wrong way round, goes on and the rest is lost. *)
Definition short_write (w : list bytes) (b : bytes) : list bytes * Z * option error := (w ++ [take 1 b], len (take 1 b), None).
Lemma short_write_unnoticed : CopyWithBuf short_write [([1; 2; 3], None); ([4; 5], None); ([], Some io_EOF)] 0 [] = ([[1]; [4]], Some (2, io_EOF)).
Proof. vm_compute. reflexivity. Qed.

(** ** The proxy *)

Definition is_sent (d : direction) : nat := match d with Sent => 1 | _ => 0 end.
Definition sent (p : proxy_state) : nat := list_sum (map is_sent (dirs p)).
(** The steps a direction can still take once its reads are stopped. *)
Definition dir_work (d : direction) : nat := match d with Reading => 1 | Writing _ => 2 | Sent => 0 end.
Definition todo (p : proxy_state) : nat := list_sum (map dir_work (dirs p)).

(** The reads of a dialog end: its deadline is set or its media closed. *)
Definition halted (p : proxy_state) (i : nat) : Prop := flag (deadlines p) i = true \/ flag (mediaClosed p) i = true.
Definition readable (p : proxy_state) (i : nat) : Prop := flag (deadlines p) i = false \/ flag (mediaClosed p) i = true.

(** How the frames read of a dialog relate to those written to the other. *)
Definition passed_on (d : direction) (fr wr : list nat) : Prop :=
  match d with Reading => fr = wr | Writing f => fr = wr ++ [f] | Sent => fr = wr \/ exists f, fr = wr ++ [f] end.

Record pinv (p : proxy_state) : Prop := {
  pi_lengths : length (dirs p) = 2%nat /\ length (deadlines p) = 2%nat /\ length (mediaClosed p) = 2%nat /\ length (frames p) = 2%nat /\ length (written p) = 2%nat;
  pi_results :
    match wait p with
    | Waiting => length (errCh p) = sent p
    | Stopping k r => (k < 2)%nat /\ (r <= 2)%nat /\ (length (errCh p) + 2 = sent p + r)%nat
    | Draining r => (r <= 2)%nat /\ (length (errCh p) + 2 = sent p + r)%nat
    | Clearing k => (k < 2)%nat /\ sent p = 2%nat /\ errCh p = []
    | Returned => sent p = 2%nat /\ errCh p = []
    end;
  pi_halted : forall i, (i < 2)%nat ->
    match wait p with
    | Waiting => True
    | Stopping k _ => (i < k)%nat -> halted p i
    | Draining _ => halted p i
    | Clearing k => (i < k)%nat -> readable p i
    | Returned => readable p i
    end;
  pi_passed : forall i d fr wr, dirs p !! i = Some d -> frames p !! i = Some fr -> written p !! i = Some wr -> passed_on d fr wr }.

Lemma sum_insert (f : direction -> nat) l i d d' : l !! i = Some d -> (list_sum (map f (<[i := d']> l)) + f d = list_sum (map f l) + f d')%nat.
Proof.
  revert i. induction l as [|x l IH]; intros [|i] H; [done|done|injection H as ->; cbn; lia|]. specialize (IH i H).
  change (list_sum (map f (<[S i := d']> (x :: l)))) with (f x + list_sum (map f (<[i := d']> l)))%nat. change (list_sum (map f (x :: l))) with (f x + list_sum (map f l))%nat. lia.
Qed.

Lemma sum_sent_le l : length l = 2%nat -> (list_sum (map is_sent l) <= 2)%nat.
Proof. destruct l as [|[] [|[] [|]]]; cbn; lia. Qed.

(** A direction moves: its results and frames stay in step. *)
Lemma pinv_dir p i d d' res fr wr : pinv p -> dirs p !! i = Some d -> d <> Sent -> length res = is_sent d' ->
  (forall fr0 wr0, frames p !! i = Some fr0 -> written p !! i = Some wr0 -> passed_on d fr0 wr0 -> passed_on d' (fr fr0) (wr wr0)) ->
  pinv (p <| dirs := <[i := d']> (dirs p) |> <| errCh := errCh p ++ res |> <| frames := alter fr i (frames p) |> <| written := alter wr i (written p) |>).
Proof.
  intros [H1 H2 H3 H4] Hi Hd Hres Hp. set (q := p <| dirs := _ |> <| errCh := _ |> <| frames := _ |> <| written := _ |>).
  assert (dirs q = <[i := d']> (dirs p)) as Q1 by done. assert (errCh q = errCh p ++ res) as Q2 by done. assert (frames q = alter fr i (frames p)) as Q3 by done.
  assert (written q = alter wr i (written p)) as Q4 by done. assert (wait q = wait p) as Q5 by done. assert (deadlines q = deadlines p) as Q6 by done.
  assert (mediaClosed q = mediaClosed p) as Q7 by done. clearbody q.
  pose proof (sum_insert is_sent (dirs p) i d d' Hi) as E. pose proof (sum_insert is_sent (dirs p) i d Sent Hi) as E'. assert (is_sent d = 0%nat) as Ed by (by destruct d).
  assert (list_sum (map is_sent (<[i := Sent]> (dirs p))) <= 2)%nat as Hle by (apply sum_sent_le; rewrite length_insert; apply H1).
  assert (sent q = sent p + is_sent d')%nat as Hs by (unfold sent; rewrite Q1; lia). assert (sent p < 2)%nat as Hlt by (unfold sent; cbn [is_sent] in E'; lia).
  constructor.
  - rewrite Q1, Q3, Q4, Q6, Q7, length_insert, !length_alter. exact H1.
  - rewrite Q5, Q2, Hs, length_app, Hres. destruct (wait p); try (destruct H2; lia); lia.
  - intros j Hj. specialize (H3 j Hj). unfold halted, readable in *. rewrite Q5, Q6, Q7. destruct (wait p); exact H3.
  - intros j x frj wrj. rewrite Q1, Q3, Q4. destruct (decide (i = j)) as [<-|Hj].
    + rewrite list_lookup_insert_eq by (by eapply lookup_lt_Some). rewrite !list_lookup_alter_eq. intros [= <-].
      destruct (frames p !! i) as [fr0|] eqn:E1; cbn; [|done]. destruct (written p !! i) as [wr0|] eqn:E2; cbn; [|done]. intros [= <-] [= <-]. apply Hp; [done..|by eapply H4].
    + rewrite list_lookup_insert_ne, !list_lookup_alter_ne by done. apply H4.
Qed.

(** A step that leaves the directions alone. *)
Lemma pinv_same p p' : pinv p -> dirs p' = dirs p -> frames p' = frames p -> written p' = written p -> errCh p' = errCh p -> wait p' = wait p -> deadlines p' = deadlines p ->
  length (mediaClosed p') = length (mediaClosed p) -> (forall i, flag (mediaClosed p) i = true -> flag (mediaClosed p') i = true) -> pinv p'.
Proof.
  intros [H1 H2 H3 H4] E1 E2 E3 E4 E5 E6 E7 E8. constructor; rewrite ?E1, ?E2, ?E3, ?E4, ?E5, ?E6, ?E7; try done.
  - unfold sent in *. by rewrite E1.
  - intros i Hi. specialize (H3 i Hi). unfold halted, readable in *. rewrite E6. destruct (wait p); naive_solver.
Qed.

(** Frames that are not touched. *)
Lemma alter_same (i : nat) (l : list (list nat)) : alter (fun x => x) i l = l.
Proof. apply list_eq. intros j. destruct (decide (i = j)) as [<-|]; [rewrite list_lookup_alter_eq; by destruct (l !! i)|by rewrite list_lookup_alter_ne]. Qed.

Lemma pinv_send p i d e : pinv p -> dirs p !! i = Some d -> d <> Sent -> pinv (send i e p).
Proof.
  intros H Hi Hd. pose proof (pinv_dir p i d Sent [result e] (fun x => x) (fun x => x) H Hi Hd eq_refl) as G.
  assert (pinv (p <| dirs := <[i := Sent]> (dirs p) |> <| errCh := errCh p ++ [result e] |> <| frames := alter (fun x => x) i (frames p) |> <| written := alter (fun x => x) i (written p) |>)) as G'.
  { apply G. intros fr wr _ _. destruct d; cbn; [by left|by right; eauto|done]. }
  revert G'. rewrite !alter_same. by destruct p.
Qed.

(** A step of [proxyWait], with the directions as they are. *)
Lemma pinv_wait p p' : pinv p -> dirs p' = dirs p -> frames p' = frames p -> written p' = written p -> length (deadlines p') = 2%nat -> mediaClosed p' = mediaClosed p ->
  match wait p' with
  | Waiting => length (errCh p') = sent p
  | Stopping k r => (k < 2)%nat /\ (r <= 2)%nat /\ (length (errCh p') + 2 = sent p + r)%nat
  | Draining r => (r <= 2)%nat /\ (length (errCh p') + 2 = sent p + r)%nat
  | Clearing k => (k < 2)%nat /\ sent p = 2%nat /\ errCh p' = []
  | Returned => sent p = 2%nat /\ errCh p' = []
  end ->
  (forall i, (i < 2)%nat -> match wait p' with
    | Waiting => True
    | Stopping k _ => (i < k)%nat -> halted p' i
    | Draining _ => halted p' i
    | Clearing k => (i < k)%nat -> readable p' i
    | Returned => readable p' i
    end) -> pinv p'.
Proof.
  intros [H1 H2 H3 H4] E1 E2 E3 E4 E5 G2 G3. constructor; rewrite ?E1, ?E2, ?E3, ?E5; try done; [by destruct H1 as (? & ? & ? & ? & ?)|].
  replace (sent p') with (sent p) by (unfold sent; by rewrite E1). done.
Qed.

Lemma halted_set p k i p' : deadlines p' = <[k := true]> (deadlines p) -> mediaClosed p' = mediaClosed p -> length (deadlines p) = 2%nat -> (i < 2)%nat -> halted p i \/ i = k -> halted p' i.
Proof.
  intros E1 E2 L Hi H. unfold halted, flag in *. rewrite E1, E2. destruct (decide (k = i)) as [<-|]; [left; by rewrite list_lookup_insert_eq by lia|].
  rewrite list_lookup_insert_ne by done. naive_solver.
Qed.
Lemma readable_set p k i p' : deadlines p' = <[k := false]> (deadlines p) -> mediaClosed p' = mediaClosed p -> length (deadlines p) = 2%nat -> (i < 2)%nat -> readable p i \/ i = k -> readable p' i.
Proof.
  intros E1 E2 L Hi H. unfold readable, flag in *. rewrite E1, E2. destruct (decide (k = i)) as [<-|]; [left; by rewrite list_lookup_insert_eq by lia|].
  rewrite list_lookup_insert_ne by done. naive_solver.
Qed.

Lemma stop_pinv p k r ctl p' : pinv p -> wait p = Stopping k r -> astep (AStop ctl) p = Some p' -> pinv p'.
Proof.
  intros H Hw Hs. cbn [astep] in Hs. rewrite Hw in Hs. destruct (bool_decide (ctl <> None) && negb (flag (mediaClosed p) k)) eqn:Hc; [done|].
  pose proof H as [(L1 & L2 & L3 & L4 & L5) H2 H3 H4]. rewrite Hw in H2, H3. destruct H2 as (K & R & E).
  assert (forall q, dirs q = dirs p -> frames q = frames p -> written q = written p -> errCh q = errCh p -> mediaClosed q = mediaClosed p -> length (deadlines q) = 2%nat ->
    (forall i, (i < 2)%nat -> halted p i \/ i = k -> halted q i) -> wait q = (if Nat.ltb (S k) 2 then Stopping (S k) r else Draining r) -> pinv q) as Hq.
  { intros q Q1 Q2 Q3 Q4 Q5 Q6 Q7 Q8. eapply (pinv_wait p); try done; rewrite Q8, ?Q4; destruct (Nat.ltb_spec (S k) 2); try (split_and!; lia).
    - intros i Hi Hlt. apply Q7; [done|]. destruct (decide (i = k)); [by right|left]. apply H3; [done|lia].
    - intros i Hi. apply Q7; [done|]. destruct (decide (i = k)); [by right|left]. apply H3; [done|lia]. }
  destruct ctl as [e|]; injection Hs as <-; apply Hq; try done.
  - intros i Hi [Hh| ->]; [exact Hh|]. right. cbn. cbn in Hc. by apply negb_false_iff in Hc.
  - cbn. by rewrite length_insert.
  - intros i Hi Hh. by eapply (halted_set p k i).
Qed.

Lemma clear_pinv p k ctl p' : pinv p -> wait p = Clearing k -> astep (AClear ctl) p = Some p' -> pinv p'.
Proof.
  intros H Hw Hs. cbn [astep] in Hs. rewrite Hw in Hs. destruct (bool_decide (ctl <> None) && negb (flag (mediaClosed p) k)) eqn:Hc; [done|].
  pose proof H as [(L1 & L2 & L3 & L4 & L5) H2 H3 H4]. rewrite Hw in H2, H3. destruct H2 as (K & R & E).
  assert (forall q, dirs q = dirs p -> frames q = frames p -> written q = written p -> errCh q = errCh p -> mediaClosed q = mediaClosed p -> length (deadlines q) = 2%nat ->
    (forall i, (i < 2)%nat -> readable p i \/ i = k -> readable q i) -> wait q = (if Nat.ltb (S k) 2 then Clearing (S k) else Returned) -> pinv q) as Hq.
  { intros q Q1 Q2 Q3 Q4 Q5 Q6 Q7 Q8. eapply (pinv_wait p); try done; rewrite Q8, ?Q4; destruct (Nat.ltb_spec (S k) 2); try (split_and!; try done; lia).
    - intros i Hi Hlt. apply Q7; [done|]. destruct (decide (i = k)); [by right|left]. apply H3; [done|lia].
    - intros i Hi. apply Q7; [done|]. destruct (decide (i = k)); [by right|left]. apply H3; [done|lia]. }
  destruct ctl as [e|]; injection Hs as <-; apply Hq; try done.
  - intros i Hi [Hh| ->]; [exact Hh|]. right. cbn. cbn in Hc. by apply negb_false_iff in Hc.
  - cbn. by rewrite length_insert.
  - intros i Hi Hh. by eapply (readable_set p k i).
Qed.

Lemma outside_pinv p k : pinv p -> pinv (p <| mediaClosed := <[k := true]> (mediaClosed p) |>).
Proof.
  intros H. eapply pinv_same; [exact H|done..| |]; cbn; [by rewrite length_insert|]. intros i. unfold flag. destruct (decide (k = i)) as [<-|]; [|by rewrite list_lookup_insert_ne].
  intros Hf. destruct (mediaClosed p !! k) eqn:E; [|done]. by rewrite list_lookup_insert_eq by (by eapply lookup_lt_Some).
Qed.

Ltac dir_step H := case_bool_decide as H; [|done].

Lemma astep_pinv a p p' : pinv p -> astep a p = Some p' -> pinv p'.
Proof.
  intros H Hs. pose proof H as [(L1 & L2 & L3 & L4 & L5) H2 H3 H4].
  destruct a as [i f|i e|i|i|i|i e| | |k| |ctl| |ctl|k|k| |e]; try (cbn [astep] in Hs).
  - dir_step Hi. destruct (flag (deadlines p) i), (flag (mediaClosed p) i); cbn in Hs; try done. injection Hs as <-.
    pose proof (pinv_dir p i Reading (Writing f) [] (fun l => l ++ [f]) (fun x => x) H Hi ltac:(done) eq_refl) as G.
    rewrite alter_same, app_nil_r in G. destruct p. apply G. by intros fr wr _ _ ->.
  - dir_step Hi. injection Hs as <-. by eapply pinv_send.
  - dir_step Hi. destruct (flag _ _); [|done]. injection Hs as <-. by eapply pinv_send.
  - dir_step Hi. destruct (flag _ _); [|done]. injection Hs as <-. by eapply pinv_send.
  - destruct (dirs p !! i) as [[|f|]|] eqn:Hi; try done. injection Hs as <-.
    pose proof (pinv_dir p i (Writing f) Reading [] (fun x => x) (fun l => l ++ [f]) H Hi ltac:(done) eq_refl) as G.
    rewrite alter_same, app_nil_r in G. destruct p. apply G. by intros fr wr _ _ ->.
  - destruct (dirs p !! i) as [[|f|]|] eqn:Hi; try done. injection Hs as <-. by eapply pinv_send.
  - destruct (wait p) eqn:Hw; try done. destruct (errCh p) as [|e l] eqn:Hc; [done|]. injection Hs as <-. apply (pinv_wait p); try done; [|intros i Hi Hlt; cbn in Hlt; lia].
    cbn in H2 |- *. lia.
  - destruct (wait p) eqn:Hw; try done. destruct (mismatch p); [|done]. injection Hs as <-. apply (pinv_wait p); try done; [|intros i Hi Hlt; cbn in Hlt; lia].
    cbn. lia.
  - destruct (wait p) eqn:Hw; try done. destruct (flag (ended p) k); [|done]. injection Hs as <-. apply (pinv_wait p); try done; [|intros i Hi Hlt; cbn in Hlt; lia].
    cbn. lia.
  - destruct (wait p) eqn:Hw; try done. destruct (stopping p); [|done]. injection Hs as <-. apply (pinv_wait p); try done; [|intros i Hi Hlt; cbn in Hlt; lia].
    cbn. lia.
  - destruct (wait p) eqn:Hw; try done. by eapply stop_pinv; [| |cbn [astep]; rewrite Hw].
  - destruct (wait p) as [| |[|n]| |] eqn:Hw; try done.
    + injection Hs as <-. destruct H2 as [_ E]. assert (sent p <= 2)%nat by (by apply sum_sent_le). apply (pinv_wait p); try done; [|intros i Hi Hlt; cbn in Hlt; lia].
      cbn. split; [lia|]. split; [lia|]. destruct (errCh p); [done|cbn in E; lia].
    + destruct (errCh p) as [|e l] eqn:Hc; [done|]. injection Hs as <-. destruct H2 as [R E]. apply (pinv_wait p); try done. cbn in E |- *. lia.
  - destruct (wait p) eqn:Hw; try done. by eapply clear_pinv; [| |cbn [astep]; rewrite Hw].
  - injection Hs as <-. by eapply pinv_same.
  - injection Hs as <-. by apply outside_pinv.
  - injection Hs as <-. by eapply pinv_same.
  - injection Hs as <-. destruct (mismatch p); [done|]. by eapply pinv_same.
Qed.

Lemma start_pinv : pinv proxy_start.
Proof.
  constructor; cbn; try done. intros [|[|i]] d fr wr; cbn; try done; by intros [= <-] [= <-] [= <-].
Qed.

Lemma reachable_pinv p : proxy_reachable p -> pinv p.
Proof. induction 1 as [|p a p' _ IH Hs]; [apply start_pinv|by eapply astep_pinv]. Qed.

(** ** The end of a proxy *)

(** The steps left once the reads of both dialogs are stopped. *)
Definition steps_left (p : proxy_state) : nat :=
  todo p + match wait p with Draining r => r + 3 | Clearing k => 2 - k | _ => 0 end.
Definition proxy_ending (w : waiting) : bool := match w with Draining _ | Clearing _ | Returned => true | _ => false end.

(** A dialog is there to be read by a direction that reads it. *)
Lemma dir_index p i d : pinv p -> dirs p !! i = Some d -> (i < 2)%nat.
Proof. intros H Hi. destruct (pi_lengths p H) as (<- & _). by eapply lookup_lt_Some. Qed.

Lemma all_sent p i d : pinv p -> sent p = 2%nat -> dirs p !! i = Some d -> d = Sent.
Proof.
  intros H Hs Hi. pose proof (sum_insert is_sent (dirs p) i d Sent Hi) as E. assert (list_sum (map is_sent (<[i := Sent]> (dirs p))) <= 2)%nat by (apply sum_sent_le; rewrite length_insert; apply H).
  unfold sent in Hs. destruct d; [cbn [is_sent] in E; lia..|done].
Qed.

Lemma send_left p i d e : pinv p -> dirs p !! i = Some d -> d <> Sent -> (steps_left (send i e p) < steps_left p)%nat /\ wait (send i e p) = wait p.
Proof.
  intros H Hi Hd. split; [|done]. pose proof (sum_insert dir_work (dirs p) i d Sent Hi) as E. unfold steps_left, todo. change (wait (send i e p)) with (wait p). change (dirs (send i e p)) with (<[i := Sent]> (dirs p)).
  assert (0 < dir_work d)%nat by (destruct d; [cbn; lia..|done]). cbn [dir_work] in E. lia.
Qed.

(** While a proxy ends, each of its steps brings it nearer. *)
Lemma ending_step p a p' : pinv p -> proxy_ending (wait p) = true -> internal a = true -> astep a p = Some p' -> (steps_left p' < steps_left p)%nat /\ proxy_ending (wait p') = true.
Proof.
  intros H He Ha Hs. pose proof (astep_pinv a p p' H Hs) as H'. pose proof H as [(L1 & L2 & L3 & L4 & L5) H2 H3 H4].
  assert (forall i d, dirs p !! i = Some d -> d <> Sent -> exists r, wait p = Draining r /\ halted p i) as Hdrain.
  { intros i d Hi Hd. specialize (H3 i (dir_index p i d H Hi)). destruct (wait p) as [| |r|k|]; [done|done|by exists r| |].
    - destruct H2 as (_ & H2 & _). by destruct (Hd (all_sent p i d H H2 Hi)).
    - destruct H2 as (H2 & _). by destruct (Hd (all_sent p i d H H2 Hi)). }
  assert (forall i d e, dirs p !! i = Some d -> d <> Sent -> send i e p = p' -> (steps_left p' < steps_left p)%nat /\ proxy_ending (wait p') = true) as Hsend.
  { intros i d e Hi Hd <-. destruct (send_left p i d e H Hi Hd) as [? ->]. done. }
  destruct a as [i f|i e|i|i|i|i e| | |k| |ctl| |ctl|k|k| |e]; try done; cbn [astep] in Hs.
  - dir_step Hi. destruct (Hdrain i Reading Hi ltac:(done)) as (r & _ & [Hh|Hh]); rewrite Hh in Hs; [done|]. by destruct (flag (deadlines p) i).
  - dir_step Hi. injection Hs as Hs. by eapply Hsend.
  - dir_step Hi. destruct (flag _ _); [|done]. injection Hs as Hs. by eapply Hsend.
  - dir_step Hi. destruct (flag _ _); [|done]. injection Hs as Hs. by eapply Hsend.
  - destruct (dirs p !! i) as [[|f|]|] eqn:Hi; try done. injection Hs as <-. split; [|done]. pose proof (sum_insert dir_work (dirs p) i (Writing f) Reading Hi) as E.
    unfold steps_left, todo in *. cbn [dirs wait dir_work] in *. lia.
  - destruct (dirs p !! i) as [[|f|]|] eqn:Hi; try done. injection Hs as Hs. by eapply Hsend.
  - by destruct (wait p).
  - by destruct (wait p).
  - by destruct (wait p).
  - by destruct (wait p).
  - by destruct (wait p).
  - destruct (wait p) as [| |[|n]| |] eqn:Hw; try done.
    + injection Hs as <-. split; [|done]. unfold steps_left, todo. cbn [dirs wait]. rewrite Hw. lia.
    + destruct (errCh p) as [|e l]; [done|]. injection Hs as <-. split; [|done]. unfold steps_left, todo. cbn [dirs wait]. rewrite Hw. lia.
  - destruct (wait p) as [| | |k|] eqn:Hw; try done. destruct (_ && _); [done|]. destruct H2 as (K & _). destruct ctl; injection Hs as <-;
      (split; [|cbn [wait]; by destruct (Nat.ltb (S k) 2)]); unfold steps_left, todo; cbn [dirs wait]; rewrite Hw; destruct (Nat.ltb_spec (S k) 2); lia.
Qed.

(** And it is not stuck before it has returned. *)
Lemma ending_progress p : pinv p -> proxy_ending (wait p) = true -> wait p <> Returned -> exists a p', internal a = true /\ astep a p = Some p'.
Proof.
  intros H He Hr. pose proof H as [(L1 & L2 & L3 & L4 & L5) H2 H3 H4]. destruct (wait p) as [| |r|k|] eqn:Hw; try done.
  - destruct r as [|r]; [exists ADrain; eexists; split; [done|]; cbn [astep]; by rewrite Hw|].
    destruct (errCh p) as [|e l] eqn:Hc; [|exists ADrain; eexists; split; [done|]; cbn [astep]; by rewrite Hw, Hc].
    destruct H2 as (R & E). cbn in E.
    assert (exists i d, dirs p !! i = Some d /\ d <> Sent) as (i & d & Hi & Hd).
    { unfold sent in E. destruct (dirs p) as [|x [|y [|]]]; cbn in L1; try lia. destruct (decide (x = Sent)) as [->|]; [|by exists 0%nat, x]. exists 1%nat, y. split; [done|]. intros ->. cbn in E. lia. }
    destruct (H3 i (dir_index p i d H Hi)) as [Hh|Hh]; destruct d as [|f|]; try done.
    + exists (ATimeout i). eexists. split; [done|]. cbn [astep]. by rewrite Hi, bool_decide_true, Hh.
    + exists (AWrite i). eexists. split; [done|]. cbn [astep]. by rewrite Hi.
    + exists (AClosed i). eexists. split; [done|]. cbn [astep]. by rewrite Hi, bool_decide_true, Hh.
    + exists (AWrite i). eexists. split; [done|]. cbn [astep]. by rewrite Hi.
  - exists (AClear None). eexists. split; [done|]. cbn [astep]. rewrite Hw. rewrite bool_decide_false by (by intros ?). done.
Qed.

(** C27. A proxy with a reason to end does end. A direction that has ended, a dialog
    that has, a codec that no longer fits or a stop is taken up at once; the reads
    of both dialogs are stopped; and from then on every step of the proxy, of
    which one can always be taken until it has returned, leaves fewer to take. *)
Theorem proxy_ends p :
  proxy_reachable p ->
  (wait p = Waiting -> errCh p <> [] \/ mismatch p <> None \/ flag (ended p) 0 = true \/ flag (ended p) 1 = true \/ stopping p = true ->
     exists a p' r, internal a = true /\ astep a p = Some p' /\ wait p' = Stopping 0 r) /\
  (forall k r, wait p = Stopping k r -> exists p', astep (AStop None) p = Some p' /\ wait p' = if Nat.ltb (S k) 2 then Stopping (S k) r else Draining r) /\
  (proxy_ending (wait p) = true -> (wait p <> Returned -> exists a p', internal a = true /\ astep a p = Some p') /\
     forall a p', internal a = true -> astep a p = Some p' -> (steps_left p' < steps_left p)%nat /\ proxy_ending (wait p') = true).
Proof.
  intros Hr. pose proof (reachable_pinv p Hr) as H. split; [|split].
  - intros Hw [Hc|[Hc|[Hc|[Hc|Hc]]]].
    + destruct (errCh p) as [|e l] eqn:E; [done|]. exists AResult. eexists _, _. split; [done|]. cbn [astep]. by rewrite Hw, E.
    + destruct (mismatch p) as [e|] eqn:E; [|done]. exists AMismatch. eexists _, _. split; [done|]. cbn [astep]. by rewrite Hw, E.
    + exists (ADialog 0). eexists _, _. split; [done|]. cbn [astep]. by rewrite Hw, Hc.
    + exists (ADialog 1). eexists _, _. split; [done|]. cbn [astep]. by rewrite Hw, Hc.
    + exists AStopping. eexists _, _. split; [done|]. cbn [astep]. by rewrite Hw, Hc.
  - intros k r Hw. eexists. cbn [astep]. rewrite Hw, bool_decide_false by (by intros ?). cbn [andb]. split; [done|]. done.
  - intros He. split; [by apply ending_progress|]. intros a p'. by apply ending_step.
Qed.

(** When the proxy has returned, the dialogs are their owner's again: both
    directions have ended, with their results read, no deadline of the proxy is left
    on a dialog that is still open, and no step of the proxy is possible. Each
    direction has written what it read, in order, but for a last frame whose
    write failed. *)
Theorem proxy_returns_dialogs p :
  proxy_reachable p -> wait p = Returned ->
  dirs p = [Sent; Sent] /\ errCh p = [] /\ (forall i, (i < 2)%nat -> flag (deadlines p) i = false \/ flag (mediaClosed p) i = true) /\
  (forall a, internal a = true -> astep a p = None) /\
  (forall i fr wr, frames p !! i = Some fr -> written p !! i = Some wr -> fr = wr \/ exists f, fr = wr ++ [f]).
Proof.
  intros Hr Hw. pose proof (reachable_pinv p Hr) as H. pose proof H as [(L1 & L2 & L3 & L4 & L5) H2 H3 H4]. rewrite Hw in H2, H3. destruct H2 as [Hs Hc].
  assert (dirs p = [Sent; Sent]) as Hd.
  { destruct (dirs p) as [|x [|y [|]]] eqn:E; cbn in L1; try lia. pose proof (all_sent p 0 x H Hs ltac:(by rewrite E)) as ->. by pose proof (all_sent p 1 y H Hs ltac:(by rewrite E)) as ->. }
  split_and!; try done.
  - intros a Ha. destruct (astep a p) as [p'|] eqn:E; [|done]. exfalso. assert (proxy_ending (wait p) = true) as He by (by rewrite Hw).
    destruct (ending_step p a p' H He Ha E) as [Hlt _]. unfold steps_left, todo in Hlt. rewrite Hw, Hd in Hlt. cbn in Hlt. lia.
  - intros i fr wr Hf Hwr. assert (i < 2)%nat as Hi by (rewrite <- L4; by eapply lookup_lt_Some). assert (dirs p !! i = Some Sent) as Hdi by (rewrite Hd; by destruct i as [|[|i]]; [..|lia]).
    apply (H4 i Sent fr wr Hdi Hf Hwr).
Qed.

(** ** Runs *)

Fixpoint aplay (l : list act) (p : proxy_state) : option proxy_state :=
  match l with [] => Some p | a :: l => match astep a p with Some p' => aplay l p' | None => None end end.

Lemma aplay_reachable l p p' : proxy_reachable p -> aplay l p = Some p' -> proxy_reachable p'.
Proof.
  revert p. induction l as [|a l IH]; intros p Hp; cbn; [by intros [= <-]|]. destruct (astep a p) as [q|] eqn:E; [|done]. apply IH. by eapply r_step.
Qed.

(** Two frames one way, then the other side hangs up. *)
Definition hangup_acts : list act := [ARead 0 7; AWrite 0; ARead 0 8; AClose 1; AEnd 1; ADialog 1; AStop None; AStop (Some net_ErrClosed)].
Definition end_acts : list act := [AClosed 1; AWrite 0; ATimeout 0; ADrain; ADrain; ADrain; AClear None; AClear (Some net_ErrClosed)].
Definition after_acts (l : list act) : proxy_state := default proxy_start (aplay l proxy_start).

Lemma after_acts_reachable l : proxy_reachable (after_acts l).
Proof. unfold after_acts. destruct (aplay l proxy_start) as [p|] eqn:E; [by eapply aplay_reachable; [apply r_start|]|apply r_start]. Qed.

Lemma proxy_ends_witness : wait (after_acts hangup_acts) = Draining 2 /\ exists a p', internal a = true /\ astep a (after_acts hangup_acts) = Some p'.
Proof.
  assert (wait (after_acts hangup_acts) = Draining 2) as Hw by (vm_compute; reflexivity). split; [exact Hw|].
  destruct (proxy_ends (after_acts hangup_acts) (after_acts_reachable hangup_acts)) as (_ & _ & H). destruct H as [H _]; [rewrite Hw; reflexivity|]. apply H. rewrite Hw. discriminate.
Defined.

Lemma proxy_returns_dialogs_witness : wait (after_acts (hangup_acts ++ end_acts)) = Returned /\ dirs (after_acts (hangup_acts ++ end_acts)) = [Sent; Sent] /\ written (after_acts (hangup_acts ++ end_acts)) = [[7; 8]; []]%nat.
Proof.
  assert (wait (after_acts (hangup_acts ++ end_acts)) = Returned) as Hw by (vm_compute; reflexivity). split; [exact Hw|].
  destruct (proxy_returns_dialogs _ (after_acts_reachable (hangup_acts ++ end_acts)) Hw) as (Hd & _). split; [exact Hd|vm_compute; reflexivity].
Defined.

Definition ulaw_dialog : dialog := {| hasMedia := true; audioCodec := {| Name := "PCMU"; PayloadType := 0; SampleRate := 8000; SampleDur := 20 * Millisecond; NumChannels := 1 |}; RTPPacketReader := true; RTPPacketWriter := true |}.
Definition ulaw_dialogs (d : nat) : dialog := ulaw_dialog.
Definition one_joined : Bridge := (AddDialogSession ulaw_dialogs 1 {| Originator := None; dialogs := []; proxy := None; WaitDialogsNum := 2 |}).1.

Lemma join_starts_sound_proxy_witness : bridge_joined one_joined /\ exists d1, dialogs (AddDialogSession ulaw_dialogs 2 one_joined).1 = [d1; 2%nat] /\ proxy (AddDialogSession ulaw_dialogs 2 one_joined).1 = Some [d1; 2%nat].
Proof.
  assert (bridge_joined one_joined) as Hj by (apply j_join, j_fresh; lia). split; [exact Hj|].
  destruct (join_starts_sound_proxy ulaw_dialogs 2 one_joined (AddDialogSession ulaw_dialogs 2 one_joined).1 (AddDialogSession ulaw_dialogs 2 one_joined).2 Hj (surjective_pairing _)) as [_ H].
  destruct (H ltac:(vm_compute; reflexivity)) as (_ & _ & _ & Hp & _). destruct (Hp ltac:(vm_compute; congruence)) as (d1 & H1 & H2 & _). exists d1. split; [exact H1|exact H2].
Defined.

Definition echo_write (w : list bytes) (b : bytes) : list bytes * Z * option error := (w ++ [b], len b, None).
Lemma copy_forwards_in_order_witness : (forall w b, (echo_write w b).2 = None -> (echo_write w b).1.2 = len b) /\
  exists fs rest, [([1; 2], None); ([3], None); ([], Some io_EOF)] = map (fun b => (b, None)) fs ++ rest.
Proof.
  assert (forall w b, (echo_write w b).2 = None -> (echo_write w b).1.2 = len b) as Hw by (intros w b _; reflexivity). split; [exact Hw|].
  destruct (copy_forwards_in_order echo_write Hw [([1; 2], None); ([3], None); ([], Some io_EOF)] []) as (fs & rest & E & _). exists fs, rest. exact E.
Defined.

End TwoPartyProps.
