(* ===== verification/MediaUpdate.v ===== *)
(** * Media updates of a dialog

    [dialog_media.go] from [handleMediaUpdate] to [replaceRTPSessionUnsafe], [Close],
    and the part of [reInviteMediaOnce] of both session files that installs an
    answer. A dialog has media sessions: the installed one, and forks that a
    re-INVITE negotiates on before they are installed or dropped. The fields of the
    dialog hold pointers to them, so the sessions live in a store.

    The code holds [mu] but lets it go while the peer keys a new association, while
    hooks run and while responses are sent. Each stretch under [mu] is a method
    here; [step] interleaves them with [Close], the end of the dialog and the ACK. *)
From S2P Require Import Prelude GoStrings NetIP Codec MediaSdp MediaSession MediaLifecycle Method.
Import GoStrings NetIP Codecs MediaSdp MediaSession Method.

Module MediaUpdate.
Open Scope method_scope.

(** ** What an update asks of a media session

    [uo_env] is what the peer, the stacks and the system make of one call. *)
Class UpdateOps (S : Type) := {
  uo_env : Type;
  (** [a.Laddr.IP.Equal(b.Laddr.IP) && a.Laddr.Port == b.Laddr.Port]. *)
  uo_sameAddr : S -> S -> bool;
  uo_Fork : S -> S;
  (** [RemoteSDPIsAnswer]. *)
  uo_answers : bool -> S -> S;
  uo_RemoteSDP : uo_env -> string -> S -> S * outcome;
  uo_LocalSDP : uo_env -> S -> S * string;
  uo_Codecs : S -> list Codec;
  uo_setCodecs : list Codec -> S -> S;
  uo_setMode : string -> S -> S;
  uo_CommonCodecs : S -> list Codec;
  uo_FinalizePending : S -> bool;
  uo_FinalizeContext : uo_env -> S -> option (S * option error);
  uo_OwnsICEAgent : S -> bool;
  (** [s.CarryRTPDeadlines(from)], with the error of the sockets. *)
  uo_CarryRTPDeadlines : option error -> S -> S -> S * option error;
  uo_Close : uo_env -> S -> S }.

(** The session of [media_session.go]. *)
Section Session.
Context {cert srtp_ctx : Type} (dtlsSHA256Fingerprint : cert -> string + error).
Context (CreateContext : bytes -> bytes -> ProtectionProfile -> srtp_ctx + error) (KeyLen : ProtectionProfile -> Z).
Context (candidate_ok : string -> bool) (preferLocal : bool).

(** [ue_run]: what a negotiation left running has returned with. *)
Record update_env := {
  ue_remote : MediaSession.env; ue_local : local_env;
  ue_run : option MediaLifecycle.handshake; ue_wait : MediaLifecycle.wait; ue_handshake : MediaLifecycle.handshake }.

#[export] Instance update_ops : UpdateOps (@MediaSession.MediaSession cert srtp_ctx) := {
  uo_env := update_env;
  uo_sameAddr a b := NetIP.Equal (ua_IP (Laddr a)) (ua_IP (Laddr b)) && (ua_Port (Laddr a) =? ua_Port (Laddr b));
  uo_Fork := MediaLifecycle.Fork;
  uo_answers b s := s <| RemoteSDPIsAnswer := b |>;
  uo_RemoteSDP e sdp s := MediaSession.RemoteSDP dtlsSHA256Fingerprint CreateContext candidate_ok preferLocal (ue_remote e) sdp s;
  uo_LocalSDP e s := MediaSession.LocalSDP dtlsSHA256Fingerprint CreateContext KeyLen (ue_local e) s;
  uo_Codecs := ms_Codecs;
  uo_setCodecs cs s := s <| ms_Codecs := cs |>;
  uo_setMode m s := s <| Mode := m |>;
  uo_CommonCodecs := filterCodecs;
  uo_FinalizePending := MediaLifecycle.FinalizePending;
  uo_FinalizeContext e s :=
    let s := match ue_run e with Some h => MediaLifecycle.negotiate CreateContext h s | None => s end in
    MediaLifecycle.FinalizeContext CreateContext (ue_wait e) (ue_handshake e) s;
  uo_OwnsICEAgent s := bool_decide (is_Some (iceAgent s));
  uo_CarryRTPDeadlines err from s :=
    let '(s, calls) := MediaLifecycle.CarryRTPDeadlines from s in (s, match calls with [] => None | _ => err end);
  uo_Close e s := MediaLifecycle.Close CreateContext (ue_handshake e) s }.

End Session.

(** ** The dialog *)

Record rtp_ := { r_media : nat; monitored : bool }.
(** What is done in an order that matters: a session is closed, the update hooks and
    [onMediaUpdate] are told of the installed session, the port is returned. *)
Inductive act := AClosed (i : nat) | AUpdated (i : nat) | AReleased (port : Z) | AOnClose (hook : nat).
#[export] Instance act_eq_dec : EqDecision act.
Proof. solve_decision. Defined.
(** What [Close] still has to do. *)
Inductive closing_ := CHook (hook : nat) | CMonitor | CSession (i : nat) | CPort (port : Z).

(** [jitterBuffer], [packetReader] and [packetWriter] are the sessions they read and
    write; [ended] is whether the context of the dialog is done. *)
Record dialog (S : Type) := {
  store : list S;
  mediaSession : option nat;
  rtpSession : option rtp_;
  iceAgentOwner : option nat;
  jitterBuffer : option nat;
  packetReader : option nat;
  packetWriter : option nat;
  releaseRTPPort : option Z;
  onClose : list nat;
  ackOffer : option (Z * nat);
  mediaUpdating : bool;
  closed : bool;
  ended : bool;
  closing : list closing_;
  acts : list act }.
Arguments store {S}. Arguments mediaSession {S}. Arguments rtpSession {S}. Arguments iceAgentOwner {S}. Arguments jitterBuffer {S}.
Arguments packetReader {S}. Arguments packetWriter {S}. Arguments releaseRTPPort {S}. Arguments onClose {S}. Arguments ackOffer {S}.
Arguments mediaUpdating {S}. Arguments closed {S}. Arguments ended {S}. Arguments closing {S}. Arguments acts {S}.
#[export] Instance eta_dialog {S} : Eta (dialog S) := fun d =>
  {| store := store d; mediaSession := mediaSession d; rtpSession := rtpSession d; iceAgentOwner := iceAgentOwner d; jitterBuffer := jitterBuffer d;
     packetReader := packetReader d; packetWriter := packetWriter d; releaseRTPPort := releaseRTPPort d; onClose := onClose d; ackOffer := ackOffer d;
     mediaUpdating := mediaUpdating d; closed := closed d; ended := ended d; closing := closing d; acts := acts d |}.

Definition errMediaClosed : error := ErrNew "dialog media closed".
Definition errMediaUpdateAfterAnswer : error := ErrNew "media update failed after its answer".
Definition errReInviteAnswerWithoutSDP : error := ErrNew "re-INVITE answered 2xx without SDP".
Definition errNoMediaSession : error := ErrNew "no media session present".
Definition errNilRTPSession : error := ErrNew "RTP Session is nil while trying to update it".
Definition errClosedMeanwhile : error := ErrNew "media closed during the media update".

Section Methods.
Context {S : Type} {uo : UpdateOps S}.
Abbreviation method := (M (dialog S)).

(** What the outside makes of one stretch: the calls of the session, and the errors
    of [MonitorClose] and [MonitorBackground], of closing the RTP session, of the
    deadlines and of closing sockets. *)
Record upd_env := {
  u_env : uo_env;
  u_monitorClose : option error;
  u_monitor : option error;
  u_rtpClose : option error;
  u_carry : option error;
  u_close : option error }.

Definition join (e : error) (e2 : option error) : error := match e2 with Some e2 => ErrJoin e e2 | None => e end.

(** ** The store *)

Definition load (i : nat) : method S := let! d := gets id in match store d !! i with Some s => ret s | None => panic end.
Definition save (i : nat) (s : S) : method unit := modify (fun d => d <| store := <[i := s]> (store d) |>).
Definition new (s : S) : method nat := fun d => (d <| store := store d ++ [s] |>, Return (length (store d))).
Definition did (a : act) : method unit := modify (fun d => d <| acts := acts d ++ [a] |>).
Definition close_session (e : upd_env) (i : nat) : method unit :=
  let! s := load i in save i (uo_Close (u_env e) s) ;;; did (AClosed i) ;;; check (u_close e).
Definition RemoteSDP (e : upd_env) (i : nat) (sdp : string) : method unit :=
  let! s := load i in
  let '(s, o) := uo_RemoteSDP (u_env e) sdp s in
  save i s ;;; match o with Ok => ret tt | Err e => fail e | Panic => panic end.
Definition LocalSDP (e : upd_env) (i : nat) : method string :=
  let! s := load i in let '(s, body) := uo_LocalSDP (u_env e) s in save i s ;;; ret body.
Definition FinalizePending (i : nat) : method bool := let! s := load i in ret (uo_FinalizePending s).
Definition FinalizeContext (e : upd_env) (i : nat) : method (option error) :=
  let! s := load i in
  match uo_FinalizeContext (u_env e) s with Some (s, err) => save i s ;;; ret err | None => waits end.

(** ** Installing and dropping a fork *)

Definition discardForkUnsafe (e : upd_env) (i : nat) : method (option error) :=
  let! d := gets id in
  let! s := load i in
  match mediaSession d with
  | Some c => let! cur := load c in if uo_sameAddr cur s then ret None else try (close_session e i)
  | None => try (close_session e i)
  end.

Definition monitor_closed (d : dialog S) : dialog S :=
  d <| rtpSession := match rtpSession d with Some r => Some {| r_media := r_media r; monitored := false |} | None => None end |>.

Definition replaceRTPSessionUnsafe (e : upd_env) (i : nat) : method unit :=
  let! d := gets id in
  if closed d then fail errMediaClosed
  else match rtpSession d with
  | None => fail errNilRTPSession
  | Some _ =>
    modify monitor_closed ;;; check (u_monitorClose e) ;;;
    match u_monitor e with
    | Some err => fail (join err (u_rtpClose e))
    | None =>
      match jitterBuffer d, packetReader d with
      | Some _, _ => modify (fun d => d <| jitterBuffer := Some i |>)
      | None, Some _ => modify (fun d => d <| packetReader := Some i |>)
      | None, None => panic
      end ;;;
      match packetWriter d with Some _ => modify (fun d => d <| packetWriter := Some i |>) | None => panic end ;;;
      match mediaSession d with
      | None => modify (fun d => d <| mediaSession := Some i |> <| rtpSession := Some {| r_media := i; monitored := true |} |>)
      | Some o =>
        let! old := load o in
        let! s := load i in
        modify (fun d => d
          <| iceAgentOwner := if negb (Nat.eqb o i) && uo_OwnsICEAgent old && bool_decide (iceAgentOwner d = None) then Some o else iceAgentOwner d |>
          <| mediaSession := Some i |> <| rtpSession := Some {| r_media := i; monitored := true |} |>) ;;;
        (if Nat.eqb o i then ret tt
         else let '(s, err) := uo_CarryRTPDeadlines (u_carry e) old s in
              save i s ;;; check (ErrWrap "carrying RTP deadlines to the new media session" <$> err)) ;;;
        let! owner := gets iceAgentOwner in
        if negb (bool_decide (owner = Some o)) && negb (uo_sameAddr old s) then
          let! err := try (close_session e o) in check (ErrWrap "closing replaced media session" <$> err)
        else ret tt
      end
    end
  end.

(** An error of [replaceRTPSessionUnsafe] has its fork discarded. *)
Definition replace_or_discard (e : upd_env) (i : nat) : method unit :=
  let! err := try (replaceRTPSessionUnsafe e i) in
  match err with
  | Some err => let! derr := discardForkUnsafe e i in fail (join err derr)
  | None => ret tt
  end.

(** ** Re-INVITEs of the peer *)

Definition sdpReInviteUnsafe (e : upd_env) (sdp : string) : method nat :=
  let! m := gets mediaSession in
  match m with
  | None => fail errNoMediaSession
  | Some c =>
    let! cur := load c in
    let cur := uo_answers false cur in
    save c cur ;;;
    let! i := new (uo_Fork cur) in
    let! err := try (RemoteSDP e i sdp) in
    match err with Some err => fail (ErrWrap "sdp update media remote SDP applying failed" err) | None => ret i end
  end.

Definition negotiatedOffer (e : upd_env) (i c : nat) : method string :=
  let! fork := load i in
  let! cur := load c in
  let codecs := uo_Codecs fork in
  (match uo_CommonCodecs cur with [] => ret tt | negotiated => save i (uo_setCodecs negotiated fork) end) ;;;
  let! offer := LocalSDP e i in
  let! fork := load i in
  save i (uo_setCodecs codecs fork) ;;; ret offer.

(** What [handleMediaUpdate] does next: refuse; answer a new association; go on
    with its answer, after the hooks or at once. *)
Inductive offered := Refuse (status : Z) | NewAssociation (i : nat) | Installed | Keepalive.

Definition refusal (err : error) : Z := if errors_Is err ErrICERestartUnsupported then 488 else 487.

(** [handleMediaUpdate] up to the hooks; an empty body is an update without an offer. *)
Definition handleMediaUpdate_offer (e : upd_env) (body : string) : method offered :=
  let! d := gets id in
  if closed d then ret (Refuse 487)
  else if mediaUpdating d then ret (Refuse 491)
  else if String.eqb body EmptyString then ret Keepalive
  else fun d =>
    match sdpReInviteUnsafe e body d with
    | (d, Return i) =>
      (let! pending := FinalizePending i in
       if pending then modify (fun d => d <| mediaUpdating := true |>) ;;; ret (NewAssociation i)
       else
         let! err := try (replaceRTPSessionUnsafe e i) in
         match err with
         | Some err => ret (Refuse (refusal err))
         | None => ret Installed
         end) d
    | (d, Fail err) => (d, Return (Refuse (refusal err)))
    | (d, Panics) => (d, Panics)
    | (d, Waits) => (d, Waits)
    end.

(** [mediaUpdatedUnsafe] and [runMediaUpdateHooks]. *)
Definition media_updated : method unit :=
  let! m := gets mediaSession in match m with Some i => did (AUpdated i) | None => ret tt end.

(** The rest of it: the description of the 2xx and the fork that offers it, or the
    status that refuses. *)
Definition handleMediaUpdate_answer (e : upd_env) (cseq : Z) (body : string) : method (Z + string * option nat) :=
  let! m := gets mediaSession in
  match m with
  | None => ret (inl 487)
  | Some c =>
    if negb (String.eqb body EmptyString) then let! sd := LocalSDP e c in ret (inr (sd, None))
    else
      let! cur := load c in
      let! i := new (uo_Fork cur) in
      let! sd := negotiatedOffer e i c in
      modify (fun d => d <| ackOffer := Some (cseq, i) |>) ;;; ret (inr (sd, Some i))
  end.

(** After [respondPeerReInvite]. *)
Definition handleMediaUpdate_sent (offer : option nat) (sent : bool) : method unit :=
  modify (fun d =>
    match offer with
    | Some i => if negb sent && bool_decide ((snd <$> ackOffer d) = Some i) then d <| ackOffer := None |> else d
    | None => d
    end).

(** [answerNewAssociation] when its 2xx did not go out, and after the handshake
    that came to [ferr]. *)
Definition answerNewAssociation_unsent (e : upd_env) (i : nat) : method (option error) :=
  modify (fun d => d <| mediaUpdating := false |>) ;;; discardForkUnsafe e i.
Definition answerNewAssociation_keyed (e : upd_env) (i : nat) (ferr : option error) : method unit :=
  modify (fun d => d <| mediaUpdating := false |>) ;;;
  let! d := gets id in
  if ended d then let! derr := discardForkUnsafe e i in check derr
  else
    let ferr := match ferr with None => if closed d then Some errClosedMeanwhile else None | Some _ => ferr end in
    let! err := try (match ferr with
                     | Some err => let! derr := discardForkUnsafe e i in fail (join err derr)
                     | None => replaceRTPSessionUnsafe e i
                     end) in
    match err with
    | Some err => fail (ErrJoin errMediaUpdateAfterAnswer err)
    | None => media_updated
    end.

(** [finalizeAndReplaceUnsafe] after the handshake. *)
Definition finalizeAndReplaceUnsafe_keyed (e : upd_env) (i : nat) (ferr : option error) : method unit :=
  modify (fun d => d <| mediaUpdating := false |>) ;;;
  let! d := gets id in
  let! err := try (match ferr with
                   | Some err => fail err
                   | None => if closed d || ended d then fail errMediaClosed else replaceRTPSessionUnsafe e i
                   end) in
  match err with
  | Some err => let! derr := discardForkUnsafe e i in fail (join err derr)
  | None => ret tt
  end.

(** ** The ACK to a 2xx of ours that offered *)

(** [inl]: the answer asks for a handshake on the fork. *)
Definition applyAckAnswer (e : upd_env) (cseq : Z) (body : option string) : method (option (nat + unit)) :=
  let! d := gets id in
  match ackOffer d with
  | None => ret None
  | Some (c, i) =>
    if negb (c =? cseq) then ret None
    else
      modify (fun d => d <| ackOffer := None |>) ;;;
      match if closed d then None else body with
      | None => let! derr := discardForkUnsafe e i in check derr ;;; ret (Some (inr tt))
      | Some sdp =>
        let! s := load i in save i (uo_answers true s) ;;;
        let! err := try (RemoteSDP e i sdp) in
        match err with
        | Some err => let! derr := discardForkUnsafe e i in fail (join (ErrWrap "sdp update media remote SDP applying failed" err) derr)
        | None =>
          let! pending := FinalizePending i in
          if pending then modify (fun d => d <| mediaUpdating := true |>) ;;; ret (Some (inl i))
          else replaceRTPSessionUnsafe e i ;;; ret (Some (inr tt))
        end
      end
  end.

(** ** Our re-INVITEs *)

(** The fork and its offer: of what the call runs on, or of the direction [mode] for
    [Hold] and [Unhold]. *)
Definition reInvite_fork (e : upd_env) (mode : option string) : method (nat * string) :=
  let! m := gets mediaSession in
  match m with
  | None => panic
  | Some c =>
    let! cur := load c in
    let! i := new (uo_Fork cur) in
    match mode with
    | None => let! sd := negotiatedOffer e i c in ret (i, sd)
    | Some mode => let! fork := load i in save i (uo_setMode mode fork) ;;; let! sd := LocalSDP e i in ret (i, sd)
    end
  end.

(** [reInviteMediaOnce] when no 2xx came. *)
Definition reInviteMediaOnce_failed (e : upd_env) (i : nat) (err : error) : method unit :=
  let! derr := discardForkUnsafe e i in fail (join err derr).

(** And from its 2xx on; only the server session looks for a description before it
    reads it. [inl]: the answer asks for a handshake on the fork. *)
Definition reInviteMediaOnce_answered (server : bool) (e : upd_env) (i : nat) (body : string) : method (nat + unit) :=
  let! d := gets id in
  if closed d || ended d then reInviteMediaOnce_failed e i errMediaClosed ;;; ret (inr tt)
  else if server && String.eqb body EmptyString then reInviteMediaOnce_failed e i errReInviteAnswerWithoutSDP ;;; ret (inr tt)
  else
    let! s := load i in save i (uo_answers true s) ;;;
    let! err := try (RemoteSDP e i body) in
    match err with
    | Some err => reInviteMediaOnce_failed e i (ErrWrap "sdp update media remote SDP applying failed" err) ;;; ret (inr tt)
    | None =>
      let! pending := FinalizePending i in
      if pending then modify (fun d => d <| mediaUpdating := true |>) ;;; ret (inl i)
      else replace_or_discard e i ;;; ret (inr tt)
    end.

(** ** Close *)

Definition Close : method unit :=
  modify (fun d =>
    if closed d then d
    else d <| closed := true |> <| onClose := [] |> <| iceAgentOwner := None |> <| releaseRTPPort := None |>
           <| closing := (CHook <$> onClose d) ++ (match rtpSession d with Some _ => [CMonitor] | None => [] end) ++
                         (CSession <$> option_list (mediaSession d)) ++
                         (match iceAgentOwner d with Some o => if bool_decide (mediaSession d = Some o) then [] else [CSession o] | None => [] end) ++
                         (CPort <$> option_list (releaseRTPPort d)) |>).

(** What it does next once it has let [mu] go. *)
Definition close_next (e : upd_env) : method unit :=
  let! l := gets closing in
  match l with
  | [] => ret tt
  | c :: l =>
    modify (fun d => d <| closing := l |>) ;;;
    match c with
    | CHook h => did (AOnClose h)
    | CMonitor => modify monitor_closed
    | CSession i => let! _ := try (close_session e i) in ret tt
    | CPort p => did (AReleased p)
    end
  end.

(** [reInviteMediaOnce] after a handshake. *)
Definition reInviteMediaOnce_keyed (e : upd_env) (i : nat) (ferr : option error) : method unit :=
  let! err := try (finalizeAndReplaceUnsafe_keyed e i ferr) in
  match err with
  | Some err => if errors_Is err errMediaClosed then fail err else fail (ErrJoin errMediaUpdateAfterAnswer err)
  | None => ret tt
  end.

(** ** The handlers *)

(** Where the re-INVITE in progress is, the peer's or ours: only one is at a time.
    [Hooks]: the hooks run; [Responding]: the 2xx is being sent; [Association] and
    [Handshaking]: the peer's new association; [AwaitAck]: the 2xx waits for its ACK;
    [Offered] and [OwnHandshaking]: ours. *)
Inductive progress := Idle | Hooks (cseq : Z) (body : string) | Responding (offer : option nat) | Association (i : nat) | Handshaking (i : nat)
| AwaitAck | Offered (i : nat) | OwnHandshaking (i : nat).

(** [acking]: the handshake the answer of an ACK asked for; [waiting]: the forks of
    our re-INVITEs answered 491, kept for the wait before the next. *)
Record world := { dlg : dialog S; at_ : progress; acking : option nat; waiting : list nat }.
#[export] Instance eta_world : Eta world := fun w => {| dlg := dlg w; at_ := at_ w; acking := acking w; waiting := waiting w |}.

Inductive event :=
| EPeer (e : upd_env) (cseq : Z) (body : string)
| EHooks (e : upd_env)
| ESent (e : upd_env) (sent : bool)
| EHandshake (e : upd_env)
| EAck (e : upd_env) (cseq : Z) (body : option string)
| EAckHandshake (e : upd_env)
| EAcked
| EAckTimeout
| EOwn (e : upd_env) (mode : option string)
| EOwnFailed (e : upd_env) (err : error)
| EOwnPending
| EOwnGivesUp (e : upd_env) (i : nat)
| EOwnAnswered (e : upd_env) (server : bool) (body : string)
| EOwnHandshake (e : upd_env)
| EClose
| ECloseNext (e : upd_env)
| EEnd.

(** Run a method in a world; the world after what it comes to. *)
Definition run_in {A} (m : method A) (w : world) (ok : A -> world -> world) (failed : error -> world -> world) : option world :=
  match m (dlg w) with
  | (d, Return a) => Some (ok a (w <| dlg := d |>))
  | (d, Fail e) => Some (failed e (w <| dlg := d |>))
  | _ => None
  end.
Definition go (p : progress) (w : world) : world := w <| at_ := p |>.
Definition responding (r : Z + string * option nat) : progress := match r with inl _ => Idle | inr (_, offer) => Responding offer end.

Definition unanswered (offer : option nat) (d : dialog S) : bool :=
  match offer with Some i => bool_decide ((snd <$> ackOffer d) = Some i) | None => true end.

(** An update is announced when it has succeeded, and only a 2xx that went out is
    answered by an ACK. *)
Definition step (ev : event) (w : world) : option world :=
  match ev, at_ w with
  | EPeer e cseq body, Idle =>
    if ended (dlg w) then None
    else run_in (let! o := handleMediaUpdate_offer e body in
                 match o with
                 | Keepalive => let! r := handleMediaUpdate_answer e cseq body in ret (responding r)
                 | Refuse _ => ret Idle
                 | NewAssociation i => ret (Association i)
                 | Installed => ret (Hooks cseq body)
                 end) w go (fun _ => go Idle)
  | EHooks e, Hooks cseq body => run_in (media_updated ;;; handleMediaUpdate_answer e cseq body) w (fun r => go (responding r)) (fun _ => go Idle)
  | ESent _ sent, Responding offer =>
    if negb (sent || unanswered offer (dlg w)) then None
    else run_in (handleMediaUpdate_sent offer sent) w (fun _ => go match offer with Some _ => if sent then AwaitAck else Idle | None => Idle end) (fun _ => go Idle)
  | ESent e sent, Association i =>
    if sent then run_in (LocalSDP e i) w (fun _ => go (Handshaking i)) (fun _ => go Idle)
    else run_in (LocalSDP e i ;;; answerNewAssociation_unsent e i) w (fun _ => go Idle) (fun _ => go Idle)
  | EHandshake e, Handshaking i =>
    run_in (let! ferr := FinalizeContext e i in answerNewAssociation_keyed e i ferr) w (fun _ => go Idle) (fun _ => go Idle)
  | EAck e cseq body, _ =>
    match acking w with
    | Some _ => None
    | None => run_in (let! r := applyAckAnswer e cseq body in match r with Some (inr _) => media_updated ;;; ret None | Some (inl i) => ret (Some i) | None => ret None end) w
                (fun r w => w <| acking := r |>) (fun _ w => w)
    end
  | EAckHandshake e, _ =>
    match acking w with
    | Some i => run_in (let! ferr := FinalizeContext e i in finalizeAndReplaceUnsafe_keyed e i ferr ;;; media_updated) w
                  (fun _ w => w <| acking := None |>) (fun _ w => w <| acking := None |>)
    | None => None
    end
  | EAcked, AwaitAck => if bool_decide (ackOffer (dlg w) = None) && bool_decide (acking w = None) then Some (go Idle w) else None
  | EAckTimeout, AwaitAck => Some (go Idle (w <| dlg := dlg w <| ended := true |> |>))
  | EOwn e mode, Idle => if closed (dlg w) then None else run_in (reInvite_fork e mode) w (fun r => go (Offered r.1)) (fun _ => go Idle)
  | EOwnFailed e err, Offered i => run_in (reInviteMediaOnce_failed e i err) w (fun _ => go Idle) (fun _ => go Idle)
  | EOwnPending, Offered i => Some (go Idle (w <| waiting := i :: waiting w |>))
  | EOwnGivesUp e i, _ => if bool_decide (i ∈ waiting w) then run_in (discardForkUnsafe e i) w (fun _ w => w) (fun _ w => w) else None
  | EOwnAnswered e server body, Offered i =>
    run_in (let! r := reInviteMediaOnce_answered server e i body in match r with inl i => ret (Some i) | inr _ => media_updated ;;; ret None end) w
      (fun r => go match r with Some i => OwnHandshaking i | None => Idle end) (fun _ => go Idle)
  | EOwnHandshake e, OwnHandshaking i =>
    run_in (let! ferr := FinalizeContext e i in reInviteMediaOnce_keyed e i ferr ;;; media_updated) w (fun _ => go Idle) (fun _ => go Idle)
  | EClose, _ => run_in Close w (fun _ w => w) (fun _ w => w)
  | ECloseNext e, _ => run_in (close_next e) w (fun _ w => w) (fun _ w => w)
  | EEnd, _ => Some (w <| dlg := dlg w <| ended := true |> |>)
  | _, _ => None
  end.

(** A dialog whose media is set up on the session [s]. *)
Definition set_up (s : S) (jitter : bool) (port : option Z) (hooks : list nat) : world :=
  {| dlg := {| store := [s]; mediaSession := Some 0%nat; rtpSession := Some {| r_media := 0; monitored := true |}; iceAgentOwner := None;
               jitterBuffer := if jitter then Some 0%nat else None; packetReader := Some 0%nat; packetWriter := Some 0%nat;
               releaseRTPPort := port; onClose := hooks; ackOffer := None; mediaUpdating := false; closed := false; ended := false; closing := []; acts := [] |};
     at_ := Idle; acking := None; waiting := [] |}.

End Methods.
End MediaUpdate.
