(* ===== verification/MediaUpdateLaws.v ===== *)
(** * What media updates rely on in a media session

    [UpdateLaws]: which sockets a session has, shares with its forks, and closes. The
    session of [media_session.go] keeps it ([update_laws]); that the system binds
    fresh sockets at fresh addresses is what [ul_fresh] asks of a call. *)
From S2P Require Import Prelude GoStrings NetIP Sdp Codec MediaSdp MediaSession MediaLifecycle Method MediaUpdate Answer AnswerLaws.
Import GoStrings NetIP Sdp Codecs MediaSdp MediaSession MediaUpdate.

Module MediaUpdateLaws.

Class UpdateLaws {S : Type} (uo : UpdateOps S) := {
  (** The RTP and RTCP sockets, the one of the ICE agent it owns, and those it has closed. *)
  ul_conns : S -> gset nat;
  ul_agent : S -> gset nat;
  ul_shut : S -> gset nat;
  ul_ice : S -> bool;
  (** No negotiation is left running. *)
  ul_quiet : S -> Prop;
  (** The sockets a call may bind. *)
  ul_bound : uo_env -> gset nat;
  (** The address it binds them at is not that of the session. *)
  ul_apart : uo_env -> S -> Prop;

  (** The transport of [t] is that of [s]. *)
  ul_same (s t : S) : Prop := ul_conns t = ul_conns s /\ ul_agent t = ul_agent s /\ ul_shut t = ul_shut s /\ ul_ice t = ul_ice s /\ (ul_quiet s -> ul_quiet t) /\
    uo_OwnsICEAgent t = uo_OwnsICEAgent s /\ forall u, uo_sameAddr u t = uo_sameAddr u s /\ uo_sameAddr t u = uo_sameAddr s u;

  ul_addr_refl s : uo_sameAddr s s = true;
  ul_addr_sym s t : uo_sameAddr s t = uo_sameAddr t s;
  ul_addr_trans s t u : uo_sameAddr s t = true -> uo_sameAddr t u = uo_sameAddr s u;
  ul_apart_same e s t : uo_sameAddr s t = true -> ul_apart e s -> ul_apart e t;
  ul_no_agent s : uo_OwnsICEAgent s = false -> ul_agent s = ∅;
  ul_ice_agent s : ul_quiet s -> uo_OwnsICEAgent s = true -> ul_ice s = true;

  ul_answers b s : ul_same s (uo_answers b s);
  ul_LocalSDP e s : ul_same s (uo_LocalSDP e s).1;
  ul_setCodecs cs s : ul_same s (uo_setCodecs cs s);
  ul_setMode m s : ul_same s (uo_setMode m s);
  ul_Carry err from s : ul_same s (uo_CarryRTPDeadlines err from s).1;
  ul_Carry_none from s : (uo_CarryRTPDeadlines None from s).2 = None;
  ul_Finalize e s s' err : uo_OwnsICEAgent s = false -> uo_FinalizeContext e s = Some (s', err) -> ul_same s s';

  ul_Fork s : ul_conns (uo_Fork s) = ul_conns s /\ ul_shut (uo_Fork s) = ul_shut s /\ ul_ice (uo_Fork s) = ul_ice s /\ ul_quiet (uo_Fork s) /\
    uo_OwnsICEAgent (uo_Fork s) = false /\ uo_sameAddr s (uo_Fork s) = true;

  ul_Close e s : ul_quiet s -> let t := uo_Close e s in
    ul_shut t = ul_shut s ∪ ul_conns s ∪ ul_agent s /\ ul_conns t = ul_conns s /\ ul_ice t = ul_ice s /\ ul_quiet t /\ uo_OwnsICEAgent t = false /\ uo_sameAddr s t = true;

  (** A description leaves the sockets of a fork; or loses them and fails; or, when
      it is an offer, moves it to new sockets at a new address, and fails closing them
      or leaves a negotiation pending. *)
  ul_RemoteSDP e sdp s : uo_OwnsICEAgent s = false -> ul_quiet s -> ul_apart e s ->
    let '(t, o) := uo_RemoteSDP e sdp s in
    uo_OwnsICEAgent t = false /\ ul_quiet t /\ ul_ice t = ul_ice s /\
    (ul_same s t \/
     (ul_conns t = ∅ /\ ul_shut t = ul_shut s /\ uo_sameAddr s t = true /\ o <> Ok) \/
     (ul_ice s = false /\ (forall s0, s <> uo_answers true s0) /\ ul_conns t = ul_bound e /\ uo_sameAddr s t = false /\
      match o with Ok => uo_FinalizePending t = true /\ ul_shut t = ul_shut s | _ => ul_shut t = ul_shut s ∪ ul_bound e end)) }.

Section Session.
Context {cert srtp_ctx : Type} (dtlsSHA256Fingerprint : cert -> string + error).
Context (CreateContext : bytes -> bytes -> ProtectionProfile -> srtp_ctx + error) (KeyLen : ProtectionProfile -> Z).
Context (candidate_ok : string -> bool) (preferLocal : bool).
Abbreviation session := (@MediaSession.MediaSession cert srtp_ctx).

(** The fields that make the transport of a session. *)
Record Keep (s t : session) : Prop := {
  kp_rtp : rtpConn t = rtpConn s; kp_rtcp : rtcpConn t = rtcpConn s; kp_closed : closedConns t = closedConns s; kp_laddr : Laddr t = Laddr s;
  kp_agent : iceAgent t = iceAgent s; kp_udp : iceUDPConn t = iceUDPConn s; kp_conf : ICEConf t = ICEConf s; kp_secure : SecureRTP t = SecureRTP s;
  kp_run : ms_finalizeRun t = ms_finalizeRun s; kp_answer : RemoteSDPIsAnswer t = RemoteSDPIsAnswer s }.
Lemma Keep_refl s : Keep s s.
Proof. by split. Qed.
Lemma Keep_trans s t u : Keep s t -> Keep t u -> Keep s u.
Proof. intros [] []. split; congruence. Qed.

Lemma applyOrigin_keep si (s : session) : Keep s (applyOrigin si s).
Proof. unfold applyOrigin. by destruct (_ =? _). Qed.
Lemma applyCodecs_keep md attrs (s : session) : Keep s (applyCodecs preferLocal md attrs s).1.
Proof.
  unfold applyCodecs. destruct (CodecsFromSDPRead _ _ _) as [[|c cs]|]; try done.
  assert (Keep s (updateRemoteCodecs preferLocal (c :: cs) (negb (RemoteSDPIsAnswer s)) s).1) as HS by (unfold updateRemoteCodecs; by destruct (ms_Codecs s)).
  destruct (updateRemoteCodecs _ _ _ _) as [t n]. by destruct (n =? 0).
Qed.
Lemma applyTransport_keep sd md (s : session) : Keep s (applyTransport sd md s).1.
Proof. unfold applyTransport. destruct (sd_ConnectionInformation sd) as [ci|]; [|done]. destruct (_ || _); [done|]. by destruct (ci_IP ci). Qed.
Lemma crypto_keep v (s : session) : Keep s (crypto_attr CreateContext v s).1.
Proof. unfold crypto_attr. by repeat case_match. Qed.
Lemma readSDES_keep attrs (s : session) : Keep s (readSDES CreateContext attrs s).1.
Proof.
  revert s. induction attrs as [|v attrs IH]; intros s; cbn [readSDES]; [done|]. destruct (HasPrefix v "crypto:"); [|apply IH].
  pose proof (crypto_keep v s) as HF. destruct (crypto_attr CreateContext v s) as [u [r|]]; [done|].
  eapply Keep_trans; [exact HF|apply IH].
Qed.
Lemma remoteICE_keep attrs (s : session) : iceAgent s = None -> Keep s (remoteICE candidate_ok attrs s).1.
Proof. intros E. unfold remoteICE. rewrite E. by repeat case_match. Qed.
Lemma arm_keep e setup fps tlsID (s : session) : Keep s (armDTLSHandshake dtlsSHA256Fingerprint e setup fps tlsID s).1.
Proof. unfold armDTLSHandshake. by destruct (if iceEnabled s then _ else _). Qed.
Lemma arm_no_panic e setup fps tlsID (s : session) : (armDTLSHandshake dtlsSHA256Fingerprint e setup fps tlsID s).2 <> Panic.
Proof. unfold armDTLSHandshake. by destruct (if iceEnabled s then _ else _). Qed.
Lemma tlsid_keep tid r (s : session) : Keep s (newAnswerTLSID tid r s).
Proof. unfold newAnswerTLSID. by destruct (RemoteSDPIsAnswer s) eqn:E. Qed.
Lemma applySecurity_keep req (s : session) : Keep s (applySecurity req s).1.
Proof. unfold applySecurity. cbv zeta. destruct (_ && negb req); by destruct (_ && _). Qed.

(** *** Where a description takes a fork *)

Definition conns (s : session) : gset nat := list_to_set (option_list (rtcpConn s) ++ option_list (rtpConn s)).
Definition shut (s : session) : gset nat := list_to_set (closedConns s).
Definition agent (s : session) : gset nat := if bool_decide (is_Some (iceAgent s)) then list_to_set (option_list (iceUDPConn s)) else ∅.
Definition quiet (s : session) : Prop := ms_finalizeRun s = None /\ (is_Some (iceAgent s) -> iceEnabled s = true).
Definition addr_eq (a b : UDPAddr) : bool := NetIP.Equal (ua_IP a) (ua_IP b) && (ua_Port a =? ua_Port b).
Definition bound (e : env) : gset nat := match e_bind e with inl (_, rtp, rtcp) => {[rtp; rtcp]} | inr _ => ∅ end.
Definition apart (e : env) (s : session) : Prop := forall laddr rtp rtcp, e_bind e = inl (laddr, rtp, rtcp) -> addr_eq (Laddr s) laddr = false.

Inductive Moved (e : env) (s t : session) (o : outcome) : Prop :=
| stays : Keep s t -> Moved e s t o
| loses : conns t = ∅ -> closedConns t = closedConns s -> Laddr t = Laddr s -> o <> Ok -> iceAgent t = iceAgent s -> ICEConf t = ICEConf s -> SecureRTP t = SecureRTP s ->
    ms_finalizeRun t = ms_finalizeRun s -> Moved e s t o
| moves laddr rtp rtcp : e_bind e = inl (laddr, rtp, rtcp) -> iceEnabled s = false -> RemoteSDPIsAnswer s = false ->
    rtpConn t = Some rtp -> rtcpConn t = Some rtcp -> Laddr t = laddr -> iceAgent t = iceAgent s -> ICEConf t = ICEConf s -> SecureRTP t = SecureRTP s ->
    ms_finalizeRun t = ms_finalizeRun s ->
    match o with Ok => is_Some (onFinalize t) /\ closedConns t = closedConns s | _ => closedConns t = closedConns s ++ [rtcp; rtp] end -> Moved e s t o.

Lemma Moved_before e s t u o : Keep s t -> Moved e t u o -> Moved e s u o.
Proof.
  intros [K1 K2 K3 K4 K5 K6 K7 K8 K9 K10] [HK|H1 H2 H3 H4 H5 H6 H7 H8|laddr rtp rtcp H1 H2 H3 H4 H5 H6 H7 H8 H9 H10 H11].
  - apply stays. eapply Keep_trans; [split; eassumption|exact HK].
  - apply loses; congruence.
  - eapply moves with laddr rtp rtcp; try congruence; [unfold iceEnabled in *; by rewrite <- K7, <- K8|]. rewrite K3 in H11. exact H11.
Qed.

Lemma andThen_moved e (s : session) (r : session * outcome) k : Keep s r.1 ->
  (forall t, r = (t, Ok) -> Keep s t -> let '(u, o) := k t in Moved e s u o) -> let '(u, o) := andThen r k in Moved e s u o.
Proof. intros HK H. destruct r as [t []]; cbn in *; [by apply H|by apply stays..]. Qed.

Lemma negotiate_moved e setup fps tlsID (s : session) : iceAgent s = None ->
  let '(t, o) := negotiateDTLSAssociation dtlsSHA256Fingerprint e setup fps tlsID s in Moved e s t o.
Proof.
  intros Ea. unfold negotiateDTLSAssociation. destruct (dtlsAssoc s) as [assoc|].
  2:{ pose proof (Keep_trans _ _ _ (tlsid_keep (e_tlsID e) tlsID s) (arm_keep e setup fps tlsID _)) as H.
      destruct (armDTLSHandshake _ _ _ _ _ _) as [t o]. by apply stays. }
  destruct (String.eqb _ _); [apply stays, Keep_refl|]. destruct (iceEnabled s) eqn:Ei; [apply stays, Keep_refl|].
  destruct (sameUDPAddr (Laddr s) (da_laddr assoc)); cbn [andb].
  - destruct (RemoteSDPIsAnswer s) eqn:Er; [apply stays, Keep_refl|]. unfold rebind.
    destruct (e_bind e) as [[[laddr rtp] rtcp]|err] eqn:Eb; [|by apply loses].
    set (v := s <| rtpConn := None |> <| rtcpConn := None |> <| rtpConn := Some rtp |> <| rtcpConn := Some rtcp |> <| Laddr := laddr |> <| dtlsKeyed := false |> <| dtlsAssoc := None |> <| localCtxSRTP := None |> <| remoteCtxSRTP := None |>).
    pose proof (Keep_trans _ _ _ (tlsid_keep (e_tlsID e) tlsID v) (arm_keep e setup fps tlsID _)) as [K1 K2 K3 K4 K5 K6 K7 K8 K9 K10].
    change (rtpConn v) with (Some rtp) in K1. change (rtcpConn v) with (Some rtcp) in K2. change (closedConns v) with (closedConns s) in K3.
    change (Laddr v) with laddr in K4. change (iceAgent v) with (iceAgent s) in K5. change (ICEConf v) with (ICEConf s) in K7. change (SecureRTP v) with (SecureRTP s) in K8.
    change (ms_finalizeRun v) with (ms_finalizeRun s) in K9.
    assert (forall u : session, armDTLSHandshake dtlsSHA256Fingerprint e setup fps tlsID (newAnswerTLSID (e_tlsID e) tlsID v) = (u, Ok) -> is_Some (onFinalize u)) as Harm.
    { intros u. unfold armDTLSHandshake. destruct (if iceEnabled _ then _ else _); [done|]. intros [= <-]. cbn. by eexists. }
    pose proof (arm_no_panic e setup fps tlsID (newAnswerTLSID (e_tlsID e) tlsID v)) as Hnp. revert K1 K2 K3 K4 K5 K7 K8 K9 Harm Hnp. clearbody v. destruct (armDTLSHandshake _ _ _ _ _ _) as [w [|err|]]; cbn [fst]; intros K1 K2 K3 K4 K5 K7 K8 K9 Harm Hnp.
    + eapply moves with laddr rtp rtcp; try done. by split; [apply Harm|].
    + unfold closeConns. rewrite K1, K2. cbn [option_list app]. rewrite Ea in K5.
      set (x := w <| closedConns := _ |>). assert (iceAgent x = None) as Ex by done. rewrite Ex.
      eapply moves with laddr rtp rtcp; try done; [congruence|]. unfold x. cbn. by rewrite K3.
    + done.
  - set (v := s <| dtlsKeyed := false |> <| dtlsAssoc := None |> <| localCtxSRTP := None |> <| remoteCtxSRTP := None |>).
    pose proof (Keep_trans _ _ _ (tlsid_keep (e_tlsID e) tlsID v) (arm_keep e setup fps tlsID _)) as HK. assert (Keep s v) as Hv by done. clearbody v.
    destruct (armDTLSHandshake _ _ _ _ _ _) as [w []]; apply stays; by eapply Keep_trans.
Qed.

Lemma prefix_inv p v : HasPrefix v p = true -> exists r, v = p +:+ r.
Proof.
  unfold HasPrefix. revert v. induction p as [|c p IH]; intros v; [by exists v|]. destruct v as [|c' v]; [done|].
  cbn [String.prefix]. destruct (Ascii.ascii_dec c c') as [->|]; [|done]. intros H. destruct (IH _ H) as [r ->]. by exists r.
Qed.
Lemma trim_right_app p r : no_space p = true -> p <> EmptyString -> trim_right (p +:+ r) = p +:+ trim_right r.
Proof.
  unfold no_space. induction p as [|c p IH]; [done|]. intros H _. simpl in H. change (trim_right (String c p +:+ r)) with (match trim_right (p +:+ r) with EmptyString => if is_space c then EmptyString else String c EmptyString | t => String c t end).
  destruct (is_space c) eqn:Ec; [done|].
  destruct p as [|c' p]; [change (EmptyString +:+ r) with r; by destruct (trim_right r)|]. by rewrite IH.
Qed.
Lemma fingerprint_attr v : HasPrefix v "fingerprint:" = true -> HasPrefix (ToLower (TrimSpace v)) "fingerprint:" = true.
Proof.
  intros H. apply prefix_inv in H as [r ->]. unfold TrimSpace. change (trim_left _) with ("fingerprint:" +:+ r).
  rewrite trim_right_app by done. change (ToLower _) with ("fingerprint:" +:+ ToLower (trim_right r)). apply HasPrefix_app.
Qed.

Lemma read_dtls_fingerprints attrs r r' : read_dtls attrs r = Some r' -> dt_fingerprints r = [] -> dt_fingerprints r' <> [] -> sdpHasFingerprint attrs = true.
Proof.
  revert r. unfold sdpHasFingerprint. induction attrs as [|v attrs IH]; intros r; cbn [read_dtls existsb]; [by intros [= <-]|].
  intros H E Hr. destruct (HasPrefix v "setup:"); [|destruct (HasPrefix v "tls-id:")]; [by rewrite (IH _ H E Hr), orb_true_r..|].
  destruct (HasPrefix v "fingerprint:") eqn:Ef; [by rewrite (fingerprint_attr v Ef)|]. by rewrite (IH _ H E Hr), orb_true_r.
Qed.

Lemma remoteDTLS_moved e attrs (s : session) : iceAgent s = None ->
  let '(t, o) := remoteDTLS dtlsSHA256Fingerprint e attrs s in Keep s t \/ (Moved e s t o /\ sdpHasFingerprint attrs = true).
Proof.
  intros Ea. unfold remoteDTLS. destruct (read_dtls _ _) as [r|] eqn:Er; [|left; apply Keep_refl].
  destruct (existsb _ (dt_fingerprints r)) eqn:Ex; cbn [negb]; [|left; apply Keep_refl]. destruct (String.eqb _ _); [left; apply Keep_refl|].
  destruct (negb _); [left; apply Keep_refl|]. set (u := s <| dtlsRemoteSetup := _ |> <| dtlsRemoteTLSID := _ |>).
  assert (Keep s u) as Hu by done. assert (iceAgent u = None) as Eu by done. clearbody u.
  pose proof (negotiate_moved e (dt_setup r) (dt_fingerprints r) (dt_tlsID r) u Eu) as H. destruct (negotiateDTLSAssociation _ _ _ _ _ _) as [t o].
  right. split; [by eapply Moved_before|]. eapply read_dtls_fingerprints; [exact Er|done|]. intros E. by rewrite E in Ex.
Qed.

(** The check of the security after the stage that may move the fork. *)
Lemma security_moved e attrs prof (s u : session) o : (Keep s u \/ (Moved e s u o /\ sdpHasFingerprint attrs = true)) ->
  let '(t, o') := andThen (u, o) (applySecurity (secureRequested prof attrs)) in Moved e s t o'.
Proof.
  destruct o as [|err|]; cbn [andThen].
  2,3: by intros [HK|[HM _]]; [apply stays|].
  intros [HK|[HM Hf]].
  - pose proof (applySecurity_keep (secureRequested prof attrs) u) as H. destruct (applySecurity _ _) as [t o]. apply stays. by eapply Keep_trans.
  - unfold secureRequested. rewrite Hf. cbn [negb]. rewrite andb_false_r.
    assert (exists t, applySecurity false u = (t, Ok) /\ Keep u t /\ onFinalize t = onFinalize u) as (t & -> & HK & Hon).
    { unfold applySecurity. cbv zeta. cbn [andb]. destruct (_ && _); eexists; (split; [reflexivity|]); by split. }
    destruct HM as [H|H1 H2 H3 H4|laddr rtp rtcp H1 H2 H3 H4 H5 H6 H7 H8 H9 H10 [H11 H12]]; [apply stays; by eapply Keep_trans|done|].
    destruct HK as [K1 K2 K3 K4 K5 K6 K7 K8 K9 K10]. eapply moves with laddr rtp rtcp; try congruence. split; [by rewrite Hon|congruence].
Qed.

Lemma applySDP_moved e sections audio md sd (s : session) : iceAgent s = None ->
  let '(t, o) := applySDP dtlsSHA256Fingerprint CreateContext candidate_ok preferLocal e sections audio md sd s in Moved e s t o.
Proof.
  intros Ea. unfold applySDP. destruct (sd_SessionInformation sd) as [si|]; [|apply stays, Keep_refl]. cbv zeta.
  pose proof (applyOrigin_keep si s) as H0. set (s0 := applyOrigin si s) in *. clearbody s0.
  destruct (parseRTPProfile _) as [prof|]; [|by apply stays].
  set (s1 := if RemoteSDPIsAnswer _ then _ else _). assert (Keep s s1) as H1.
  { eapply Keep_trans; [exact H0|]. unfold s1. cbn [RemoteSDPIsAnswer field_update eta_session]. by destruct (RemoteSDPIsAnswer s0) eqn:E. }
  clearbody s1. clear H0 s0. set (attrs := Values sd "a"). clearbody attrs.
  apply andThen_moved; [eapply Keep_trans; [exact H1|apply applyCodecs_keep]|]. intros s2 E2 H2.
  apply andThen_moved; [eapply Keep_trans; [exact H2|apply applyTransport_keep]|]. intros s3 E3 H3.
  apply andThen_moved; [eapply Keep_trans; [exact H3|apply readSDES_keep]|]. intros s4 E4 H4.
  assert (iceAgent s4 = None) as Ea4 by (by rewrite (kp_agent _ _ H4)).
  apply andThen_moved; [destruct (iceEnabled s4); [|done]; eapply Keep_trans; [exact H4|by apply remoteICE_keep]|]. intros s5 E5 H5.
  assert (iceAgent s5 = None) as Ea5 by (by rewrite (kp_agent _ _ H5)).
  assert (let '(u, o) := if dtlsSRTP s5 then remoteDTLS dtlsSHA256Fingerprint e attrs s5 else (s5, Ok) in Keep s5 u \/ (Moved e s5 u o /\ sdpHasFingerprint attrs = true)) as HD.
  { destruct (dtlsSRTP s5); [by apply remoteDTLS_moved|left; apply Keep_refl]. }
  destruct (if dtlsSRTP s5 then _ else _) as [u o]. apply (security_moved e attrs prof) in HD.
  destruct (andThen (u, o) _) as [t o']. by eapply Moved_before.
Qed.

Lemma RemoteSDP_moved e sdp (s : session) : iceAgent s = None ->
  let '(t, o) := MediaSession.RemoteSDP dtlsSHA256Fingerprint CreateContext candidate_ok preferLocal e sdp s in Moved e s t o.
Proof.
  intros Ea. unfold MediaSession.RemoteSDP. destruct (UnmarshalSections sdp) as [sections [err|]]; [apply stays, Keep_refl|].
  destruct (audioStream _) as [i|]; [|apply stays, Keep_refl]. destruct (sec_Media sections !! i), (Description sections i); try (by apply stays, Keep_refl). by apply applySDP_moved.
Qed.

(** ** The instance *)

Record Transport (s t : session) : Prop := {
  tp_rtp : rtpConn t = rtpConn s; tp_rtcp : rtcpConn t = rtcpConn s; tp_closed : closedConns t = closedConns s; tp_laddr : Laddr t = Laddr s;
  tp_agent : iceAgent t = iceAgent s; tp_udp : iceUDPConn t = iceUDPConn s; tp_conf : ICEConf t = ICEConf s; tp_secure : SecureRTP t = SecureRTP s }.
Lemma Transport_trans s t u : Transport s t -> Transport t u -> Transport s u.
Proof. intros [] []. split; congruence. Qed.
Lemma Keep_transport s t : Keep s t -> Transport s t.
Proof. by intros []. Qed.

Abbreviation ops := (update_ops dtlsSHA256Fingerprint CreateContext KeyLen candidate_ok preferLocal).
Definition same (s t : session) : Prop := conns t = conns s /\ agent t = agent s /\ shut t = shut s /\ iceEnabled t = iceEnabled s /\ (quiet s -> quiet t) /\
  uo_OwnsICEAgent (UpdateOps := ops) t = uo_OwnsICEAgent (UpdateOps := ops) s /\
  forall u, uo_sameAddr (UpdateOps := ops) u t = uo_sameAddr (UpdateOps := ops) u s /\ uo_sameAddr (UpdateOps := ops) t u = uo_sameAddr (UpdateOps := ops) s u.
Lemma transport_same s t : Transport s t -> (ms_finalizeRun s = None -> ms_finalizeRun t = None) -> same s t.
Proof.
  intros [H1 H2 H3 H4 H5 H6 H7 H8] HR. assert (iceEnabled t = iceEnabled s) as Hi by (unfold iceEnabled; by rewrite H7, H8).
  unfold same, conns, agent, shut, quiet. cbn. rewrite H1, H2, H3, H4, H5, H6, Hi. split_and!; try done. by intros [? ?]; auto.
Qed.

Lemma localSDES_transport le (s : session) : Transport s (localSDES CreateContext KeyLen le s).1.1.
Proof. unfold localSDES, sdesOffer. by repeat case_match; simplify_eq/=. Qed.
Lemma tlsid_transport tid (s : session) : Transport s (localSDPTLSID dtlsSHA256Fingerprint tid s).1.
Proof.
  unfold localSDPTLSID. destruct (answeringOffer s); [done|]. cbv zeta. cbn [fst]. destruct (dtlsAssoc s) as [a|].
  - destruct (negb _); [done|]. by destruct (String.eqb _ _).
  - by destruct (String.eqb _ _).
Qed.
Lemma localDTLS_transport le (s : session) : Transport s (localDTLS dtlsSHA256Fingerprint le s).1.
Proof.
  unfold localDTLS. destruct (bool_decide _); [|done]. cbv zeta. pose proof (tlsid_transport (le_tlsID le) s) as H.
  by destruct (localSDPTLSID _ _ _) as [s1 tid].
Qed.
Lemma nextVersion_transport le (s : session) : Transport s (nextVersion le s).
Proof. unfold nextVersion. by repeat case_match. Qed.
Lemma LocalSDP_transport le (s : session) : Transport s (MediaSession.LocalSDP dtlsSHA256Fingerprint CreateContext KeyLen le s).1.
Proof.
  unfold MediaSession.LocalSDP. destruct (negb _); [done|]. cbv zeta.
  pose proof (localSDES_transport le s) as H1. destruct (localSDES _ _ _ _) as [[s1 sdes] profile]. cbn [fst] in H1.
  pose proof (localDTLS_transport le s1) as H2. destruct (localDTLS _ _ _) as [s2 dtlsSet]. cbn [fst] in H2 |- *.
  eapply Transport_trans; [exact H1|]. eapply Transport_trans; [exact H2|]. apply nextVersion_transport.
Qed.

Lemma keySRTP_transport h a (s : session) : Transport s (MediaLifecycle.keySRTP CreateContext h a s).1.
Proof.
  unfold MediaLifecycle.keySRTP. cbv zeta. destruct (MediaLifecycle.hs_keyLen h); [|done]. destruct (MediaLifecycle.hs_saltLen h); [|done].
  destruct (MediaLifecycle.hs_keyingMaterial _ _); [|done]. destruct (MediaLifecycle.splitKeyingMaterial _ _ _ _) as [[[? ?] ?] ?].
  destruct (CreateContext _ _ _); [|done]. destruct (CreateContext _ _ _); [|done]. cbn [fst].
  match goal with |- Transport s (?x <| dtlsKeyed := _ |> <| dtlsUnkeyed := _ |>) => enough (Transport s x) as [] by done end.
  destruct (iceEnabled _); [|done]. destruct (iceAgent _) eqn:E; [|done]. by split.
Qed.
Lemma runNegotiation_transport h a (s : session) : iceAgent s = None -> Transport s (MediaLifecycle.runNegotiation CreateContext h a s).1.
Proof.
  intros Ea. unfold MediaLifecycle.runNegotiation, MediaLifecycle.startICE. rewrite Ea. destruct (iceEnabled s); [done|].
  destruct (MediaLifecycle.hs_handshake h); [done|]. destruct (MediaLifecycle.hs_close h); [done|]. destruct (MediaLifecycle.hs_state h); [|done]. apply keySRTP_transport.
Qed.
Lemma negotiate_transport h (s : session) : iceAgent s = None -> Transport s (MediaLifecycle.negotiate CreateContext h s).
Proof.
  intros Ea. unfold MediaLifecycle.negotiate. destruct (ms_finalizeRun s) as [[a [err|]]|]; try done.
  pose proof (runNegotiation_transport h a s Ea) as H. destruct (MediaLifecycle.runNegotiation _ _ _ _) as [s1 err].
  by eapply Transport_trans; [exact H|].
Qed.
Lemma FinalizeContext_transport w h (s s' : session) err : iceAgent s = None -> MediaLifecycle.FinalizeContext CreateContext w h s = Some (s', err) -> Transport s s'.
Proof.
  intros Ea. unfold MediaLifecycle.FinalizeContext. destruct (ms_finalizeRun s) as [run|] eqn:E.
  - unfold MediaLifecycle.awaitFinalizeRun, MediaLifecycle.endFinalizeRun. destruct w as [|stop h'].
    + destruct (fr_done run) as [[]|]; try done; by intros [= <- <-].
    + pose proof (negotiate_transport h' s Ea) as H. set (u := MediaLifecycle.negotiate CreateContext h' s) in *. clearbody u.
      destruct (ms_finalizeRun u) as [[a [[]|]]|]; try done; intros [= <- <-]; by eapply Transport_trans.
  - destruct (finalizeErr s); [by intros [= <- <-]|]. destruct (onFinalize s) as [a|]; [|by intros [= <- <-]].
    pose proof (runNegotiation_transport h a s Ea) as H. destruct (MediaLifecycle.runNegotiation _ _ _ _) as [u err']. intros [= <- <-]. by eapply Transport_trans.
Qed.
Lemma FinalizeContext_quiet w h (s s' : session) err : ms_finalizeRun s = None -> MediaLifecycle.FinalizeContext CreateContext w h s = Some (s', err) -> ms_finalizeRun s' = None.
Proof.
  intros E. unfold MediaLifecycle.FinalizeContext. rewrite E. destruct (finalizeErr s); [by intros [= <- <-]|]. destruct (onFinalize s) as [a|]; [|by intros [= <- <-]].
  pose proof (AnswerLaws.runNegotiation_fin CreateContext h a s) as [H _]. destruct (MediaLifecycle.runNegotiation _ _ _ _) as [u err']. intros [= <- <-]. cbn in *. congruence.
Qed.

(** [IP.Equal] is equality of the 16-byte forms, where there are such. *)
Lemma Equal_spec (a b : IP) : NetIP.Equal a b = true <-> a = b \/ (exists x, NetIP.To16 a = Some x /\ NetIP.To16 b = Some x).
Proof.
  destruct a as [x|], b as [y|]; cbn [NetIP.Equal]; try (split; [done|by intros [[=]|(? & [=] & [=])]]); [|by split; [left|]].
  rewrite orb_true_iff, andb_true_iff, negb_true_iff, !bool_decide_eq_true, bool_decide_eq_false. split.
  - intros [->|[E Hn]]; [by left|right]. destruct (NetIP.To16 (Some x)) as [z|] eqn:Ez; [|done]. by exists z.
  - intros [[= ->]|(z & E1 & E2)]; [by left|right]. rewrite E1, E2. done.
Qed.
Lemma Equal_refl (a : IP) : NetIP.Equal a a = true.
Proof. apply Equal_spec. by left. Qed.
Lemma Equal_sym (a b : IP) : NetIP.Equal a b = NetIP.Equal b a.
Proof. apply eq_true_iff_eq. rewrite !Equal_spec. split; intros [->|(x & ? & ?)]; eauto. Qed.
Lemma Equal_trans (a b c : IP) : NetIP.Equal a b = true -> NetIP.Equal b c = NetIP.Equal a c.
Proof.
  rewrite Equal_spec. intros Hab. apply eq_true_iff_eq. rewrite !Equal_spec.
  destruct Hab as [->|(x & Ha & Hb)]; [done|]. split; intros [->|(y & Hy & Hc)]; right; eauto; exists x; split; congruence.
Qed.
Lemma addr_trans (a b c : UDPAddr) : addr_eq a b = true -> addr_eq b c = addr_eq a c.
Proof.
  unfold addr_eq. rewrite andb_true_iff, Z.eqb_eq. intros [H1 H2]. by rewrite (Equal_trans _ _ _ H1), H2.
Qed.

(** What a description makes of a fork, in the terms of the interface. *)
Lemma moved_interface e (s t : session) o : iceAgent s = None -> ms_finalizeRun s = None -> apart e s -> Moved e s t o ->
  iceAgent t = None /\ ms_finalizeRun t = None /\ iceEnabled t = iceEnabled s /\
  (same s t \/
   (conns t = ∅ /\ shut t = shut s /\ addr_eq (Laddr s) (Laddr t) = true /\ o <> Ok) \/
   (iceEnabled s = false /\ RemoteSDPIsAnswer s = false /\ conns t = bound e /\ addr_eq (Laddr s) (Laddr t) = false /\
    match o with Ok => MediaLifecycle.FinalizePending t = true /\ shut t = shut s | _ => shut t = shut s ∪ bound e end)).
Proof.
  intros Ea Er Hap [HK|H1 H2 H3 H4 H5 H6 H7 H8|laddr rtp rtcp H1 H2 H3 H4 H5 H6 H7 H8 H9 H10 H11].
  - pose proof HK as [K1 K2 K3 K4 K5 K6 K7 K8 K9 K10]. split; [congruence|]. split; [congruence|]. split; [unfold iceEnabled; by rewrite K7, K8|]. left.
    apply transport_same; [by apply Keep_transport|congruence].
  - split; [congruence|]. split; [congruence|]. split; [unfold iceEnabled; by rewrite H6, H7|]. right; left. split; [done|]. split; [unfold shut; by rewrite H2|].
    split; [|done]. rewrite H3. unfold addr_eq. by rewrite Equal_refl, Z.eqb_refl.
  - split; [congruence|]. split; [congruence|]. split; [unfold iceEnabled; by rewrite H8, H9|]. right; right. split; [done|]. split; [done|].
    split; [unfold conns, bound; rewrite H1, H4, H5; cbn; set_solver|]. split; [rewrite H6; by eapply Hap|].
    destruct o as [|err|].
    + destruct H11 as [Hf Hc]. split; [unfold MediaLifecycle.FinalizePending; by rewrite bool_decide_true|unfold shut; by rewrite Hc].
    + unfold shut, bound. rewrite H11, H1, list_to_set_app_L. cbn. set_solver.
    + unfold shut, bound. rewrite H11, H1, list_to_set_app_L. cbn. set_solver.
Qed.

Lemma close_interface h (s : session) : quiet s -> let t := MediaLifecycle.Close CreateContext h s in
  shut t = shut s ∪ conns s ∪ agent s /\ conns t = conns s /\ iceEnabled t = iceEnabled s /\ quiet t /\ iceAgent t = None /\ Laddr t = Laddr s.
Proof.
  intros [Er Hi]. cbv zeta. unfold MediaLifecycle.Close, MediaLifecycle.negotiate. rewrite Er. cbv zeta. rewrite Er. unfold closeConns. cbv zeta.
  unfold shut, conns, agent, quiet. set (x := s <| closedConns := _ |>). change (iceAgent x) with (iceAgent s).
  destruct (iceAgent s) as [a|] eqn:Ea.
  - rewrite bool_decide_true by done. unfold x. cbn. rewrite !list_to_set_app_L. split_and!; try done; try set_solver; by intros [? [=]].
  - rewrite bool_decide_false by (by intros [? [=]]). unfold x. cbn. rewrite !list_to_set_app_L. rewrite Ea. split_and!; try done; try set_solver; by intros [? [=]].
Qed.

Lemma fork_interface (s : session) : let t := MediaLifecycle.Fork s in
  conns t = conns s /\ shut t = shut s /\ iceEnabled t = iceEnabled s /\ quiet t /\ iceAgent t = None /\ Laddr t = Laddr s.
Proof.
  cbv zeta. unfold MediaLifecycle.Fork. cbv zeta. unfold conns, shut, quiet. destruct (dtlsAssoc s); cbn; split_and!; try done; by intros [? [=]].
Qed.

#[export] Program Instance update_laws : UpdateLaws ops :=
  {| ul_conns := conns; ul_agent := agent; ul_shut := shut; ul_ice := iceEnabled; ul_quiet := quiet; ul_bound e := bound (ue_remote e); ul_apart e s := apart (ue_remote e) s |}.
Next Obligation. intros s. apply andb_true_iff. split; [apply Equal_refl|apply Z.eqb_refl]. Qed.
Next Obligation. intros s t. cbn. by rewrite Equal_sym, Z.eqb_sym. Qed.
Next Obligation. intros s t u. apply addr_trans. Qed.
Next Obligation. intros e s t H Ha laddr rtp rtcp Eb. rewrite (addr_trans _ _ laddr H). by eapply Ha. Qed.
Next Obligation. intros s H. cbn in H. unfold agent. by rewrite H. Qed.
Next Obligation. intros s [_ H] Ho. cbn in Ho. apply bool_decide_eq_true in Ho. auto. Qed.
Next Obligation. intros b s. by apply transport_same. Qed.
Next Obligation. intros e s. apply transport_same; [apply LocalSDP_transport|]. pose proof (AnswerLaws.LocalSDP_fin dtlsSHA256Fingerprint CreateContext KeyLen (ue_local e) s) as [H _]. intros Er. change (uo_LocalSDP e s) with (MediaSession.LocalSDP dtlsSHA256Fingerprint CreateContext KeyLen (ue_local e) s). by rewrite H. Qed.
Next Obligation. intros cs s. by apply transport_same. Qed.
Next Obligation. intros m s. by apply transport_same. Qed.
Next Obligation. intros err from s. cbn. unfold MediaLifecycle.CarryRTPDeadlines. cbv zeta. by destruct (bool_decide _); apply transport_same. Qed.
Next Obligation. intros from s. cbn. unfold MediaLifecycle.CarryRTPDeadlines. by destruct (bool_decide _). Qed.
Next Obligation.
  intros e s s' err Ho HF. cbn in Ho, HF. apply bool_decide_eq_false in Ho. assert (iceAgent s = None) as Ea by (destruct (iceAgent s); [by destruct Ho|done]).
  destruct (ue_run e) as [h|].
  - apply transport_same.
    + eapply Transport_trans; [by apply (negotiate_transport h)|]. eapply FinalizeContext_transport; [|exact HF]. by rewrite (tp_agent _ _ (negotiate_transport h s Ea)).
    + intros Er. assert (MediaLifecycle.negotiate CreateContext h s = s) as En by (unfold MediaLifecycle.negotiate; by rewrite Er). rewrite En in HF. by eapply FinalizeContext_quiet.
  - apply transport_same; [by eapply FinalizeContext_transport|]. intros Er. by eapply FinalizeContext_quiet.
Qed.
Next Obligation.
  intros s. destruct (fork_interface s) as (H1 & H2 & H3 & H4 & H5 & H6). cbn. split_and!; try done; [by rewrite H5|]. rewrite H6. unfold addr_eq. by rewrite Equal_refl, Z.eqb_refl.
Qed.
Next Obligation.
  intros e s Hq t. pose proof (close_interface (ue_handshake e) s Hq) as (H1 & H2 & H3 & H4 & H5 & H6). subst t. cbn. split_and!; try done; [by rewrite H5|rewrite H6; by rewrite Equal_refl, Z.eqb_refl].
Qed.
Next Obligation.
  intros e sdp s Ho [Er Hi] Hap. cbn in Ho |- *. apply bool_decide_eq_false in Ho. assert (iceAgent s = None) as Ea by (destruct (iceAgent s); [by destruct Ho|done]).
  pose proof (RemoteSDP_moved (ue_remote e) sdp s Ea) as HM. destruct (MediaSession.RemoteSDP _ _ _ _ _ _ _) as [t o].
  destruct (moved_interface _ _ _ _ Ea Er Hap HM) as (H1 & H2 & H3 & H4). split; [by rewrite H1|]. split; [split; [done|by rewrite H1; intros [? [=]]]|]. split; [done|].
  destruct H4 as [H4|[H4|(G1 & G2 & G3 & G4 & G5)]]; [by left|by right; left|right; right]. split; [done|]. split; [|done].
  intros s0 ->. done.
Qed.

End Session.
End MediaUpdateLaws.
