(* ===== verification/MediaUpdateInv.v ===== *)
(** * The invariant of media updates

    What holds of the sessions of a dialog between any two stretches of
    [MediaUpdate], and that each operation on a session keeps it. *)
From S2P Require Import Prelude GoStrings Codec MediaSession Method MediaUpdate MediaUpdateLaws.
Import Codecs MediaSession Method MediaUpdate MediaUpdateLaws.

Module MediaUpdateInv.

Section Invariant.
Context {S : Type} {uo : UpdateOps S} {ul : UpdateLaws uo}.
(** Whether the media runs over ICE; whether no socket may be forgotten, which takes
    a stack that does not fail; the port of the dialog. *)
Context (ice strict : bool) (port : option Z).

Definition Shut (l : list S) : gset nat := ⋃ (ul_shut <$> l).

Lemma elem_of_Shut l x : x ∈ Shut l <-> exists i s, l !! i = Some s /\ x ∈ ul_shut s.
Proof.
  unfold Shut. rewrite elem_of_union_list. setoid_rewrite list_elem_of_fmap. split.
  - intros (X & (s & -> & Hs) & Hx). apply list_elem_of_lookup in Hs as [i Hi]. eauto.
  - intros (i & s & Hi & Hx). exists (ul_shut s). split; [exists s; split; [done|by eapply list_elem_of_lookup_2]|done].
Qed.
Lemma Shut_put l i s t Y : l !! i = Some s -> ul_shut t = ul_shut s ∪ Y -> Shut (<[i := t]> l) = Shut l ∪ Y.
Proof.
  intros Hi Ht. apply set_eq. intros x. rewrite elem_of_union, !elem_of_Shut. split.
  - intros (j & u & Hj & Hx). apply list_lookup_insert_Some in Hj as [(<- & <- & _)|[Hn Hj]]; [|by eauto].
    rewrite Ht in Hx. apply elem_of_union in Hx as [Hx|Hx]; [left; eauto|by right].
  - assert (<[i:=t]> l !! i = Some t) as Hit by (apply list_lookup_insert_eq; by eapply lookup_lt_Some).
    intros [(j & u & Hj & Hx)|Hx]; [|exists i, t; split; [done|rewrite Ht; set_solver]].
    destruct (decide (i = j)) as [->|Hn]; [exists j, t; split; [done|rewrite Ht; simplify_eq; set_solver]|].
    exists j, u. by rewrite list_lookup_insert_ne.
Qed.
Lemma Shut_app l s c t : l !! c = Some t -> ul_shut s = ul_shut t -> Shut (l ++ [s]) = Shut l.
Proof.
  intros Hc Hs. apply set_eq. intros x. rewrite !elem_of_Shut. split.
  - intros (j & u & Hj & Hx). apply lookup_app_Some in Hj as [Hj|[_ Hj]]; [by eauto|].
    apply list_lookup_singleton_Some in Hj as [_ <-]. exists c, t. by rewrite Hs in Hx.
  - intros (j & u & Hj & Hx). exists j, u. split; [by apply lookup_app_l_Some|done].
Qed.

(** ** Where the sessions are

    [K] are the sockets of the installed session, [a] a session at its address, [X]
    the closed sockets. *)
Implicit Types (K X : gset nat) (a s t : S) (d : dialog S).

Record sound a s : Prop := {
  so_quiet : ul_quiet s;
  so_ice : ul_ice s = ice;
  so_addr : ice = true -> uo_sameAddr a s = true }.
Definition Sharing K a s : Prop := ul_conns s = K /\ uo_sameAddr a s = true.
(** Closing a session at rest closes nothing the call runs on, and loses nothing. *)
Definition Resting X K a s : Prop :=
  (ul_conns s ⊆ K ∪ X /\ (uo_sameAddr a s = false -> ul_conns s ⊆ X)) \/ (strict = false /\ ul_conns s ## K).
(** A fork on sockets of its own. *)
Definition Moved X K a (i : nat) (l : list S) s : Prop :=
  ice = false /\ uo_sameAddr a s = false /\ ul_conns s ## X ∪ K /\ forall j t, j <> i -> l !! j = Some t -> ul_conns t ## ul_conns s.

(** What reads and writes. *)
Definition On (c : nat) d : Prop :=
  mediaSession d = Some c /\ (exists r, rtpSession d = Some r /\ r_media r = c) /\ packetWriter d = Some c /\
  (jitterBuffer d = Some c \/ (jitterBuffer d = None /\ packetReader d = Some c)).

Definition released (l : list act) : list Z := omap (fun x => match x with AReleased p => Some p | _ => None end) l.
Definition not_port (c : closing_) : bool := match c with CPort _ => false | _ => true end.
Definition PortOk d : Prop :=
  if closed d then (exists pre, closing d = pre ++ (CPort <$> option_list port) /\ forallb not_port pre = true /\ released (acts d) = []) \/
                   (closing d = [] /\ released (acts d) = option_list port)
  else closing d = [] /\ releaseRTPPort d = port /\ released (acts d) = [].

(** [m] is the fork that has moved, if one has, and [f] one that can be installed on
    the sockets of the call. *)
Record Inv K a (m f : option nat) d : Prop := {
  ok_cur : exists c s, On c d /\ store d !! c = Some s /\ Sharing K a s;
  ok_all : forall i s, store d !! i = Some s -> sound a s /\ (m <> Some i -> Resting (Shut (store d)) K a s);
  ok_moved : forall i, m = Some i -> exists s, store d !! i = Some s /\ Moved (Shut (store d)) K a i (store d) s;
  ok_flight : forall i, f = Some i -> i <> 0%nat /\ mediaSession d <> Some i /\ exists s, store d !! i = Some s /\ Sharing K a s;
  ok_live : closed d = false -> K ## Shut (store d) /\ forall i s, store d !! i = Some s -> ul_agent s ## Shut (store d);
  ok_agent : forall i s, store d !! i = Some s -> uo_OwnsICEAgent s = true -> i = 0%nat /\ if closed d then CSession i ∈ closing d else mediaSession d = Some i \/ iceAgentOwner d = Some i;
  ok_owner : forall i, iceAgentOwner d = Some i -> i = 0%nat /\ mediaSession d <> Some i /\ ice = true;
  ok_closing : closed d = true -> iceAgentOwner d = None /\ ((exists c, mediaSession d = Some c /\ CSession c ∈ closing d) \/ K ⊆ Shut (store d));
  ok_todo : forall i, CSession i ∈ closing d -> i = 0%nat \/ mediaSession d = Some i;
  ok_port : PortOk d }.

Lemma Resting_mono X Y K a s : X ⊆ Y -> Resting X K a s -> Resting Y K a s.
Proof. intros H [[H1 H2]|H1]; [left|by right]. split; [set_solver|]. intros Ha. specialize (H2 Ha). set_solver. Qed.
Lemma Sharing_Resting X K a s : Sharing K a s -> Resting X K a s.
Proof. intros [H1 H2]. left. split; [set_solver|]. rewrite H2. done. Qed.

Lemma sound_no_agent a s : sound a s -> ice = false -> uo_OwnsICEAgent s = false.
Proof. intros [H1 H2 _] Hi. destruct (uo_OwnsICEAgent s) eqn:E; [|done]. pose proof (ul_ice_agent s H1 E). congruence. Qed.

(** The session [i], when it is the installed one, the one in flight, the moved one. *)
Lemma cur_is K a m f d i s : Inv K a m f d -> mediaSession d = Some i -> store d !! i = Some s -> On i d /\ Sharing K a s.
Proof. intros H Hc Hs. destruct (ok_cur _ _ _ _ _ H) as (c & u & HO & Hu & HS). pose proof (proj1 HO). by simplify_eq. Qed.
Lemma flight_is K a m i d s : Inv K a m (Some i) d -> store d !! i = Some s -> Sharing K a s.
Proof. intros H Hs. destruct (ok_flight _ _ _ _ _ H i eq_refl) as (_ & _ & u & Hu & HS). by simplify_eq. Qed.
Lemma moved_is K a f i d s : Inv K a (Some i) f d -> store d !! i = Some s -> Moved (Shut (store d)) K a i (store d) s.
Proof. intros H Hs. destruct (ok_moved _ _ _ _ _ H i eq_refl) as (u & Hu & HS). by simplify_eq. Qed.

(** ** The operations on a session *)

Definition put (i : nat) (t : S) d : dialog S := d <| store := <[i := t]> (store d) |>.

(** The new value [t] of the session [i], with the sockets [Y] closed. *)
Lemma ok_put K a m m' f f' d i s t Y : Inv K a m f d -> store d !! i = Some s -> sound a t -> ul_shut t = ul_shut s ∪ Y ->
  (closed d = false -> Y ## K /\ (ice = true -> Y = ∅)) ->
  ul_agent t ⊆ ul_agent s -> (uo_OwnsICEAgent t = true -> uo_OwnsICEAgent s = true) ->
  (mediaSession d = Some i \/ f' = Some i -> Sharing K a t) -> (f' = f \/ f' = None) ->
  (m' = m \/ m = Some i /\ m' = None \/ m = None /\ m' = Some i) ->
  (m' <> Some i -> Resting (Shut (store d) ∪ Y) K a t) ->
  (forall j u, m' = Some j -> j <> i -> store d !! j = Some u -> Y ∪ ul_conns t ## ul_conns u) ->
  (m' = Some i -> Moved (Shut (store d) ∪ Y) K a i (store d) t) ->
  Inv K a m' f' (put i t d).
Proof.
  intros [H1 H2 H3 H4 H5 H6 H7 H8 H10 H9] Hi Ht HY Hlive Ha Ho Hcur Hf Hm Hrest Hother Hmov. pose proof (Shut_put _ i s t Y Hi HY) as HX.
  assert (<[i:=t]> (store d) !! i = Some t) as Hit by (apply list_lookup_insert_eq; by eapply lookup_lt_Some).
  split; cbn [put field_update eta_dialog store mediaSession iceAgentOwner closing closed].
  - destruct H1 as (c & u & (Hc & H1) & Hu & HS). destruct (decide (c = i)) as [->|Hn]; [exists i, t; split; [by split|]; split; [done|auto]|].
    exists c, u. split; [by split|]. by rewrite list_lookup_insert_ne.
  - intros j u Hj. rewrite HX. apply list_lookup_insert_Some in Hj as [(<- & <- & _)|[Hn Hj]]; [by split|].
    destruct (H2 j u Hj) as [Hu Hr]. split; [done|]. intros Hmj. apply (Resting_mono (Shut (store d))); [set_solver|]. apply Hr. destruct Hm as [->|[[-> ->]|[-> ->]]]; [done|congruence|done].
  - intros j Hj. rewrite HX. destruct (decide (i = j)) as [<-|Hn].
    + exists t. split; [done|]. destruct (Hmov Hj) as (G1 & G2 & G3 & G4). split; [done|]. split; [done|]. split; [done|]. intros k u Hk Hu. rewrite list_lookup_insert_ne in Hu by done. by eapply G4.
    + assert (m = Some j) as Hmj by (destruct Hm as [->|[[-> ->]|[-> ->]]]; congruence). destruct (H3 j Hmj) as (u & Hu & G1 & G2 & G3 & G4). exists u. split; [by rewrite list_lookup_insert_ne|].
      pose proof (Hother j u Hj (not_eq_sym Hn) Hu). split; [done|]. split; [done|]. split; [set_solver|]. intros k v Hk Hv. apply list_lookup_insert_Some in Hv as [(<- & <- & _)|[Hnk Hv]]; [set_solver|by eapply G4].
  - intros j Hj. assert (f = Some j) as Hfj by (destruct Hf as [<-| ->]; [done|done]). destruct (H4 j Hfj) as (G1 & G2 & u & Hu & HS). split; [done|]. split; [done|].
    destruct (decide (i = j)) as [<-|Hn]; [exists t; auto|]. exists u. by rewrite list_lookup_insert_ne.
  - intros Hc. rewrite HX. destruct (H5 Hc) as [G1 G2]. destruct (Hlive Hc) as [L1 L2]. split; [set_solver|]. intros j u Hj.
    assert (ul_agent u ## Shut (store d)) as Hg.
    { apply list_lookup_insert_Some in Hj as [(<- & <- & _)|[Hn Hj]]; [specialize (G2 _ _ Hi); set_solver|by eapply G2]. }
    destruct ice eqn:E; [rewrite L2 by done; set_solver|]. assert (uo_OwnsICEAgent u = false) as Hno.
    { apply list_lookup_insert_Some in Hj as [(<- & <- & _)|[Hn Hj]]; [by eapply sound_no_agent|]. eapply sound_no_agent; [by eapply H2|done]. }
    rewrite (ul_no_agent u Hno). set_solver.
  - intros j u Hj Hown. apply list_lookup_insert_Some in Hj as [(<- & <- & _)|[Hn Hj]]; [by eapply H6; [|apply Ho]|by eapply H6].
  - done.
  - intros Hc. destruct (H8 Hc) as [Hn [H|H]]; (split; [done|]); [by left|right]. rewrite HX. set_solver.
  - done.
  - done.
Qed.

Lemma same_sound a s t : ul_same s t -> sound a s -> sound a t.
Proof. intros (_ & _ & _ & H4 & H5 & _ & H7) [G1 G2 G3]. split; [auto|congruence|]. intros Hi. rewrite (proj1 (H7 a)). auto. Qed.
Lemma same_Sharing K a s t : ul_same s t -> Sharing K a s -> Sharing K a t.
Proof. intros (H1 & _ & _ & _ & _ & _ & H7) [G1 G2]. split; [congruence|]. by rewrite (proj1 (H7 a)). Qed.
Lemma same_Resting X K a s t : ul_same s t -> Resting X K a s -> Resting X K a t.
Proof. intros (H1 & _ & _ & _ & _ & _ & H7). unfold Resting. by rewrite H1, (proj1 (H7 a)). Qed.
Lemma same_Moved X K a i l s t : ul_same s t -> Moved X K a i l s -> Moved X K a i l t.
Proof. intros (H1 & _ & _ & _ & _ & _ & H7). unfold Moved. by rewrite H1, (proj1 (H7 a)). Qed.

Lemma ok_same K a m f d i s t : Inv K a m f d -> store d !! i = Some s -> ul_same s t -> Inv K a m f (put i t d).
Proof.
  intros H Hi Hst. destruct (ok_all _ _ _ _ _ H i s Hi) as [Hs Hr]. pose proof Hst as (E1 & E2 & E3 & E4 & E5 & E6 & E7).
  eapply (ok_put K a m m f f d i s t ∅ H Hi); [by eapply same_sound|by rewrite E3, union_empty_r_L|by split; [set_solver|]|by rewrite E2|by rewrite E6| |by left|by left| | |].
  - intros Hcf. eapply same_Sharing; [exact Hst|]. destruct Hcf as [Hc|Hf].
    + by eapply cur_is.
    + subst f. by eapply flight_is.
  - intros Hm. rewrite union_empty_r_L. eapply same_Resting; [exact Hst|auto].
  - intros j u Hm Hn Hu. subst m. destruct (ok_moved _ _ _ _ _ H j eq_refl) as (v & Hv & _ & _ & _ & Hd). simplify_eq. rewrite E1, union_empty_l_L. by apply (Hd i).
  - intros Hm. subst m. rewrite union_empty_r_L. eapply same_Moved; [exact Hst|]. by eapply moved_is.
Qed.

(** Closing [i] closes its sockets, once nothing runs on them or [Close] has begun. *)
Lemma ok_close K a m f d i s e : Inv K a m f d -> store d !! i = Some s ->
  (closed d = false -> uo_sameAddr a s = false) -> f <> Some i ->
  Inv K a (if bool_decide (m = Some i) then None else m) f (put i (uo_Close e s) d).
Proof.
  intros H Hi Hclosed Hf. destruct (ok_all _ _ _ _ _ H i s Hi) as [Hs Hr]. pose proof (ul_Close e s (so_quiet _ _ Hs)) as (E1 & E2 & E3 & E4 & E5 & E6).
  set (t := uo_Close e s) in *. clearbody t. assert (forall v, uo_sameAddr v t = uo_sameAddr v s) as Ea.
  { intros v. rewrite (ul_addr_sym v t), (ul_addr_sym v s). rewrite (ul_addr_sym s t) in E6. symmetry. by apply ul_addr_trans. }
  assert (ice = true -> uo_sameAddr a s = true) as Hice by apply Hs.
  assert (ice = false -> ul_agent s = ∅) as Hag by (intros E; apply ul_no_agent; by eapply sound_no_agent).
  set (m' := if bool_decide (m = Some i) then None else m). assert (m' <> Some i) as Hm' by (unfold m'; case_bool_decide; done).
  assert (forall j, m' = Some j -> m = Some j) as Hmj by (intros j; unfold m'; by case_bool_decide).
  eapply (ok_put K a m m' f f d i s t (ul_conns s ∪ ul_agent s) H Hi); [by split; [|rewrite E3; apply Hs|rewrite Ea; apply Hs]|by rewrite E1, (assoc_L (∪))| | | | |by left| | | |done].
  - intros Hc. specialize (Hclosed Hc). assert (ice = false) as Hi0 by (destruct ice; [rewrite Hice in Hclosed|]; done).
    split; [|congruence]. rewrite (Hag Hi0), union_empty_r_L. destruct (decide (m = Some i)) as [->|Hn].
    + destruct (moved_is _ _ _ _ _ _ H Hi) as (_ & _ & Hd & _). set_solver.
    + destruct (Hr Hn) as [[_ G]|[_ G]]; [|done]. specialize (G Hclosed). pose proof (proj1 (ok_live _ _ _ _ _ H Hc)). set_solver.
  - rewrite (ul_no_agent t E5). set_solver.
  - congruence.
  - intros [Hc|Hc]; [|done]. destruct (cur_is _ _ _ _ _ _ _ H Hc Hi) as [_ [G1 G2]]. split; [congruence|by rewrite Ea].
  - unfold m'. case_bool_decide; auto.
  - intros _. destruct (decide (m = Some i)) as [Hm|Hn]; [|apply (Resting_mono (Shut (store d))); [set_solver|]; specialize (Hr Hn); unfold Resting in *; by rewrite E2, Ea].
    left. rewrite E2. split; [set_solver|]. intros _. set_solver.
  - intros j u Hj Hn Hu. specialize (Hmj j Hj). destruct (ok_moved _ _ _ _ _ H j Hmj) as (v & Hv & Gi & _ & _ & Hd). simplify_eq.
    rewrite E2, (Hag Gi). specialize (Hd i s (not_eq_sym Hn) Hi). set_solver.
Qed.

(** A fork of the installed session. *)
Lemma ok_new K a m f f' d c s : Inv K a m f d -> mediaSession d = Some c -> store d !! c = Some s -> f' = f \/ f' = Some (length (store d)) ->
  Inv K a m f' (d <| store := store d ++ [uo_Fork s] |>).
Proof.
  intros H Hc Hs Hf. pose proof (proj2 (cur_is _ _ _ _ _ _ _ H Hc Hs)) as HS. destruct H as [H1 H2 H3 H4 H5 H6 H7 H8 H10 H9]. destruct (ul_Fork s) as (E1 & E2 & E3 & E4 & E5 & E6). set (t := uo_Fork s) in *. clearbody t.
  assert (Shut (store d ++ [t]) = Shut (store d)) as HX by (by eapply Shut_app).
  assert (forall v, uo_sameAddr v t = uo_sameAddr v s) as Ea.
  { intros v. rewrite (ul_addr_sym v t), (ul_addr_sym v s). rewrite (ul_addr_sym s t) in E6. symmetry. by apply ul_addr_trans. }
  assert (forall j u, (store d ++ [t]) !! j = Some u -> store d !! j = Some u \/ (j = length (store d) /\ u = t)) as Hlook.
  { intros j u Hj. apply lookup_app_Some in Hj as [Hj|[Hl Hj]]; [by left|right]. apply list_lookup_singleton_Some in Hj as [Hj <-]. split; [lia|done]. }
  assert (Sharing K a t) as HSt by (destruct HS as [G1 G2]; split; [congruence|by rewrite Ea]).
  pose proof (lookup_lt_Some _ _ _ Hs) as Hlt.
  split; cbn [field_update eta_dialog store mediaSession iceAgentOwner closing closed]; try done.
  - destruct H1 as (c' & u & HO & Hu & HSu). exists c', u. split; [done|]. split; [by apply lookup_app_l_Some|done].
  - intros j u Hj. rewrite HX. apply Hlook in Hj as [Hj|[-> ->]]; [by apply H2|]. split; [|intros _; by apply Sharing_Resting].
    destruct (H2 c s Hs) as [[G1 G2 G3] _]. split; [done|congruence|by rewrite Ea].
  - intros j Hj. rewrite HX. destruct (H3 j Hj) as (u & Hu & G1 & G2 & G3 & G4). exists u. split; [by apply lookup_app_l_Some|]. split; [done|]. split; [done|]. split; [done|].
    intros k v Hk Hv. apply Hlook in Hv as [Hv|[-> ->]]; [by eapply G4|]. rewrite E1. destruct HS as [-> _]. set_solver.
  - intros j Hj. destruct Hf as [->|[= ->]]; [destruct (H4 j Hj) as (G1 & G2 & u & Hu & G3); split_and!; try done; exists u; split; [by apply lookup_app_l_Some|done]|].
    injection Hj as <-. split; [lia|]. split; [rewrite Hc; intros [= ->]; lia|]. exists t. split; [|done]. by apply list_lookup_middle.
  - intros Hcl. rewrite HX. destruct (H5 Hcl) as [G1 G2]. split; [done|]. intros j u Hj. apply Hlook in Hj as [Hj|[-> ->]]; [by eapply G2|]. rewrite (ul_no_agent t E5). set_solver.
  - intros j u Hj Hown. apply Hlook in Hj as [Hj|[-> ->]]; [by eapply H6|congruence].
  - intros Hcl. rewrite HX. by apply H8.
Qed.

(** The fields the invariant is about. *)
Definition core d := (store d, mediaSession d, (r_media <$> rtpSession d), iceAgentOwner d, jitterBuffer d, packetReader d, packetWriter d,
  releaseRTPPort d, closed d, closing d, released (acts d)).
Lemma ok_core K a m f d d' : core d' = core d -> Inv K a m f d -> Inv K a m f d'.
Proof.
  unfold core. intros [= E1 E2 E3 E4 E5 E6 E7 E8 E9 E10 E11] [H1 H2 H3 H4 H5 H6 H7 H8 H10 H9].
  split; rewrite ?E1, ?E2, ?E4, ?E9, ?E10; try done.
  - destruct H1 as (c & s & (G1 & (r & G2 & G3) & G4 & G5) & Hs & HS). exists c, s. split; [|done]. unfold On. rewrite E2, E5, E6, E7. split; [done|]. split; [|done].
    rewrite G2 in E3. destruct (rtpSession d') as [r'|]; [|done]. cbn in E3. simplify_eq. by exists r'.
  - unfold PortOk in *. by rewrite E8, E9, E10, E11.
Qed.
Lemma ok_ended K a m f d : Inv K a m f d -> Inv K a m None d.
Proof. intros [H1 H2 H3 H4 H5 H6 H7 H8 H10 H9]. by split. Qed.

Lemma ok_open K a m f d : Inv K a m f d -> closed d = false -> closing d = [].
Proof. intros H Hc. pose proof (ok_port _ _ _ _ _ H) as HP. unfold PortOk in HP. rewrite Hc in HP. by destruct HP. Qed.

(** Installing the fork in flight. *)
Definition installs (i : nat) d d' : Prop :=
  On i d' /\ closed d' = closed d /\ closing d' = closing d /\ releaseRTPPort d' = releaseRTPPort d /\ released (acts d') = released (acts d) /\
  forall c s, mediaSession d = Some c -> store d !! c = Some s ->
    iceAgentOwner d' = if uo_OwnsICEAgent s && bool_decide (iceAgentOwner d = None) then Some c else iceAgentOwner d.

Lemma ok_installs_owner K a m f d d' i : Inv K a m f d -> installs i d d' -> closed d = false -> i <> 0%nat ->
  (forall j s, store d !! j = Some s -> uo_OwnsICEAgent s = true -> j = 0%nat /\ if closed d' then CSession j ∈ closing d' else mediaSession d' = Some j \/ iceAgentOwner d' = Some j) /\
  (forall j, iceAgentOwner d' = Some j -> j = 0%nat /\ mediaSession d' <> Some j /\ ice = true).
Proof.
  intros H (HO & E1 & E2 & E3 & E4 & E5) Hc Hi. destruct (ok_cur _ _ _ _ _ H) as (c & s & [Hcur _] & Hs & _). specialize (E5 c s Hcur Hs). destruct HO as [Hm _].
  split.
  - intros j u Hu Hown. destruct (ok_agent _ _ _ _ _ H j u Hu Hown) as [-> G]. split; [done|]. rewrite E1. rewrite Hc in *. destruct G as [G|G].
    + assert (c = 0%nat) as -> by congruence. assert (u = s) as -> by congruence. rewrite Hown in E5. cbn [andb] in E5. right. rewrite E5. case_bool_decide as Ho; [done|].
      destruct (iceAgentOwner d) as [q|] eqn:Eq; [|done]. destruct (ok_owner _ _ _ _ _ H q Eq) as (-> & Hne & _). done.
    + right. rewrite E5, G, bool_decide_false by done. by rewrite andb_false_r.
  - intros j Hj. rewrite E5 in Hj. destruct (uo_OwnsICEAgent s) eqn:Ho; cbn [andb] in Hj.
    + case_bool_decide as Hn; [|by destruct (ok_owner _ _ _ _ _ H j Hj) as (-> & _ & ?); rewrite Hm; split; [|split; [congruence|]]].
      injection Hj as <-. destruct (ok_agent _ _ _ _ _ H c s Hs Ho) as [-> _]. rewrite Hm. split; [done|]. split; [congruence|].
      destruct (ok_all _ _ _ _ _ H 0%nat s Hs) as [[Hq Hice _] _]. rewrite <- Hice. by apply ul_ice_agent.
    + destruct (ok_owner _ _ _ _ _ H j Hj) as (-> & _ & ?). rewrite Hm. split; [done|]. split; [congruence|done].
Qed.
Lemma ok_installs_port i d d' : installs i d d' -> PortOk d -> PortOk d'.
Proof. intros (_ & E1 & E2 & E3 & E4 & _). unfold PortOk. by rewrite E1, E2, E3, E4. Qed.

Lemma ok_install K a m i d d' : Inv K a m (Some i) d -> installs i d d' -> store d' = store d -> closed d = false -> Inv K a m None d'.
Proof.
  intros H Hin Est Hc. pose proof H as [H1 H2 H3 H4 H5 H6 H7 H8 H10 H9]. destruct (H4 i eq_refl) as (Hi & Hne & s & Hs & HS).
  destruct (ok_installs_owner _ _ _ _ _ _ _ H Hin Hc Hi) as [Ha Ho]. pose proof (ok_installs_port _ _ _ Hin H9). pose proof Hin as (HO & E1 & E2 & _).
  split; rewrite ?Est; try done.
  - by exists i, s.
  - by rewrite E1.
  - intros Hcl. congruence.
  - intros j Hj. rewrite E2, (ok_open _ _ _ _ _ H Hc) in Hj. by apply elem_of_nil in Hj.
Qed.

(** Installing the fork that has moved, and closing the session it replaces. *)
Lemma ok_install_moved K a f i d d' c s e : Inv K a (Some i) f d -> installs i d d' -> closed d = false -> i <> 0%nat ->
  mediaSession d = Some c -> store d !! c = Some s ->
  (strict = false /\ store d' = store d) \/ store d' = <[c := uo_Close e s]> (store d) ->
  exists K' a', Inv K' a' None None d'.
Proof.
  intros H Hin Hc Hi Hcur Hs Hst. destruct (ok_moved _ _ _ _ _ H i eq_refl) as (v & Hv & Hice & Hav & Hd & Hdj).
  destruct (cur_is _ _ _ _ _ _ _ H Hcur Hs) as [_ [HK Hsa]]. assert (c <> i) as Hci by (intros ->; simplify_eq; congruence).
  pose proof H as [H1 H2 H3 H4 H5 H6 H7 H8 H10 H9]. destruct (ok_installs_owner _ _ _ _ _ _ _ H Hin Hc Hi) as [Ha Ho].
  pose proof (ok_installs_port _ _ _ Hin H9) as Hport. pose proof Hin as (HO & E1 & E2 & _). exists (ul_conns v), v.
  pose proof (ul_Close e s (so_quiet _ _ (proj1 (H2 c s Hs)))) as (C1 & C2 & C3 & C4 & C5 & C6).
  assert (forall j u, store d !! j = Some u -> uo_OwnsICEAgent u = false) as Hno by (intros j u Hu; eapply sound_no_agent; [by eapply H2|done]).
  assert ((strict = false /\ Shut (store d') = Shut (store d)) \/ Shut (store d') = Shut (store d) ∪ K) as HX.
  { destruct Hst as [[? ->]| ->]; [by left|right]. rewrite (Shut_put _ c s _ (K ∪ ul_agent s) Hs) by (rewrite C1, HK; by rewrite (assoc_L (∪))).
    by rewrite (ul_no_agent s (Hno _ _ Hs)), union_empty_r_L. }
  assert (forall j u, store d' !! j = Some u -> exists w, store d !! j = Some w /\ ul_quiet u /\ ul_ice u = ice /\ ul_conns u = ul_conns w /\ uo_OwnsICEAgent u = false) as Hlook.
  { intros j u Hj. destruct Hst as [[_ Est]|Est]; rewrite Est in Hj; [exists u; destruct (H2 j u Hj) as [[] _]; split_and!; try done; by eapply Hno|].
    apply list_lookup_insert_Some in Hj as [(<- & <- & _)|[_ Hj]]; [exists s; destruct (H2 c s Hs) as [[_ G _] _]; split_and!; try done; congruence|].
    exists u. destruct (H2 j u Hj) as [[] _]. split_and!; try done; by eapply Hno. }
  assert (store d' !! i = Some v) as Hv' by (destruct Hst as [[_ ->]| ->]; [done|by rewrite list_lookup_insert_ne]).
  split; try done.
  - exists i, v. split; [done|]. split; [done|]. split; [done|apply ul_addr_refl].
  - intros j u Hj. destruct (Hlook j u Hj) as (w & Hw & G1 & G2 & G3 & G4). split; [split; [done|done|congruence]|]. intros _.
    destruct (decide (j = i)) as [->|Hn]; [assert (u = v) as -> by congruence; apply Sharing_Resting; split; [done|apply ul_addr_refl]|].
    destruct HX as [[Hstr _]|HX]; [right; split; [done|]; rewrite G3; by apply (Hdj j w)|].
    destruct (H2 j w Hw) as [_ Hr]. destruct (Hr ltac:(congruence)) as [[Hr' _]|[Hr1 Hr2]]; [|right; split; [done|]; rewrite G3; by apply (Hdj j w)].
    left. rewrite HX, G3. clear -Hr'. split; set_solver.
  - intros _. split; [destruct HX as [[_ ->]| ->]; clear -Hd; set_solver|]. intros j u Hj. destruct (Hlook j u Hj) as (w & _ & _ & _ & _ & G). rewrite (ul_no_agent u G). set_solver.
  - intros j u Hj Hown. destruct (Hlook j u Hj) as (w & _ & _ & _ & _ & G). congruence.
  - intros Hcl. congruence.
  - intros j Hj. rewrite E2, (ok_open _ _ _ _ _ H Hc) in Hj. by apply elem_of_nil in Hj.
Qed.

Lemma ok_forget K a f i d : strict = false -> Inv K a (Some i) f d -> Inv K a None f d.
Proof.
  intros Hst H. destruct (ok_moved _ _ _ _ _ H i eq_refl) as (v & Hv & _ & _ & Hd & _). destruct H as [H1 H2 H3 H4 H5 H6 H7 H8 H10 H9]. split; try done.
  intros j u Hj. destruct (H2 j u Hj) as [G1 G2]. split; [done|]. intros _. destruct (decide (j = i)) as [->|Hn]; [|apply G2; congruence].
  simplify_eq. right. split; [done|]. set_solver.
Qed.

(** A description on the fork in flight. *)
Definition fresh (e : uo_env) d : Prop :=
  (forall i s, store d !! i = Some s -> ul_bound e ## ul_conns s ∪ ul_shut s) /\
  (forall c s, mediaSession d = Some c -> store d !! c = Some s -> ul_apart e s).

Lemma fresh_shut e d : fresh e d -> ul_bound e ## Shut (store d).
Proof. intros [H _] x Hx Hs. apply elem_of_Shut in Hs as (i & s & Hi & Hs). specialize (H i s Hi). set_solver. Qed.

Lemma ok_RemoteSDP K a m d e sdp i s : Inv K a m (Some i) d -> store d !! i = Some s -> fresh e d -> m = None \/ (exists s0, s = uo_answers true s0) ->
  let '(t, o) := uo_RemoteSDP e sdp s in
  match o with
  | Ok => Inv K a m (Some i) (put i t d) \/ (m = None /\ uo_FinalizePending t = true /\ Inv K a (Some i) None (put i t d) /\ forall s0, s <> uo_answers true s0)
  | _ => Inv K a m None (put i t d)
  end.
Proof.
  intros H Hs Hf Hm. destruct (ok_all _ _ _ _ _ H i s Hs) as [Hso _]. pose proof (flight_is _ _ _ _ _ _ H Hs) as [HK Ha].
  destruct (ok_flight _ _ _ _ _ H i eq_refl) as (Hi0 & Hne & _).
  assert (uo_OwnsICEAgent s = false) as Hno.
  { destruct (uo_OwnsICEAgent s) eqn:E; [|done]. by destruct (Hi0 (proj1 (ok_agent _ _ _ _ _ H i s Hs E))). }
  destruct (ok_cur _ _ _ _ _ H) as (c & u & [Hc _] & Hu & HKu & Hau).
  assert (ul_apart e s) as Hap.
  { eapply ul_apart_same; [|by eapply (proj2 Hf)]. rewrite ul_addr_sym in Hau. rewrite <- Ha. symmetry. by apply ul_addr_trans. }
  pose proof (ul_RemoteSDP e sdp s Hno (so_quiet _ _ Hso) Hap) as HR. destruct (uo_RemoteSDP e sdp s) as [t o].
  destruct HR as (R1 & R2 & R3 & HR).
  assert (forall Y m', ul_shut t = ul_shut s ∪ Y -> Y ## K -> (ice = true -> Y = ∅) -> (ice = true -> uo_sameAddr a t = true) ->
    (m' = m \/ m = None /\ m' = Some i) -> (m' <> Some i -> Resting (Shut (store d) ∪ Y) K a t) ->
    (forall j v, m' = Some j -> j <> i -> store d !! j = Some v -> Y ∪ ul_conns t ## ul_conns v) ->
    (m' = Some i -> Moved (Shut (store d) ∪ Y) K a i (store d) t) -> Inv K a m' None (put i t d)) as Hput.
  { intros Y m' P1 P2 P3 P4 P5 P6 P7 P8. apply (ok_put K a m m' (Some i) None d i s t Y H Hs); try done; [|by rewrite (ul_no_agent t R1); set_solver|congruence| |by right|].
    - split; [done|by rewrite R3; apply Hso|done].
    - by intros [?|[=]].
    - destruct P5 as [?|[? ?]]; auto. }
  destruct HR as [HR|[(R4 & R5 & R6 & R7)|(R4 & R5 & R6 & R7 & R8)]].
  - pose proof (ok_same _ _ _ _ _ _ _ t H Hs HR) as HI. destruct o; [by left|by eapply ok_ended..].
  - enough (Inv K a m None (put i t d)) by (by destruct o).
    assert (forall v, uo_sameAddr v t = uo_sameAddr v s) as Eat.
    { intros v. rewrite (ul_addr_sym v t), (ul_addr_sym v s). rewrite (ul_addr_sym s t) in R6. symmetry. by apply ul_addr_trans. }
    apply (Hput ∅ m); [by rewrite R5, union_empty_r_L|set_solver|done|by rewrite Eat|by left| | |].
    + intros _. left. rewrite R4. set_solver.
    + intros j v Hj _ _. rewrite R4. set_solver.
    + intros ->. destruct (moved_is _ _ _ _ _ _ H Hs) as (_ & Hx & _). congruence.
  - assert (m = None) as -> by (destruct Hm as [?|[s0 ->]]; [done|by destruct (R5 s0)]).
    assert (ice = false) as Hice by (rewrite <- (so_ice _ _ Hso); done).
    assert (uo_sameAddr a t = false) as Hat by (rewrite <- R7; symmetry; by apply ul_addr_trans).
    pose proof (fresh_shut _ _ Hf) as Hfs. pose proof (proj1 Hf _ _ Hs) as Hfc. rewrite HK in Hfc.
    assert (match o with Ok => True | _ => Inv K a None None (put i t d) end) as Hfail.
    { destruct o; [done|..]; (apply (Hput (ul_bound e) None); [done|clear -Hfc; set_solver|by rewrite Hice|by rewrite Hice|by left| |done|done]);
        intros _; left; rewrite R6; (split; [clear; set_solver|intros _; clear; set_solver]). }
    destruct o; [|exact Hfail..]. right. destruct R8 as [R8 R9]. split; [done|]. split; [done|]. split; [|done].
    apply (Hput ∅ (Some i)); [by rewrite R9, union_empty_r_L|clear; set_solver|done|by rewrite Hice|by right|done| |].
    + intros j v [= <-]. done.
    + intros _. split; [done|]. split; [done|]. rewrite R6. split; [clear -Hfs Hfc; set_solver|]. intros j v _ Hv. pose proof (proj1 Hf _ _ Hv) as Hx. clear -Hx. set_solver.
Qed.

(** ** [Close] *)

Lemma ok_Close K a m f d : Inv K a m f d -> Inv K a m f (Close d).1.
Proof.
  intros H. unfold Close. cbn [modify fst]. destruct (closed d) eqn:Hc; [done|]. destruct H as [H1 H2 H3 H4 H5 H6 H7 H8 H10 H9].
  destruct H1 as (c & s & HO & Hs & HS). pose proof HO as [Hcur _].
  split; cbn [field_update eta_dialog store mediaSession iceAgentOwner closing closed]; try done.
  - by exists c, s.
  - intros i t Hi Hown. destruct (H6 i t Hi Hown) as [-> G]. split; [done|]. rewrite Hc in G. rewrite !elem_of_app. destruct G as [G|G].
    + right; right; left. rewrite G. cbn. set_solver.
    + right; right; right; left. rewrite G. destruct (H7 _ G) as (_ & Hne & _). rewrite bool_decide_false by done. set_solver.
  - intros _. split; [done|]. left. exists c. split; [done|]. rewrite !elem_of_app, Hcur. cbn. set_solver.
  - intros i. rewrite !elem_of_app. intros [G|[G|[G|[G|G]]]].
    + by apply list_elem_of_fmap in G as (? & ? & _).
    + destruct (rtpSession d); [|by apply elem_of_nil in G]. by apply list_elem_of_singleton in G.
    + rewrite Hcur in G. apply list_elem_of_singleton in G as [= ->]. by right.
    + destruct (iceAgentOwner d) as [o|] eqn:Eo; [|by apply elem_of_nil in G]. case_bool_decide; [by apply elem_of_nil in G|]. apply list_elem_of_singleton in G as [= ->]. left. by apply (H7 o).
    + by apply list_elem_of_fmap in G as (? & ? & _).
  - unfold PortOk in *. rewrite Hc in H9. cbn [field_update eta_dialog closed closing acts]. destruct H9 as (_ & Hp & Hr). left.
    rewrite Hp, !(assoc_L (++)). eexists. split; [reflexivity|]. split; [|done]. rewrite !forallb_app, !andb_true_iff. split_and!.
    + induction (onClose d); [done|by cbn].
    + by destruct (rtpSession d).
    + by destruct (mediaSession d).
    + destruct (iceAgentOwner d); [by case_bool_decide|done].
Qed.

(** [Close] has done what it had to do next. *)
Lemma ok_pop K a m f d x l : Inv K a m f d -> closing d = x :: l -> closed d = true -> not_port x = true ->
  (forall i s, x = CSession i -> store d !! i = Some s -> uo_OwnsICEAgent s = false /\ (mediaSession d = Some i -> K ⊆ Shut (store d))) ->
  Inv K a m f (d <| closing := l |>).
Proof.
  intros [H1 H2 H3 H4 H5 H6 H7 H8 H10 H9] Hl Hc Hx Hsess. split; cbn [field_update eta_dialog store mediaSession iceAgentOwner closing closed]; try done.
  - intros i s Hi Hown. destruct (H6 i s Hi Hown) as [-> G]. split; [done|]. rewrite Hc in *.
    rewrite Hl in G. apply elem_of_cons in G as [<-|G]; [|done]. by destruct (Hsess 0%nat s eq_refl Hi) as [? _]; congruence.
  - intros _. destruct (H8 Hc) as [Ho [(c & Hm & G)|G]]; (split; [done|]); [|by right]. rewrite Hl in G. apply elem_of_cons in G as [<-|G]; [|left; eauto].
    right. destruct H1 as (c' & s & [Hc' _] & Hs & _). assert (c' = c) as -> by congruence. by eapply (Hsess c s eq_refl).
  - intros i G. apply H10. rewrite Hl. by right.
  - unfold PortOk in *. cbn [field_update eta_dialog closed closing acts]. rewrite Hc in *. destruct H9 as [(pre & E & P & R)|[E R]]; [|congruence]. left.
    rewrite Hl in E. destruct pre as [|y pre]; [|cbn in E, P; simplify_eq; apply andb_true_iff in P as [_ P]; eauto].
    destruct port; cbn in E; simplify_eq; done.
Qed.

(** The port is returned last. *)
Lemma ok_release K a m f d p l : Inv K a m f d -> closing d = CPort p :: l -> closed d = true ->
  Inv K a m f (d <| closing := l |> <| acts := acts d ++ [AReleased p] |>).
Proof.
  intros [H1 H2 H3 H4 H5 H6 H7 H8 H10 H9] Hl Hc. split; cbn [field_update eta_dialog store mediaSession iceAgentOwner closing closed]; try done.
  - intros i s Hi Hown. destruct (H6 i s Hi Hown) as [-> G]. split; [done|]. rewrite Hc in *. rewrite Hl in G. by apply elem_of_cons in G as [[=]|G].
  - intros _. destruct (H8 Hc) as [Ho [(c & Hm & G)|G]]; (split; [done|]); [|by right]. rewrite Hl in G. apply elem_of_cons in G as [[=]|G]. left; eauto.
  - intros i G. apply H10. rewrite Hl. by right.
  - unfold PortOk in *. cbn [field_update eta_dialog closed closing acts]. rewrite Hc in *. destruct H9 as [(pre & E & P & R)|[E R]]; [|congruence]. right.
    rewrite Hl in E. destruct pre as [|y pre]; [|cbn in E, P; simplify_eq; done]. destruct port as [q|]; cbn in E; simplify_eq. split; [done|].
    unfold released in *. rewrite omap_app, R. done.
Qed.

End Invariant.
End MediaUpdateInv.
