(* ===== verification/MediaUpdateSpecs.v ===== *)
(** * The methods of a media update keep its invariant

    What each method of [MediaUpdate] makes of the invariant, as weakest
    preconditions. *)
From S2P Require Import Prelude GoStrings Codec MediaSession Method MediaUpdate MediaUpdateLaws MediaUpdateInv.
Import Codecs MediaSession Method MediaUpdate MediaUpdateLaws MediaUpdateInv.

Module MediaUpdateSpecs.

Section Specs.
Context {S : Type} {uo : UpdateOps S} {ul : UpdateLaws uo} (ice strict : bool) (port : option Z).
Abbreviation Inv := (Inv ice strict port).
Implicit Types (K : gset nat) (a s t : S) (d : dialog S) (e : upd_env).

(** A method returns or fails so that [P]. *)
Definition ends {A} (P : option A -> dialog S -> Prop) : res A -> dialog S -> Prop := fun r d =>
  match r with Return x => P (Some x) d | Fail _ => P None d | _ => True end.

(** What a method leaves alone. *)
Definition kept d d' : Prop := ackOffer d' = ackOffer d /\ ended d' = ended d /\ closed d' = closed d /\ (length (store d) <= length (store d'))%nat.
Lemma kept_refl d : kept d d.
Proof. by split_and!. Qed.
Lemma kept_trans d1 d2 d3 : kept d1 d2 -> kept d2 d3 -> kept d1 d3.
Proof. unfold kept. intros (?&?&?&?) (?&?&?&?). split_and!; try congruence. lia. Qed.

Lemma load_spec i (Q : res S -> dialog S -> Prop) d : (forall s, store d !! i = Some s -> Q (Return s) d) -> Q Panics d -> wp (load i) Q d.
Proof. intros H1 H2. unfold load. wp_steps. cbn [id]. destruct (store d !! i) as [s|] eqn:E; wp_steps; auto. Qed.
Lemma load_found i s (Q : res S -> dialog S -> Prop) d : store d !! i = Some s -> Q (Return s) d -> wp (load i) Q d.
Proof. intros Hs HQ. unfold load. wp_steps. cbn [id]. rewrite Hs. by wp_steps. Qed.
Lemma new_spec s (Q : res nat -> dialog S -> Prop) d : Q (Return (length (store d))) (d <| store := store d ++ [s] |>) -> wp (new s) Q d.
Proof. done. Qed.
Lemma kept_put i t d : kept d (put i t d).
Proof. split_and!; try done. cbn. by rewrite length_insert. Qed.

Lemma save_same K a m f d i s t : Inv K a m f d -> store d !! i = Some s -> ul_same s t -> wp (save i t) (ends (fun _ d' => Inv K a m f d' /\ kept d d')) d.
Proof. intros H Hs Hst. unfold save. wp_step. split; [by eapply ok_same|apply kept_put]. Qed.

Lemma LocalSDP_spec K a m f d e i : Inv K a m f d -> wp (LocalSDP e i) (ends (fun _ d' => Inv K a m f d' /\ kept d d')) d.
Proof.
  intros H. unfold LocalSDP. wp_step. apply load_spec; [|done]. intros s Hs. wp_steps. pose proof (ul_LocalSDP (u_env e) s) as HL.
  destruct (uo_LocalSDP _ _) as [t sd]. wp_step. wp_call save_same; [exact H|exact Hs|exact HL|]. intros [] d' H'; first [done|by wp_steps].
Qed.

Lemma FinalizeContext_spec K a m f d e i : Inv K a m f d -> i <> 0%nat -> wp (FinalizeContext e i) (ends (fun _ d' => Inv K a m f d' /\ kept d d')) d.
Proof.
  intros H Hi. unfold FinalizeContext. wp_step. apply load_spec; [|done]. intros s Hs. wp_steps.
  destruct (uo_FinalizeContext _ _) as [[t err]|] eqn:E; [|by wp_steps].
  assert (uo_OwnsICEAgent s = false) as Hno by (destruct (uo_OwnsICEAgent s) eqn:Ho; [by destruct (Hi (proj1 (ok_agent _ _ _ _ _ _ _ _ H i s Hs Ho)))|done]).
  wp_step. wp_call save_same; [exact H|exact Hs|by eapply ul_Finalize|]. intros [] d' H'; first [done|by wp_steps].
Qed.

Lemma LocalSDP_returns e i d err : (LocalSDP e i d).2 <> Fail err.
Proof. unfold LocalSDP, bind, load, gets, save, modify, bind, id. cbv beta iota. destruct (store d !! i) as [s|]; [|done]. cbn. by destruct (uo_LocalSDP _ _). Qed.
Lemma FinalizeContext_returns e i d err : (FinalizeContext e i d).2 <> Fail err.
Proof. unfold FinalizeContext, bind, load, gets, save, modify, bind, id. cbv beta iota. destruct (store d !! i) as [s|]; [|done]. cbn. by destruct (uo_FinalizeContext _ _) as [[]|]. Qed.

Lemma FinalizePending_spec d i (Q : res bool -> dialog S -> Prop) :
  (forall s, store d !! i = Some s -> Q (Return (uo_FinalizePending s)) d) -> Q Panics d -> wp (FinalizePending i) Q d.
Proof. intros H1 H2. unfold FinalizePending. wp_step. apply load_spec; [|by wp_steps]. intros s Hs. wp_steps. auto. Qed.

Lemma negotiatedOffer_spec K a m f d e i c : Inv K a m f d -> wp (negotiatedOffer e i c) (ends (fun _ d' => Inv K a m f d' /\ kept d d')) d.
Proof.
  intros H. unfold negotiatedOffer. wp_step. apply load_spec; [|done]. intros s Hs. wp_step. wp_step. apply load_spec; [|done]. intros u Hu. wp_step. cbv zeta. wp_step.
  assert (wp match uo_CommonCodecs u with [] => ret () | x :: l => save i (uo_setCodecs (x :: l) s) end (ends (fun _ d' => Inv K a m f d' /\ kept d d')) d) as Hw.
  { destruct (uo_CommonCodecs u) as [|x l]; [wp_steps; split; [done|apply kept_refl]|]. eapply save_same; [exact H|exact Hs|apply ul_setCodecs]. }
  eapply wp_mono; [exact Hw|]. intros [] d1 H1; try done. destruct H1 as [H1 K1]. wp_step. wp_step. wp_call LocalSDP_spec; [exact H1|]. intros [] d2 H2; try done.
  2: destruct H2 as [H2 K2]; split; [done|by eapply kept_trans]. destruct H2 as [H2 K2]. wp_step. wp_step. apply load_spec; [|done]. intros t Ht. wp_steps.
  wp_call save_same; [exact H2|exact Ht|apply ul_setCodecs|]. intros [[]|err| |] d3 H3; try done; destruct H3 as [H3 K3]; wp_steps; (split; [done|]); (eapply kept_trans; [by eapply kept_trans|done]).
Qed.

Lemma negotiatedOffer_returns e i c d err : (negotiatedOffer e i c d).2 <> Fail err.
Proof.
  unfold negotiatedOffer. unfold bind at 1, load, bind at 1, gets. cbv beta iota. cbn [id]. destruct (store d !! i) as [s|]; [|done]. cbn [ret]. unfold bind at 1 2. cbv beta iota.
  destruct (store d !! c) as [u|]; [|done]. cbn [ret]. cbv zeta. unfold bind at 1.
  assert (exists d1, match uo_CommonCodecs u with [] => ret () | x :: l => save i (uo_setCodecs (x :: l) s) end d = (d1, Return tt)) as [d1 ->] by (destruct (uo_CommonCodecs u); by eexists).
  unfold bind at 1. pose proof (LocalSDP_returns e i d1) as HL. destruct (LocalSDP e i d1) as [d2 [sd|err'| |]]; try done.
  unfold bind at 1 2. cbv beta iota. destruct (store d2 !! i) as [t|]; done.
Qed.
Lemma wp_returns {A} (m : M (dialog S) A) P d : wp m (ends P) d -> (forall err, (m d).2 <> Fail err) -> wp m (fun r d' => match r with Return x => P (Some x) d' | Fail _ => False | _ => True end) d.
Proof. unfold wp. intros H1 H2. destruct (m d) as [d' []]; try done. by destruct (H2 e). Qed.

(** *** Installing and dropping a fork *)

Definition dropped (i : nat) (m : option nat) : option nat := if bool_decide (m = Some i) then None else m.

Lemma discardForkUnsafe_spec K a m f d e i : Inv K a m f d ->
  wp (discardForkUnsafe e i) (ends (fun _ d' => Inv K a (dropped i m) f d' /\ kept d d')) d.
Proof.
  intros H. unfold dropped. destruct (ok_cur _ _ _ _ _ _ _ _ H) as (c & u & HO & Hu & HS). unfold discardForkUnsafe. wp_step. wp_step. wp_step. cbn [id]. wp_step. apply load_spec; [|done].
  intros s Hs. rewrite (proj1 HO). wp_step. wp_step. apply load_spec; [|done]. intros u' Hu'. simplify_eq. wp_step.
  assert (uo_sameAddr u s = uo_sameAddr a s) as Ea by (destruct HS as [_ HS]; by apply ul_addr_trans).
  rewrite Ea. destruct (uo_sameAddr a s) eqn:E.
  - wp_step. split; [|apply kept_refl]. case_bool_decide as Hm; [|done]. subst m. destruct (moved_is _ _ _ _ _ _ _ _ _ H Hs) as (_ & Hx & _). congruence.
  - wp_step. unfold close_session. wp_step. apply load_spec; [|done]. intros s' Hs'. simplify_eq. unfold save, did. wp_steps.
    assert (f <> Some i) as Hf by (intros ->; destruct (flight_is _ _ _ _ _ _ _ _ _ H Hs); congruence).
    match goal with |- match _ with Some e => ?P | None => ?Q end => enough Q as HQ by (by destruct (u_close e)) end.
    split; [|apply (kept_put i (uo_Close (u_env e) s) d)].
    eapply ok_core; [|by apply (ok_close _ _ _ _ _ _ _ _ i s (u_env e) H Hs)].
    unfold core. cbn. unfold released. by rewrite omap_app, app_nil_r.
Qed.

(** [replaceRTPSessionUnsafe] up to the change of session. *)
Definition started d d' : Prop := core d' = core d /\ kept d d'.
Lemma started_monitor d : started d (monitor_closed d).
Proof. split; [|unfold kept; by split_and!]. unfold core, monitor_closed. cbn. by destruct (rtpSession d). Qed.

Lemma started_On c d d' : started d d' -> On c d -> On c d'.
Proof.
  unfold started, core. intros [[= E1 E2 E3 E4 E5 E6 E7 E8 E9 E10 E11] _] (G1 & (r & G2 & G3) & G4 & G5). unfold On. rewrite E2, E5, E6, E7. split; [done|]. split; [|done].
  rewrite G2 in E3. destruct (rtpSession d') as [r'|]; [|done]. cbn in E3. simplify_eq. by exists r'.
Qed.

Definition stack_failed e : Prop := u_monitorClose e <> None \/ u_monitor e <> None.

(** What [replaceRTPSessionUnsafe] comes to: nothing, or [i] is installed and, if it
    has left the address of the session it replaces, that one is closed. *)
Inductive replaced e (i c : nat) s0 d : option unit -> dialog S -> Prop :=
| not_replaced d' : started d d' -> closed d = true \/ stack_failed e -> replaced e i c s0 d None d'
| replaced_only s t err d' : uo_CarryRTPDeadlines (u_carry e) s0 s = (t, err) ->
    store d !! i = Some s -> closed d = false -> installs i (put i t d) d' -> kept d d' -> store d' = <[i := t]> (store d) ->
    err <> None \/ iceAgentOwner d' = Some c \/ uo_sameAddr s0 s = true -> replaced e i c s0 d (match err with None => Some tt | Some _ => None end) d'
| replaced_closed s t err d' : uo_CarryRTPDeadlines (u_carry e) s0 s = (t, err) ->
    store d !! i = Some s -> closed d = false -> installs i (put i t d) d' -> kept d d' -> store d' = <[c := uo_Close (u_env e) s0]> (<[i := t]> (store d)) ->
    uo_sameAddr s0 s = false -> replaced e i c s0 d (match u_close e with None => Some tt | Some _ => None end) d'.

Lemma replaceRTPSessionUnsafe_spec e i c s0 si d : On c d -> store d !! c = Some s0 -> store d !! i = Some si -> i <> c ->
  wp (replaceRTPSessionUnsafe e i) (fun r d' => match r with Return x => replaced e i c s0 d (Some x) d' | Fail _ => replaced e i c s0 d None d' | _ => False end) d.
Proof.
  intros HO Hs0 Hsi Hne. pose proof HO as (G1 & (r & G2 & _) & G4 & G5). unfold replaceRTPSessionUnsafe. wp_step. wp_step. wp_step. cbn [id].
  destruct (closed d) eqn:Hc; [wp_steps; eapply not_replaced; [by split; [|apply kept_refl]|by left]|]. rewrite G2. wp_step. wp_step. wp_step. wp_step. wp_step.
  destruct (u_monitorClose e) eqn:Em; [wp_step; eapply not_replaced; [apply started_monitor|right; left; congruence]|]. wp_step.
  destruct (u_monitor e) eqn:Eb; [wp_steps; eapply not_replaced; [apply started_monitor|right; right; congruence]|].
  wp_step. set (d1 := monitor_closed d). assert (started d d1) as Hst by apply started_monitor.
  set (d2 := match jitterBuffer d with Some _ => d1 <| jitterBuffer := Some i |> | None => d1 <| packetReader := Some i |> end).
  assert (wp match jitterBuffer d, packetReader d with Some _, _ => modify (fun d => d <| jitterBuffer := Some i |>) | None, Some _ => modify (fun d => d <| packetReader := Some i |>) | None, None => panic end
    (fun r d' => r = Return tt /\ d' = d2) d1) as Hw.
  { unfold d2. destruct (jitterBuffer d); [by wp_steps|]. destruct G5 as [?|[_ ->]]; [done|]. by wp_steps. }
  eapply wp_mono; [exact Hw|]. intros ? ? [-> ->]. wp_step. rewrite G4. wp_step. wp_step. wp_step. rewrite G1. wp_step.
  set (d3 := d2 <| packetWriter := Some i |>). assert (store d3 = store d) as E3 by (unfold d3, d2; by destruct (jitterBuffer d)).
  apply (load_found _ s0); [by rewrite E3|]. wp_step. wp_step. rename si into s, Hsi into Hs. apply (load_found _ s); [by rewrite E3|]. wp_step. wp_step. wp_step.
  rewrite (proj2 (Nat.eqb_neq c i)) by done. cbn [negb andb].
  set (d4 := d3 <| iceAgentOwner := _ |> <| mediaSession := _ |> <| rtpSession := _ |>).
  destruct (uo_CarryRTPDeadlines (u_carry e) s0 s) as [t err] eqn:Ecar. unfold save. wp_step. wp_step. wp_step. wp_step.
  set (d5 := d4 <| store := <[i:=t]> (store d4) |>).
  assert (installs i (put i t d) d5 /\ kept d d5 /\ store d5 = <[i:=t]> (store d)) as (Hin & Hk & Hst5).
  { assert (On i d5) as HO5.
    { split; [done|]. split; [by eexists|]. split; [done|]. unfold d5, d4, d3, d2, d1, monitor_closed. cbn. destruct (jitterBuffer d) eqn:Ej; [by left|]. by right. }
    unfold installs, kept, d5, d4, d3, d2, d1, monitor_closed, put in *. cbn in *. destruct (jitterBuffer d); cbn in *; rewrite ?length_insert; split_and!; try done; intros c' s' Hc' Hs'; assert (c' = c) as -> by congruence;
      rewrite list_lookup_insert_ne in Hs' by done; assert (s' = s0) as -> by congruence; done. }
  clearbody d5. destruct err as [err|]; cbn [fmap option_fmap option_map].
  { wp_steps. eapply (replaced_only e i c s0 d s t (Some err)); try done. by left. }
  wp_step. wp_step. wp_step. wp_step. wp_step. case_bool_decide as Ho; cbn [negb andb].
  { wp_step. eapply (replaced_only e i c s0 d s t None); try done. by right; left. }
  destruct (uo_sameAddr s0 s) eqn:Ea; cbn [negb].
  { wp_step. eapply (replaced_only e i c s0 d s t None); try done. by right; right. }
  wp_step. wp_step. unfold close_session. wp_step. apply (load_found _ s0); [by rewrite Hst5, list_lookup_insert_ne|]. unfold save, did. wp_steps.
  set (d6 := d5 <| store := _ |> <| acts := _ |>).
  assert (replaced e i c s0 d (match u_close e with None => Some tt | Some _ => None end) d6) as HR; [|by destruct (u_close e)].
  eapply (replaced_closed e i c s0 d s t None); try done.
  - destruct Hin as (I1 & I2 & I3 & I4 & I5 & I6). unfold d6. split_and!; try done. cbn. unfold released in *. by rewrite omap_app, app_nil_r.
  - destruct Hk as (K1 & K2 & K3 & K4). unfold d6. split_and!; try done. cbn. rewrite length_insert. done.
  - unfold d6. cbn. by rewrite Hst5.
Qed.

Definition calm e : Prop := ~ stack_failed e /\ u_carry e = None.

Lemma replace_shared K a m d e i : Inv K a m (Some i) d -> wp (replaceRTPSessionUnsafe e i) (ends (fun _ d' => Inv K a m None d' /\ kept d d')) d.
Proof.
  intros H. destruct (ok_cur _ _ _ _ _ _ _ _ H) as (c & s0 & HO & Hs0 & HS0). destruct (ok_flight _ _ _ _ _ _ _ _ H i eq_refl) as (Hi & Hne & s1 & Hs1 & HS1).
  assert (forall r d', replaced e i c s0 d r d' -> Inv K a m None d' /\ kept d d') as HR.
  { intros r d' [d1 [Hcore Hk] _|s t err d1 Ecar Hs Hcl Hin Hk Hst _|s t err d1 Ecar Hs Hcl Hin Hk Hst Hsa].
    - split; [|done]. eapply ok_ended, ok_core; [exact Hcore|exact H].
    - split; [|done]. eapply (ok_install _ _ _ K a m i (put i t d)); [|exact Hin|done|done]. eapply ok_same; [exact H|exact Hs|]. pose proof (ul_Carry (u_carry e) s0 s) as HC. by rewrite Ecar in HC.
    - assert (s1 = s) as -> by congruence. destruct HS0 as [_ A0], HS1 as [_ A1]. rewrite <- (ul_addr_trans a s0 s A0) in A1. congruence. }
  eapply wp_mono; [eapply replaceRTPSessionUnsafe_spec; [exact HO|exact Hs0|exact Hs1|intros ->; by destruct HO]|]. intros [] d' Hr; try done; cbn in *; by eapply HR.
Qed.

Lemma replace_moved K a d e i : Inv K a (Some i) None d -> closed d = false -> i <> 0%nat -> (strict = true -> calm e) ->
  wp (replaceRTPSessionUnsafe e i) (ends (fun _ d' => (exists K' a', Inv K' a' None None d') /\ kept d d')) d.
Proof.
  intros H Hc Hi Hcalm. destruct (ok_cur _ _ _ _ _ _ _ _ H) as (c & s0 & HO & Hs0 & HS0). destruct (ok_moved _ _ _ _ _ _ _ _ H i eq_refl) as (s1 & Hs1 & HM).
  assert (i <> c) as Hne. { intros ->. destruct HM as (_ & Hx & _), HS0 as [_ Hy]. congruence. }
  assert (uo_sameAddr s0 s1 = false) as Ha by (rewrite (ul_addr_trans a s0 s1); [by destruct HM as (_ & ? & _)|by destruct HS0]).
  assert (forall r d', replaced e i c s0 d r d' -> (exists K' a', Inv K' a' None None d') /\ kept d d') as HR.
  { intros r d' [d1 [Hcore Hk] Hf|s t err d1 Ecar Hs Hcl Hin Hk Hst Hwhy|s t err d1 Ecar Hs Hcl Hin Hk Hst Hsa].
    - split; [|done]. exists K, a. apply (ok_core _ _ _ _ _ _ _ d); [done|]. destruct Hf as [?|Hf]; [congruence|]. destruct strict eqn:Es; [by destruct (Hcalm eq_refl)|by eapply ok_forget].
    - split; [|done]. assert (s1 = s) as -> by congruence. pose proof (ul_Carry (u_carry e) s0 s) as HC. pose proof (ok_same _ _ _ K a (Some i) None d i s t H Hs) as H'. rewrite Ecar in HC. specialize (H' HC).
      eapply (ok_install_moved _ _ _ K a None i (put i t d) d1 c s0 (u_env e)); [exact H'|exact Hin|done|done|apply HO|cbn; by rewrite list_lookup_insert_ne|left]. split; [|done].
      destruct strict eqn:Es; [exfalso|done]. destruct (Hcalm eq_refl) as [_ Hcar]. destruct Hwhy as [He|[Ho|He]]; [|..].
      + apply He. rewrite Hcar in Ecar. pose proof (ul_Carry_none s0 s) as HN. by rewrite Ecar in HN.
      + destruct Hin as (_ & _ & _ & _ & _ & Hown). specialize (Hown c s0 (proj1 HO)). cbn in Hown. rewrite list_lookup_insert_ne in Hown by done. specialize (Hown Hs0).
        destruct HM as (Hice & _). rewrite (sound_no_agent _ a s0 (proj1 (ok_all _ _ _ _ _ _ _ _ H c s0 Hs0)) Hice) in Hown. cbn [andb] in Hown. rewrite Hown in Ho.
        destruct (ok_owner _ _ _ _ _ _ _ _ H c Ho) as (_ & Hx & _). by destruct HO.
      + congruence.
    - split; [|done]. assert (s1 = s) as -> by congruence. pose proof (ul_Carry (u_carry e) s0 s) as HC. pose proof (ok_same _ _ _ K a (Some i) None d i s t H Hs) as H'. rewrite Ecar in HC. specialize (H' HC).
      eapply (ok_install_moved _ _ _ K a None i (put i t d) d1 c s0 (u_env e)); [exact H'|exact Hin|done|done|apply HO|cbn; by rewrite list_lookup_insert_ne|by right]. }
  eapply wp_mono; [eapply replaceRTPSessionUnsafe_spec; [exact HO|exact Hs0|exact Hs1|done]|]. intros [] d' Hr; try done; cbn in *; by eapply HR.
Qed.

(** *** Descriptions *)

Lemma fresh_put x d i s t : fresh x d -> store d !! i = Some s -> ul_same s t -> fresh x (put i t d).
Proof.
  intros [F1 F2] Hs (E1 & _ & E3 & _ & _ & _ & E7). split; cbn.
  - intros j u Hj. apply list_lookup_insert_Some in Hj as [(<- & <- & _)|[_ Hj]]; [rewrite E1, E3; by eapply F1|by eapply F1].
  - intros c u Hc Hu. apply list_lookup_insert_Some in Hu as [(<- & <- & _)|[_ Hu]]; [|by eapply F2].
    eapply ul_apart_same; [|by eapply F2]. rewrite (proj1 (E7 s)). apply ul_addr_refl.
Qed.
Lemma fresh_new x d c s : fresh x d -> store d !! c = Some s -> mediaSession d = Some c -> fresh x (d <| store := store d ++ [uo_Fork s] |>).
Proof.
  intros [F1 F2] Hs Hc. destruct (ul_Fork s) as (E1 & E2 & _). split; cbn.
  - intros j u Hj. apply lookup_app_Some in Hj as [Hj|[_ Hj]]; [by eapply F1|]. apply list_lookup_singleton_Some in Hj as [_ <-]. rewrite E1, E2. by eapply F1.
  - intros c' u Hc' Hu. assert (c' = c) as -> by congruence. rewrite lookup_app_l in Hu by (by eapply lookup_lt_Some). by eapply F2.
Qed.

Lemma RemoteSDP_spec K a m d e i sdp s : Inv K a m (Some i) d -> store d !! i = Some s -> fresh (u_env e) d -> m = None \/ (exists s0, s = uo_answers true s0) ->
  wp (RemoteSDP e i sdp) (ends (fun r d' => kept d d' /\
    match r with
    | Some _ => Inv K a m (Some i) d' \/ (Inv K a (Some i) None d' /\ (forall s', store d' !! i = Some s' -> uo_FinalizePending s' = true) /\ forall s0, s <> uo_answers true s0)
    | None => Inv K a m None d'
    end)) d.
Proof.
  intros H Hs Hf Hm. unfold RemoteSDP. wp_step. apply load_spec; [|done]. intros s' Hs'. assert (s' = s) as -> by congruence. wp_step.
  pose proof (ok_RemoteSDP _ _ _ K a m d (u_env e) sdp i s H Hs Hf Hm) as HR. destruct (uo_RemoteSDP _ _ _) as [t o]. unfold save. wp_step. wp_step.
  assert (kept d (d <| store := <[i:=t]> (store d) |>)) as Hk by apply (kept_put i t d).
  destruct o as [|err|]; wp_steps; [|done|done]. split; [done|]. destruct HR as [HR|(HR1 & HR2 & HR3 & HR4)]; [by left|right]. split; [done|]. split; [|done].
  intros u Hu. cbn in Hu. rewrite list_lookup_insert_eq in Hu by (by eapply lookup_lt_Some). congruence.
Qed.

Lemma sdpReInviteUnsafe_spec K a d e sdp : Inv K a None None d -> fresh (u_env e) d ->
  wp (sdpReInviteUnsafe e sdp) (ends (fun r d' => kept d d' /\
    match r with
    | Some i => (length (store d) <= i)%nat /\ (Inv K a None (Some i) d' \/ (Inv K a (Some i) None d' /\ forall s', store d' !! i = Some s' -> uo_FinalizePending s' = true))
    | None => Inv K a None None d'
    end)) d.
Proof.
  intros H Hf. destruct (ok_cur _ _ _ _ _ _ _ _ H) as (c & s & HO & Hs & HS). pose proof (proj1 HO) as Hc. unfold sdpReInviteUnsafe. wp_step. wp_step. wp_step. rewrite Hc. wp_step. apply load_spec; [|done].
  intros s' Hs'. assert (s' = s) as -> by congruence. clear Hs'. wp_step. cbv zeta. unfold save. wp_step. wp_step. wp_step. set (t := uo_answers false s). pose proof (ul_answers false s : ul_same s t) as Ht. clearbody t.
  pose proof (ok_same _ _ _ _ _ _ _ _ _ _ _ H Hs Ht) as H1. pose proof (fresh_put _ _ _ _ _ Hf Hs Ht) as F1. pose proof (kept_put c t d) as K1. fold (put c t d). set (d1 := put c t d) in *.
  assert (mediaSession d1 = Some c) as Hc1 by done. assert (store d1 !! c = Some t) as Ht1 by (cbn; apply list_lookup_insert_eq; by eapply lookup_lt_Some). clearbody d1.
  pose proof (ok_new _ _ _ K a None None _ d1 c t H1 Hc1 Ht1 (or_intror eq_refl)) as H2. pose proof (fresh_new _ _ _ _ F1 Ht1 Hc1) as F2. wp_step.
  apply new_spec. wp_step. set (d2 := d1 <| store := store d1 ++ [uo_Fork t] |>) in *. set (i := length (store d1)) in *.
  assert (store d2 !! i = Some (uo_Fork t)) as Hi by (by apply list_lookup_middle). assert (kept d1 d2) as K2 by (split_and!; try done; cbn; rewrite length_app; lia). clearbody d2.
  assert (length (store d) <= i)%nat as Hle by (by destruct K1 as (_ & _ & _ & ?)). clearbody i.
  wp_step. wp_step. wp_call RemoteSDP_spec; [exact H2|exact Hi|exact F2|by left|]. intros [[]|err| |] d3 H3; try done; destruct H3 as [K3 H3]; wp_steps; (split; [eapply kept_trans; [exact K1|by eapply kept_trans]|]); [|done].
  split; [done|]. destruct H3 as [H3|(H3 & H4 & _)]; [by left|by right].
Qed.

(** *** The handlers *)

(** The fork a call goes on with: it can be installed on the sockets of the call or
    it has moved. *)
Definition forked K a (i : nat) d : Prop := Inv K a None (Some i) d \/ Inv K a (Some i) None d.

Lemma ok_set K a m f d b : Inv K a m f d -> Inv K a m f (d <| mediaUpdating := b |>).
Proof. by apply ok_core. Qed.
Lemma kept_set d d' b : kept d d' -> kept d (d' <| mediaUpdating := b |>).
Proof. done. Qed.

Lemma handleMediaUpdate_offer_spec K a d e body : Inv K a None None d -> fresh (u_env e) d ->
  wp (handleMediaUpdate_offer e body) (ends (fun r d' => kept d d' /\
    match r with
    | Some (NewAssociation i) => (length (store d) <= i)%nat /\ forked K a i d'
    | _ => Inv K a None None d'
    end)) d.
Proof.
  intros H Hf. unfold handleMediaUpdate_offer. wp_step. wp_step. wp_step. cbn [id].
  destruct (closed d); [wp_step; by split; [apply kept_refl|]|]. destruct (mediaUpdating d); [wp_step; by split; [apply kept_refl|]|].
  destruct (String.eqb body _); [wp_step; by split; [apply kept_refl|]|].
  pose proof (sdpReInviteUnsafe_spec K a d e body H Hf) as HS. unfold wp in *. destruct (sdpReInviteUnsafe e body d) as [d1 [i|err| |]]; cbn [ends fst snd] in *; try done.
  destruct HS as (K1 & Hle & HS). change (wp (let! pending := FinalizePending i in
       if pending then modify (fun d => d <| mediaUpdating := true |>) ;;; ret (NewAssociation i)
       else
         let! err := try (replaceRTPSessionUnsafe e i) in
         match err with
         | Some err => ret (Refuse (refusal err))
         | None => ret Installed
         end) (ends (fun r d' => kept d d' /\ match r with Some (NewAssociation i) => (length (store d) <= i)%nat /\ forked K a i d' | _ => Inv K a None None d' end)) d1).
  wp_step. apply FinalizePending_spec; [|done]. intros s Hs. wp_step. destruct (uo_FinalizePending s) eqn:Ep.
  - wp_steps. split; [by apply kept_set|]. split; [done|]. destruct HS as [HS|[HS _]]; [left|right]; by apply ok_set.
  - destruct HS as [HS|[HS Hp]]; [|rewrite (Hp s Hs) in Ep; done]. wp_step. wp_step. wp_call replace_shared; [exact HS|].
    intros [[]|err| |] d2 H2; try done; destruct H2 as [H2 K2]; wp_steps; (split; [by eapply kept_trans|done]).
Qed.

Lemma media_updated_spec K a m f d : Inv K a m f d -> wp media_updated (ends (fun _ d' => Inv K a m f d' /\ kept d d')) d.
Proof.
  intros H. unfold media_updated, did. wp_step. wp_step. wp_step. destruct (mediaSession d); wp_step; (split; [|apply kept_refl || by unfold kept; split_and!]); [|done].
  eapply ok_core; [|exact H]. unfold core. cbn. unfold released. by rewrite omap_app, app_nil_r.
Qed.

Lemma handleMediaUpdate_answer_spec K a m f d e cseq body : Inv K a m f d ->
  wp (handleMediaUpdate_answer e cseq body) (ends (fun r d' =>
    ended d' = ended d /\ closed d' = closed d /\ (length (store d) <= length (store d'))%nat /\
    match r with
    | Some (inr (_, Some i)) => Inv K a m (Some i) d' /\ ackOffer d' = Some (cseq, i)
    | _ => ackOffer d' = ackOffer d /\ Inv K a m f d'
    end)) d.
Proof.
  intros H. destruct (ok_cur _ _ _ _ _ _ _ _ H) as (c & s & HO & Hs & HS). pose proof (proj1 HO) as Hc. unfold handleMediaUpdate_answer. wp_step. wp_step. wp_step. rewrite Hc.
  destruct (negb _).
  - wp_step. wp_call LocalSDP_spec; [exact H|]. intros [sd|err| |] d1 H1; try done; destruct H1 as [H1 (K1 & K2 & K3 & K4)]; wp_steps; split_and!; auto.
  - wp_step. apply load_spec; [|done]. intros s' Hs'. assert (s' = s) as -> by congruence. clear Hs'. wp_step. wp_step. apply new_spec.
    pose proof (ok_new _ _ _ K a m f _ d c s H Hc Hs (or_intror eq_refl)) as H1. set (d1 := d <| store := store d ++ [uo_Fork s] |>) in *. set (i := length (store d)) in *.
    assert (kept d d1) as K1 by (split_and!; try done; cbn; rewrite length_app; lia). clearbody d1. wp_step. wp_step. eapply wp_mono; [apply wp_returns; [by eapply negotiatedOffer_spec|by intros; apply negotiatedOffer_returns]|].
    intros [sd|err| |] d2 H2; try done; destruct H2 as [H2 K2]; pose proof (kept_trans _ _ _ K1 K2) as (G1 & G2 & G3 & G4); wp_steps; (split; [done|]); (split; [done|]); (split; [exact G4|]).
    split; [apply (ok_core _ _ _ _ _ _ _ d2); done|done].
Qed.

Lemma handleMediaUpdate_sent_spec K a m f d offer sent : Inv K a m f d ->
  wp (handleMediaUpdate_sent offer sent) (ends (fun _ d' => Inv K a m f d' /\ ended d' = ended d /\ closed d' = closed d /\ store d' = store d /\
    ackOffer d' = match offer with Some i => if negb sent && bool_decide ((snd <$> ackOffer d) = Some i) then None else ackOffer d | None => ackOffer d end)) d.
Proof.
  intros H. unfold handleMediaUpdate_sent. wp_step. destruct offer as [i|]; [|done]. destruct (negb sent && _); [|done]. split; [apply (ok_core _ _ _ _ _ _ _ d); done|done].
Qed.

Lemma answerNewAssociation_unsent_spec K a m f d e i : Inv K a m f d -> wp (answerNewAssociation_unsent e i) (ends (fun _ d' => Inv K a (dropped i m) f d' /\ kept d d')) d.
Proof. intros H. unfold answerNewAssociation_unsent. wp_step. wp_step. wp_step. apply (ok_set _ _ _ _ _ false), (discardForkUnsafe_spec _ _ _ _ _ e i) in H. exact H. Qed.

(** What is left of the fork [i] once it has been installed, if the call goes on, or
    dropped. *)
Definition settled K a (i : nat) (m f : option nat) d d' : Prop :=
  if ended d then Inv K a (dropped i m) f d' else exists K' a', Inv K' a' None None d'.

Lemma replace_forked K a d e i : forked K a i d -> closed d = false -> i <> 0%nat -> (strict = true -> calm e) ->
  wp (replaceRTPSessionUnsafe e i) (ends (fun _ d' => (exists K' a', Inv K' a' None None d') /\ kept d d')) d.
Proof.
  intros [H|H] Hc Hi Hcalm; [|by eapply replace_moved]. wp_call replace_shared; [exact H|].
  intros [] d' H'; try done; destruct H' as [H' Hk]; (split; [by exists K, a|done]).
Qed.

Lemma answerNewAssociation_keyed_spec K a m f d e i ferr : Inv K a m f d -> i <> 0%nat -> m = None \/ m = Some i -> (strict = true -> calm e) ->
  (ended d = false -> forked K a i d) ->
  wp (answerNewAssociation_keyed e i ferr) (ends (fun _ d' => settled K a i m f d d' /\ kept d d')) d.
Proof.
  intros H Hi Hm Hcalm Hend. unfold answerNewAssociation_keyed. wp_step. wp_step. wp_step. set (d1 := d <| mediaUpdating := false |>).
  assert (kept d d1) as K1 by done. assert (Inv K a m f d1) as H1 by (by apply ok_set). assert (ended d = false -> forked K a i d1) as Hfork.
  { intros E. destruct (Hend E) as [G|G]; [left|right]; by apply ok_set. }
  assert (ended d1 = ended d) as E1 by done. assert (closed d1 = closed d) as C1 by done. clearbody d1. wp_step. wp_step. wp_step. cbn [id].
  rewrite E1. destruct (ended d) eqn:Ee.
  - wp_step. wp_call discardForkUnsafe_spec; [exact H1|]. intros [x|err| |] d2 H2; try done; destruct H2 as [H2 K2]; wp_steps.
    + assert (settled K a i m f d d2 /\ kept d d2) as G by (split; [unfold settled; by rewrite Ee|by eapply kept_trans]). by destruct x.
    + split; [unfold settled; by rewrite Ee|by eapply kept_trans].
  - specialize (Hfork eq_refl). cbv zeta. set (ferr' := match ferr with None => _ | Some _ => _ end).
    assert (wp (match ferr' with Some err => let! derr := discardForkUnsafe e i in fail (join err derr) | None => replaceRTPSessionUnsafe e i end)
      (ends (fun _ d' => (exists K' a', Inv K' a' None None d') /\ kept d1 d')) d1) as Hw.
    { destruct ferr' as [err|] eqn:Ef.
      - wp_step. wp_call discardForkUnsafe_spec; [exact H1|]. intros [x|err'| |] d2 H2; try done; destruct H2 as [H2 K2]; wp_steps; (split; [exists K, a|done]);
          apply ok_ended in H2; (destruct Hm as [->| ->]; [done|]); unfold dropped in H2; by rewrite bool_decide_true in H2.
      - apply replace_forked with K a; try done. unfold ferr' in Ef. destruct ferr; [done|]. by destruct (closed d1). }
    wp_step. wp_step. eapply wp_mono; [exact Hw|]. intros [[]|err| |] d2 H2; try done; destruct H2 as [(K' & a' & H2) K2]; wp_steps.
    + wp_call media_updated_spec; [exact H2|]. intros [x|err| |] d3 H3; try done; destruct H3 as [H3 K3]; (split; [unfold settled; rewrite Ee; by exists K', a'|]); (eapply kept_trans; [exact K1|by eapply kept_trans]).
    + split; [unfold settled; rewrite Ee; by exists K', a'|by eapply kept_trans].
Qed.

Lemma flight_not_moved K a m i d : Inv K a m (Some i) d -> dropped i m = m.
Proof.
  intros H. unfold dropped. case_bool_decide as Hm; [|done]. subst m. destruct (ok_flight _ _ _ _ _ _ _ _ H i eq_refl) as (_ & _ & s & Hs & _ & HS).
  destruct (moved_is _ _ _ _ _ _ _ _ _ H Hs) as (_ & Hx & _). congruence.
Qed.
Lemma dropped_dropped i m : dropped i (dropped i m) = dropped i m.
Proof. unfold dropped. repeat case_bool_decide; done. Qed.

(** An update that fails once its fork is in flight, and one that has the answer. *)
Lemma discard_after K a m f d d1 e i err : Inv K a (dropped i m) f d1 -> kept d d1 ->
  wp (let! derr := discardForkUnsafe e i in @fail (dialog S) unit (join err derr)) (ends (fun _ d' => Inv K a (dropped i m) f d' /\ kept d d')) d1.
Proof.
  intros H Hk. wp_step. wp_call discardForkUnsafe_spec; [exact H|]. rewrite dropped_dropped. intros [x|err'| |] d2 H2; try done; destruct H2 as [H2 K2]; wp_steps; (split; [done|by eapply kept_trans]).
Qed.

Definition flying d (f : option nat) : option nat := if ended d then f else None.
Lemma ok_flying K a m f d d' : Inv K a m f d' -> Inv K a m (flying d f) d'.
Proof. unfold flying. destruct (ended d); [done|apply ok_ended]. Qed.
Lemma ok_dropped K a m f d i : (m = Some i -> False) -> Inv K a m f d -> Inv K a (dropped i m) f d.
Proof. unfold dropped. by case_bool_decide. Qed.

Lemma finalizeAndReplaceUnsafe_keyed_spec K a m f d e i ferr : Inv K a m f d -> m <> Some i -> (ended d = false -> f = Some i) ->
  wp (finalizeAndReplaceUnsafe_keyed e i ferr) (ends (fun _ d' => Inv K a m (flying d f) d' /\ kept d d')) d.
Proof.
  intros H Hm Hf. unfold finalizeAndReplaceUnsafe_keyed. wp_step. wp_step. wp_step. set (d1 := d <| mediaUpdating := false |>).
  assert (kept d d1) as K1 by done. assert (Inv K a m f d1) as H1 by (by apply ok_set). assert (ended d1 = ended d) as E1 by done. clearbody d1. wp_step. wp_step. wp_step. cbn [id].
  assert (dropped i m = m) as Ed by (unfold dropped; by rewrite bool_decide_false).
  assert (wp (match ferr with Some err => fail err | None => if closed d1 || ended d1 then fail errMediaClosed else replaceRTPSessionUnsafe e i end)
    (ends (fun _ d' => Inv K a m (flying d f) d' /\ kept d d')) d1) as Hw.
  { destruct ferr as [err|]; [wp_steps; split; [by apply ok_flying|done]|]. rewrite E1. destruct (closed d1); [wp_steps; split; [by apply ok_flying|done]|].
    destruct (ended d) eqn:Ee; cbn [orb]; [wp_steps; split; [by apply ok_flying|done]|]. rewrite (Hf eq_refl) in H1.
    wp_call replace_shared; [exact H1|]. intros [] d2 H2; try done; destruct H2 as [H2 K2]; (split; [unfold flying; by rewrite Ee|by eapply kept_trans]). }
  wp_step. wp_step. eapply wp_mono; [exact Hw|]. intros [[]|err| |] d2 H2; try done; wp_step; try done. destruct H2 as [H2 K2].
  rewrite <- Ed in H2 |- *. eapply discard_after; [|done]. exact H2.
Qed.

Lemma replace_or_discard_spec K a m d e i : Inv K a m (Some i) d -> wp (replace_or_discard e i) (ends (fun _ d' => Inv K a m None d' /\ kept d d')) d.
Proof.
  intros H. pose proof (flight_not_moved _ _ _ _ _ H) as Ed. unfold replace_or_discard. wp_step. wp_step. wp_call replace_shared; [exact H|].
  intros [[]|err| |] d2 H2; try done; wp_step; try done. destruct H2 as [H2 K2]. rewrite <- Ed in H2 |- *. by eapply discard_after.
Qed.

(** [applyAckAnswer]: whether the ACK was one to a 2xx of ours that offered. *)
Lemma applyAckAnswer_spec K a m f d e cseq body : Inv K a m f d -> (forall n i, ackOffer d = Some (n, i) -> f = Some i) -> fresh (u_env e) d ->
  wp (applyAckAnswer e cseq body) (ends (fun r d' => ended d' = ended d /\ closed d' = closed d /\ (length (store d) <= length (store d'))%nat /\
    match r with
    | Some None => d' = d
    | Some (Some (inl i)) => ackOffer d <> None /\ ackOffer d' = None /\ f = Some i /\ Inv K a m (Some i) d'
    | _ => ackOffer d <> None /\ ackOffer d' = None /\ Inv K a m None d'
    end)) d.
Proof.
  intros H Hoff Hfresh. unfold applyAckAnswer. wp_step. wp_step. wp_step. cbn [id]. destruct (ackOffer d) as [[n i]|] eqn:Eo; [|by wp_steps].
  rewrite (Hoff n i eq_refl) in *. clear f Hoff. destruct (negb (n =? cseq)); [by wp_steps|]. wp_step. wp_step. wp_step. set (d1 := d <| ackOffer := None |>).
  assert (ackOffer d1 = None /\ ended d1 = ended d /\ closed d1 = closed d /\ store d1 = store d /\ mediaSession d1 = mediaSession d) as (A1 & A2 & A3 & A4 & A5) by done.
  assert (Inv K a m (Some i) d1) as H1 by (apply (ok_core _ _ _ _ _ _ _ d); done). clearbody d1. pose proof (flight_not_moved _ _ _ _ _ H) as Ed.
  assert (fresh (u_env e) d1) as F1 by (destruct Hfresh as [F1 F2]; split; rewrite A4, ?A5; done).
  assert (forall d', kept d1 d' -> ackOffer d' = None /\ ended d' = ended d /\ closed d' = closed d /\ (length (store d) <= length (store d'))%nat) as Hkept.
  { intros d' (G1 & G2 & G3 & G4). rewrite A4 in G4. split_and!; try congruence. }
  assert (forall err d2, Inv K a m None d2 -> kept d1 d2 -> wp (let! derr := discardForkUnsafe e i in fail (join err derr)) (ends (fun (r : option (option (nat + unit))) d' => r = None /\
    ended d' = ended d /\ closed d' = closed d /\ (length (store d) <= length (store d'))%nat /\ Some (n, i) <> None /\ ackOffer d' = None /\ Inv K a m None d')) d2) as Hdisc.
  { intros err d2 H2 K2. wp_step. wp_call discardForkUnsafe_spec; [exact H2|]. rewrite Ed. intros [x|err'| |] d3 H3; try done; destruct H3 as [H3 K3]; destruct (Hkept d3 (kept_trans _ _ _ K2 K3)) as (?&?&?&?); wp_steps; split_and!; done. }
  destruct (if closed d then None else body) as [sdp|].
  - wp_step. apply load_spec; [|done]. intros s Hs. wp_step. unfold save. wp_step. wp_step. wp_step.
    pose proof (ok_same _ _ _ _ _ _ _ _ _ _ _ H1 Hs (ul_answers true s)) as H2. pose proof (fresh_put _ _ i _ _ F1 Hs (ul_answers true s)) as F2. pose proof (kept_put i (uo_answers true s) d1) as K2.
    assert (store (put i (uo_answers true s) d1) !! i = Some (uo_answers true s)) as Hi by (cbn; apply list_lookup_insert_eq; by eapply lookup_lt_Some).
    fold (put i (uo_answers true s) d1). set (d2 := put i (uo_answers true s) d1) in *. clearbody d2. wp_step. wp_step. wp_call RemoteSDP_spec; [exact H2|exact Hi|exact F2|right; by eexists|].
    intros [[]|err| |] d3 H3; try done; destruct H3 as [K3 H3]; pose proof (kept_trans _ _ _ K2 K3) as K13; wp_step.
    2: { eapply wp_mono; [eapply Hdisc; [exact H3|exact K13]|]. intros [] d4 H4; try done; by destruct H4 as (? & ? & ? & ? & ? & ? & ?). }
    destruct H3 as [H3|(_ & _ & Hx)]; [|by destruct (Hx s)]. wp_step. apply FinalizePending_spec; [|done]. intros s3 Hs3. wp_step. destruct (uo_FinalizePending s3).
    + wp_steps. destruct (Hkept d3 K13) as (?&?&?&?). split_and!; try done. by apply ok_set.
    + wp_step. wp_call replace_shared; [exact H3|]. intros [[]|err| |] d4 H4; try done; destruct H4 as [H4 K4]; destruct (Hkept d4 (kept_trans _ _ _ K13 K4)) as (?&?&?&?); wp_steps; split_and!; done.
  - wp_step. wp_call discardForkUnsafe_spec; [exact H1|]. rewrite Ed. intros [x|err'| |] d3 H3; try done; destruct H3 as [H3 K3]; destruct (Hkept d3 K3) as (?&?&?&?); apply ok_ended in H3; wp_steps; [|split_and!; done].
    destruct x; wp_steps; split_and!; done.
Qed.

(** *** Our re-INVITEs *)

Lemma reInvite_fork_spec K a m f f' d e mode : Inv K a m f d -> f' = f \/ f' = Some (length (store d)) ->
  wp (reInvite_fork e mode) (ends (fun r d' => kept d d' /\ match r with Some (i, _) => i = length (store d) /\ (i < length (store d'))%nat /\ Inv K a m f' d' | None => Inv K a m f' d' end)) d.
Proof.
  intros H Hf. destruct (ok_cur _ _ _ _ _ _ _ _ H) as (c & s & HO & Hs & HS). pose proof (proj1 HO) as Hc. unfold reInvite_fork. wp_step. wp_step. wp_step. rewrite Hc. wp_step. apply load_spec; [|done].
  intros s' Hs'. assert (s' = s) as -> by congruence. clear Hs'. wp_step. wp_step. apply new_spec. pose proof (ok_new _ _ _ K a m f f' d c s H Hc Hs Hf) as H1.
  set (d1 := d <| store := store d ++ [uo_Fork s] |>) in *. assert (kept d d1) as K1 by (split_and!; try done; cbn; rewrite length_app; lia). assert (length (store d) < length (store d1))%nat as L1 by (unfold d1; cbn; rewrite length_app; cbn; lia). clearbody d1. wp_step.
  assert (forall d2, Inv K a m f' d2 -> kept d1 d2 -> kept d d2 /\ length (store d) = length (store d) /\ (length (store d) < length (store d2))%nat /\ Inv K a m f' d2) as Hend.
  { intros d2 H2 K2. split; [by eapply kept_trans|]. split; [done|]. split; [|done]. destruct K2 as (_ & _ & _ & K2). lia. }
  destruct mode as [mode|].
  - wp_step. apply load_spec; [|done]. intros t Ht. wp_step. wp_step. wp_call save_same; [exact H1|exact Ht|apply ul_setMode|]. intros [[]|err| |] d2 H2; try done; destruct H2 as [H2 K2]; wp_step; [|by destruct (Hend d2 H2 K2)].
    wp_step. wp_call LocalSDP_spec; [exact H2|]. intros [sd|err| |] d3 H3; try done; destruct H3 as [H3 K3]; destruct (Hend d3 H3 (kept_trans _ _ _ K2 K3)) as (? & ? & ? & ?); wp_steps; done.
  - wp_step. wp_call negotiatedOffer_spec; [exact H1|]. intros [sd|err| |] d2 H2; try done; destruct H2 as [H2 K2]; destruct (Hend d2 H2 K2) as (? & ? & ? & ?); wp_steps; done.
Qed.

Lemma reInviteMediaOnce_failed_spec K a m f d e i err : Inv K a m f d -> m <> Some i -> wp (reInviteMediaOnce_failed e i err) (ends (fun _ d' => Inv K a m f d' /\ kept d d')) d.
Proof.
  intros H Hm. assert (dropped i m = m) as Ed by (unfold dropped; by rewrite bool_decide_false). unfold reInviteMediaOnce_failed. rewrite <- Ed in H |- *. eapply discard_after; [exact H|apply kept_refl].
Qed.

Lemma reInviteMediaOnce_answered_spec K a m f d server e i body : Inv K a m f d -> m <> Some i -> (ended d = false -> f = Some i) -> fresh (u_env e) d ->
  wp (reInviteMediaOnce_answered server e i body) (ends (fun r d' => kept d d' /\
    match r with Some (inl j) => j = i /\ ended d = false /\ Inv K a m (Some i) d' | _ => Inv K a m (flying d f) d' end)) d.
Proof.
  intros H Hm Hf Hfresh. unfold reInviteMediaOnce_answered. wp_step. wp_step. wp_step. cbn [id].
  assert (forall err d1 f1, Inv K a m f1 d1 -> kept d d1 -> f1 = f \/ (ended d = false /\ f1 = None) -> wp (reInviteMediaOnce_failed e i err ;;; ret (inr tt)) (ends (fun (r : option (nat + unit)) d' => kept d d' /\
    match r with Some (inl j) => j = i /\ ended d = false /\ Inv K a m (Some i) d' | _ => Inv K a m (flying d f) d' end)) d1) as Hfail.
  { intros err d1 f1 H1 K1 Hf1. wp_step. wp_call reInviteMediaOnce_failed_spec; [exact H1|exact Hm|]. intros [[]|err'| |] d2 H2; try done; destruct H2 as [H2 K2]; wp_steps; (split; [by eapply kept_trans|]);
      (destruct Hf1 as [->|[Ee ->]]; [by apply ok_flying|unfold flying; by rewrite Ee]). }
  destruct (closed d || ended d) eqn:Ece; [eapply Hfail; [exact H|apply kept_refl|by left]|]. apply orb_false_iff in Ece as [_ Ee].
  destruct (server && String.eqb body _); [eapply Hfail; [exact H|apply kept_refl|by left]|]. rewrite (Hf Ee) in H. unfold flying in *. rewrite Ee in *.
  wp_step. apply load_spec; [|done]. intros s Hs. wp_step. unfold save. wp_step. wp_step. wp_step.
  pose proof (ok_same _ _ _ _ _ _ _ _ _ _ _ H Hs (ul_answers true s)) as H2. pose proof (fresh_put _ _ i _ _ Hfresh Hs (ul_answers true s)) as F2. pose proof (kept_put i (uo_answers true s) d) as K2.
  assert (store (put i (uo_answers true s) d) !! i = Some (uo_answers true s)) as Hi by (cbn; apply list_lookup_insert_eq; by eapply lookup_lt_Some).
  fold (put i (uo_answers true s) d). set (d2 := put i (uo_answers true s) d) in *. clearbody d2. wp_step. wp_step. wp_call RemoteSDP_spec; [exact H2|exact Hi|exact F2|right; by eexists|].
  intros [[]|err| |] d3 H3; try done; destruct H3 as [K3 H3]; pose proof (kept_trans _ _ _ K2 K3) as K13; wp_step.
  2: { eapply Hfail; [exact H3|exact K13|by right]. }
  destruct H3 as [H3|(_ & _ & Hx)]; [|by destruct (Hx s)]. wp_step. apply FinalizePending_spec; [|done]. intros s3 Hs3. wp_step. destruct (uo_FinalizePending s3).
  - wp_steps. split; [done|]. split; [done|]. split; [done|]. by apply ok_set.
  - wp_step. wp_call replace_or_discard_spec; [exact H3|]. intros [[]|err| |] d4 H4; try done; destruct H4 as [H4 K4]; wp_steps; (split; [by eapply kept_trans|done]).
Qed.

Lemma reInviteMediaOnce_keyed_spec K a m f d e i ferr : Inv K a m f d -> m <> Some i -> (ended d = false -> f = Some i) ->
  wp (reInviteMediaOnce_keyed e i ferr) (ends (fun _ d' => Inv K a m (flying d f) d' /\ kept d d')) d.
Proof.
  intros H Hm Hf. unfold reInviteMediaOnce_keyed. wp_step. wp_step. wp_call finalizeAndReplaceUnsafe_keyed_spec; [exact H|exact Hm|exact Hf|].
  intros [[]|err| |] d2 H2; try done; wp_step; try done. by destruct (errors_Is _ _).
Qed.

(** *** [Close] *)

Lemma Close_spec K a m f d : Inv K a m f d -> wp Close (ends (fun _ d' => Inv K a m f d' /\ ackOffer d' = ackOffer d /\ ended d' = ended d /\ store d' = store d)) d.
Proof.
  intros H. pose proof (ok_Close _ _ _ _ _ _ _ _ H) as H1. unfold wp. unfold Close in *. cbn [modify fst snd ends] in *. split; [done|]. by destruct (closed d).
Qed.

Lemma close_next_spec K a m f d e : Inv K a m f d -> m <> Some 0%nat -> wp (close_next e) (ends (fun _ d' => Inv K a m f d' /\ kept d d')) d.
Proof.
  intros H Hm. unfold close_next. wp_step. wp_step. wp_step. destruct (closing d) as [|c l] eqn:El; [wp_step; split; [done|apply kept_refl]|].
  assert (closed d = true) as Hc by (destruct (closed d) eqn:E; [done|by rewrite (ok_open _ _ _ _ _ _ _ _ H E) in El]).
  wp_step. wp_step. wp_step. destruct c as [h| |i|p].
  - unfold did. wp_step. split; [|done]. eapply ok_core; [|by apply (ok_pop _ _ _ _ _ _ _ _ (CHook h) l H El Hc)]. unfold core. cbn. unfold released. by rewrite omap_app, app_nil_r.
  - wp_step. split; [|done]. eapply ok_core; [|by apply (ok_pop _ _ _ _ _ _ _ _ CMonitor l H El Hc)]. unfold core, monitor_closed. cbn. by destruct (rtpSession d).
  - unfold close_session. wp_step. wp_step. wp_step. apply load_spec; [|done]. intros s Hs. cbn in Hs. wp_step. unfold save, did. wp_steps.
    assert (i = 0%nat \/ mediaSession d = Some i) as Hi by (apply (ok_todo _ _ _ _ _ _ _ _ H); rewrite El; by left).
    assert (f <> Some i) as Hf by (intros ->; destruct (ok_flight _ _ _ _ _ _ _ _ H i eq_refl) as (? & ? & _); by destruct Hi).
    assert (m <> Some i) as Hmi by (intros ->; destruct Hi as [->|Hi]; [done|]; destruct (cur_is _ _ _ _ _ _ _ _ _ _ H Hi Hs) as [_ [_ Hx]]; destruct (moved_is _ _ _ _ _ _ _ _ _ H Hs) as (_ & Hy & _); congruence).
    pose proof (ok_close _ _ _ K a m f d i s (u_env e) H Hs ltac:(congruence) Hf) as H1. rewrite bool_decide_false in H1 by done.
    pose proof (ul_Close (u_env e) s (so_quiet _ _ _ (proj1 (ok_all _ _ _ _ _ _ _ _ H i s Hs)))) as (C1 & C2 & _ & _ & C5 & _).
    assert (Inv K a m f (put i (uo_Close (u_env e) s) d <| closing := l |>)) as H2.
    { apply (ok_pop _ _ _ _ _ _ _ _ (CSession i) l H1 El Hc eq_refl). intros j t [= <-] Ht. cbn in Ht. rewrite list_lookup_insert_eq in Ht by (by eapply lookup_lt_Some). injection Ht as <-. split; [done|].
      intros Hcur. unfold put. cbn [field_update eta_dialog store]. rewrite (Shut_put _ i s _ (ul_conns s ∪ ul_agent s) Hs) by (rewrite C1; by rewrite (assoc_L (∪))). destruct (cur_is _ _ _ _ _ _ _ _ _ _ H Hcur Hs) as [_ [<- _]]. clear. set_solver. }
    match goal with |- match u_close e with Some e => ?P | None => ?Q end => enough Q as HQ by (by destruct (u_close e)) end.
    split; [|unfold kept; cbn; by rewrite length_insert]. eapply ok_core; [|exact H2]. unfold core. cbn. unfold released. by rewrite omap_app, app_nil_r.
  - unfold did. wp_step. split; [|done]. exact (ok_release _ _ _ _ _ _ _ _ _ _ H El Hc).
Qed.

End Specs.
End MediaUpdateSpecs.
