(* ===== verification/MediaUpdateTheorems.v ===== *)
(** * Media updates: the call keeps its media

    The invariant of [MediaUpdateInv] over the steps of [MediaUpdate], and what it
    means: the call runs on open sockets until [Close], nothing is left open after
    it, and the port is returned last. *)
From S2P Require Import Prelude GoStrings Sdp Codec MediaSdp MediaSession MediaLifecycle MediaSecurity Method MediaUpdate MediaUpdateLaws MediaUpdateInv MediaUpdateSpecs.
Import GoStrings Sdp Codecs MediaSdp MediaSession Method MediaUpdate MediaUpdateLaws MediaUpdateInv MediaUpdateSpecs.

Module MediaUpdateTheorems.

Section Worlds.
Context {S : Type} {uo : UpdateOps S} {ul : UpdateLaws uo} (ice strict : bool) (port : option Z).
Abbreviation Inv := (Inv ice strict port).
Implicit Types (K : gset nat) (a s t : S) (d : dialog S) (e : upd_env) (w : @world S).

Definition at_fork (p : progress) : option nat :=
  match p with Association i | Handshaking i | Offered i | OwnHandshaking i => Some i | _ => None end.
(** Where an ACK may answer an offer of ours. *)
Definition awaiting (p : progress) : bool := match p with Responding (Some _) | AwaitAck => true | _ => false end.

Record Winv K a (m f : option nat) w : Prop := {
  wi_inv : Inv K a m f (dlg w);
  wi_offer : forall n i, ackOffer (dlg w) = Some (n, i) -> f = Some i;
  wi_acking : forall i, acking w = Some i -> i <> 0%nat /\ m <> Some i /\ (ended (dlg w) = false -> f = Some i /\ ackOffer (dlg w) = None);
  wi_at : forall i, at_fork (at_ w) = Some i -> i <> 0%nat /\ (i < length (store (dlg w)))%nat /\ (ended (dlg w) = false -> m = Some i \/ f = Some i);
  wi_moved : forall i, m = Some i -> at_ w = Association i \/ at_ w = Handshaking i;
  wi_busy : ended (dlg w) = false -> awaiting (at_ w) = false -> ackOffer (dlg w) = None /\ acking w = None;
  wi_answer : forall o n j, at_ w = Responding o -> ackOffer (dlg w) = Some (n, j) -> ended (dlg w) = false -> o = Some j;
  wi_waiting : forall i, i ∈ waiting w -> m <> Some i /\ (i < length (store (dlg w)))%nat }.
Definition Good w : Prop := exists K a m f, Winv K a m f w.

Lemma run_in_ends {A} (m : M (dialog S) A) P w ok failed w' : wp m (ends P) (dlg w) -> run_in m w ok failed = Some w' ->
  exists d', (exists x, P (Some x) d' /\ w' = ok x (w <| dlg := d' |>)) \/ (P None d' /\ exists err, m (dlg w) = (d', Fail err) /\ w' = failed err (w <| dlg := d' |>)).
Proof. unfold wp, run_in. destruct (m (dlg w)) as [d' [x|err| |]]; cbn; intros HP [= <-]; exists d'; [left|right]; eauto. Qed.

Lemma Good_store w : Good w -> (0 < length (store (dlg w)))%nat.
Proof. intros (K & a & m & f & [H _ _ _ _ _ _ _]). destruct (ok_cur _ _ _ _ _ _ _ _ H) as (c & s & _ & Hs & _). apply lookup_lt_Some in Hs. lia. Qed.
Lemma moved_lt K a f i d : Inv K a (Some i) f d -> (i < length (store d))%nat.
Proof. intros H. destruct (ok_moved _ _ _ _ _ _ _ _ H i eq_refl) as (s & Hs & _). by eapply lookup_lt_Some. Qed.
Lemma flight_lt K a m i d : Inv K a m (Some i) d -> (i < length (store d))%nat.
Proof. intros H. destruct (ok_flight _ _ _ _ _ _ _ _ H i eq_refl) as (_ & _ & s & Hs & _). by eapply lookup_lt_Some. Qed.
Lemma flight_ne K a m i d : Inv K a m (Some i) d -> i <> 0%nat /\ m <> Some i.
Proof.
  intros H. pose proof (flight_not_moved _ _ _ _ _ _ _ _ H) as Hd. split; [by apply (ok_flight _ _ _ _ _ _ _ _ H i)|]. intros ->. unfold dropped in Hd. by rewrite bool_decide_true in Hd.
Qed.
Lemma dropped_Some i j m : dropped i m = Some j -> m = Some j /\ j <> i.
Proof. unfold dropped. case_bool_decide as Hm; [done|]. intros ->. split; [done|congruence]. Qed.

(** A step that ends with the call at rest, or at [p] with nothing moved. *)
Lemma Good_at K a m f f' w d' p : Winv K a m f w -> Inv K a None f' d' -> kept (dlg w) d' ->
  f' = f \/ (ackOffer (dlg w) = None /\ (acking w = None \/ ended (dlg w) = true)) ->
  (forall i, at_fork p = Some i -> i <> 0%nat /\ (i < length (store d'))%nat /\ (ended (dlg w) = false -> f' = Some i)) ->
  awaiting p = awaiting (at_ w) \/ (ended (dlg w) = false -> ackOffer (dlg w) = None /\ acking w = None) -> (forall o, p = Responding o -> ended (dlg w) = false -> ackOffer (dlg w) = None) ->
  Good (w <| dlg := d' |> <| at_ := p |>).
Proof.
  intros [H1 H2 H3 H4 H5 H6 H7 H8] H (K1 & K2 & K3 & K4) Hf Hp Haw Hresp. exists K, a, None, f'. split; cbn [field_update eta_world dlg at_ acking waiting]; try done.
  - intros n i. rewrite K1. intros Ho. destruct Hf as [->|[Hf _]]; [by eapply H2|congruence].
  - intros i Hi. destruct (H3 i Hi) as (G1 & _ & G3). split; [done|]. split; [done|]. rewrite K1, K2. intros He. destruct Hf as [->|[_ [Hf|Hf]]]; [auto|congruence|congruence].
  - intros i Hi. rewrite K2. destruct (Hp i Hi) as (G1 & G2 & G3). split; [done|]. split; [done|]. auto.
  - rewrite K1, K2. intros He Ha. destruct Haw as [Haw|Haw]; [|auto]. rewrite Haw in Ha. auto.
  - intros o n j Ho. rewrite K1, K2. intros Hn He. pose proof (Hresp o Ho He). congruence.
  - intros i Hi. destruct (H8 i Hi) as [_ Hl]. split; [done|]. lia.
Qed.

Lemma Good_peer w w' e cseq body : Good w -> fresh (u_env e) (dlg w) -> at_ w = Idle -> step (EPeer e cseq body) w = Some w' -> Good w'.
Proof.
  intros HG Hfresh Hat. pose proof (Good_store w HG) as Hlt. destruct HG as (K & a & m & f & HW). unfold step. rewrite Hat. destruct (ended (dlg w)) eqn:He; [done|]. pose proof HW as [H1 H2 H3 H4 H5 H6 H7 H8].
  assert (m = None) as -> by (destruct m as [i|]; [by destruct (H5 i eq_refl); congruence|done]). rewrite Hat in H6. destruct (H6 He eq_refl) as [Ho Hac].
  set (mt := let! o := _ in _). assert (wp mt (ends (fun r d' => ended d' = false /\ closed d' = closed (dlg w) /\ (length (store (dlg w)) <= length (store d'))%nat /\
    match r with
    | Some (Responding (Some i)) => Inv K a None (Some i) d' /\ ackOffer d' = Some (cseq, i)
    | Some (Association i) => ackOffer d' = None /\ (length (store (dlg w)) <= i)%nat /\ forked ice strict port K a i d'
    | Some p => ackOffer d' = None /\ Inv K a None None d' /\ at_fork p = None
    | None => ackOffer d' = None /\ Inv K a None None d' end)) (dlg w)) as Hw.
  { subst mt. wp_step. wp_call handleMediaUpdate_offer_spec; [by eapply ok_ended|exact Hfresh|]. intros [[st|i| |]|err| |] d1 Hd1; try done; destruct Hd1 as [(K1 & K2 & K3 & K4) Hd1]; wp_step; rewrite <- ?Ho, <- ?He.
    - split_and!; done.
    - destruct Hd1 as [Hd1 Hd2]. split_and!; done.
    - split_and!; done.
    - wp_step. wp_call handleMediaUpdate_answer_spec; [exact Hd1|]. intros [[st|[sd [i|]]]|err| |] d2 Hd2; try done; destruct Hd2 as (G1 & G2 & G3 & G4); wp_steps; cbn [responding];
        (split; [congruence|]); (split; [congruence|]); (split; [lia|]); [destruct G4 as [G4 G5]; split_and!; congruence || done|done|destruct G4 as [G4 G5]; split_and!; congruence || done|destruct G4 as [G4 G5]; split; congruence || done].
    - split_and!; done. }
  intros Hrun. destruct (run_in_ends _ _ _ _ _ _ Hw Hrun) as [d' [(p & (G1 & G2 & G3 & G4) & ->)|((G1 & G2 & G3 & G4) & err & _ & ->)]]; unfold go.
  2: { destruct G4 as [G4 G5]. apply (Good_at K a None f None w d' Idle HW G5); [split_and!; congruence || done|by right; split; [|left]|done|by right|done]. }
  assert (forall i, i ∈ waiting w -> None <> Some i /\ (i < length (store d'))%nat) as H8' by (intros i Hi; destruct (H8 i Hi); split; [done|lia]).
  assert (forall p, ackOffer d' = None -> Inv K a None None d' -> at_fork p = None -> Good (w <| dlg := d' |> <| at_ := p |>)) as Hrest.
  { intros q F1 F2 F3. apply (Good_at K a None f None w d' q HW F2); [split_and!; congruence || done|by right; split; [|left]|by rewrite F3|by right|by intros]. }
  destruct p as [|c b|[i|]|i|i| |i|i]; try (destruct G4 as (G4 & G5 & G6); by apply Hrest).
  - destruct G4 as [G4 G5]. exists K, a, None, (Some i). split; cbn; try done; [intros n j; rewrite G5; congruence|by rewrite Hac|intros o n j; rewrite G5; congruence].
  - destruct G4 as (G4 & G5 & G6). assert (forall j, i = j -> j <> 0%nat) as Hi0 by (intros j <-; lia). assert (i ∈ waiting w -> False) as Hi by (intros Hi; destruct (H8 i Hi); lia).
    destruct G6 as [G6|G6]; [exists K, a, None, (Some i)|exists K, a, (Some i), None]; split; cbn; try done; rewrite ?Hac, ?G4; try done.
    + intros j [= <-]. split; [auto|]. split; [by eapply flight_lt|]. by right.
    + intros j [= <-]. split; [auto|]. split; [by eapply moved_lt|]. by left.
    + intros j [= <-]. by left.
    + intros j Hj. split; [intros [= ->]; auto|by apply H8'].
Qed.

Lemma Good_hooks w w' e cseq body : Good w -> at_ w = Hooks cseq body -> step (EHooks e) w = Some w' -> Good w'.
Proof.
  intros (K & a & m & f & HW) Hat. unfold step. rewrite Hat. pose proof HW as [H1 H2 H3 H4 H5 H6 H7 H8]. rewrite Hat in H6.
  assert (m = None) as -> by (destruct m as [i|]; [by destruct (H5 i eq_refl); congruence|done]).
  assert (wp (media_updated ;;; handleMediaUpdate_answer e cseq body) (ends (fun r d' => ended d' = ended (dlg w) /\ closed d' = closed (dlg w) /\ (length (store (dlg w)) <= length (store d'))%nat /\
    match r with
    | Some (inr (_, Some i)) => Inv K a None (Some i) d' /\ ackOffer d' = Some (cseq, i)
    | _ => ackOffer d' = ackOffer (dlg w) /\ Inv K a None f d'
    end)) (dlg w)) as Hw.
  { wp_step. wp_call media_updated_spec; [exact H1|]. intros [x|err| |] d1 Hd1; try done; destruct Hd1 as [Hd1 (K1 & K2 & K3 & K4)]; wp_step; [|split_and!; auto].
    wp_call handleMediaUpdate_answer_spec; [exact Hd1|]. intros [r|err| |] d2 Hd2; try done; destruct Hd2 as (G1 & G2 & G3 & G4); (split; [congruence|]); (split; [congruence|]); (split; [lia|]); by rewrite <- K1. }
  assert (forall d', ended d' = ended (dlg w) /\ closed d' = closed (dlg w) /\ (length (store (dlg w)) <= length (store d'))%nat -> ackOffer d' = ackOffer (dlg w) -> kept (dlg w) d') as Hkept by (unfold kept; tauto).
  intros Hrun. destruct (run_in_ends _ _ _ _ _ _ Hw Hrun) as [d' [(r & (G1 & G2 & G3 & G4) & ->)|((G1 & G2 & G3 & G4 & G5) & err & _ & ->)]]; unfold go.
  2: { apply (Good_at K a None f f w d' Idle HW G5); [by apply Hkept|by left|done|by right; auto|done]. }
  destruct r as [st|[sd [i|]]]; cbn [responding].
  - destruct G4 as [G4 G5]. apply (Good_at K a None f f w d' Idle HW G5); [by apply Hkept|by left|done|by right; auto|done].
  - destruct G4 as [G4 G5]. exists K, a, None, (Some i). split; cbn; try done.
    + intros n j. rewrite G5. congruence.
    + intros j Hj. destruct (H3 j Hj) as (F1 & F2 & F3). split; [done|]. split; [done|]. rewrite G1. intros He. destruct (H6 He eq_refl). congruence.
    + intros o n j [= <-]. rewrite G5. congruence.
    + intros j Hj. destruct (H8 j Hj). split; [done|lia].
  - destruct G4 as [G4 G5]. apply (Good_at K a None f f w d' (Responding None) HW G5); [by apply Hkept|by left|done|by right; auto|].
    intros _ _ He. by destruct (H6 He eq_refl).
Qed.

Lemma Good_sent w w' e offer sent : Good w -> at_ w = Responding offer -> step (ESent e sent) w = Some w' -> Good w'.
Proof.
  intros (K & a & m & f & HW) Hat. unfold step. rewrite Hat. pose proof HW as [H1 H2 H3 H4 H5 H6 H7 H8]. rewrite Hat in H6.
  assert (m = None) as -> by (destruct m as [i|]; [by destruct (H5 i eq_refl); congruence|done]).
  destruct (negb (sent || unanswered offer (dlg w))) eqn:Eg; [done|]. apply negb_false_iff in Eg. intros Hrun.
  destruct (run_in_ends _ _ _ _ _ _ (handleMediaUpdate_sent_spec _ _ _ K a None f (dlg w) offer sent H1) Hrun) as [d' HR]. clear Hrun.
  assert (w' = w <| dlg := d' |> <| at_ := match offer with Some _ => if sent then AwaitAck else Idle | None => Idle end |> /\ Inv K a None f d' /\ ended d' = ended (dlg w) /\ closed d' = closed (dlg w) /\ store d' = store (dlg w) /\
    ackOffer d' = match offer with Some i => if negb sent && bool_decide ((snd <$> ackOffer (dlg w)) = Some i) then None else ackOffer (dlg w) | None => ackOffer (dlg w) end) as (-> & G1 & G2 & G3 & G4 & G5).
  { destruct HR as [(x & HP & ->)|(HP & err & Hf & ->)]; [done|]. unfold handleMediaUpdate_sent, modify in Hf. done. }
  assert (ackOffer d' = ackOffer (dlg w) -> kept (dlg w) d') as Hkept by (intros; split_and!; [done..|by rewrite G4]).
  destruct offer as [i|]; [destruct sent; cbn [negb andb] in *|].
  - apply (Good_at K a None f f w d' AwaitAck HW G1); [by apply Hkept|by left|done|by left; rewrite Hat|done].
  - cbn [orb] in Eg. unfold unanswered in Eg. rewrite Eg in G5. apply bool_decide_eq_true in Eg. exists K, a, None, f. split; cbn; try done; rewrite ?G2, ?G4, ?G5; try done.
    + intros j Hj. destruct (H3 j Hj) as (F1 & F2 & F3). split; [done|]. split; [done|]. intros He. destruct (F3 He). done.
    + intros He _. split; [done|]. destruct (acking w) as [j|]; [|done]. destruct (H3 j eq_refl) as (_ & _ & F3). destruct (F3 He) as [_ F4]. by rewrite F4 in Eg.
  - apply (Good_at K a None f f w d' Idle HW G1); [by apply Hkept|by left|done|by left; rewrite Hat|done].
Qed.

(** *** A new association *)

Lemma Good_association w w' e i sent : Good w -> at_ w = Association i -> step (ESent e sent) w = Some w' -> Good w'.
Proof.
  intros (K & a & m & f & HW) Hat. unfold step. rewrite Hat. pose proof HW as [H1 H2 H3 H4 H5 H6 H7 H8]. rewrite Hat in H4, H6. destruct (H4 i eq_refl) as (Hi0 & Hil & Hi).
  assert (m = None \/ m = Some i) as Hm by (destruct m as [j|]; [right; destruct (H5 j eq_refl); congruence|by left]).
  destruct sent; intros Hrun.
  - destruct (run_in_ends _ _ _ _ _ _ (LocalSDP_spec _ _ _ K a m f (dlg w) e i H1) Hrun) as [d' [(x & [G1 (K1 & K2 & K3 & K4)] & ->)|(_ & err & Hf & _)]].
    2: { destruct (LocalSDP_returns e i (dlg w) err). by rewrite Hf. }
    exists K, a, m, f. split; cbn; try done; rewrite ?K1, ?K2; try done.
    + intros j [= <-]. split; [done|]. split; [lia|done].
    + intros j Hj. right. destruct Hm; congruence.
    + intros j Hj. destruct (H8 j Hj). split; [done|lia].
  - assert (wp (LocalSDP e i ;;; answerNewAssociation_unsent e i) (ends (fun _ d' => Inv K a (dropped i m) f d' /\ kept (dlg w) d')) (dlg w)) as Hw.
    { wp_step. eapply wp_mono; [apply wp_returns; [by eapply LocalSDP_spec|by intros; apply LocalSDP_returns]|]. intros [x|err| |] d1 Hd1; try done. destruct Hd1 as [Hd1 K1]. wp_step.
      wp_call answerNewAssociation_unsent_spec; [exact Hd1|]. intros [] d2 Hd2; try done; destruct Hd2 as [Hd2 K2]; (split; [done|by eapply kept_trans]). }
    assert (dropped i m = None) as Ed by (destruct Hm as [->| ->]; [done|unfold dropped; by rewrite bool_decide_true]). rewrite Ed in Hw.
    destruct (run_in_ends _ _ _ _ _ _ Hw Hrun) as [d' [(x & [G1 G2] & ->)|([G1 G2] & err & _ & ->)]]; (apply (Good_at K a m f f w d' Idle HW G1); [done|by left|done|by right; auto|done]).
Qed.

Lemma Good_handshake w w' e i : Good w -> (strict = true -> calm e) -> at_ w = Handshaking i -> step (EHandshake e) w = Some w' -> Good w'.
Proof.
  intros (K & a & m & f & HW) Hcalm Hat. unfold step. rewrite Hat. pose proof HW as [H1 H2 H3 H4 H5 H6 H7 H8]. rewrite Hat in H4, H6. destruct (H4 i eq_refl) as (Hi0 & Hil & Hi).
  assert (m = None \/ m = Some i) as Hm by (destruct m as [j|]; [right; destruct (H5 j eq_refl); congruence|by left]).
  assert (wp (let! ferr := FinalizeContext e i in answerNewAssociation_keyed e i ferr) (ends (fun _ d' => settled ice strict port K a i m f (dlg w) d' /\ kept (dlg w) d')) (dlg w)) as Hw.
  { wp_step. eapply wp_mono; [apply wp_returns; [by eapply FinalizeContext_spec|by intros; apply FinalizeContext_returns]|]. intros [ferr|err| |] d1 Hd1; try done. destruct Hd1 as [Hd1 K1]. wp_step.
    pose proof K1 as (F1 & F2 & F3 & F4). wp_call answerNewAssociation_keyed_spec; [exact Hd1|done|exact Hm|exact Hcalm| |].
    - rewrite F2. intros He. destruct (Hi He) as [->| ->]; [right; by eapply ok_ended|left]. destruct Hm as [->| ->]; [done|]. destruct (flight_ne _ _ _ _ _ Hd1) as [_ Hx]. done.
    - intros [] d2 Hd2; try done; destruct Hd2 as [Hd2 K2]; (split; [|by eapply kept_trans]); unfold settled in *; by rewrite F2 in Hd2. }
  assert (dropped i m = None) as Ed by (destruct Hm as [->| ->]; [done|unfold dropped; by rewrite bool_decide_true]). unfold settled in Hw. rewrite Ed in Hw.
  intros Hrun. assert (exists d', (if ended (dlg w) then Inv K a None f d' else exists K' a', Inv K' a' None None d') /\ kept (dlg w) d' /\ w' = w <| dlg := d' |> <| at_ := Idle |>) as (d' & G1 & G2 & ->).
  { destruct (run_in_ends _ _ _ _ _ _ Hw Hrun) as [d' [(x & [G1 G2] & ->)|([G1 G2] & err & _ & ->)]]; by exists d'. }
  destruct (ended (dlg w)) eqn:He; [apply (Good_at K a m f f w d' Idle HW G1); [done|by left|done|by right; congruence|done]|].
  destruct G1 as (K' & a' & G1), G2 as (K1 & K2 & K3 & K4). destruct (H6 eq_refl eq_refl) as [Ho Hac]. exists K', a', None, None. split; cbn; try done; rewrite ?K1, ?Ho, ?Hac; try done.
  intros j Hj. destruct (H8 j Hj). split; [done|lia].
Qed.

(** *** The ACK *)

Lemma Good_ack w w' e cseq body : Good w -> fresh (u_env e) (dlg w) -> step (EAck e cseq body) w = Some w' -> Good w'.
Proof.
  intros (K & a & m & f & HW) Hfresh. cbn [step]. pose proof HW as [H1 H2 H3 H4 H5 H6 H7 H8]. destruct (acking w) as [j|] eqn:Hac; [done|].
  set (mt := let! r := _ in _). assert (wp mt (ends (fun r d' => ended d' = ended (dlg w) /\ closed d' = closed (dlg w) /\ (length (store (dlg w)) <= length (store d'))%nat /\
    ((r = Some None /\ ackOffer d' = ackOffer (dlg w) /\ Inv K a m f d') \/
     (ackOffer (dlg w) <> None /\ ackOffer d' = None /\ (exists i, r = Some (Some i) /\ f = Some i /\ Inv K a m (Some i) d')) \/
     (ackOffer (dlg w) <> None /\ ackOffer d' = None /\ (r = Some None \/ r = None) /\ Inv K a m None d')))) (dlg w)) as Hw.
  { subst mt. wp_step. wp_call applyAckAnswer_spec; [exact H1|exact H2|exact Hfresh|]. intros [[[i|[]]|]|err| |] d1 Hd1; try done; destruct Hd1 as (G1 & G2 & G3 & G4); wp_step.
    - wp_step. destruct G4 as (G4 & G5 & G6 & G7). split_and!; try done. right; left. split; [done|]. split; [done|]. by exists i.
    - wp_step. destruct G4 as (G4 & G5 & G6). wp_call media_updated_spec; [exact G6|]. intros [[]|err| |] d2 Hd2; try done; destruct Hd2 as [Hd2 (K1 & K2 & K3 & K4)]; wp_steps; (split; [congruence|]); (split; [congruence|]); (split; [lia|]);
        right; right; rewrite K1; (split; [done|]); (split; [done|]); (split; [by auto|done]).
    - wp_step. rewrite G4. split_and!; auto.
    - destruct G4 as (G4 & G5 & G6). split_and!; try done. right; right. (split; [done|]); (split; [done|]); (split; [by auto|done]). }
  intros Hrun. assert (exists r d', (ended d' = ended (dlg w) /\ closed d' = closed (dlg w) /\ (length (store (dlg w)) <= length (store d'))%nat /\
    ((r = None /\ ackOffer d' = ackOffer (dlg w) /\ Inv K a m f d') \/
     (ackOffer (dlg w) <> None /\ ackOffer d' = None /\ (exists i, r = Some i /\ f = Some i /\ Inv K a m (Some i) d')) \/
     (ackOffer (dlg w) <> None /\ ackOffer d' = None /\ r = None /\ Inv K a m None d'))) /\ w' = w <| dlg := d' |> <| acking := r |>) as (r & d' & (G1 & G2 & G3 & G4) & ->).
  { destruct (run_in_ends _ _ _ _ _ _ Hw Hrun) as [d' [(x & (G1 & G2 & G3 & G4) & ->)|((G1 & G2 & G3 & G4) & err & _ & ->)]].
    - exists x, d'. split; [|done]. split_and!; try done. destruct G4 as [(F1 & F2 & F3)|[(F1 & F2 & i & F3 & F4)|(F1 & F2 & [F3|F3] & F4)]]; simplify_eq; [by left|right; left|by right; right]. split; [done|]. split; [done|]. by exists i.
    - exists None, d'. split; [|cbn; by rewrite Hac]. split_and!; try done. destruct G4 as [(F1 & F2 & F3)|[(F1 & F2 & i & F3 & F4)|(F1 & F2 & _ & F4)]]; [done..|by right; right]. }
  assert (forall i, i ∈ waiting w -> m <> Some i /\ (i < length (store d'))%nat) as H8' by (intros i Hi; destruct (H8 i Hi); split; [done|lia]).
  destruct G4 as [(-> & G4 & G5)|[(G4 & G5 & i & -> & -> & G6)|(G4 & G5 & -> & G6)]].
  - exists K, a, m, f. split; cbn; try done; rewrite ?G1, ?G4; try done.
    intros i Hi. destruct (H4 i Hi) as (F1 & F2 & F3). split_and!; [done|lia|done].
  - exists K, a, m, (Some i). destruct (flight_ne _ _ _ _ _ G6) as [Hi0 Hmi]. split; cbn; try done; rewrite ?G1, ?G5; try done.
    + intros j [= <-]. by split_and!.
    + intros j Hj. destruct (H4 j Hj) as (F1 & F2 & F3). split_and!; [done|lia|done].
    + intros He Ha. by destruct (H6 He Ha).
  - exists K, a, m, None. split; cbn; try done; rewrite ?G1, ?G5; try done.
    intros j Hj. destruct (H4 j Hj) as (F1 & F2 & F3). split_and!; [done|lia|]. intros He. destruct (H6 He); [by destruct (at_ w)|done].
Qed.

Lemma Good_ack_handshake w w' e : Good w -> step (EAckHandshake e) w = Some w' -> Good w'.
Proof.
  intros (K & a & m & f & HW). cbn [step]. pose proof HW as [H1 H2 H3 H4 H5 H6 H7 H8]. destruct (acking w) as [i|] eqn:Hac; [|done]. destruct (H3 i eq_refl) as (Hi0 & Hmi & Hi).
  assert (wp (let! ferr := FinalizeContext e i in finalizeAndReplaceUnsafe_keyed e i ferr ;;; media_updated) (ends (fun _ d' => Inv K a m (flying (dlg w) f) d' /\ kept (dlg w) d')) (dlg w)) as Hw.
  { wp_step. eapply wp_mono; [apply wp_returns; [by eapply FinalizeContext_spec|by intros; apply FinalizeContext_returns]|]. intros [ferr|err| |] d1 Hd1; try done. destruct Hd1 as [Hd1 K1]. pose proof K1 as (F1 & F2 & F3 & F4). wp_step. wp_step.
    wp_call finalizeAndReplaceUnsafe_keyed_spec; [exact Hd1|done|by rewrite F2; apply Hi|]. unfold flying. rewrite F2. intros [[]|err| |] d2 Hd2; try done; destruct Hd2 as [Hd2 K2]; wp_step; [|by split; [|by eapply kept_trans]].
    wp_call media_updated_spec; [exact Hd2|]. intros [] d3 Hd3; try done; destruct Hd3 as [Hd3 K3]; (split; [done|eapply kept_trans; [exact K1|by eapply kept_trans]]). }
  intros Hrun. assert (exists d', Inv K a m (flying (dlg w) f) d' /\ kept (dlg w) d' /\ w' = w <| dlg := d' |> <| acking := None |>) as (d' & G1 & (K1 & K2 & K3 & K4) & ->).
  { destruct (run_in_ends _ _ _ _ _ _ Hw Hrun) as [d' [(x & [G1 G2] & ->)|([G1 G2] & err & _ & ->)]]; by exists d'. }
  assert (ended (dlg w) = false -> ackOffer (dlg w) = None /\ awaiting (at_ w) = true) as Hbusy.
  { intros He. split; [by apply Hi|]. destruct (awaiting (at_ w)) eqn:E; [done|]. by destruct (H6 He eq_refl). }
  unfold flying in G1. exists K, a, m, (if ended (dlg w) then f else None). split; cbn; try done; rewrite ?K1, ?K2; try done.
  - intros n j Ho. destruct (ended (dlg w)); [by eapply H2|]. destruct Hbusy; congruence.
  - intros j Hj. destruct (H4 j Hj) as (F1 & F2 & F3). split_and!; [done|lia|]. intros He. destruct (Hbusy He) as [_ Hx]. by destruct (at_ w).
  - intros He Ha. destruct (Hbusy He). congruence.
  - intros j Hj. destruct (H8 j Hj). split; [done|lia].
Qed.

(** *** Our re-INVITEs *)

Lemma Good_own w w' e mode : Good w -> at_ w = Idle -> step (EOwn e mode) w = Some w' -> Good w'.
Proof.
  intros HG Hat. pose proof (Good_store w HG) as Hlt. destruct HG as (K & a & m & f & HW). unfold step. rewrite Hat. destruct (closed (dlg w)); [done|]. pose proof HW as [H1 H2 H3 H4 H5 H6 H7 H8]. rewrite Hat in H6.
  set (f' := if ended (dlg w) then f else Some (length (store (dlg w)))). assert (f' = f \/ f' = Some (length (store (dlg w)))) as Hf' by (unfold f'; destruct (ended (dlg w)); auto).
  assert (m = None) as -> by (destruct m as [i|]; [by destruct (H5 i eq_refl); congruence|done]).
  assert (f' = f \/ ackOffer (dlg w) = None /\ (acking w = None \/ ended (dlg w) = true)) as Hf.
  { unfold f'. destruct (ended (dlg w)) eqn:E; [by left|right]. destruct (H6 eq_refl eq_refl). auto. }
  intros Hrun. destruct (run_in_ends _ _ _ _ _ _ (reInvite_fork_spec _ _ _ K a None f f' (dlg w) e mode H1 Hf') Hrun) as [d' [([i sd] & (G1 & G2 & G4 & G3) & ->)|([G1 G2] & err & _ & ->)]]; unfold go.
  - apply (Good_at K a None f f' w d' (Offered i) HW G3); [done|exact Hf| |by left; rewrite Hat|done]. intros j [= <-]. split; [lia|]. split; [done|]. intros He. unfold f'. rewrite He. by subst i.
  - apply (Good_at K a None f f' w d' Idle HW G2); [done|exact Hf|done|by left; rewrite Hat|done].
Qed.

Lemma Good_own_failed w w' e err i : Good w -> at_ w = Offered i -> step (EOwnFailed e err) w = Some w' -> Good w'.
Proof.
  intros (K & a & m & f & HW) Hat. unfold step. rewrite Hat. pose proof HW as [H1 H2 H3 H4 H5 H6 H7 H8]. rewrite Hat in H6.
  assert (m = None) as -> by (destruct m as [j|]; [by destruct (H5 j eq_refl); congruence|done]). intros Hrun.
  destruct (run_in_ends _ _ _ _ _ _ (reInviteMediaOnce_failed_spec _ _ _ K a None f (dlg w) e i err H1 ltac:(done)) Hrun) as [d' [(x & [G1 G2] & ->)|([G1 G2] & er & _ & ->)]]; unfold go;
    (apply (Good_at K a None f f w d' Idle HW G1); [done|by left|done|by left; rewrite Hat|done]).
Qed.

Lemma Good_own_answered w w' e server body i : Good w -> fresh (u_env e) (dlg w) -> at_ w = Offered i -> step (EOwnAnswered e server body) w = Some w' -> Good w'.
Proof.
  intros (K & a & m & f & HW) Hfresh Hat. unfold step. rewrite Hat. pose proof HW as [H1 H2 H3 H4 H5 H6 H7 H8]. rewrite Hat in H4, H6. destruct (H4 i eq_refl) as (Hi0 & Hil & Hi).
  assert (m = None) as -> by (destruct m as [j|]; [by destruct (H5 j eq_refl); congruence|done]).
  assert (ended (dlg w) = false -> f = Some i) as Hf by (intros He; by destruct (Hi He)).
  set (mt := let! r := _ in _). assert (wp mt (ends (fun r d' => kept (dlg w) d' /\ match r with Some (Some j) => j = i /\ ended (dlg w) = false /\ Inv K a None (Some i) d' | _ => Inv K a None (flying (dlg w) f) d' end)) (dlg w)) as Hw.
  { subst mt. wp_step. wp_call reInviteMediaOnce_answered_spec; [exact H1|done|exact Hf|exact Hfresh|]. intros [[j|[]]|err| |] d1 Hd1; try done; destruct Hd1 as [K1 Hd1]; wp_step.
    wp_step. wp_call media_updated_spec; [exact Hd1|]. intros [[]|err| |] d2 Hd2; try done; destruct Hd2 as [Hd2 K2]; wp_steps; (split; [by eapply kept_trans|done]). }
  assert (flying (dlg w) f = f \/ ackOffer (dlg w) = None /\ (acking w = None \/ ended (dlg w) = true)) as Hfl.
  { unfold flying. destruct (ended (dlg w)) eqn:E; [by left|right]. destruct (H6 eq_refl eq_refl). auto. }
  intros Hrun. destruct (run_in_ends _ _ _ _ _ _ Hw Hrun) as [d' [([j|] & [G1 G2] & ->)|([G1 G2] & err & _ & ->)]]; unfold go.
  - destruct G2 as (-> & He & G2). apply (Good_at K a None f (Some i) w d' (OwnHandshaking i) HW G2); [done|left; by rewrite (Hf He)| |by left; rewrite Hat|done].
    intros j [= <-]. split; [done|]. split; [by eapply flight_lt|done].
  - apply (Good_at K a None f _ w d' Idle HW G2); [done|exact Hfl|done|by left; rewrite Hat|done].
  - apply (Good_at K a None f _ w d' Idle HW G2); [done|exact Hfl|done|by left; rewrite Hat|done].
Qed.

Lemma Good_own_handshake w w' e i : Good w -> at_ w = OwnHandshaking i -> step (EOwnHandshake e) w = Some w' -> Good w'.
Proof.
  intros (K & a & m & f & HW) Hat. unfold step. rewrite Hat. pose proof HW as [H1 H2 H3 H4 H5 H6 H7 H8]. rewrite Hat in H4, H6. destruct (H4 i eq_refl) as (Hi0 & Hil & Hi).
  assert (m = None) as -> by (destruct m as [j|]; [by destruct (H5 j eq_refl); congruence|done]).
  assert (ended (dlg w) = false -> f = Some i) as Hf by (intros He; by destruct (Hi He)).
  assert (wp (let! ferr := FinalizeContext e i in reInviteMediaOnce_keyed e i ferr ;;; media_updated) (ends (fun _ d' => Inv K a None (flying (dlg w) f) d' /\ kept (dlg w) d')) (dlg w)) as Hw.
  { wp_step. eapply wp_mono; [apply wp_returns; [by eapply FinalizeContext_spec|by intros; apply FinalizeContext_returns]|]. intros [ferr|err| |] d1 Hd1; try done. destruct Hd1 as [Hd1 K1]. pose proof K1 as (F1 & F2 & F3 & F4). wp_step. wp_step.
    wp_call reInviteMediaOnce_keyed_spec; [exact Hd1|done|by rewrite F2|]. unfold flying. rewrite F2. intros [[]|err| |] d2 Hd2; try done; destruct Hd2 as [Hd2 K2]; wp_step; [|by split; [|by eapply kept_trans]].
    wp_call media_updated_spec; [exact Hd2|]. intros [] d3 Hd3; try done; destruct Hd3 as [Hd3 K3]; (split; [done|eapply kept_trans; [exact K1|by eapply kept_trans]]). }
  assert (flying (dlg w) f = f \/ ackOffer (dlg w) = None /\ (acking w = None \/ ended (dlg w) = true)) as Hfl.
  { unfold flying. destruct (ended (dlg w)) eqn:E; [by left|right]. destruct (H6 eq_refl eq_refl). auto. }
  intros Hrun. destruct (run_in_ends _ _ _ _ _ _ Hw Hrun) as [d' [(x & [G1 G2] & ->)|([G1 G2] & err & _ & ->)]]; unfold go;
    (apply (Good_at K a None f _ w d' Idle HW G1); [done|exact Hfl|done|by left; rewrite Hat|done]).
Qed.

(** *** The other steps *)

(** A step that changes the dialog only, in ways the progress does not see. *)
Lemma Good_dialog K a m f w d' : Winv K a m f w -> Inv K a m f d' -> ackOffer d' = ackOffer (dlg w) -> ended d' = ended (dlg w) -> (length (store (dlg w)) <= length (store d'))%nat -> Good (w <| dlg := d' |>).
Proof.
  intros [H1 H2 H3 H4 H5 H6 H7 H8] H K1 K2 K3. exists K, a, m, f. split; cbn; try done; rewrite ?K1, ?K2; try done.
  - intros i Hi. destruct (H4 i Hi) as (F1 & F2 & F3). split_and!; [done|lia|done].
  - intros i Hi. destruct (H8 i Hi). split; [done|lia].
Qed.

Lemma Good_ended w : Good w -> Good (w <| dlg := dlg w <| ended := true |> |>).
Proof.
  intros (K & a & m & f & [H1 H2 H3 H4 H5 H6 H7 H8]). exists K, a, m, f. split; cbn; try done.
  - by apply (ok_core _ _ _ _ _ _ _ (dlg w)).
  - intros i Hi. destruct (H3 i Hi) as (F1 & F2 & _). by split_and!.
  - intros i Hi. destruct (H4 i Hi) as (F1 & F2 & _). by split_and!.
Qed.

Lemma Good_gives_up w w' e i : Good w -> step (EOwnGivesUp e i) w = Some w' -> Good w'.
Proof.
  intros (K & a & m & f & HW). cbn [step]. case_bool_decide as Hi; [|done]. pose proof HW as [H1 _ _ _ _ _ _ H8]. destruct (H8 i Hi) as [Hm _].
  pose proof (discardForkUnsafe_spec _ _ _ K a m f (dlg w) e i H1) as Hw. unfold dropped in Hw. rewrite bool_decide_false in Hw by done. intros Hrun.
  destruct (run_in_ends _ _ _ _ _ _ Hw Hrun) as [d' [(x & [G1 (K1 & K2 & K3 & K4)] & ->)|([G1 (K1 & K2 & K3 & K4)] & err & _ & ->)]]; by eapply Good_dialog.
Qed.

Lemma Good_close w w' : Good w -> step EClose w = Some w' -> Good w'.
Proof.
  intros (K & a & m & f & HW). cbn [step]. pose proof (wi_inv _ _ _ _ _ HW) as H1. intros Hrun.
  destruct (run_in_ends _ _ _ _ _ _ (Close_spec _ _ _ K a m f (dlg w) H1) Hrun) as [d' [(x & (G1 & G2 & G3 & G4) & ->)|((G1 & G2 & G3 & G4) & err & _ & ->)]]; (eapply Good_dialog; [exact HW|exact G1|done|done|by rewrite G4]).
Qed.

Lemma Good_close_next w w' e : Good w -> step (ECloseNext e) w = Some w' -> Good w'.
Proof.
  intros (K & a & m & f & HW). cbn [step]. pose proof HW as [H1 _ _ H4 H5 _ _ _]. intros Hrun.
  assert (m <> Some 0%nat) as Hm. { intros ->. destruct (H5 0%nat eq_refl) as [E|E]; rewrite E in H4; by destruct (H4 0%nat eq_refl). }
  destruct (run_in_ends _ _ _ _ _ _ (close_next_spec _ _ _ K a m f (dlg w) e H1 Hm) Hrun) as [d' [(x & [G1 (K1 & K2 & K3 & K4)] & ->)|([G1 (K1 & K2 & K3 & K4)] & err & _ & ->)]]; by eapply Good_dialog.
Qed.

Lemma Good_acked w w' : Good w -> at_ w = AwaitAck -> step EAcked w = Some w' -> Good w'.
Proof.
  intros (K & a & m & f & HW) Hat. unfold step. rewrite Hat. case_bool_decide as Ho; [|done]. case_bool_decide as Hac; [|done]. cbn [andb]. intros [= <-]. unfold go.
  pose proof HW as [H1 _ _ _ H5 _ _ _]. assert (m = None) as -> by (destruct m as [i|]; [by destruct (H5 i eq_refl); congruence|done]).
  apply (Good_at K a None f f w (dlg w) Idle HW H1); [apply kept_refl|by left|done|by right|done].
Qed.

Lemma Good_ack_timeout w w' : Good w -> at_ w = AwaitAck -> step EAckTimeout w = Some w' -> Good w'.
Proof.
  intros HG Hat. apply Good_ended in HG as (K & a & m & f & HW). unfold step. rewrite Hat. intros [= <-]. unfold go. pose proof HW as [H1 _ _ _ H5 _ _ _]. cbn in H5.
  assert (m = None) as -> by (destruct m as [i|]; [by destruct (H5 i eq_refl); congruence|done]).
  apply (Good_at K a None f f _ (dlg w <| ended := true |>) Idle HW H1); [apply kept_refl|by left|done|by right|done].
Qed.

Lemma Good_pending w w' i : Good w -> at_ w = Offered i -> step EOwnPending w = Some w' -> Good w'.
Proof.
  intros (K & a & m & f & HW) Hat. unfold step. rewrite Hat. intros [= <-]. unfold go. pose proof HW as [H1 H2 H3 H4 H5 H6 H7 H8]. rewrite Hat in H4, H6. destruct (H4 i eq_refl) as (_ & Hil & _).
  assert (m = None) as -> by (destruct m as [j|]; [by destruct (H5 j eq_refl); congruence|done]). exists K, a, None, f. split; cbn; try done.
  intros j Hj. apply elem_of_cons in Hj as [->|Hj]; [by split|by apply H8].
Qed.

(** What the system and, for the claims on what is left open, the stack are asked:
    fresh sockets at an address of their own, and no failure while a fork on sockets
    of its own is installed. *)
Definition event_ok w (ev : event) : Prop :=
  match ev with
  | EPeer e _ _ | EAck e _ _ | EOwnAnswered e _ _ => fresh (u_env e) (dlg w)
  | EHandshake e => strict = true -> calm e
  | _ => True
  end.

Lemma step_good ev w w' : Good w -> event_ok w ev -> step ev w = Some w' -> Good w'.
Proof.
  intros HG Hev Hs. destruct ev; cbn [event_ok] in Hev.
  - destruct (at_ w) eqn:Hat; try (unfold step in Hs; rewrite Hat in Hs; done). by eapply Good_peer.
  - destruct (at_ w) eqn:Hat; try (unfold step in Hs; rewrite Hat in Hs; done). by eapply Good_hooks.
  - destruct (at_ w) eqn:Hat; try (unfold step in Hs; rewrite Hat in Hs; done); [by eapply Good_sent|by eapply Good_association].
  - destruct (at_ w) eqn:Hat; try (unfold step in Hs; rewrite Hat in Hs; done). by eapply Good_handshake.
  - by eapply Good_ack.
  - by eapply Good_ack_handshake.
  - destruct (at_ w) eqn:Hat; try (unfold step in Hs; rewrite Hat in Hs; done). by eapply Good_acked.
  - destruct (at_ w) eqn:Hat; try (unfold step in Hs; rewrite Hat in Hs; done). by eapply Good_ack_timeout.
  - destruct (at_ w) eqn:Hat; try (unfold step in Hs; rewrite Hat in Hs; done). by eapply Good_own.
  - destruct (at_ w) eqn:Hat; try (unfold step in Hs; rewrite Hat in Hs; done). by eapply Good_own_failed.
  - destruct (at_ w) eqn:Hat; try (unfold step in Hs; rewrite Hat in Hs; done). by eapply Good_pending.
  - by eapply Good_gives_up.
  - destruct (at_ w) eqn:Hat; try (unfold step in Hs; rewrite Hat in Hs; done). by eapply Good_own_answered.
  - destruct (at_ w) eqn:Hat; try (unfold step in Hs; rewrite Hat in Hs; done). by eapply Good_own_handshake.
  - by eapply Good_close.
  - by eapply Good_close_next.
  - injection Hs as <-. by apply Good_ended.
Qed.

End Worlds.

Section Claims.
Context {S : Type} {uo : UpdateOps S} {ul : UpdateLaws uo}.

(** A session as setup leaves it: its sockets are open. *)
Definition set_up_ok (s : S) : Prop := ul_quiet s /\ ul_conns s ## ul_shut s /\ ul_agent s ## ul_shut s.

Lemma Good_set_up strict s jitter port hooks : set_up_ok s -> Good (ul_ice s) strict port (set_up s jitter port hooks).
Proof.
  intros (Hq & Hc & Ha). exists (ul_conns s), s, None, None. split; try done; [|by intros i Hi; apply elem_of_nil in Hi].
  assert (forall i t, [s] !! i = Some t -> i = 0%nat /\ t = s) as Hl by (intros i t Ht; apply list_lookup_singleton_Some in Ht as [-> <-]; done).
  assert (Shut [s] = ul_shut s) as HX by (unfold Shut; cbn; by rewrite union_empty_r_L).
  split; cbn [set_up dlg store mediaSession iceAgentOwner closing closed]; try done.
  - exists 0%nat, s. split; [|split; [done|]; split; [done|apply ul_addr_refl]]. split; [done|]. split; [by eexists|]. split; [done|]. cbn. destruct jitter; auto.
  - intros i t Ht. destruct (Hl i t Ht) as [-> ->]. split; [split; [done|done|intros _; apply ul_addr_refl]|]. intros _. apply Sharing_Resting. split; [done|apply ul_addr_refl].
  - intros _. rewrite HX. split; [done|]. intros i t Ht. by destruct (Hl i t Ht) as [-> ->].
  - intros i t Ht _. destruct (Hl i t Ht) as [-> _]. split; [done|by left].
  - intros i Hi. by apply elem_of_nil in Hi.
Qed.

(** What steps reach from a dialog that has been set up. *)
Inductive reached (strict : bool) (w0 : world) : @world S -> Prop :=
| reached_start : reached strict w0 w0
| reached_step ev w w' : reached strict w0 w -> event_ok strict w ev -> step ev w = Some w' -> reached strict w0 w'.

Lemma reached_good strict s jitter port hooks w : set_up_ok s -> reached strict (set_up s jitter port hooks) w -> Good (ul_ice s) strict port w.
Proof. intros Hs H. induction H as [|ev w w' _ IH Hev Hst]; [by apply Good_set_up|by eapply step_good]. Qed.

(** A socket one of the sessions has closed. *)
Definition shut_down (d : dialog S) (x : nat) : Prop := exists i t, store d !! i = Some t /\ x ∈ ul_shut t.
Lemma shut_down_Shut (d : dialog S) x : shut_down d x <-> x ∈ Shut (store d).
Proof. by rewrite elem_of_Shut. Qed.

(** C1. From the setup of the media until [Close], through every sequence of
    re-INVITEs of either side, answers, ACKs, handshakes, failures of the stack and the
    end of the dialog, the reader or the jitter buffer, the writer and the RTP session
    are on the installed session, and neither its sockets nor those of an ICE agent
    have been closed. *)
Theorem media_runs_on_open_sockets s jitter port hooks w : set_up_ok s -> reached false (set_up s jitter port hooks) w -> closed (dlg w) = false ->
  exists c cur, mediaSession (dlg w) = Some c /\ store (dlg w) !! c = Some cur /\
    (exists r, rtpSession (dlg w) = Some r /\ r_media r = c) /\ packetWriter (dlg w) = Some c /\
    (jitterBuffer (dlg w) = Some c \/ (jitterBuffer (dlg w) = None /\ packetReader (dlg w) = Some c)) /\
    (forall x, x ∈ ul_conns cur -> ~ shut_down (dlg w) x) /\
    (forall i t x, store (dlg w) !! i = Some t -> x ∈ ul_agent t -> ~ shut_down (dlg w) x).
Proof.
  intros Hs Hr Hc. destruct (reached_good _ _ _ _ _ _ Hs Hr) as (K & a & m & f & HW). pose proof (wi_inv _ _ _ _ _ _ _ _ HW) as H.
  destruct (ok_cur _ _ _ _ _ _ _ _ H) as (c & cur & (O1 & O2 & O3 & O4) & Hcur & HK & _). destruct (ok_live _ _ _ _ _ _ _ _ H Hc) as [L1 L2].
  exists c, cur. split_and!; try done.
  - intros x Hx. rewrite shut_down_Shut, <- HK in *. set_solver.
  - intros i t x Ht Hx. rewrite shut_down_Shut. specialize (L2 i t Ht). set_solver.
Qed.

(** C8. In a life of a dialog in which the monitors stop and start and the deadlines carry
    over whenever a fork on sockets of its own is keyed and installed, as its events are
    in [reached true]: when [Close] has run and no association of the peer's is being
    keyed, every socket any session of the dialog has had, installed, replaced or dropped,
    has been closed, and no session holds an ICE agent. Where they do not, sockets of such
    a fork or of the session it replaces stay open. *)
Theorem no_socket_left_open s jitter port hooks w : set_up_ok s -> reached true (set_up s jitter port hooks) w -> closed (dlg w) = true -> closing (dlg w) = [] ->
  (forall i, at_ w <> Association i /\ at_ w <> Handshaking i) ->
  forall i t, store (dlg w) !! i = Some t -> uo_OwnsICEAgent t = false /\ forall x, x ∈ ul_conns t -> shut_down (dlg w) x.
Proof.
  intros Hs Hr Hc Hcl Hat i t Ht. destruct (reached_good _ _ _ _ _ _ Hs Hr) as (K & a & m & f & HW). pose proof (wi_inv _ _ _ _ _ _ _ _ HW) as H.
  assert (m <> Some i) as Hm by (intros E; destruct (wi_moved _ _ _ _ _ _ _ _ HW i E), (Hat i); congruence).
  destruct (ok_closing _ _ _ _ _ _ _ _ H Hc) as [Ho HK]. rewrite Hcl in HK.
  assert (K ⊆ Shut (store (dlg w))) as HK' by (destruct HK as [(c & _ & Hx)|HK]; [by apply elem_of_nil in Hx|done]).
  split.
  - destruct (uo_OwnsICEAgent t) eqn:E; [|done]. destruct (ok_agent _ _ _ _ _ _ _ _ H i t Ht E) as [_ G]. rewrite Hc, Hcl in G. by apply elem_of_nil in G.
  - intros x Hx. rewrite shut_down_Shut. destruct (ok_all _ _ _ _ _ _ _ _ H i t Ht) as [_ Hrest]. destruct (Hrest Hm) as [[G _]|[G _]]; [set_solver|done].
Qed.

(** What [Close] has left to do, done. *)
Fixpoint close_all (e : upd_env) (n : nat) (w : @world S) : option world :=
  match n with O => Some w | Datatypes.S n => match step (ECloseNext e) w with Some w => close_all e n w | None => None end end.

Lemma close_next_runs (strict : bool) ice port (w : @world S) e : Good ice strict port w -> closing (dlg w) <> [] ->
  exists w', step (ECloseNext e) w = Some w' /\ Good ice strict port w' /\ closed (dlg w') = closed (dlg w) /\ closing (dlg w') = tail (closing (dlg w)).
Proof.
  intros HG Hne. assert (exists w', step (ECloseNext e) w = Some w' /\ closed (dlg w') = closed (dlg w) /\ closing (dlg w') = tail (closing (dlg w))) as (w' & Hst & H1 & H2).
  { destruct HG as (K & a & m & f & HW). pose proof (wi_inv _ _ _ _ _ _ _ _ HW) as H. cbn [step]. unfold run_in, close_next, bind, gets, modify, did. cbv beta iota.
    destruct (closing (dlg w)) as [|[h| |i|p] l] eqn:El; [done|by eexists|by eexists| |by eexists].
    destruct (ok_cur _ _ _ _ _ _ _ _ H) as (c & cur & [Hc _] & Hcur & _). pose proof (lookup_lt_Some _ _ _ Hcur) as Hlt.
    assert (is_Some (store (dlg w) !! i)) as [t Ht].
    { destruct (ok_todo _ _ _ _ _ _ _ _ H i) as [->|Hi]; [rewrite El; by left|apply lookup_lt_is_Some; lia|]. exists cur. congruence. }
    unfold try, close_session, load, bind, gets, save, modify, did, check, ret. cbn. rewrite Ht. destruct (u_close e); by eexists. }
  exists w'. split; [done|]. split; [by eapply Good_close_next|done].
Qed.

(** [Close] ends: it does what it has taken to do without waiting for the peer, and
    returns the port once, after the sockets of the call and its ICE agent have been
    closed. Before, the port has not been returned. *)
Theorem port_returned_last s jitter port hooks w e : set_up_ok s -> reached false (set_up s jitter port hooks) w ->
  (released (acts (dlg w)) = [] \/
   (closed (dlg w) = true /\ released (acts (dlg w)) = option_list port /\ (forall c cur x, mediaSession (dlg w) = Some c -> store (dlg w) !! c = Some cur -> x ∈ ul_conns cur -> shut_down (dlg w) x) /\
    forall i t, store (dlg w) !! i = Some t -> uo_OwnsICEAgent t = false)) /\
  (closed (dlg w) = true -> exists w', close_all e (length (closing (dlg w))) w = Some w' /\ closing (dlg w') = [] /\ released (acts (dlg w')) = option_list port).
Proof.
  intros Hs Hr. pose proof (reached_good _ _ _ _ _ _ Hs Hr) as HG. clear Hs Hr. split.
  - destruct HG as (K & a & m & f & HW). pose proof (wi_inv _ _ _ _ _ _ _ _ HW) as H. pose proof (ok_port _ _ _ _ _ _ _ _ H) as HP. unfold PortOk in HP.
    destruct (closed (dlg w)) eqn:Hc; [|left; by destruct HP as (_ & _ & ?)]. destruct HP as [(_ & _ & _ & HP)|[HP1 HP2]]; [by left|right]. split_and!; try done.
    + intros c cur x Hcur Hl Hx. rewrite shut_down_Shut. destruct (cur_is _ _ _ _ _ _ _ _ _ _ H Hcur Hl) as [_ [HK _]]. destruct (ok_closing _ _ _ _ _ _ _ _ H Hc) as [_ [(c' & _ & G)|G]]; [rewrite HP1 in G; by apply elem_of_nil in G|set_solver].
    + intros i t Ht. destruct (uo_OwnsICEAgent t) eqn:E; [|done]. destruct (ok_agent _ _ _ _ _ _ _ _ H i t Ht E) as [_ G]. rewrite Hc, HP1 in G. by apply elem_of_nil in G.
  - remember (length (closing (dlg w))) as n eqn:Hn. revert w HG Hn. induction n as [|n IH]; intros w HG Hn Hc; cbn [close_all].
    + exists w. split; [done|]. destruct (closing (dlg w)) eqn:El; [|done]. split; [done|]. destruct HG as (K & a & m & f & HW). pose proof (ok_port _ _ _ _ _ _ _ _ (wi_inv _ _ _ _ _ _ _ _ HW)) as HP.
      unfold PortOk in HP. rewrite Hc, El in HP. destruct HP as [(pre & E & _ & HP)|[_ HP]]; [|done]. destruct pre, port; try done; by rewrite HP.
    + destruct (close_next_runs false _ port w e HG) as (w1 & Hst & HG1 & Hc1 & Hl1); [by intros E; rewrite E in Hn|]. rewrite Hst. apply IH; [done| |congruence]. rewrite Hl1. destruct (closing (dlg w)); cbn in *; lia.
Qed.

(** The store once the offer [sdp] has been applied to a fork of the session [c]. *)
Definition offered_store (c : nat) (cur t : S) (d : dialog S) : list S := <[c := uo_answers false cur]> (store d) ++ [t].

Lemma sdpReInviteUnsafe_run e sdp d c cur t o : mediaSession d = Some c -> store d !! c = Some cur -> uo_RemoteSDP (u_env e) sdp (uo_Fork (uo_answers false cur)) = (t, o) ->
  sdpReInviteUnsafe e sdp d = (d <| store := offered_store c cur t d |>,
    match o with Ok => Return (length (store d)) | Err err => Fail (ErrWrap "sdp update media remote SDP applying failed" err) | Panic => Panics end).
Proof.
  intros Hc Hs HR. unfold sdpReInviteUnsafe, RemoteSDP, try, bind, gets, load, bind, gets, save, new, modify. cbv beta iota. rewrite Hc. cbn [id ret]. rewrite Hs. cbn.
  rewrite list_lookup_middle by done. cbn. rewrite HR. cbn. unfold offered_store. rewrite insert_app_r_alt by lia.
  replace (length (<[c:=uo_answers false cur]> (store d)) - length (<[c:=uo_answers false cur]> (store d)))%nat with 0%nat by lia. cbn. rewrite length_insert. by destruct o.
Qed.

(** What an offer of the peer's came to on the dialog [d], whose session [c] is [cur]
    and whose fork the offer made [t] of. *)
Inductive offer_outcome (e : upd_env) (c : nat) (cur t : S) (d d' : dialog S) : outcome -> offered -> Prop :=
| offer_installed : uo_FinalizePending t = false -> On (length (store d)) d' ->
    store d' !! length (store d) = Some (uo_CarryRTPDeadlines (u_carry e) (uo_answers false cur) t).1 -> offer_outcome e c cur t d d' Ok Installed
| offer_to_key : uo_FinalizePending t = true -> On c d' -> mediaUpdating d' = true -> store d' !! c = Some (uo_answers false cur) ->
    store d' !! length (store d) = Some t -> offer_outcome e c cur t d d' Ok (NewAssociation (length (store d)))
| offer_refused err : On c d' -> store d' !! c = Some (uo_answers false cur) ->
    offer_outcome e c cur t d d' (Err err) (Refuse (if errors_Is err ErrICERestartUnsupported then 488 else 487))
| offer_failed st : stack_failed e -> On c d' -> store d' !! c = Some (uo_answers false cur) -> st = 487 \/ st = 488 -> offer_outcome e c cur t d d' Ok (Refuse st)
| offer_installed_refused st : u_carry e <> None \/ u_close e <> None -> uo_FinalizePending t = false -> On (length (store d)) d' ->
    store d' !! length (store d) = Some (uo_CarryRTPDeadlines (u_carry e) (uo_answers false cur) t).1 -> st = 487 \/ st = 488 -> offer_outcome e c cur t d d' Ok (Refuse st).

Lemma refusal_cases err : refusal err = 487 \/ refusal err = 488.
Proof. unfold refusal. destruct (errors_Is _ _); auto. Qed.

(** The session the offer made is in place. *)
Lemma replaced_outcome e c cur t d d1 d2 r : On c d1 -> store d1 !! c = Some (uo_answers false cur) -> store d1 !! length (store d) = Some t -> c <> length (store d) -> closed d1 = false ->
  uo_FinalizePending t = false -> replaced e (length (store d)) c (uo_answers false cur) d1 r d2 ->
  match r with Some _ => offer_outcome e c cur t d d2 Ok Installed | None => forall err, offer_outcome e c cur t d d2 Ok (Refuse (refusal err)) end.
Proof.
  intros HO Hc1 Ht1 Hne Hcl Ep HR. set (i := length (store d)) in *. destruct HR as [d2 Hst Hf|s t' er d2 Ecar Es _ Hin _ Hst Hwhy|s t' er d2 Ecar Es _ Hin _ Hst Ha].
  - intros err. destruct Hf as [Hf|Hf]; [congruence|]. apply offer_failed; [done|by eapply started_On| |apply refusal_cases]. destruct Hst as [Hst _]. unfold core in Hst. congruence.
  - assert (s = t) as -> by congruence. assert (On i d2) as HOi by (by destruct Hin). assert (store d2 !! i = Some (uo_CarryRTPDeadlines (u_carry e) (uo_answers false cur) t).1) as Hs2.
    { rewrite Ecar, Hst. by apply list_lookup_insert_eq, lookup_lt_is_Some. }
    destruct er as [er|]; [|by apply offer_installed]. intros err. apply offer_installed_refused; [left|done..|apply refusal_cases].
    intros Hn. rewrite Hn in Ecar. pose proof (ul_Carry_none (uo_answers false cur) t) as HN. by rewrite Ecar in HN.
  - assert (s = t) as -> by congruence. assert (On i d2) as HOi by (by destruct Hin). assert (store d2 !! i = Some (uo_CarryRTPDeadlines (u_carry e) (uo_answers false cur) t).1) as Hs2.
    { rewrite Ecar, Hst. rewrite list_lookup_insert_ne by done. by apply list_lookup_insert_eq, lookup_lt_is_Some. }
    destruct (u_close e) eqn:Ecl; [|by apply offer_installed]. intros err. apply offer_installed_refused; [right; by rewrite Ecl|done..|apply refusal_cases].
Qed.

(** C18. What an offer of the peer's comes to on a dialog with media. After the end of
    the call it is refused with 487 and while another update runs with 491, and nothing
    has changed. Otherwise, unless applying it panics, as some descriptions make it, it
    is answered: one that cannot be applied is refused, 488 when it asks for an ICE
    restart and 487 otherwise, and the call stays on its session; one that asks for a
    new association is left to be keyed, on a fork of its own; any other is on the
    reader, the writer and the RTP session at once. It is refused all the same when the
    monitor of the session would not stop or start, and then the call stays on its
    session, or when the deadlines could not be carried over or the session it replaced
    not be closed, and then it is installed though refused. *)
Theorem offer_installed_or_refused e body d c cur t o : On c d -> store d !! c = Some cur -> body <> EmptyString ->
  uo_RemoteSDP (u_env e) body (uo_Fork (uo_answers false cur)) = (t, o) ->
  let '(d', res) := handleMediaUpdate_offer e body d in
  if closed d then d' = d /\ res = Return (Refuse 487)
  else if mediaUpdating d then d' = d /\ res = Return (Refuse 491)
  else match o with
       | Panic => res = Panics
       | _ => exists r, res = Return r /\ offer_outcome e c cur t d d' o r
       end.
Proof.
  intros HO Hs Hb HR. pose proof (sdpReInviteUnsafe_run e body d c cur t o (proj1 HO) Hs HR) as HE. unfold handleMediaUpdate_offer, bind at 1, gets. cbv beta iota. cbn [id].
  destruct (closed d) eqn:Hc; [done|]. destruct (mediaUpdating d) eqn:Hu; [done|].
  rewrite (proj2 (String.eqb_neq body EmptyString) Hb), HE. set (d1 := d <| store := offered_store c cur t d |>). assert (On c d1) as HO1 by done. pose proof (lookup_lt_Some _ _ _ Hs) as Hlt.
  assert (store d1 !! c = Some (uo_answers false cur)) as Hc1 by (cbn; unfold offered_store; rewrite lookup_app_l by (by rewrite length_insert); by apply list_lookup_insert_eq).
  assert (store d1 !! length (store d) = Some t) as Ht1 by (cbn; unfold offered_store; apply list_lookup_middle; by rewrite length_insert).
  assert (closed d1 = false) as Hcl1 by done. clearbody d1. clear HE. destruct o as [|err|]; [|eexists; split; [done|]|done].
  2: { unfold refusal. cbn [errors_Is]. rewrite bool_decide_false by done. cbn [orb]. by apply offer_refused. }
  unfold bind, FinalizePending, load, bind, gets, id. cbv beta iota. rewrite Ht1. cbn [ret]. destruct (uo_FinalizePending t) eqn:Ep; [eexists; split; [reflexivity|]; by apply offer_to_key|].
  pose proof (replaceRTPSessionUnsafe_spec e (length (store d)) c (uo_answers false cur) t d1 HO1 Hc1 Ht1 ltac:(lia)) as HS. unfold wp in HS. unfold try.
  pose proof (fun d2 r => replaced_outcome e c cur t d d1 d2 r HO1 Hc1 Ht1 ltac:(lia) Hcl1 Ep) as HK.
  destruct (replaceRTPSessionUnsafe e (length (store d)) d1) as [d2 [[]|err| |]]; cbn [fst snd] in HS; try done.
  - exists Installed. split; [reflexivity|]. exact (HK _ _ HS).
  - exists (Refuse (refusal err)). split; [reflexivity|]. exact (HK _ _ HS err).
Qed.

End Claims.

(** ** A call whose peer asks for a new DTLS association *)

Definition ex_update : UpdateOps (@MediaSession.MediaSession unit (bytes * bytes)) :=
  update_ops MediaSecurity.ex_fp MediaSecurity.ex_ctx (fun _ => 16) (fun _ => true) false.
Definition ex_update_laws : UpdateLaws ex_update := update_laws MediaSecurity.ex_fp MediaSecurity.ex_ctx (fun _ => 16) (fun _ => true) false.
#[local] Existing Instance ex_update | 0.
#[local] Existing Instance ex_update_laws | 0.

Definition freshb (e : update_env) (d : dialog (@MediaSession.MediaSession unit (bytes * bytes))) : bool :=
  forallb (fun s => bool_decide (bound (ue_remote e) ## conns s ∪ shut s)) (store d) &&
  match mediaSession d ≫= (fun c => store d !! c), e_bind (ue_remote e) with
  | Some s, inl (laddr, _, _) => negb (addr_eq (Laddr s) laddr)
  | _, _ => true
  end.
Lemma freshb_fresh e d : freshb e d = true -> fresh e d.
Proof.
  unfold freshb. rewrite andb_true_iff, forallb_forall. intros [H1 H2]. split.
  - intros i s Hs. specialize (H1 s). apply bool_decide_eq_true in H1; [exact H1|]. apply list_elem_of_In. by eapply list_elem_of_lookup_2.
  - intros c s Hc Hs laddr rtp rtcp Eb. rewrite Hc in H2. cbn in H2. rewrite Hs, Eb in H2. by apply negb_true_iff in H2.
Qed.

Definition okb (w : world) (ev : event) : bool :=
  match ev with
  | EPeer e _ _ | EAck e _ _ | EOwnAnswered e _ _ => freshb (u_env e) (dlg w)
  | EHandshake e => bool_decide (u_monitorClose e = None) && bool_decide (u_monitor e = None) && bool_decide (u_carry e = None)
  | _ => true
  end.
Fixpoint run (l : list event) (w : world) : option world :=
  match l with [] => Some w | ev :: l => if okb w ev then match step ev w with Some w => run l w | None => None end else None end.
Lemma okb_ok strict w ev : okb w ev = true -> event_ok strict w ev.
Proof.
  destruct ev; cbn [okb event_ok]; try done; try (by apply freshb_fresh).
  rewrite !andb_true_iff, !bool_decide_eq_true. intros [[H1 H2] H3] _. split; [by intros [?|?]|done].
Qed.
Lemma run_reached strict l w0 w w' : reached strict w0 w -> run l w = Some w' -> reached strict w0 w'.
Proof.
  revert w. induction l as [|ev l IH]; intros w Hr; cbn [run]; [by intros [= <-]|]. destruct (okb w ev) eqn:Ho; [|done]. destruct (step ev w) as [w1|] eqn:Hst; [|done].
  apply IH. eapply reached_step; [exact Hr|by apply okb_ok|exact Hst].
Qed.

Definition ex_call : @MediaSession.MediaSession unit (bytes * bytes) :=
  match MediaLifecycle.FinalizeContext MediaSecurity.ex_ctx MediaLifecycle.RunDone (MediaSecurity.ex_hs None) (MediaSecurity.ex_armed <| rtcpConn := Some 4%nat |>) with
  | Some (s, _) => s
  | None => MediaSecurity.ex_armed
  end.
Definition ex_upd : upd_env :=
  {| u_env := {| ue_remote := {| e_tlsID := "id"; e_bind := inl (MediaSecurity.ex_addr 5010, 7%nat, 8%nat); e_dial := None |};
                 ue_local := {| le_savpDisable := false; le_keysalt := []; le_tlsID := "id"; le_ntp := 7 * 2 ^ 32 |};
                 ue_run := None; ue_wait := MediaLifecycle.RunDone; ue_handshake := MediaSecurity.ex_hs None |};
     u_monitorClose := None; u_monitor := None; u_rtpClose := None; u_carry := None; u_close := None |}.
(** An offer with the fingerprint [fp]. *)
Definition ex_reoffer (fp : string) : string := write_lines ["v=0"; "o=- 3 5 IN IP4 10.0.0.9"; "s=-"; "c=IN IP4 10.0.0.9"; "t=0 0";
  "m=audio 7004 UDP/TLS/RTP/SAVP 0"; "a=fingerprint:SHA-256 " +:+ fp; "a=setup:actpass"; "a=sendrecv"].
Definition ex_start : world := set_up ex_call false (Some 5004) [].
Definition ex_rekeyed : list event := [EPeer ex_upd 2 (ex_reoffer "EE:FF"); ESent ex_upd true; EHandshake ex_upd].
Definition ex_ended : list event := ex_rekeyed ++ [EClose; ECloseNext ex_upd; ECloseNext ex_upd; ECloseNext ex_upd].
Lemma ex_set_up : set_up_ok ex_call.
Proof. split; [by vm_compute; split; [|intros [? [=]]]|]. split; apply disjoint_empty_r || (intros x Hx Hy; vm_compute in Hy; done). Qed.

Lemma media_runs_on_open_sockets_witness : exists w, run ex_rekeyed ex_start = Some w /\ mediaSession (dlg w) = Some 1%nat /\ ~ shut_down (dlg w) 7 /\ shut_down (dlg w) 3.
Proof.
  destruct (run ex_rekeyed ex_start) as [w|] eqn:E; [|vm_compute in E; discriminate E].
  assert (closed (dlg w) = false /\ mediaSession (dlg w) = Some 1%nat /\ (rtpConn <$> store (dlg w) !! 1%nat) = Some (Some 7%nat) /\ (closedConns <$> store (dlg w) !! 0%nat) = Some [4%nat; 3%nat]) as (Hc & Hm & H1 & H0).
  { assert ((fun w => (closed (dlg w), mediaSession (dlg w), rtpConn <$> store (dlg w) !! 1%nat, closedConns <$> store (dlg w) !! 0%nat)) <$> run ex_rekeyed ex_start = Some (false, Some 1%nat, Some (Some 7%nat), Some [4%nat; 3%nat])) as H by (vm_compute; reflexivity).
    rewrite E in H. injection H as -> -> -> ->. split_and!; reflexivity. }
  exists w. split; [reflexivity|]. split; [exact Hm|]. split.
  - pose proof (media_runs_on_open_sockets ex_call false (Some 5004) [] w ex_set_up (run_reached _ _ _ _ _ (reached_start _ _) E) Hc) as Hw. clear E.
    destruct Hw as (c & cur & Hcur & Hs & _ & _ & _ & Hopen & _). rewrite Hm in Hcur. injection Hcur as <-. apply Hopen. rewrite Hs in H1. cbn in H1. injection H1 as H1. cbn. unfold conns. rewrite H1. set_solver.
  - clear E. destruct (store (dlg w) !! 0%nat) as [s|] eqn:Hs; [|done]. cbn in H0. injection H0 as H0. exists 0%nat, s. split; [done|]. cbn. unfold shut. rewrite H0. set_solver.
Defined.
Lemma no_socket_left_open_witness : exists w, run ex_ended ex_start = Some w /\ length (store (dlg w)) = 2%nat /\
  forall i t, store (dlg w) !! i = Some t -> uo_OwnsICEAgent t = false /\ forall x, x ∈ ul_conns t -> shut_down (dlg w) x.
Proof.
  destruct (run ex_ended ex_start) as [w|] eqn:E; [|vm_compute in E; discriminate E].
  assert ((fun w => (closed (dlg w), closing (dlg w), at_ w, length (store (dlg w)))) <$> run ex_ended ex_start = Some (true, [], Idle, 2%nat)) as H by (vm_compute; reflexivity).
  rewrite E in H. injection H as H1 H2 H3 H4. exists w. split; [reflexivity|]. split; [exact H4|].
  apply (no_socket_left_open ex_call false (Some 5004) [] w ex_set_up (run_reached _ _ _ _ _ (reached_start _ _) E) H1 H2). intros i. rewrite H3. by split.
Defined.
Lemma port_returned_last_witness : exists w w', run (ex_rekeyed ++ [EClose]) ex_start = Some w /\ released (acts (dlg w)) = [] /\
  close_all ex_upd 3 w = Some w' /\ released (acts (dlg w')) = [5004].
Proof.
  destruct (run (ex_rekeyed ++ [EClose]) ex_start) as [w|] eqn:E; [|vm_compute in E; discriminate E].
  assert ((fun w => (closed (dlg w), length (closing (dlg w)), released (acts (dlg w)))) <$> run (ex_rekeyed ++ [EClose]) ex_start = Some (true, 3%nat, [])) as H by (vm_compute; reflexivity).
  rewrite E in H. injection H as H1 H2 H3.
  destruct (port_returned_last ex_call false (Some 5004) [] w ex_upd ex_set_up (run_reached _ _ _ _ _ (reached_start _ _) E)) as [_ Hall].
  destruct (Hall H1) as (w' & Hw & _ & Hp). rewrite H2 in Hw. exists w, w'. split; [reflexivity|]. split; [exact H3|]. split; [exact Hw|exact Hp].
Defined.
(** A call without security whose peer puts it on hold. *)
Definition ex_plain : @MediaSession.MediaSession unit (bytes * bytes) := MediaSecurity.ex_dtls <| SecureRTP := SecureRTPModeNone |> <| SRTPAlg := None |> <| DTLSConf := {| Certificates := []; SDPSetupRole := None |} |>.
Definition ex_hold : string := write_lines ["v=0"; "o=- 3 5 IN IP4 10.0.0.9"; "s=-"; "c=IN IP4 10.0.0.9"; "t=0 0"; "m=audio 7004 RTP/AVP 0"; "a=sendonly"].
Lemma offer_installed_or_refused_witness : exists d', handleMediaUpdate_offer ex_upd ex_hold (dlg (set_up ex_plain false None [])) = (d', Return Installed) /\ On 1 d'.
Proof.
  destruct (uo_RemoteSDP (u_env ex_upd) ex_hold (uo_Fork (uo_answers false ex_plain))) as [t o] eqn:E.
  assert ((uo_RemoteSDP (u_env ex_upd) ex_hold (uo_Fork (uo_answers false ex_plain))).2 = Ok /\ uo_FinalizePending (uo_RemoteSDP (u_env ex_upd) ex_hold (uo_Fork (uo_answers false ex_plain))).1 = false) as [H1 H2] by (vm_compute; split; reflexivity).
  rewrite E in H1, H2. cbn [fst snd] in H1, H2. subst o.
  pose proof (offer_installed_or_refused ex_upd ex_hold (dlg (set_up ex_plain false None [])) 0 ex_plain t Ok ltac:(by vm_compute; split_and!; eauto) eq_refl ltac:(vm_compute; discriminate) E) as H.
  destruct (handleMediaUpdate_offer ex_upd ex_hold (dlg (set_up ex_plain false None []))) as [d' res]. destruct H as (r & -> & Hr).
  exists d'. inversion Hr as [Hp HO Hst|Hp| |st Hf|st Hf]; subst; [split; [reflexivity|exact HO]|congruence|by destruct Hf as [Hf|Hf]|by destruct Hf as [Hf|Hf]].
Defined.

End MediaUpdateTheorems.
