(* ===== verification/Client.v ===== *)
(** * Placing a call

    [dialog_client_session.go] from [Invite] to [Ack], with [Diago.Invite] and
    [Diago.InviteBridge] of [diago.go]: the offer of the INVITE, early media, the
    answer, the ACK, and what becomes of a call that fails, as methods in the monad
    of [Method]. The media of the dialog is the [dialog] of [MediaUpdate]; what is
    asked of a media session are the interfaces of [Answer] and [MediaUpdate].

    The headers of the INVITE are left to sipgo, whose [WaitAnswer] is the responses
    it delivers and how it ends. *)
From S2P Require Import Prelude GoStrings NetIP Codec MediaSdp MediaSession MediaLifecycle Method Answer MediaUpdate.
Import GoStrings NetIP Codecs MediaSdp Method.

Module Client.
Open Scope method_scope.

#[export] Existing Instance MediaUpdate.eta_dialog.
#[export] Existing Instance Answer.dialogState_eq_dec.
Abbreviation MediaConfig := Answer.MediaConfig.
Abbreviation media := MediaUpdate.dialog.

(** What else an INVITE asks of a media session: [SetRemoteAddr] with the zero
    address. *)
Class CallOps (S : Type) := { co_forgetRemote : S -> S }.
#[export] Instance session_call_ops {cert srtp_ctx} : CallOps (@MediaSession.MediaSession cert srtp_ctx) := {
  co_forgetRemote := MediaSession.SetRemoteAddr addr_zero }.

Inductive out := OInvite (offer : string) | OAck | OBye.
#[export] Instance out_eq_dec : EqDecision out.
Proof. solve_decision. Defined.

Record client (cert S : Type) := {
  mediaConfig : MediaConfig cert;
  med : media S;
  (** The ports returned because no session came of them. *)
  returned : list Z;
  (** [InviteResponse], once the INVITE has its 2xx: the body of it. *)
  response : option (option string);
  earlyUnkeyed : bool;
  (** Whether the channel [acking] is there and open. *)
  acking : bool;
  state : Answer.dialogState;
  onMediaUpdate : option nat;
  onReferDialog : option nat;
  (** Whether its Diago finds the dialog. *)
  cached : bool;
  closed_ : bool;
  outs : list out }.
Arguments mediaConfig {cert S}. Arguments med {cert S}. Arguments returned {cert S}. Arguments response {cert S}. Arguments earlyUnkeyed {cert S}.
Arguments acking {cert S}. Arguments state {cert S}. Arguments onMediaUpdate {cert S}. Arguments onReferDialog {cert S}. Arguments cached {cert S}.
Arguments closed_ {cert S}. Arguments outs {cert S}.
#[export] Instance eta_client {cert S} : Eta (client cert S) := fun c =>
  {| mediaConfig := mediaConfig c; med := med c; returned := returned c; response := response c; earlyUnkeyed := earlyUnkeyed c; acking := acking c;
     state := state c; onMediaUpdate := onMediaUpdate c; onReferDialog := onReferDialog c; cached := cached c; closed_ := closed_ c; outs := outs c |}.

(** A dialog as [NewDialog] makes it. *)
Definition no_media {S} : media S :=
  {| MediaUpdate.store := []; MediaUpdate.mediaSession := None; MediaUpdate.rtpSession := None; MediaUpdate.iceAgentOwner := None;
     MediaUpdate.jitterBuffer := None; MediaUpdate.packetReader := None; MediaUpdate.packetWriter := None; MediaUpdate.releaseRTPPort := None;
     MediaUpdate.onClose := []; MediaUpdate.ackOffer := None; MediaUpdate.mediaUpdating := false; MediaUpdate.closed := false;
     MediaUpdate.ended := false; MediaUpdate.closing := []; MediaUpdate.acts := [] |}.
Definition new_client {cert S} (conf : MediaConfig cert) : client cert S :=
  {| mediaConfig := conf; med := no_media; returned := []; response := None; earlyUnkeyed := false; acking := false; state := Answer.Early;
     onMediaUpdate := None; onReferDialog := None; cached := false; closed_ := false; outs := [] |}.

Definition ErrClientEarlyMedia : error := ErrNew "Early media detected".
Definition errNoSDPInResponse : error := ErrNew "no SDP in response".
Definition errNoOriginatorCodecs : error := ErrNew "no codecs support found from originator".
Definition errByeNoResponse : error := ErrNew "bye: can not send as no invite response present".

Section Methods.
Context {cert S : Type} {mo : Answer.MediaOps cert S} {uo : MediaUpdate.UpdateOps S} {co : CallOps S}.
Abbreviation method := (M (client cert S)).
Abbreviation mo_env := (Answer.mo_env (S := S)).
Abbreviation upd_env := (MediaUpdate.upd_env (S := S)).

(** ** What the outside makes of the calls *)

(** A look at the handshake of early media: what [FinalizeWithin] makes of it, the
    end of the context, and how long it took. *)
Record poll := { p_env : mo_env; p_ctx : option error; p_took : Z }.

(** A response to the INVITE, and what becomes of it: the error of the application's
    [OnResponse], its description on the session, the handshake, the monitor. *)
Record response_ := {
  r_status : Z; r_sdp : bool; r_body : option string;
  r_app : option error; r_remote : mo_env; r_polls : list poll; r_monitor : option error }.

(** What [WaitAnswer] delivers, and how it ends: with an error, or with the 2xx. *)
Record wait := { w_responses : list response_; w_result : error + option string }.

(** One call of [Ack]: the error of [WriteAck], the handshake, the monitor. *)
Record ack_env := { a_write : option error; a_final : mo_env; a_monitor : option error }.

(** The answer: its description on the session; on a fork, with early media; the
    monitor; and the ACKs and the BYE of a call that is given up. *)
Record answer_env := {
  an_remote : mo_env; an_update : upd_env; an_monitor : option error;
  an_ack : ack_env; an_ack_again : ack_env; an_bye : bool * option error }.

(** The INVITE of the originator: its body, and whether it is a description. *)
Record originator := { o_sdp : bool; o_body : option string; o_remote : mo_env }.

Record invite_env := {
  i_resolve : IP + error; i_alloc : Z + error; i_new : mo_env; i_local : mo_env;
  i_build : option error; i_send : option error; i_wait : wait; i_answer : answer_env }.

Record InviteClientOptions := {
  Originator : option originator;
  OnMediaUpdate : option nat;
  OnRefer : option nat;
  EarlyMediaDetect : bool;
  EarlyMediaKeyTimeout : Z }.

(** ** The media of the dialog *)

Definition in_media {A} (m : M (media S) A) : method A := fun c =>
  let '(d, r) := m (med c) in (c <| med := d |>, r).
Definition load (i : nat) : method S := in_media (MediaUpdate.load i).
Definition save (i : nat) (s : S) : method unit := in_media (MediaUpdate.save i s).
Definition put (o : out) (c : client cert S) : client cert S := c <| outs := outs c ++ [o] |>.

Definition RemoteSDP (e : mo_env) (i : nat) (sdp : string) : method unit :=
  let! s := load i in
  let '(s, o) := Answer.mo_RemoteSDP e sdp s in
  save i s ;;; match o with MediaSession.Ok => ret tt | MediaSession.Err e => fail e | MediaSession.Panic => panic end.
Definition LocalSDP (e : mo_env) (i : nat) : method string :=
  let! s := load i in let '(s, body) := Answer.mo_LocalSDP e s in save i s ;;; ret body.
Definition expectAnswer (i : nat) : method unit := let! s := load i in save i (Answer.mo_expectAnswer s).
Definition FinalizeContext (e : mo_env) (i : nat) : method unit :=
  let! s := load i in
  match Answer.mo_FinalizeContext e s with Some (s, err) => save i s ;;; check err | None => waits end.

Definition initMediaSessionFromConf (e : invite_env) : method unit :=
  let! c := gets id in
  let conf := mediaConfig c in
  match MediaUpdate.mediaSession (med c) with
  | Some _ => ret tt
  | None =>
    match match Answer.bindIP conf with None => i_resolve e | ip => inl ip end with
    | inr err => fail err
    | inl ip =>
      match if Answer.RTPPortAllocator conf then i_alloc e else inl 0 with
      | inr err => fail err
      | inl port =>
        match Answer.mo_new (i_new e) ip port conf with
        | inr err => modify (fun c => if Answer.RTPPortAllocator conf then c <| returned := returned c ++ [port] |> else c) ;;; fail err
        | inl s =>
          let! i := in_media (MediaUpdate.new s) in
          in_media (modify (fun d => d <| MediaUpdate.mediaSession := Some i |>
            <| MediaUpdate.releaseRTPPort := if Answer.RTPPortAllocator conf then Some port else None |>))
        end
      end
    end
  end.

Definition initRTPSessionUnsafe (i : nat) : method unit :=
  in_media (modify (fun d => d <| MediaUpdate.mediaSession := Some i |>
    <| MediaUpdate.rtpSession := Some {| MediaUpdate.r_media := i; MediaUpdate.monitored := false |} |>
    <| MediaUpdate.packetReader := Some i |> <| MediaUpdate.packetWriter := Some i |>)).
Definition MonitorBackground (err : option error) : method unit :=
  match err with
  | Some e => fail e
  | None => in_media (modify (fun d => d <| MediaUpdate.rtpSession :=
      match MediaUpdate.rtpSession d with
      | Some r => Some {| MediaUpdate.r_media := MediaUpdate.r_media r; MediaUpdate.monitored := true |}
      | None => None
      end |>))
  end.
Definition onCloseUnsafe (hook : nat) : method unit :=
  in_media (modify (fun d => d <| MediaUpdate.onClose := MediaUpdate.onClose d ++ [hook] |>)).

(** The session the methods take from [med] before they use it. *)
Definition session : method nat :=
  let! c := gets id in match MediaUpdate.mediaSession (med c) with Some i => ret i | None => panic end.

(** ** The ACK and the BYE *)

Definition ack (err : option error) : method unit :=
  match err with
  | Some e => fail e
  | None => modify (fun c => put OAck c <| state := Answer.Confirmed |>)
  end.

(** The target of the ACK is of [InviteResponse], which has to be there. *)
Definition ackTarget : method unit :=
  let! r := gets response in match r with Some _ => ret tt | None => panic end.

Definition acked (e : ack_env) (m : option nat) : method unit :=
  ack (a_write e) ;;;
  match m with Some i => FinalizeContext (a_final e) i | None => ret tt end ;;;
  let! unkeyed := gets earlyUnkeyed in
  modify (fun c => c <| earlyUnkeyed := false |>) ;;;
  if unkeyed then
    match m with
    | Some i => initRTPSessionUnsafe i ;;; MonitorBackground (a_monitor e)
    | None => panic
    end
  else ret tt.

Definition Ack (e : ack_env) : method unit :=
  ackTarget ;;;
  let! m := gets (fun c => MediaUpdate.mediaSession (med c)) in
  modify (fun c => c <| acking := true |>) ;;;
  defer (fun c => c <| acking := false |>) (acked e m).

(** [bye]: whether the BYE is sent, and the error. *)
Definition Bye (bye : bool * option error) : method unit :=
  let! r := gets response in
  match r with
  | None => fail errByeNoResponse
  | Some _ => modify (fun c => if bye.1 then put OBye c <| state := Answer.Ended |> else c) ;;; check bye.2
  end.

Definition ackAndBye (write : option error) (bye : bool * option error) : method unit :=
  let! st := gets state in
  (if bool_decide (st = Answer.Established) then ackTarget ;;; ack write else ret tt) ;;;
  Bye bye.

(** ** The answer *)

Definition checkEarlyMedia (e : upd_env) (sdp : string) : M (media S) unit :=
  let! d := gets id in
  match MediaUpdate.mediaSession d with
  | None => panic
  | Some c =>
    let! cur := MediaUpdate.load c in
    let! i := MediaUpdate.new (MediaUpdate.uo_Fork cur) in
    let! err := try (MediaUpdate.RemoteSDP e i sdp) in
    match err with
    | Some err => fail (ErrWrap "sdp update media remote SDP applying failed" err)
    | None => MediaUpdate.replaceRTPSessionUnsafe e i
    end
  end.

Definition applyRemoteSDP (e : answer_env) (sdp : string) : method unit :=
  let! i := gets (fun c => MediaUpdate.mediaSession (med c)) in
  let! unkeyed := gets earlyUnkeyed in
  if unkeyed then ret tt
  else
    match i with
    | None => panic
    | Some i =>
      expectAnswer i ;;;
      let! d := gets med in
      match MediaUpdate.rtpSession d with
      | Some _ => in_media (checkEarlyMedia (an_update e) sdp ;;; MediaUpdate.media_updated)
      | None => RemoteSDP (an_remote e) i sdp ;;; initRTPSessionUnsafe i ;;; MonitorBackground (an_monitor e)
      end
    end.

(** sipgo's [WaitAnswer], which hands each response to [onResponse]. *)
Fixpoint each_response (onResponse : response_ -> method unit) (rs : list response_) : method unit :=
  match rs with
  | [] => ret tt
  | r :: rs => onResponse r ;;; each_response onResponse rs
  end.
Definition sipgo_WaitAnswer (onResponse : response_ -> method unit) (w : wait) : method unit :=
  each_response onResponse (w_responses w) ;;;
  match w_result w with
  | inl err => fail err
  | inr body => modify (fun c => c <| response := Some body |> <| state := Answer.Established |> <| cached := true |>)
  end.

Definition errors_Join (e1 : error) (e2 : option error) : error := match e2 with Some e2 => ErrJoin e1 e2 | None => e1 end.

Definition waitAnswer (onResponse : response_ -> method unit) (w : wait) (e : answer_env) : method unit :=
  sipgo_WaitAnswer onResponse w ;;;
  let! r := gets response in
  match r with
  | Some (Some remoteSDP) =>
    let! err := try (applyRemoteSDP e remoteSDP) in
    match err with
    | None => ret tt
    | Some err =>
      let! ackErr := try (Ack (an_ack e)) in
      match ackErr with
      | Some ackErr => let! again := try (Ack (an_ack_again e)) in fail (errors_Join ackErr again)
      | None => let! byeErr := try (Bye (an_bye e)) in fail (errors_Join err byeErr)
      end
    end
  | _ => fail errNoSDPInResponse
  end.

(** The callback of an application that does not detect early media. *)
Definition app_response (r : response_) : method unit := check (r_app r).
Definition WaitAnswer (w : wait) (e : answer_env) : method unit := waitAnswer app_response w e.

(** *** Early media *)

Definition defaultEarlyMediaKeyTimeout : Z := 5 * Second.
Definition awaitStep : Z := 50 * Millisecond.

(** [left]: until the deadline. *)
Fixpoint awaitEarlyKeys (i : nat) (left : Z) (polls : list poll) : method (option error) :=
  match polls with
  | [] => waits
  | p :: polls =>
    let! s := load i in
    let '(s, err) := Answer.mo_FinalizeWithin (p_env p) s in
    save i s ;;;
    match err with
    | None => ret None
    | Some err =>
      if negb (errors_Is err MediaSession.ErrFinalizeInProgress) then ret (Some err)
      else match p_ctx p with
           | Some e => ret (Some e)
           | None =>
             let left := left - p_took p in
             if left <=? 0 then ret (Some MediaSession.ErrFinalizeInProgress) else awaitEarlyKeys i left polls
           end
    end
  end.

Definition StatusSessionInProgress : Z := 183.
(** The hook that closes the RTP session of early media. *)
Definition earlyHook : nat := 183.

Definition early_response (i : nat) (keyTimeout : Z) (r : response_) : method unit :=
  check (r_app r) ;;;
  if negb (r_status r =? StatusSessionInProgress) then ret tt
  else if negb (r_sdp r) then ret tt
  else match r_body r with
  | None => ret tt
  | Some remoteSDP =>
    let! unkeyed := gets earlyUnkeyed in
    if unkeyed then ret tt
    else
      expectAnswer i ;;;
      RemoteSDP (r_remote r) i remoteSDP ;;;
      let! err := awaitEarlyKeys i keyTimeout (r_polls r) in
      match err with
      | Some err =>
        if errors_Is err MediaSession.ErrFinalizeInProgress then modify (fun c => c <| earlyUnkeyed := true |>)
        else fail err
      | None =>
        initRTPSessionUnsafe i ;;; onCloseUnsafe earlyHook ;;;
        MonitorBackground (r_monitor r) ;;;
        fail ErrClientEarlyMedia
      end
  end.

Definition waitAnswerEarly (keyTimeout : Z) (w : wait) (e : answer_env) : method unit :=
  let! i := session in
  waitAnswer (early_response i (if keyTimeout <=? 0 then defaultEarlyMediaKeyTimeout else keyTimeout)) w e.

(** ** The INVITE *)

(** The first audio and the first telephone-event codec of a list; a sample rate of
    zero is none. *)
Definition codec_none : Codec := {| Name := EmptyString; PayloadType := 0; SampleRate := 0; SampleDur := 0; NumChannels := 0 |}.
Fixpoint one_of_each (codecs : list Codec) (audioCodec telEventCodec : Codec) : Codec * Codec :=
  match codecs with
  | [] => (audioCodec, telEventCodec)
  | c :: codecs =>
    if HasPrefix (Name c) "telephone-event"
    then one_of_each codecs audioCodec (if SampleRate telEventCodec =? 0 then c else telEventCodec)
    else one_of_each codecs (if SampleRate audioCodec =? 0 then c else audioCodec) telEventCodec
  end.
Definition sessCodecs (codecs : list Codec) : list Codec :=
  let '(audioCodec, telEventCodec) := one_of_each codecs codec_none codec_none in
  (if SampleRate audioCodec =? 0 then [] else [audioCodec]) ++ (if SampleRate telEventCodec =? 0 then [] else [telEventCodec]).

Definition applyOriginator (i : nat) (o : originator) : method unit :=
  match (if o_sdp o then o_body o else None) with
  | None => ret tt
  | Some body =>
    let! err := try (RemoteSDP (o_remote o) i body) in
    match err with
    | Some err => fail (ErrWrap "failed to apply originator sdp" err)
    | None =>
      let! s := load i in
      let s := co_forgetRemote s in
      save i s ;;;
      let codecs := match MediaUpdate.uo_CommonCodecs s with [] => MediaUpdate.uo_Codecs s | codecs => codecs end in
      match sessCodecs codecs with
      | [] => fail errNoOriginatorCodecs
      | cs => save i (MediaUpdate.uo_setCodecs cs s)
      end
    end
  end.

Definition invite (opts : InviteClientOptions) (e : invite_env) : method unit :=
  let! i := session in
  match Originator opts with Some o => applyOriginator i o | None => ret tt end ;;;
  let! offer := LocalSDP (i_local e) i in
  check (i_build e) ;;;
  modify (fun c => c <| onMediaUpdate := OnMediaUpdate opts |> <| onReferDialog := OnRefer opts |>) ;;;
  check (i_send e) ;;;
  modify (put (OInvite offer)) ;;;
  if EarlyMediaDetect opts then waitAnswerEarly (EarlyMediaKeyTimeout opts) (i_wait e) (i_answer e)
  else waitAnswer app_response (i_wait e) (i_answer e).

Definition Invite (opts : InviteClientOptions) (e : invite_env) : method unit :=
  initMediaSessionFromConf e ;;; invite opts e.

(** ** Closing *)

(** [DialogMedia.Close] to its end. *)
Fixpoint close_rest (e : upd_env) (n : nat) : M (media S) unit :=
  match n with O => ret tt | Datatypes.S n => MediaUpdate.close_next e ;;; close_rest e n end.
Definition close_media (e : upd_env) : M (media S) unit :=
  MediaUpdate.Close ;;; let! n := gets (fun d => length (MediaUpdate.closing d)) in close_rest e n.

Definition Close (e : upd_env) : method unit :=
  let! c := gets closed_ in
  if c then ret tt
  else
    modify (fun c => c <| closed_ := true |>) ;;;
    in_media (close_media e) ;;;
    modify (fun c => c <| cached := false |>).

(** ** The calls of a Diago

    [cl_close]: the sockets as they are closed, and the error of [Close]. *)
Record call_env := {
  cl_invite : invite_env; cl_bridge : option error; cl_ack : ack_env; cl_ack_again : option error;
  cl_bye : bool * option error; cl_close : upd_env; cl_close_err : option error }.

Definition abandon (e : call_env) (err : error) : method unit := Close (cl_close e) ;;; fail (errors_Join err (cl_close_err e)).
(** [ackAndBye], and then [Close]. *)
Definition end_call (e : call_env) (err : error) : method unit :=
  let! b := try (ackAndBye (cl_ack_again e) (cl_bye e)) in abandon e (errors_Join err b).

Definition Diago_Invite (o : option originator) (e : call_env) : method unit :=
  let opts := {| Originator := o; OnMediaUpdate := None; OnRefer := None; EarlyMediaDetect := false; EarlyMediaKeyTimeout := 0 |} in
  let! err := try (Invite opts (cl_invite e)) in
  match err with
  | Some err => abandon e err
  | None =>
    let! err := try (Ack (cl_ack e)) in
    match err with
    | Some err => end_call e err
    | None => ret tt
    end
  end.

(** [cl_bridge]: the error of [AddDialogSession]. *)
Definition InviteBridge (o : option originator) (e : call_env) : method unit :=
  let opts := {| Originator := o; OnMediaUpdate := None; OnRefer := None; EarlyMediaDetect := false; EarlyMediaKeyTimeout := 0 |} in
  let! err := try (Invite opts (cl_invite e)) in
  match err with
  | Some err => let! b := try (Bye (cl_bye e)) in abandon e (errors_Join err b)
  | None =>
    match cl_bridge e with
    | Some err => end_call e err
    | None =>
      let! err := try (Ack (cl_ack e)) in
      match err with
      | Some err => end_call e err
      | None => ret tt
      end
    end
  end.

End Methods.

End Client.
