(* ===== verification/ClientLaws.v ===== *)
(** * What placing a call relies on in a media session

    [CallLaws]: what an INVITE does to a media session leaves nothing running on it.
    The session of [media_session.go] keeps it ([session_call_laws]). *)
From S2P Require Import Prelude GoStrings NetIP Sdp Codec MediaSdp MediaSession MediaLifecycle Method Answer AnswerLaws MediaUpdate MediaUpdateLaws MediaUpdateInv Client.
Import GoStrings NetIP Sdp Codecs MediaSdp MediaSession MediaUpdateLaws Client.

Module ClientLaws.

(** The laws of the interfaces of [Answer] and [MediaUpdate] are of one session:
    what is quiet is not running, and all the operations of an INVITE keep it. *)
Class CallLaws {cert S : Type} (mo : Answer.MediaOps cert S) {ml : AnswerLaws.MediaLaws mo} (uo : MediaUpdate.UpdateOps S) {ul : UpdateLaws uo} (co : CallOps S) := {
  cl_idle s : ul_quiet s -> AnswerLaws.is_running s = false;
  cl_new e ip port conf s : Answer.mo_new e ip port conf = inl s -> ul_quiet s;
  cl_RemoteSDP e sdp s s' o : Answer.mo_RemoteSDP e sdp s = (s', o) -> ul_quiet s -> ul_quiet s';
  cl_expect s : ul_quiet s -> ul_quiet (Answer.mo_expectAnswer s);
  cl_LocalSDP e s s' body : Answer.mo_LocalSDP e s = (s', body) -> ul_quiet s -> ul_quiet s';
  cl_forget s : ul_quiet s -> ul_quiet (co_forgetRemote s);
  cl_context e s s' err : Answer.mo_FinalizeContext e s = Some (s', err) -> ul_quiet s -> ul_quiet s' }.

Section Session.
Context {cert srtp_ctx : Type} (dtlsSHA256Fingerprint : cert -> string + error).
Context (CreateContext : bytes -> bytes -> ProtectionProfile -> srtp_ctx + error) (KeyLen : ProtectionProfile -> Z).
Context (candidate_ok : string -> bool) (preferLocal : bool) (ListenUDP : nat -> IP -> Z -> (UDPAddr * nat) + error).
Abbreviation session := (@MediaSession.MediaSession cert srtp_ctx).

(** The fields that tell whether a session is quiet. *)
Record Same (s t : session) : Prop := {
  sm_run : ms_finalizeRun t = ms_finalizeRun s; sm_conf : ICEConf t = ICEConf s; sm_secure : SecureRTP t = SecureRTP s;
  sm_agent : is_Some (iceAgent t) -> is_Some (iceAgent s) }.
Lemma Same_refl s : Same s s.
Proof. by split. Qed.
Lemma Same_trans s t u : Same s t -> Same t u -> Same s u.
Proof. intros [] []. split; try congruence. auto. Qed.

Lemma applyCodecs_same md attrs (s : session) : Same s (applyCodecs preferLocal md attrs s).1.
Proof.
  unfold applyCodecs. destruct (CodecsFromSDPRead _ _ _) as [[|c cs]|]; try done.
  assert (Same s (updateRemoteCodecs preferLocal (c :: cs) (negb (RemoteSDPIsAnswer s)) s).1) as HS by (unfold updateRemoteCodecs; by destruct (ms_Codecs s)).
  destruct (updateRemoteCodecs _ _ _ _) as [t n]. by destruct (n =? 0).
Qed.
Lemma applyTransport_same sd md (s : session) : Same s (applyTransport sd md s).1.
Proof. unfold applyTransport. destruct (sd_ConnectionInformation sd) as [ci|]; [|done]. destruct (_ || _); [done|]. by destruct (ci_IP ci). Qed.
Lemma crypto_same v (s : session) : Same s (crypto_attr CreateContext v s).1.
Proof. unfold crypto_attr. by repeat case_match. Qed.
Lemma readSDES_same attrs (s : session) : Same s (readSDES CreateContext attrs s).1.
Proof.
  revert s. induction attrs as [|v attrs IH]; intros s; cbn [readSDES]; [done|]. destruct (HasPrefix v "crypto:"); [|apply IH].
  pose proof (crypto_same v s) as HF. destruct (crypto_attr CreateContext v s) as [u [r|]]; [done|].
  eapply Same_trans; [exact HF|apply IH].
Qed.
Lemma remoteICE_same attrs (s : session) : Same s (remoteICE candidate_ok attrs s).1.
Proof. unfold remoteICE. destruct (iceAgent s) eqn:E; repeat case_match; try done; split; try done; intros _; by rewrite E. Qed.
Lemma tlsid_same tid r (s : session) : Same s (newAnswerTLSID tid r s).
Proof. unfold newAnswerTLSID. by destruct (RemoteSDPIsAnswer s). Qed.
Lemma arm_same e setup fps tlsID (s : session) : Same s (armDTLSHandshake dtlsSHA256Fingerprint e setup fps tlsID s).1.
Proof. unfold armDTLSHandshake. by destruct (if iceEnabled s then _ else _). Qed.
Lemma close_same (s : session) : Same s (closeConns s).
Proof. unfold closeConns. destruct (iceAgent _); [|done]. by split; try done; intros [? [=]]. Qed.
Lemma rebind_same e (s : session) : Same s (rebind e s).1.
Proof. unfold rebind. by destruct (e_bind e) as [[[]]|]. Qed.
Lemma rearm_same e setup fps tlsID (s : session) :
  Same s (armDTLSHandshake dtlsSHA256Fingerprint e setup fps tlsID (newAnswerTLSID (e_tlsID e) tlsID s)).1.
Proof. eapply Same_trans; [apply tlsid_same|apply arm_same]. Qed.
Lemma negotiate_same e setup fps tlsID (s : session) : Same s (negotiateDTLSAssociation dtlsSHA256Fingerprint e setup fps tlsID s).1.
Proof.
  unfold negotiateDTLSAssociation. destruct (dtlsAssoc s) as [assoc|]; [|apply rearm_same].
  destruct (String.eqb _ _); [done|]. destruct (iceEnabled s); [done|]. destruct (_ && _); [done|].
  set (same := sameUDPAddr _ _). assert (Same s (if same then rebind e s else (s, Ok)).1) as HF by (destruct same; [apply rebind_same|done]).
  destruct (if same then rebind e s else (s, Ok)) as [u [|er|]]; try done. cbn [fst] in HF.
  set (v := u <| dtlsKeyed := false |> <| dtlsAssoc := None |> <| localCtxSRTP := None |> <| remoteCtxSRTP := None |>).
  assert (Same s v) as Hv by (eapply Same_trans; [exact HF|done]). clearbody v.
  pose proof (Same_trans _ _ _ Hv (rearm_same e setup fps tlsID v)) as HB. revert HB.
  destruct (armDTLSHandshake _ _ _ _ _ _) as [w [|er|]]; intros HB; try done. cbn [fst] in *. destruct same; [|done].
  eapply Same_trans; [exact HB|apply close_same].
Qed.
Lemma remoteDTLS_same e attrs (s : session) : Same s (remoteDTLS dtlsSHA256Fingerprint e attrs s).1.
Proof.
  unfold remoteDTLS. destruct (read_dtls _ _) as [r|]; [|done]. destruct (negb _); [done|]. destruct (String.eqb _ _); [done|].
  destruct (negb _); [done|]. set (u := s <| dtlsRemoteSetup := _ |> <| dtlsRemoteTLSID := _ |>).
  eapply Same_trans; [|apply negotiate_same]. done.
Qed.
Lemma applySecurity_same req (s : session) : Same s (applySecurity req s).1.
Proof. unfold applySecurity. cbv zeta. destruct (_ && negb req); by destruct (_ && _). Qed.

Lemma andThen_same (s : session) r k : Same s r.1 -> (forall t, Same s t -> Same s (k t).1) -> Same s (andThen r k).1.
Proof. destruct r as [t []]; simpl; auto. Qed.

Lemma applySDP_same e sections audio md sd (s : session) :
  Same s (applySDP dtlsSHA256Fingerprint CreateContext candidate_ok preferLocal e sections audio md sd s).1.
Proof.
  unfold applySDP. destruct (sd_SessionInformation sd) as [si|]; [|done]. cbv zeta.
  assert (Same s (applyOrigin si s)) as H0 by (unfold applyOrigin; by destruct (_ =? _)). revert H0.
  generalize (applyOrigin si s). intros s0 H0. destruct (parseRTPProfile _) as [prof|]; [|done].
  set (s1 := if RemoteSDPIsAnswer _ then _ else _). assert (Same s s1) as H1.
  { eapply Same_trans; [exact H0|]. unfold s1. by destruct (RemoteSDPIsAnswer _). }
  clearbody s1. clear H0. set (attrs := Values sd "a"). clearbody attrs.
  apply andThen_same; [eapply Same_trans; [exact H1|apply applyCodecs_same]|]. intros s2 H2.
  apply andThen_same; [eapply Same_trans; [exact H2|apply applyTransport_same]|]. intros s3 H3.
  apply andThen_same; [eapply Same_trans; [exact H3|apply readSDES_same]|]. intros s4 H4.
  apply andThen_same; [destruct (iceEnabled s4); [|done]; eapply Same_trans; [exact H4|apply remoteICE_same]|]. intros s5 H5.
  apply andThen_same; [destruct (dtlsSRTP s5); [|done]; eapply Same_trans; [exact H5|apply remoteDTLS_same]|]. intros s6 H6.
  eapply Same_trans; [exact H6|apply applySecurity_same].
Qed.

Lemma RemoteSDP_same e sdp (s : session) :
  Same s (MediaSession.RemoteSDP dtlsSHA256Fingerprint CreateContext candidate_ok preferLocal e sdp s).1.
Proof.
  unfold MediaSession.RemoteSDP. destruct (UnmarshalSections sdp) as [sections [err|]]; [done|].
  destruct (audioStream _) as [i|]; [|done]. destruct (sec_Media sections !! i), (Description sections i); try done. apply applySDP_same.
Qed.

(** *** What binds and keys a session *)

Lemma Same_quiet s t : Same s t -> quiet s -> quiet t.
Proof. intros [H1 H2 H3 H4] [Q1 Q2]. split; [congruence|]. unfold iceEnabled in *. rewrite H2, H3. auto. Qed.

Lemma listen_same n laddr (s : session) : Same s (MediaLifecycle.listen ListenUDP n laddr s).1.2.
Proof. unfold MediaLifecycle.listen, MediaLifecycle.listenICE, MediaLifecycle.listenRTPandRTCP. by repeat case_match; simplify_eq/=. Qed.
Lemma listen_range_same fuel own port last n laddr err (s : session) : Same s (MediaLifecycle.listen_range ListenUDP fuel own port last n laddr err s).1.1.2.
Proof.
  revert port n laddr err s. induction fuel as [|fuel IH]; intros port n laddr err s; cbn [MediaLifecycle.listen_range]; [done|].
  destruct (port <? last); [|done]. cbv zeta. set (l := {| ua_IP := _; ua_Port := _; ua_Zone := _ |}). set (u := if own then _ else s).
  assert (Same s u) as Hu by (unfold u; by destruct own). clearbody u. pose proof (listen_same n l u) as H.
  destruct (MediaLifecycle.listen _ _ _ _) as [[n' t] [e|]]; cbn [fst snd] in *.
  - eapply Same_trans; [exact Hu|]. eapply Same_trans; [exact H|apply IH].
  - by eapply Same_trans.
Qed.
Lemma listen_retry_same k n laddr err (s : session) : Same s (MediaLifecycle.listen_retry ListenUDP k n laddr err s).1.2.
Proof.
  revert n err s. induction k as [|k IH]; intros n err s; cbn [MediaLifecycle.listen_retry]; [done|].
  pose proof (listen_same n laddr s) as H. destruct (MediaLifecycle.listen _ _ _ _) as [[n' t] [e|]]; cbn [fst snd] in *; [|done].
  eapply Same_trans; [exact H|apply IH].
Qed.
Lemma createListeners_same own laddr p n (s : session) : Same s (MediaLifecycle.createListeners ListenUDP own laddr p n s).1.2.
Proof.
  unfold MediaLifecycle.createListeners. destruct (negb _).
  { pose proof (listen_same n laddr s) as H. by destruct (MediaLifecycle.listen _ _ _ _) as [[n' t] err]. }
  destruct (_ && _); cbv zeta.
  - match goal with |- context [MediaLifecycle.listen_range ListenUDP ?a ?b ?c ?d ?e ?f ?g ?h] =>
      pose proof (listen_range_same a b c d e f g h) as H; destruct (MediaLifecycle.listen_range ListenUDP a b c d e f g h) as [[[n' t] port] [err|]] end; done.
  - pose proof (listen_retry_same 10 n laddr None s) as H. by destruct (MediaLifecycle.listen_retry _ _ _ _ _ _) as [[n' t] err].
Qed.
Lemma Init_quiet ie p n (s : session) : ms_finalizeRun s = None -> iceAgent s = None -> quiet (MediaLifecycle.Init ListenUDP ie p n s).1.2.
Proof.
  intros Er Ea. assert (quiet s) as H by (split; [done|rewrite Ea; by intros [? [=]]]).
  unfold MediaLifecycle.Init. destruct (ms_Codecs s); [done|]. destruct (String.eqb _ _); [done|]. destruct (ua_IP (Laddr s)); [|done]. cbv zeta.
  set (s0 := if negb _ && _ then _ else s). assert (Same s s0) as H0 by (unfold s0; by destruct (_ && _)). clearbody s0.
  destruct (if bool_decide _ then _ else _); [by eapply Same_quiet|]. set (s1 := match rtpConn s0 with Some _ => _ | None => s0 end).
  assert (Same s s1) as H1 by (eapply Same_trans; [exact H0|]; unfold s1; by destruct (rtpConn s0)). clearbody s1.
  pose proof (createListeners_same true (Laddr s1) p n s1) as H2. destruct (MediaLifecycle.createListeners _ _ _ _ _ _) as [[[p' n'] s2] [e|]]; cbn [fst snd] in *;
    pose proof (Same_quiet _ _ (Same_trans _ _ _ H1 H2) H) as HQ; [exact HQ|].
  destruct (iceEnabled s2) eqn:Ei; [|exact HQ]. destruct HQ as [Q1 Q2]. unfold MediaLifecycle.initICE.
  destruct (MediaLifecycle.ie_agent ie); [destruct (MediaLifecycle.ie_agentInit ie)|]; (split; [exact Q1|]); first [exact Q2|intros _; exact Ei].
Qed.

Lemma runNegotiation_same h a (s : session) : Same s (MediaLifecycle.runNegotiation CreateContext h a s).1.
Proof.
  assert (forall u : session, Same u (MediaLifecycle.keySRTP CreateContext h a u).1) as HK.
  { intros u. unfold MediaLifecycle.keySRTP. cbv zeta. by repeat case_match. }
  assert (Same s (MediaLifecycle.startICE h s).1) as HI by (unfold MediaLifecycle.startICE, SetRemoteAddr; by repeat case_match).
  unfold MediaLifecycle.runNegotiation. destruct (MediaLifecycle.startICE h s) as [u err]. cbn [fst] in HI.
  set (x := if iceEnabled s then _ else (s, None)). assert (Same s x.1) as Hx by (unfold x; by repeat case_match). clearbody x. destruct x as [v err'].
  repeat (case_match; try done). eapply Same_trans; [exact Hx|apply HK].
Qed.
Lemma FinalizeContext_keeps_quiet w h (s s' : session) err : MediaLifecycle.FinalizeContext CreateContext w h s = Some (s', err) -> quiet s -> quiet s'.
Proof.
  intros E HQ. pose proof HQ as [Er _]. revert E. unfold MediaLifecycle.FinalizeContext. rewrite Er. destruct (finalizeErr s); [by intros [= <- <-]|].
  destruct (onFinalize s) as [a|]; [|by intros [= <- <-]].
  pose proof (Same_quiet _ _ (runNegotiation_same h a s) HQ) as H. destruct (MediaLifecycle.runNegotiation _ _ _ _) as [u err']. by intros [= <- <-].
Qed.

#[export] Program Instance session_call_laws :
  CallLaws (ml := AnswerLaws.session_laws dtlsSHA256Fingerprint CreateContext KeyLen candidate_ok preferLocal ListenUDP)
    (Answer.session_ops dtlsSHA256Fingerprint CreateContext KeyLen candidate_ok preferLocal ListenUDP)
    (MediaUpdate.update_ops dtlsSHA256Fingerprint CreateContext KeyLen candidate_ok preferLocal) session_call_ops.
Next Obligation. intros s [H _]. cbn. unfold AnswerLaws.running_b. by rewrite H. Qed.
Next Obligation.
  intros e ip port conf s. cbn. pose proof (Init_quiet (Answer.se_init e) (Answer.se_ports e) (Answer.se_calls e) (Answer.newMediaSession ip port conf) eq_refl eq_refl) as H.
  destruct (MediaLifecycle.Init _ _ _ _ _) as [[[p n] t] [err|]]; [done|]. by intros [= <-].
Qed.
Next Obligation. intros e sdp s s' o. cbn. intros E. pose proof (RemoteSDP_same (Answer.se_remote e) sdp s) as H. rewrite E in H. by apply Same_quiet. Qed.
Next Obligation. done. Qed.
Next Obligation.
  intros e s s' body. cbn. intros E. pose proof (ul_LocalSDP (UpdateLaws := update_laws dtlsSHA256Fingerprint CreateContext KeyLen candidate_ok preferLocal)
    {| MediaUpdate.ue_remote := Answer.se_remote e; MediaUpdate.ue_local := Answer.se_local e; MediaUpdate.ue_run := None; MediaUpdate.ue_wait := Answer.se_wait e; MediaUpdate.ue_handshake := Answer.se_handshake e |} s) as (_ & _ & _ & _ & H & _).
  cbn in H. by rewrite E in H.
Qed.
Next Obligation. done. Qed.
Next Obligation.
  intros e s s' err. cbn. intros E HQ. pose proof HQ as [Er _]. revert E HQ. destruct (Answer.se_run e) as [h|]; [|by apply FinalizeContext_keeps_quiet].
  unfold MediaLifecycle.negotiate. rewrite Er. apply FinalizeContext_keeps_quiet.
Qed.
End Session.
End ClientLaws.

(** * Placing a call: the specification of each method

    Until a re-INVITE or early media that was keyed, a call of ours is on one media
    session. [stage] is such a call, [on] the dialog it is, and each method gets its
    specification from stage to stage. *)
Import GoStrings NetIP Codecs MediaSdp Method MediaUpdateLaws Client ClientLaws.

Module ClientProps.
Open Scope method_scope.

Section Methods.
Context {cert S : Type} {mo : Answer.MediaOps cert S} {ml : AnswerLaws.MediaLaws mo} {uo : MediaUpdate.UpdateOps S} {ul : UpdateLaws uo}
  {co : CallOps S} {laws : CallLaws mo uo co}.
Abbreviation dialog := (client cert S).

(** ** Stages *)

(** [g_rtp]: whether there is an RTP session, and whether its monitor runs. *)
Record stage := {
  g_s : S; g_rtp : option bool; g_resp : option (option string); g_unkeyed : bool; g_acking : bool; g_state : Answer.dialogState;
  g_update : option nat; g_refer : option nat; g_cached : bool; g_outs : list out }.
#[export] Instance eta_stage : Eta stage := fun g =>
  {| g_s := g_s g; g_rtp := g_rtp g; g_resp := g_resp g; g_unkeyed := g_unkeyed g; g_acking := g_acking g; g_state := g_state g;
     g_update := g_update g; g_refer := g_refer g; g_cached := g_cached g; g_outs := g_outs g |}.

Definition media_on (s : S) (rtp : option bool) (port : option Z) : media S :=
  {| MediaUpdate.store := [s]; MediaUpdate.mediaSession := Some 0%nat;
     MediaUpdate.rtpSession := (fun m => {| MediaUpdate.r_media := 0; MediaUpdate.monitored := m |}) <$> rtp;
     MediaUpdate.iceAgentOwner := None; MediaUpdate.jitterBuffer := None;
     MediaUpdate.packetReader := (fun _ => 0%nat) <$> rtp; MediaUpdate.packetWriter := (fun _ => 0%nat) <$> rtp; MediaUpdate.releaseRTPPort := port;
     MediaUpdate.onClose := []; MediaUpdate.ackOffer := None; MediaUpdate.mediaUpdating := false; MediaUpdate.closed := false;
     MediaUpdate.ended := false; MediaUpdate.closing := []; MediaUpdate.acts := [] |}.

Definition on (conf : MediaConfig cert) (port : option Z) (g : stage) : dialog :=
  {| mediaConfig := conf; med := media_on (g_s g) (g_rtp g) port; returned := []; response := g_resp g; earlyUnkeyed := g_unkeyed g;
     acking := g_acking g; state := g_state g; onMediaUpdate := g_update g; onReferDialog := g_refer g; cached := g_cached g;
     closed_ := false; outs := g_outs g |}.

(** The stage of a dialog whose media session was just made. *)
Definition at_start (s : S) : stage :=
  {| g_s := s; g_rtp := None; g_resp := None; g_unkeyed := false; g_acking := false; g_state := Answer.Early;
     g_update := None; g_refer := None; g_cached := false; g_outs := [] |}.

Section On.
Context (conf : MediaConfig cert) (port : option Z).
Abbreviation on := (on conf port).

Lemma wp_client_RemoteSDP e sdp (Q : res unit -> dialog -> Prop) (g : stage) :
  (forall s' o, Answer.mo_RemoteSDP e sdp (g_s g) = (s', o) ->
    Q match o with MediaSession.Ok => Return tt | MediaSession.Err e => Fail e | MediaSession.Panic => Panics end (on (g <| g_s := s' |>))) ->
  wp (RemoteSDP e 0 sdp) Q (on g).
Proof.
  intros HQ. unfold wp, RemoteSDP, load, in_media, MediaUpdate.load, bind, gets, ret. cbn [on med media_on MediaUpdate.store lookup list_lookup fst snd id].
  destruct (Answer.mo_RemoteSDP e sdp (g_s g)) as [s' o] eqn:E. specialize (HQ s' o eq_refl). by destruct o.
Qed.

Lemma wp_client_LocalSDP e (Q : res string -> dialog -> Prop) (g : stage) :
  (forall s' body, Answer.mo_LocalSDP e (g_s g) = (s', body) -> Q (Return body) (on (g <| g_s := s' |>))) -> wp (LocalSDP e 0) Q (on g).
Proof.
  intros HQ. unfold wp, LocalSDP, load, in_media, MediaUpdate.load, bind, gets, ret. cbn [on med media_on MediaUpdate.store lookup list_lookup fst snd id].
  destruct (Answer.mo_LocalSDP e (g_s g)) as [s' body] eqn:E. by apply HQ.
Qed.

Lemma wp_expectAnswer (Q : res unit -> dialog -> Prop) (g : stage) :
  Q (Return tt) (on (g <| g_s := Answer.mo_expectAnswer (g_s g) |>)) -> wp (expectAnswer 0) Q (on g).
Proof. done. Qed.

Lemma wp_client_Finalize e (Q : res unit -> dialog -> Prop) (g : stage) :
  (forall s' err, Answer.mo_FinalizeContext e (g_s g) = Some (s', err) -> Q match err with Some e => Fail e | None => Return tt end (on (g <| g_s := s' |>))) ->
  Q Waits (on g) -> wp (FinalizeContext e 0) Q (on g).
Proof.
  intros HQ HW. unfold wp, FinalizeContext, load, in_media, MediaUpdate.load, bind, gets, ret. cbn [on med media_on MediaUpdate.store lookup list_lookup fst snd id].
  destruct (Answer.mo_FinalizeContext e (g_s g)) as [[s' err]|] eqn:E; [|exact HW]. specialize (HQ s' err eq_refl). by destruct err.
Qed.

Lemma wp_initRTP (Q : res unit -> dialog -> Prop) (g : stage) : Q (Return tt) (on (g <| g_rtp := Some false |>)) -> wp (initRTPSessionUnsafe 0) Q (on g).
Proof. done. Qed.

Lemma wp_Monitor err (Q : res unit -> dialog -> Prop) (g : stage) : g_rtp g = Some false ->
  match err with Some e => Q (Fail e) (on g) | None => Q (Return tt) (on (g <| g_rtp := Some true |>)) end -> wp (MonitorBackground err) Q (on g).
Proof. intros Hr HQ. destruct err; [done|]. destruct g. cbn in Hr. subst. exact HQ. Qed.

(** *** The ACK and the BYE *)

Lemma wp_ackTarget (Q : res unit -> dialog -> Prop) (g : stage) : g_resp g <> None -> Q (Return tt) (on g) -> wp ackTarget Q (on g).
Proof. unfold wp, ackTarget, bind, gets. cbn [on response]. by destruct (g_resp g). Qed.

Lemma wp_Ack a (Q : res unit -> dialog -> Prop) (g : stage) : g_resp g <> None ->
  (forall err, a_write a = Some err -> Q (Fail err) (on (g <| g_acking := false |>))) ->
  (a_write a = None -> forall s' err, Answer.mo_FinalizeContext (a_final a) (g_s g) = Some (s', err) ->
    let g' := g <| g_s := s' |> <| g_acking := false |> <| g_state := Answer.Confirmed |> <| g_outs := g_outs g ++ [OAck] |> in
    match err with
    | Some err => Q (Fail err) (on g')
    | None =>
      if g_unkeyed g then
        match a_monitor a with
        | Some err => Q (Fail err) (on (g' <| g_unkeyed := false |> <| g_rtp := Some false |>))
        | None => Q (Return tt) (on (g' <| g_unkeyed := false |> <| g_rtp := Some true |>))
        end
      else Q (Return tt) (on g')
    end) ->
  (forall c, Q Waits c) -> wp (Ack a) Q (on g).
Proof.
  intros Hr HF HO HW. unfold Ack. wp_step. apply wp_ackTarget; [done|]. wp_step. clear Hr. unfold wp, acked, ack, FinalizeContext, load, save, in_media, MediaUpdate.load, MediaUpdate.save, bind, gets, modify, defer, ret, fail.
  destruct (a_write a) as [err|] eqn:Ew; [by apply HF|]. specialize (HO eq_refl).
  destruct g as [s r rp uk ak st ou orf ca os]. cbn in *. destruct (Answer.mo_FinalizeContext (a_final a) s) as [[s' err]|]; [|apply HW].
  specialize (HO s' err eq_refl). destruct err as [err|]; [exact HO|]. destruct uk; [|exact HO]. by destruct (a_monitor a).
Qed.

(** The ACK where no early media waits for its keys. *)
Lemma wp_Ack_keyed a (Q : res unit -> dialog -> Prop) (g : stage) : g_resp g <> None -> g_unkeyed g = false ->
  (forall err, a_write a = Some err -> Q (Fail err) (on (g <| g_acking := false |>))) ->
  (a_write a = None -> forall s' err, Answer.mo_FinalizeContext (a_final a) (g_s g) = Some (s', err) ->
    Q match err with Some err => Fail err | None => Return tt end
      (on (g <| g_s := s' |> <| g_acking := false |> <| g_state := Answer.Confirmed |> <| g_outs := g_outs g ++ [OAck] |>))) ->
  (forall c, Q Waits c) -> wp (Ack a) Q (on g).
Proof.
  intros Hr Hu HF HO HW. apply wp_Ack; [done|done| |done]. intros Ew s' err Ef. specialize (HO Ew s' err Ef). rewrite Hu. by destruct err.
Qed.

Lemma wp_Bye (b : bool * option error) (Q : res unit -> dialog -> Prop) (g : stage) :
  (g_resp g = None -> Q (Fail errByeNoResponse) (on g)) ->
  (g_resp g <> None -> Q match b.2 with Some e => Fail e | None => Return tt end
    (on (if b.1 then g <| g_outs := g_outs g ++ [OBye] |> <| g_state := Answer.Ended |> else g))) -> wp (Bye b) Q (on g).
Proof.
  intros HN HS. unfold wp, Bye, bind, gets, modify. cbn [on response]. destruct (g_resp g) as [x|]; [|by apply HN].
  specialize (HS ltac:(done)). destruct b as [[] [err|]]; exact HS.
Qed.

(** *** The answer *)

(** What the session is once the answer [sdp] was applied to it. *)
Lemma wp_applyRemoteSDP e sdp (Q : res unit -> dialog -> Prop) (g : stage) :
  (g_unkeyed g = true -> Q (Return tt) (on g)) ->
  (g_unkeyed g = false -> g_rtp g = None /\ forall s' o, Answer.mo_RemoteSDP (an_remote e) sdp (Answer.mo_expectAnswer (g_s g)) = (s', o) ->
    match o with
    | MediaSession.Ok =>
      match an_monitor e with
      | Some err => Q (Fail err) (on (g <| g_s := s' |> <| g_rtp := Some false |>))
      | None => Q (Return tt) (on (g <| g_s := s' |> <| g_rtp := Some true |>))
      end
    | MediaSession.Err err => Q (Fail err) (on (g <| g_s := s' |>))
    | MediaSession.Panic => Q Panics (on (g <| g_s := s' |>))
    end) ->
  wp (applyRemoteSDP e sdp) Q (on g).
Proof.
  intros HU HO. unfold applyRemoteSDP. do 6 wp_step. cbn [on med media_on MediaUpdate.mediaSession earlyUnkeyed].
  destruct (g_unkeyed g) eqn:Eu; [wp_step; by apply HU|]. destruct (HO eq_refl) as [Hr HS]. clear HO. wp_step. apply wp_expectAnswer. do 4 wp_step. cbv beta iota.
  assert (MediaUpdate.rtpSession (med (on (g <| g_s := Answer.mo_expectAnswer (g_s g) |>))) = None) as -> by (cbn; by rewrite Hr). wp_step.
  apply wp_client_RemoteSDP. cbn [g_s field_update]. intros s' o E. specialize (HS s' o E). destruct o; [|exact HS..].
  do 2 wp_step. apply wp_initRTP. wp_step. apply wp_Monitor; [done|]. destruct (an_monitor e); exact HS.
Qed.

Lemma wp_app_wait w (Q : res unit -> dialog -> Prop) (g : stage) :
  (forall err, Q (Fail err) (on g)) ->
  (forall body, w_result w = inr body -> Q (Return tt) (on (g <| g_resp := Some body |> <| g_state := Answer.Established |> <| g_cached := true |>))) ->
  wp (sipgo_WaitAnswer app_response w) Q (on g).
Proof.
  intros HF HO. unfold sipgo_WaitAnswer. wp_step. induction (w_responses w) as [|r rs IH]; cbn [each_response].
  - do 2 wp_step. destruct (w_result w) as [err|body]; [wp_step; apply HF|wp_step; by apply HO].
  - wp_step. unfold app_response at 1. wp_step. destruct (r_app r); wp_step; [apply HF|exact IH].
Qed.

(** *** A call that is given up after its answer *)

(** An ACK and a BYE; or, when the ACK cannot be sent or its handshake fails, the
    ACK again and no BYE. *)
Definition given_up (e : answer_env) (l : list out) : Prop :=
  let again := match a_write (an_ack_again e) with None => [OAck] | Some _ => [] end in
  match a_write (an_ack e) with
  | None => l = OAck :: (if (an_bye e).1 then [OBye] else []) \/
            (exists s s' err, Answer.mo_FinalizeContext (a_final (an_ack e)) s = Some (s', Some err)) /\ l = OAck :: again
  | Some _ => l = again
  end.

(** Of a call that failed after the INVITE: nothing was sent, or it was given up. *)
Inductive failed (g : stage) (e : answer_env) : dialog -> Prop :=
| unanswered g' : ul_quiet (g_s g') -> g_outs g' = g_outs g -> g_resp g' = None \/ g_resp g' = Some None -> failed g e (on g')
| refused g' answer l : ul_quiet (g_s g') -> g_resp g' = Some (Some answer) -> g_outs g' = g_outs g ++ l -> given_up e l -> failed g e (on g').

(** The stage after [waitAnswer] on the INVITE of stage [g]. *)
Definition taken (g : stage) (w : wait) (e : answer_env) (r : res unit) (c : dialog) : Prop :=
  match r with
  | Return _ => exists answer s, w_result w = inr (Some answer) /\ Answer.mo_RemoteSDP (an_remote e) answer (Answer.mo_expectAnswer (g_s g)) = (s, MediaSession.Ok) /\
      c = on (g <| g_s := s |> <| g_rtp := Some true |> <| g_resp := Some (Some answer) |> <| g_state := Answer.Established |> <| g_cached := true |>)
  | Fail _ => failed g e c
  | _ => True
  end.

(** The ACK that is tried again, after which the call fails. *)
Lemma again_spec x a (g : stage) : g_unkeyed g = false -> g_resp g <> None -> ul_quiet (g_s g) ->
  wp (let! again := try (Ack a) in fail (errors_Join x again))
    (fun (r : res unit) c => match r with
      | Return _ => False
      | Fail _ => exists g', c = on g' /\ ul_quiet (g_s g') /\ g_resp g' = g_resp g /\
          g_outs g' = g_outs g ++ match a_write a with None => [OAck] | Some _ => [] end
      | _ => True
      end) (on g).
Proof.
  intros Hu Hr Hq. wp_step. wp_step. apply wp_Ack_keyed; [done|done| | |done].
  - intros err ->. do 2 wp_step. eexists. split; [reflexivity|]. by rewrite app_nil_r.
  - intros -> s' err E. pose proof (cl_context _ _ _ _ E Hq). destruct err; do 2 wp_step; eexists; done.
Qed.

Lemma abandon_spec w e err answer (g0 g : stage) :
  g_resp g = Some (Some answer) -> g_outs g = g_outs g0 -> g_unkeyed g = false -> ul_quiet (g_s g) ->
  wp (let! ackErr := try (Ack (an_ack e)) in
      match ackErr with
      | Some ackErr => let! again := try (Ack (an_ack_again e)) in fail (errors_Join ackErr again)
      | None => let! byeErr := try (Bye (an_bye e)) in fail (errors_Join err byeErr)
      end) (taken g0 w e) (on g).
Proof.
  intros Hr Ho Hu Hq.
  assert (forall g' x, g_resp g' = Some (Some answer) -> g_unkeyed g' = false -> ul_quiet (g_s g') -> forall l, g_outs g' = g_outs g0 ++ l ->
    given_up e (l ++ match a_write (an_ack_again e) with None => [OAck] | Some _ => [] end) ->
    wp (let! again := try (Ack (an_ack_again e)) in fail (errors_Join x again)) (taken g0 w e) (on g')) as Hagain.
  { intros g' x Hr' Hu' Hq' l Hl Hg. wp_call (again_spec x (an_ack_again e) g' Hu' ltac:(congruence) Hq'). intros r c. destruct r; try done.
    intros (g2 & -> & Hq2 & Hr2 & Ho2). eapply (refused g0 e g2 answer); [done|congruence| |exact Hg]. by rewrite Ho2, Hl, app_assoc. }
  wp_step. wp_step. apply wp_Ack_keyed; [congruence|done| | |done].
  - intros ackErr Ew. wp_step. apply Hagain with (l := []); [done..|cbn; by rewrite Ho, app_nil_r|]. unfold given_up. by rewrite Ew.
  - intros Ew s' ferr Ef. pose proof (cl_context _ _ _ _ Ef Hq) as Hq'. destruct ferr as [ferr|]; wp_step.
    + apply Hagain with (l := [OAck]); [done..|cbn; by rewrite Ho|]. unfold given_up. rewrite Ew. right. split; [eauto|done].
    + do 2 wp_step. apply wp_Bye; [cbn; congruence|]. intros _.
      set (g' := if (an_bye e).1 then _ else _).
      assert (taken g0 w e (Fail (errors_Join err (an_bye e).2)) (on g')) as HA.
      { apply (refused g0 e g' answer (OAck :: (if (an_bye e).1 then [OBye] else []))); subst g'; destruct ((an_bye e).1) eqn:Eb; cbn;
          rewrite ?Hr, ?Ho, <-?app_assoc; try done; unfold given_up; rewrite Ew; left; by rewrite Eb. }
      destruct ((an_bye e).2); do 2 wp_step; exact HA.
Qed.

(** [waitAnswer] of a dialog that does not detect early media. *)
Lemma waitAnswer_spec w e (g : stage) : g_rtp g = None -> g_unkeyed g = false -> g_resp g = None -> ul_quiet (g_s g) ->
  wp (waitAnswer app_response w e) (taken g w e) (on g).
Proof.
  intros Hr Hu Hn Hq. unfold waitAnswer. wp_step. apply wp_app_wait.
  - intros err. wp_step. by apply (unanswered g e g); auto.
  - intros body Hw. do 4 wp_step. cbn [on response g_resp field_update]. destruct body as [answer|].
    + do 2 wp_step. apply wp_applyRemoteSDP; [cbn; congruence|]. intros _. split; [exact Hr|]. cbn [g_s field_update].
      intros s' o E. pose proof (cl_RemoteSDP _ _ _ _ _ E (cl_expect _ Hq)) as Hq'. destruct o as [|err|]; [destruct (an_monitor e) as [err|] eqn:Em|..].
      * wp_step. by apply (abandon_spec _ _ _ answer).
      * do 2 wp_step. exists answer, s'. by destruct g.
      * wp_step. by apply (abandon_spec _ _ _ answer).
      * by wp_step.
    + wp_step. eapply unanswered; [exact Hq|done|by right].
Qed.

End On.
End Methods.
End ClientProps.
