(* ===== verification/ClientTheorems.v ===== *)
(** * Placing a call: what it comes to

    A call that [Diago.Invite] places is set up on the session that made its offer
    and took the answer; one that fails is left with nothing open. *)
From S2P Require Import Prelude GoStrings NetIP Sdp Codec MediaSdp MediaSession MediaSecurity MediaLifecycle Method Answer AnswerLaws AnswerTheorems MediaUpdate MediaUpdateLaws MediaUpdateInv MediaUpdateTheorems Client ClientLaws.
Import GoStrings NetIP Codecs MediaSdp Method MediaUpdateLaws Client ClientLaws ClientProps.

Module ClientTheorems.
Open Scope method_scope.

Section Calls.
Context {cert S : Type} {mo : Answer.MediaOps cert S} {ml : AnswerLaws.MediaLaws mo} {uo : MediaUpdate.UpdateOps S} {ul : UpdateLaws uo}
  {co : CallOps S} {laws : CallLaws mo uo co}.
Abbreviation dialog := (client cert S).
Context (conf : MediaConfig cert).

(** ** The media session of the call *)

Definition binds (e : invite_env (S := S)) : IP + error := match Answer.bindIP conf with None => i_resolve e | ip => inl ip end.
(** The port the allocator gave, if it was asked for one. *)
Definition allocated (e : invite_env (S := S)) : list Z :=
  match binds e, i_alloc e with inl _, inl port => if Answer.RTPPortAllocator conf then [port] else [] | _, _ => [] end.

Lemma wp_initMedia e (Q : res unit -> dialog -> Prop) :
  (forall err, Q (Fail err) (new_client conf <| returned := allocated e |>)) ->
  (forall ip p port s, Answer.mo_new (i_new e) ip p conf = inl s -> option_list port = allocated e -> Q (Return tt) (on conf port (at_start s))) ->
  wp (initMediaSessionFromConf e) Q (new_client conf).
Proof.
  intros HF HS. unfold initMediaSessionFromConf. do 3 wp_step. cbn [new_client med no_media MediaUpdate.mediaSession mediaConfig id].
  fold (binds e). unfold allocated in *. destruct (binds e) as [ip|err]; [|by apply (HF err)]. destruct (Answer.RTPPortAllocator conf).
  - destruct (i_alloc e) as [p|err]; [|by apply (HF err)]. destruct (Answer.mo_new _ _ _ _) as [s|err] eqn:En; [by apply (HS _ _ (Some p) _ En)|by apply (HF err)].
  - assert (match i_alloc e with inl _ | _ => [] end = [] :> list Z) as Ha by (by destruct (i_alloc e)). rewrite Ha in HF, HS.
    destruct (Answer.mo_new _ _ _ _) as [s|err] eqn:En; [by apply (HS _ _ None _ En)|by apply (HF err)].
Qed.

(** The session an INVITE is offered on: that of the originator's codecs. *)
Definition for_originator (o : option originator) (s s1 : S) : Prop :=
  match o with
  | Some o =>
    match (if o_sdp o then o_body o else None) with
    | Some body => exists s', Answer.mo_RemoteSDP (o_remote o) body s = (s', MediaSession.Ok) /\
        let f := co_forgetRemote s' in
        let codecs := match MediaUpdate.uo_CommonCodecs f with [] => MediaUpdate.uo_Codecs f | codecs => codecs end in
        sessCodecs codecs <> [] /\ s1 = MediaUpdate.uo_setCodecs (sessCodecs codecs) f
    | None => s1 = s
    end
  | None => s1 = s
  end.

Lemma wp_originator port o (Q : res unit -> dialog -> Prop) g : ul_quiet (g_s g) ->
  (forall s1, for_originator (Some o) (g_s g) s1 -> ul_quiet s1 -> Q (Return tt) (on conf port (g <| g_s := s1 |>))) ->
  (forall s1 err, ul_quiet s1 -> Q (Fail err) (on conf port (g <| g_s := s1 |>))) ->
  (forall c, Q Panics c) -> wp (applyOriginator 0 o) Q (on conf port g).
Proof.
  intros Hq HR HF HP. unfold applyOriginator. cbn [for_originator] in HR. destruct (if o_sdp o then o_body o else None) as [body|].
  2: { wp_step. specialize (HR _ eq_refl Hq). by destruct g. }
  do 2 wp_step. apply wp_client_RemoteSDP. intros s' r E. pose proof (cl_RemoteSDP _ _ _ _ _ E Hq) as Hq1. destruct r as [|err|]; [|do 2 wp_step; by apply HF|by wp_step].
  wp_step. pose proof (cl_forget _ Hq1) as Hq2. specialize (fun H => HR _ (ex_intro _ s' (conj E (conj H eq_refl)))). cbv zeta in HR. set (f := co_forgetRemote s') in *.
  assert (wp (let! s := load 0 in
    let s := co_forgetRemote s in
    save 0 s ;;;
    let codecs := match MediaUpdate.uo_CommonCodecs s with [] => MediaUpdate.uo_Codecs s | codecs => codecs end in
    match sessCodecs codecs with
    | [] => fail errNoOriginatorCodecs
    | cs => save 0 (MediaUpdate.uo_setCodecs cs s)
    end) Q (on conf port (g <| g_s := s' |>))) as H; [|exact H].
  wp_step. change (wp (load 0) ?P (on conf port (g <| g_s := s' |>))) with (P (Return s') (on conf port (g <| g_s := s' |>))). wp_step. fold f. cbv zeta.
  wp_step. change (wp (save 0 f) ?P (on conf port (g <| g_s := s' |>))) with (P (Return tt) (on conf port (g <| g_s := f |>))). wp_step.
  destruct (sessCodecs _) as [|cd cds] eqn:Ec; [wp_step; by apply HF|].
  assert (ul_quiet (MediaUpdate.uo_setCodecs (cd :: cds) f)) as Hq3 by (destruct (ul_setCodecs (cd :: cds) f) as (_ & _ & _ & _ & H & _); auto).
  exact (HR ltac:(done) Hq3).
Qed.

(** ** The INVITE *)

(** The stage with the INVITE sent, with its callbacks. *)
Definition sent (opts : InviteClientOptions) (offer : string) (s : S) : stage :=
  at_start s <| g_update := OnMediaUpdate opts |> <| g_refer := OnRefer opts |> <| g_outs := [OInvite offer] |>.

(** The call was answered: what its session went through. *)
Definition answered_call (opts : InviteClientOptions) (e : invite_env) (c : dialog) (s3 : S) (offer answer : string) (port : option Z) : Prop :=
  option_list port = allocated e /\ w_result (i_wait e) = inr (Some answer) /\
  (exists ip p s0 s1 s2, Answer.mo_new (i_new e) ip p conf = inl s0 /\ for_originator (Originator opts) s0 s1 /\
    Answer.mo_LocalSDP (i_local e) s1 = (s2, offer) /\
    Answer.mo_RemoteSDP (an_remote (i_answer e)) answer (Answer.mo_expectAnswer s2) = (s3, MediaSession.Ok)) /\
  c = on conf port (sent opts offer s3 <| g_rtp := Some true |> <| g_resp := Some (Some answer) |> <| g_state := Answer.Established |> <| g_cached := true |>).

(** What [Invite] comes to. *)
Definition invited (opts : InviteClientOptions) (e : invite_env) (r : res unit) (c : dialog) : Prop :=
  match r with
  | Return _ => exists s3 offer answer port, answered_call opts e c s3 offer answer port /\ ul_quiet s3
  | Fail _ =>
    c = new_client conf <| returned := allocated e |> \/
    exists port, option_list port = allocated e /\
      ((exists g, c = on conf port g /\ ul_quiet (g_s g) /\ g_outs g = [] /\ g_resp g = None) \/
       exists offer s, failed conf port (sent opts offer s) (i_answer e) c)
  | _ => True
  end.

(** [Invite] until the INVITE is sent. *)
Lemma wp_Invite opts e (Q : res unit -> dialog -> Prop) :
  (forall err, Q (Fail err) (new_client conf <| returned := allocated e |>)) ->
  (forall err port g, option_list port = allocated e -> ul_quiet (g_s g) -> g_outs g = [] -> g_resp g = None -> Q (Fail err) (on conf port g)) ->
  (forall c, Q Panics c) ->
  (forall ip p port s0 s1 s2 offer, option_list port = allocated e -> Answer.mo_new (i_new e) ip p conf = inl s0 -> for_originator (Originator opts) s0 s1 ->
    Answer.mo_LocalSDP (i_local e) s1 = (s2, offer) -> ul_quiet s2 ->
    wp (if EarlyMediaDetect opts then waitAnswerEarly (EarlyMediaKeyTimeout opts) (i_wait e) (i_answer e) else waitAnswer app_response (i_wait e) (i_answer e))
      Q (on conf port (sent opts offer s2))) ->
  wp (Invite opts e) Q (new_client conf).
Proof.
  intros HN HF HP HS. unfold Invite. wp_step. apply wp_initMedia; [intros err; wp_step; apply HN|].
  intros ip p port s0 En Hp. pose proof (cl_new _ _ _ _ _ En) as Hq0. wp_step. unfold invite. wp_step.
  change (wp session ?P (on conf port (at_start s0))) with (P (Return 0%nat) (on conf port (at_start s0))). do 2 wp_step.
  assert (forall s1, for_originator (Originator opts) s0 s1 -> ul_quiet s1 -> wp (let! offer := LocalSDP (i_local e) 0 in
    check (i_build e) ;;;
    modify (fun c => c <| onMediaUpdate := OnMediaUpdate opts |> <| onReferDialog := OnRefer opts |>) ;;;
    check (i_send e) ;;;
    modify (put (OInvite offer)) ;;;
    if EarlyMediaDetect opts then waitAnswerEarly (EarlyMediaKeyTimeout opts) (i_wait e) (i_answer e)
    else waitAnswer app_response (i_wait e) (i_answer e)) Q (on conf port (at_start s1))) as HG.
  { intros s1 H1 Hq1. wp_step. apply wp_client_LocalSDP. intros s2 offer El. pose proof (cl_LocalSDP _ _ _ _ El Hq1) as Hq2. do 2 wp_step.
    apply wp_check. destruct (i_build e); [wp_step; by apply HF|]. do 5 wp_step.
    apply wp_check. destruct (i_send e); [wp_step|].
    { exact (HF _ port (at_start s2 <| g_update := OnMediaUpdate opts |> <| g_refer := OnRefer opts |>) Hp Hq2 eq_refl eq_refl). }
    do 4 wp_step. fold (sent opts offer s2). by eapply HS. }
  destruct (Originator opts) as [o|].
  - apply wp_originator; [done|intros s1 H1 Hq1; wp_step; by apply HG|intros s1 err Hq1; wp_step; by apply HF|by intros c; wp_step].
  - wp_step. by apply HG.
Qed.

Lemma Invite_spec opts e : EarlyMediaDetect opts = false -> wp (Invite opts e) (invited opts e) (new_client conf).
Proof.
  intros He. apply wp_Invite; [by left|intros err port g Hp Hq Ho Hr; right; eauto 10|done|]. intros ip p port s0 s1 s2 offer Hp En H1 El Hq2. rewrite He.
  wp_call (waitAnswer_spec conf port (i_wait e) (i_answer e) (sent opts offer s2) eq_refl eq_refl eq_refl Hq2).
  intros r c. destruct r; try done.
  - intros (answer & s3 & Hw & Hr & ->). exists s3, offer, answer, port.
    split; [|by eapply cl_RemoteSDP; [exact Hr|apply cl_expect]]. split; [done|]. split; [done|]. split; [|done]. eauto 10.
  - intros H. right. exists port. split; [done|]. right. eauto.
Qed.

(** ** A call that fails *)

(** Nothing of the call is left: it is closed and in no cache, its sockets are shut,
    and the port it was given is back. *)
Record over (e : invite_env) (c : dialog) : Prop := {
  ov_closed : closed_ c = true;
  ov_cached : cached c = false;
  ov_done : MediaUpdate.closed (med c) = true /\ MediaUpdate.closing (med c) = [];
  ov_sockets i t : MediaUpdate.store (med c) !! i = Some t -> ul_conns t ⊆ ul_shut t /\ MediaUpdate.uo_OwnsICEAgent t = false;
  ov_ports : returned c ++ MediaUpdateInv.released (MediaUpdate.acts (med c)) = allocated e }.

Lemma wp_Close_new e u (Q : res unit -> dialog -> Prop) :
  (forall c, over e c -> outs c = [] -> response c = None -> Q (Return tt) c) -> wp (Close u) Q (new_client conf <| returned := allocated e |>).
Proof. intros HQ. apply HQ; [|done..]. split; try done. cbn. apply app_nil_r. Qed.

(** [Close] of the media of a stage, to its end. *)
Lemma close_media_on u s rtp port : close_media u (media_on s rtp port) =
  ({| MediaUpdate.store := [MediaUpdate.uo_Close (MediaUpdate.u_env u) s]; MediaUpdate.mediaSession := Some 0%nat;
      MediaUpdate.rtpSession := (fun _ => {| MediaUpdate.r_media := 0; MediaUpdate.monitored := false |}) <$> rtp;
      MediaUpdate.iceAgentOwner := None; MediaUpdate.jitterBuffer := None;
      MediaUpdate.packetReader := (fun _ => 0%nat) <$> rtp; MediaUpdate.packetWriter := (fun _ => 0%nat) <$> rtp; MediaUpdate.releaseRTPPort := None;
      MediaUpdate.onClose := []; MediaUpdate.ackOffer := None; MediaUpdate.mediaUpdating := false; MediaUpdate.closed := true;
      MediaUpdate.ended := false; MediaUpdate.closing := []; MediaUpdate.acts := MediaUpdate.AClosed 0 :: (MediaUpdate.AReleased <$> option_list port) |}, Return tt).
Proof. destruct u as [ue ? ? ? ? [err|]], rtp as [r|], port as [p|]; vm_compute; reflexivity. Qed.

Lemma wp_Close_on e u port g (Q : res unit -> dialog -> Prop) : ul_quiet (g_s g) -> option_list port = allocated e ->
  (forall c, over e c -> outs c = g_outs g -> response c = g_resp g -> Q (Return tt) c) -> wp (Close u) Q (on conf port g).
Proof.
  intros Hq Hp HQ. pose proof (ul_Close (MediaUpdate.u_env u) (g_s g) Hq) as (H1 & H2 & _ & _ & H3 & _).
  unfold wp, Close, in_media, bind, gets, modify, ret. cbn [on closed_ field_update eta_client med]. rewrite close_media_on. apply HQ; [|done..].
  split; [done..| |].
  - intros i t Hi. apply list_lookup_singleton_Some in Hi as [-> <-]. split; [set_solver|done].
  - rewrite <- Hp. by destruct port.
Qed.

Lemma wp_Close_failed e u port g a c (Q : res unit -> dialog -> Prop) : failed conf port g a c -> option_list port = allocated e ->
  (forall c', over e c' -> outs c' = outs c -> response c' = response c -> Q (Return tt) c') -> wp (Close u) Q c.
Proof. intros HF Hp HQ. destruct HF; (eapply wp_Close_on; [done|done|exact HQ]). Qed.

(** What is sent for a call that [Diago.Invite] gives up after the answer was taken:
    the 2xx is acknowledged, once, and the call ended, where the ACK can be sent. *)
Definition unacked (e : call_env (S := S)) (l : list out) : Prop :=
  let bye := if (cl_bye e).1 then [OBye] else [] in
  match a_write (cl_ack e), cl_ack_again e with
  | Some _, Some _ => l = []
  | _, _ => l = OAck :: bye
  end.

(** What was sent of a failed call, by what the INVITE got. *)
Definition on_the_wire (e : call_env) (c : dialog) : Prop :=
  outs c = [] /\ response c = None \/
  exists offer l, outs c = OInvite offer :: l /\
    match response c with
    | Some (Some _) => given_up (i_answer (cl_invite e)) l \/ unacked e l
    | _ => l = []
    end.

(** The end of a call that fails. *)
Definition failed_call (e : call_env) (r : res unit) (c : dialog) : Prop :=
  match r with Return _ => False | Fail _ => over (cl_invite e) c /\ on_the_wire e c | _ => True end.

Lemma abandon_invite opts e c err : invited opts (cl_invite e) (Fail err) c -> wp (abandon e err) (failed_call e) c.
Proof.
  intros H. unfold abandon. wp_step. destruct H as [->|(port & Hp & [(g & -> & Hq & Ho & Hr)|(offer & s & HF)])].
  - apply (wp_Close_new (cl_invite e)). intros c Hc Ho Hr. do 2 wp_step. split; [done|]. by left.
  - apply (wp_Close_on (cl_invite e)); [done|done|]. intros c Hc Ho' Hr'. do 2 wp_step. split; [done|]. left. split; congruence.
  - eapply (wp_Close_failed (cl_invite e)); [exact HF|done|]. intros c' Hc Ho Hr. do 2 wp_step. split; [done|]. right. exists offer. rewrite Ho, Hr.
    destruct HF as [g' Hq Hog Hrg|g' answer l Hq Hrg Hog Hg].
    + exists []. split; [exact Hog|]. cbn [on response]. by destruct Hrg as [->| ->].
    + exists l. split; [exact Hog|]. cbn [on response]. rewrite Hrg. by left.
Qed.

Lemma end_call_spec e err port (g : stage) offer answer : ul_quiet (g_s g) -> option_list port = allocated (cl_invite e) -> g_resp g = Some (Some answer) ->
  match a_write (cl_ack e) with
  | Some _ => g_state g = Answer.Established /\ g_outs g = [OInvite offer]
  | None => g_state g = Answer.Confirmed /\ g_outs g = [OInvite offer; OAck]
  end -> wp (end_call e err) (failed_call e) (on conf port g).
Proof.
  intros Hq Hp Hr Ha.
  assert (forall g' x, ul_quiet (g_s g') -> g_resp g' = Some (Some answer) -> (exists l, g_outs g' = OInvite offer :: l /\ unacked e l) ->
    wp (abandon e x) (failed_call e) (on conf port g')) as HG.
  { intros g' x Hq' Hr' (l & Hl & Hu). unfold abandon. wp_step. apply (wp_Close_on (cl_invite e)); [done|done|]. intros c Hc Ho Hrc. do 2 wp_step.
    split; [done|]. right. exists offer, l. rewrite Ho, Hrc, Hr'. auto. }
  set (Q := fun (r : res unit) c => match r with
    | Return _ => wp (abandon e (errors_Join err None)) (failed_call e) c
    | Fail b => wp (abandon e (errors_Join err (Some b))) (failed_call e) c
    | _ => True
    end).
  assert (forall g' : stage, ul_quiet (g_s g') -> g_resp g' = Some (Some answer) -> g_outs g' = [OInvite offer; OAck] ->
    (a_write (cl_ack e) = None \/ cl_ack_again e = None) -> wp (Bye (cl_bye e)) Q (on conf port g')) as HB.
  { intros g' Hq' Hr' Ho' Hw. apply wp_Bye; [congruence|]. intros _. set (g2 := if (cl_bye e).1 then _ else g').
    assert (forall x, wp (abandon e x) (failed_call e) (on conf port g2)) as H2.
    { intros x. apply HG; [subst g2; by destruct ((cl_bye e).1)|subst g2; by destruct ((cl_bye e).1)|].
      exists (OAck :: (if (cl_bye e).1 then [OBye] else [])). split; [subst g2; destruct ((cl_bye e).1); cbn; by rewrite Ho'|].
      unfold unacked. destruct Hw as [->| ->]; [done|]. by destruct (a_write (cl_ack e)). }
    destruct ((cl_bye e).2); apply H2. }
  unfold end_call. wp_step. wp_step. apply (wp_mono (ackAndBye (cl_ack_again e) (cl_bye e)) Q); [|by intros []].
  unfold ackAndBye. do 4 wp_step. cbn [on state].
  destruct (a_write (cl_ack e)) as [aerr|] eqn:Ew; destruct Ha as [Hs Ho]; rewrite Hs.
  - rewrite bool_decide_true by done. wp_step. apply wp_ackTarget; [congruence|]. wp_step. unfold ack. destruct (cl_ack_again e) as [werr|] eqn:Eg.
    + wp_step. cbv beta iota delta [cast Q]. apply HG; [done|done|]. exists []. split; [exact Ho|]. unfold unacked. by rewrite Ew, Eg.
    + wp_step. set (g2 := g <| g_state := Answer.Confirmed |> <| g_outs := g_outs g ++ [OAck] |>).
      change (put OAck (on conf port g) <| state := Answer.Confirmed |>) with (on conf port g2). apply HB; [done|done|cbn; by rewrite Ho|by right].
  - rewrite bool_decide_false by done. do 2 wp_step. apply HB; auto.
Qed.

(** ** The theorems *)

Definition placed (o : option originator) (e : call_env) (c : dialog) : Prop :=
  exists ip p port s0 s1 s2 s3 s4 offer answer,
    option_list port = allocated (cl_invite e) /\
    Answer.mo_new (i_new (cl_invite e)) ip p conf = inl s0 /\ for_originator o s0 s1 /\
    Answer.mo_LocalSDP (i_local (cl_invite e)) s1 = (s2, offer) /\
    w_result (i_wait (cl_invite e)) = inr (Some answer) /\
    Answer.mo_RemoteSDP (an_remote (i_answer (cl_invite e))) answer (Answer.mo_expectAnswer s2) = (s3, MediaSession.Ok) /\
    Answer.mo_FinalizeContext (a_final (cl_ack e)) s3 = Some (s4, None) /\
    AnswerLaws.is_running s4 = false /\ AnswerLaws.is_armed s4 = false /\ ul_quiet s4 /\
    med c = MediaUpdate.dlg (MediaUpdate.set_up s4 false port []) /\
    outs c = [OInvite offer; OAck] /\ state c = Answer.Confirmed /\ cached c = true /\ closed_ c = false /\ earlyUnkeyed c = false /\ returned c = [].

Lemma Diago_Invite_spec o e :
  wp (Diago_Invite o e) (fun r c => match r with Return _ => placed o e c | r => failed_call e r c end) (new_client conf).
Proof.
  unfold Diago_Invite. set (opts := {| Originator := o; OnMediaUpdate := None; OnRefer := None; EarlyMediaDetect := false; EarlyMediaKeyTimeout := 0 |}).
  wp_step. wp_step. wp_call (Invite_spec opts (cl_invite e) eq_refl). intros r d. destruct r as [u|err| |]; try done; intros H.
  2: { wp_step. wp_call (abandon_invite opts e d err H). by intros []. }
  destruct H as (s3 & offer & answer & port & (Hp & Hw & (ip & p & s0 & s1 & s2 & En & Ho & El & Er) & ->) & Hq).
  pose proof (fun err g H1 H2 H3 => wp_mono _ _ (fun r c => match r with Return _ => placed o e c | r => failed_call e r c end) _
    (end_call_spec e err port g offer answer H1 Hp H2 H3) ltac:(by intros [])) as Hend.
  do 2 wp_step. wp_step. apply wp_Ack_keyed; [done|done| | |done].
  - intros err Ew. wp_step. apply Hend; [exact Hq|done|by rewrite Ew].
  - intros Ew s4 err Ef. pose proof (cl_context _ _ _ _ Ef Hq) as Hq4. destruct err as [err|]; wp_step.
    + apply Hend; [exact Hq4|done|by rewrite Ew].
    + wp_step. exists ip, p, port, s0, s1, s2, s3, s4, offer, answer.
      destruct (AnswerLaws.ml_context _ _ _ Ef) as [H1 H2]. split_and!; try done.
      apply H2. by rewrite (cl_idle _ Hq).
Qed.

(** C2. A call that [Diago.Invite] returns without an error was offered on the session
    made for it, restricted to the originator where there is one; its 2xx brought an
    answer that this session applied as the answer to that offer, and the handshake
    of it has ended without an error. Exactly one INVITE with the offer and one ACK
    were sent, the dialog is confirmed, found by its Diago and open, with no early
    media pending, and its media is a call set up on that session, with nothing
    negotiated or running on it: where the guarantees of media updates start. *)
Theorem call_placed o (e : call_env) (c : dialog) : Diago_Invite o e (new_client conf) = (c, Return tt) -> placed o e c.
Proof. exact (wp_run _ _ _ _ _ (Diago_Invite_spec o e)). Qed.

(** Everything the call asks of the transport is sent. *)
Definition sends (e : call_env (S := S)) : Prop :=
  a_write (an_ack (i_answer (cl_invite e))) = None /\ a_write (an_ack_again (i_answer (cl_invite e))) = None /\ (an_bye (i_answer (cl_invite e))).1 = true /\
  a_write (cl_ack e) = None /\ cl_ack_again e = None /\ (cl_bye e).1 = true.

(** C6. A call that [Diago.Invite] fails is over, however it failed: it is closed and in
    no cache, every socket of its session is shut, its ICE agent gone and its RTP port
    back with the allocator. What was sent of it is by what its INVITE got: nothing more
    without a 2xx, or with one that has no description, which gets neither an ACK nor a
    BYE; after another, what giving it up could send ([on_the_wire]). When every ACK and
    BYE can be sent, that is one ACK and one BYE; save that when the handshake of the ACK
    failed, the ACK is sent twice and no BYE. *)
Theorem failed_call_left o (e : call_env) (c : dialog) err : Diago_Invite o e (new_client conf) = (c, Fail err) ->
  over (cl_invite e) c /\ on_the_wire e c /\ (sends e ->
  match response c with
  | None => outs c = [] \/ exists offer, outs c = [OInvite offer]
  | Some None => exists offer, outs c = [OInvite offer]
  | Some (Some _) => exists offer, outs c = [OInvite offer; OAck; OBye] \/
      (outs c = [OInvite offer; OAck; OAck] /\
       exists s s' ferr, Answer.mo_FinalizeContext (a_final (an_ack (i_answer (cl_invite e)))) s = Some (s', Some ferr))
  end).
Proof.
  intros E. pose proof (wp_run _ _ _ _ _ (Diago_Invite_spec o e) E) as [Hover Hw].
  split; [exact Hover|]. split; [exact Hw|]. intros (S1 & S2 & S3 & S4 & S5 & S6). destruct Hw as [[-> ->]|(offer & l & -> & Hl)]; [by left|].
  destruct (response c) as [[answer|]|]; subst; [|by exists offer|right; by exists offer]. exists offer.
  unfold given_up, unacked in Hl. rewrite S1, S2, S3, S4, S6 in Hl. destruct Hl as [[->|[H ->]]| ->]; auto.
Qed.

End Calls.
(** ** Calls of a concrete session *)

#[local] Existing Instance AnswerTheorems.ex_ops | 0.
#[local] Existing Instance AnswerTheorems.ex_laws | 0.
#[local] Existing Instance MediaUpdateTheorems.ex_update | 0.
#[local] Existing Instance MediaUpdateTheorems.ex_update_laws | 0.
Definition ex_call_laws : CallLaws AnswerTheorems.ex_ops MediaUpdateTheorems.ex_update session_call_ops :=
  session_call_laws MediaSecurity.ex_fp MediaSecurity.ex_ctx (fun _ => 16) (fun _ => true) false AnswerTheorems.ex_listen.
#[local] Existing Instance ex_call_laws | 0.

Abbreviation ex_session := (@MediaSession.MediaSession unit (bytes * bytes)).
Definition ex_ack (run : option MediaLifecycle.handshake) : ack_env (S := ex_session) :=
  {| a_write := None; a_final := AnswerTheorems.ex_menv None run; a_monitor := None |}.
Definition ex_answer_env : answer_env (S := ex_session) :=
  {| an_remote := AnswerTheorems.ex_menv None None; an_update := MediaUpdateTheorems.ex_upd; an_monitor := None;
     an_ack := ex_ack None; an_ack_again := ex_ack None; an_bye := (true, None) |}.
(** An INVITE answered by [w]. *)
Definition ex_invite (w : wait) : invite_env (S := ex_session) :=
  {| i_resolve := inr (ErrNew "unused"); i_alloc := inl 5004; i_new := AnswerTheorems.ex_menv None None; i_local := AnswerTheorems.ex_menv None None;
     i_build := None; i_send := None; i_wait := w; i_answer := ex_answer_env |}.
Definition ex_answered (body : option string) : wait (S := ex_session) := {| w_responses := []; w_result := inr body |}.
Definition ex_dial (w : wait) : call_env (S := ex_session) :=
  {| cl_invite := ex_invite w; cl_bridge := None; cl_ack := ex_ack None; cl_ack_again := None; cl_bye := (true, None); cl_close := MediaUpdateTheorems.ex_upd; cl_close_err := None |}.
Definition ex_conf := AnswerTheorems.ex_mconf MediaSession.SecureRTPModeNone.

Lemma call_placed_witness : exists c, Diago_Invite None (ex_dial (ex_answered (Some AnswerTheorems.ex_plain_answer))) (new_client ex_conf) = (c, Return tt) /\
  placed ex_conf None (ex_dial (ex_answered (Some AnswerTheorems.ex_plain_answer))) c.
Proof.
  set (e := ex_dial (ex_answered (Some AnswerTheorems.ex_plain_answer))).
  destruct (Diago_Invite None e (new_client ex_conf)) as [c r] eqn:E.
  assert ((Diago_Invite None e (new_client ex_conf)).2 = Return tt) as Hr by (vm_compute; reflexivity). rewrite E in Hr. cbn [snd] in Hr. subst r.
  exists c. split; [reflexivity|]. exact (call_placed ex_conf None e c E).
Defined.

(** An answer with no codec of the offer. *)
Definition ex_other_codec : string := Sdp.write_lines ["v=0"; "o=- 3 4 IN IP4 10.0.0.9"; "s=-"; "c=IN IP4 10.0.0.9"; "t=0 0"; "m=audio 7004 RTP/AVP 8"; "a=sendrecv"].

Lemma failed_call_left_witness : exists c err, Diago_Invite None (ex_dial (ex_answered (Some ex_other_codec))) (new_client ex_conf) = (c, Fail err) /\
  over ex_conf (ex_invite (ex_answered (Some ex_other_codec))) c /\ exists offer, outs c = [OInvite offer; OAck; OBye].
Proof.
  set (e := ex_dial (ex_answered (Some ex_other_codec))).
  destruct (Diago_Invite None e (new_client ex_conf)) as [c r] eqn:E.
  assert ((fun '(c, r) => (response c, length (outs c), nth 2 (outs c) OAck, match r with Fail _ => true | _ => false end)) (Diago_Invite None e (new_client ex_conf)) =
    (Some (Some ex_other_codec), 3%nat, OBye, true)) as Hr by (vm_compute; reflexivity).
  rewrite E in Hr. injection Hr as H1 H2 H3 H4. destruct r as [|err| |]; try discriminate H4. exists c, err. split; [reflexivity|].
  destruct (failed_call_left ex_conf None e c err E) as (Ho & _ & Hw). split; [exact Ho|]. specialize (Hw ltac:(repeat split)). rewrite H1 in Hw.
  destruct Hw as (offer & [Hw|[Hw _]]); exists offer; [exact Hw|]. rewrite Hw in H3. discriminate H3.
Defined.

(** The codecs of the session are restricted to one of a kind for an originator, and
    yet the INVITE offers all they have in common; the answer that takes the second of
    them is refused and the call ended. *)
Definition ex_three : MediaConfig unit := {| Answer.Codecs := [CodecAudioUlaw; CodecAudioAlaw; CodecTelephoneEvent8000]; Answer.SecureRTPAlg := None; Answer.DTLSConfig_ := None;
  Answer.ICEConfig := None; Answer.RTPPortAllocator := true; Answer.secureRTP := MediaSession.SecureRTPModeNone; Answer.bindIP := Some [10; 0; 0; 1]; Answer.externalIP := None; Answer.rtpNAT := 0 |}.
Definition ex_originator : originator (S := ex_session) :=
  {| o_sdp := true; o_body := Some (Sdp.write_lines ["v=0"; "o=- 3 4 IN IP4 10.0.0.9"; "s=-"; "c=IN IP4 10.0.0.9"; "t=0 0"; "m=audio 7004 RTP/AVP 8 0 101";
       "a=rtpmap:101 telephone-event/8000"; "a=sendrecv"]); o_remote := AnswerTheorems.ex_menv None None |}.
Definition ex_second : string := Sdp.write_lines ["v=0"; "o=- 3 4 IN IP4 10.0.0.8"; "s=-"; "c=IN IP4 10.0.0.8"; "t=0 0"; "m=audio 7008 RTP/AVP 0"; "a=sendrecv"].

Example originator_codecs_offered :
  let '(c, r) := Diago_Invite (Some ex_originator) (ex_dial (ex_answered (Some ex_second))) (new_client ex_three) in
  (match outs c with OInvite offer :: _ => existsb (fun l => HasPrefix l "m=audio 5004 RTP/AVP 8 0 101") (Split offer (Ascii.ascii_of_nat 10)) | _ => false end,
   MediaSession.ms_Codecs <$> MediaUpdate.store (med c), match r with Fail _ => true | _ => false end) =
  (true, [[CodecAudioAlaw; CodecTelephoneEvent8000]], true).
Proof. vm_compute. reflexivity. Qed.

End ClientTheorems.

(** * Early media that waits for its keys

    With [EarlyMediaDetect], the description of the first 183 is the answer. Where its
    handshake does not end in the time given to it, [Invite] goes on to the 2xx, whose
    description is not applied, and [Ack] completes the handshake. *)
Import GoStrings NetIP Codecs MediaSdp Method MediaUpdateLaws Client ClientLaws ClientProps.

Module ClientEarly.
Open Scope method_scope.

Section Early.
Context {cert S : Type} {mo : Answer.MediaOps cert S} {ml : AnswerLaws.MediaLaws mo} {uo : MediaUpdate.UpdateOps S} {ul : UpdateLaws uo}
  {co : CallOps S} {laws : CallLaws mo uo co}.
Abbreviation dialog := (client cert S).

(** The looks at a handshake. *)
Definition polled (s s' : S) : Prop := exists e err, Answer.mo_FinalizeWithin e s = (s', err).

(** The 183 that left its handshake running on the session. *)
Definition unkeyed_by (rs : list response_) (s : S) : Prop :=
  exists r body s1 s2, r ∈ rs /\ r_status r = StatusSessionInProgress /\ r_sdp r = true /\ r_body r = Some body /\
    Answer.mo_RemoteSDP (r_remote r) body (Answer.mo_expectAnswer s1) = (s2, MediaSession.Ok) /\ AnswerLaws.is_running s2 = false /\ rtc polled s2 s.

Lemma unkeyed_by_cons r rs s : unkeyed_by rs s -> unkeyed_by (r :: rs) s.
Proof. intros (r' & body & s1 & s2 & H & H'). exists r', body, s1, s2. split; [by right|done]. Qed.

Section On.
Context (conf : MediaConfig cert) (port : option Z).
Abbreviation on := (on conf port).

Lemma wp_load (Q : res S -> dialog -> Prop) (g : stage) : Q (Return (g_s g)) (on g) -> wp (load 0) Q (on g).
Proof. done. Qed.
Lemma wp_save s (Q : res unit -> dialog -> Prop) (g : stage) : Q (Return tt) (on (g <| g_s := s |>)) -> wp (save 0 s) Q (on g).
Proof. done. Qed.

Lemma wp_awaitEarlyKeys left polls (Q : res (option error) -> dialog -> Prop) (g : stage) :
  (forall s' err, rtc polled (g_s g) s' -> Q (Return err) (on (g <| g_s := s' |>))) -> (forall c, Q Waits c) ->
  wp (awaitEarlyKeys 0 left polls) Q (on g).
Proof.
  revert left g. induction polls as [|p polls IH]; intros left g HQ HW; cbn [awaitEarlyKeys]; [by wp_step|].
  wp_step. apply wp_load. wp_step. destruct (Answer.mo_FinalizeWithin (p_env p) (g_s g)) as [s' err] eqn:E. wp_step. apply wp_save. wp_step.
  assert (polled (g_s g) s') as Hp by (by exists (p_env p), err).
  destruct err as [err|]; [|wp_step; apply HQ; by apply rtc_once]. destruct (negb _); [wp_step; apply HQ; by apply rtc_once|].
  destruct (p_ctx p) as [x|]; [wp_step; apply HQ; by apply rtc_once|]. cbv zeta. destruct (_ <=? _); [wp_step; apply HQ; by apply rtc_once|].
  apply IH; [|done]. intros s2 err2 H. cbn in H. exact (HQ s2 err2 (rtc_l _ _ _ _ Hp H)).
Qed.

(** After the responses: the session is as it was offered, or a 183 left it unkeyed. *)
Definition early (g : stage) (rs : list response_) (g' : stage) : Prop :=
  g' = g \/ exists s, g' = g <| g_s := s |> <| g_unkeyed := true |> /\ unkeyed_by rs s.

Lemma wp_early_response kt r (Q : res unit -> dialog -> Prop) (g : stage) : g_unkeyed g = false -> g_rtp g = None -> ul_quiet (g_s g) ->
  (forall err c, Q (Fail err) c) -> (forall c, Q Waits c) -> (forall c, Q Panics c) -> (forall g', early g [r] g' -> Q (Return tt) (on g')) ->
  wp (early_response 0 kt r) Q (on g).
Proof.
  intros Hu Hr Hq HF HW HP HR. unfold early_response. wp_step. wp_step. destruct (r_app r); [wp_step; apply HF|]. wp_step.
  assert (Q (Return tt) (on g)) as HR0 by (apply HR; by left).
  destruct (r_status r =? _) eqn:Es; cbn [negb]; [|by wp_step]. destruct (r_sdp r) eqn:Ep; cbn [negb]; [|by wp_step].
  destruct (r_body r) as [body|] eqn:Eb; [|by wp_step]. do 3 wp_step. change (earlyUnkeyed (on g)) with (g_unkeyed g). rewrite Hu.
  wp_step. apply wp_expectAnswer. do 2 wp_step. apply wp_client_RemoteSDP. intros s2 o E. pose proof (cl_RemoteSDP _ _ _ _ _ E (cl_expect _ Hq)) as Hq2.
  destruct o; [|wp_step; apply HF|wp_step; apply HP]. do 2 wp_step. apply wp_awaitEarlyKeys; [|intros c; wp_step; apply HW].
  intros s3 err H3. wp_step. destruct err as [err|].
  - destruct (errors_Is _ _); [|wp_step; apply HF]. wp_step. set (g' := g <| g_s := s3 |> <| g_unkeyed := true |>).
    apply (HR g'). right. exists s3. split; [done|]. exists r, body, (g_s g), s2. rewrite Z.eqb_eq in Es. split_and!; try done; [by left|by apply cl_idle].
  - wp_step. apply wp_initRTP. wp_step. unfold wp, onCloseUnsafe, MonitorBackground, in_media, bind, modify. destruct (r_monitor r); apply HF.
Qed.

Lemma wp_unkeyed_response kt r (Q : res unit -> dialog -> Prop) (g : stage) : g_unkeyed g = true ->
  (forall err, Q (Fail err) (on g)) -> Q (Return tt) (on g) -> wp (early_response 0 kt r) Q (on g).
Proof.
  intros Hu HF HR. unfold early_response. wp_step. wp_step. destruct (r_app r); [wp_step; apply HF|]. wp_step.
  destruct (negb _); [by wp_step|]. destruct (negb _); [by wp_step|]. destruct (r_body r) as [body|]; [|by wp_step].
  do 3 wp_step. change (earlyUnkeyed (on g)) with (g_unkeyed g). rewrite Hu. by wp_step.
Qed.

Lemma wp_early_responses kt rs (Q : res unit -> dialog -> Prop) (g : stage) : (g_unkeyed g = false -> g_rtp g = None /\ ul_quiet (g_s g)) ->
  (forall err c, Q (Fail err) c) -> (forall c, Q Waits c) -> (forall c, Q Panics c) ->
  (forall g', (if g_unkeyed g then g' = g else early g rs g') -> Q (Return tt) (on g')) ->
  wp (each_response (early_response 0 kt) rs) Q (on g).
Proof.
  revert g. induction rs as [|r rs IH]; intros g Hg HF HW HP HR; cbn [each_response].
  - wp_step. apply HR. destruct (g_unkeyed g); [done|by left].
  - wp_step. destruct (g_unkeyed g) eqn:Hu.
    + apply wp_unkeyed_response; [done|intros err; wp_step; apply HF|]. wp_step. apply IH; try done; [congruence|]. rewrite Hu. exact HR.
    + destruct (Hg eq_refl) as [Hr Hq]. apply wp_early_response; try done; try (intros; wp_step; auto).
      apply IH; try done; (destruct H as [->|(s & -> & H)]; [rewrite Hu|cbn [g_unkeyed field_update eta_stage]]); try done.
      * intros g' [->|(s & -> & H)]; apply HR; [by left|right]. exists s. split; [done|by apply unkeyed_by_cons].
      * intros g' ->. apply HR. right. exists s. split; [done|]. destruct H as (r' & body & s1 & s2 & Hin & H). apply list_elem_of_singleton in Hin as ->.
        exists r, body, s1, s2. split; [by left|done].
Qed.

(** What [waitAnswer] leaves of a call whose 183 went unkeyed: the description of the
    2xx, whatever it is, is not applied. *)
Lemma waitAnswerEarly_spec kt w e (g : stage) : g_rtp g = None -> g_unkeyed g = false -> g_resp g = None -> ul_quiet (g_s g) ->
  wp (waitAnswerEarly kt w e) (fun r c => match r with
    | Return _ => earlyUnkeyed c = true -> exists s answer, unkeyed_by (w_responses w) s /\ w_result w = inr (Some answer) /\
        c = on (g <| g_s := s |> <| g_unkeyed := true |> <| g_resp := Some (Some answer) |> <| g_state := Answer.Established |> <| g_cached := true |>)
    | _ => True
    end) (on g).
Proof.
  intros Hr Hu Hn Hq. unfold waitAnswerEarly. wp_step. change (wp session ?P (on g)) with (P (Return 0%nat) (on g)). wp_step. unfold waitAnswer, sipgo_WaitAnswer.
  do 2 wp_step. apply wp_early_responses; try (intros; by repeat wp_step). rewrite Hu. intros g' Hg'. wp_step.
  destruct (w_result w) as [err|body] eqn:Ew; [by repeat wp_step|]. do 4 wp_step.
  set (g2 := g' <| g_resp := Some body |> <| g_state := Answer.Established |> <| g_cached := true |>).
  assert (on g' <| response := Some body |> <| state := Answer.Established |> <| cached := true |> = on g2) as -> by done.
  change (response (on g2)) with (Some body). destruct body as [answer|]; [|by repeat wp_step]. do 2 wp_step. apply wp_applyRemoteSDP.
  - intros Hu2. do 2 wp_step. intros _. destruct Hg' as [->|(s & -> & Hs)]; [cbn in Hu2; congruence|]. by exists s, answer.
  - intros Hu2. destruct Hg' as [->|(s & -> & Hs)]; [|done]. split; [exact Hr|]. intros s' o E.
    pose proof (cl_RemoteSDP _ _ _ _ _ E (cl_expect _ Hq)) as Hq'.
    assert (forall (P : dialog -> Prop) err g3, g_resp g3 = Some (Some answer) -> g_outs g3 = g_outs g -> g_unkeyed g3 = false -> ul_quiet (g_s g3) ->
      wp (let! ackErr := try (Ack (an_ack e)) in
          match ackErr with
          | Some ackErr => let! again := try (Ack (an_ack_again e)) in fail (errors_Join ackErr again)
          | None => let! byeErr := try (Bye (an_bye e)) in fail (errors_Join err byeErr)
          end) (fun (r : res unit) c => match r with Return _ => earlyUnkeyed c = true -> P c | _ => True end) (on g3)) as HG.
    { intros P err g3 H1 H2 H3 H4. wp_call (abandon_spec conf port w e err answer g g3 H1 H2 H3 H4). intros r c. destruct r as [u| | |]; try done.
      intros (? & ? & _ & _ & ->). cbn. rewrite Hu. discriminate. }
    destruct o as [|err|]; [destruct (an_monitor e)|..].
    + wp_step. by apply HG.
    + do 2 wp_step. cbn. rewrite Hu. discriminate.
    + wp_step. by apply HG.
    + by wp_step.
Qed.

End On.
(** ** The theorem *)

Lemma Invite_early_spec conf opts e : EarlyMediaDetect opts = true ->
  wp (Invite opts e) (fun r c => match r with
    | Return _ => earlyUnkeyed c = true -> exists port offer s2 s answer, unkeyed_by (w_responses (i_wait e)) s /\ w_result (i_wait e) = inr (Some answer) /\
        c = on conf port (ClientTheorems.sent opts offer s2 <| g_s := s |> <| g_unkeyed := true |> <| g_resp := Some (Some answer) |> <| g_state := Answer.Established |> <| g_cached := true |>)
    | _ => True
    end) (new_client conf).
Proof.
  intros He. apply ClientTheorems.wp_Invite; try done. intros ip p port s0 s1 s2 offer _ _ _ _ Hq. rewrite He.
  wp_call (waitAnswerEarly_spec conf port (EarlyMediaKeyTimeout opts) (i_wait e) (i_answer e) (ClientTheorems.sent opts offer s2) eq_refl eq_refl eq_refl Hq).
  intros r c. destruct r; try done. intros H Hu. destruct (H Hu) as (s & answer & H1 & H2 & H3). by exists port, offer, s2, s, answer.
Qed.

Lemma polled_clean s s' : rtc polled s s' -> AnswerLaws.is_running s && AnswerLaws.is_armed s = false -> AnswerLaws.is_running s' && AnswerLaws.is_armed s' = false.
Proof. induction 1 as [|s t u (e & err & E) _ IH]; [done|]. intros H. apply IH. by destruct (AnswerLaws.ml_within _ _ _ _ E H). Qed.

(** C21. When [Invite] with [EarlyMediaDetect] returns a call whose early media was not
    keyed in time, the call has no media yet; and once [Ack] returns without an error
    its media is set up on the session that took the description of a 183 as its
    answer, whose handshake has ended since, with no negotiation left on it. The
    description of the 2xx was not applied, and one INVITE and one ACK were sent. *)
Theorem early_answer_stands conf opts e a (c1 c2 : dialog) : EarlyMediaDetect opts = true ->
  Invite opts e (new_client conf) = (c1, Return tt) -> earlyUnkeyed c1 = true -> Ack a c1 = (c2, Return tt) ->
  exists r body s1 s2 s3 s4 port offer answer,
    r ∈ w_responses (i_wait e) /\ r_status r = StatusSessionInProgress /\ r_body r = Some body /\ w_result (i_wait e) = inr (Some answer) /\
    Answer.mo_RemoteSDP (r_remote r) body (Answer.mo_expectAnswer s1) = (s2, MediaSession.Ok) /\ rtc polled s2 s3 /\
    Answer.mo_FinalizeContext (a_final a) s3 = Some (s4, None) /\ AnswerLaws.is_running s4 = false /\ AnswerLaws.is_armed s4 = false /\
    MediaUpdate.rtpSession (med c1) = None /\ MediaUpdate.packetWriter (med c1) = None /\
    med c2 = MediaUpdate.dlg (MediaUpdate.set_up s4 false port []) /\
    outs c2 = [OInvite offer; OAck] /\ state c2 = Answer.Confirmed /\ earlyUnkeyed c2 = false.
Proof.
  intros He E1 Hu E2. destruct (wp_run _ _ _ _ _ (Invite_early_spec conf opts e He) E1 Hu)
    as (port & offer & s0 & s3 & answer & (r & body & s1 & s2 & Hin & Hs & _ & Hb & Er & Hrun & Hpoll) & Hw & ->).
  set (g := ClientTheorems.sent opts offer s0 <| g_s := s3 |> <| g_unkeyed := true |> <| g_resp := Some (Some answer) |> <| g_state := Answer.Established |> <| g_cached := true |>) in *.
  assert (exists s4, Answer.mo_FinalizeContext (a_final a) s3 = Some (s4, None) /\ c2 = on conf port (g <| g_s := s4 |> <| g_acking := false |> <| g_state := Answer.Confirmed |>
      <| g_outs := g_outs g ++ [OAck] |> <| g_unkeyed := false |> <| g_rtp := Some true |>)) as (s4 & Ef & ->).
  { refine (wp_run _ (fun r c => match r with Return _ => exists s4, Answer.mo_FinalizeContext (a_final a) s3 = Some (s4, None) /\ c = on conf port (g <| g_s := s4 |> <| g_acking := false |>
      <| g_state := Answer.Confirmed |> <| g_outs := g_outs g ++ [OAck] |> <| g_unkeyed := false |> <| g_rtp := Some true |>) | _ => True end) _ _ _ _ E2).
    apply wp_Ack; try done. intros _ s4 err Ef. destruct err as [err|]; [done|]. destruct (a_monitor a); [done|]. by exists s4. }
  destruct (AnswerLaws.ml_context _ _ _ Ef) as [H1 H2].
  exists r, body, s1, s2, s3, s4, port, offer, answer. split_and!; try done. apply H2. eapply polled_clean; [exact Hpoll|]. by rewrite Hrun.
Qed.

End Early.
(** ** A call with DTLS media *)

#[local] Existing Instance AnswerTheorems.ex_ops | 0.
#[local] Existing Instance AnswerTheorems.ex_laws | 0.
#[local] Existing Instance MediaUpdateTheorems.ex_update | 0.
#[local] Existing Instance MediaUpdateTheorems.ex_update_laws | 0.
#[local] Existing Instance ClientTheorems.ex_call_laws | 0.
Abbreviation ex_session := ClientTheorems.ex_session.

Definition ex_dtls_answer : string := Sdp.write_lines ["v=0"; "o=- 3 4 IN IP4 10.0.0.9"; "s=-"; "c=IN IP4 10.0.0.9"; "t=0 0";
  "m=audio 7004 UDP/TLS/RTP/SAVP 0"; "a=fingerprint:SHA-256 CC:DD"; "a=setup:active"; "a=sendrecv"].
(** A 183 whose handshake is looked at until the timeout, and the 2xx of another callee. *)
Definition ex_183 : response_ (S := ex_session) :=
  {| r_status := 183; r_sdp := true; r_body := Some ex_dtls_answer; r_app := None; r_remote := AnswerTheorems.ex_menv None None;
     r_polls := [{| p_env := AnswerTheorems.ex_menv None None; p_ctx := None; p_took := 50 * Millisecond |}; {| p_env := AnswerTheorems.ex_menv None None; p_ctx := None; p_took := 50 * Millisecond |}];
     r_monitor := None |}.
Definition ex_opts : InviteClientOptions (S := ex_session) :=
  {| Originator := None; OnMediaUpdate := None; OnRefer := None; EarlyMediaDetect := true; EarlyMediaKeyTimeout := 100 * Millisecond |}.
Definition ex_early_invite : invite_env (S := ex_session) := ClientTheorems.ex_invite {| w_responses := [ex_183]; w_result := inr (Some AnswerTheorems.ex_plain_answer) |}.
Definition ex_early_conf := AnswerTheorems.ex_mconf MediaSession.SecureRTPModeDTLS.

Lemma early_answer_stands_witness : exists c1 c2, Invite ex_opts ex_early_invite (new_client ex_early_conf) = (c1, Return tt) /\ earlyUnkeyed c1 = true /\
  Ack (ClientTheorems.ex_ack (Some (MediaSecurity.ex_hs None))) c1 = (c2, Return tt) /\ MediaUpdate.rtpSession (med c1) = None /\ state c2 = Answer.Confirmed.
Proof.
  destruct (Invite ex_opts ex_early_invite (new_client ex_early_conf)) as [c1 r1] eqn:E1.
  destruct (Ack (ClientTheorems.ex_ack (Some (MediaSecurity.ex_hs None))) c1) as [c2 r2] eqn:E2.
  assert ((fun '(c, r) => (earlyUnkeyed c, r, (Ack (ClientTheorems.ex_ack (Some (MediaSecurity.ex_hs None))) c).2)) (Invite ex_opts ex_early_invite (new_client ex_early_conf)) =
    (true, Return tt, Return tt)) as H by (vm_compute; reflexivity).
  rewrite E1, E2 in H. injection H as H1 H2 H3. cbn [snd] in H3. subst r1 r2.
  destruct (early_answer_stands ex_early_conf ex_opts ex_early_invite _ c1 c2 eq_refl E1 H1 E2) as (r & body & s1 & s2 & s3 & s4 & port & offer & answer & _ & _ & _ & _ & _ & _ & _ & _ & _ & Hr & _ & _ & _ & Hs & _).
  exists c1, c2. split; [reflexivity|]. split; [exact H1|]. split; [exact E2|]. split; [exact Hr|exact Hs].
Defined.

End ClientEarly.
