(* ===== verification/RealTime.v ===== *)
(** * The realtime reader

    [media/rtp_realtime_reader.go]: frames read later than real time allows are
    dropped, judged by an anchor. A frame is a read of the reader below, with the
    clock before and after it and the header it left in the [RTPPacketReader]. *)
From S2P Require Import Prelude Codec.
Import Codecs.

Module RealTime.

Definition realTimeMinAllowance : Z := 40 * Millisecond.

(** [time.Time.Sub], which saturates. *)
Definition Sub (t u : Z) : Z := Z.max (- 2 ^ 63) (Z.min (2 ^ 63 - 1) (t - u)).

Record RTPRealTimeReader := {
  codec : Codec;
  anchored : bool;
  anchorTime : Z;
  anchorTS : Z;
  anchorSSRC : Z }.
#[export] Instance eta_realtime : Eta RTPRealTimeReader := fun r =>
  {| codec := codec r; anchored := anchored r; anchorTime := anchorTime r; anchorTS := anchorTS r; anchorSSRC := anchorSSRC r |}.

(** One read below: its start and end by the clock, the timestamp and the source of
    the packet it left, and its bytes or its error. *)
Record frame := { f_start : Z; f_now : Z; f_ts : Z; f_ssrc : Z; f_result : bytes + error }.

(** [None]: a codec without a sample duration panics. *)
Definition Init (c : Codec) : option RTPRealTimeReader :=
  if SampleDur c =? 0 then None else Some {| codec := c; anchored := false; anchorTime := time_zero; anchorTS := 0; anchorSSRC := 0 |}.

Definition Reset (r : RTPRealTimeReader) : RTPRealTimeReader := r <| anchored := false |>.

Definition anchor (now ts ssrc : Z) (r : RTPRealTimeReader) : RTPRealTimeReader :=
  r <| anchored := true |> <| anchorTime := now |> <| anchorTS := ts |> <| anchorSSRC := ssrc |>.

Definition sinceAnchor (ts : Z) (r : RTPRealTimeReader) : Z :=
  let samples := i32 (u32 (ts - anchorTS r)) in
  i64 (Z.quot (i64 (samples * Second)) (SampleRate (codec r))).

Definition allowance (r : RTPRealTimeReader) : Z := Z.max (i64 (2 * SampleDur (codec r))) realTimeMinAllowance.

Definition lateness (f : frame) (r : RTPRealTimeReader) : Z := i64 (Sub (f_now f) (anchorTime r) - sinceAnchor (f_ts f) r).

(** A division by the sample rate zero panics. *)
Inductive verdict := Hand (r : RTPRealTimeReader) | Skip | PanicRate.
Definition judge (f : frame) (r : RTPRealTimeReader) : verdict :=
  let anew := anchor (f_now f) (f_ts f) (f_ssrc f) r in
  if negb (anchored r) || negb (f_ssrc f =? anchorSSRC r) then Hand anew
  else if SampleRate (codec r) =? 0 then PanicRate
  else
    let late := lateness f r in
    if late <=? 0 then Hand anew
    else if late <=? allowance r then Hand r
    else if Z.quot (SampleDur (codec r)) 2 <=? Sub (f_now f) (f_start f) then Hand anew
    else Skip.

(** [Read] over the reads below, with those it leaves; [None]: it waits for more. *)
Inductive outcome := Got (p : bytes) | Failed (e : error) | Panicked.
Fixpoint Read (fs : list frame) (r : RTPRealTimeReader) : option (RTPRealTimeReader * outcome * list frame) :=
  match fs with
  | [] => None
  | f :: fs =>
    match f_result f with
    | inr e => Some (r, Failed e, fs)
    | inl p =>
      match judge f r with
      | Hand r => Some (r, Got p, fs)
      | Skip => Read fs r
      | PanicRate => Some (r, Panicked, fs)
      end
    end
  end.

(** ** What is handed on is in real time *)

(** A codec the times of the reader fit in. *)
Definition sane (c : Codec) : Prop := 0 < SampleRate c < 2 ^ 32 /\ 0 < SampleDur c < 2 ^ 61.

(** A clock that has not run for a hundred years. *)
Definition clocked (f : frame) : Prop := 0 <= f_start f <= f_now f /\ f_now f < 2 ^ 61 /\ 0 <= f_ts f < 2 ^ 32.

Lemma Sub_exact t u : 0 <= t < 2 ^ 61 -> 0 <= u < 2 ^ 61 -> Sub t u = t - u.
Proof. intros H1 H2. unfold Sub. lia. Qed.

Lemma sinceAnchor_exact ts r : sane (codec r) -> sinceAnchor ts r = Z.quot (i32 (u32 (ts - anchorTS r)) * Second) (SampleRate (codec r)) /\
  Z.abs (sinceAnchor ts r) <= 2 ^ 31 * Second.
Proof.
  intros [Hr _]. unfold sinceAnchor. cbv zeta. set (d := i32 (u32 (ts - anchorTS r))). assert (- 2 ^ 31 <= d < 2 ^ 31) as Hd by (unfold d; wrap_lia).
  clearbody d. assert (i64 (d * Second) = d * Second) as -> by (unfold i64, Second; rewrite Z.mod_small; lia).
  assert (Z.abs (Z.quot (d * Second) (SampleRate (codec r))) <= 2 ^ 31 * Second) as Hq.
  { rewrite <- Z.quot_abs by lia. rewrite Z.quot_div_nonneg by lia. rewrite (Z.abs_eq (SampleRate _)) by lia.
    transitivity (Z.abs (d * Second)); [apply Z.div_le_upper_bound; [lia|]; nia|]. unfold Second. lia. }
  assert (i64 (Z.quot (d * Second) (SampleRate (codec r))) = Z.quot (d * Second) (SampleRate (codec r))) as -> by (unfold i64, Second in *; rewrite Z.mod_small; lia).
  split; [done|exact Hq].
Qed.

(** The reader has a clock to judge by. *)
Definition judges (r : RTPRealTimeReader) : Prop := sane (codec r) /\ (anchored r = true -> 0 <= anchorTime r < 2 ^ 61).

Lemma lateness_exact f r : judges r -> clocked f -> anchored r = true -> lateness f r = f_now f - anchorTime r - sinceAnchor (f_ts f) r.
Proof.
  intros [Hs Ha] (Hn & Hc & _) Hr. specialize (Ha Hr). unfold lateness. rewrite Sub_exact by lia.
  destruct (sinceAnchor_exact (f_ts f) r Hs) as [_ H]. unfold i64. rewrite Z.mod_small; unfold Second in *; lia.
Qed.

(** Whether [f] was handed on as [r] has it: in time, or as the new anchor. *)
Lemma judge_spec f r : judges r -> clocked f ->
  match judge f r with
  | Hand r' => judges r' /\ codec r' = codec r /\ anchored r' = true /\ anchorSSRC r' = f_ssrc f /\ lateness f r' <= allowance r' /\ (r' = r \/ r' = anchor (f_now f) (f_ts f) (f_ssrc f) r)
  | Skip => anchored r = true /\ f_ssrc f = anchorSSRC r /\ allowance r < lateness f r /\ f_now f - f_start f < Z.quot (SampleDur (codec r)) 2
  | PanicRate => False
  end.
Proof.
  intros Hj Hf. pose proof Hj as [[Hr Hd] _]. pose proof Hf as (Hn & Hc & Ht). unfold judge. cbv zeta.
  assert (let r' := anchor (f_now f) (f_ts f) (f_ssrc f) r in
    judges r' /\ codec r' = codec r /\ anchored r' = true /\ anchorSSRC r' = f_ssrc f /\ lateness f r' <= allowance r' /\ (r' = r \/ r' = r')) as Hnew.
  { cbv zeta. assert (judges (anchor (f_now f) (f_ts f) (f_ssrc f) r)) as Hj' by (split; [exact (proj1 Hj)|intros _; cbn; lia]).
    split; [exact Hj'|]. split; [done|]. split; [done|]. split; [done|]. split; [|by right]. rewrite lateness_exact by done. cbn [anchorTime anchor field_update].
    destruct (sinceAnchor_exact (f_ts f) (anchor (f_now f) (f_ts f) (f_ssrc f) r) (proj1 Hj')) as [-> _]. cbn [anchorTS anchor field_update codec].
    rewrite !Z.sub_diag. change (i32 (u32 0)) with 0. cbn. unfold allowance, realTimeMinAllowance, Millisecond. lia. }
  cbv zeta in Hnew. destruct (anchored r) eqn:Ha; cbn [negb orb]; [|exact Hnew]. destruct (f_ssrc f =? anchorSSRC r) eqn:Es; cbn [negb]; [|exact Hnew].
  apply Z.eqb_eq in Es. rewrite (proj2 (Z.eqb_neq _ _)) by lia. destruct (lateness f r <=? 0); [exact Hnew|]. destruct (lateness f r <=? allowance r) eqn:El.
  - apply Z.leb_le in El. split_and!; try done. by left.
  - apply Z.leb_gt in El. rewrite Sub_exact by lia. destruct (Z.quot _ _ <=? _) eqn:Ew; [exact Hnew|]. apply Z.leb_gt in Ew. auto.
Qed.

(** A frame [Read] hands on is in real time: it was read no later after it was due
    than the allowance, measured from the anchor it leaves, which is of its stream.
    The frames passed over before it were of the stream of the anchor, later than the
    allowance, and waiting to be read; a frame the read waited for is never dropped. *)
Theorem delivered_in_real_time fs r r' p rest : judges r -> Forall clocked fs -> Read fs r = Some (r', Got p, rest) ->
  exists skipped f, fs = skipped ++ f :: rest /\ f_result f = inl p /\ judges r' /\ anchored r' = true /\ anchorSSRC r' = f_ssrc f /\ lateness f r' <= allowance r' /\
    Forall (fun g => anchored r = true /\ f_ssrc g = anchorSSRC r /\ allowance r < lateness g r /\ f_now g - f_start g < Z.quot (SampleDur (codec r)) 2) skipped /\
    (r' = r \/ r' = anchor (f_now f) (f_ts f) (f_ssrc f) r).
Proof.
  intros Hj. revert rest. induction fs as [|f fs IH]; intros rest Hc; cbn [Read]; [done|]. apply Forall_cons in Hc as [Hf Hc].
  destruct (f_result f) as [q|e] eqn:Eq; [|done]. pose proof (judge_spec f r Hj Hf) as H. destruct (judge f r) as [r2| |].
  - intros [= <- <- <-]. destruct H as (H1 & H2 & H3 & H4 & H5 & H6). exists [], f. split_and!; try done.
  - intros E. destruct (IH rest Hc E) as (sk & g & -> & H'). exists (f :: sk), g. split; [done|]. destruct H' as (G1 & G2 & G3 & G4 & G5 & G6 & G7). split_and!; try done. by constructor.
  - done.
Qed.

(** ** A stream that keeps its pace *)

(** The frames handed on until a read would wait. *)
Fixpoint ReadAll (n : nat) (fs : list frame) (r : RTPRealTimeReader) : list bytes :=
  match n with
  | O => []
  | S n => match Read fs r with Some (r, Got p, fs) => p :: ReadAll n fs r | _ => [] end
  end.

(** The frames of one stream, each with its place in it: it was read at most [w] later
    than the earliest of them, for its place. *)
Record paced (c : Codec) (w base ssrc : Z) (l : list (frame * Z)) : Prop := {
  pc_clock f pos : (f, pos) ∈ l -> clocked f /\ f_ssrc f = ssrc /\ f_ts f = u32 pos;
  pc_transit f pos : (f, pos) ∈ l -> 0 <= (f_now f - base) * SampleRate c - pos * Second <= w * SampleRate c;
  pc_span f pos g pos' : (f, pos) ∈ l -> (g, pos') ∈ l -> Z.abs (pos - pos') < 2 ^ 31 }.

Lemma since_position pos pos' : Z.abs (pos - pos') < 2 ^ 31 -> i32 (u32 (u32 pos - u32 pos')) = pos - pos'.
Proof.
  intros H. assert (u32 (u32 pos - u32 pos') = u32 (pos - pos')) as -> by (unfold u32; rewrite <- Zminus_mod; done).
  unfold i32, u32. rewrite Zplus_mod_idemp_l. rewrite Z.mod_small; lia.
Qed.

(** A reader of frames of one stream that come at the pace of their timestamps,
    give or take no more than the allowance, hands every one of them on, in order. *)
Theorem paced_stream_delivered c r w base ssrc l : Init c = Some r -> sane c -> 0 <= w <= allowance r -> paced c w base ssrc l ->
  forall ps, f_result ∘ fst <$> l = inl <$> ps -> ReadAll (length l) (fst <$> l) r = ps.
Proof.
  intros Hi Hs Hw Hl. assert (codec r = c /\ anchored r = false) as [Hc Ha].
  { unfold Init in Hi. destruct (SampleDur c =? 0); [done|]. injection Hi as <-. done. }
  assert (forall l' r', l' ⊆ l -> judges r' -> codec r' = c -> (anchored r' = true -> exists f pos, (f, pos) ∈ l /\ anchorTime r' = f_now f /\ anchorTS r' = u32 pos) ->
    forall ps, f_result ∘ fst <$> l' = inl <$> ps -> ReadAll (length l') (fst <$> l') r' = ps) as H.
  { induction l' as [|[f pos] l' IH]; intros r' Hin Hj Hcr Han ps Hps; destruct ps as [|q ps]; try done. cbn in Hps. injection Hps as Hq Hps.
    cbn [length fmap list_fmap fst ReadAll Read]. rewrite Hq.
    assert ((f, pos) ∈ l) as Hf by (apply Hin; by left). destruct (pc_clock _ _ _ _ _ Hl f pos Hf) as (Hcl & _ & Hts).
    pose proof (judge_spec f r' Hj Hcl) as H.
    assert (judge f r' <> Skip) as Hns.
    { intros Ej. rewrite Ej in H. destruct H as (Hr & _ & Hlate & _). rewrite lateness_exact in Hlate by done. destruct (Han Hr) as (g & pos' & Hg & Ht & Hts').
      destruct (sinceAnchor_exact (f_ts f) r' (proj1 Hj)) as [Hsa _]. rewrite Hsa, Hts, Hts', Ht, Hcr, since_position in Hlate by (by eapply pc_span).
      pose proof (pc_transit _ _ _ _ _ Hl f pos Hf) as H1. pose proof (pc_transit _ _ _ _ _ Hl g pos' Hg) as H2.
      assert (allowance r' = allowance r) as Hal by (unfold allowance; by rewrite Hc, Hcr). rewrite Hal in Hlate.
      destruct Hs as [Hr0 _]. pose proof (Z.quot_rem' ((pos - pos') * Second) (SampleRate c)) as Hqr. pose proof (Z.rem_bound_abs ((pos - pos') * Second) (SampleRate c)) as Hb. nia. }
    destruct (judge f r') as [r2| |]; [|done..]. destruct H as (H1 & H2 & _ & _ & _ & H3). f_equal. apply IH; [|done|congruence| |done].
    - intros x Hx. apply Hin. by right.
    - destruct H3 as [->| ->]; [done|]. intros _. by exists f, pos. }
  apply H; [done| |done|]; [split; [by rewrite Hc|]|]; rewrite Ha; done.
Qed.

(** ** A consumer that falls behind

    Of five frames of 20 ms the last four are read at once, 100 ms late: the reader
    skips to the last. *)
Definition ex_frame (i start now : Z) : frame := {| f_start := start * Millisecond; f_now := now * Millisecond; f_ts := u32 (2 ^ 32 - 160 + 160 * i); f_ssrc := 7; f_result := inl [i] |}.
Definition ex_reader : RTPRealTimeReader := {| codec := CodecAudioUlaw; anchored := false; anchorTime := 0; anchorTS := 0; anchorSSRC := 0 |}.
Definition ex_behind : RTPRealTimeReader := match Read [ex_frame 0 990 1000] ex_reader with Some (r, _, _) => r | None => ex_reader end.
Definition ex_late : list frame := [ex_frame 1 1150 1150; ex_frame 2 1150 1150; ex_frame 3 1150 1150; ex_frame 6 1150 1150].

Lemma ex_sane : sane CodecAudioUlaw.
Proof. vm_compute. split; split; intros; congruence. Qed.
Lemma ex_clocked i start now : 0 <= start <= now -> now < 1000000 -> clocked (ex_frame i start now).
Proof. intros H1 H2. split; [cbn; unfold Millisecond; lia|]. split; [cbn; unfold Millisecond; lia|]. cbn. wrap_lia. Qed.

Lemma delivered_in_real_time_witness : exists r', Read ex_late ex_behind = Some (r', Got [6], []) /\ lateness (ex_frame 6 1150 1150) r' <= allowance r'.
Proof.
  eexists. assert (Read ex_late ex_behind = Some (ex_behind, Got [6], [])) as E by (vm_compute; reflexivity). split; [exact E|].
  destruct (delivered_in_real_time ex_late ex_behind ex_behind [6] []) as (sk & f & Hl & Hf & _ & _ & _ & H & _); [|repeat constructor; apply ex_clocked; lia|exact E|].
  - split; [exact ex_sane|]. intros _. vm_compute. split; congruence.
  - assert (f = ex_frame 6 1150 1150) as ->; [|exact H].
    pose proof (f_equal last Hl) as Hlast. rewrite last_snoc in Hlast. vm_compute in Hlast. injection Hlast as <-. reflexivity.
Defined.

Definition ex_paced : list (frame * Z) := [(ex_frame 0 980 1000, 2 ^ 32 - 160); (ex_frame 1 1000 1040, 2 ^ 32); (ex_frame 2 1040 1041, 2 ^ 32 + 160)].
Lemma ex_paced_elem x : x ∈ ex_paced -> x = (ex_frame 0 980 1000, 2 ^ 32 - 160) \/ x = (ex_frame 1 1000 1040, 2 ^ 32) \/ x = (ex_frame 2 1040 1041, 2 ^ 32 + 160).
Proof. intros H. apply list_elem_of_In in H. destruct H as [<-|[<-|[<-|[]]]]; auto. Qed.
Lemma paced_stream_delivered_witness : ReadAll 3 (fst <$> ex_paced) ex_reader = [[0]; [1]; [2]].
Proof.
  apply (paced_stream_delivered CodecAudioUlaw ex_reader (20 * Millisecond) (1000 * Millisecond - (2 ^ 32 - 160) * 125000) 7 ex_paced); [reflexivity|exact ex_sane|vm_compute; split; congruence| |reflexivity].
  split.
  - intros f pos Hin. destruct (ex_paced_elem _ Hin) as [E|[E|E]]; injection E as -> ->; (split; [apply ex_clocked; lia|split; reflexivity]).
  - intros f pos Hin. destruct (ex_paced_elem _ Hin) as [E|[E|E]]; injection E as -> ->; vm_compute; split; congruence.
  - intros f pos g pos' H1 H2. destruct (ex_paced_elem _ H1) as [E|[E|E]]; injection E as -> ->; destruct (ex_paced_elem _ H2) as [E|[E|E]]; injection E as -> ->; vm_compute; reflexivity.
Defined.

End RealTime.
