(* ===== verification/PcmCoding.v ===== *)
(** * Coding of PCM audio

    [audio/g711.go] and [audio/pcm_encoder.go]: the loops over the frames of G.711,
    whose codec is an argument, the choice of a coder by the name of a codec, and the
    readers and writers that code what passes through them. Opus is that of a build
    without the C library, [audio/opus.go]. *)
From S2P Require Import Prelude GoStrings Codec Pcm.
Import GoStrings Codecs.

Module PcmCoding.

Definition RTPBufSize : nat := 1500.

Section Coding.
Context (EncodeUlawFrame EncodeAlawFrame DecodeUlawFrame DecodeAlawFrame : Z -> Z).

(** ** G.711 *)

(** The samples of [lpcm], a last odd byte left. *)
Definition encode_frames (enc : Z -> Z) (lpcm : bytes) : bytes := u8 ∘ enc <$> Pcm.samples lpcm.
Fixpoint decode_frames (dec : Z -> Z) (encoded : bytes) : bytes :=
  match encoded with
  | [] => []
  | b :: encoded => Pcm.low (dec b) :: Pcm.high (dec b) :: decode_frames dec encoded
  end.

(** [size]: of the buffer written to; the bytes written at its start. *)
Definition EncodeUlawTo (size : nat) (lpcm : bytes) : bytes + error :=
  if (size * 2 <? length lpcm)%nat then inr io_ErrShortBuffer else inl (encode_frames EncodeUlawFrame lpcm).
Definition EncodeAlawTo (size : nat) (lpcm : bytes) : bytes + error :=
  if (size * 2 <? length lpcm)%nat then inr io_ErrShortBuffer else inl (encode_frames EncodeAlawFrame lpcm).
Definition DecodeUlawTo (size : nat) (ulaw : bytes) : bytes + error :=
  if (size <? 2 * length ulaw)%nat then inr io_ErrShortBuffer else inl (decode_frames DecodeUlawFrame ulaw).
Definition DecodeAlawTo (size : nat) (alaw : bytes) : bytes + error :=
  if (size <? 2 * length alaw)%nat then inr io_ErrShortBuffer else inl (decode_frames DecodeAlawFrame alaw).

(** ** Coders *)

Definition codecIs (codec want : Codec) : bool := EqualFold (Name codec) (Name want).

Definition coder : Type := nat -> bytes -> bytes + error.
Definition PCMDecoder_Init (codec : Codec) : coder + error :=
  if codecIs codec CodecAudioUlaw then inl DecodeUlawTo
  else if codecIs codec CodecAudioAlaw then inl DecodeAlawTo
  else if codecIs codec CodecAudioOpus then inr (ErrWrap "failed to create opus decoder" (ErrNew "Use with_opus_c tag to compile opus decoder"))
  else inr (ErrNew ("not supported codec " +:+ Name codec)).
Definition PCMEncoder_Init (codec : Codec) : coder + error :=
  if codecIs codec CodecAudioUlaw then inl EncodeUlawTo
  else if codecIs codec CodecAudioAlaw then inl EncodeAlawTo
  else if codecIs codec CodecAudioOpus then inr (ErrWrap "failed to create opus decoder" (ErrNew "Use with_opus_c tag to compile opus encoder"))
  else inr (ErrNew ("not supported codec " +:+ Name codec)).

(** [PCMDecoderReader.Read] into a buffer of [size] bytes; [src]: the read below. *)
Definition PCMDecoderReader_Read (DecoderTo : coder) (src : bytes + error) (size : nat) : bytes + error :=
  match src with inr e => inr e | inl encoded => DecoderTo size encoded end.

(** [PCMDecoderWriter.Write] over a buffer of [size] bytes, with what the writer below
    takes of each call; it is given all of the samples on every call. *)
Fixpoint write_all (calls : list (nat + error)) (nn : nat) (lpcm out : bytes) : option (bytes * option error) :=
  if (length lpcm <=? nn)%nat then Some (out, None)
  else match calls with
  | [] => None
  | inr e :: _ => Some (out, Some e)
  | inl n :: calls => write_all calls (nn + n) lpcm (out ++ take n lpcm)
  end.
Definition PCMDecoderWriter_Write (DecoderTo : coder) (size : nat) (calls : list (nat + error)) (b out : bytes) : option (bytes * (Z + error)) :=
  match DecoderTo size b with
  | inr e => Some (out, inr e)
  | inl lpcm => (fun '(out, err) => (out, match err with Some e => inr e | None => inl (len b) end)) <$> write_all calls 0 lpcm out
  end.

(** [PCMDecoderBuffer]: a write and what [ReadFull] takes of it; a [bytes.Buffer]
    takes all it is given. *)
Definition PCMDecoderBuffer_decode (DecoderTo : coder) (b : bytes) : bytes + error := DecoderTo RTPBufSize b.

(** [PCMEncoderWriter.Write] over a buffer of [size] bytes; [call]: what the writer
    below takes. *)
Definition PCMEncoderWriter_Write (EncoderTo : coder) (size : nat) (call : nat -> nat + error) (lpcm out : bytes) : bytes * (Z + error) :=
  match EncoderTo size lpcm with
  | inr e => (out, inr e)
  | inl encoded =>
    match call (length encoded) with
    | inr e => (out, inr e)
    | inl nn => (out ++ take nn encoded, if (nn =? length encoded)%nat then inl (len lpcm) else inr io_ErrShortWrite)
    end
  end.

(** ** Lemmas *)

Lemma decode_length dec b : length (decode_frames dec b) = (2 * length b)%nat.
Proof. induction b as [|x b IH]; cbn; lia. Qed.

Lemma decode_buffer_whole DecoderTo codec b p : PCMDecoder_Init codec = inl DecoderTo -> PCMDecoderBuffer_decode DecoderTo b = inl p -> length p = (2 * length b)%nat.
Proof.
  unfold PCMDecoder_Init. destruct (codecIs _ _); [|destruct (codecIs _ _); [|by destruct (codecIs _ _)]]; intros [= <-];
    unfold PCMDecoderBuffer_decode, DecodeUlawTo, DecodeAlawTo; destruct (_ <? _)%nat; try done; intros [= <-]; apply decode_length.
Qed.

(** A G.711 encoder in front of its decoder hands each sample on as the codec has it. *)
Lemma coded_samples enc dec lpcm : (forall v, -32768 <= dec (u8 (enc v)) < 32768) ->
  Pcm.samples (decode_frames dec (encode_frames enc lpcm)) = (fun v => dec (u8 (enc v))) <$> Pcm.samples lpcm.
Proof.
  intros Hr. unfold encode_frames. induction (Pcm.samples lpcm) as [|v l IH]; [done|]. cbn [fmap list_fmap decode_frames Pcm.samples]. rewrite IH. f_equal.
  specialize (Hr v). unfold compose, Pcm.sample, Pcm.low, Pcm.high. generalize dependent (dec (u8 (enc v))). intros w Hw. rewrite Z.shiftr_div_pow2 by lia. wrap_unfold. lia.
Qed.

End Coding.
End PcmCoding.
