(* ===== verification/Wav.v ===== *)
(** * WAV files

    [audio/wav.go] and [audio/wav_writer.go]: the header of a file and the writer that
    streams audio into one and sets the sizes in its header when it is closed. *)
From S2P Require Import Prelude.

Module Wav.

(** [binary.LittleEndian.PutUint16] and [PutUint32]. *)
Fixpoint le_bytes (n : nat) (x : Z) : bytes := match n with O => [] | S n => u8 x :: le_bytes n (x / 256) end.
Definition ascii_bytes (s : string) : bytes := (fun c => Z.of_N (Ascii.N_of_ascii c)) <$> String.list_ascii_of_string s.

Record WavWriteOpts := { SampleRate : Z; BitDepth : Z; NumChans : Z; AudioFormat : Z }.

Definition headerSize : Z := 44.
Definition fmtChunkSize : Z := 16.

(** The header of a file of [dataSize] bytes of audio; a Go [int] has 64 bits. *)
Definition header (o : WavWriteOpts) (dataSize : Z) : bytes :=
  ascii_bytes "RIFF" ++ le_bytes 4 (u32 (dataSize + headerSize - 8)) ++ ascii_bytes "WAVE" ++
  ascii_bytes "fmt " ++ le_bytes 4 fmtChunkSize ++ le_bytes 2 (u16 (AudioFormat o)) ++ le_bytes 2 (u16 (NumChans o)) ++
  le_bytes 4 (u32 (SampleRate o)) ++ le_bytes 4 (u32 (Z.quot (i64 (SampleRate o * BitDepth o * NumChans o)) 8)) ++
  le_bytes 2 (u16 (Z.quot (i64 (BitDepth o * NumChans o)) 8)) ++ le_bytes 2 (u16 (BitDepth o)) ++
  ascii_bytes "data" ++ le_bytes 4 (u32 dataSize).

(** ** Writing to a file

    A call of [Write] takes all it is given ([None]), or the first bytes and an error. *)
Definition taken (o : option (nat * error)) (p : bytes) : bytes := match o with Some (n, _) => take n p | None => p end.

(** [WavWrite]: every call is given the whole file. *)
Fixpoint write_loop (calls : list (option (nat * error))) (N : nat) (file out : bytes) : option (bytes * option error) :=
  if (length file <=? N)%nat then Some (out, None)
  else match calls with
  | [] => None
  | Some (n, e) :: _ => Some (out ++ take n file, Some e)
  | None :: calls => write_loop calls (N + length file) file (out ++ file)
  end.
Definition WavWrite (calls : list (option (nat * error))) (audio : bytes) (o : WavWriteOpts) : option (bytes * (Z + error)) :=
  let wavFile := header o (len audio) ++ audio in
  match write_loop calls 0 wavFile [] with
  | Some (out, None) => Some (out, inl (len wavFile))
  | Some (out, Some e) => Some (out, inr e)
  | None => None
  end.
Definition WavWriteVoipPCM (calls : list (option (nat * error))) (audio : bytes) :=
  WavWrite calls audio {| AudioFormat := 1; BitDepth := 16; NumChans := 1; SampleRate := 8000 |}.

(** The file of an [io.WriteSeeker]: a write goes where the position is. *)
Record file := { f_bytes : bytes; f_pos : nat }.
Definition write (o : option (nat * error)) (p : bytes) (f : file) : file * Z * option error :=
  let q := taken o p in
  ({| f_bytes := take (f_pos f) (f_bytes f ++ replicate (f_pos f - length (f_bytes f)) 0) ++ q ++ drop (f_pos f + length q) (f_bytes f); f_pos := f_pos f + length q |},
   len q, match o with Some (_, e) => Some e | None => None end).

Record WavWriter := { opts : WavWriteOpts; W : file; headersWritten : bool; dataSize : Z }.
#[export] Instance eta_wavwriter : Eta WavWriter := fun w => {| opts := opts w; W := W w; headersWritten := headersWritten w; dataSize := dataSize w |}.

Definition NewWavWriter (f : file) : WavWriter :=
  {| opts := {| SampleRate := 8000; BitDepth := 16; NumChans := 2; AudioFormat := 1 |}; W := f; headersWritten := false; dataSize := 0 |}.

(** What the file does with a write of the header and of audio. *)
Record io_env := { e_header : option (nat * error); e_data : option (nat * error) }.

Definition writeHeader (o : option (nat * error)) (w : WavWriter) : WavWriter * option error :=
  let '(f, _, err) := write o (header (opts w) (dataSize w)) (W w) in (w <| W := f |>, err).

Definition writeData (e : io_env) (audio : bytes) (w : WavWriter) : WavWriter * Z * option error :=
  let put w := let '(f, n, err) := write (e_data e) audio (W w) in (w <| W := f |>, n, err) in
  if headersWritten w then put w
  else match writeHeader (e_header e) w with
  | (w, Some err) => (w, 0, Some err)
  | (w, None) => put (w <| headersWritten := true |>)
  end.

Definition Write (e : io_env) (audio : bytes) (w : WavWriter) : WavWriter * Z * option error :=
  let '(w, n, err) := writeData e audio w in (w <| dataSize := i64 (dataSize w + n) |>, n, err).

(** [seek]: the error of [Seek(0, 0)]. *)
Definition Close (seek : option error) (o : option (nat * error)) (w : WavWriter) : WavWriter * option error :=
  match seek with
  | Some e => (w, Some e)
  | None => writeHeader o (w <| W := {| f_bytes := f_bytes (W w); f_pos := 0 |} |>)
  end.

(** ** Reading a file back

    What a reader of the format takes from a file: the fields of its fmt chunk and the
    audio of its data chunk. *)
Definition get (n : nat) (b : bytes) : option (Z * bytes) :=
  if (n <=? length b)%nat then Some (foldr (fun x acc => x + 256 * acc) 0 (take n b), drop n b) else None.
Definition tag (s : string) (b : bytes) : option bytes :=
  let t := ascii_bytes s in if bool_decide (take (length t) b = t) then Some (drop (length t) b) else None.
Definition parse (b : bytes) : option (WavWriteOpts * bytes) :=
  b ← tag "RIFF" b; '(size, b) ← get 4 b; if negb (size =? len b) then None else
  b ← tag "WAVE" b; b ← tag "fmt " b; '(fmtSize, b) ← get 4 b; if negb (fmtSize =? 16) then None else
  '(fmt, b) ← get 2 b; '(chans, b) ← get 2 b; '(rate, b) ← get 4 b; '(byteRate, b) ← get 4 b; '(align, b) ← get 2 b; '(bits, b) ← get 2 b;
  if negb ((byteRate =? rate * bits * chans / 8) && (align =? bits * chans / 8)) then None else
  b ← tag "data" b; '(size, b) ← get 4 b;
  if negb (size =? len b) then None else Some ({| SampleRate := rate; BitDepth := bits; NumChans := chans; AudioFormat := fmt |}, b).

Lemma le_bytes_length n x : length (le_bytes n x) = n.
Proof. revert x. induction n as [|n IH]; intros x; cbn; auto. Qed.

Lemma le_bytes_value n x : 0 <= x < 256 ^ Z.of_nat n -> foldr (fun x acc => x + 256 * acc) 0 (le_bytes n x) = x.
Proof.
  revert x. induction n as [|n IH]; intros x Hx; cbn [le_bytes foldr].
  - change (256 ^ Z.of_nat 0) with 1 in Hx. lia.
  - rewrite Nat2Z.inj_succ, Z.pow_succ_r in Hx by lia. rewrite IH by (split; [|apply Z.div_lt_upper_bound]; lia). unfold u8. pose proof (Z.div_mod x 256). lia.
Qed.

Lemma get_le n x b : 0 <= x < 256 ^ Z.of_nat n -> get n (le_bytes n x ++ b) = Some (x, b).
Proof.
  intros Hx. unfold get. rewrite length_app, le_bytes_length. rewrite (proj2 (Nat.leb_le _ _)) by lia.
  rewrite take_app_length', drop_app_length' by (symmetry; apply le_bytes_length). by rewrite le_bytes_value.
Qed.

Lemma tag_app s b : tag s (ascii_bytes s ++ b) = Some b.
Proof. unfold tag. rewrite take_app_length, bool_decide_true, drop_app_length by done. done. Qed.

(** Options that a header can hold. *)
Definition fits (o : WavWriteOpts) : Prop :=
  0 <= AudioFormat o < 2 ^ 16 /\ 0 <= NumChans o < 2 ^ 16 /\ 0 <= SampleRate o < 2 ^ 32 /\ 0 <= BitDepth o < 2 ^ 16 /\
  BitDepth o * NumChans o / 8 < 2 ^ 16 /\ SampleRate o * BitDepth o * NumChans o / 8 < 2 ^ 32.

Lemma header_parses o data : fits o -> len data + 36 < 2 ^ 32 -> parse (header o (len data) ++ data) = Some (o, data).
Proof.
  intros (H1 & H2 & H3 & H4 & H5 & H6) Hd. pose proof (len_nonneg data) as Hl.
  assert (i64 (SampleRate o * BitDepth o * NumChans o) = SampleRate o * BitDepth o * NumChans o /\ i64 (BitDepth o * NumChans o) = BitDepth o * NumChans o) as [E1 E2].
  { assert (0 <= BitDepth o * NumChans o < 2 ^ 32) by nia. assert (0 <= SampleRate o * BitDepth o * NumChans o < 2 ^ 63).
    { split; [nia|]. enough (SampleRate o * BitDepth o * NumChans o < 8 * 2 ^ 32) by lia. pose proof (Z.div_mod (SampleRate o * BitDepth o * NumChans o) 8). pose proof (Z.mod_pos_bound (SampleRate o * BitDepth o * NumChans o) 8). lia. }
    unfold i64. rewrite !Z.mod_small by lia. lia. }
  unfold header. rewrite E1, E2, !Z.quot_div_nonneg by nia. unfold u16, u32, headerSize, fmtChunkSize.
  rewrite !Z.mod_small by (try (split; [apply Z.div_pos|]); nia).
  set (br := SampleRate o * BitDepth o * NumChans o / 8) in *. set (al := BitDepth o * NumChans o / 8) in *.
  assert (0 <= br) by (apply Z.div_pos; nia). assert (0 <= al) by (apply Z.div_pos; nia).
  unfold parse. rewrite <- !app_assoc. rewrite tag_app. cbn [mbind option_bind]. rewrite get_le by (change (256 ^ Z.of_nat 4) with (2 ^ 32); lia). cbn [mbind option_bind].
  match goal with |- context [negb (?x =? len ?b)] => assert (x = len b) as Hs by (rewrite !len_app; unfold len; rewrite !le_bytes_length; cbn [length ascii_bytes fmap list_fmap String.list_ascii_of_string]; lia); rewrite <- Hs, Z.eqb_refl end.
  cbn [negb]. rewrite tag_app. cbn [mbind option_bind]. rewrite tag_app. cbn [mbind option_bind]. rewrite get_le by done. cbn [mbind option_bind]. rewrite Z.eqb_refl. cbn [negb].
  do 6 (rewrite get_le by (change (256 ^ Z.of_nat 2) with (2 ^ 16) || change (256 ^ Z.of_nat 4) with (2 ^ 32); lia); cbn [mbind option_bind]).
  fold br al. rewrite !Z.eqb_refl. cbn [andb negb]. rewrite tag_app. cbn [mbind option_bind]. rewrite get_le by (change (256 ^ Z.of_nat 4) with (2 ^ 32); lia). cbn [mbind option_bind].
  rewrite Z.eqb_refl. cbn [negb]. by destruct o.
Qed.

(** ** The writer *)

Definition writes (l : list (io_env * bytes)) (w : WavWriter) : WavWriter := foldl (fun w '(e, audio) => (Write e audio w).1.1) w l.
(** The audio the file took. *)
Definition recorded (l : list (io_env * bytes)) : bytes := concat ((fun '(e, audio) => taken (e_data e) audio) <$> l).

Lemma header_length o n : length (header o n) = 44%nat.
Proof. unfold header. rewrite !length_app, !le_bytes_length. done. Qed.

Lemma write_end p o b : write o p {| f_bytes := b; f_pos := length b |} =
  ({| f_bytes := b ++ taken o p; f_pos := length (b ++ taken o p) |}, len (taken o p), match o with Some (_, e) => Some e | None => None end).
Proof.
  unfold write. cbn [f_pos f_bytes]. rewrite Nat.sub_diag. cbn [replicate]. rewrite app_nil_r, firstn_all, drop_ge by lia. by rewrite app_nil_r, length_app.
Qed.

(** After the header, the audio; and its size. *)
Definition streams (o : WavWriteOpts) (data : bytes) (w : WavWriter) : Prop :=
  opts w = o /\ dataSize w = len data /\
  if headersWritten w then W w = {| f_bytes := header o 0 ++ data; f_pos := length (header o 0 ++ data) |}
  else data = [] /\ W w = {| f_bytes := []; f_pos := 0 |}.

Lemma Write_streams o data w e audio : streams o data w -> e_header e = None -> len (data ++ taken (e_data e) audio) < 2 ^ 32 ->
  streams o (data ++ taken (e_data e) audio) (Write e audio w).1.1.
Proof.
  intros (Ho & Hd & HW) He Hl. destruct w as [wo f hw ds]. cbn in Ho, Hd, HW. subst wo ds.
  pose proof (len_nonneg data). pose proof (len_nonneg (taken (e_data e) audio)). rewrite len_app in Hl.
  assert (i64 (len data + len (taken (e_data e) audio)) = len data + len (taken (e_data e) audio)) as Hi by (unfold i64; rewrite Z.mod_small; lia).
  assert (forall b, f = {| f_bytes := b; f_pos := length b |} -> b = header o 0 ++ data ->
    streams o (data ++ taken (e_data e) audio) {| opts := o; W := (write (e_data e) audio f).1.1; headersWritten := true; dataSize := i64 (len data + (write (e_data e) audio f).1.2) |}) as HS.
  { intros b -> Hb. rewrite write_end. cbn [fst snd]. split; [done|]. split; [by rewrite len_app|]. cbn [headersWritten W]. by rewrite Hb, <- app_assoc. }
  unfold Write, writeData, writeHeader. cbn [headersWritten opts dataSize W field_update eta_wavwriter]. destruct hw.
  - specialize (HS _ HW eq_refl). destruct (write (e_data e) audio f) as [[f' n] err]. exact HS.
  - destruct HW as [-> ->]. rewrite He. change {| f_bytes := []; f_pos := 0 |} with {| f_bytes := []; f_pos := length (@nil Z) |}. rewrite write_end.
    cbn [taken app]. change (len (@nil Z)) with 0 in *. cbn [headersWritten opts dataSize W field_update eta_wavwriter].
    rewrite write_end. cbn [fst snd]. split; [done|]. split; [exact Hi|]. done.
Qed.

Lemma writes_streams o l data w : streams o data w -> Forall (fun x => e_header x.1 = None) l -> len (data ++ recorded l) < 2 ^ 32 -> streams o (data ++ recorded l) (writes l w).
Proof.
  unfold writes, recorded. revert data w. induction l as [|[e a] l IH]; intros data w Hs Hf Hl; cbn [fmap list_fmap concat foldl] in *; [by rewrite app_nil_r|].
  apply Forall_cons in Hf as [He Hf]. rewrite app_assoc in *. apply IH; [|done|done]. apply Write_streams; [done|done|]. rewrite len_app in Hl. pose proof (len_nonneg (concat ((fun '(e, a) => taken (e_data e) a) <$> l))). lia.
Qed.

(** Whatever audio is streamed into a new file, also by writes that the file took
    only a part of, a reader of the file after [Close] finds its format and exactly the
    audio the file took, in order; also when nothing was written. *)
Theorem wav_reads_back o l w : fits o -> Forall (fun x => e_header x.1 = None) l -> len (recorded l) + 36 < 2 ^ 32 ->
  Close None None (writes l (NewWavWriter {| f_bytes := []; f_pos := 0 |} <| opts := o |>)) = (w, None) ->
  parse (f_bytes (W w)) = Some (o, recorded l).
Proof.
  intros Ho Hf Hl Hc. pose proof (writes_streams o l [] (NewWavWriter {| f_bytes := []; f_pos := 0 |} <| opts := o |>) (conj eq_refl (conj eq_refl (conj eq_refl eq_refl))) Hf ltac:(cbn; lia)) as (Hwo & Hd & HW).
  cbn [app] in *. set (w1 := writes l _) in *. clearbody w1. unfold Close, writeHeader in Hc. cbn [opts dataSize W field_update eta_wavwriter] in Hc. rewrite Hwo, Hd in Hc.
  assert (f_bytes (write None (header o (len (recorded l))) {| f_bytes := f_bytes (W w1); f_pos := 0 |}).1.1 = header o (len (recorded l)) ++ recorded l) as Hb.
  { unfold write. cbn [fst f_bytes f_pos taken take Nat.sub replicate app]. rewrite take_0. cbn [app]. rewrite Nat.add_0_l, header_length. f_equal. destruct (headersWritten w1).
    - rewrite HW. cbn [f_bytes]. rewrite drop_app_length' by (by rewrite header_length). done.
    - destruct HW as [-> ->]. done. }
  destruct (write None _ _) as [[f n] err]. injection Hc as <- ->. cbn in Hb |- *. rewrite Hb. by apply header_parses.
Qed.

(** Three writes, of which the file took only half of the second. *)
Definition ex_opts : WavWriteOpts := {| SampleRate := 8000; BitDepth := 16; NumChans := 2; AudioFormat := 1 |}.
Definition ex_io (o : option (nat * error)) : io_env := {| e_header := None; e_data := o |}.
Definition ex_writes : list (io_env * bytes) := [(ex_io None, [1; 2; 3; 4]); (ex_io (Some (2%nat, io_ErrShortWrite)), [5; 6; 7; 8]); (ex_io None, [9; 10])].
Lemma wav_reads_back_witness : exists w, Close None None (writes ex_writes (NewWavWriter {| f_bytes := []; f_pos := 0 |} <| opts := ex_opts |>)) = (w, None) /\
  parse (f_bytes (W w)) = Some (ex_opts, [1; 2; 3; 4; 5; 6; 9; 10]).
Proof.
  eexists. split; [reflexivity|]. apply (wav_reads_back ex_opts ex_writes); [|repeat constructor|vm_compute; reflexivity|reflexivity].
  unfold fits. cbn. repeat split; lia || (vm_compute; reflexivity).
Defined.

End Wav.
