(* ===== verification/Recorder.v ===== *)
(** * Recording a call

    [audio/monitor_pcm.go]: what is read from and written to a call is decoded and
    kept as PCM, with silence for the time in which nothing came, each direction in a
    file of its own, behind the buffered writer of [bufio]; when the recording is
    closed the two files are interleaved as the channels of one. Files fail as they
    like: what their writes and reads come to is given. *)
From S2P Require Import Prelude GoStrings Float64 Codec Pcm PcmCoding.
Import GoStrings.

Module Recorder.
Import Codecs.

(** ** Files and buffered writers *)

(** A file written to: [outcome n] is what its [n]th write comes to, all of it or some
    bytes and an error. *)
Record osFile := { data : bytes; writes : nat; outcome : nat -> option (nat * error) }.
#[export] Instance eta_osFile : Eta osFile := fun f => {| data := data f; writes := writes f; outcome := outcome f |}.
Definition new_file (o : nat -> option (nat * error)) : osFile := {| data := []; writes := 0; outcome := o |}.

Definition file_Write (p : bytes) (f : osFile) : osFile * nat * option error :=
  let took n := f <| data := data f ++ take n p |> <| writes := Datatypes.S (writes f) |> in
  match outcome f (writes f) with
  | None => (took (length p), length p, None)
  | Some (k, e) => let n := Nat.min k (length p) in (took n, n, Some e)
  end.

(** [bufio.Writer]: an error stays, and everything after it fails. *)
Record bufioWriter := { wr : osFile; buf : bytes; size : nat; berr : option error }.
#[export] Instance eta_bufio : Eta bufioWriter := fun b => {| wr := wr b; buf := buf b; size := size b; berr := berr b |}.
Definition NewWriterSize (f : osFile) (n : Z) : bufioWriter :=
  {| wr := f; buf := []; size := if n <=? 0 then 4096%nat else Z.to_nat n; berr := None |}.

Definition bufio_Flush (b : bufioWriter) : bufioWriter * option error :=
  match berr b, buf b with
  | Some e, _ => (b, Some e)
  | None, [] => (b, None)
  | None, _ =>
    match file_Write (buf b) (wr b) with
    | (f, n, Some e) => (b <| wr := f |> <| buf := drop n (buf b) |> <| berr := Some e |>, Some e)
    | (f, _, None) => (b <| wr := f |> <| buf := [] |>, None)
    end
  end.

(** The loop of [Write], for the part of [p] there is no room for: what is left of [p].
    It takes two turns, see [bufio_loop_ends]. *)
Fixpoint bufio_loop (turns : nat) (p : bytes) (b : bufioWriter) : bytes * bufioWriter :=
  match turns, berr b with
  | Datatypes.S turns, None =>
    let available := (size b - length (buf b))%nat in
    if (length p <=? available)%nat then (p, b)
    else match buf b with
    | [] => let '(f, n, err) := file_Write p (wr b) in bufio_loop turns (drop n p) (b <| wr := f |> <| berr := err |>)
    | _ => bufio_loop turns (drop available p) (bufio_Flush (b <| buf := buf b ++ take available p |>)).1
    end
  | _, _ => (p, b)
  end.
Definition bufio_Write (p : bytes) (b : bufioWriter) : bufioWriter * option error :=
  let '(p, b) := bufio_loop 2 p b in
  match berr b with
  | Some e => (b, Some e)
  | None => (b <| buf := buf b ++ p |>, None)
  end.

(** ** One direction *)

Record pcmBufioWriter := { writer : bufioWriter; stopped : bool; lastTime : Z; codec : Codec; silence : bytes }.
#[export] Instance eta_pcmBufioWriter : Eta pcmBufioWriter := fun m =>
  {| writer := writer m; stopped := stopped m; lastTime := lastTime m; codec := codec m; silence := silence m |}.

(** The samples of the time since the last write: the conversion to [uint32] of the
    product of seconds and sample rate. *)
Definition elapsed (c : Codec) (last now : Z) : Z :=
  u32 (Float64.to_Z (Float64.fmul (Float64.Seconds (now - last)) (Float64.of_Z (SampleRate c)))).

(** The loop from [i] on, within [turns] turns. [None]: it has not ended with these. *)
Fixpoint silence_loop (turns : nat) (sil : bytes) (srt i diff : Z) (b : bufioWriter) : option (bufioWriter * option error) :=
  if i <? diff then
    match turns with
    | O => None
    | Datatypes.S turns =>
      match bufio_Write sil b with
      | (b, Some e) => Some (b, Some e)
      | (b, None) => silence_loop turns sil srt (u32 (i + srt)) diff b
      end
    end
  else Some (b, None).

Section Monitor.
Context (turns : nat).

Definition writeSilenceUnsafe (now : Z) (m : pcmBufioWriter) : option (pcmBufioWriter * option error) :=
  let diff := elapsed (codec m) (lastTime m) now in
  let srt := SampleTimestamp (codec m) in
  match silence_loop turns (silence m) srt (u32 (2 * srt)) diff (writer m) with
  | Some (b, None) => Some (m <| writer := b |> <| lastTime := now |>, None)
  | Some (b, Some e) => Some (m <| writer := b |>, Some e)
  | None => None
  end.

Definition writePCM (now : Z) (lpcm : bytes) (m : pcmBufioWriter) : option (pcmBufioWriter * option error) :=
  if stopped m then Some (m, None)
  else match writeSilenceUnsafe now m with
  | Some (m, None) => let '(b, err) := bufio_Write lpcm (writer m) in Some (m <| writer := b |>, err)
  | r => r
  end.

Definition Flush (now : Z) (m : pcmBufioWriter) : option (pcmBufioWriter * option error) :=
  match writeSilenceUnsafe now m with
  | Some (m, None) => let '(b, err) := bufio_Flush (writer m) in Some (m <| writer := b |>, err)
  | r => r
  end.

Definition Stop (m : pcmBufioWriter) : pcmBufioWriter := m <| stopped := true |>.
Definition Start (m : pcmBufioWriter) : pcmBufioWriter := m <| stopped := false |>.
Definition StartTime (t : Z) (m : pcmBufioWriter) : pcmBufioWriter := m <| lastTime := t |>.

Context (DecodeUlawFrame DecodeAlawFrame : Z -> Z).

(** [MonitorPCMReader] and [MonitorPCMWriter]: their reader or writer below is what
    it comes to at each call. *)
Record MonitorPCM := { pcm : pcmBufioWriter; decoder : PcmCoding.coder; FlushOnError : bool }.
#[export] Instance eta_monitor : Eta MonitorPCM := fun m => {| pcm := pcm m; decoder := decoder m; FlushOnError := FlushOnError m |}.

(** [Init] over the file [f]; [flushSize]: [RecordingFlushSize]. *)
Definition monitor_Init (flushSize : Z) (now : Z) (f : osFile) (c : Codec) (flushOnError : bool) : MonitorPCM + error :=
  match PcmCoding.PCMDecoder_Init DecodeUlawFrame DecodeAlawFrame c with
  | inr e => inr e
  | inl d => inl {| pcm := {| writer := NewWriterSize f flushSize; stopped := false; lastTime := now; codec := c; silence := replicate (Z.to_nat (Samples16 c)) 0 |};
                    decoder := d; FlushOnError := flushOnError |}
  end.

(** [Read] and [Write] of the bytes [io] came to: they return what was read even when
    the recording fails. *)
Definition monitor (now : Z) (io : bytes + (bytes * error)) (m : MonitorPCM) : option (MonitorPCM * (Z * option error)) :=
  match io with
  | inr (b, e) =>
    if FlushOnError m then
      match Flush now (pcm m) with
      | Some (p, None) => Some (m <| pcm := p |>, (len b, Some e))
      | Some (p, Some fe) => Some (m <| pcm := p |>, (len b, Some (ErrJoin e fe)))
      | None => None
      end
    else Some (m, (len b, Some e))
  | inl b =>
    match PcmCoding.PCMDecoderBuffer_decode (decoder m) b with
    | inr e => Some (m, (0, Some e))
    | inl lpcm => (fun '(p, err) => (m <| pcm := p |>, (len b, err))) <$> writePCM now lpcm (pcm m)
    end
  end.

(** ** Interleaving *)

Definition io_ErrUnexpectedEOF : error := ErrNew "unexpected EOF".

(** [io.ReadFull] of what is left of a file into a buffer of [h] bytes: the buffer after
    it, the bytes read, the rest and the error. [fault]: some bytes and then an error. *)
Definition ReadFull (h : nat) (fault : option (nat * error)) (f buf : bytes) : bytes * nat * bytes * option error :=
  let n := match fault with None => Nat.min h (length f) | Some (k, _) => Nat.min k (Nat.min h (length f)) end in
  let err := if (n =? h)%nat then None
             else match fault with
             | Some (_, e) => Some e
             | None => Some (if (n =? 0)%nat then io_EOF else io_ErrUnexpectedEOF)
             end in
  (take n f ++ drop n buf, n, drop n f, err).
(** [clear(buf[a:b])]. *)
Definition clear (a b : nat) (buf : bytes) : bytes := take a buf ++ replicate (b - a) 0 ++ drop b buf.

(** Two bytes of each buffer at a time, for [k] samples. *)
Fixpoint interleave_buffers (k : nat) (b1 b2 : bytes) : bytes :=
  match k with
  | O => []
  | Datatypes.S k => take 2 b1 ++ take 2 b2 ++ interleave_buffers k (drop 2 b1) (drop 2 b2)
  end.

(** How [interleave] ends: with the recording and an error, or a slice out of range. *)
Inductive interleaved := Done (recording : osFile) (err : option error) | Panicked.

Definition is_EOF (err : option error) : bool := match err with Some e => errors_Is e io_EOF | None => false end.

(** [h]: half of [RecordingFlushSize]; [faults n]: those of the [n]th reads. A last odd
    byte of a full buffer has no second one beside it. *)
Fixpoint interleave_loop (turns h : nat) (faults1 faults2 : nat -> option (nat * error)) (n : nat) (f1 f2 b1 b2 : bytes) (recording : osFile) : option interleaved :=
  match turns with
  | O => None
  | Datatypes.S turns =>
    let '(b1, n1, f1, err1) := ReadFull h (faults1 n) f1 b1 in
    let '(b2, n2, f2, err2) := ReadFull h (faults2 n) f2 b2 in
    let k := Nat.max n1 n2 in
    if (bool_decide (is_Some err1) || bool_decide (is_Some err2)) && (k =? 0)%nat then
      Some (Done recording (if negb (is_EOF err1) then err1 else if negb (is_EOF err2) then err2 else None))
    else
      let b1 := clear n1 k b1 in
      let b2 := clear n2 k b2 in
      if Nat.odd k && (k =? h)%nat then Some Panicked
      else
        let '(recording, _, err) := file_Write (interleave_buffers (Nat.div2 (k + 1)) b1 b2) recording in
        match err with
        | Some e => Some (Done recording (Some e))
        | None => interleave_loop turns h faults1 faults2 (Datatypes.S n) f1 f2 b1 b2 recording
        end
  end.

(** What closing meets: the seeks, the reads of both files, and their removal. *)
Record close_env := {
  cl_rnow : Z; cl_wnow : Z;
  cl_seek1 : option error; cl_seek2 : option error;
  cl_faults1 : nat -> option (nat * error); cl_faults2 : nat -> option (nat * error);
  cl_remove : option error }.

(** A buffer of a negative size cannot be made. *)
Definition interleave (e : close_env) (flushSize : Z) (f1 f2 : bytes) (recording : osFile) : option interleaved :=
  match cl_seek1 e, cl_seek2 e with
  | Some err, _ | None, Some err => Some (Done recording (Some err))
  | None, None =>
    let h := Z.quot flushSize 2 in
    if h <? 0 then Some Panicked
    else interleave_loop turns (Z.to_nat h) (cl_faults1 e) (cl_faults2 e) 0 f1 f2 (replicate (Z.to_nat h) 0) (replicate (Z.to_nat h) 0) recording
  end.

(** ** A stereo recording *)

Record MonitorPCMStereo := { MonitorPCMReader : MonitorPCM; MonitorPCMWriter : MonitorPCM; recording : osFile; removed : bool }.
#[export] Instance eta_stereo : Eta MonitorPCMStereo := fun m =>
  {| MonitorPCMReader := MonitorPCMReader m; MonitorPCMWriter := MonitorPCMWriter m; recording := recording m; removed := removed m |}.

(** [Init] once the files are open. *)
Definition stereo_Init (flushSize rnow wnow : Z) (fr fw rec : osFile) (c : Codec) (fl1 fl2 : bool) : MonitorPCMStereo + error :=
  match monitor_Init flushSize rnow fr c fl1, monitor_Init flushSize wnow fw c fl2 with
  | inl r, inl w => inl {| MonitorPCMReader := r; MonitorPCMWriter := w; recording := rec; removed := false |}
  | inr e, _ | inl _, inr e => inr e
  end.

Definition at_reader (p : pcmBufioWriter) (m : MonitorPCMStereo) : MonitorPCMStereo := m <| MonitorPCMReader := MonitorPCMReader m <| pcm := p |> |>.
Definition at_writer (p : pcmBufioWriter) (m : MonitorPCMStereo) : MonitorPCMStereo := m <| MonitorPCMWriter := MonitorPCMWriter m <| pcm := p |> |>.

Definition stereo_Flush (rnow wnow : Z) (m : MonitorPCMStereo) : option (MonitorPCMStereo * option error) :=
  match Flush rnow (pcm (MonitorPCMReader m)) with
  | Some (r, None) => (fun '(w, err) => (at_writer w (at_reader r m), err)) <$> Flush wnow (pcm (MonitorPCMWriter m))
  | Some (r, err) => Some (at_reader r m, err)
  | None => None
  end.

(** [inr tt]: [interleave] panics. *)
Definition stereo_Close (e : close_env) (flushSize : Z) (m : MonitorPCMStereo) : option (MonitorPCMStereo * (option error + unit)) :=
  let m := at_writer (Stop (pcm (MonitorPCMWriter m))) (at_reader (Stop (pcm (MonitorPCMReader m))) m) in
  match stereo_Flush (cl_rnow e) (cl_wnow e) m with
  | Some (m, None) =>
    match interleave e flushSize (data (wr (writer (pcm (MonitorPCMReader m))))) (data (wr (writer (pcm (MonitorPCMWriter m))))) (recording m) with
    | Some (Done rec None) => Some (m <| recording := rec |> <| removed := true |>, inl (cl_remove e))
    | Some (Done rec err) => Some (m <| recording := rec |>, inl err)
    | Some Panicked => Some (m, inr tt)
    | None => None
    end
  | Some (m, err) => Some (m, inl err)
  | None => None
  end.

End Monitor.
End Recorder.

(** * Recording a call: the theorems

    What is recorded is a timeline: what came, each with the silence before it. Until a
    file fails each direction is its timeline, and what a file that failed holds is the
    beginning of it; a recording that is closed has the timelines as its channels. *)
Import GoStrings Recorder.

Module RecorderProps.
Import Codecs.

(** ** The timeline of a direction *)

(** The frames of silence for a time of [diff] samples. *)
Definition frames_for (srt diff : Z) : nat := Z.to_nat ((diff - srt - 1) / srt).
(** The silence between two times. *)
Definition gap (c : Codec) (last now : Z) : bytes :=
  concat (replicate (frames_for (SampleTimestamp c) (elapsed c last now)) (replicate (Z.to_nat (Samples16 c)) 0)).

Inductive event := EIo (now : Z) (io : bytes + (bytes * error)) | EStop | EStart | EStartTime (t : Z) | EFlush (now : Z).

Record timeline := { t_bytes : bytes; t_stopped : bool; t_last : Z }.
#[export] Instance eta_timeline : Eta timeline := fun t => {| t_bytes := t_bytes t; t_stopped := t_stopped t; t_last := t_last t |}.
Definition fresh (now : Z) : timeline := {| t_bytes := []; t_stopped := false; t_last := now |}.
(** Something comes behind its gap. *)
Definition comes (c : Codec) (now : Z) (b : bytes) (t : timeline) : timeline := t <| t_bytes := t_bytes t ++ gap c (t_last t) now ++ b |> <| t_last := now |>.

Section Direction.
Context (turns : nat) (c : Codec) (dec : PcmCoding.coder) (flushOnError : bool).

Definition hears (ev : event) (t : timeline) : timeline :=
  match ev with
  | EIo now (inl b) => match PcmCoding.PCMDecoderBuffer_decode dec b with
                       | inl p => if t_stopped t then t else comes c now p t
                       | inr _ => t
                       end
  | EIo now (inr _) => if flushOnError then comes c now [] t else t
  | EStop => t <| t_stopped := true |>
  | EStart => t <| t_stopped := false |>
  | EStartTime l => t <| t_last := l |>
  | EFlush now => comes c now [] t
  end.
Definition at_ (ev : event) : option Z := match ev with EIo now _ | EFlush now => Some now | _ => None end.
(** No gap is within a frame of the samples 32 bits count. *)
Definition paced (ev : event) (t : timeline) : Prop :=
  match at_ ev with Some now => elapsed c (t_last t) now + SampleTimestamp c <= 2 ^ 32 | None => True end.

(** What happens to a direction before the recording is closed. *)
Definition step (ev : event) (m : MonitorPCM) : option MonitorPCM :=
  match ev with
  | EIo now io => fst <$> monitor turns now io m
  | EStop => Some (m <| pcm := Stop (pcm m) |>)
  | EStart => Some (m <| pcm := Start (pcm m) |>)
  | EStartTime t => Some (m <| pcm := StartTime t (pcm m) |>)
  | EFlush now => (fun '(p, _) => m <| pcm := p |>) <$> Flush turns now (pcm m)
  end.

(** *** Buffered writers *)

(** Everything a buffered writer has taken, and what it has of a failed call. *)
Definition accepted (b : bufioWriter) : bytes := data (wr b) ++ buf b.
Definition bufio_ok (b : bufioWriter) : Prop := (0 < size b)%nat /\ (length (buf b) <= size b)%nat.
(** Its file never fails, and nothing has failed. *)
Definition sound (b : bufioWriter) : Prop := berr b = None /\ forall n, outcome (wr b) n = None.

(** What a call that is to add [full] does to the writer. *)
Definition adds (full : bytes) (b b' : bufioWriter) (err : option error) : Prop :=
  bufio_ok b' /\ (sound b -> sound b') /\
  match berr b with
  | Some _ => b' = b
  | None => exists q, accepted b' = accepted b ++ q /\ q `prefix_of` full /\ err = berr b' /\ (err = None -> q = full)
  end.

Lemma file_Write_spec p f : let '(f', n, err) := file_Write p f in
  data f' = data f ++ take n p /\ (n <= length p)%nat /\ (err = None -> n = length p) /\ outcome f' = outcome f /\ (outcome f (writes f) = None -> err = None).
Proof. unfold file_Write. destruct (outcome f (writes f)) as [[k e]|]; cbn; split_and!; try done; lia. Qed.


Lemma adds_app f1 f2 b b1 b2 err : adds f1 b b1 None -> adds f2 b1 b2 err -> adds (f1 ++ f2) b b2 err.
Proof.
  intros (O1 & S1 & H1) (O2 & S2 & H2). split; [done|]. split; [auto|]. destruct (berr b) as [e|] eqn:E.
  - subst b1. by rewrite E in H2.
  - destruct H1 as (q1 & A1 & _ & B1 & F1). rewrite <- B1 in H2. destruct H2 as (q2 & A2 & P2 & B2 & F2). rewrite (F1 eq_refl) in A1. exists (f1 ++ q2). split_and!; [by rewrite A2, A1, app_assoc|by apply prefix_app|done|].
    intros He. by rewrite (F2 He).
Qed.
Lemma adds_cut f1 f2 b b1 e : adds f1 b b1 (Some e) -> adds (f1 ++ f2) b b1 (Some e).
Proof.
  intros (O1 & S1 & H1). split_and!; [done..|]. destruct (berr b); [done|]. destruct H1 as (q & A & P & B & _). exists q. split_and!; [done|by apply prefix_app_r|done|done].
Qed.
Lemma adds_nil b : bufio_ok b -> adds [] b b None.
Proof. intros Hb. split_and!; [done..|]. destruct (berr b) eqn:E; [done|]. exists []. by rewrite app_nil_r. Qed.

Lemma bufio_Flush_adds b : bufio_ok b -> adds [] b (bufio_Flush b).1 (bufio_Flush b).2 /\ ((bufio_Flush b).2 = None -> buf (bufio_Flush b).1 = []).
Proof.
  intros Ho. pose proof Ho as [Hs Hb]. unfold bufio_Flush, adds. destruct (berr b) as [e|] eqn:E; [done|].
  destruct (buf b) as [|x l] eqn:El; [split; [pose proof (adds_nil b Ho) as H; unfold adds in H; rewrite E in H; cbn [fst snd]; rewrite E; exact H|done]|]. rewrite <- El in *.
  pose proof (file_Write_spec (buf b) (wr b)) as HW. destruct (file_Write (buf b) (wr b)) as [[f n] [e|]]; destruct HW as (D & Hn & Hall & Ho' & Hok); cbn; (split; [|done]).
  - split; [split; [done|cbn; rewrite length_drop; lia]|]. split; [intros [_ Hn']; by specialize (Hok (Hn' _))|]. exists []. rewrite app_nil_r. unfold accepted. cbn. rewrite D, <- app_assoc, take_drop. by split_and!; [|apply prefix_nil| |].
  - split; [split; [done|cbn; lia]|]. split; [intros [_ Hn']; split; cbn; [done|by rewrite Ho']|]. exists []. rewrite !app_nil_r. unfold accepted. cbn. rewrite D, (Hall eq_refl), firstn_all, app_nil_r. by split_and!; [|apply prefix_nil| |].
Qed.

(** The loop of [Write]: it ends with room for what is left, or with an error. *)
Lemma bufio_loop_failed n p b e : berr b = Some e -> bufio_loop n p b = (p, b).
Proof. intros E. destruct n; cbn [bufio_loop]; by rewrite ?E. Qed.
Lemma bufio_loop_adds n p b : bufio_ok b -> berr b = None ->
  let '(r, b') := bufio_loop n p b in exists q, p = q ++ r /\ bufio_ok b' /\ accepted b' = accepted b ++ q /\ (sound b -> sound b').
Proof.
  revert p b. induction n as [|n IH]; intros p b Ho E; cbn [bufio_loop]; [exists []; by rewrite app_nil_r|]. pose proof Ho as [Hs Hb]. rewrite E. cbv zeta. remember (size b - length (buf b))%nat as av eqn:Hav.
  destruct (Nat.leb_spec (length p) av) as [|Hp]; [exists []; by rewrite app_nil_r|].
  assert (forall k b1, bufio_ok b1 -> accepted b1 = accepted b ++ take k p -> (sound b -> sound b1) ->
    let '(r, b') := bufio_loop n (drop k p) b1 in exists q, p = q ++ r /\ bufio_ok b' /\ accepted b' = accepted b ++ q /\ (sound b -> sound b')) as K.
  { intros k b1 O1 A1 S1. destruct (berr b1) as [e|] eqn:Eb; [rewrite (bufio_loop_failed _ _ _ _ Eb); exists (take k p); by rewrite take_drop|].
    pose proof (IH (drop k p) b1 O1 Eb) as H. destruct (bufio_loop n (drop k p) b1) as [r b']. destruct H as (q & Hq & O2 & A2 & S2). exists (take k p ++ q). rewrite <- app_assoc, <- Hq, take_drop. split_and!; [done|done| |auto].
    by rewrite A2, A1, app_assoc. }
  destruct (buf b) as [|x l] eqn:El.
  - pose proof (file_Write_spec p (wr b)) as HW. destruct (file_Write p (wr b)) as [[f k] err]. destruct HW as (D & Hk & Hall & Ho' & Hok).
    apply K; [exact Ho|unfold accepted; cbn; by rewrite El, D, !app_nil_r|]. intros [_ Hn]. split; cbn; [by apply Hok|by rewrite Ho'].
  - rewrite <- El in *. pose (b0 := b <| buf := buf b ++ take av p |>). change (b <| buf := buf b ++ take av p |>) with b0.
    assert (bufio_ok b0) as O0 by (split; [done|unfold b0; cbn; rewrite length_app, length_take; lia]).
    destruct (bufio_Flush_adds b0 O0) as [(O1 & S1 & H1) _]. change (berr b0) with (berr b) in H1. rewrite E in H1. destruct H1 as (q0 & A1 & P & B & _). apply prefix_nil_inv in P as ->. rewrite app_nil_r in A1.
    apply K; [done|rewrite A1; unfold accepted; cbn; by rewrite app_assoc|exact S1].
Qed.

Lemma bufio_loop_full n q b : buf b = [] -> (0 < size b)%nat -> berr b = None ->
  let '(r, b') := bufio_loop (Datatypes.S n) q b in berr b' = None -> (length r <= size b' - length (buf b'))%nat.
Proof.
  intros El Hs E. cbn [bufio_loop]. rewrite E, El. cbn [length]. destruct (Nat.leb_spec (length q) (size b - 0)) as [|Hq]; [by rewrite El|].
  pose proof (file_Write_spec q (wr b)) as HW. destruct (file_Write q (wr b)) as [[f k] [e|]]; destruct HW as (_ & _ & Hall & _); [by destruct n|].
  rewrite (Hall eq_refl), drop_all. destruct n as [|n]; cbn; rewrite ?El; cbn; lia.
Qed.

(** Two turns are enough. *)
Lemma bufio_loop_ends p b : bufio_ok b -> berr b = None -> let '(r, b') := bufio_loop 2 p b in berr b' = None -> (length r <= size b' - length (buf b'))%nat.
Proof.
  intros [Hs Hb] E. destruct (buf b) as [|x l] eqn:El; [by apply bufio_loop_full|]. remember 1%nat as n eqn:Hn. cbn [bufio_loop]. rewrite E, El.
  destruct (Nat.leb_spec (length p) (size b - length (x :: l))) as [Hp|Hp]; [by rewrite El|]. rewrite <- El in *. set (av := (size b - length (buf b))%nat).
  pose (b0 := b <| buf := buf b ++ take av p |>). change (b <| buf := buf b ++ take av p |>) with b0.
  assert (bufio_ok b0) as O0 by (split; [done|unfold b0, av; cbn; rewrite length_app, length_take; lia]).
  pose proof (bufio_Flush_adds b0 O0) as [(O1 & _ & HF) HF']. change (berr b0) with (berr b) in HF. rewrite E in HF. destruct HF as (_ & _ & _ & B & _). destruct (berr (bufio_Flush b0).1) as [e|] eqn:Eb.
  - rewrite (bufio_loop_failed _ _ _ _ Eb). by rewrite Eb.
  - subst n. apply bufio_loop_full; [by apply HF'|by destruct O1|done].
Qed.

Lemma bufio_Write_adds p b : bufio_ok b -> adds p b (bufio_Write p b).1 (bufio_Write p b).2.
Proof.
  intros Ho. unfold bufio_Write, adds. destruct (berr b) as [e|] eqn:E; [rewrite (bufio_loop_failed _ _ _ _ E), E; by cbn|].
  pose proof (bufio_loop_adds 2 p b Ho E) as H1. pose proof (bufio_loop_ends p b Ho E) as H2. destruct (bufio_loop 2 p b) as [r b']. destruct H1 as (q & -> & [O1 O2] & A & S1). destruct (berr b') as [e|] eqn:Eb; cbn.
  - split_and!; [done..|]. exists q. split_and!; [done|by apply prefix_app_r|done|done].
  - split; [split; [done|cbn; rewrite length_app; specialize (H2 eq_refl); lia]|]. split; [intros Hs; exact (S1 Hs)|]. exists (q ++ r). unfold accepted in *. cbn. rewrite app_assoc, A, app_assoc. by split_and!.
Qed.

(** *** Silence *)

Lemma silence_loop_adds n sil srt i diff b b' err : 0 < srt -> 0 <= i -> (berr b = None -> diff + srt <= 2 ^ 32) -> bufio_ok b -> silence_loop n sil srt i diff b = Some (b', err) ->
  adds (concat (replicate (if i <? diff then Z.to_nat ((diff - i + srt - 1) / srt) else O) sil)) b b' err.
Proof.
  intros Hs. revert i b. induction n as [|n IH]; intros i b Hi Hd Hb; cbn [silence_loop]; destruct (Z.ltb_spec i diff) as [Ei|Ei]; try done; try (intros [= <- <-]; by apply adds_nil).
  pose proof (bufio_Write_adds sil b Hb) as HW. destruct (bufio_Write sil b) as [b1 [e|]] eqn:EW; cbn [fst snd] in HW.
  - intros [= <- <-]. assert (1 <= (diff - i + srt - 1) / srt) as H1 by (apply Z.div_le_lower_bound; lia). destruct (Z.to_nat ((diff - i + srt - 1) / srt)) as [|k] eqn:Ek; [lia|]. cbn [replicate concat]. by apply adds_cut.
  - assert (berr b = None) as E0. { destruct (berr b) as [e|] eqn:E; [|done]. unfold bufio_Write in EW. by rewrite (bufio_loop_failed _ _ _ _ E), E in EW. }
    specialize (Hd E0). rewrite u32_small by lia. intros E. pose proof (IH (i + srt) b1 ltac:(lia) (fun _ => Hd) (proj1 HW) E) as H.
    assert ((diff - i + srt - 1) / srt = (diff - (i + srt) + srt - 1) / srt + 1) as -> by (rewrite <- Z.div_add by lia; f_equal; lia).
    assert (0 <= (diff - (i + srt) + srt - 1) / srt) by (apply Z.div_pos; lia). rewrite Z2Nat.inj_add, Nat.add_comm by lia. change (Z.to_nat 1) with 1%nat. cbn [Nat.add replicate concat]. eapply adds_app; [exact HW|].
    destruct (Z.ltb_spec (i + srt) diff); [exact H|]. rewrite Z.div_small by lia. exact H.
Qed.
(** It ends when its file does not fail. *)
Lemma silence_loop_ends n sil srt i diff b : 0 < srt -> 0 <= i -> diff + srt <= 2 ^ 32 -> diff - i <= Z.of_nat n -> bufio_ok b -> sound b -> exists b', silence_loop n sil srt i diff b = Some (b', None).
Proof.
  intros Hs. revert i b. induction n as [|n IH]; intros i b Hi Hd Hn Hb Hok; cbn [silence_loop]; destruct (Z.ltb_spec i diff) as [Ei|Ei]; try lia; try by eauto.
  pose proof (bufio_Write_adds sil b Hb) as (O & S' & H). specialize (S' Hok). destruct (bufio_Write sil b) as [b1 err]. cbn [fst snd] in *. rewrite (proj1 Hok) in H. destruct H as (q & _ & _ & -> & _). rewrite (proj1 S').
  rewrite u32_small by lia. apply IH; [lia..|done|done].
Qed.

(** *** What a call does to the recorder of a direction *)

Context (Hsrt : 0 < SampleTimestamp c < 2 ^ 31).

Record pcm_ok (p : pcmBufioWriter) : Prop := {
  p_codec : codec p = c;
  p_silence : silence p = replicate (Z.to_nat (Samples16 c)) 0;
  p_bufio : bufio_ok (writer p) }.

(** A call at [now] that is to add [full]. *)
Definition wrote (now : Z) (full : bytes) (p : pcmBufioWriter) (r : option (pcmBufioWriter * option error)) : Prop :=
  (forall p' err, r = Some (p', err) -> adds full (writer p) (writer p') err /\ pcm_ok p' /\ stopped p' = stopped p /\ (err = None -> lastTime p' = now)) /\
  (2 ^ 32 <= Z.of_nat turns -> sound (writer p) -> exists p', r = Some (p', None)).
Definition paced_at (now last : Z) : Prop := elapsed c last now + SampleTimestamp c <= 2 ^ 32.

Lemma writeSilence_wrote now p : pcm_ok p -> (berr (writer p) = None -> paced_at now (lastTime p)) -> wrote now (gap c (lastTime p) now) p (writeSilenceUnsafe turns now p).
Proof.
  intros [Hc Hsil Hb] Hp. unfold writeSilenceUnsafe, paced_at in *. rewrite Hc. cbv zeta. set (srt := SampleTimestamp c) in *. pose proof (u32_range (Float64.to_Z (Float64.fmul (Float64.Seconds (now - lastTime p)) (Float64.of_Z (SampleRate c))))) as Hr.
  change (u32 _) with (elapsed c (lastTime p) now) in Hr. set (e := elapsed _ _ _) in *. rewrite u32_small by lia. split.
  - intros p' err. destruct (silence_loop _ _ _ _ _ _) as [[b er]|] eqn:E; [|done]. assert (0 <= 2 * srt) as H0 by lia. pose proof (silence_loop_adds _ _ _ _ _ _ _ _ (proj1 Hsrt) H0 Hp Hb E) as H.
    assert (adds (gap c (lastTime p) now) (writer p) b er) as Ha.
    { rewrite Hsil in H. unfold gap. fold srt e. replace (frames_for srt e) with (if 2 * srt <? e then Z.to_nat ((e - 2 * srt + srt - 1) / srt) else O); [exact H|].
      unfold frames_for. destruct (Z.ltb_spec (2 * srt) e); [f_equal; f_equal; lia|]. assert ((e - srt - 1) / srt <= 0); [|lia].
      destruct (Z.le_gt_cases (e - srt - 1) 0); [apply Z.div_le_upper_bound; lia|by rewrite Z.div_small by lia]. }
    pose proof (proj1 Ha). destruct er; intros [= <- <-]; split_and!; done.
  - intros Ht Hs. destruct (silence_loop_ends turns (silence p) srt (2 * srt) e (writer p)) as [b' ->]; [lia|lia|by apply Hp; destruct Hs|lia|done|done|eauto].
Qed.

(** What is left to do once the silence is written. *)
Lemma wrote_then now full more p r (f : bufioWriter -> bufioWriter * option error) : (forall b, bufio_ok b -> adds more b (f b).1 (f b).2) -> wrote now full p r ->
  wrote now (full ++ more) p (match r with Some (m, None) => let '(b, err) := f (writer m) in Some (m <| writer := b |>, err) | Some (m, Some e) => Some (m, Some e) | None => None end).
Proof.
  intros Hf [H1 H2]. split.
  - intros p' err. destruct r as [[m [e|]]|]; [| |done].
    + intros [= <- <-]. destruct (H1 _ _ eq_refl) as (A & O & St & _). split_and!; [by apply adds_cut|done..].
    + destruct (H1 _ _ eq_refl) as (A & O & St & L). pose proof (Hf (writer m) (p_bufio _ O)) as A2. destruct (f (writer m)) as [b err2]. intros [= <- <-]. split_and!; [by eapply adds_app| |done|intros _; by apply L].
      destruct O. split; [done..|exact (proj1 A2)].
  - intros Ht Hs. destruct (H2 Ht Hs) as [m ->]. destruct (H1 _ _ eq_refl) as ((_ & S1 & _) & O & _). destruct (Hf (writer m) (p_bufio _ O)) as (_ & _ & A). specialize (S1 Hs). rewrite (proj1 S1) in A.
    pose proof (proj1 (proj2 (Hf (writer m) (p_bufio _ O))) S1) as S2. destruct (f (writer m)) as [b err2]. cbn [fst snd] in *. destruct A as (_ & _ & _ & -> & _). rewrite (proj1 S2). eauto.
Qed.
Lemma writePCM_wrote now lpcm p : pcm_ok p -> (berr (writer p) = None -> paced_at now (lastTime p)) -> stopped p = false -> wrote now (gap c (lastTime p) now ++ lpcm) p (writePCM turns now lpcm p).
Proof. intros Ho Hp Hs. unfold writePCM. rewrite Hs. apply (wrote_then now _ _ p (writeSilenceUnsafe turns now p) (bufio_Write lpcm)); [intros b; apply bufio_Write_adds|by apply writeSilence_wrote]. Qed.
Lemma Flush_wrote now p : pcm_ok p -> (berr (writer p) = None -> paced_at now (lastTime p)) -> wrote now (gap c (lastTime p) now ++ []) p (Flush turns now p).
Proof. intros Ho Hp. unfold Flush. apply (wrote_then now _ _ p (writeSilenceUnsafe turns now p) bufio_Flush); [intros b Hb; by apply bufio_Flush_adds|by apply writeSilence_wrote]. Qed.
(** After a flush that worked all is in the file, and it never failed. *)
Lemma bufio_Flush_done b : (bufio_Flush b).2 = None -> buf (bufio_Flush b).1 = [] /\ berr (bufio_Flush b).1 = None.
Proof.
  unfold bufio_Flush. destruct (berr b) eqn:E; [done|]. destruct (buf b) eqn:El; [done|]. destruct (file_Write _ _) as [[f n] [e|]]; done.
Qed.
Lemma Flush_done now p p' : Flush turns now p = Some (p', None) -> data (wr (writer p')) = accepted (writer p') /\ berr (writer p') = None.
Proof.
  unfold Flush. destruct (writeSilenceUnsafe turns now p) as [[m [e|]]|]; try done. pose proof (bufio_Flush_done (writer m)) as Hd. destruct (bufio_Flush (writer m)) as [b err]. cbn [fst snd] in *. intros [= <- ->].
  destruct (Hd eq_refl) as [H1 H2]. unfold accepted. cbn. by rewrite H1, app_nil_r.
Qed.

(** *** A direction follows its timeline *)

Record direction (m : MonitorPCM) : Prop := {
  d_pcm : pcm_ok (pcm m);
  d_decoder : decoder m = dec;
  d_flush : FlushOnError m = flushOnError }.
Definition failed (m : MonitorPCM) : option error := berr (writer (pcm m)).
Definition taken (m : MonitorPCM) : bytes := accepted (writer (pcm m)).

(** What it has taken is the beginning of its timeline: all of it until its file fails. *)
Record follows (m : MonitorPCM) (t : timeline) : Prop := {
  f_direction : direction m;
  f_prefix : taken m `prefix_of` t_bytes t;
  f_agrees : failed m = None -> taken m = t_bytes t /\ stopped (pcm m) = t_stopped t /\ lastTime (pcm m) = t_last t }.

Lemma wrote_follows now b m t r p' err : follows m t -> wrote now (gap c (lastTime (pcm m)) now ++ b) (pcm m) r -> r = Some (p', err) ->
  follows (m <| pcm := p' |>) (comes c now b t) /\ (berr (writer p') = None -> failed m = None /\ err = None).
Proof.
  intros [[Dp Dd Df] Pre Ag] [H _] E. destruct (H _ _ E) as ((O & _ & A) & Op & St & L). unfold taken, failed in *. destruct (berr (writer (pcm m))) as [e|] eqn:Eb.
  - split; [|by rewrite A, Eb]. split; [done| |unfold failed; cbn; by rewrite A, Eb]. unfold taken. cbn. rewrite A. by apply prefix_app_r.
  - destruct (Ag eq_refl) as (A1 & A2 & A3). destruct A as (q & Aq & Pq & -> & Fq). rewrite A3 in Pq, Fq. split; [|done]. split; [done| |]; unfold taken, failed; cbn.
    + rewrite Aq, A1. by apply prefix_app.
    + intros E0. rewrite Aq, A1, (Fq E0), (L E0), St. done.
Qed.

Lemma paced_gives ev now m t : follows m t -> paced ev t -> at_ ev = Some now -> berr (writer (pcm m)) = None -> paced_at now (lastTime (pcm m)).
Proof. intros [_ _ Ag] Hp E Hb. destruct (Ag Hb) as (_ & _ & ->). unfold paced in Hp. by rewrite E in Hp. Qed.

Lemma step_follows ev m t m' : follows m t -> paced ev t -> step ev m = Some m' -> follows m' (hears ev t) /\ (failed m' = None -> failed m = None).
Proof.
  intros Hf Hp. pose proof Hf as [[Dp Dd Df] Pre Ag]. pose proof (fun now => paced_gives ev now m t Hf Hp) as Hpc. destruct ev as [now [b|[b e]]| | |l|now]; cbn [step hears].
  - unfold monitor. rewrite Dd. destruct (PcmCoding.PCMDecoderBuffer_decode dec b) as [p|e] eqn:Ed; [|by intros [= <-]]. destruct (stopped (pcm m)) eqn:Es.
    + unfold writePCM. rewrite Es. intros [= <-]. split; [|done]. split; [done| |intros E; destruct (Ag E) as (A1 & A2 & A3); unfold taken; cbn; rewrite <- A2; by rewrite ?Es].
      destruct (t_stopped t); [done|]. by apply prefix_app_r.
    + pose proof (writePCM_wrote now p (pcm m) Dp (Hpc now eq_refl) Es) as Hw. destruct (writePCM turns now p (pcm m)) as [[p' err]|]; [|done]. intros [= <-].
      destruct (wrote_follows now p m t _ p' err Hf Hw eq_refl) as [H1 H2]. split; [|intros E; by apply H2]. destruct (t_stopped t) eqn:Et; [|done].
      assert (failed m <> None) as Hn by (intros E; destruct (Ag E) as (_ & A2 & _); congruence). destruct H1 as [Hd _ Hag]. split; [done| |intros E; by destruct (Hn (proj1 (H2 E)))].
      destruct Hw as [Hw _]. destruct (Hw _ _ eq_refl) as ((_ & _ & A) & _). unfold failed, taken in *. cbn. destruct (berr (writer (pcm m))); [by rewrite A|done].
  - unfold monitor. rewrite Df. destruct flushOnError; [|by intros [= <-]]. pose proof (Flush_wrote now (pcm m) Dp (Hpc now eq_refl)) as Hw. destruct (Flush turns now (pcm m)) as [[p' err]|]; [|done].
    intros E. assert (m' = m <| pcm := p' |>) as -> by (destruct err; by injection E as <-). destruct (wrote_follows now [] m t _ p' err Hf Hw eq_refl) as [H1 H2]. split; [done|intros E0; by apply H2].
  - intros [= <-]. split; [|done]. split; [split; [destruct Dp; by split|done..]|done|]. intros E. destruct (Ag E) as (A1 & A2 & A3). done.
  - intros [= <-]. split; [|done]. split; [split; [destruct Dp; by split|done..]|done|]. intros E. destruct (Ag E) as (A1 & A2 & A3). done.
  - intros [= <-]. split; [|done]. split; [split; [destruct Dp; by split|done..]|done|]. intros E. destruct (Ag E) as (A1 & A2 & A3). done.
  - pose proof (Flush_wrote now (pcm m) Dp (Hpc now eq_refl)) as Hw. destruct (Flush turns now (pcm m)) as [[p' err]|]; [|done].
    intros [= <-]. destruct (wrote_follows now [] m t _ p' err Hf Hw eq_refl) as [H1 H2]. split; [done|intros E0; by apply H2].
Qed.

(** A direction whose file does not fail goes on. *)
Lemma step_ends ev m t : 2 ^ 32 <= Z.of_nat turns -> follows m t -> paced ev t -> sound (writer (pcm m)) -> exists m', step ev m = Some m' /\ sound (writer (pcm m')).
Proof.
  intros Ht Hf Hp Hs. pose proof Hf as [[Dp Dd Df] Pre Ag]. pose proof (fun now => paced_gives ev now m t Hf Hp) as Hpc.
  assert (forall now full r, wrote now full (pcm m) r -> exists p', r = Some (p', None) /\ sound (writer p')) as Hw.
  { intros now full r [H1 H2]. destruct (H2 Ht Hs) as [p' E]. destruct (H1 _ _ E) as ((_ & H & _) & _). eauto. }
  destruct ev as [now [b|[b e]]| | |l|now]; cbn [step]; try by eauto.
  - unfold monitor. rewrite Dd. destruct (PcmCoding.PCMDecoderBuffer_decode dec b) as [p|e] eqn:Ed; [|by eauto]. destruct (stopped (pcm m)) eqn:Es; [unfold writePCM; rewrite Es; eexists; split; [reflexivity|done]|].
    destruct (Hw _ _ _ (writePCM_wrote now p (pcm m) Dp (Hpc now eq_refl) Es)) as (p' & -> & Hs'). eexists. split; [reflexivity|done].
  - unfold monitor. rewrite Df. destruct flushOnError; [|by eauto]. destruct (Hw _ _ _ (Flush_wrote now (pcm m) Dp (Hpc now eq_refl))) as (p' & -> & Hs'). eexists. split; [reflexivity|done].
  - destruct (Hw _ _ _ (Flush_wrote now (pcm m) Dp (Hpc now eq_refl))) as (p' & -> & Hs'). eexists. split; [reflexivity|done].
Qed.

Lemma fresh_follows now f : data f = [] -> forall flushSize, follows {| pcm := {| writer := NewWriterSize f flushSize; stopped := false; lastTime := now; codec := c; silence := replicate (Z.to_nat (Samples16 c)) 0 |};
  decoder := dec; FlushOnError := flushOnError |} (fresh now).
Proof.
  intros E flushSize. assert (accepted (NewWriterSize f flushSize) = []) as Ea by (unfold accepted; cbn; by rewrite E).
  split; [|unfold taken; cbn; by rewrite Ea|intros _; unfold taken; cbn; by rewrite Ea]. split; [|done..]. split; [done..|]. unfold bufio_ok. cbn. destruct (Z.leb_spec flushSize 0); lia.
Qed.

End Direction.
(** ** One direction

    Whatever comes and whenever it is stopped, started, shifted or flushed, what a
    direction has taken is the beginning of its timeline, whole unless its file failed. *)
Section Run.
Context (turns : nat) (DecodeUlawFrame DecodeAlawFrame : Z -> Z) (c : Codec) (Hsrt : 0 < SampleTimestamp c < 2 ^ 31).

Fixpoint all_paced (dec : PcmCoding.coder) (fl : bool) (l : list event) (t : timeline) : Prop :=
  match l with [] => True | ev :: l => paced c ev t /\ all_paced dec fl l (hears c dec fl ev t) end.
Fixpoint run (l : list event) (m : MonitorPCM) : option MonitorPCM := match l with [] => Some m | ev :: l => step turns ev m ≫= run l end.
Definition heard (dec : PcmCoding.coder) (fl : bool) (l : list event) (t : timeline) : timeline := foldl (fun t ev => hears c dec fl ev t) t l.

Lemma run_follows dec fl l m t m' : follows c dec fl m t -> all_paced dec fl l t -> run l m = Some m' -> follows c dec fl m' (heard dec fl l t).
Proof.
  revert m t. induction l as [|ev l IH]; intros m t Hf Hp; cbn [run]; [by intros [= <-]|]. destruct Hp as [Hp Hps]. destruct (step turns ev m) as [m1|] eqn:E; [|done]. cbn [mbind option_bind].
  destruct (step_follows turns c dec fl Hsrt ev m t m1 Hf Hp E) as [H1 _]. by apply IH.
Qed.

Lemma Init_follows flushSize now f fl m : data f = [] -> monitor_Init DecodeUlawFrame DecodeAlawFrame flushSize now f c fl = inl m ->
  follows c (decoder m) fl m (fresh now) /\ PcmCoding.PCMDecoder_Init DecodeUlawFrame DecodeAlawFrame c = inl (decoder m) /\ wr (writer (pcm m)) = f /\ failed m = None.
Proof.
  intros Hd. unfold monitor_Init. destruct (PcmCoding.PCMDecoder_Init _ _ c) as [d|] eqn:E; [|done]. intros [= <-]. split_and!; [|done..]. by apply fresh_follows.
Qed.

Theorem direction_prefix flushSize now o fl l m m' : monitor_Init DecodeUlawFrame DecodeAlawFrame flushSize now (new_file o) c fl = inl m ->
  all_paced (decoder m) fl l (fresh now) -> run l m = Some m' ->
  let t := heard (decoder m) fl l (fresh now) in taken m' `prefix_of` t_bytes t /\ (failed m' = None -> taken m' = t_bytes t).
Proof.
  intros Hi Hp Hr t. destruct (Init_follows flushSize now (new_file o) fl m eq_refl Hi) as (Hf & _). destruct (run_follows _ _ _ _ _ _ Hf Hp Hr) as [_ H1 H2]. split; [done|]. intros E. by destruct (H2 E).
Qed.

(** The silence of a gap of two frames or more makes, with the frame behind it, less
    than the time that passed, by one frame at most: a recording does not run ahead of a
    gap it fills and lags behind each by no more than a frame. *)
Theorem silence_fills_gap last now : let srt := SampleTimestamp c in let k := frames_for srt (elapsed c last now) in
  2 * srt <= elapsed c last now -> (Z.of_nat k + 1) * srt < elapsed c last now <= (Z.of_nat k + 2) * srt.
Proof.
  intros srt k Hg. unfold k, frames_for. pose proof (Z.div_mod (elapsed c last now - srt - 1) srt). pose proof (Z.mod_pos_bound (elapsed c last now - srt - 1) srt).
  assert (0 <= (elapsed c last now - srt - 1) / srt) by (apply Z.div_pos; lia). rewrite Z2Nat.id by lia. nia.
Qed.

End Run.

(** *** Whole samples *)

Section Whole.
Context (c : Codec).

Definition whole (b : bytes) : Prop := Nat.even (length b) = true.
Lemma whole_app b d : whole b -> whole d -> whole (b ++ d).
Proof. unfold whole. rewrite length_app, Nat.even_add. intros -> ->. done. Qed.
Lemma whole_double b n : length b = (2 * n)%nat -> whole b.
Proof. unfold whole. intros ->. apply Nat.even_spec. by exists n. Qed.

Lemma Samples16_even d : Z.even (Samples16 d) = true.
Proof.
  assert (forall z, Z.even (i64 z) = Z.even z) as Hi.
  { intros z. unfold i64. rewrite Z.even_sub. rewrite (Z.mod_eq (z + 2 ^ 63)) by lia. rewrite Z.even_sub, Z.even_mul, Z.even_add. by destruct (Z.even z). }
  unfold Samples16, SamplesPCM. rewrite !Hi, Z.even_mul, Hi, Z.even_mul. done.
Qed.
Lemma gap_whole last now : whole (gap c last now).
Proof.
  unfold gap. induction (frames_for _ _) as [|k IH]; [done|]. cbn [replicate concat]. apply whole_app; [|done]. unfold whole. rewrite length_replicate. pose proof (Samples16_even c) as H. apply Z.even_spec in H as [j H]. rewrite H.
  apply Nat.even_spec. exists (Z.to_nat j). destruct (Z.le_gt_cases 0 j); lia.
Qed.

Definition coder_whole (dec : PcmCoding.coder) : Prop := forall b p, PcmCoding.PCMDecoderBuffer_decode dec b = inl p -> whole p.
Lemma Init_whole DecodeUlawFrame DecodeAlawFrame dec : PcmCoding.PCMDecoder_Init DecodeUlawFrame DecodeAlawFrame c = inl dec -> coder_whole dec.
Proof. intros Hi b p H. apply (whole_double p (length b)). by eapply PcmCoding.decode_buffer_whole. Qed.

Lemma comes_whole now b t : whole b -> whole (t_bytes t) -> whole (t_bytes (comes c now b t)).
Proof. intros Hb Ht. cbn. apply whole_app; [done|]. apply whole_app; [apply gap_whole|done]. Qed.
Lemma hears_whole dec fl ev t : coder_whole dec -> whole (t_bytes t) -> whole (t_bytes (hears c dec fl ev t)).
Proof.
  intros Hd Ht. destruct ev as [now [b|[b e]]| | | |now]; cbn [hears]; try done.
  - destruct (PcmCoding.PCMDecoderBuffer_decode dec b) as [p|] eqn:E; [|done]. destruct (t_stopped t); [done|]. apply comes_whole; [by eapply Hd|done].
  - destruct fl; [|done]. by apply comes_whole.
  - by apply comes_whole.
Qed.
End Whole.

(** ** Interleaving *)

(** The two channels of the samples of a stereo recording. *)
Fixpoint channels (l : list Z) : list Z * list Z :=
  match l with
  | a :: b :: l => let '(x, y) := channels l in (a :: x, b :: y)
  | _ => ([], [])
  end.
(** A file with silence up to [n] bytes. *)
Definition padded (n : nat) (f : bytes) : bytes := f ++ replicate (n - length f) 0.
Definition stereo (f1 f2 : bytes) : bytes :=
  let n := Nat.max (length f1) (length f2) in interleave_buffers (Nat.div2 n) (padded n f1) (padded n f2).

Lemma padded_length n f : (length f <= n)%nat -> length (padded n f) = n.
Proof. intros H. unfold padded. rewrite length_app, length_replicate. lia. Qed.

Lemma interleave_take k b1 b2 c1 c2 : take (2 * k) b1 = take (2 * k) c1 -> take (2 * k) b2 = take (2 * k) c2 -> interleave_buffers k b1 b2 = interleave_buffers k c1 c2.
Proof.
  revert b1 b2 c1 c2. induction k as [|k IH]; intros b1 b2 c1 c2 H1 H2; [done|]. cbn [interleave_buffers].
  assert (forall b c : bytes, take (2 * S k) b = take (2 * S k) c -> take 2 b = take 2 c /\ take (2 * k) (drop 2 b) = take (2 * k) (drop 2 c)) as Hs.
  { intros b c H. split; [|rewrite !take_drop_commute; replace (2 + 2 * k)%nat with (2 * S k)%nat by lia; by rewrite H].
    pose proof (f_equal (take 2) H) as H'. rewrite !take_take in H'. by replace (2 `min` (2 * S k))%nat with 2%nat in H' by lia. }
  destruct (Hs _ _ H1) as [-> E1], (Hs _ _ H2) as [-> E2]. by rewrite (IH _ _ _ _ E1 E2).
Qed.

Lemma interleave_add k j b1 b2 : interleave_buffers (k + j) b1 b2 = interleave_buffers k b1 b2 ++ interleave_buffers j (drop (2 * k) b1) (drop (2 * k) b2).
Proof.
  revert b1 b2. induction k as [|k IH]; intros b1 b2; [by rewrite !drop_0|]. cbn [Nat.add interleave_buffers]. rewrite IH, !drop_drop, <- !app_assoc.
  replace (2 + 2 * k)%nat with (2 * S k)%nat by lia. done.
Qed.

(** The buffers of a round hold the next bytes of both files, silence for what one is short of. *)
Lemma round_buffer h n f buf : length buf = h -> (Nat.min h (length f) <= n <= h)%nat -> (n < length f -> n = h)%nat -> let '(b, k, rest, err) := ReadFull h None f buf in
  take n (clear k n b) = take n (padded n f) /\ length (clear k n b) = h /\ k = Nat.min h (length f) /\ rest = drop k f /\ (k = O -> (0 < h)%nat -> err = Some io_EOF).
Proof.
  intros Hb Hn Hl. unfold ReadFull, clear, padded. set (k := Nat.min h (length f)) in *.
  assert (take k (take k f ++ drop k buf) = take k f) as E1 by (rewrite take_app_length'; [done|rewrite length_take; lia]).
  assert (drop n (take k f ++ drop k buf) = drop n buf) as E2.
  { rewrite drop_app, drop_ge by (rewrite length_take; lia). rewrite length_take, drop_drop. cbn [app]. f_equal. lia. }
  rewrite E1, E2. split; [|split; [|split; [done|split; [done|]]]].
  - rewrite app_assoc, take_app_length' by (rewrite length_app, length_take, length_replicate; lia).
    destruct (decide (n < length f)%nat) as [Hlt|Hge].
    + specialize (Hl Hlt). assert (k = n) as -> by lia. rewrite Nat.sub_diag. cbn. rewrite app_nil_r, take_app_le by lia. done.
    + assert (k = length f) as -> by lia. rewrite firstn_all, firstn_all2; [done|]. rewrite length_app, length_replicate. lia.
  - rewrite !length_app, length_take, length_replicate, length_drop. lia.
  - intros Hk Hh. rewrite Hk. destruct h; [lia|done].
Qed.

Lemma padded_drop n k f : (k <= n)%nat -> (length f <= n)%nat -> drop k (padded n f) = padded (n - k) (drop (Nat.min k (length f)) f).
Proof.
  intros Hk Hf. unfold padded. rewrite drop_app, drop_replicate, length_drop. f_equal; [|f_equal; lia].
  destruct (decide (k <= length f)%nat); [by rewrite Nat.min_l by lia|]. rewrite Nat.min_r, !drop_ge by lia. done.
Qed.

Lemma even_min a b : Nat.even a = true -> Nat.even b = true -> Nat.even (Nat.min a b) = true.
Proof. intros Ha Hb. destruct (Nat.min_spec a b) as [[_ ->]|[_ ->]]; done. Qed.
Lemma even_max a b : Nat.even a = true -> Nat.even b = true -> Nat.even (Nat.max a b) = true.
Proof. intros Ha Hb. destruct (Nat.max_spec a b) as [[_ ->]|[_ ->]]; done. Qed.
Lemma even_half n : Nat.even n = true -> n = (2 * Nat.div2 n)%nat /\ Nat.div2 (n + 1) = Nat.div2 n.
Proof. intros H. apply Nat.even_spec in H as [k ->]. rewrite Nat.div2_double. replace (2 * k + 1)%nat with (S (2 * k)) by lia. by rewrite Nat.div2_succ_double. Qed.

(** A round's samples and those of what is left are those of the whole. *)
Lemma stereo_split h n c1 c2 f1 f2 : take n c1 = take n (padded n f1) -> take n c2 = take n (padded n f2) -> n = Nat.min h (Nat.max (length f1) (length f2)) -> n <> O ->
  Nat.even n = true -> Nat.even (Nat.max (length f1) (length f2)) = true ->
  stereo f1 f2 = interleave_buffers (Nat.div2 n) c1 c2 ++ stereo (drop (h `min` length f1) f1) (drop (h `min` length f2) f2).
Proof.
  intros T1 T2 Hnm En Hne Hme. set (m := Nat.max (length f1) (length f2)) in *. destruct (even_half n Hne) as [H2n _]. destruct (even_half m Hme) as [H2m _]. unfold stereo. fold m.
  replace (Nat.max (length (drop (h `min` length f1) f1)) (length (drop (h `min` length f2) f2))) with (m - n)%nat by (rewrite !length_drop; unfold m in *; lia).
  replace (Nat.div2 m) with (Nat.div2 n + Nat.div2 (m - n))%nat.
  2: { assert (Nat.even (m - n) = true) as H by (rewrite Nat.even_sub by lia; by rewrite Hne, Hme). destruct (even_half _ H) as [H2 _]. lia. }
  rewrite interleave_add, <- H2n, !padded_drop by (unfold m in *; lia). symmetry. f_equal.
  - apply interleave_take; rewrite <- H2n; [rewrite T1|rewrite T2]; unfold padded; rewrite !take_app; f_equal; rewrite !take_replicate; f_equal; unfold m in *; lia.
  - assert (forall k, Nat.min n k = Nat.min h (Nat.min m k)) as Hk by lia. rewrite !Hk. f_equal; f_equal; f_equal; unfold m; lia.
Qed.

(** What interleaving the files comes to when their reads do not fail. *)
Definition interleaves (f1 f2 : bytes) (rec : osFile) (r : interleaved) : Prop :=
  match r with
  | Done rec' None => data rec' = data rec ++ stereo f1 f2
  | Done _ (Some _) => exists n, outcome rec n <> None
  | Panicked => False
  end.

Lemma interleave_loop_spec turns h faults1 faults2 k f1 f2 b1 b2 rec : (0 < h)%nat -> Nat.even h = true -> whole f1 -> whole f2 -> length b1 = h -> length b2 = h ->
  (forall n, faults1 n = None /\ faults2 n = None) -> (Nat.max (length f1) (length f2) < turns)%nat ->
  exists r, interleave_loop turns h faults1 faults2 k f1 f2 b1 b2 rec = Some r /\ interleaves f1 f2 rec r.
Proof.
  intros Hh He W1 W2 L1 L2 Hfl. revert k f1 f2 b1 b2 rec W1 W2 L1 L2. induction turns as [|turns IH]; intros k f1 f2 b1 b2 rec W1 W2 L1 L2 Hl; [lia|]. cbn [interleave_loop].
  destruct (Hfl k) as [-> ->]. set (n := Nat.max (Nat.min h (length f1)) (Nat.min h (length f2))).
  pose proof (round_buffer h n f1 b1 L1 ltac:(lia) ltac:(lia)) as R1; pose proof (round_buffer h n f2 b2 L2 ltac:(lia) ltac:(lia)) as R2.
  destruct (ReadFull h None f1 b1) as [[[c1 n1] r1] e1], (ReadFull h None f2 b2) as [[[c2 n2] r2] e2]; destruct R1 as (T1 & K1 & -> & -> & E1), R2 as (T2 & K2 & -> & -> & E2); fold n.
  set (m := Nat.max (length f1) (length f2)) in *. destruct (Nat.eqb_spec n 0) as [En|En].
  { assert (length f1 = O /\ length f2 = O) as [F1 F2] by (unfold n in En; lia). rewrite E1, E2 by lia. cbn [bool_decide andb orb]. eexists. split; [reflexivity|].
    apply nil_length_inv in F1 as ->, F2 as ->. cbn. by rewrite app_nil_r. }
  rewrite andb_false_r. assert (Nat.even n = true /\ Nat.even m = true) as [Hne Hme] by (split; apply even_max; try apply even_min; assumption).
  assert (n = Nat.min h m) as Hnm by (unfold n, m; lia). assert (Nat.odd n = false) as -> by (by rewrite <- Nat.negb_even, Hne). cbn [andb].
  destruct (even_half n Hne) as [H2n Hd]. destruct (even_half m Hme) as [H2m _]. rewrite Hd. pose proof (file_Write_spec (interleave_buffers (Nat.div2 n) (clear (h `min` length f1) n c1) (clear (h `min` length f2) n c2)) rec) as HW.
  destruct (file_Write _ rec) as [[rec' w] [e|]]; destruct HW as (D & _ & Hall & Ho & Hok); cbn [interleaves].
  { eexists. split; [reflexivity|]. cbn. exists (writes rec). intros E. by specialize (Hok E). }
  edestruct (IH (S k) (drop (h `min` length f1) f1) (drop (h `min` length f2) f2) (clear (h `min` length f1) n c1) (clear (h `min` length f2) n c2) rec') as (r & Er & Hr); [| |exact K1|exact K2| |].
  - unfold whole in *. rewrite length_drop, Nat.even_sub by lia. rewrite W1, even_min by assumption. done.
  - unfold whole in *. rewrite length_drop, Nat.even_sub by lia. rewrite W2, even_min by assumption. done.
  - rewrite !length_drop. unfold m in *. lia.
  - exists r. split; [exact Er|]. destruct r as [rec2 [e|]|]; cbn [interleaves] in *; [by rewrite Ho in Hr| |done].
    rewrite Hr, D, (Hall eq_refl), firstn_all, <- app_assoc. f_equal. symmetry. apply stereo_split; [exact T1|exact T2|lia..|exact Hne|exact Hme].
Qed.

Lemma stereo_channels n f1 f2 : length f1 = (2 * n)%nat -> length f2 = (2 * n)%nat -> channels (Pcm.samples (interleave_buffers n f1 f2)) = (Pcm.samples f1, Pcm.samples f2).
Proof.
  revert f1 f2. induction n as [|n IH]; intros f1 f2 H1 H2.
  - destruct f1, f2; try (cbn in *; lia). done.
  - destruct f1 as [|a [|b f1]], f2 as [|c [|d f2]]; try (cbn in *; lia). cbn [interleave_buffers take drop app Pcm.samples channels]. rewrite !take_0, !drop_0. cbn [app Pcm.samples channels].
    rewrite IH by (cbn in *; lia). done.
Qed.
Lemma samples_padded n f : whole f -> Pcm.samples (padded n f) = Pcm.samples f ++ Pcm.samples (replicate (n - length f) 0).
Proof.
  intros H. unfold padded. apply Nat.even_spec in H as [k Hk]. generalize (replicate (n - length f) 0). intros z. revert f Hk. induction k as [|k IH]; intros f Hk.
  - destruct f; [done|cbn in Hk; lia].
  - destruct f as [|a [|b f]]; try (cbn in Hk; lia). cbn [app Pcm.samples]. rewrite IH by (cbn in *; lia). done.
Qed.
Lemma samples_zero k : Pcm.samples (replicate (2 * k) 0) = replicate k 0.
Proof. induction k as [|k IH]; [done|]. replace (2 * S k)%nat with (S (S (2 * k))) by lia. cbn [replicate Pcm.samples]. by rewrite IH. Qed.


(** Half a buffer of an odd size has a byte left over with nothing beside it. *)
Lemma odd_half_panics turns h f1 f2 b1 b2 rec : Nat.odd h = true -> (h <= Nat.max (length f1) (length f2))%nat ->
  interleave_loop (S turns) h (fun _ => None) (fun _ => None) 0 f1 f2 b1 b2 rec = Some Panicked.
Proof.
  intros Ho Hl. assert (h <> O) by (by intros ->). cbn [interleave_loop ReadFull]. unfold ReadFull. assert (Nat.max (Nat.min h (length f1)) (Nat.min h (length f2)) = h) as -> by lia.
  destruct (Nat.eqb_spec h 0) as [|_]; [done|]. rewrite andb_false_r, Ho, Nat.eqb_refl. done.
Qed.
(** Without buffers interleaving never ends. *)
Lemma no_half_never_ends turns k f1 f2 b1 b2 rec : (forall n, outcome rec n = None) -> interleave_loop turns 0 (fun _ => None) (fun _ => None) k f1 f2 b1 b2 rec = None.
Proof.
  revert k f1 f2 b1 b2 rec. induction turns as [|turns IH]; intros k f1 f2 b1 b2 rec Hn; [done|]. cbn [interleave_loop]. unfold ReadFull. cbn.
  pose proof (file_Write_spec [] rec) as HW. destruct (file_Write [] rec) as [[rec' w] err]. destruct HW as (_ & _ & _ & Ho & Hok). rewrite (Hok (Hn _)). apply IH. intros n. by rewrite Ho.
Qed.

(** ** A stereo recording *)

Inductive sevent := ELeft (ev : event) | ERight (ev : event) | EBoth (rnow wnow : Z).

Section Stereo.
Context (turns : nat) (c : Codec) (Hsrt : 0 < SampleTimestamp c < 2 ^ 31) (dec : PcmCoding.coder) (fl1 fl2 : bool).

Definition sstep (ev : sevent) (m : MonitorPCMStereo) : option MonitorPCMStereo :=
  match ev with
  | ELeft ev => (fun l => m <| MonitorPCMReader := l |>) <$> step turns ev (MonitorPCMReader m)
  | ERight ev => (fun r => m <| MonitorPCMWriter := r |>) <$> step turns ev (MonitorPCMWriter m)
  | EBoth rnow wnow => fst <$> stereo_Flush turns rnow wnow m
  end.
Fixpoint srun (l : list sevent) (m : MonitorPCMStereo) : option MonitorPCMStereo := match l with [] => Some m | ev :: l => sstep ev m ≫= srun l end.

(** The timelines of both directions. *)
Definition shears (ev : sevent) (t : timeline * timeline) : timeline * timeline :=
  match ev with
  | ELeft ev => (hears c dec fl1 ev t.1, t.2)
  | ERight ev => (t.1, hears c dec fl2 ev t.2)
  | EBoth rnow wnow => (hears c dec fl1 (EFlush rnow) t.1, hears c dec fl2 (EFlush wnow) t.2)
  end.
Definition spaced (ev : sevent) (t : timeline * timeline) : Prop :=
  match ev with ELeft ev => paced c ev t.1 | ERight ev => paced c ev t.2 | EBoth rnow wnow => paced c (EFlush rnow) t.1 /\ paced c (EFlush wnow) t.2 end.
Definition sheard (l : list sevent) (t : timeline * timeline) : timeline * timeline := foldl (fun t ev => shears ev t) t l.
Fixpoint all_spaced (l : list sevent) (t : timeline * timeline) : Prop := match l with [] => True | ev :: l => spaced ev t /\ all_spaced l (shears ev t) end.

(** The right one is told of what the left one is, unless the left one's file failed. *)
Definition sfollows (rec : osFile) (m : MonitorPCMStereo) (t : timeline * timeline) : Prop :=
  follows c dec fl1 (MonitorPCMReader m) t.1 /\ (failed (MonitorPCMReader m) = None -> follows c dec fl2 (MonitorPCMWriter m) t.2) /\ recording m = rec.
Definition ssound (m : MonitorPCMStereo) : Prop := sound (writer (pcm (MonitorPCMReader m))) /\ sound (writer (pcm (MonitorPCMWriter m))).

Lemma Flush_step now m : step turns (EFlush now) m = (fun '(p, _) => m <| pcm := p |>) <$> Flush turns now (pcm m).
Proof. done. Qed.

Lemma Flush_follows fl now m t p err : follows c dec fl m t -> paced c (EFlush now) t -> Flush turns now (pcm m) = Some (p, err) ->
  follows c dec fl (m <| pcm := p |>) (hears c dec fl (EFlush now) t) /\ (berr (writer p) = None -> failed m = None) /\ (berr (writer p) = None -> err = None).
Proof.
  intros Hf Hp E. pose proof (Flush_wrote turns c Hsrt now (pcm m) (d_pcm _ _ _ _ (f_direction _ _ _ _ _ Hf)) (paced_gives c dec fl (EFlush now) now m t Hf Hp eq_refl)) as Hw.
  destruct (wrote_follows turns c dec fl now [] m t _ p err Hf Hw E) as [H1 H2]. split_and!; [done|intros E0; by apply H2..].
Qed.

Lemma stereo_Flush_follows rec rnow wnow m t m' err : sfollows rec m t -> spaced (EBoth rnow wnow) t -> stereo_Flush turns rnow wnow m = Some (m', err) -> sfollows rec m' (shears (EBoth rnow wnow) t).
Proof.
  intros (Hl & Hr & Hrec) [Pl Pr]. unfold stereo_Flush. destruct (Flush turns rnow (pcm (MonitorPCMReader m))) as [[l e1]|] eqn:E1; [|done].
  destruct (Flush_follows _ _ _ _ _ _ Hl Pl E1) as (Hl' & K1 & K2). destruct e1 as [e1|].
  { intros [= <- <-]. split; [exact Hl'|split; [|exact Hrec]]. intros E. by specialize (K2 E). }
  destruct (Flush turns wnow (pcm (MonitorPCMWriter m))) as [[r e2]|] eqn:E2; [|done]. intros [= <- <-]. split; [exact Hl'|split; [|exact Hrec]].
  intros E. specialize (Hr (K1 E)). by destruct (Flush_follows _ _ _ _ _ _ Hr Pr E2).
Qed.
(** A flush of both that worked leaves both timelines in the files. *)
Lemma stereo_Flush_done rec rnow wnow m t m' : sfollows rec m t -> spaced (EBoth rnow wnow) t -> stereo_Flush turns rnow wnow m = Some (m', None) ->
  data (wr (writer (pcm (MonitorPCMReader m')))) = t_bytes (shears (EBoth rnow wnow) t).1 /\ data (wr (writer (pcm (MonitorPCMWriter m')))) = t_bytes (shears (EBoth rnow wnow) t).2.
Proof.
  intros Hs Hp E. pose proof (stereo_Flush_follows _ _ _ _ _ _ _ Hs Hp E) as ([_ _ Al] & Hr & _). revert E. unfold stereo_Flush. destruct (Flush turns rnow (pcm (MonitorPCMReader m))) as [[l [e1|]]|] eqn:E1; [done| |done].
  destruct (Flush turns wnow (pcm (MonitorPCMWriter m))) as [[r e2]|] eqn:E2; [|done]. intros [= <- ->]. destruct (Flush_done _ _ _ _ E1) as [D1 F1], (Flush_done _ _ _ _ E2) as [D2 F2].
  destruct (Hr F1) as [_ _ Ar]. destruct (Al F1) as [A1 _], (Ar F2) as [A2 _]. cbn. rewrite D1, D2. done.
Qed.

Lemma sstep_follows rec ev m t m' : sfollows rec m t -> spaced ev t -> sstep ev m = Some m' -> sfollows rec m' (shears ev t).
Proof.
  intros Hs Hp. pose proof Hs as (Hl & Hr & Hrec). destruct ev as [ev|ev|rnow wnow]; cbn [sstep].
  - destruct (step turns ev (MonitorPCMReader m)) as [l|] eqn:E; [|done]. intros [= <-]. destruct (step_follows turns c dec fl1 Hsrt ev _ _ l Hl Hp E) as [H1 H2]. split; [exact H1|split; [|exact Hrec]].
    intros E0. exact (Hr (H2 E0)).
  - destruct (step turns ev (MonitorPCMWriter m)) as [r|] eqn:E; [|done]. intros [= <-]. split; [exact Hl|split; [|exact Hrec]]. intros E0. specialize (Hr E0).
    by destruct (step_follows turns c dec fl2 Hsrt ev _ _ r Hr Hp E).
  - destruct (stereo_Flush turns rnow wnow m) as [[m1 err]|] eqn:E; [|done]. intros [= <-]. by eapply stereo_Flush_follows.
Qed.
Lemma srun_follows rec l m t m' : sfollows rec m t -> all_spaced l t -> srun l m = Some m' -> sfollows rec m' (sheard l t).
Proof.
  revert m t. induction l as [|ev l IH]; intros m t Hf Hp; cbn [srun]; [by intros [= <-]|]. destruct Hp as [Hp Hps]. destruct (sstep ev m) as [m1|] eqn:E; [|done]. cbn [mbind option_bind].
  apply IH; [by eapply sstep_follows|done].
Qed.

(** Files that do not fail never stop a recording. *)
Lemma Flush_ends fl now m t : 2 ^ 32 <= Z.of_nat turns -> follows c dec fl m t -> paced c (EFlush now) t -> sound (writer (pcm m)) -> exists p, Flush turns now (pcm m) = Some (p, None) /\ sound (writer p).
Proof.
  intros Ht Hf Hp Hs. destruct (Flush_wrote turns c Hsrt now (pcm m) (d_pcm _ _ _ _ (f_direction _ _ _ _ _ Hf)) (paced_gives c dec fl (EFlush now) now m t Hf Hp eq_refl)) as [H1 H2].
  destruct (H2 Ht Hs) as [p E]. destruct (H1 _ _ E) as ((_ & S1 & _) & _). eauto.
Qed.
Lemma stereo_Flush_ends rec rnow wnow m t : 2 ^ 32 <= Z.of_nat turns -> sfollows rec m t -> spaced (EBoth rnow wnow) t -> ssound m ->
  exists m', stereo_Flush turns rnow wnow m = Some (m', None) /\ ssound m'.
Proof.
  intros Ht (Hl & Hr & _) [Pl Pr] [Sl Sr]. specialize (Hr (proj1 Sl)). unfold stereo_Flush. destruct (Flush_ends _ _ _ _ Ht Hl Pl Sl) as (l & -> & Sl'). destruct (Flush_ends _ _ _ _ Ht Hr Pr Sr) as (r & -> & Sr').
  eexists. split; [reflexivity|done].
Qed.
Lemma srun_ends rec l m t : 2 ^ 32 <= Z.of_nat turns -> sfollows rec m t -> all_spaced l t -> ssound m -> exists m', srun l m = Some m' /\ ssound m'.
Proof.
  intros Ht. revert m t. induction l as [|ev l IH]; intros m t Hf Hp Hs; cbn [srun]; [by eauto|]. destruct Hp as [Hp Hps].
  assert (exists m1, sstep ev m = Some m1 /\ ssound m1) as (m1 & E & Hs1).
  { pose proof Hf as (Hl & Hr & _). pose proof Hs as [Sl Sr]. specialize (Hr (proj1 Sl)). destruct ev as [ev|ev|rnow wnow]; cbn [sstep].
    - destruct (step_ends turns c dec fl1 Hsrt ev _ _ Ht Hl Hp Sl) as (x & -> & Hx). by eexists.
    - destruct (step_ends turns c dec fl2 Hsrt ev _ _ Ht Hr Hp Sr) as (x & -> & Hx). by eexists.
    - destruct (stereo_Flush_ends _ _ _ _ _ Ht Hf Hp Hs) as (x & -> & Hx). by eexists. }
  rewrite E. cbn [mbind option_bind]. apply (IH m1 (shears ev t)); [by eapply sstep_follows|done|done].
Qed.

Lemma sheard_whole l t : coder_whole dec -> whole (t_bytes t.1) /\ whole (t_bytes t.2) -> whole (t_bytes (sheard l t).1) /\ whole (t_bytes (sheard l t).2).
Proof.
  intros Hd. revert t. induction l as [|ev l IH]; intros t [H1 H2]; [done|]. cbn [sheard foldl]. apply IH. destruct ev as [ev|ev|rnow wnow]; cbn [shears fst snd]; (split; try done; by apply hears_whole).
Qed.
Lemma sheard_app l1 l2 t : sheard (l1 ++ l2) t = sheard l2 (sheard l1 t).
Proof. apply foldl_app. Qed.
Lemma all_spaced_app l1 l2 t : all_spaced (l1 ++ l2) t -> all_spaced l1 t /\ all_spaced l2 (sheard l1 t).
Proof. revert t. induction l1 as [|ev l IH]; intros t; cbn [app all_spaced]; [done|]. intros [H1 H2]. by destruct (IH _ H2). Qed.
End Stereo.

(** The channels of two files beside each other: the shorter is made as long as the
    other by silence. *)
Definition side_by_side (left right : list Z) : list Z * list Z :=
  (left ++ replicate (length right - length left) 0, right ++ replicate (length left - length right) 0).
Lemma whole_samples f : whole f -> length f = (2 * length (Pcm.samples f))%nat.
Proof.
  intros W. destruct (even_half _ W) as [E _]. rewrite E at 1. f_equal. revert E. generalize (Nat.div2 (length f)) as k. intros k. revert f W. induction k as [|k IH]; intros f W E; destruct f as [|a [|b f]]; cbn in E; try lia; [done|].
  cbn [Pcm.samples length]. f_equal. apply IH; [exact W|lia].
Qed.
Lemma stereo_samples f1 f2 : whole f1 -> whole f2 -> channels (Pcm.samples (stereo f1 f2)) = side_by_side (Pcm.samples f1) (Pcm.samples f2).
Proof.
  intros W1 W2. pose proof (whole_samples f1 W1) as E1. pose proof (whole_samples f2 W2) as E2. unfold stereo, side_by_side. set (n := Nat.max (length f1) (length f2)).
  destruct (even_half n (even_max _ _ W1 W2)) as [Hn _]. rewrite stereo_channels by (rewrite padded_length; lia). rewrite !samples_padded by assumption.
  replace (n - length f1)%nat with (2 * (length (Pcm.samples f2) - length (Pcm.samples f1)))%nat by lia.
  replace (n - length f2)%nat with (2 * (length (Pcm.samples f1) - length (Pcm.samples f2)))%nat by lia. by rewrite !samples_zero.
Qed.

(** What closing does before it interleaves. *)
Definition closing (e : close_env) : list sevent := [ELeft EStop; ERight EStop; EBoth (cl_rnow e) (cl_wnow e)].

Lemma stereo_Init_follows DecodeUlawFrame DecodeAlawFrame c flushSize rnow wnow fl1 fl2 o1 o2 o3 m0 :
  stereo_Init DecodeUlawFrame DecodeAlawFrame flushSize rnow wnow (new_file o1) (new_file o2) (new_file o3) c fl1 fl2 = inl m0 -> let dec := decoder (MonitorPCMReader m0) in
  sfollows c dec fl1 fl2 (new_file o3) m0 (fresh rnow, fresh wnow) /\ coder_whole dec /\
  wr (writer (pcm (MonitorPCMReader m0))) = new_file o1 /\ wr (writer (pcm (MonitorPCMWriter m0))) = new_file o2 /\ failed (MonitorPCMReader m0) = None /\ failed (MonitorPCMWriter m0) = None.
Proof.
  unfold stereo_Init. destruct (monitor_Init _ _ _ rnow _ _ _) as [r|] eqn:E1; [|done]. destruct (monitor_Init _ _ _ wnow _ _ _) as [w|] eqn:E2; [|done]. intros [= <-]. cbn.
  destruct (Init_follows DecodeUlawFrame DecodeAlawFrame c flushSize rnow (new_file o1) fl1 r eq_refl E1) as (F1 & I1 & W1 & N1).
  destruct (Init_follows DecodeUlawFrame DecodeAlawFrame c flushSize wnow (new_file o2) fl2 w eq_refl E2) as (F2 & I2 & W2 & N2). assert (decoder w = decoder r) as Ed by congruence. rewrite Ed in F2.
  split_and!; [split; [exact F1|done]|by eapply Init_whole|done..].
Qed.

Section Closing.
Context (turns : nat) (DecodeUlawFrame DecodeAlawFrame : Z -> Z) (c : Codec) (Hsrt : 0 < SampleTimestamp c < 2 ^ 31) (flushSize rnow wnow : Z) (fl1 fl2 : bool).
Context (o1 o2 o3 : nat -> option (nat * error)) (m0 : MonitorPCMStereo) (l : list sevent) (e : close_env).
Context (Hhalf : 0 < Z.quot flushSize 2) (Heven : Z.even (Z.quot flushSize 2) = true).
Context (Hinit : stereo_Init DecodeUlawFrame DecodeAlawFrame flushSize rnow wnow (new_file o1) (new_file o2) (new_file o3) c fl1 fl2 = inl m0).
Let dec := decoder (MonitorPCMReader m0).
Let t := sheard c dec fl1 fl2 (l ++ closing e) (fresh rnow, fresh wnow).
Context (Hspaced : all_spaced c dec fl1 fl2 (l ++ closing e) (fresh rnow, fresh wnow)).
Context (Hseek : cl_seek1 e = None /\ cl_seek2 e = None) (Hfaults : forall n, cl_faults1 e n = None /\ cl_faults2 e n = None).
Context (Hturns : (Nat.max (length (t_bytes t.1)) (length (t_bytes t.2)) < turns)%nat).

Lemma t_whole : whole (t_bytes t.1) /\ whole (t_bytes t.2).
Proof using Hinit. destruct (stereo_Init_follows _ _ _ _ _ _ _ _ _ _ _ _ Hinit) as (_ & H & _). by apply sheard_whole. Qed.

(** What interleaving makes of the files. *)
Lemma interleave_spec rec : data rec = [] -> outcome rec = o3 -> exists r, interleave turns e flushSize (t_bytes t.1) (t_bytes t.2) rec = Some r /\ interleaves (t_bytes t.1) (t_bytes t.2) rec r.
Proof using Hinit Hhalf Heven Hseek Hfaults Hturns.
  intros Hd Ho. unfold interleave. destruct Hseek as [-> ->]. destruct (Z.ltb_spec (Z.quot flushSize 2) 0) as [|_]; [lia|]. destruct t_whole as [W1 W2].
  apply interleave_loop_spec; [lia| |done|done|apply length_replicate|apply length_replicate|done|done].
  apply Z.even_spec in Heven as [k Hk]. rewrite Hk. apply Nat.even_spec. exists (Z.to_nat k). lia.
Qed.

Definition recorded (m' : MonitorPCMStereo) : Prop :=
  channels (Pcm.samples (data (recording m'))) = side_by_side (Pcm.samples (t_bytes t.1)) (Pcm.samples (t_bytes t.2)).

Lemma close_records m m1 : srun turns l m0 = Some m -> let ms := at_writer (Stop (pcm (MonitorPCMWriter m))) (at_reader (Stop (pcm (MonitorPCMReader m))) m) in
  stereo_Flush turns (cl_rnow e) (cl_wnow e) ms = Some (m1, None) ->
  recording m1 = new_file o3 /\ data (wr (writer (pcm (MonitorPCMReader m1)))) = t_bytes t.1 /\ data (wr (writer (pcm (MonitorPCMWriter m1)))) = t_bytes t.2.
Proof using Hinit Hsrt Hspaced.
  intros Hr ms Hf. destruct (stereo_Init_follows _ _ _ _ _ _ _ _ _ _ _ _ Hinit) as (H0 & _). pose proof Hspaced as Hsp. apply (all_spaced_app c) in Hsp as [Sp1 (Sp2 & Sp3 & Sp4 & _)].
  pose proof (srun_follows turns c Hsrt dec fl1 fl2 _ _ _ _ _ H0 Sp1 Hr) as Hm.
  pose proof (sstep_follows turns c Hsrt dec fl1 fl2 _ (ELeft EStop) _ _ _ Hm Sp2 eq_refl) as H1. pose proof (sstep_follows turns c Hsrt dec fl1 fl2 _ (ERight EStop) _ _ _ H1 Sp3 eq_refl) as H2.
  pose proof (stereo_Flush_follows turns c Hsrt dec fl1 fl2 _ _ _ ms _ _ _ H2 Sp4 Hf) as (_ & _ & Hrec). pose proof (stereo_Flush_done turns c Hsrt dec fl1 fl2 _ _ _ ms _ _ H2 Sp4 Hf) as [D1 D2].
  split; [exact Hrec|]. unfold t. rewrite sheard_app. exact (conj D1 D2).
Qed.
End Closing.

(** C35. A stereo recording that is closed without an error has the timelines of the two
    directions as its channels: on the left what was read, on the right what was
    written, each decoded frame behind whole frames of silence for the time in which
    nothing came, nothing of what came while it was stopped, and silence from the last
    frame to the closing; the shorter is made as long as the other by silence. That holds
    whichever writes of the files fail and however short they are; and when none fails
    every call returns, the recording is closed, and it is that. The halves of
    [RecordingFlushSize] are an even number of bytes and one at least (see
    [odd_half_panics] and [no_half_never_ends] for others), the files can be sought and
    read again, and no gap comes within a frame of the samples 32 bits count. *)
Theorem stereo_recording turns DecodeUlawFrame DecodeAlawFrame c flushSize rnow wnow fl1 fl2 o1 o2 o3 m0 l e :
  0 < SampleTimestamp c < 2 ^ 31 -> 0 < Z.quot flushSize 2 -> Z.even (Z.quot flushSize 2) = true ->
  stereo_Init DecodeUlawFrame DecodeAlawFrame flushSize rnow wnow (new_file o1) (new_file o2) (new_file o3) c fl1 fl2 = inl m0 ->
  let dec := decoder (MonitorPCMReader m0) in let t := sheard c dec fl1 fl2 (l ++ closing e) (fresh rnow, fresh wnow) in
  let recorded m' := channels (Pcm.samples (data (recording m'))) = side_by_side (Pcm.samples (t_bytes t.1)) (Pcm.samples (t_bytes t.2)) /\ removed m' = true in
  all_spaced c dec fl1 fl2 (l ++ closing e) (fresh rnow, fresh wnow) ->
  cl_seek1 e = None /\ cl_seek2 e = None -> (forall n, cl_faults1 e n = None /\ cl_faults2 e n = None) ->
  2 ^ 32 <= Z.of_nat turns -> (Nat.max (length (t_bytes t.1)) (length (t_bytes t.2)) < turns)%nat ->
  (forall m m', srun turns l m0 = Some m -> stereo_Close turns e flushSize m = Some (m', inl None) -> recorded m') /\
  ((forall n, o1 n = None /\ o2 n = None /\ o3 n = None) -> exists m m', srun turns l m0 = Some m /\ stereo_Close turns e flushSize m = Some (m', inl (cl_remove e)) /\ recorded m').
Proof.
  intros Hs Hh He Hi dec t recorded Hsp Hseek Hfl Ht Htl.
  pose proof (close_records turns DecodeUlawFrame DecodeAlawFrame c Hs flushSize rnow wnow fl1 fl2 o1 o2 o3 m0 l e Hi Hsp) as Hc.
  pose proof (interleave_spec turns DecodeUlawFrame DecodeAlawFrame c flushSize rnow wnow fl1 fl2 o1 o2 o3 m0 l e Hh He Hi Hseek Hfl Htl (new_file o3) eq_refl eq_refl) as (r & Ei & Hr). fold dec t in Hc, Ei, Hr.
  pose proof (t_whole DecodeUlawFrame DecodeAlawFrame c flushSize rnow wnow fl1 fl2 o1 o2 o3 m0 l e Hi) as [W1 W2]. fold dec t in W1, W2.
  assert (forall rec m1, r = Done rec None -> recorded (m1 <| recording := rec |> <| removed := true |>)) as Hrec.
  { intros rec m1 ->. split; [|done]. cbn in Hr |- *. rewrite Hr. cbn [app]. by apply stereo_samples. }
  split.
  - intros m m' Hrun Hcl. specialize (Hc m). unfold stereo_Close in Hcl. cbv zeta in Hcl, Hc. destruct (stereo_Flush _ _ _ _) as [[m1 [err|]]|] eqn:Ef; [done| |done].
    destruct (Hc m1 Hrun eq_refl) as (E3 & E1 & E2). rewrite E1, E2, E3, Ei in Hcl. destruct r as [rec [err|]|]; [done| |done]. injection Hcl as <- _. by apply Hrec.
  - intros Hn. destruct (stereo_Init_follows DecodeUlawFrame DecodeAlawFrame c flushSize rnow wnow fl1 fl2 o1 o2 o3 m0 Hi) as (H0 & _ & F1 & F2 & N1 & N2). fold dec in H0.
    assert (ssound m0) as S0 by (split; (split; [assumption|]); intros n; [rewrite F1|rewrite F2]; by apply Hn). pose proof Hsp as Hsp'. apply (all_spaced_app c) in Hsp' as [Sp1 (Sp2 & Sp3 & Sp4 & _)].
    destruct (srun_ends turns c Hs dec fl1 fl2 _ _ _ _ Ht H0 Sp1 S0) as (m & Hrun & S1). pose proof (srun_follows turns c Hs dec fl1 fl2 _ _ _ _ _ H0 Sp1 Hrun) as Hm.
    pose proof (sstep_follows turns c Hs dec fl1 fl2 _ (ELeft EStop) _ _ _ Hm Sp2 eq_refl) as H1. pose proof (sstep_follows turns c Hs dec fl1 fl2 _ (ERight EStop) _ _ _ H1 Sp3 eq_refl) as H2.
    destruct (stereo_Flush_ends turns c Hs dec fl1 fl2 _ _ _ _ _ Ht H2 Sp4 S1) as (m1 & Ef & _). destruct (Hc m m1 Hrun Ef) as (E3 & E1 & E2).
    destruct r as [rec [err|]|]; [destruct Hr as [n Hr]; by destruct (Hr (proj2 (proj2 (Hn n))))| |done]. exists m. eexists. split; [exact Hrun|]. split; [|by apply (Hrec rec m1)].
    unfold stereo_Close. cbv zeta. unfold at_reader, at_writer in *. cbn in Ef |- *. rewrite Ef, E1, E2, E3, Ei. done.
Qed.

(** *** A call of G.711 *)

Definition ex_never (n : nat) : option (nat * error) := None.
(** Two frames in, one frame out, the second of them in after a gap; what comes while it
    is stopped is not recorded. *)
Definition ex_call : list sevent :=
  [ELeft (EIo (20 * Millisecond) (inl [1; 2])); ERight (EIo (20 * Millisecond) (inl [9])); EBoth (20 * Millisecond) (20 * Millisecond); ELeft EStop; ELeft (EIo (25 * Millisecond) (inl [7])); ELeft EStart;
   ELeft (EIo (30 * Millisecond) (inl [3]))].
Definition ex_close : close_env := {| cl_rnow := 30 * Millisecond; cl_wnow := 80 * Millisecond; cl_seek1 := None; cl_seek2 := None; cl_faults1 := ex_never; cl_faults2 := ex_never; cl_remove := None |}.
Definition ex_decode (b : Z) : Z := b * 256.

Lemma stereo_recording_witness : let turns := Z.to_nat (2 ^ 33) in exists m0 m m',
  stereo_Init ex_decode ex_decode 4096 0 0 (new_file ex_never) (new_file ex_never) (new_file ex_never) CodecAudioUlaw true false = inl m0 /\
  srun turns ex_call m0 = Some m /\ stereo_Close turns ex_close 4096 m = Some (m', inl None) /\
  channels (Pcm.samples (data (recording m'))) = ([256; 512; 768] ++ replicate 158 0, 2304 :: replicate 160 0).
Proof.
  intros turns. assert (2 ^ 32 <= Z.of_nat turns) as Ht by (unfold turns; rewrite Z2Nat.id; lia). clearbody turns. destruct (stereo_Init ex_decode ex_decode 4096 0 0 (new_file ex_never) (new_file ex_never) (new_file ex_never) CodecAudioUlaw true false) as [m0|] eqn:Hi; [|done]. exists m0.
  assert (decoder (MonitorPCMReader m0) = PcmCoding.DecodeUlawTo ex_decode) as Hd by (unfold stereo_Init, monitor_Init in Hi; change (PcmCoding.PCMDecoder_Init ex_decode ex_decode CodecAudioUlaw) with (@inl _ error (PcmCoding.DecodeUlawTo ex_decode)) in Hi; cbv iota beta in Hi; apply (inj inl) in Hi; by rewrite <- Hi).
  pose proof (stereo_recording turns ex_decode ex_decode CodecAudioUlaw 4096 0 0 true false ex_never ex_never ex_never m0 ex_call ex_close ltac:(vm_compute; done) ltac:(vm_compute; done) eq_refl Hi) as H. cbv zeta in H. rewrite Hd in H.
  match type of H with ?S -> _ => assert S as Hsp by (vm_compute; repeat split; congruence) end.
  specialize (H Hsp (conj eq_refl eq_refl) (fun n => conj eq_refl eq_refl) Ht).
  match type of H with (?a < _)%nat -> _ => assert (a < turns)%nat as Hl end.
  { match goal with |- (?a < _)%nat => assert (a = 322%nat) as -> by (vm_compute; reflexivity) end. lia. }
  destruct (proj2 (H Hl) (fun n => conj eq_refl (conj eq_refl eq_refl))) as (m & m' & E1 & E2 & E3 & _). exists m, m'. split; [reflexivity|]. split; [exact E1|]. split; [exact E2|]. rewrite E3. vm_compute. reflexivity.
Defined.

(** Half a buffer of three bytes, and a direction that is longer: closing panics. *)
Example ex_odd_half : interleave_loop 3 3 ex_never ex_never 0 [1; 2; 3; 4] [5; 6] (replicate 3 0) (replicate 3 0) (new_file ex_never) = Some Panicked.
Proof. reflexivity. Qed.
(** A direction that cannot be read again is silence: the error is not told while there is something of the other. *)
Example ex_fault_swallowed : interleave_loop 3 4 (fun _ => Some (0%nat, ErrNew "read")) (fun n => match n with O => None | _ => Some (0%nat, io_EOF) end) 0 [1; 2] [5; 6; 7; 8] (replicate 4 0) (replicate 4 0) (new_file ex_never) =
  Some (Done {| data := [0; 0; 5; 6; 0; 0; 7; 8]; writes := 1; outcome := ex_never |} (Some (ErrNew "read"))).
Proof. reflexivity. Qed.

End RecorderProps.
