(* ===== verification/Transports.v ===== *)
(** * Transports

    [diago.go]: the transports of a Diago as its options load them, the clients they
    send requests with, how one is chosen for a dialog and what the dialog takes of it,
    and the listeners that [Serve] brings up. What sipgo knows of networks is given. *)
From S2P Require Import Prelude GoStrings NetIP MediaSession Answer.
Import GoStrings NetIP.

Module Transports.

(** [strings.TrimSuffix]. *)
Definition TrimSuffix (s suffix : string) : string :=
  let n := (String.length s - String.length suffix)%nat in
  if (String.length suffix <=? String.length s)%nat && String.eqb (String.substring n (String.length suffix) s) suffix then String.substring 0 n s else s.

Section Transports.
(** [sip.NetworkToLower]. *)
Context {cert : Type} (NetworkToLower : string -> string).

(** [NewClient] with its options; an address is a host and a port. *)
Inductive ClientOption :=
| WithClientNAT
| WithClientConnectionAddr (host : string) (port : Z)
| WithClientHostname (host : string)
| WithClientPort (port : Z).
Definition Client : Type := list ClientOption.

(** [client]: the cell every copy of the transport shares, by its place among those
    of the Diago. *)
Record Transport := {
  ID : string; network_ : string; network : string; BindHost : string; BindPort : Z; bindIP : IP; ExternalHost : string; ExternalPort : Z;
  MediaExternalIP : IP; MediaSRTP : MediaSession.SecureRTPMode; mediaBindIP : IP; MediaDTLSConf : MediaSession.DTLSConfig (cert := cert);
  TLSConf : bool; TLSURINoSIPS : bool; RewriteContact : bool; client : nat }.
#[export] Instance eta_transport : Eta Transport := fun t =>
  {| ID := ID t; network_ := network_ t; network := network t; BindHost := BindHost t; BindPort := BindPort t; bindIP := bindIP t; ExternalHost := ExternalHost t;
     ExternalPort := ExternalPort t; MediaExternalIP := MediaExternalIP t; MediaSRTP := MediaSRTP t; mediaBindIP := mediaBindIP t; MediaDTLSConf := MediaDTLSConf t;
     TLSConf := TLSConf t; TLSURINoSIPS := TLSURINoSIPS t; RewriteContact := RewriteContact t; client := client t |}.

(** [global]: the client of the whole Diago ([WithClient]). *)
Record Diago := { transports : list Transport; clients : list Client; global : option Client; mediaConf : Answer.MediaConfig cert; ua_Name : string }.
#[export] Instance eta_diago : Eta Diago := fun g =>
  {| transports := transports g; clients := clients g; global := global g; mediaConf := mediaConf g; ua_Name := ua_Name g |}.

(** ** Clients *)

Definition IPv4zero : IP := Some (v4InV6Prefix ++ [0; 0; 0; 0]).
Definition IPv6unspecified : IP := Some (replicate 16 0).
Definition IsUnspecified (ip : IP) : bool := Equal ip IPv4zero || Equal ip IPv6unspecified.

(** [listen]: the UDP ports the transport layer says it listens on. *)
Definition clientSourcePort (listen : list Z) (want : Z) : Z :=
  if want =? 0 then 0 else if existsb (Z.eqb want) listen then want else 0.

(** [fails]: sipgo refuses the options. *)
Definition createClient (listen : list Z) (fails : bool) (tran : Transport) (listening : bool) : Client :=
  let opts := [WithClientNAT] in
  let opts :=
    if String.eqb (network_ tran) "udp" then
      let '(resolvedIP, bindPort) :=
        if bool_decide (bindIP tran <> None) && (IsUnspecified (bindIP tran) && bool_decide (mediaBindIP tran <> None)) then (mediaBindIP tran, 0)
        else (bindIP tran, BindPort tran) in
      let bindPort := if listening then bindPort else clientSourcePort listen bindPort in
      let hostname := if bool_decide (resolvedIP <> None) && negb (IsUnspecified resolvedIP) then IP_String resolvedIP else EmptyString in
      if negb (String.eqb hostname EmptyString) then opts ++ [WithClientConnectionAddr hostname bindPort] else opts
    else opts in
  let opts := if negb (String.eqb (ExternalHost tran) (BindHost tran)) then opts ++ [WithClientHostname (ExternalHost tran); WithClientPort (ExternalPort tran)] else opts in
  if fails then [] else opts.

(** ** Loading *)

(** What the host knows as a transport is loaded: the address of an interface of the
    family, the ports listened on, and whether sipgo takes the client. *)
Record load_env := { ResolveInterfacesIP : string -> IP; ListenPorts : list Z; NewClient_fails : bool }.

Definition resolve_bind (e : load_env) (t : Transport) : Transport :=
  let ip := ParseIP (BindHost t) in
  let t := t <| bindIP := ip |> in
  t <| mediaBindIP := if bool_decide (ip <> None) && IsUnspecified ip then ResolveInterfacesIP e (if bool_decide (To4 ip = None) then "ip6" else "ip4") else ip |>.
Definition resolve_external (t : Transport) : Transport :=
  let t :=
    if String.eqb (ExternalHost t) EmptyString then
      t <| ExternalHost := if bool_decide (mediaBindIP t <> None) then IP_String (mediaBindIP t) else BindHost t |>
    else t in
  if ExternalPort t =? 0 then t <| ExternalPort := BindPort t |> else t.
Definition resolve_media (t : Transport) : Transport :=
  let extIp := ParseIP (ExternalHost t) in
  let extIp := if String.eqb (ExternalHost t) EmptyString || (bool_decide (extIp <> None) && IsUnspecified extIp) then mediaBindIP t else extIp in
  if bool_decide (MediaExternalIP t = None) && negb (String.eqb (ExternalHost t) EmptyString) then
    if bool_decide (extIp <> None) && negb (IsUnspecified extIp) then t <| MediaExternalIP := extIp |> else t
  else t.
Definition resolve_network (t : Transport) : Transport :=
  let name := NetworkToLower (network_ t) in
  t <| network := name |> <| network_ := TrimSuffix (TrimSuffix name "4") "6" |>.

Definition WithTransport (e : load_env) (t : Transport) (dg : Diago) : Diago :=
  let t := resolve_network (resolve_media (resolve_external (resolve_bind e t))) <| client := length (clients dg) |> in
  dg <| clients := clients dg ++ [createClient (ListenPorts e) (NewClient_fails e) t false] |> <| transports := transports dg ++ [t] |>.

(** The options that set a field. *)
Definition WithClient (c : Client) (dg : Diago) : Diago := dg <| global := Some c |>.
Definition WithMediaConfig (conf : Answer.MediaConfig cert) (dg : Diago) : Diago := dg <| mediaConf := conf |>.

(** [NewDiago] up to its server, given what it is before its options. *)
Definition NewDiago (e : load_env) (default : Transport) (opts : list (Diago -> Diago)) (dg : Diago) : Diago :=
  let dg := foldl (fun dg o => o dg) dg opts in
  match transports dg with
  | [] => WithTransport e (default <| network_ := "udp" |> <| BindHost := "127.0.0.1" |> <| BindPort := 5060 |>) dg
  | _ => dg
  end.

(** ** Choosing a transport *)

(** A Diago without transports panics when the first is asked for. *)
Inductive lookup := Found (t : Transport) | NotFound | OutOfRange.
Definition getTransport (transport : string) (dg : Diago) : lookup :=
  if String.eqb transport EmptyString then match transports dg with t :: _ => Found t | [] => OutOfRange end
  else match List.find (fun t => String.eqb (NetworkToLower transport) (network_ t)) (transports dg) with Some t => Found t | None => NotFound end.
Definition findTransport (transport id : string) (dg : Diago) : lookup :=
  if negb (String.eqb id EmptyString) then
    match List.find (fun t => String.eqb id (ID t)) (transports dg) with Some t => Found t | None => NotFound end
  else if negb (String.eqb transport EmptyString) then getTransport transport dg
  else getTransport "udp" dg.

(** ** What a dialog takes of its transport *)

Definition getClient (tran : Transport) (dg : Diago) : option Client :=
  match global dg with Some c => Some c | None => clients dg !! client tran end.

Record ContactHeader := { Scheme : string; User : string; Host : string; Port : Z; UriParams : list (string * string) }.
Definition contactHDRFromTransport (tran : Transport) (dg : Diago) : ContactHeader :=
  {| Scheme := if TLSConf tran && negb (TLSURINoSIPS tran) then "sips" else "sip";
     User := ua_Name dg; Host := ExternalHost tran; Port := ExternalPort tran;
     UriParams := if String.eqb (ExternalHost tran) (BindHost tran) then [("transport", network_ tran)] else [] |}.

Definition dtlsConfForTransport (tran : Transport) (dg : Diago) : MediaSession.DTLSConfig (cert := cert) :=
  match Answer.DTLSConfig_ (mediaConf dg) with Some conf => conf | None => MediaDTLSConf tran end.

Definition mediaConfForTransport (tran : Transport) (dg : Diago) : Answer.MediaConfig cert :=
  {| Answer.Codecs := Answer.Codecs (mediaConf dg); Answer.SecureRTPAlg := Answer.SecureRTPAlg (mediaConf dg);
     Answer.RTPPortAllocator := Answer.RTPPortAllocator (mediaConf dg); Answer.secureRTP := MediaSRTP tran; Answer.bindIP := mediaBindIP tran;
     Answer.externalIP := MediaExternalIP tran; Answer.DTLSConfig_ := Some (dtlsConfForTransport tran dg); Answer.ICEConfig := Answer.ICEConfig (mediaConf dg);
     Answer.rtpNAT := 0 |}.

(** A new client dialog: who it is for, over which network, by which client and how. *)
Record newDialog := { nd_params : list (string * string); nd_network : string; nd_client : option Client; nd_rewrite : bool; nd_contact : ContactHeader; nd_conf : Answer.MediaConfig cert }.

Definition newSipDialog (params : list (string * string)) (tran : Transport) (dg : Diago) : newDialog :=
  {| nd_params := params; nd_network := network_ tran; nd_client := getClient tran dg; nd_rewrite := RewriteContact tran;
     nd_contact := contactHDRFromTransport tran dg; nd_conf := mediaConfForTransport tran dg |}.

(** [params]: the parameters of the recipient's URI; [None]: it panics. *)
Definition param (name : string) (params : list (string * string)) : option string := snd <$> List.find (fun kv => String.eqb kv.1 name) params.
Definition NewDialog (params : list (string * string)) (transport id : string) (dg : Diago) : option (newDialog + error) :=
  let '(transport, params) :=
    match (if String.eqb transport EmptyString then param "transport" params else None) with
    | Some t => if String.eqb t EmptyString then (transport, params) else (t, List.filter (fun kv => negb (String.eqb kv.1 "transport")) params)
    | None => (transport, params)
    end in
  match findTransport transport id dg with
  | OutOfRange => None
  | NotFound => Some (inr (ErrNew ("transport " +:+ transport +:+ " does not exists")))
  | Found tran => Some (inl (newSipDialog params tran dg))
  end.

End Transports.
End Transports.
