(* ===== verification/Serving.v ===== *)
(** * Serving

    [Serve], [ServeWithReady] and [ServeBackground] of [diago.go]: a listener per
    transport, each of which records the port it bound and rebuilds the client of its
    transport before it says that it is ready. The listeners come up in any order. *)
From S2P Require Import Prelude GoStrings NetIP MediaSession Answer Transports.
Import GoStrings NetIP Transports.

Module Serving.

Section Serving.
Context {cert : Type}.
Abbreviation Transport := (@Transport cert).
Abbreviation Diago := (@Diago cert).

(** The callback of a listener: bound to a port, its port recorded, its client
    rebuilt, counted; or the listener could not be brought up. *)
Inductive phase := Binding | Bound (port : Z) | Recorded (port : Z) | Rebuilt (port : Z) | Counted (port : Z) | Refused.
#[export] Instance phase_eq_dec : EqDecision phase.
Proof. solve_decision. Defined.

(** [trans]: the listeners' copies of the transports; [held]: the ports bound;
    [pending]: what [ServeWithReady] waits for, and how often it called [ready]. *)
Record serving := { dg : Diago; trans : list Transport; phases : list phase; held : list Z; pending : Z; readies : nat }.
#[export] Instance eta_serving : Eta serving := fun s =>
  {| dg := dg s; trans := trans s; phases := phases s; held := held s; pending := pending s; readies := readies s |}.

Definition serve (d : Diago) : serving :=
  {| dg := d; trans := transports d; phases := (fun _ => Binding) <$> transports d; held := []; pending := len (transports d); readies := 0 |}.

Definition bound_as (port : Z) (t : Transport) : Transport :=
  if BindPort t =? 0 then
    let t := t <| BindPort := port |> in
    if ExternalPort t =? 0 then t <| ExternalPort := port |> else t
  else t.

Definition put_transport (i : nat) (t : Transport) (d : Diago) : Diago := d <| transports := <[i := t]> (transports d) |>.

(** The callback up to the client, of a listener bound to [port]. *)
Definition record_port (i : nat) (port : Z) (t : Transport) (s : serving) : serving :=
  s <| trans := <[i := bound_as port t]> (trans s) |>
    <| dg := if BindPort t =? 0 then put_transport i (bound_as port t) (dg s) else dg s |>.
Definition rebuild_client (fails : bool) (t : Transport) (s : serving) : serving :=
  s <| dg := dg s <| clients := <[client t := createClient [] fails t true]> (clients (dg s)) |> |>.
(** [readyCh] of [ServeWithReady]. *)
Definition count_down (s : serving) : serving :=
  let s := s <| pending := i64 (pending s - 1) |> in
  if pending s =? 0 then s <| readies := S (readies s) |> else s.

Definition at_phase (i : nat) (p : phase) (s : serving) : serving := s <| phases := <[i := p]> (phases s) |>.

(** A port a listener may come to be bound to. *)
Definition may_bind (t : Transport) (port : Z) : Prop := if BindPort t =? 0 then port <> 0 else port = BindPort t.

Inductive step (s : serving) : serving -> Prop :=
| step_bind i t port : trans s !! i = Some t -> phases s !! i = Some Binding -> may_bind t port -> step s (at_phase i (Bound port) (s <| held := port :: held s |>))
| step_refused i : phases s !! i = Some Binding -> step s (at_phase i Refused s)
| step_record i t port : trans s !! i = Some t -> phases s !! i = Some (Bound port) -> step s (at_phase i (Recorded port) (record_port i port t s))
| step_rebuild i t port fails : trans s !! i = Some t -> phases s !! i = Some (Recorded port) -> step s (at_phase i (Rebuilt port) (rebuild_client fails t s))
| step_count i port : phases s !! i = Some (Rebuilt port) -> step s (at_phase i (Counted port) (count_down s)).
Inductive reachable (d : Diago) : serving -> Prop :=
| reach_serve : reachable d (serve d)
| reach_step s s' : reachable d s -> step s s' -> reachable d s'.

(** ** What has been loaded *)

(** Each transport has a cell of its own. *)
Definition loaded (d : Diago) : Prop := client <$> transports d = seq 0 (length (clients d)).

(** Every client that takes an address of its own is at an address that is not the
    unspecified one, and at a port among [ports] or at one the system chooses. *)
Definition sources (ports : list Z) (c : Client) : Prop := forall h p, WithClientConnectionAddr h p ∈ c -> h <> EmptyString /\ (p = 0 \/ p ∈ ports).

Lemma sources_mono ports ports' c : ports ⊆ ports' -> sources ports c -> sources ports' c.
Proof. intros H Hc h p Hin. destruct (Hc h p Hin) as [H1 [H2|H2]]; split; auto. Qed.

Lemma clientSourcePort_listened listen want : clientSourcePort listen want = 0 \/ clientSourcePort listen want ∈ listen.
Proof.
  unfold clientSourcePort. destruct (want =? 0); [by left|]. destruct (existsb _ _) eqn:E; [right|by left]. apply existsb_exists in E as (x & Hx & E).
  apply Z.eqb_eq in E as <-. by apply list_elem_of_In.
Qed.

Lemma createClient_sources (listen : list Z) (fails : bool) (t : Transport) (listening : bool) (ports : list Z) :
  (if listening then BindPort t ∈ ports else listen ⊆ ports) -> sources ports (createClient listen fails t listening).
Proof.
  intros Hp h p. unfold createClient. destruct fails; [set_solver|].
  assert (forall c : Client, (WithClientConnectionAddr h p ∈ if negb (String.eqb (ExternalHost t) (BindHost t)) then c ++ [WithClientHostname (ExternalHost t); WithClientPort (ExternalPort t)] else c) ->
    WithClientConnectionAddr h p ∈ c) as Hx.
  { intros c. destruct (negb _); [|done]. rewrite elem_of_app, !elem_of_cons, elem_of_nil. intros [H|[H|[H|[]]]]; [done|discriminate H..]. }
  intros Hin. apply Hx in Hin. clear Hx. destruct (String.eqb (network_ t) "udp"); [|by rewrite list_elem_of_singleton in Hin].
  destruct (if bool_decide (bindIP t <> None) && _ then _ else _) as [ip bp] eqn:E.
  destruct (String.eqb _ EmptyString) eqn:Eh; cbn [negb] in Hin; [by rewrite list_elem_of_singleton in Hin|].
  rewrite elem_of_app, !list_elem_of_singleton in Hin. destruct Hin as [Hin|Hin]; [done|]. injection Hin as -> ->. split; [by apply String.eqb_neq|].
  destruct listening.
  - destruct (_ && _); injection E as _ <-; [by left|by right].
  - destruct (clientSourcePort_listened listen bp) as [->|H]; auto.
Qed.

Lemma WithTransport_clients lower e (t : Transport) (d : Diago) : exists t' : Transport, transports (WithTransport lower e t d) = transports d ++ [t'] /\ client t' = length (clients d) /\
  clients (WithTransport lower e t d) = clients d ++ [createClient (ListenPorts e) (NewClient_fails e) t' false].
Proof. unfold WithTransport. set (t1 := resolve_network _ _). clearbody t1. cbv zeta. by exists (t1 <| client := length (clients d) |>). Qed.

Lemma WithTransport_loaded lower e (t : Transport) (d : Diago) : loaded d -> loaded (WithTransport lower e t d).
Proof.
  intros H. destruct (WithTransport_clients lower e t d) as (t' & Ht & Hc & Hl). unfold loaded. rewrite Ht, Hl, fmap_app, length_app, seq_app, H. cbn. by rewrite Hc.
Qed.

Lemma WithTransport_sources lower e (t : Transport) (d : Diago) (ports : list Z) : ListenPorts e ⊆ ports -> Forall (sources ports) (clients d) -> Forall (sources ports) (clients (WithTransport lower e t d)).
Proof.
  intros H Hd. destruct (WithTransport_clients lower e t d) as (t' & _ & _ & ->). apply Forall_app. split; [done|]. constructor; [by apply createClient_sources|constructor].
Qed.

(** ** Where each listener is *)

(** The state of listener [i] of the transport [t0], in the phase [ph]: its copy, and
    the transport and the client of the Diago. *)
Definition recorded (s : serving) (i : nat) (t0 : Transport) (port : Z) : Prop :=
  port ∈ held s /\ may_bind t0 port /\ trans s !! i = Some (bound_as port t0) /\ transports (dg s) !! i = Some (bound_as port t0).
Definition rebuilt (s : serving) (t0 : Transport) (port : Z) : Prop :=
  exists fails, clients (dg s) !! client t0 = Some (createClient [] fails (bound_as port t0) true).
Definition listener (s : serving) (i : nat) (t0 : Transport) (ph : phase) : Prop :=
  match ph with
  | Binding | Refused => trans s !! i = Some t0 /\ transports (dg s) !! i = Some t0
  | Bound port => port ∈ held s /\ may_bind t0 port /\ trans s !! i = Some t0 /\ transports (dg s) !! i = Some t0
  | Recorded port => recorded s i t0 port
  | Rebuilt port | Counted port => recorded s i t0 port /\ rebuilt s t0 port
  end.

Definition is_counted (ph : phase) : bool := match ph with Counted _ => true | _ => false end.
Definition uncounted (l : list phase) : nat := length (List.filter (fun ph => negb (is_counted ph)) l).

Record Inv (d : Diago) (ports : list Z) (s : serving) : Prop := {
  inv_length : length (phases s) = length (transports d);
  inv_cells : length (clients (dg s)) = length (clients d);
  inv_listeners i t0 ph : transports d !! i = Some t0 -> phases s !! i = Some ph -> listener s i t0 ph;
  inv_pending : pending s = Z.of_nat (uncounted (phases s));
  inv_readies : readies s = if decide (uncounted (phases s) = 0%nat) then 1%nat else 0%nat;
  inv_sources : Forall (sources (held s ++ ports)) (clients (dg s)) }.

Lemma uncounted_all l : Forall (fun ph => is_counted ph = true) l <-> uncounted l = 0%nat.
Proof.
  unfold uncounted. induction l as [|ph l IH]; [done|]. rewrite Forall_cons, IH. cbn. destruct (is_counted ph); cbn; [tauto|]. split; [by intros []|intros H; discriminate H].
Qed.

Lemma uncounted_insert l i ph ph' : l !! i = Some ph -> (uncounted (<[i := ph']> l) + (if is_counted ph then 0 else 1) = uncounted l + (if is_counted ph' then 0 else 1))%nat.
Proof.
  unfold uncounted. revert i. induction l as [|x l IH]; intros [|i]; cbn; try done.
  - intros [= ->]. destruct (is_counted ph), (is_counted ph'); cbn; lia.
  - intros H. specialize (IH i H). cbn in IH. destruct (is_counted x); cbn; [exact IH|f_equal; exact IH].
Qed.

(** A step moves one listener and leaves the others where they are. *)
Lemma at_phase_listener s i j t0 ph : listener (at_phase i ph s) j t0 = listener s j t0.
Proof. done. Qed.

Lemma bound_as_bound (t : Transport) port : BindPort t <> 0 -> bound_as port t = t.
Proof. intros H. unfold bound_as. by rewrite (proj2 (Z.eqb_neq _ _) H). Qed.

Lemma bound_as_client (t : Transport) port : client (bound_as port t) = client t.
Proof. unfold bound_as. destruct (BindPort t =? 0); [|done]. cbn. by destruct (ExternalPort t =? 0). Qed.

Lemma bound_as_port (t : Transport) port : may_bind t port -> BindPort (bound_as port t) = port.
Proof.
  unfold may_bind, bound_as. destruct (BindPort t =? 0) eqn:E; [|by intros ->]. intros _. cbn. by destruct (ExternalPort t =? 0).
Qed.

Section Run.
Context (d : Diago) (ports : list Z) (Hd : loaded d) (Hs : Forall (sources ports) (clients d)) (Hn : transports d <> []).

Lemma cells_distinct i j (t t' : Transport) : transports d !! i = Some t -> transports d !! j = Some t' -> client t = client t' -> i = j.
Proof.
  intros Hi Hj E. unfold loaded in Hd. assert (forall k (x : Transport), transports d !! k = Some x -> client x = k) as H.
  { intros k x Hk. apply (f_equal (fun l => l !! k)) in Hd. rewrite list_lookup_fmap, Hk in Hd. cbn in Hd. symmetry in Hd. by apply lookup_seq in Hd as [-> _]. }
  rewrite <- (H i t Hi), <- (H j t' Hj). done.
Qed.

Lemma cell_in_range i (t : Transport) : transports d !! i = Some t -> (client t < length (clients d))%nat.
Proof.
  intros Hi. unfold loaded in Hd. apply (f_equal (fun l => l !! i)) in Hd. rewrite list_lookup_fmap, Hi in Hd. symmetry in Hd. cbn in Hd. apply lookup_seq in Hd. cbn in Hd. lia.
Qed.

Lemma serve_Inv : Inv d ports (serve d).
Proof.
  assert (uncounted ((fun _ => Binding) <$> transports d) = length (transports d)) as Hu.
  { unfold uncounted. clear Hn Hs Hd. induction (transports d) as [|t l IH]; [done|]. cbn. f_equal. exact IH. }
  split; cbn.
  - by rewrite length_fmap.
  - done.
  - intros i t0 ph Hi Hp. rewrite list_lookup_fmap, Hi in Hp. injection Hp as <-. done.
  - change (len (transports d) = Z.of_nat (uncounted ((fun _ => Binding) <$> transports d))). by rewrite Hu.
  - change (0%nat = if decide (uncounted ((fun _ => Binding) <$> transports d) = 0%nat) then 1%nat else 0%nat). rewrite Hu, decide_False; [done|]. intros H. by apply Hn, length_zero_iff_nil.
  - exact Hs.
Qed.

(** What a listener sees of a step of another. *)
Lemma listener_mono s s' i t0 ph : trans s' !! i = trans s !! i -> transports (dg s') !! i = transports (dg s) !! i -> held s ⊆ held s' ->
  (forall port, rebuilt s t0 port -> rebuilt s' t0 port) -> listener s i t0 ph -> listener s' i t0 ph.
Proof.
  intros H1 H2 H3 H4. unfold listener, recorded. rewrite H1, H2. destruct ph; intros H; try done.
  1,2: destruct H as (G1 & G2 & G3 & G4); split_and!; auto.
  all: destruct H as [(G1 & G2 & G3 & G4) G5]; split_and!; auto.
Qed.

Lemma i64_pred n : 0 < n < 2 ^ 63 -> i64 (n - 1) = n - 1.
Proof. intros H. unfold i64. rewrite Z.mod_small; lia. Qed.

Lemma count_down_same s : dg (count_down s) = dg s /\ trans (count_down s) = trans s /\ held (count_down s) = held s /\ phases (count_down s) = phases s.
Proof. unfold count_down. cbv zeta. by destruct (pending _ =? 0). Qed.

Lemma record_port_same i port t s : clients (dg (record_port i port t s)) = clients (dg s) /\
  (forall j, j <> i -> trans (record_port i port t s) !! j = trans s !! j /\ transports (dg (record_port i port t s)) !! j = transports (dg s) !! j) /\
  (trans s !! i = Some t -> trans (record_port i port t s) !! i = Some (bound_as port t)) /\
  (transports (dg s) !! i = Some t -> transports (dg (record_port i port t s)) !! i = Some (bound_as port t)).
Proof.
  unfold record_port. destruct (BindPort t =? 0) eqn:E; cbn.
  - split_and!; [done| | |]; intros; rewrite ?list_lookup_insert_ne by done; try done; apply list_lookup_insert_eq; by eapply lookup_lt_Some.
  - split_and!; [done| | |].
    + intros j Hj. by rewrite list_lookup_insert_ne.
    + intros H. apply list_lookup_insert_eq. by eapply lookup_lt_Some.
    + rewrite bound_as_bound by lia. done.
Qed.

Lemma count_down_spec s u : pending s = Z.of_nat (S u) -> Z.of_nat (S u) < 2 ^ 63 ->
  pending (count_down s) = Z.of_nat u /\ readies (count_down s) = if decide (u = 0%nat) then S (readies s) else readies s.
Proof.
  intros Hp Hb. assert (i64 (pending s - 1) = Z.of_nat u) as E by (rewrite i64_pred; lia). unfold count_down. cbv zeta. cbn [pending field_update]. rewrite E.
  destruct (decide (u = 0%nat)) as [->|Hu]; [done|]. rewrite (proj2 (Z.eqb_neq _ _)) by lia. done.
Qed.

Lemma counted_listener s i j t0 ph p : listener s j t0 ph -> listener (at_phase i p (count_down s)) j t0 ph.
Proof.
  destruct (count_down_same s) as (C1 & C2 & C3 & _). apply listener_mono; unfold at_phase; cbn [dg trans held field_update]; rewrite ?C1, ?C2, ?C3; try done.
  all: intros port (f & Hf); exists f; cbn; by rewrite C1.
Qed.

(** A step of listener [i] that ends in the phase [p], as the invariant asks for it. *)
Lemma listener_moved s s' i t0 p0 p : Inv d ports s -> transports d !! i = Some t0 -> phases s !! i = Some p0 -> is_counted p0 = false -> is_counted p = false ->
  phases s' = <[i := p]> (phases s) -> pending s' = pending s -> readies s' = readies s -> length (clients (dg s')) = length (clients (dg s)) ->
  held s ⊆ held s' -> (forall j, j <> i -> trans s' !! j = trans s !! j /\ transports (dg s') !! j = transports (dg s) !! j) ->
  (forall j t, transports d !! j = Some t -> j <> i -> forall port, rebuilt s t port -> rebuilt s' t port) ->
  listener s' i t0 p -> Forall (sources (held s' ++ ports)) (clients (dg s')) -> Inv d ports s'.
Proof.
  intros [I1 I2 I3 I4 I5 _] Hi Hp Hc0 Hc Ep Epd Er El Hh Hj Hrb Hl Hsrc. pose proof (uncounted_insert (phases s) i p0 p Hp) as Hu. rewrite Hc0, Hc in Hu.
  assert (uncounted (phases s') = uncounted (phases s)) as Hu' by (rewrite Ep; lia). split; [by rewrite Ep, length_insert|congruence| |by rewrite Hu', Epd|by rewrite Hu', Er|done].
  intros j t ph Htj Hpj. destruct (decide (j = i)) as [->|Hne].
  - rewrite Ep, list_lookup_insert_eq in Hpj by (by eapply lookup_lt_Some). congruence.
  - rewrite Ep, list_lookup_insert_ne in Hpj by done. destruct (Hj j Hne) as [Hj1 Hj2]. eapply listener_mono; [done..|by eapply Hrb|by apply I3].
Qed.

Lemma serve_step_Inv s s' : Inv d ports s -> len (transports d) < 2 ^ 62 -> step s s' -> Inv d ports s'.
Proof.
  intros I Hb Hstep. assert (forall i ph, phases s !! i = Some ph -> exists t0, transports d !! i = Some t0 /\ listener s i t0 ph) as Hlt.
  { intros i ph Hp. destruct (lookup_lt_is_Some_2 (transports d) i) as [t0 Ht0].
    - rewrite <- (inv_length _ _ _ I). by eapply lookup_lt_Some.
    - exists t0. split; [done|]. by apply (inv_listeners _ _ _ I). }
  pose proof (inv_sources _ _ _ I) as Hsrc. destruct Hstep as [i t port Ht Hp Hm|i Hp|i t port Ht Hp|i t port fails Ht Hp|i port Hp]; destruct (Hlt _ _ Hp) as (t0 & Ht0 & Hl); cbn in Hl.
  - assert (t0 = t) as -> by (destruct Hl; congruence).
    eapply (listener_moved s _ i t Binding (Bound port)); [exact I|exact Ht0|exact Hp|reflexivity..| | | | |].
    + intros x Hx. by right.
    + intros j _. done.
    + intros j t' _ _ q H. exact H.
    + destruct Hl as [H1 H2]. cbn. split_and!; [by left|exact Hm|exact H1|exact H2].
    + eapply Forall_impl; [exact Hsrc|]. intros c. apply sources_mono. intros x Hx. by right.
  - eapply (listener_moved s _ i t0 Binding Refused); [exact I|exact Ht0|exact Hp|reflexivity..|done| |auto|exact Hl|exact Hsrc]. intros j _. done.
  - destruct Hl as (G1 & G2 & G3 & G4). assert (t0 = t) as -> by congruence. destruct (record_port_same i port t s) as (R1 & R2 & R3 & R4).
    eapply (listener_moved s _ i t (Bound port) (Recorded port)); [exact I|exact Ht0|exact Hp|reflexivity..| | | | | |].
    + exact (f_equal length R1).
    + done.
    + intros j Hj. destruct (R2 j Hj) as [R5 R6]. split; [exact R5|exact R6].
    + intros j t' Ht' Hj q (f & Hf). exists f. change (clients (dg (record_port i port t s)) !! client t' = Some (createClient [] f (bound_as q t') true)). rewrite R1. exact Hf.
    + split_and!; [exact G1|exact G2|exact (R3 G3)|exact (R4 G4)].
    + change (Forall (sources (held s ++ ports)) (clients (dg (record_port i port t s)))). rewrite R1. exact Hsrc.
  - destruct Hl as (G1 & G2 & G3 & G4). assert (t = bound_as port t0) as -> by congruence.
    assert (client t0 < length (clients (dg s)))%nat as Hlen by (rewrite (inv_cells _ _ _ I); by eapply cell_in_range).
    eapply (listener_moved s _ i t0 (Recorded port) (Rebuilt port)); [exact I|exact Ht0|exact Hp|reflexivity..| | | | | |].
    + cbn. by rewrite length_insert.
    + done.
    + intros j _. done.
    + intros j t' Ht' Hj q (f & Hf). exists f. cbn. rewrite list_lookup_insert_ne; [exact Hf|]. rewrite bound_as_client. intros E. apply Hj. by eapply cells_distinct.
    + split; [by split_and!|]. exists fails. cbn. rewrite bound_as_client. by apply list_lookup_insert_eq.
    + cbn. apply Forall_insert; [exact Hsrc|]. apply createClient_sources. rewrite bound_as_port by done. apply elem_of_app. by left.
  - pose proof (uncounted_insert (phases s) i (Rebuilt port) (Counted port) Hp) as Hu. cbn in Hu.
    assert (uncounted (phases s) <= length (phases s))%nat as Hle by (unfold uncounted; apply List.filter_length_le).
    rewrite (inv_length _ _ _ I) in Hle. destruct (count_down_spec s (uncounted (<[i := Counted port]> (phases s)))) as (D1 & D2).
    { rewrite (inv_pending _ _ _ I). f_equal. lia. }
    { unfold len in Hb. lia. }
    destruct (count_down_same s) as (C1 & C2 & C3 & C4).
    assert (phases (at_phase i (Counted port) (count_down s)) = <[i := Counted port]> (phases s)) as Ep by (cbn; by rewrite C4). split.
    + rewrite Ep, length_insert. apply (inv_length _ _ _ I).
    + cbn. rewrite C1. apply (inv_cells _ _ _ I).
    + rewrite Ep. intros j t ph Htj Hpj. destruct (decide (j = i)) as [->|Hne].
      * rewrite list_lookup_insert_eq in Hpj by (by eapply lookup_lt_Some). injection Hpj as <-. assert (t = t0) as -> by congruence. by apply (counted_listener s i i t0 (Counted port)).
      * rewrite list_lookup_insert_ne in Hpj by done. apply counted_listener. by apply (inv_listeners _ _ _ I).
    + rewrite Ep. exact D1.
    + rewrite Ep. cbn. rewrite D2, (inv_readies _ _ _ I), (decide_False (P := uncounted (phases s) = 0%nat)) by lia. done.
    + cbn. rewrite C1, C3. exact Hsrc.
Qed.

Lemma serve_reachable_Inv s : len (transports d) < 2 ^ 62 -> reachable d s -> Inv d ports s.
Proof. intros Hb. induction 1 as [|s s' _ IH Hs']; [apply serve_Inv|by eapply serve_step_Inv]. Qed.

End Run.

(** However the listeners come up, [ready] is called once, by the last of them, and
    never before: then every transport listens, the Diago has the port it bound, and
    its client is the one made for that port. If one is refused it is never called. At
    any time a client that has an address of its own is at port zero, at a port that
    was listened on as the transports were loaded, or at one a listener has bound. *)
Theorem ready_after_listeners (d : Diago) ports s : loaded d -> Forall (sources ports) (clients d) -> transports d <> [] -> len (transports d) < 2 ^ 62 ->
  reachable d s ->
  (readies s = 1%nat <-> Forall (fun ph => is_counted ph = true) (phases s)) /\ (readies s <= 1)%nat /\
  (readies s = 1%nat -> forall i t, transports d !! i = Some t -> exists port, port ∈ held s /\ may_bind t port /\
    transports (dg s) !! i = Some (bound_as port t) /\ rebuilt s t port) /\
  (forall c h p, c ∈ clients (dg s) -> WithClientConnectionAddr h p ∈ c -> h <> EmptyString /\ (p = 0 \/ p ∈ held s \/ p ∈ ports)).
Proof.
  intros Hd Hs Hn Hb Hr. pose proof (serve_reachable_Inv d ports Hd Hs Hn s Hb Hr) as I. pose proof (inv_readies _ _ _ I) as E. rewrite uncounted_all.
  assert (readies s = 1%nat <-> uncounted (phases s) = 0%nat) as Hiff by (rewrite E; destruct (decide _); [done|split; [done|lia]]).
  split; [exact Hiff|]. split; [rewrite E; destruct (decide _); lia|]. split.
  - rewrite Hiff, <- uncounted_all. intros Hall i t Hi.
    destruct (lookup_lt_is_Some_2 (phases s) i) as [ph Hph]; [rewrite (inv_length _ _ _ I); by eapply lookup_lt_Some|].
    pose proof (inv_listeners _ _ _ I i t ph Hi Hph) as H. pose proof (Forall_lookup_1 _ _ _ _ Hall Hph) as Hc. destruct ph as [| | | |port|]; try done.
    destruct H as [(G1 & G2 & G3 & G4) G5]. by exists port.
  - intros c h p Hc Hin. pose proof (inv_sources _ _ _ I) as H. rewrite Forall_forall in H. specialize (H c Hc h p Hin). by rewrite elem_of_app in H.
Qed.

End Serving.

(** ** A Diago with two transports

    One on UDP with a port of its own choosing and one on TCP whose port the system
    chooses; the second comes up first. *)
Definition ex_transport (net : string) (port : Z) : Transport :=
  {| ID := EmptyString; network_ := net; network := EmptyString; BindHost := "127.0.0.1"; BindPort := port; bindIP := None; ExternalHost := EmptyString; ExternalPort := 0;
     MediaExternalIP := None; MediaSRTP := MediaSession.SecureRTPModeNone; mediaBindIP := None;
     MediaDTLSConf := {| MediaSession.Certificates := ([] : list unit); MediaSession.SDPSetupRole := None |};
     TLSConf := false; TLSURINoSIPS := false; RewriteContact := false; client := 0 |}.
Definition ex_conf : Answer.MediaConfig unit :=
  {| Answer.Codecs := []; Answer.SecureRTPAlg := None; Answer.DTLSConfig_ := None; Answer.ICEConfig := None; Answer.RTPPortAllocator := false;
     Answer.secureRTP := MediaSession.SecureRTPModeNone; Answer.bindIP := None; Answer.externalIP := None; Answer.rtpNAT := 0 |}.
Definition ex_load : load_env := {| ResolveInterfacesIP _ := None; ListenPorts := [7000]; NewClient_fails := false |}.
Definition ex_empty : Diago := {| transports := []; clients := []; global := None; mediaConf := ex_conf; ua_Name := "diago" |}.
Definition ex_diago : Diago :=
  NewDiago ToLower ex_load (ex_transport EmptyString 0) [WithTransport ToLower ex_load (ex_transport "udp4" 5060); WithTransport ToLower ex_load (ex_transport "TCP" 0)] ex_empty.

Lemma ex_loaded : loaded ex_diago /\ Forall (sources [7000]) (clients ex_diago).
Proof.
  change ex_diago with (WithTransport ToLower ex_load (ex_transport "TCP" 0) (WithTransport ToLower ex_load (ex_transport "udp4" 5060) ex_empty)).
  split; [do 2 apply WithTransport_loaded; done|do 2 (apply WithTransport_sources; [done|]); constructor].
Qed.

(** The client made at load had no port of its own; the one of the listener has. *)
Example ex_clients : clients ex_diago = [[WithClientNAT; WithClientConnectionAddr "127.0.0.1" 0]; [WithClientNAT]].
Proof. vm_compute. reflexivity. Qed.

Definition ex_second : serving := at_phase 1 (Counted 9000) (count_down (at_phase 1 (Rebuilt 9000) (rebuild_client false (bound_as 9000 (default (ex_transport "" 0) (transports ex_diago !! 1%nat)))
  (at_phase 1 (Recorded 9000) (record_port 1 9000 (default (ex_transport "" 0) (transports ex_diago !! 1%nat)) (at_phase 1 (Bound 9000) (serve ex_diago <| held := [9000] |>))))))).
Definition ex_ready : serving := at_phase 0 (Counted 5060) (count_down (at_phase 0 (Rebuilt 5060) (rebuild_client false (bound_as 5060 (default (ex_transport "" 0) (transports ex_diago !! 0%nat)))
  (at_phase 0 (Recorded 5060) (record_port 0 5060 (default (ex_transport "" 0) (transports ex_diago !! 0%nat)) (at_phase 0 (Bound 5060) (ex_second <| held := [5060; 9000] |>))))))).

Lemma ex_served : reachable ex_diago ex_ready.
Proof.
  assert (reachable ex_diago ex_second) as H.
  { eapply reach_step; [|apply (step_count _ 1 9000); reflexivity]. eapply reach_step; [|eapply (step_rebuild _ 1); reflexivity].
    eapply reach_step; [|eapply (step_record _ 1); reflexivity]. eapply reach_step; [apply reach_serve|].
    eapply (step_bind (serve ex_diago) 1 _ 9000); [reflexivity|reflexivity|vm_compute; congruence]. }
  eapply reach_step; [|apply (step_count _ 0 5060); reflexivity]. eapply reach_step; [|eapply (step_rebuild _ 0); reflexivity].
  eapply reach_step; [|eapply (step_record _ 0); reflexivity]. eapply reach_step; [exact H|].
  eapply (step_bind ex_second 0 _ 5060); [reflexivity|reflexivity|vm_compute; congruence].
Qed.

Lemma ready_after_listeners_witness : readies ex_second = 0%nat /\ readies ex_ready = 1%nat /\
  clients (dg ex_ready) = [[WithClientNAT; WithClientConnectionAddr "127.0.0.1" 5060]; [WithClientNAT]] /\
  (forall i t, transports ex_diago !! i = Some t -> exists port, port ∈ held ex_ready /\ may_bind t port /\ transports (dg ex_ready) !! i = Some (bound_as port t) /\ rebuilt ex_ready t port).
Proof.
  split; [vm_compute; reflexivity|]. split; [vm_compute; reflexivity|]. split; [vm_compute; reflexivity|].
  apply (ready_after_listeners ex_diago [7000] ex_ready (proj1 ex_loaded) (proj2 ex_loaded)); [vm_compute; congruence|vm_compute; reflexivity|exact ex_served|vm_compute; reflexivity].
Defined.

End Serving.
