(* ===== verification/DialogCache.v ===== *)
(** * The dialogs a Diago knows

    [dialog_cache.go]: the interface of a cache of dialogs with what it promises, the
    map that implements it, and the pool that finds the dialog of a request. How a
    request names its dialog, and the errors of a dialog, are sipgo's: a class. *)
From S2P Require Import Prelude.

Module DialogCache.

(** ** The interface *)

Class DialogCache (C T : Type) := {
  DialogStore : string -> T -> C -> C * option error;
  DialogLoad : string -> C -> T + error;
  DialogDelete : string -> C -> C * option error }.

(** [sip.DialogIDFromRequestUAS] and [UAC], of a request read by the side that was
    called and by the one that called, and errors of sipgo. *)
Class Sipgo (request : Type) := {
  DialogIDFromRequestUAS : request -> string + error;
  DialogIDFromRequestUAC : request -> string + error;
  ErrDialogDoesNotExists : error;
  ErrDialogOutsideDialog : error;
  ErrDialogInvalidCseq : error }.

(** A request without the headers that name a dialog is malformed, which is not the
    error of a dialog that is not there. *)
Class SipgoLaws {request} (sipgo : Sipgo request) := {
  uas_malformed req err : DialogIDFromRequestUAS req = inr err -> errors_Is err ErrDialogDoesNotExists = false;
  uac_malformed req err : DialogIDFromRequestUAC req = inr err -> errors_Is err ErrDialogDoesNotExists = false;
  outside_not_missing : errors_Is ErrDialogOutsideDialog ErrDialogDoesNotExists = false;
  missing_plain err1 err2 : ErrDialogDoesNotExists <> ErrJoin err1 err2 }.

(** What the entries of a cache are, and that its operations are on them: a store that
    fails changes nothing, and a delete does not fail. *)
Class DialogCacheLaws {request} (sipgo : Sipgo request) {C T} (cache : DialogCache C T) := {
  entries : C -> gmap string T;
  store_entries id v c : let '(c', err) := DialogStore id v c in entries c' = match err with None => <[id := v]> (entries c) | Some _ => entries c end;
  delete_entries id c : let '(c', err) := DialogDelete id c in err = None /\ entries c' = delete id (entries c);
  load_entries id c : match entries c !! id with
    | Some v => DialogLoad id c = inl v
    | None => exists err, DialogLoad id c = inr err /\ errors_Is err ErrDialogDoesNotExists = true
    end }.

(** ** The map *)

Section Map.
Context {request T : Type} {sipgo : Sipgo request}.

Definition dialogCacheMap : Type := gmap string T.
Definition map_DialogStore (id : string) (v : T) (m : dialogCacheMap) : dialogCacheMap * option error := (<[id := v]> m, None).
Definition map_DialogDelete (id : string) (m : dialogCacheMap) : dialogCacheMap * option error := (delete id m, None).
Definition map_DialogLoad (id : string) (m : dialogCacheMap) : T + error :=
  match m !! id with Some d => inl d | None => inr ErrDialogDoesNotExists end.
(** [f] returns whether to go on; [order]: that of the range over the map. *)
Fixpoint map_DialogRange {S} (f : string -> T -> S -> S * bool) (order : list (string * T)) (s : S) : S :=
  match order with
  | [] => s
  | (id, d) :: order => let '(s, more) := f id d s in if more then map_DialogRange f order s else s
  end.

#[export] Instance map_cache : DialogCache dialogCacheMap T := {
  DialogStore := map_DialogStore; DialogLoad := map_DialogLoad; DialogDelete := map_DialogDelete }.

Lemma errors_Is_refl e : errors_Is e e = true.
Proof. destruct e; cbn; rewrite bool_decide_true by done; done. Qed.

Lemma map_load id (m : dialogCacheMap) : match m !! id with
  | Some v => DialogLoad id m = inl v
  | None => exists err, DialogLoad id m = inr err /\ errors_Is err ErrDialogDoesNotExists = true
  end.
Proof. cbn. unfold map_DialogLoad. destruct (m !! id); [done|]. exists ErrDialogDoesNotExists. split; [done|apply errors_Is_refl]. Qed.

#[export] Instance map_cache_laws : DialogCacheLaws sipgo map_cache := {
  entries (m : dialogCacheMap) := m; store_entries _ _ _ := eq_refl; delete_entries _ _ := conj eq_refl eq_refl; load_entries := map_load }.

End Map.
#[global] Arguments dialogCacheMap : clear implicits.

(** ** The pool *)

Section Pool.
Context {request CS CC S C : Type} {sipgo : Sipgo request} {cacheS : DialogCache CS S} {cacheC : DialogCache CC C}.

Record DialogCachePool := { client : CC; server : CS }.
#[export] Instance eta_pool : Eta DialogCachePool := fun p => {| client := client p; server := server p |}.

Definition MatchDialogClient (req : request) (p : DialogCachePool) : C + error :=
  match DialogIDFromRequestUAC req with
  | inr err => inr (ErrJoin err ErrDialogOutsideDialog)
  | inl id => DialogLoad id (client p)
  end.
Definition MatchDialogServer (req : request) (p : DialogCachePool) : S + error :=
  match DialogIDFromRequestUAS req with
  | inr err => inr (ErrJoin err ErrDialogOutsideDialog)
  | inl id => DialogLoad id (server p)
  end.

(** The dialog is a server's or a client's. *)
Definition MatchDialog (req : request) (p : DialogCachePool) : (S + C) + error :=
  match MatchDialogServer req p with
  | inl d => inl (inl d)
  | inr err =>
    if negb (errors_Is err ErrDialogDoesNotExists) then inr err
    else match MatchDialogClient req p with inl cd => inl (inr cd) | inr err => inr err end
  end.

(** ** Which dialog that is *)

Context {laws : SipgoLaws sipgo} {lawsS : DialogCacheLaws sipgo cacheS} {lawsC : DialogCacheLaws sipgo cacheC}.

(** Whom a request is for, of the dialogs with these entries. *)
Inductive destination := ToServer (d : S) | ToClient (cd : C) | Missing | Malformed.
Definition destination_of (req : request) (servers : gmap string S) (clients : gmap string C) : destination :=
  match DialogIDFromRequestUAS req with
  | inr _ => Malformed
  | inl id =>
    match servers !! id with
    | Some d => ToServer d
    | None =>
      match DialogIDFromRequestUAC req with
      | inr _ => Malformed
      | inl id => match clients !! id with Some cd => ToClient cd | None => Missing end
      end
    end
  end.

Lemma outside_error err : errors_Is err ErrDialogDoesNotExists = false -> errors_Is (ErrJoin err ErrDialogOutsideDialog) ErrDialogDoesNotExists = false.
Proof. intros H. cbn. rewrite bool_decide_false by (intros E; by apply (missing_plain err ErrDialogOutsideDialog)). by rewrite H, outside_not_missing. Qed.

Lemma MatchDialog_found req p :
  match destination_of req (entries (server p)) (entries (client p)) with
  | ToServer d => MatchDialog req p = inl (inl d)
  | ToClient cd => MatchDialog req p = inl (inr cd)
  | Missing => exists err, MatchDialog req p = inr err /\ errors_Is err ErrDialogDoesNotExists = true
  | Malformed => exists err, MatchDialog req p = inr err /\ errors_Is err ErrDialogDoesNotExists = false
  end.
Proof.
  unfold destination_of, MatchDialog, MatchDialogServer, MatchDialogClient. destruct (DialogIDFromRequestUAS req) as [id|err] eqn:Eu.
  - pose proof (load_entries id (server p)) as Hs. destruct (entries (server p) !! id) as [d|]; [by rewrite Hs|]. destruct Hs as (err & -> & ->). cbn [negb].
    destruct (DialogIDFromRequestUAC req) as [id'|err'] eqn:Ec.
    + pose proof (load_entries id' (client p)) as Hc. destruct (entries (client p) !! id') as [cd|]; [by rewrite Hc|]. destruct Hc as (e & -> & He). by exists e.
    + eexists. split; [done|]. apply outside_error. by eapply uac_malformed.
  - pose proof (uas_malformed _ _ Eu) as H. rewrite (outside_error _ H). cbn [negb]. eexists. split; [done|]. by apply outside_error.
Qed.

End Pool.
#[global] Arguments DialogCachePool : clear implicits.
End DialogCache.
