(* ===== verification/Routing.v ===== *)
(** * Routing of requests

    The handlers that [NewDiago] of [diago.go] registers: a request in a dialog goes to
    the dialog it names, a new INVITE becomes a dialog that is served, and what is for
    no dialog is refused. Handlers of calls run side by side, so a call is a sequence
    of phases between which requests come in. *)
From S2P Require Import Prelude GoStrings SessionTimer Transports DialogCache Method.
Import GoStrings DialogCache Method.

Module Routing.
Open Scope method_scope.

Inductive RequestMethod := INVITE | ACK | BYE | CANCEL | INFO | OPTIONS | REFER | NOTIFY.
#[export] Instance method_eq_dec : EqDecision RequestMethod.
Proof. solve_decision. Defined.

(** The headers looked at: the tags of From and To; [Require]: the value of each. *)
Record Request := {
  Method : RequestMethod; From : option (option string); To : option (option string); CallID : option string; CSeq : option Z; Contact : option string;
  RequireHdrs : list string; TransportName : string }.

(** The handlers of a dialog. *)
Inductive handler := handleReInvite | handleReInviteACK | ReadAck | ReadBye | readSIPInfoDTMF | handleRefer | handleReferNotify.

Section Routing.
Context {cert CS CC S C : Type} (ID_S : S -> string) (ID_C : C -> string).
Context {sipgo : Sipgo Request} {cacheS : DialogCache CS S} {cacheC : DialogCache CC C}.
Context (NetworkToLower : string -> string) (RegisteredMethods : list string).

(** What is done, in order: the responses given to a transaction, the requests given
    to a dialog, and what becomes of the dialogs. *)
Inductive event :=
| Respond (req : Request) (code : Z) (reason : string) (headers : list (string * string))
| HandS (d : S) (h : handler) (req : Request)
| HandC (cd : C) (h : handler) (req : Request)
| CloseMediaS (d : S)
| CloseMediaC (cd : C)
| Stored (d : S)
| Served (d : S)
| HungUp (d : S)
| Uncached (d : S)
| Closed (d : S).

Record Diago := { config : Transports.Diago (cert := cert); cache : DialogCachePool CS CC; sessionTimers : SessionTimer.SessionTimerPolicy; log : list event }.
#[export] Instance eta_diago : Eta Diago := fun g => {| config := config g; cache := cache g; sessionTimers := sessionTimers g; log := log g |}.
Abbreviation method := (M Diago).

Definition emit (ev : event) : method unit := modify (fun g => g <| log := log g ++ [ev] |>).

(** How it goes: whether the response goes out, what the handler of the dialog
    returns, what [ReadInvite] makes of a new INVITE, and the end of a call: the error
    of its BYE, and whether the call had been hung up. *)
Record env := { e_respond : option error; e_handled : option error; e_ReadInvite : S + error; e_Hangup : option error; e_canceled : bool }.

Definition errors_Join (e : error) (e2 : option error) : error := match e2 with Some e2 => ErrJoin e e2 | None => e end.
Definition respond (e : env) (req : Request) (code : Z) (reason : string) (headers : list (string * string)) : method unit :=
  emit (Respond req code reason headers) ;;; check (e_respond e).

Definition StatusBadRequest : Z := 400.
Definition StatusBadExtension : Z := 420.
Definition StatusCallTransactionDoesNotExists : Z := 481.
Definition doesNotExist : string := "Call/Transaction Does Not Exist".

Definition handleNoDialog (e : env) (req : Request) (err : error) : method unit :=
  let! sent := try (if errors_Is err ErrDialogDoesNotExists then respond e req StatusCallTransactionDoesNotExists doesNotExist []
                    else respond e req StatusBadRequest "Bad Request" []) in
  fail (errors_Join err sent).

(** ** Requests in a dialog *)

Definition OnAck (e : env) (req : Request) : method unit :=
  let! m := gets (fun g => MatchDialog req (cache g)) in
  match m with
  | inr err => fail err
  | inl (inr cd) => emit (HandC cd handleReInviteACK req) ;;; check (e_handled e)
  | inl (inl sd) => emit (HandS sd ReadAck req) ;;; check (e_handled e)
  end.

Definition invalid_cseq (err : option error) : bool := match err with Some err => errors_Is err ErrDialogInvalidCseq | None => false end.
Definition OnBye (e : env) (req : Request) : method unit :=
  let! m := gets (fun g => MatchDialog req (cache g)) in
  match m with
  | inr err => handleNoDialog e req err
  | inl (inr cd) => emit (HandC cd ReadBye req) ;;; (if negb (invalid_cseq (e_handled e)) then emit (CloseMediaC cd) else ret tt) ;;; check (e_handled e)
  | inl (inl sd) => emit (HandS sd ReadBye req) ;;; (if negb (invalid_cseq (e_handled e)) then emit (CloseMediaS sd) else ret tt) ;;; check (e_handled e)
  end.

(** INFO returns what the handler does; REFER and NOTIFY return nil. *)
Definition OnInDialog (h : handler) (returns : bool) (e : env) (req : Request) : method unit :=
  let! m := gets (fun g => MatchDialog req (cache g)) in
  match m with
  | inr err => handleNoDialog e req err
  | inl d =>
    (match d with inr cd => emit (HandC cd h req) | inl sd => emit (HandS sd h req) end) ;;; (if returns then check (e_handled e) else ret tt)
  end.
Definition OnInfo := OnInDialog readSIPInfoDTMF true.
Definition OnRefer := OnInDialog handleRefer false.
Definition OnNotify := OnInDialog handleReferNotify false.

Definition OnCancel (e : env) (req : Request) : method unit := respond e req StatusCallTransactionDoesNotExists doesNotExist [].
Definition OnOptions (e : env) (req : Request) : method unit := respond e req 200 "OK" [("Allow", Join RegisteredMethods ", "); ("Accept", "application/sdp")].

(** [id]: of the dialog, read as the side that was called. *)
Definition Diago_handleReInvite (e : env) (req : Request) (id : string) : method unit :=
  let! s := gets (fun g => DialogLoad id (server (cache g))) in
  match s with
  | inl s => emit (HandS s handleReInvite req) ;;; check (e_handled e)
  | inr _ =>
    match DialogIDFromRequestUAC req with
    | inr _ => respond e req StatusBadRequest "Bad Request" []
    | inl id =>
      let! c := gets (fun g => DialogLoad id (client (cache g))) in
      match c with
      | inr _ => respond e req StatusCallTransactionDoesNotExists doesNotExist []
      | inl c => emit (HandC c handleReInvite req) ;;; check (e_handled e)
      end
    end
  end.

(** ** New INVITEs *)

Definition errInviteMissingHeader : error := ErrNew "new INVITE rejected with 400 Bad Request".
Definition errInviteRequiresUnsupportedExtension : error := ErrNew "new INVITE rejected with 420 Bad Extension".

Definition unsupportedRequiredExtensions (req : Request) (timers : SessionTimer.SessionTimerPolicy) : list string :=
  List.filter (fun tag => negb (String.eqb tag EmptyString || (SessionTimer.Enabled timers && EqualFold tag "timer")))
    (TrimSpace <$> concat ((fun h => Split h ",") <$> RequireHdrs req)).

Definition describeMissingInviteHeader (req : Request) : string :=
  match From req with
  | None => "Missing From Header Field"
  | Some None => "Missing From Tag"
  | Some (Some _) =>
    if bool_decide (To req = None) then "Missing To Header Field"
    else if bool_decide (CallID req = None) then "Missing Call-ID Header Field"
    else if bool_decide (CSeq req = None) then "Missing CSeq Header Field"
    else if bool_decide (Contact req = None) then "Missing Contact Header Field"
    else EmptyString
  end.

(** A new INVITE up to its dialog. A transport the Diago does not have is not checked
    for: its fields are read all the same. *)
Definition readNewInvite (e : env) (req : Request) : method S :=
  let reason := describeMissingInviteHeader req in
  if negb (String.eqb reason EmptyString) then
    let! sent := try (respond e req StatusBadRequest reason []) in fail (errors_Join (ErrWrap reason errInviteMissingHeader) sent)
  else
  let! timers := gets sessionTimers in
  match unsupportedRequiredExtensions req timers with
  | (_ :: _) as tags =>
    let unsupported := Join tags ", " in
    let! sent := try (respond e req StatusBadExtension "Bad Extension" [("Unsupported", unsupported)]) in
    fail (errors_Join (ErrWrap unsupported errInviteRequiresUnsupportedExtension) sent)
  | [] =>
    let! tran := gets (fun g => Transports.getTransport NetworkToLower (TransportName req) (config g)) in
    match tran with
    | Transports.Found _ => match e_ReadInvite e with inl d => ret d | inr err => fail (ErrWrap "handling new INVITE failed" err) end
    | _ => panic
    end
  end.

(** ** A call, part by part *)

Definition storeCall (d : S) : method unit := fun g =>
  match DialogStore (ID_S d) d (server (cache g)) with
  | (c, None) => (g <| cache := cache g <| server := c |> |> <| log := log g ++ [Stored d] |>, Return tt)
  | (c, Some err) => (g <| cache := cache g <| server := c |> |>, Fail (ErrWrap "failed to store server dialog" err))
  end.
Definition hangupCall (e : env) (d : S) : method unit :=
  emit (HungUp d) ;;; match e_Hangup e with
  | Some err => if e_canceled e then ret tt else fail (ErrWrap "hanguping call failed" err)
  | None => ret tt
  end.
(** The error of the cache is logged. *)
Definition uncacheCall (d : S) (g : Diago) : Diago :=
  g <| cache := cache g <| server := (DialogDelete (ID_S d) (server (cache g))).1 |> |> <| log := log g ++ [Uncached d] |>.
Definition closeCall (d : S) (g : Diago) : Diago := g <| log := log g ++ [Closed d] |>.

(** [serve]: what comes to pass until the application's handler returns. *)
Definition newCall (serve : S -> Diago -> Diago) (e : env) (d : S) : method unit :=
  defer (closeCall d) (storeCall d ;;; defer (uncacheCall d) (emit (Served d) ;;; modify (serve d) ;;; hangupCall e d)).

Definition OnInvite (serve : S -> Diago -> Diago) (e : env) (req : Request) : method unit :=
  match DialogIDFromRequestUAS req with
  | inl id => Diago_handleReInvite e req id
  | inr _ => let! d := readNewInvite e req in newCall serve e d
  end.

(** What is not the start of a call. *)
Definition OnRequest (e : env) (req : Request) : method unit :=
  match Method req with
  | INVITE => match DialogIDFromRequestUAS req with inl id => Diago_handleReInvite e req id | inr _ => ret tt end
  | ACK => OnAck e req
  | BYE => OnBye e req
  | CANCEL => OnCancel e req
  | INFO => OnInfo e req
  | OPTIONS => OnOptions e req
  | REFER => OnRefer e req
  | NOTIFY => OnNotify e req
  end.

(** ** Calls side by side

    The phases of [newCall]; between any two of them other handlers run. *)
Inductive phase := Storing | Serving | HangingUp | Uncaching | Closing.
#[export] Instance phase_eq_dec : EqDecision phase.
Proof. solve_decision. Defined.

(** One phase of the call of [d], and the next. *)
Definition phase_step (e : env) (d : S) (ph : phase) (g : Diago) : Diago * option phase :=
  match ph with
  | Storing => match storeCall d g with (g, Return _) => ((emit (Served d) g).1, Some Serving) | (g, _) => (g, Some Closing) end
  | Serving => (g, Some HangingUp)
  | HangingUp => ((hangupCall e d g).1, Some Uncaching)
  | Uncaching => (uncacheCall d g, Some Closing)
  | Closing => (closeCall d g, None)
  end.

(** The calls whose handlers run, and the client dialogs that are established: sipgo's
    state callback of [newSipDialog] stores one, its [uncache] deletes it. *)
Record system := { dg : Diago; calls : list (S * phase); placed : list C; past : list S }.
#[export] Instance eta_system : Eta system := fun y => {| dg := dg y; calls := calls y; placed := placed y; past := past y |}.

Definition established (cd : C) (g : Diago) : Diago * option error :=
  let '(c, err) := DialogStore (ID_C cd) cd (client (cache g)) in (g <| cache := cache g <| client := c |> |>, err).
Definition uncache (cd : C) (g : Diago) : Diago := g <| cache := cache g <| client := (DialogDelete (ID_C cd) (client (cache g))).1 |> |>.

(** The ids of dialogs have a tag of each side, ours drawn anew for each. *)
Inductive step (y : system) : system -> Prop :=
| step_invite e req d g : Method req = INVITE -> (exists err, DialogIDFromRequestUAS req = inr err) -> readNewInvite e req (dg y) = (g, Return d) ->
    d ∉ past y -> ID_S d ∉ ID_S <$> (calls y).*1 -> step y (y <| dg := g |> <| calls := calls y ++ [(d, Storing)] |> <| past := d :: past y |>)
| step_refused e req g r : Method req = INVITE -> (exists err, DialogIDFromRequestUAS req = inr err) -> readNewInvite e req (dg y) = (g, Fail r) -> step y (y <| dg := g |>)
| step_request e req : step y (y <| dg := (OnRequest e req (dg y)).1 |>)
| step_call e l1 d ph l2 : calls y = l1 ++ (d, ph) :: l2 ->
    step y (y <| dg := (phase_step e d ph (dg y)).1 |> <| calls := l1 ++ match (phase_step e d ph (dg y)).2 with Some ph => [(d, ph)] | None => [] end ++ l2 |>)
| step_established cd g : ID_C cd ∉ ID_C <$> placed y -> established cd (dg y) = (g, None) -> step y (y <| dg := g |> <| placed := cd :: placed y |>)
| step_unestablished cd g err : established cd (dg y) = (g, Some err) -> step y (y <| dg := g |>)
| step_uncached l1 cd l2 : placed y = l1 ++ cd :: l2 -> step y (y <| dg := uncache cd (dg y) |> <| placed := l1 ++ l2 |>).
Inductive reachable (g : Diago) : system -> Prop :=
| reach_start : reachable g {| dg := g; calls := []; placed := []; past := [] |}
| reach_step y y' : reachable g y -> step y y' -> reachable g y'.

End Routing.
End Routing.
