(* ===== verification/RoutingProps.v ===== *)
(** * Routing of requests: the theorems

    Under every interleaving of calls and requests a request reaches the dialog it
    names if that is alive and is refused once otherwise, and a call ends out of the
    cache, hung up and closed. *)
From S2P Require Import Prelude GoStrings SessionTimer Transports DialogCache Method Routing Serving.
Import GoStrings DialogCache Method Routing.

Module RoutingProps.

Section Props.
Context {cert CS CC S C : Type} (ID_S : S -> string) (ID_C : C -> string).
Context {sipgo : Sipgo Request} {cacheS : DialogCache CS S} {cacheC : DialogCache CC C}.
Context {laws : SipgoLaws sipgo} {lawsS : DialogCacheLaws sipgo cacheS} {lawsC : DialogCacheLaws sipgo cacheC}.
Context (NetworkToLower : string -> string) (RegisteredMethods : list string).
Context `{!EqDecision S}.
Abbreviation Diago := (@Diago cert CS CC S C).
Abbreviation event := (@event S C).
Abbreviation system := (@system cert CS CC S C).
Abbreviation env := (@env S).
Abbreviation destination := (@destination S C).
Abbreviation OnRequest := (@OnRequest cert CS CC S C sipgo cacheS cacheC RegisteredMethods).
Abbreviation step := (@step cert CS CC S C ID_S ID_C sipgo cacheS cacheC NetworkToLower RegisteredMethods).
Abbreviation reachable := (@reachable cert CS CC S C ID_S ID_C sipgo cacheS cacheC NetworkToLower RegisteredMethods).

(** ** What becomes of a request *)

Definition in_dialog (req : Request) : bool :=
  match Method req with
  | CANCEL | OPTIONS => false
  | INVITE => match DialogIDFromRequestUAS req with inl _ => true | inr _ => false end
  | _ => true
  end.

Definition handler_S (m : RequestMethod) : handler :=
  match m with INVITE => handleReInvite | ACK => ReadAck | BYE => ReadBye | REFER => handleRefer | NOTIFY => handleReferNotify | _ => readSIPInfoDTMF end.
Definition handler_C (m : RequestMethod) : handler := if decide (m = ACK) then handleReInviteACK else handler_S m.

(** Handed to its dialog, whose media ends with a BYE that is in order; or refused,
    an ACK silently. *)
Definition outcome (e : env) (req : Request) (dest : destination) : list event :=
  let ends := bool_decide (Method req = BYE) && negb (invalid_cseq (e_handled e)) in
  let refuse code reason := if decide (Method req = ACK) then [] else [Respond req code reason []] in
  match dest with
  | ToServer d => HandS d (handler_S (Method req)) req :: if ends then [CloseMediaS d] else []
  | ToClient cd => HandC cd (handler_C (Method req)) req :: if ends then [CloseMediaC cd] else []
  | Missing => refuse StatusCallTransactionDoesNotExists doesNotExist
  | Malformed => refuse StatusBadRequest "Bad Request"
  end.

Definition with_events (l : list event) (g : Diago) : Diago := {| config := config g; cache := cache g; sessionTimers := sessionTimers g; log := log g ++ l |}.

Definition dest_in (req : Request) (g : Diago) : destination := destination_of req (entries (server (cache g))) (entries (client (cache g))).

Lemma respond_run e req code reason hdrs (g : Diago) : (respond e req code reason hdrs g).1 = with_events [Respond req code reason hdrs] g.
Proof. unfold respond, emit, modify, bind, check. cbn. by destruct (e_respond e). Qed.

Lemma try_state (m : M Diago unit) g : (try m g).1 = (m g).1.
Proof. unfold try. by destruct (m g) as [g' []]. Qed.

Lemma handleNoDialog_run e req err (g : Diago) : (handleNoDialog e req err g).1 =
  with_events [if errors_Is err ErrDialogDoesNotExists then Respond req StatusCallTransactionDoesNotExists doesNotExist [] else Respond req StatusBadRequest "Bad Request" []] g.
Proof.
  unfold handleNoDialog, bind. destruct (errors_Is err _).
  - unfold try, respond, emit, modify, bind, check. cbn. by destruct (e_respond e).
  - unfold try, respond, emit, modify, bind, check. cbn. by destruct (e_respond e).
Qed.

Lemma with_events_app l k (g : Diago) : with_events k (with_events l g) = with_events (l ++ k) g.
Proof. unfold with_events. cbn. by rewrite app_assoc. Qed.

Lemma OnInDialog_run h returns e req (g : Diago) : (OnInDialog h returns e req g).1 = with_events
  (match dest_in req g with
   | ToServer d => [HandS d h req]
   | ToClient cd => [HandC cd h req]
   | Missing => [Respond req StatusCallTransactionDoesNotExists doesNotExist []]
   | Malformed => [Respond req StatusBadRequest "Bad Request" []]
   end) g.
Proof.
  pose proof (MatchDialog_found req (cache g)) as Hm. unfold dest_in, OnInDialog, gets, bind. cbn beta iota. destruct (destination_of _ _ _) as [d|cd| |].
  1,2: rewrite Hm; unfold emit, modify, check; cbn; destruct returns; [by destruct (e_handled e)|done].
  all: destruct Hm as (err & -> & He); by rewrite handleNoDialog_run, He.
Qed.

Lemma OnRequest_in_dialog e req g : in_dialog req = true -> (OnRequest e req g).1 = with_events (outcome e req (dest_in req g)) g.
Proof.
  intros Hin. pose proof (MatchDialog_found req (cache g)) as Hm. unfold dest_in. unfold OnRequest, outcome, in_dialog in *. destruct (Method req) eqn:Em; try done.
  - clear Hm. unfold destination_of, Diago_handleReInvite. destruct (DialogIDFromRequestUAS req) as [id|]; [|done]. unfold gets, bind. cbn beta iota.
    pose proof (load_entries id (server (cache g))) as Hs. destruct (entries (server (cache g)) !! id) as [d|]; [rewrite Hs|destruct Hs as (err & -> & _)].
    + unfold emit, modify, check. cbn. by destruct (e_handled e).
    + destruct (DialogIDFromRequestUAC req) as [id'|]; [|by rewrite respond_run].
      pose proof (load_entries id' (client (cache g))) as Hc. destruct (entries (client (cache g)) !! id') as [cd|]; [rewrite Hc|destruct Hc as (err' & -> & _)].
      * unfold emit, modify, check. cbn. by destruct (e_handled e).
      * by rewrite respond_run.
  - unfold OnAck, gets, bind. cbn beta iota. destruct (destination_of _ _ _) as [d|cd| |].
    1,2: rewrite Hm; unfold emit, modify, check; cbn; by destruct (e_handled e).
    all: destruct Hm as (err & -> & _); unfold fail, with_events; cbn; rewrite app_nil_r; by destruct g.
  - unfold OnBye, gets, bind. cbn beta iota. destruct (destination_of _ _ _) as [d|cd| |].
    1,2: rewrite Hm; unfold emit, modify, check; cbn; destruct (e_handled e) as [err|]; cbn; [destruct (errors_Is err ErrDialogInvalidCseq); cbn|]; unfold with_events; cbn; by rewrite <- ?app_assoc.
    all: destruct Hm as (err & -> & He); by rewrite handleNoDialog_run, He.
  - unfold OnInfo, OnRefer, OnNotify. rewrite (OnInDialog_run readSIPInfoDTMF). unfold dest_in. by destruct (destination_of _ _ _).
  - unfold OnInfo, OnRefer, OnNotify. rewrite (OnInDialog_run handleRefer). unfold dest_in. by destruct (destination_of _ _ _).
  - unfold OnInfo, OnRefer, OnNotify. rewrite (OnInDialog_run handleReferNotify). unfold dest_in. by destruct (destination_of _ _ _).
Qed.

(** ** The course of a call *)

Inductive stage := SStored | SServed | SHungUp | SUncached | SClosed.
Definition stage_of (d : S) (ev : event) : option stage :=
  match ev with
  | Stored d' => if decide (d' = d) then Some SStored else None
  | Served d' => if decide (d' = d) then Some SServed else None
  | HungUp d' => if decide (d' = d) then Some SHungUp else None
  | Uncached d' => if decide (d' = d) then Some SUncached else None
  | Closed d' => if decide (d' = d) then Some SClosed else None
  | _ => None
  end.
Definition course (d : S) (l : list event) : list stage := omap (stage_of d) l.

(** The course of a call whose handler is in a phase, or has returned ([None]): one
    that could not be stored was not served. *)
Definition on_course (ph : option phase) (l : list stage) : Prop :=
  match ph with
  | Some Storing => l = []
  | Some Serving | Some HangingUp => l = [SStored; SServed]
  | Some Uncaching => l = [SStored; SServed; SHungUp]
  | Some Closing => l = [] \/ l = [SStored; SServed; SHungUp; SUncached]
  | None => l = [SClosed] \/ l = [SStored; SServed; SHungUp; SUncached; SClosed]
  end.

Definition in_cache (ph : phase) : bool := match ph with Serving | HangingUp | Uncaching => true | _ => false end.

Record Inv (y : system) : Prop := {
  inv_server id d : entries (server (cache (dg y))) !! id = Some d <-> exists ph, (d, ph) ∈ calls y /\ in_cache ph = true /\ ID_S d = id;
  inv_ids : NoDup (ID_S <$> (calls y).*1);
  inv_client id cd : entries (client (cache (dg y))) !! id = Some cd <-> cd ∈ placed y /\ ID_C cd = id;
  inv_placed : NoDup (ID_C <$> placed y);
  inv_past d ph : (d, ph) ∈ calls y -> d ∈ past y;
  inv_course d ph : (d, ph) ∈ calls y -> on_course (Some ph) (course d (log (dg y)));
  inv_over d : d ∈ past y -> d ∉ (calls y).*1 -> on_course None (course d (log (dg y)));
  inv_fresh d : d ∉ past y -> course d (log (dg y)) = [] }.

Definition quiet (l : list event) : Prop := forall d, course d l = [].

Lemma course_app d l k : course d (l ++ k) = course d l ++ course d k.
Proof. apply omap_app. Qed.

(** Nothing about calls or the cache. *)
Lemma Inv_quiet y g l : Inv y -> log g = log (dg y) ++ l -> quiet l -> cache g = cache (dg y) -> Inv (y <| dg := g |>).
Proof.
  intros [I1 I2 I3 I4 I5 I6 I7 I8] El Hq Ec. assert (forall d, course d (log g) = course d (log (dg y))) as E by (intros d; by rewrite El, course_app, Hq, app_nil_r).
  split; cbn; [intros id d; rewrite Ec; apply I1|exact I2|intros id cd; rewrite Ec; apply I3|exact I4|exact I5| | |].
  - intros d ph H. rewrite E. by apply I6.
  - intros d H1 H2. rewrite E. by apply I7.
  - intros d H. rewrite E. by apply I8.
Qed.

Lemma outcome_quiet e req dest : quiet (outcome e req dest).
Proof. intros d. unfold outcome. destruct dest; cbn; try (by destruct (_ && _)); by destruct (decide _). Qed.

Lemma OnRequest_quiet e req g : exists l, (OnRequest e req g).1 = with_events l g /\ quiet l.
Proof.
  destruct (in_dialog req) eqn:Ed; [exists (outcome e req (dest_in req g)); split; [by apply OnRequest_in_dialog|apply outcome_quiet]|].
  assert (exists l, with_events l g = g /\ quiet l) as Hnil by (exists []; split; [unfold with_events; rewrite app_nil_r; by destruct g|done]).
  unfold in_dialog in Ed. unfold OnRequest. destruct (Method req); try done.
  - destruct (DialogIDFromRequestUAS req); [done|]. destruct Hnil as (l & E & Hl). by exists l.
  - unfold OnCancel. rewrite respond_run. by eexists.
  - unfold OnOptions. rewrite respond_run. by eexists.
Qed.

Lemma readNewInvite_quiet e req (g : Diago) g' r : readNewInvite NetworkToLower e req g = (g', r) -> exists l, g' = with_events l g /\ quiet l.
Proof.
  assert (exists l, g = with_events l g /\ quiet l) as Hnil by (exists []; split; [unfold with_events; rewrite app_nil_r; by destruct g|done]).
  assert (forall code reason hdrs err, (let! sent := try (respond e req code reason hdrs) in fail (errors_Join err sent)) g = (g', r) -> exists l, g' = with_events l g /\ quiet l) as Hr.
  { intros code reason hdrs err. unfold bind, try, respond, emit, modify, check. destruct (e_respond e); intros [= <- _]; by exists [Respond req code reason hdrs]. }
  unfold readNewInvite. destruct (String.eqb _ _); cbn [negb]; [|apply Hr]. unfold gets. unfold bind at 1. cbn beta iota.
  destruct (unsupportedRequiredExtensions _ _) as [|tag tags]; [|apply Hr]. unfold bind. cbn beta iota.
  destruct (Transports.getTransport _ _ _); [|intros [= <- _]; done..]. destruct (e_ReadInvite e); intros [= <- _]; done.
Qed.

(** The phase of one call moves; [o]: its next phase. *)
Definition moved (y : system) (g : Diago) (l1 : list (S * phase)) (d : S) (o : option phase) (l2 : list (S * phase)) : system :=
  y <| dg := g |> <| calls := l1 ++ match o with Some ph => [(d, ph)] | None => [] end ++ l2 |>.
Definition cached (o : option phase) : bool := match o with Some ph => in_cache ph | None => false end.

Lemma elem_of_moved (l1 l2 : list (S * phase)) (d : S) (o : option phase) x : x ∈ l1 ++ match o with Some ph => [(d, ph)] | None => [] end ++ l2 <-> x ∈ l1 ++ l2 \/ (exists ph, o = Some ph /\ x = (d, ph)).
Proof.
  rewrite !elem_of_app. destruct o as [ph|].
  - rewrite list_elem_of_singleton. split; [intros [H|[H|H]]; eauto|intros [[H|H]|(? & [= <-] & ->)]; auto].
  - split; [intros [H|[H|H]]; auto; by apply elem_of_nil in H|intros [[H|H]|(? & H & _)]; auto; discriminate].
Qed.

Lemma others_differ (l1 : list (S * phase)) d (ph : phase) l2 : NoDup (ID_S <$> (l1 ++ (d, ph) :: l2).*1) -> NoDup (ID_S <$> (l1 ++ l2).*1) /\ forall d' ph', (d', ph') ∈ l1 ++ l2 -> ID_S d' <> ID_S d.
Proof.
  assert (l1 ++ (d, ph) :: l2 ≡ₚ (d, ph) :: l1 ++ l2) as -> by (symmetry; apply Permutation_middle). cbn. intros [H1 H2]%NoDup_cons. split; [done|].
  intros d' ph' Hin E. apply H1. rewrite <- E. apply list_elem_of_fmap. exists d'. split; [done|]. apply list_elem_of_fmap. by exists (d', ph').
Qed.

Lemma Inv_moved y g l1 d ph o l2 : Inv y -> calls y = l1 ++ (d, ph) :: l2 ->
  (forall id, id <> ID_S d -> entries (server (cache g)) !! id = entries (server (cache (dg y))) !! id) ->
  entries (server (cache g)) !! ID_S d = (if cached o then Some d else None) ->
  client (cache g) = client (cache (dg y)) ->
  on_course o (course d (log g)) -> (forall d', d' <> d -> course d' (log g) = course d' (log (dg y))) ->
  Inv (moved y g l1 d o l2).
Proof.
  intros [I1 I2 I3 I4 I5 I6 I7 I8] Ec Ho Hs Hcl Hd Hd'. rewrite Ec in *. destruct (others_differ _ _ _ _ I2) as [Hnd Hne].
  assert (d ∈ past y) as Hpast by (apply (I5 d ph), elem_of_app; right; by left).
  assert (forall x, x ∈ l1 ++ l2 -> x ∈ l1 ++ (d, ph) :: l2) as Hsub by (intros x; rewrite !elem_of_app, elem_of_cons; tauto).
  assert (forall d' ph', (d', ph') ∈ l1 ++ (d, ph) :: l2 -> ID_S d' <> ID_S d -> (d', ph') ∈ l1 ++ l2) as Hsup.
  { intros d' ph'. rewrite !elem_of_app, elem_of_cons. intros [H|[[= -> ->]|H]] Hne'; [by left|done|by right]. }
  split; cbn [dg calls placed past field_update moved].
  - intros id d'. destruct (decide (id = ID_S d)) as [->|Hid].
    + rewrite Hs. split.
      * destruct o as [ph'|]; [|done]. cbn. destruct (in_cache ph') eqn:Ei; [|done]. intros [= <-]. exists ph'. split; [|done]. apply (elem_of_moved l1 l2 d (Some ph')). right. eauto.
      * intros (ph' & Hin & Hic & Hid). apply elem_of_moved in Hin as [Hin|(ph2 & -> & [= -> ->])]; [by apply Hne in Hin|]. cbn. by rewrite Hic.
    + rewrite Ho, I1 by done. split; intros (ph' & Hin & Hic & <-); exists ph'; (split; [|done]).
      * apply elem_of_moved. left. by apply Hsup.
      * apply elem_of_moved in Hin as [Hin|(ph2 & -> & [= -> ->])]; [by apply Hsub|done].
  - destruct o as [ph'|]; [|exact Hnd]. rewrite !fmap_app in *. exact I2.
  - intros id cd. rewrite Hcl. apply I3.
  - exact I4.
  - intros d' ph' Hin. apply elem_of_moved in Hin as [Hin|(ph2 & -> & [= -> ->])]; [by eapply I5, Hsub|done].
  - intros d' ph' Hin. apply elem_of_moved in Hin as [Hin|(ph2 & -> & [= -> ->])]; [|done]. rewrite Hd'; [by apply I6, Hsub|]. intros ->. by apply Hne in Hin.
  - intros d' Hp Hout. destruct (decide (d' = d)) as [->|Hdd].
    + destruct o as [ph'|]; [|done]. exfalso. apply Hout. apply list_elem_of_fmap. exists (d, ph'). split; [done|]. apply (elem_of_moved l1 l2 d (Some ph')). eauto.
    + rewrite Hd' by done. apply I7; [done|]. intros Hin. apply list_elem_of_fmap in Hin as ([d2 ph2] & -> & Hin). apply Hout, list_elem_of_fmap. exists (d2, ph2). split; [done|].
      apply elem_of_moved. left. rewrite !elem_of_app, elem_of_cons in *. destruct Hin as [H|[[= -> ->]|H]]; auto. done.
  - intros d' Hp. rewrite Hd'; [by apply I8|]. intros ->. done.
Qed.

(** ** One phase of a call *)

(** The events of a phase are of its call and keep it on its course. *)
Lemma phase_events d k l ph o : (forall d', d' <> d -> course d' k = []) -> (on_course (Some ph) (course d l) -> on_course o (course d l ++ course d k)) ->
  on_course (Some ph) (course d l) -> on_course o (course d (l ++ k)) /\ forall d', d' <> d -> course d' (l ++ k) = course d' l.
Proof. intros H1 H2 H. rewrite course_app. split; [auto|]. intros d' Hd. by rewrite course_app, H1, app_nil_r. Qed.

Ltac events d ph o := apply (phase_events d _ _ ph o); [intros d' Hd'; cbn; by rewrite ?decide_False by congruence|cbn; rewrite ?decide_True by done; cbn].

Lemma phase_step_log e d ph (g : Diago) : on_course (Some ph) (course d (log g)) -> let '(g', o) := phase_step ID_S e d ph g in
  on_course o (course d (log g')) /\ forall d', d' <> d -> course d' (log g') = course d' (log g).
Proof.
  destruct ph; cbn [phase_step].
  - unfold storeCall. destruct (DialogStore _ _ _) as [c [err|]]; cbn; [by auto|]. rewrite <- app_assoc. events d Storing (Some Serving). by intros ->.
  - cbn. by auto.
  - assert (log (hangupCall e d g).1 = log g ++ [HungUp d]) as ->.
    { unfold hangupCall, emit, modify, bind. cbn. destruct (e_Hangup e); [by destruct (e_canceled e)|done]. }
    events d HangingUp (Some Uncaching). by intros ->.
  - cbn. events d Uncaching (Some Closing). intros ->. by right.
  - cbn. events d Closing (None : option phase). intros [->| ->]; [by left|by right].
Qed.

Lemma phase_step_cache e d ph (g : Diago) : entries (server (cache g)) !! ID_S d = (if in_cache ph then Some d else None) -> let '(g', o) := phase_step ID_S e d ph g in
  client (cache g') = client (cache g) /\ (forall id, id <> ID_S d -> entries (server (cache g')) !! id = entries (server (cache g)) !! id) /\
  entries (server (cache g')) !! ID_S d = (if cached o then Some d else None).
Proof.
  intros H. destruct ph; cbn [phase_step in_cache] in *.
  - unfold storeCall. pose proof (store_entries (ID_S d) d (server (cache g))) as Hs. destruct (DialogStore _ _ _) as [c [err|]]; cbn; rewrite Hs.
    + by rewrite H.
    + split; [done|]. split; [intros id Hid; by rewrite lookup_insert_ne|by rewrite lookup_insert_eq].
  - cbn. by rewrite H.
  - assert (cache (hangupCall e d g).1 = cache g) as ->; [|by cbn; rewrite H].
    unfold hangupCall, emit, modify, bind. cbn. destruct (e_Hangup e); [by destruct (e_canceled e)|done].
  - cbn. pose proof (delete_entries (ID_S d) (server (cache g))) as Hs. destruct (DialogDelete _ _) as [c err]. cbn. destruct Hs as [_ ->].
    split; [done|]. split; [intros id Hid; by rewrite lookup_delete_ne|by rewrite lookup_delete_eq].
  - cbn. by rewrite H.
Qed.

Lemma phase_step_Inv e y l1 d ph l2 : Inv y -> calls y = l1 ++ (d, ph) :: l2 ->
  Inv (moved y (phase_step ID_S e d ph (dg y)).1 l1 d (phase_step ID_S e d ph (dg y)).2 l2).
Proof.
  intros I Ec. assert ((d, ph) ∈ calls y) as Hin by (rewrite Ec; apply elem_of_app; right; by left).
  pose proof (inv_course _ I d ph Hin) as Hco. pose proof (inv_ids _ I) as Hids. rewrite Ec in Hids. destruct (others_differ _ _ _ _ Hids) as [_ Hne].
  assert (entries (server (cache (dg y))) !! ID_S d = if in_cache ph then Some d else None) as Hl.
  { destruct (in_cache ph) eqn:Ei; [apply (inv_server _ I); eauto|]. apply eq_None_not_Some. intros [d' Hd']. apply (inv_server _ I) in Hd' as (ph' & Hin' & Hic & E).
    rewrite Ec in Hin'. apply elem_of_app in Hin' as [H|H]; [|apply elem_of_cons in H as [[= -> ->]|H]]; [|congruence|]; eapply (Hne d' ph'); try done; apply elem_of_app; auto. }
  pose proof (phase_step_log e d ph (dg y) Hco) as H1. pose proof (phase_step_cache e d ph (dg y) Hl) as H2.
  destruct (phase_step ID_S e d ph (dg y)) as [g o]. destruct H1 as [H1 H1'], H2 as (H2 & H2' & H2''). by apply (Inv_moved y g l1 d ph o l2).
Qed.

(** ** Client dialogs *)

(** [l]: the client dialogs there come to be. *)
Lemma Inv_placed y g (l : list C) : Inv y -> server (cache g) = server (cache (dg y)) -> log g = log (dg y) ->
  (forall id cd, entries (client (cache g)) !! id = Some cd <-> cd ∈ l /\ ID_C cd = id) -> NoDup (ID_C <$> l) -> Inv (y <| dg := g |> <| placed := l |>).
Proof.
  intros [I1 I2 I3 I4 I5 I6 I7 I8] Es El Hc Hn. split; cbn; [intros id d; rewrite Es; apply I1|exact I2|exact Hc|exact Hn|exact I5| | |].
  - intros d ph H. rewrite El. by apply I6.
  - intros d H1 H2. rewrite El. by apply I7.
  - intros d H. rewrite El. by apply I8.
Qed.

Lemma established_Inv y cd g : Inv y -> ID_C cd ∉ ID_C <$> placed y -> established ID_C cd (dg y) = (g, None) -> Inv (y <| dg := g |> <| placed := cd :: placed y |>).
Proof.
  intros I Hf E. unfold established in E. pose proof (store_entries (ID_C cd) cd (client (cache (dg y)))) as Hs. destruct (DialogStore _ _ _) as [c err].
  injection E as <- ->. apply Inv_placed; [done..| |].
  - intros id cd'. cbn. rewrite Hs. destruct (decide (id = ID_C cd)) as [->|Hid].
    + rewrite lookup_insert_eq. split; [intros [= <-]; split; [by left|done]|]. intros [Hin E]. apply elem_of_cons in Hin as [->|Hin]; [done|].
      exfalso. apply Hf, list_elem_of_fmap. by exists cd'.
    + rewrite lookup_insert_ne, (inv_client _ I) by done. rewrite elem_of_cons. split; [intros [H <-]; auto|]. intros [[->|H] E]; [by rewrite E in Hid|done].
  - cbn. constructor; [done|apply (inv_placed _ I)].
Qed.

Lemma uncache_Inv y l1 cd l2 : Inv y -> placed y = l1 ++ cd :: l2 -> Inv (y <| dg := uncache ID_C cd (dg y) |> <| placed := l1 ++ l2 |>).
Proof.
  intros I Ep. pose proof (inv_placed _ I) as Hn. rewrite Ep in Hn.
  assert (l1 ++ cd :: l2 ≡ₚ cd :: l1 ++ l2) as Hperm by (symmetry; apply Permutation_middle). rewrite Hperm in Hn. cbn in Hn. apply NoDup_cons in Hn as [Hf Hn].
  pose proof (delete_entries (ID_C cd) (client (cache (dg y)))) as Hd. unfold uncache. destruct (DialogDelete _ _) as [c err]. destruct Hd as [_ Hd]. apply Inv_placed; [done..| |done].
  intros id cd'. cbn. rewrite Hd. destruct (decide (id = ID_C cd)) as [->|Hid].
  - rewrite lookup_delete_eq. split; [done|]. intros [Hin E]. exfalso. apply Hf, list_elem_of_fmap. by exists cd'.
  - rewrite lookup_delete_ne, (inv_client _ I) by done. rewrite Ep, Hperm, elem_of_cons. split; [intros [[->|H] <-]; done|intros [H <-]; auto].
Qed.

Lemma invite_Inv y e req d g : Inv y -> readNewInvite NetworkToLower e req (dg y) = (g, Return d) -> d ∉ past y -> ID_S d ∉ ID_S <$> (calls y).*1 ->
  Inv (y <| dg := g |> <| calls := calls y ++ [(d, Storing)] |> <| past := d :: past y |>).
Proof.
  intros I E Hp Hf. destruct (readNewInvite_quiet _ _ _ _ _ E) as (l & -> & Hq). assert (forall d', course d' (log (with_events l (dg y))) = course d' (log (dg y))) as Ec.
  { intros d'. unfold with_events. cbn [log]. by rewrite course_app, Hq, app_nil_r. }
  destruct I as [I1 I2 I3 I4 I5 I6 I7 I8]. split; cbn [dg calls placed past field_update].
  - intros id d'. rewrite I1. split; intros (ph & Hin & Hic & <-); exists ph; (split; [|done]); [apply elem_of_app; by left|].
    apply elem_of_app in Hin as [H|H]; [done|]. apply list_elem_of_singleton in H as [= -> ->]. done.
  - rewrite !fmap_app. cbn. apply NoDup_app. split; [done|]. split; [|apply NoDup_singleton]. intros i Hi ->%list_elem_of_singleton. done.
  - exact I3.
  - exact I4.
  - intros d' ph Hin. apply elem_of_app in Hin as [H|H]; [right; by eapply I5|]. apply list_elem_of_singleton in H as [= -> ->]. by left.
  - intros d' ph Hin. rewrite Ec. apply elem_of_app in Hin as [H|H]; [by apply I6|]. apply list_elem_of_singleton in H as [= -> ->]. by apply I8.
  - intros d' Hin Hout. rewrite Ec. rewrite fmap_app, elem_of_app in Hout. apply elem_of_cons in Hin as [->|Hin]; [|apply I7; tauto]. exfalso. apply Hout. right. by left.
  - intros d' Hin. rewrite Ec. apply I8. intros H. apply Hin. by right.
Qed.

Lemma step_Inv y y' : Inv y -> step y y' -> Inv y'.
Proof.
  intros I [e req d g _ _ E Hp Hf|e req g r _ _ E|e req|e l1 d ph l2 Ec|cd g Hf E|cd g err E|l1 cd l2 Ep].
  - by eapply invite_Inv.
  - destruct (readNewInvite_quiet _ _ _ _ _ E) as (l & -> & Hq). by eapply Inv_quiet.
  - destruct (OnRequest_quiet e req (dg y)) as (l & -> & Hq). by eapply Inv_quiet.
  - by apply (phase_step_Inv e y l1 d ph l2).
  - by apply established_Inv.
  - unfold established in E. pose proof (store_entries (ID_C cd) cd (client (cache (dg y)))) as Hs. destruct (DialogStore _ _ _) as [c err']. injection E as <- ->.
    assert (Inv (y <| dg := dg y <| cache := cache (dg y) <| client := c |> |> |> <| placed := placed y |>)) as H; [|by destruct y].
    apply Inv_placed; [done..| |apply (inv_placed _ I)]. intros id cd'. cbn. rewrite Hs. apply (inv_client _ I).
  - by apply uncache_Inv.
Qed.

(** A Diago that knows no dialog and has done nothing. *)
Definition idle_diago (g : Diago) : Prop := entries (server (cache g)) = ∅ /\ entries (client (cache g)) = ∅ /\ log g = [].

Lemma reachable_Inv g y : idle_diago g -> reachable g y -> Inv y.
Proof.
  intros (H1 & H2 & H3). induction 1 as [|y y' _ IH Hs]; [|by eapply step_Inv]. split; cbn; try done.
  - intros id d. rewrite H1, lookup_empty. split; [done|]. by intros (ph & ?%elem_of_nil & _).
  - constructor.
  - intros id cd. rewrite H2, lookup_empty. split; [done|]. by intros [?%elem_of_nil _].
  - constructor.
  - by intros d ph ?%elem_of_nil.
  - by intros d ph ?%elem_of_nil.
  - intros d _. by rewrite H3.
Qed.

(** ** The theorems *)

(** A call is alive from the time it is stored until it is taken out of the cache. *)
Definition alive (y : system) (d : S) : Prop := exists ph, (d, ph) ∈ calls y /\ in_cache ph = true.

(** Whom a request is for: a call that is alive with its id, as the called side reads
    it; else a client dialog in place with its id, as the calling side reads it. *)
Inductive for_dialog (y : system) (req : Request) : destination -> Prop :=
| for_call d : alive y d -> DialogIDFromRequestUAS req = inl (ID_S d) -> for_dialog y req (ToServer d)
| for_placed id cd : DialogIDFromRequestUAS req = inl id -> (forall d, alive y d -> ID_S d <> id) -> cd ∈ placed y -> DialogIDFromRequestUAC req = inl (ID_C cd) ->
    for_dialog y req (ToClient cd)
| for_none id id' : DialogIDFromRequestUAS req = inl id -> (forall d, alive y d -> ID_S d <> id) -> DialogIDFromRequestUAC req = inl id' ->
    (forall cd, cd ∈ placed y -> ID_C cd <> id') -> for_dialog y req Missing
| malformed_called err : DialogIDFromRequestUAS req = inr err -> for_dialog y req Malformed
| malformed_calling id err : DialogIDFromRequestUAS req = inl id -> (forall d, alive y d -> ID_S d <> id) -> DialogIDFromRequestUAC req = inr err -> for_dialog y req Malformed.

Lemma for_dialog_iff y req dest : Inv y -> for_dialog y req dest <-> dest_in req (dg y) = dest.
Proof.
  intros I. assert (forall id, match entries (server (cache (dg y))) !! id with Some d => alive y d /\ ID_S d = id | None => forall d, alive y d -> ID_S d <> id end) as Hs.
  { intros id. destruct (entries (server (cache (dg y))) !! id) as [d|] eqn:E.
    - apply (inv_server _ I) in E as (ph & H1 & H2 & H3). split; [by exists ph|done].
    - intros d (ph & H1 & H2) H3. rewrite (proj2 (inv_server _ I id d)) in E by eauto. done. }
  assert (forall id, match entries (client (cache (dg y))) !! id with Some cd => cd ∈ placed y /\ ID_C cd = id | None => forall cd, cd ∈ placed y -> ID_C cd <> id end) as Hc.
  { intros id. destruct (entries (client (cache (dg y))) !! id) as [cd|] eqn:E; [by apply (inv_client _ I)|]. intros cd H1 H2. rewrite (proj2 (inv_client _ I id cd)) in E by auto. done. }
  unfold dest_in, destination_of. split.
  - intros [d (ph & H1 & H2) ->|id cd -> Ha Hp ->|id id' -> Ha -> Hp|err ->|id err -> Ha ->]; try done.
    + by rewrite (proj2 (inv_server _ I (ID_S d) d)) by eauto.
    + pose proof (Hs id) as H. destruct (entries _ !! id) as [d|]; [by destruct H as [H1 H2]; apply Ha in H1|]. by rewrite (proj2 (inv_client _ I (ID_C cd) cd)) by auto.
    + pose proof (Hs id) as H. destruct (entries _ !! id) as [d|]; [by destruct H as [H1 H2]; apply Ha in H1|]. pose proof (Hc id') as H'.
      destruct (entries _ !! id') as [cd|]; [by destruct H' as [H1 H2]; apply Hp in H1|done].
    + pose proof (Hs id) as H. destruct (entries _ !! id) as [d|]; [by destruct H as [H1 H2]; apply Ha in H1|done].
  - intros <-. destruct (DialogIDFromRequestUAS req) as [id|] eqn:Eu; [|by eapply malformed_called]. pose proof (Hs id) as H.
    destruct (entries _ !! id) as [d|]; [destruct H as [H1 <-]; by apply for_call|]. destruct (DialogIDFromRequestUAC req) as [id'|] eqn:Ecl; [|by eapply malformed_calling].
    pose proof (Hc id') as H'. destruct (entries _ !! id') as [cd|]; [destruct H' as [H1 <-]; by eapply for_placed|by eapply for_none].
Qed.

(** C19. Whatever calls begin and end and whatever requests come in between, in any
    order: a request in a dialog is for exactly one of its call that is alive, its
    client dialog in place, no dialog and none it could name; it is handed to the
    former two, as the method asks and once, and refused with one 481 or 400
    otherwise, an ACK without an answer; and no dialog is forgotten or found for it. *)
Theorem requests_reach_their_dialog g y e req : idle_diago g -> reachable g y -> in_dialog req = true ->
  exists dest, for_dialog y req dest /\ (forall dest', for_dialog y req dest' -> dest' = dest) /\ (OnRequest e req (dg y)).1 = with_events (outcome e req dest) (dg y).
Proof.
  intros Hg Hr Hin. pose proof (reachable_Inv g y Hg Hr) as I. exists (dest_in req (dg y)). split; [by apply for_dialog_iff|]. split.
  - intros dest' H. symmetry. by apply for_dialog_iff.
  - by apply OnRequest_in_dialog.
Qed.

(** Every call of a new INVITE runs its course, whatever comes between: stored, then
    served, hung up once, out of the cache and closed, in this order; one that cannot
    be stored is closed and never served. When its handler has returned it is closed
    once and no request finds it. *)
Theorem calls_run_their_course g y d : idle_diago g -> reachable g y -> d ∈ past y ->
  (exists ph, (d, ph) ∈ calls y /\ on_course (Some ph) (course d (log (dg y)))) \/
  (on_course None (course d (log (dg y))) /\ forall req, ~ for_dialog y req (ToServer d)).
Proof.
  intros Hg Hr Hp. pose proof (reachable_Inv g y Hg Hr) as I. destruct (decide (d ∈ (calls y).*1)) as [H|H].
  - left. apply list_elem_of_fmap in H as ([d' ph] & -> & Hin). exists ph. split; [done|]. by apply (inv_course _ I).
  - right. split; [by apply (inv_over _ I)|]. intros req Hf. inversion Hf as [? (ph & Hin & _) _| | | |]. apply H, list_elem_of_fmap. by exists (d, ph).
Qed.

(** ** New INVITEs *)

(** [OnInvite] of a new INVITE goes through the phases of its call. *)
Definition run_phases (serve : S -> Diago -> Diago) (e : env) (d : S) (g : Diago) : Diago :=
  let step ph g := (phase_step ID_S e d ph g).1 in
  match phase_step ID_S e d Storing g with
  | (g, Some Serving) => step Closing (step Uncaching (step HangingUp (serve d (step Serving g))))
  | (g, _) => step Closing g
  end.
Lemma newCall_phases serve e d (g : Diago) : (newCall ID_S serve e d g).1 = run_phases serve e d g.
Proof.
  unfold newCall, run_phases, phase_step, defer, bind. unfold storeCall. destruct (DialogStore _ _ _) as [c [err|]]; [done|]. cbn.
  unfold emit, modify, bind. cbn. destruct (e_Hangup e); [by destruct (e_canceled e)|done].
Qed.

Lemma tag_unsupported req timers tag : tag ∈ unsupportedRequiredExtensions req timers <->
  (exists h part, h ∈ RequireHdrs req /\ part ∈ Split h "," /\ tag = TrimSpace part) /\ tag <> EmptyString /\ (SessionTimer.Enabled timers && EqualFold tag "timer") = false.
Proof.
  unfold unsupportedRequiredExtensions. rewrite list_elem_of_In, List.filter_In, <- list_elem_of_In, negb_true_iff, orb_false_iff, String.eqb_neq, list_elem_of_fmap.
  setoid_rewrite list_elem_of_In. setoid_rewrite in_concat. split; (intros [H1 H2]; split; [|done]).
  - destruct H1 as (part & -> & l & Hl & Hp). apply list_elem_of_In, list_elem_of_fmap in Hl as (h & -> & Hh). exists h, part. by rewrite <- list_elem_of_In.
  - destruct H1 as (h & part & Hh & Hp & ->). exists part. split; [done|]. exists (Split h ","). split; [|done]. apply list_elem_of_In, list_elem_of_fmap. exists h. by rewrite list_elem_of_In.
Qed.

(** A new INVITE is refused with one response, 400 for the first header it lacks or
    420 for exactly the extensions it requires that we do not support; no other is
    answered before it is served, and one of those becomes a dialog or panics. *)
Theorem new_invite_settled e req (g : Diago) : let '(g', r) := readNewInvite NetworkToLower e req g in
  let reason := describeMissingInviteHeader req in let tags := unsupportedRequiredExtensions req (sessionTimers g) in
  if decide (reason <> EmptyString) then g' = with_events [Respond req StatusBadRequest reason []] g /\ exists err, r = Fail err
  else if decide (tags <> []) then g' = with_events [Respond req StatusBadExtension "Bad Extension" [("Unsupported", Join tags ", ")]] g /\ exists err, r = Fail err
  else g' = g /\ (r = Panics <-> forall t, Transports.getTransport NetworkToLower (TransportName req) (config g) <> Transports.Found t) /\
    (forall d, r = Return d -> e_ReadInvite e = inl d).
Proof.
  assert (forall code reason hdrs err, exists x, (let! sent := try (respond e req code reason hdrs) in fail (errors_Join err sent)) g = (with_events [Respond req code reason hdrs] g, Fail x : res S)) as Hr.
  { intros code reason hdrs err. unfold bind, try, respond, emit, modify, check. destruct (e_respond e); by eexists. }
  unfold readNewInvite. destruct (String.eqb_spec (describeMissingInviteHeader req) EmptyString) as [E|E]; cbn [negb].
  2: { match goal with |- context [bind (try (respond _ _ ?c ?rs ?h)) (fun _ => fail (errors_Join ?er _))] => destruct (Hr c rs h er) as [x ->] end.
       cbv zeta. rewrite decide_True by done. split; [done|by exists x]. }
  unfold gets. unfold bind at 1. cbn beta iota. destruct (unsupportedRequiredExtensions req (sessionTimers g)) as [|tag tags] eqn:Et.
  2: { match goal with |- context [bind (try (respond _ _ ?c ?rs ?h)) (fun _ => fail (errors_Join ?er _))] => destruct (Hr c rs h er) as [x ->] end.
       cbv zeta. rewrite decide_False by tauto. rewrite decide_True by done. split; [done|by exists x]. }
  unfold bind. cbn beta iota. destruct (Transports.getTransport _ _ _) as [t| |]; [destruct (e_ReadInvite e) as [d|err]|..]; unfold ret, fail, panic;
    cbv zeta beta iota; rewrite (decide_False (P := describeMissingInviteHeader req <> EmptyString)) by tauto; rewrite decide_False by tauto;
    (split; [done|split; [|by intros d' [= ->]]]); split; try done; intros H; by destruct (H t).
Qed.

End Props.

(** ** A call and its BYE

    The dialogs of these are their ids, in the map. *)
Definition ex_id (inner outer : option (option string)) (callID : option string) : string + error :=
  match callID, inner, outer with
  | Some c, Some (Some i), Some (Some o) => inl (c +:+ "__" +:+ i +:+ "__" +:+ o)
  | _, _, _ => inr (ErrNew "missing tag or Call-ID")
  end.
Definition ex_sipgo : Sipgo Request := {|
  DialogIDFromRequestUAS req := ex_id (To req) (From req) (CallID req); DialogIDFromRequestUAC req := ex_id (From req) (To req) (CallID req);
  ErrDialogDoesNotExists := ErrNew "dialog does not exist"; ErrDialogOutsideDialog := ErrNew "call outside of dialog"; ErrDialogInvalidCseq := ErrNew "invalid CSEQ number" |}.
Lemma ex_id_malformed inner outer c err : ex_id inner outer c = inr err -> errors_Is err (ErrNew "dialog does not exist") = false.
Proof. unfold ex_id. destruct c, inner as [[]|], outer as [[]|]; intros [= <-]; reflexivity. Qed.
Lemma ex_sipgo_laws : SipgoLaws ex_sipgo.
Proof. split; [intros req err; apply ex_id_malformed|intros req err; apply ex_id_malformed|reflexivity|intros e1 e2; discriminate]. Qed.

Section Example.
#[local] Existing Instance ex_sipgo.
#[local] Existing Instance ex_sipgo_laws.
Abbreviation map := (dialogCacheMap string).

Definition ex_req (m : RequestMethod) (to : option string) : Request :=
  {| Method := m; From := Some (Some "peer"); To := Some to; CallID := Some "c1"; CSeq := Some 1%Z; Contact := Some "sip:peer"; RequireHdrs := ["timer , "]; TransportName := "UDP" |}.
Definition ex_timers : SessionTimer.SessionTimerPolicy :=
  {| SessionTimer.Enabled := true; SessionTimer.DefaultSE := 0%Z; SessionTimer.MinSE := 0%Z; SessionTimer.PreferUASRefresher := false; SessionTimer.WatchdogGrace := 0%Z; SessionTimer.clock := 0%Z |}.
Definition ex_start : @Diago unit map map string string :=
  {| config := Serving.Serving.ex_diago; cache := {| client := ∅; server := ∅ |}; sessionTimers := ex_timers; log := [] |}.
Definition ex_env : @env string := {| e_respond := None; e_handled := None; e_ReadInvite := inl "c1__ours__peer"; e_Hangup := None; e_canceled := false |}.

Definition ex_new : @system unit map map string string := {| dg := ex_start; calls := [("c1__ours__peer", Storing)]; placed := []; past := ["c1__ours__peer"] |}.
Definition ex_serving : @system unit map map string string :=
  moved ex_new (phase_step id ex_env "c1__ours__peer" Storing ex_start).1 [] "c1__ours__peer" (phase_step id ex_env "c1__ours__peer" Storing ex_start).2 [].

Lemma ex_idle : idle_diago ex_start.
Proof. done. Qed.
Lemma ex_reachable : reachable id id ToLower [] ex_start ex_serving.
Proof.
  eapply reach_step; [eapply reach_step; [apply reach_start|]|].
  - eapply (step_invite _ _ _ _ _ ex_env (ex_req INVITE None) "c1__ours__peer" ex_start); [reflexivity|by eexists|vm_compute; reflexivity|apply not_elem_of_nil|apply not_elem_of_nil].
  - apply (step_call id id ToLower [] ex_new ex_env [] "c1__ours__peer" Storing []). reflexivity.
Qed.

Lemma requests_reach_their_dialog_witness :
  (OnRequest [] ex_env (ex_req BYE (Some "ours")) (dg ex_serving)).1 =
    with_events [HandS "c1__ours__peer" ReadBye (ex_req BYE (Some "ours")); CloseMediaS "c1__ours__peer"] (dg ex_serving) /\
  (OnRequest [] ex_env (ex_req BYE (Some "other")) (dg ex_serving)).1 =
    with_events [Respond (ex_req BYE (Some "other")) 481 "Call/Transaction Does Not Exist" []] (dg ex_serving).
Proof.
  split.
  - destruct (requests_reach_their_dialog id id ToLower [] ex_start ex_serving ex_env (ex_req BYE (Some "ours")) ex_idle ex_reachable eq_refl) as (dest & _ & Hu & ->).
    rewrite <- (Hu (ToServer "c1__ours__peer")); [reflexivity|]. apply (for_call id id). + exists Serving. split; [vm_compute; by left|reflexivity]. + reflexivity.
  - destruct (requests_reach_their_dialog id id ToLower [] ex_start ex_serving ex_env (ex_req BYE (Some "other")) ex_idle ex_reachable eq_refl) as (dest & _ & Hu & ->).
    rewrite <- (Hu Missing); [reflexivity|]. eapply (for_none id id); [reflexivity| |reflexivity|].
    + intros d (ph & Hin & _). vm_compute in Hin. apply list_elem_of_singleton in Hin as [= -> ->]. discriminate.
    + intros cd H. by apply elem_of_nil in H.
Defined.

Lemma calls_run_their_course_witness : exists ph, ("c1__ours__peer", ph) ∈ calls ex_serving /\ on_course (Some ph) (course "c1__ours__peer" (log (dg ex_serving))).
Proof.
  destruct (calls_run_their_course id id ToLower [] ex_start ex_serving "c1__ours__peer" ex_idle ex_reachable) as [H|[H _]]; [by left|exact H|].
  exfalso. destruct H as [H|H]; vm_compute in H; discriminate.
Defined.

End Example.
End RoutingProps.
