(* ===== verification/DigestAuth.v ===== *)
(** * Digest authentication of calls

    [digest_auth.go]: a server that challenges requests and checks the answers to its
    challenges, which expire. The digest itself, the parsing of credentials and the
    printing of a challenge are those of the digest library; nonces are drawn. *)
From S2P Require Import Prelude.

Module DigestAuth.

Record DigestAuth := { Username : string; Password : string; Realm : string; Expire : Z }.
#[export] Instance eta_auth : Eta DigestAuth := fun a => {| Username := Username a; Password := Password a; Realm := Realm a; Expire := Expire a |}.
Definition expire (a : DigestAuth) : Z := if Expire a >? 0 then Expire a else 5 * Second.

(** [digest.Challenge], [Options] and [Credentials], what is used of them. *)
Record Challenge := { c_Realm : string; Nonce : string; Algorithm : string }.
Record Options := { o_Method : string; o_URI : string; o_Username : string; o_Password : string }.
Record digest_Credentials := { cr_Nonce : string; cr_URI : string; cr_Response : string }.

Section Server.
Context (ParseCredentials : string -> digest_Credentials + error) (Digest : Challenge -> Options -> string + error) (Challenge_String : Challenge -> string).

Record Request := { Method : string; Authorization : option string }.
Record Response := { StatusCode : Z; Reason : string; WWWAuthenticate : option string }.

Definition ErrDigestAuthNoChallenge : error := ErrNew "no challenge".
Definition ErrDigestAuthBadCreds : error := ErrNew "bad credentials".

(** A challenge with the timer that ends it, [None] until it is set; and a clock. *)
Record digestChallengeEntry := { chal : Challenge; expireTimer : option Z }.
Record DigestAuthServer := { cache : gmap string digestChallengeEntry; stopped : list string; now : Z }.
#[export] Instance eta_server : Eta DigestAuthServer := fun s => {| cache := cache s; stopped := stopped s; now := now s |}.

Definition NewDigestServer (t : Z) : DigestAuthServer := {| cache := ∅; stopped := []; now := t |}.

Definition response (code : Z) (reason : string) : Response := {| StatusCode := code; Reason := reason; WWWAuthenticate := None |}.

(** [nonce]: what [generateNonce] comes to. The challenge is in the cache before its
    timer is set. *)
Definition AuthorizeRequest (nonce : string + error) (req : Request) (auth : DigestAuth) (s : DigestAuthServer) : DigestAuthServer * (Response * option error) :=
  match Authorization req with
  | None =>
    match nonce with
    | inr err => (s, (response 500 "Internal Server Error", Some err))
    | inl nonce =>
      let c := {| c_Realm := Realm auth; Nonce := nonce; Algorithm := "MD5" |} in
      (s <| cache := <[nonce := {| chal := c; expireTimer := Some (now s + expire auth) |}]> (cache s) |>,
       ({| StatusCode := 401; Reason := "Unathorized"; WWWAuthenticate := Some (Challenge_String c) |}, None))
    end
  | Some value =>
    match ParseCredentials value with
    | inr err => (s, (response 400 "Bad Request", Some err))
    | inl cred =>
      match cache s !! cr_Nonce cred with
      | None => (s, (response 401 "Unauthorized", Some ErrDigestAuthNoChallenge))
      | Some e =>
        match Digest (chal e) {| o_Method := Method req; o_URI := cr_URI cred; o_Username := Username auth; o_Password := Password auth |} with
        | inr err => (s, (response 403 "Forbidden", Some err))
        | inl digest =>
          if negb (String.eqb (cr_Response cred) digest) then (s, (response 401 "Unauthorized", Some ErrDigestAuthBadCreds))
          else (s, (response 200 "OK", None))
        end
      end
    end
  end.

(** The responses written to the dialog; [sent]: the error of that. *)
Definition AuthorizeDialog (nonce : string + error) (sent : option error) (req : Request) (auth : DigestAuth) (s : DigestAuthServer) : DigestAuthServer * list Response * option error :=
  let auth := if String.eqb (Realm auth) EmptyString then auth <| Realm := "sipgo" |> else auth in
  let '(s, (res, err)) := AuthorizeRequest nonce req auth s in
  match err with
  | None => if negb (StatusCode res =? 200) then (s, [res], Some (match sent with Some e => ErrJoin (ErrNew "not authorized") e | None => ErrNew "not authorized" end)) else (s, [], None)
  | Some err => (s, [], Some err)
  end.

(** A timer ends its challenge, no earlier than it is due, unless it was stopped. *)
Definition fire (nonce : string) (s : DigestAuthServer) : DigestAuthServer := s <| cache := delete nonce (cache s) |>.
Definition Close (s : DigestAuthServer) : DigestAuthServer := s <| stopped := (map_to_list (cache s)).*1 ++ stopped s |>.

(** ** Runs of the server

    What happens: a call is asked to authorize, with the response it got; time passes;
    a timer fires; and the server is closed. *)
Inductive event :=
| Authorized (req : Request) (auth : DigestAuth) (nonce : string + error) (at_ : Z) (res : Response) (err : option error)
| Fired (nonce : string)
| Other.
#[local] Instance auth_eq_dec : EqDecision DigestAuth.
Proof. solve_decision. Defined.
#[local] Instance request_eq_dec : EqDecision Request.
Proof. solve_decision. Defined.
#[local] Instance response_eq_dec : EqDecision Response.
Proof. solve_decision. Defined.
#[export] Instance event_eq_dec : EqDecision event.
Proof. solve_decision. Defined.
Inductive step (s : DigestAuthServer) : DigestAuthServer -> event -> Prop :=
| step_authorize nonce req auth : (forall n, nonce = inl n -> cache s !! n = None) ->
    step s (AuthorizeRequest nonce req auth s).1 (Authorized req auth nonce (now s) (AuthorizeRequest nonce req auth s).2.1 (AuthorizeRequest nonce req auth s).2.2)
| step_time t : now s <= t -> step s (s <| now := t |>) Other
| step_fire nonce e t : cache s !! nonce = Some e -> expireTimer e = Some t -> t <= now s -> nonce ∉ stopped s -> step s (fire nonce s) (Fired nonce)
| step_close : step s (Close s) Other.
Inductive run (t0 : Z) : DigestAuthServer -> list event -> Prop :=
| run_start : run t0 (NewDigestServer t0) []
| run_step s s' l ev : run t0 s l -> step s s' ev -> run t0 s' (l ++ [ev]).

(** ** Whose requests are authorized *)

(** A challenge that a request without credentials got, with when it is due to end;
    and one that no timer has ended since. *)
Definition challenge_of (nonce : string) (auth : DigestAuth) : Challenge := {| c_Realm := Realm auth; Nonce := nonce; Algorithm := "MD5" |}.
Definition issue (ev : event) (nonce : string) (c : Challenge) (due : Z) : Prop :=
  exists req auth t res, ev = Authorized req auth (inl nonce) t res None /\ Authorization req = None /\ c = challenge_of nonce auth /\ due = t + expire auth.
Definition live (l : list event) (nonce : string) (c : Challenge) (due : Z) : Prop :=
  exists l1 ev l2, l = l1 ++ ev :: l2 /\ issue ev nonce c due /\ Fired nonce ∉ l2.

(** What an event does to the challenges that are live. *)
Lemma live_snoc l ev nonce c due : live (l ++ [ev]) nonce c due <-> issue ev nonce c due \/ (live l nonce c due /\ ev <> Fired nonce).
Proof.
  split.
  - intros (l1 & ev' & l2 & E & Hi & Hf). destruct l2 as [|x l2 _] using rev_ind.
    + apply app_inj_tail in E as [-> <-]. by left.
    + right. rewrite app_comm_cons, app_assoc in E. apply app_inj_tail in E as [-> <-]. rewrite elem_of_app in Hf. split; [exists l1, ev', l2; tauto|]. intros ->. apply Hf. right. by left.
  - intros [H|[(l1 & ev' & l2 & -> & Hi & Hf) Hne]]; [exists l, ev, []; split; [done|]; split; [done|apply not_elem_of_nil]|].
    exists l1, ev', (l2 ++ [ev]). split; [by rewrite <- app_assoc|]. split; [done|]. rewrite elem_of_app, list_elem_of_singleton. intros [H|H]; congruence.
Qed.

Lemma AuthorizeRequest_cache nonce req auth s : (AuthorizeRequest nonce req auth s).1 =
  match Authorization req, nonce with
  | None, inl n => s <| cache := <[n := {| chal := challenge_of n auth; expireTimer := Some (now s + expire auth) |}]> (cache s) |>
  | _, _ => s
  end.
Proof.
  unfold AuthorizeRequest. destruct (Authorization req) as [value|]; [|by destruct nonce]. destruct (ParseCredentials value) as [cred|]; [|done].
  destruct (cache s !! _) as [e|]; [|done]. destruct (Digest _ _) as [dg|]; [|done]. by destruct (String.eqb _ _).
Qed.

Record Inv (s : DigestAuthServer) (l : list event) : Prop := {
  inv_cache nonce e : cache s !! nonce = Some e -> exists due, expireTimer e = Some due /\ live l nonce (chal e) due;
  inv_live nonce c due : live l nonce c due -> cache s !! nonce = Some {| chal := c; expireTimer := Some due |};
  inv_due l1 ev l2 nonce c due : l = l1 ++ ev :: l2 -> issue ev nonce c due -> Fired nonce ∈ l2 -> due <= now s }.

(** An event that leaves the cache as it is and ends no challenge. *)
Lemma Inv_other s s' l ev : Inv s l -> cache s' = cache s -> now s <= now s' -> (forall nonce c due, ~ issue ev nonce c due) -> (forall nonce, ev <> Fired nonce) -> Inv s' (l ++ [ev]).
Proof.
  intros [I1 I2 I3] Ec Hn Hi Hf. split.
  - intros nonce e. rewrite Ec. intros H. destruct (I1 nonce e H) as (due & H1 & H2). exists due. split; [done|]. apply live_snoc. right. auto.
  - intros nonce c due [H|[H _]]%live_snoc; [by apply Hi in H|]. rewrite Ec. by apply I2.
  - intros l1 ev' l2 nonce c due E Hiss Hin. destruct l2 as [|x l2 _] using rev_ind; [by apply elem_of_nil in Hin|]. rewrite app_comm_cons, app_assoc in E. apply app_inj_tail in E as [-> <-].
    apply elem_of_app in Hin as [Hin|Hin]; [|apply list_elem_of_singleton in Hin; by destruct (Hf nonce)]. specialize (I3 _ _ _ _ _ _ eq_refl Hiss Hin). lia.
Qed.

Lemma auth_step_Inv s s' l ev : Inv s l -> step s s' ev -> Inv s' (l ++ [ev]).
Proof.
  intros I [nonce req auth Hfresh|t Ht|nonce e t He Ht Hdue Hst|].
  - rewrite AuthorizeRequest_cache. destruct (Authorization req) as [v|] eqn:Ea; [|destruct nonce as [n|err]].
    + eapply Inv_other; [exact I|done|lia| |done]. intros n c due (req' & auth' & t & res & E & H & _). injection E as E _ _ _ _. congruence.
    + assert (forall m c due, issue (Authorized req auth (inl n) (now s) (AuthorizeRequest (inl n) req auth s).2.1 (AuthorizeRequest (inl n) req auth s).2.2) m c due <->
        m = n /\ c = challenge_of n auth /\ due = now s + expire auth) as Hi.
      { intros m c due. unfold AuthorizeRequest. rewrite Ea. cbn. split; [intros (req' & auth' & t & res & E & _ & -> & ->); by injection E as <- <- <- <- <-|]. intros (-> & -> & ->). by repeat eexists. }
      specialize (Hfresh n eq_refl). destruct I as [I1 I2 I3]. split; cbn [cache now field_update].
      * intros m e He. destruct (decide (m = n)) as [->|Hm].
        -- rewrite lookup_insert_eq in He. injection He as <-. eexists. split; [done|]. apply live_snoc. left. by apply Hi.
        -- rewrite lookup_insert_ne in He by done. destruct (I1 m e He) as (due & H1 & H2). exists due. split; [done|]. apply live_snoc. by right.
      * intros m c due [H|[H _]]%live_snoc; [apply Hi in H as (-> & -> & ->); by rewrite lookup_insert_eq|]. apply I2 in H. rewrite lookup_insert_ne; [done|congruence].
      * intros l1 ev' l2 m c due E Hiss Hin. destruct l2 as [|x l2 _] using rev_ind; [by apply elem_of_nil in Hin|]. rewrite app_comm_cons, app_assoc in E. apply app_inj_tail in E as [-> <-].
        apply elem_of_app in Hin as [Hin|Hin]; [by eapply I3|by apply list_elem_of_singleton in Hin].
    + eapply Inv_other; [exact I|done|lia| |done]. by intros n c due (req' & auth' & t & res & [=] & _).
  - eapply Inv_other; [exact I|done|exact Ht| |done]. by intros n c due (req' & auth' & t' & res & [=] & _).
  - destruct I as [I1 I2 I3]. assert (forall m c due, ~ issue (Fired nonce) m c due) as Hi by (by intros m c due (? & ? & ? & ? & [=] & _)). split; cbn [cache now fire field_update].
    + intros m e' He'. apply lookup_delete_Some in He' as [Hm He']. destruct (I1 m e' He') as (due & H1 & H2). exists due. split; [done|]. apply live_snoc. right. split; [done|congruence].
    + intros m c due [H|[H Hm]]%live_snoc; [by apply Hi in H|]. rewrite lookup_delete_ne by congruence. by apply I2.
    + intros l1 ev' l2 m c due E Hiss Hin. destruct l2 as [|x l2 _] using rev_ind; [by apply elem_of_nil in Hin|]. rewrite app_comm_cons, app_assoc in E. apply app_inj_tail in E as [-> <-].
      destruct (decide (Fired m ∈ l2)) as [Hl2|Hl2]; [by eapply I3|]. apply elem_of_app in Hin as [Hin|Hin]; [done|]. apply list_elem_of_singleton in Hin as [= <-].
      assert (live (l1 ++ ev' :: l2) m c due) as Hl by (by exists l1, ev', l2). apply I2 in Hl. rewrite Hl in He. injection He as <-. cbn in Ht. injection Ht as <-. done.
  - eapply Inv_other; [exact I|done|done| |done]. by intros n c due (req' & auth' & t' & res & [=] & _).
Qed.

Lemma run_Inv t0 s l : run t0 s l -> Inv s l.
Proof.
  induction 1 as [|s s' l ev _ IH Hs]; [|by eapply auth_step_Inv]. split.
  - intros nonce e. cbn. by rewrite lookup_empty.
  - by intros nonce c due ([|? ?] & ev & l2 & [=] & _).
  - by intros [|? ?] ev l2 nonce c due [=].
Qed.

Lemma authorized_no_error nonce req auth s : let '(_, (res, err)) := AuthorizeRequest nonce req auth s in StatusCode res = 200 -> err = None.
Proof.
  unfold AuthorizeRequest. destruct (Authorization req) as [value|]; [|by destruct nonce]. destruct (ParseCredentials value); [|done]. destruct (cache s !! _); [|done].
  destruct (Digest _ _); [|done]. by destruct (String.eqb _ _).
Qed.

(** C30. However challenges, answers, timers and [Close] follow each other, a request
    with credentials is authorized exactly when they answer a challenge that this
    server gave, and no timer has ended since, with the digest of it for the password;
    and a challenge that is not due yet has not been ended, so an answer in time is
    accepted. Without credentials a request gets a challenge or an error, never 200. *)
Theorem authorized_iff_answered t0 s l nonce req auth : run t0 s l ->
  let '(_, (res, err)) := AuthorizeRequest nonce req auth s in
  (StatusCode res = 200 <-> exists value cred c due, Authorization req = Some value /\ ParseCredentials value = inl cred /\ live l (cr_Nonce cred) c due /\
    Digest c {| o_Method := Method req; o_URI := cr_URI cred; o_Username := Username auth; o_Password := Password auth |} = inl (cr_Response cred)) /\
  (StatusCode res = 200 -> err = None) /\
  (forall l1 ev l2 n c due, l = l1 ++ ev :: l2 -> issue ev n c due -> now s < due -> live l n c due).
Proof.
  intros Hr. pose proof (run_Inv _ _ _ Hr) as [I1 I2 I3].
  assert (forall l1 ev l2 n c due, l = l1 ++ ev :: l2 -> issue ev n c due -> now s < due -> live l n c due) as Hlive.
  { intros l1 ev l2 n c due E Hi Hd. exists l1, ev, l2. split; [done|]. split; [done|]. intros Hf. specialize (I3 _ _ _ _ _ _ E Hi Hf). lia. }
  destruct (AuthorizeRequest nonce req auth s) as [s' [res err]] eqn:E. split; [|split; [|exact Hlive]].
  - unfold AuthorizeRequest in E. destruct (Authorization req) as [value|].
    2: { destruct nonce; injection E as <- <- <-; cbn; (split; [intros H; discriminate H|]); intros (? & ? & ? & ? & H & _); discriminate H. }
    destruct (ParseCredentials value) as [cred|] eqn:Ep; [|injection E as <- <- <-; split; [done|intros (? & ? & ? & ? & [= <-] & Hp & _); congruence]].
    assert (forall c due, live l (cr_Nonce cred) c due -> cache s !! cr_Nonce cred = Some {| chal := c; expireTimer := Some due |}) as Hl by (intros; by apply I2).
    destruct (cache s !! cr_Nonce cred) as [e|] eqn:Ec.
    2: { injection E as <- <- <-. split; [done|]. intros (? & cred' & c & due & [= <-] & Hp & H & _). rewrite Ep in Hp. injection Hp as <-. by apply Hl in H. }
    destruct (Digest (chal e) _) as [digest|] eqn:Ed.
    2: { injection E as <- <- <-. split; [done|]. intros (? & cred' & c & due & [= <-] & Hp & H & Hd). rewrite Ep in Hp. injection Hp as <-. apply Hl in H. injection H as ->. cbn in Ed. congruence. }
    destruct (String.eqb_spec (cr_Response cred) digest) as [<-|Hne]; injection E as <- <- <-; cbn.
    + split; [|done]. intros _. destruct (I1 _ _ Ec) as (due & _ & H). by exists value, cred, (chal e), due.
    + split; [done|]. intros (? & cred' & c & due & [= <-] & Hp & H & Hd). rewrite Ep in Hp. injection Hp as <-. apply Hl in H. injection H as ->. cbn in Ed. congruence.
  - pose proof (authorized_no_error nonce req auth s) as H. by rewrite E in H.
Qed.

(** A call is let in exactly when its INVITE is authorized; only a challenge is sent,
    and a request whose credentials fail is left without the response made for it. *)
Theorem dialog_authorized nonce sent req auth s : let '(s', writes, err) := AuthorizeDialog nonce sent req auth s in
  exists auth', auth' = (if String.eqb (Realm auth) EmptyString then auth <| Realm := "sipgo" |> else auth) /\
  let '(s2, (res, err2)) := AuthorizeRequest nonce req auth' s in
  s' = s2 /\ (err = None <-> StatusCode res = 200) /\
  writes = match err2 with None => if StatusCode res =? 200 then [] else [res] | Some _ => [] end.
Proof.
  unfold AuthorizeDialog. set (auth' := if String.eqb (Realm auth) EmptyString then _ else _).
  destruct (AuthorizeRequest nonce req auth' s) as [s2 [res err2]] eqn:E.
  pose proof (authorized_no_error nonce req auth' s) as H. rewrite E in H. cbn in H.
  destruct err2 as [e|].
  - exists auth'. rewrite E. split; [done|]. split; [done|]. split; [|done]. split; [done|]. intros Hs. by apply H in Hs.
  - destruct (StatusCode res =? 200) eqn:Hs; cbn [negb]; exists auth'; rewrite E; (split; [done|]); rewrite Hs; (split; [done|]); (split; [|done]); rewrite <- Z.eqb_eq, Hs.
    + done.
    + by destruct sent.
Qed.

End Server.

(** ** A challenge and its answer

    A digest that is the nonce and the password. *)
Definition ex_Parse (v : string) : digest_Credentials + error := inl {| cr_Nonce := "n1"; cr_URI := "sip:us"; cr_Response := v |}.
Definition ex_Digest (c : Challenge) (o : Options) : string + error := inl (Nonce c +:+ ":" +:+ o_Password o).
Definition ex_print (c : Challenge) : string := Nonce c.
Definition ex_auth : DigestAuth := {| Username := "test"; Password := "pw"; Realm := "sipgo"; Expire := 0 |}.
Definition ex_first : Request := {| Method := "INVITE"; Authorization := None |}.
Definition ex_second (answer : string) : Request := {| Method := "INVITE"; Authorization := Some answer |}.
Abbreviation ex_authorize := (AuthorizeRequest ex_Parse ex_Digest ex_print).
Definition ex_challenged : DigestAuthServer := (ex_authorize (inl "n1") ex_first ex_auth (NewDigestServer 0)).1.
Definition ex_challenge : event :=
  Authorized ex_first ex_auth (inl "n1") 0 (ex_authorize (inl "n1") ex_first ex_auth (NewDigestServer 0)).2.1 (ex_authorize (inl "n1") ex_first ex_auth (NewDigestServer 0)).2.2.
Definition ex_later : DigestAuthServer := ex_challenged <| now := 4 * Second |>.

Lemma ex_run : run ex_Parse ex_Digest ex_print 0 ex_later [ex_challenge; Other].
Proof.
  apply (run_step _ _ _ 0 ex_challenged ex_later [ex_challenge] Other).
  - apply (run_step _ _ _ 0 (NewDigestServer 0) ex_challenged [] ex_challenge); [apply run_start|]. by apply step_authorize.
  - apply step_time. vm_compute. congruence.
Qed.

Lemma authorized_iff_answered_witness : (ex_authorize (inl "n2") (ex_second "n1:pw") ex_auth ex_later).2 = ({| StatusCode := 200; Reason := "OK"; WWWAuthenticate := None |}, None) /\
  live [ex_challenge; Other] "n1" (challenge_of "n1" ex_auth) (5 * Second) /\
  (StatusCode (ex_authorize (inl "n2") (ex_second "n1:other") ex_auth ex_later).2.1 = 200 -> "n1:other" = "n1:pw").
Proof.
  split; [reflexivity|]. split.
  - destruct (authorized_iff_answered ex_Parse ex_Digest ex_print 0 ex_later _ (inl "n2") (ex_second "n1:pw") ex_auth ex_run) as (_ & _ & H).
    apply (H [] ex_challenge [Other]); [reflexivity| |vm_compute; reflexivity]. by repeat eexists.
  - intros Hs. destruct (authorized_iff_answered ex_Parse ex_Digest ex_print 0 ex_later _ (inl "n2") (ex_second "n1:other") ex_auth ex_run) as ([H _] & _).
    apply H in Hs as (value & cred & c & due & [= <-] & [= <-] & Hl & Hd). cbn in Hd. destruct (run_Inv _ _ _ _ _ _ ex_run) as [_ I2 _]. apply I2 in Hl.
    vm_compute in Hl. injection Hl as <- _. vm_compute in Hd. discriminate Hd.
Defined.

End DigestAuth.
