(* ===== verification/ReferTarget.v ===== *)
(** * Answering a REFER

    [dialog_session.go] from [dialogHandleRefer] to [dialogReferInvite], with
    [handleRefer] and [readSIPInfoDTMF] of both dialogs: a REFER of the peer's is
    answered, the call it asks for is given to the application, and NOTIFYs report what
    becomes of it. The application, the states the call takes and the answers of the
    peer are given. *)
From S2P Require Import Prelude GoStrings SessionTimer Method Answer Refer.
Import GoStrings SessionTimer Method.

Module ReferTarget.
Open Scope method_scope.
#[local] Existing Instance Answer.dialogState_eq_dec.

Section Target.
(** [sip.HeaderParams.ToString(';')]. *)
Context (ToString : list (string * string) -> string).

Record subState := { sub_state : string; sub_reason : string; expires : Z; retryAfter : Z }.

(** A NOTIFY, what of it is set. *)
Record notifyRequest := { Event : string; SubState : string; ContentType : string; Body : string }.
#[export] Instance notify_eq_dec : EqDecision notifyRequest.
Proof. solve_decision. Defined.
#[export] Instance notify_headers : headerGetter notifyRequest := fun n name =>
  if String.eqb name "Event" then [Event n] else if String.eqb name "Subscription-State" then [SubState n] else [].

(** A status, as [%d] prints it. *)
Definition notify_of (statusCode : Z) (reason : string) (sub : subState) : notifyRequest :=
  {| Event := ToString [("refer", EmptyString)];
     SubState := ToString ([(sub_state sub, EmptyString)] ++
       (if negb (String.eqb (sub_reason sub) EmptyString) then [("reason", sub_reason sub)] else []) ++
       (if retryAfter sub >? 0 then [("retry-after", Itoa (retryAfter sub))] else []) ++
       (if expires sub >? 0 then [("expires", Itoa (expires sub))] else []));
     ContentType := "message/sipfrag;version=2.0";
     Body := "SIP/2.0 " +:+ Itoa statusCode +:+ " " +:+ reason |}.

Inductive out := Respond (code : Z) (reason : string) | Notify (n : notifyRequest) | CloseRefer.
#[export] Instance out_eq_dec : EqDecision out.
Proof. solve_decision. Defined.
Abbreviation method := (M (list out)).
Definition emit (o : out) : method unit := modify (fun l => l ++ [o]).

(** How the application ends: with the response its call got, or otherwise. *)
Inductive appError := ErrDialogResponse (code : Z) (reason : string) | OtherError (e : error).

(** What comes from outside: the state of the dialog and whether it has a handler, the
    headers of the REFER, the error of each response, the call [NewDialog] makes, the
    answer to the [n]th NOTIFY, and the application: the states its call takes until
    it returns, and with which error. *)
Record env := {
  ended : bool; onReferDialog : bool; e_respond : option error;
  ReferTo : option string; ParseAddress_fails : bool; Contact : bool; ReferredBy : option string; Replaces : option string;
  e_NewDialog : option error; e_answer : nat -> Z + error;
  e_states : list Answer.dialogState; e_app : option appError }.

Definition respond (e : env) (code : Z) (reason : string) : method unit := emit (Respond code reason) ;;; check (e_respond e).

(** [respondDialogEnded]: whether it has answered, with the error of that. *)
Definition respondDialogEnded (e : env) : method (option (option error)) :=
  if negb (ended e) then ret None else let! err := try (respond e 481 "Call/Transaction Does Not Exist") in ret (Some err).

Definition readSIPInfoDTMF (e : env) : method unit :=
  let! r := respondDialogEnded e in
  match r with Some err => check err | None => respond e 406 "Not Acceptable" end.

Definition notifies (l : list out) : list notifyRequest := omap (fun o => match o with Notify n => Some n | _ => None end) l.

Definition sendNotify (e : env) (statusCode : Z) (reason : string) (sub : subState) : method unit :=
  let! k := gets (fun l => length (notifies l)) in
  emit (Notify (notify_of statusCode reason sub)) ;;;
  match e_answer e k with
  | inr err => fail err
  | inl code => if negb (code =? 200) then fail (ErrNew ("notifyRequest received non 200 response. code=" +:+ Itoa code)) else ret tt
  end.

Definition trying : subState := {| sub_state := "active"; sub_reason := EmptyString; expires := 60; retryAfter := 0 |}.
Definition final : subState := {| sub_state := "terminated"; sub_reason := "noresource"; expires := 0; retryAfter := 0 |}.

(** The callback on the states of the call, also those it takes later; its errors are
    logged. *)
Definition onState (e : env) (s : Answer.dialogState) : method unit :=
  if bool_decide (s = Answer.Confirmed) || bool_decide (s = Answer.Ended) then let! _ := try (sendNotify e 200 "OK" final) in ret tt else ret tt.
Fixpoint onStates (e : env) (l : list Answer.dialogState) : method unit :=
  match l with [] => ret tt | s :: l => onState e s ;;; onStates e l end.

(** The headers the INVITE takes of the REFER. *)
Definition referHeaders (e : env) : list (string * string) :=
  match ReferredBy e with Some h => [("referred-by", h)] | None => [] end ++ match Replaces e with Some h => [("replaces", h)] | None => [] end.

(** [initial]: the state of a call that has not been established. *)
Definition dialogReferInvite (e : env) : method unit :=
  match e_NewDialog e with
  | Some err => fail err
  | None =>
    defer (fun l => l ++ [CloseRefer])
      (let! err := try (sendNotify e 100 "Trying" trying) in
       match err with
       | Some err => fail (ErrWrap "refer NOTIFY 100 failed to sent" err)
       | None =>
         onStates e (e_states e) ;;;
         match e_app e with
         | None => ret tt
         | Some (ErrDialogResponse code reason) => sendNotify e code reason final
         | Some (OtherError err) =>
           match last (e_states e) with
           | None | Some Answer.Early | Some Answer.Established => sendNotify e 400 "Bad Request" final
           | _ => fail err
           end
         end
       end)
  end.

Definition dialogHandleRefer (e : env) : method unit :=
  match ReferTo e with
  | None => respond e 400 "Bad Request"
  | Some _ =>
    if ParseAddress_fails e then respond e 400 "Bad Request"
    else if negb (Contact e) then respond e 400 "Bad Request"
    else
      let! err := try (respond e 202 "Accepted") in
      match err with
      | Some _ => fail (ErrNew "failed to send 202 Accepted")
      | None => dialogReferInvite e
      end
  end.

(** Its result is not looked at. *)
Definition handleRefer (e : env) : method unit :=
  let! r := respondDialogEnded e in
  match r with
  | Some _ => ret tt
  | None =>
    if negb (onReferDialog e) then let! _ := try (respond e 406 "Not Acceptable") in ret tt
    else let! _ := try (dialogHandleRefer e) in ret tt
  end.

(** ** A NOTIFY is read as it was meant *)

Definition phrase (s : string) : bool :=
  (2 <=? String.length s)%nat && str_forall (fun c => negb (existsb (Ascii.eqb c) ["013"; "010"]%char)) s && String.eqb (trim_left s) s && String.eqb (trim_right s) s.

Lemma until_any_app s t chars : str_forall (fun c => negb (existsb (Ascii.eqb c) chars)) s = true -> until_any (s +:+ t) chars = s +:+ until_any t chars.
Proof. induction s as [|c s IH]; cbn; [done|]. destruct (existsb _ _); [done|]. intros H. by rewrite IH. Qed.

Lemma until_any_all s chars : str_forall (fun c => negb (existsb (Ascii.eqb c) chars)) s = true -> until_any s chars = s.
Proof. intros H. rewrite <- (str_nil_r s) at 1. rewrite until_any_app by done. apply str_nil_r. Qed.

Lemma trim_right_tail s t : t <> EmptyString -> trim_right t = t -> trim_right (s +:+ t) = s +:+ t.
Proof.
  intros Hn Ht. induction s as [|c s IH]; [done|]. cbn. rewrite IH. destruct (s +:+ t) eqn:E; [|done]. destruct s; [|done]. cbn in E. by rewrite E in Hn.
Qed.

Lemma status_digits code : 100 <= code <= 699 -> String.length (Itoa code) = 3%nat /\ str_forall is_digit (Itoa code) = true.
Proof.
  intros H. split; [|rewrite Itoa_nonneg by lia; apply FormatUint_digits; lia].
  assert (forallb (fun k => String.length (Itoa (Z.of_nat k)) =? 3)%nat (seq 100 600) = true) as Hall by (vm_compute; reflexivity).
  rewrite forallb_forall in Hall. specialize (Hall (Z.to_nat code)). rewrite Z2Nat.id in Hall by lia. apply Nat.eqb_eq, Hall, in_seq. lia.
Qed.

Lemma digits_head s t : str_forall is_digit s = true -> s <> EmptyString -> trim_left (s +:+ t) = s +:+ t.
Proof. destruct s as [|c s]; [done|]. cbn. intros [H _]%andb_true_iff _. by rewrite (proj1 (digit_facts c H)). Qed.

Lemma length_app_str (s t : string) : String.length (s +:+ t) = (String.length s + String.length t)%nat.
Proof. induction s as [|c s IH]; cbn; [done|by rewrite IH]. Qed.

Lemma sipfrag_reads_back code reason : 100 <= code <= 699 -> phrase reason = true ->
  Refer.parseSipfragStatus ("SIP/2.0 " +:+ Itoa code +:+ " " +:+ reason) = Some (code, reason).
Proof.
  unfold phrase. intros Hc [[[Hlen Hcr]%andb_true_iff Htl]%andb_true_iff Htr]%andb_true_iff. apply String.eqb_eq in Htl, Htr. apply Nat.leb_le in Hlen.
  assert (reason <> EmptyString) as Hne by (intros ->; cbn in Hlen; lia). destruct (status_digits code Hc) as [Hl Hd]. unfold Refer.parseSipfragStatus.
  assert (str_forall (fun c => negb (existsb (Ascii.eqb c) ["013"; "010"]%char)) ("SIP/2.0 " +:+ Itoa code +:+ " ") = true) as Hfront.
  { rewrite !str_forall_app. cbn [str_forall existsb]. rewrite !andb_true_iff. split; [done|]. split; [|done].
    apply (str_forall_impl is_digit); [|done]. intros c. destruct c as [[] [] [] [] [] [] [] []]; by vm_compute. }
  assert ("SIP/2.0 " +:+ Itoa code +:+ " " +:+ reason = ("SIP/2.0 " +:+ Itoa code +:+ " ") +:+ reason) as E by (rewrite <- !app_assoc_str; done).
  rewrite E, until_any_app, until_any_all by done. rewrite <- E.  rewrite HasPrefix_app. cbn [negb]. unfold TrimPrefix, CutPrefix. rewrite HasPrefix_app. cbn [fst].
  assert (str_drop (String.length "SIP/2.0 ") ("SIP/2.0 " +:+ Itoa code +:+ " " +:+ reason) = Itoa code +:+ " " +:+ reason) as -> by reflexivity.
  assert (Itoa code <> EmptyString) as Hi by (intros H; by rewrite H in Hl). unfold TrimSpace at 1. rewrite digits_head by done.
  assert (trim_right (Itoa code +:+ " " +:+ reason) = Itoa code +:+ " " +:+ reason) as ->.
  { rewrite app_assoc_str. by apply trim_right_tail. }
  change (" " +:+ reason) with (String " " reason). rewrite Cut_app by (by apply digits_not_char). rewrite Atoi_Itoa by lia.
  rewrite (proj2 (Z.ltb_ge _ _)), (proj2 (Z.ltb_ge _ _)) by lia. cbn [orb]. unfold TrimSpace. by rewrite Htl, Htr.
Qed.

Section Read.
(** Parameters are written in order, one without a value as its name. *)
Context (ToString_one : forall k, ToString [(k, EmptyString)] = k)
  (ToString_more : forall k kv l, ToString ((k, EmptyString) :: kv :: l) = k +:+ ";" +:+ ToString (kv :: l)).

Definition read (n : notifyRequest) : option Refer.ReferNotify := Refer.parseReferNotify (fun n => Some (ContentType n)) Body n.

(** What is sent as a NOTIFY, the reader of the other side takes as it is meant: its
    status and phrase, no id, and whether it ends the subscription. *)
Theorem notify_reads_back code reason sub : 100 <= code <= 699 -> phrase reason = true ->
  str_forall (not_char ";") (sub_state sub) = true -> TrimSpace (sub_state sub) = sub_state sub ->
  exists n, read (notify_of code reason sub) = Some n /\ Refer.Status n = code /\ Refer.Reason n = reason /\ Refer.EventID n = None /\
    Refer.endsSubscription n = (200 <=? code) || EqualFold (sub_state sub) "terminated".
Proof.
  intros Hc Hp Hs Ht. unfold read, Refer.parseReferNotify. cbn [ContentType Body notify_of]. change (HasPrefix "message/sipfrag;version=2.0" "message/sipfrag") with true. cbn [negb].
  assert ((String.length ("SIP/2.0 " +:+ Itoa code +:+ " " +:+ reason) <? String.length "SIP/2.0 100 xx")%nat = false) as ->.
  { apply Nat.ltb_ge. rewrite !length_app_str, (proj1 (status_digits code Hc)). unfold phrase in Hp. do 3 apply andb_true_iff in Hp as [Hp _]. apply Nat.leb_le in Hp. cbn. lia. }
  rewrite sipfrag_reads_back by done. eexists. split; [done|]. split; [done|]. split; [done|]. split.
  - cbn [Refer.EventID]. unfold Refer.parseReferNotifyEventID, GetHeader, GetHeaders, notify_headers, notify_of. cbn [Event String.eqb Ascii.eqb Bool.eqb head].
    rewrite ToString_one. vm_compute. reflexivity.
  - unfold Refer.endsSubscription, Refer.isFinal. cbn [Refer.Status Refer.SubscriptionState]. f_equal.
    unfold Refer.parseReferSubscriptionState, GetHeader, GetHeaders, notify_headers, notify_of. cbn [SubState String.eqb Ascii.eqb Bool.eqb head].
    match goal with |- context [ToString ([(sub_state sub, EmptyString)] ++ ?l)] => generalize l end. intros l. unfold Refer.referSubscriptionTerminated.
    destruct l as [|kv l]; cbn [app].
    + rewrite ToString_one, Cut_no by done. cbn [fst]. by rewrite Ht.
    + rewrite ToString_more. change (";" +:+ ToString (kv :: l)) with (String ";" (ToString (kv :: l))). rewrite Cut_app by done. cbn [fst]. by rewrite Ht.
Qed.

End Read.

(** ** What the peer that asked for the transfer is told *)

Definition accepted (e : env) : bool :=
  negb (ended e) && onReferDialog e && bool_decide (ReferTo e <> None) && negb (ParseAddress_fails e) && Contact e.
Definition answer_of (e : env) : out :=
  if ended e then Respond 481 "Call/Transaction Does Not Exist"
  else if negb (onReferDialog e) then Respond 406 "Not Acceptable"
  else if accepted e then Respond 202 "Accepted"
  else Respond 400 "Bad Request".
Definition over (s : Answer.dialogState) : bool := bool_decide (s = Answer.Confirmed) || bool_decide (s = Answer.Ended).
Definition reports (l : list Answer.dialogState) : list out := (fun _ => Notify (notify_of 200 "OK" final)) <$> List.filter over l.
Definition app_report (e : env) : list out :=
  match e_app e with
  | Some (ErrDialogResponse code reason) => [Notify (notify_of code reason final)]
  | Some (OtherError _) => match last (e_states e) with None | Some Answer.Early | Some Answer.Established => [Notify (notify_of 400 "Bad Request" final)] | _ => [] end
  | None => []
  end.
Definition told (e : env) : list out :=
  if accepted e && bool_decide (e_respond e = None) && bool_decide (e_NewDialog e = None) then
    Notify (notify_of 100 "Trying" trying) :: (if bool_decide (e_answer e 0%nat = inl 200) then reports (e_states e) ++ app_report e else []) ++ [CloseRefer]
  else [].

Lemma sendNotify_log e code reason sub l : (sendNotify e code reason sub l).1 = l ++ [Notify (notify_of code reason sub)] /\
  ((sendNotify e code reason sub l).2 = Return tt \/ exists err, (sendNotify e code reason sub l).2 = Fail err).
Proof.
  unfold sendNotify, gets, emit, modify, bind. cbn. destruct (e_answer e _) as [c|err]; [|eauto]. destruct (c =? 200); cbn; eauto.
Qed.

Lemma onStates_run e states l : onStates e states l = (l ++ reports states, Return tt).
Proof.
  revert l. induction states as [|s states IH]; intros l; cbn [onStates]; [by rewrite app_nil_r|].
  assert (onState e s l = (l ++ (if over s then [Notify (notify_of 200 "OK" final)] else []), Return tt)) as Hs.
  { unfold onState. fold (over s). destruct (over s); [|by rewrite app_nil_r]. destruct (sendNotify_log e 200 "OK" final l) as [H1 H2].
    unfold bind, try. destruct (sendNotify e 200 "OK" final l) as [l' r]. cbn in H1, H2. subst l'. by destruct H2 as [->|[err ->]]. }
  unfold bind at 1. rewrite Hs, IH. unfold reports. cbn. by destruct (over s); cbn; rewrite <- app_assoc.
Qed.

(** A method that returns or fails, having appended [k]. *)
Definition appends {A} (m : method A) (l k : list out) : Prop := (m l).1 = l ++ k /\ match (m l).2 with Return _ | Fail _ => True | _ => False end.

Lemma appends_try m l k : appends m l k -> exists r, try m l = (l ++ k, Return r).
Proof. unfold appends, try. destruct (m l) as [l' []]; cbn; intros [-> H]; by eauto. Qed.

Lemma respond_appends e code reason l : appends (respond e code reason) l [Respond code reason].
Proof. unfold appends, respond, emit, modify, bind, check. cbn. by destruct (e_respond e). Qed.

Lemma sendNotify_appends e code reason sub l : appends (sendNotify e code reason sub) l [Notify (notify_of code reason sub)].
Proof. destruct (sendNotify_log e code reason sub l) as [H1 [H2|[err H2]]]; split; [done|by rewrite H2|done|by rewrite H2]. Qed.

Lemma appends_bind {A B} (m : method A) (f : A -> method B) l k k' a : m l = (l ++ k, Return a) -> appends (f a) (l ++ k) k' -> appends (bind m f) l (k ++ k').
Proof. unfold appends, bind. intros ->. by rewrite app_assoc. Qed.

Lemma appends_defer {A} (m : method A) o l k : appends m l k -> appends (defer (fun l => l ++ [o]) m) l (k ++ [o]).
Proof. unfold appends, defer. destruct (m l) as [l' []]; cbn; intros [-> H]; by rewrite ?app_assoc. Qed.

Lemma appends_ret {A} (r : res A) l : match r with Return _ | Fail _ => True | _ => False end -> appends (fun l => (l, r)) l [].
Proof. intros H. split; cbn; [by rewrite app_nil_r|done]. Qed.

Lemma trying_run e l : notifies l = [] -> try (sendNotify e 100 "Trying" trying) l =
  (l ++ [Notify (notify_of 100 "Trying" trying)], Return (match e_answer e 0%nat with
    | inl code => if code =? 200 then None else Some (ErrNew ("notifyRequest received non 200 response. code=" +:+ Itoa code)) | inr err => Some err end)).
Proof.
  intros Hl. unfold try, sendNotify, gets, emit, modify, bind. cbn. rewrite Hl. cbn. destruct (e_answer e 0%nat) as [c|]; [|done]. by destruct (c =? 200).
Qed.

Lemma dialogReferInvite_appends e l : e_NewDialog e = None -> notifies l = [] ->
  appends (dialogReferInvite e) l (Notify (notify_of 100 "Trying" trying) :: (if bool_decide (e_answer e 0%nat = inl 200) then reports (e_states e) ++ app_report e else []) ++ [CloseRefer]).
Proof.
  intros Hd Hl. unfold dialogReferInvite. rewrite Hd, app_comm_cons. apply appends_defer.
  eapply (appends_bind _ _ _ [_]); [by apply trying_run|]. cbv beta. destruct (e_answer e 0%nat) as [c|err]; [|rewrite bool_decide_false by done; by apply appends_ret].
  destruct (Z.eqb_spec c 200) as [->|Hc]; [|rewrite bool_decide_false by congruence; by apply appends_ret].
  rewrite bool_decide_true by done. eapply appends_bind; [apply onStates_run|]. cbv beta. unfold app_report.
  destruct (e_app e) as [[code reason|err]|]; [apply sendNotify_appends| |by apply appends_ret].
  destruct (last (e_states e)) as [[| | |]|]; try apply sendNotify_appends; by apply appends_ret.
Qed.

(** A REFER is answered once, before anything is reported; one that is accepted is
    reported on: a trying NOTIFY, one for each time the call is confirmed or ended, and
    one for how the application failed; and its call is closed. *)
Lemma handleRefer_run e : (handleRefer e []).1 = answer_of e :: told e.
Proof.
  unfold handleRefer, respondDialogEnded, answer_of, told, accepted. destruct (ended e); cbn [negb andb].
  { destruct (appends_try _ _ _ (respond_appends e 481 "Call/Transaction Does Not Exist" [])) as [r E]. unfold bind. by rewrite E. }
  unfold bind at 1, ret at 1. cbv beta iota. destruct (onReferDialog e); cbn [negb andb].
  2: { destruct (appends_try _ _ _ (respond_appends e 406 "Not Acceptable" [])) as [r E]. unfold bind. by rewrite E. }
  assert (forall k, appends (dialogHandleRefer e) [] k -> (bind (try (dialogHandleRefer e)) (fun _ => ret tt) []).1 = k) as Ht.
  { intros k H. destruct (appends_try _ _ _ H) as [r E]. unfold bind. by rewrite E. }
  apply Ht. clear Ht. unfold dialogHandleRefer. destruct (ReferTo e) as [h|]; [|apply respond_appends]. rewrite bool_decide_true by done.
  destruct (ParseAddress_fails e); [apply respond_appends|]. destruct (Contact e); [|apply respond_appends]. cbn [negb andb].
  assert (try (respond e 202 "Accepted") [] = ([Respond 202 "Accepted"], Return (e_respond e))) as E.
  { unfold try, respond, emit, modify, bind, check. by destruct (e_respond e). }
  eapply (appends_bind _ _ [] [_]); [exact E|]. cbv beta. destruct (e_respond e); [by apply appends_ret|].
  destruct (e_NewDialog e) eqn:Ed; [unfold dialogReferInvite; rewrite Ed; by apply appends_ret|]. by apply dialogReferInvite_appends.
Qed.

(** What comes of a call that is confirmed once and that the application keeps until it
    returns, or that fails before it is confirmed. *)
Definition transferred (e : env) : option (Z * string) :=
  match List.filter over (e_states e), e_app e with
  | [Answer.Confirmed], None => Some (200, "OK")
  | [], Some (ErrDialogResponse code reason) => Some (code, reason)
  | [], Some (OtherError _) => Some (400, "Bad Request")
  | _, _ => None
  end.

Lemma not_over l : List.filter over l = [] -> match last l with None | Some Answer.Early | Some Answer.Established => True | _ => False end.
Proof.
  destruct l as [|s l _] using rev_ind; [done|]. rewrite List.filter_app, last_snoc. intros [_ H]%app_eq_nil. by destruct s.
Qed.

Lemma told_transferred e code reason : accepted e = true -> e_respond e = None -> e_NewDialog e = None -> e_answer e 0%nat = inl 200 -> transferred e = Some (code, reason) ->
  told e = [Notify (notify_of 100 "Trying" trying); Notify (notify_of code reason final); CloseRefer].
Proof.
  intros H1 H2 H3 H4 H5. unfold told. rewrite H1, !bool_decide_true by done. cbn [andb]. f_equal. unfold transferred, reports, app_report in *.
  pose proof (not_over (e_states e)) as Hl. destruct (List.filter over (e_states e)) as [|[| | |] [|]]; destruct (e_app e) as [[c r|err]|]; try discriminate H5; try (by injection H5 as <- <-).
  injection H5 as <- <-. specialize (Hl eq_refl). by destruct (last (e_states e)) as [[| | |]|].
Qed.


End Target.

(** ** A blind transfer *)

Fixpoint ex_ToString (l : list (string * string)) : string :=
  match l with
  | [] => EmptyString
  | (k, v) :: l => (if String.eqb v EmptyString then k else k +:+ "=" +:+ v) +:+ match l with [] => EmptyString | _ => ";" +:+ ex_ToString l end
  end.
Definition ex_env (states : list Answer.dialogState) (app : option appError) : env :=
  {| ended := false; onReferDialog := true; e_respond := None; ReferTo := Some "sip:target"; ParseAddress_fails := false; Contact := true; ReferredBy := None; Replaces := None;
     e_NewDialog := None; e_answer _ := inl 200; e_states := states; e_app := app |}.


(** A call that is answered and hung up before it is confirmed is reported as
    successful, and one that is confirmed and ends is reported twice. *)
Example unconfirmed_reported_ok : told ex_ToString (ex_env [Answer.Established; Answer.Ended] None) =
  [Notify (notify_of ex_ToString 100 "Trying" trying); Notify (notify_of ex_ToString 200 "OK" final); CloseRefer].
Proof. reflexivity. Qed.
Example ended_reported_twice : told ex_ToString (ex_env [Answer.Established; Answer.Confirmed; Answer.Ended] None) =
  [Notify (notify_of ex_ToString 100 "Trying" trying); Notify (notify_of ex_ToString 200 "OK" final); Notify (notify_of ex_ToString 200 "OK" final); CloseRefer].
Proof. reflexivity. Qed.

End ReferTarget.
