(* ===== verification/Registering.v ===== *)
(** * The first REGISTER, and the last

    [newRegisterTransaction], [register] and [Unregister] of [register_transaction.go]
    and [Diago.Register] of [diago.go], over the refreshing of [Register]: the contact
    a registration is made with, its correction behind a NAT, and its removal. The
    SIP client and its transactions are arguments; of a request the model has the
    headers this code sets. *)
From S2P Require Import Prelude GoStrings Float64 NetIP Register.
Import GoStrings Register.

Module Registering.

(** ** Requests *)

Record address := { Host : string; Port : Z }.
Inductive contact := ContactHeader (a : address) | ContactRaw (v : string).

Record request := {
  Contact : contact;
  Expires : option Z;
  Allow : option string;
  Destination : string;
  (** Set while it has the Via of a request that was sent. *)
  Via : bool }.
#[export] Instance eta_request : Eta request := fun r =>
  {| Contact := Contact r; Expires := Expires r; Allow := Allow r; Destination := Destination r; Via := Via r |}.

Record RegisterOptions := { o_ProxyHost : string; o_Expiry : Z; o_RetryInterval : Z; o_AllowHeaders : option (list string) }.

Record transaction := { reg : RegisterTransaction; Origin : request }.
#[export] Instance eta_transaction : Eta transaction := fun t => {| reg := reg t; Origin := Origin t |}.

Definition newRegisterTransaction (c : address) (opts : RegisterOptions) : transaction :=
  let req := {| Contact := ContactHeader c; Expires := None; Allow := None; Destination := ""; Via := false |} in
  let req := if negb (String.eqb (o_ProxyHost opts) "") then req <| Destination := o_ProxyHost opts |> else req in
  let req := if 0 <? o_Expiry opts then req <| Expires := Some (u32 (Float64.to_Z (Float64.Seconds (o_Expiry opts)))) |> else req in
  let req := match o_AllowHeaders opts with Some l => req <| Allow := Some (String.concat ", " l) |> | None => req end in
  {| reg := Register.newRegisterTransaction (o_Expiry opts) (o_RetryInterval opts); Origin := req |}.

(** ** Answers *)

(** The parameters of the topmost Via, empty when absent. *)
Record via := { rport : string; received : string }.
Record answer := { res : response; a_via : option via }.

(** What the transaction of [register] delivers. *)
Inductive tx_event := Response (a : answer) | Done (e : option error) | Ended (e : error).

Record register_env := {
  (** [NewClientTransaction], the local address of its connection, [Init]. *)
  e_tx : option error;
  e_local : address + error;
  e_init : option error;
  e_events : list tx_event;
  (** [client.Do], [client.DoDigestAuth]. *)
  e_do : answer + error;
  e_auth : response + error;
  e_now : Z }.

(** The loop over the transaction; [None] while it waits, [inr None] for no response
    and no error. *)
Fixpoint await (l : list tx_event) : option (answer + option error) :=
  match l with
  | [] => None
  | Response a :: l => if (100 <=? StatusCode (res a)) && (StatusCode (res a) <? 200) then await l else Some (inl a)
  | Done e :: _ => Some (inr e)
  | Ended e :: _ => Some (inr (Some e))
  end.

Definition is_IP (host : string) : bool := bool_decide (is_Some (NetIP.ParseIP host)).

(** The request after the first stretch, whether it was sent, and what came. *)
Definition first_request (e : register_env) (c : address) (req : request) : option (request * bool * (answer + option error)) :=
  let req := req <| Via := true |> in
  if (Port c =? 0) && is_IP (Host c) then
    match e_tx e with
    | Some err => Some (req, false, inr (Some err))
    | None =>
      match e_local e with
      | inr err => Some (req, false, inr (Some err))
      | inl local =>
        let req := req <| Contact := ContactHeader local |> in
        match e_init e with
        | Some err => Some (req, false, inr (Some err))
        | None => (fun r => (req, true, r)) <$> await (e_events e)
        end
      end
    end
  else Some (req, true, match e_do e with inl a => inl a | inr err => inr (Some err) end).

(** The contact with what the Via tells of a NAT (RFC 3581). *)
Definition nat_contact (v : via) (c : address) : option address :=
  if String.eqb (rport v) "" then None
  else Some {| Port := match Atoi (rport v) with (p, None) => p | (_, Some _) => Port c end;
               Host := if String.eqb (received v) "" then Host c else received v |}.

Definition nat_rewrite (v : via) (c : address) (req : request) : request :=
  match nat_contact v c with Some c => req <| Contact := ContactHeader c |> | None => req end.

(** [NoAddress]: the contact is no address, as after [Unregister]; what sipgo reads
    then is left open. *)
Inductive outcome :=
| NoAddress
| Waiting
| Panicked
| Returned (t : transaction) (sent : list request) (err : option reg_error).

(** [sent]: the requests as they were when they were sent. *)
Definition register (e : register_env) (t : transaction) : outcome :=
  match Contact (Origin t) with
  | ContactRaw _ => NoAddress
  | ContactHeader c =>
    match first_request e c (Origin t) with
    | None => Waiting
    | Some (req, was_sent, r) =>
      let t := t <| Origin := req |> in
      let sent := if was_sent then [req] else [] in
      match r with
      | inr None => Panicked
      | inr (Some err) => Returned t sent (Some (Failed (ErrWrap "fail to create transaction" err)))
      | inl a =>
        match a_via a with
        | None => Returned t sent (Some (Failed (ErrNew "no Via header in response")))
        | Some v =>
          let req := nat_rewrite v c req in
          let t := t <| Origin := req |> in
          let settle (r : response) sent :=
            if negb (StatusCode r =? 200) then Returned t sent (Some (RegisterResponseError r))
            else Returned (t <| reg := recordGrant (grantedExpiry r (opts_Expiry (reg t))) (e_now e) (reg t) |>) sent None in
          if isDigestChallenge (res a) then
            match e_auth e with
            | inr err => Returned t (sent ++ [req]) (Some (Failed (ErrWrap "fail to get response" err)))
            | inl r => settle r (sent ++ [req])
            end
          else settle (res a) sent
        end
      end
    end
  end.

(** [Register]: and how often [OnRegistered] is called. *)
Definition Register_ (e : register_env) (t : transaction) : outcome * nat :=
  match register e t with
  | Returned t sent None => (Returned t sent None, 1%nat)
  | o => (o, 0%nat)
  end.

(** ** Unregistering *)

(** The request a refresh or [Unregister] sends, twice after a challenge. *)
Definition sent_by (do_ : response + error) (req : request) : list request :=
  match do_ with
  | inl r => if isDigestChallenge r then [req; req] else [req]
  | inr _ => [req]
  end.

Definition Unregister (do_ auth : response + error) (t : transaction) : transaction * list request * option reg_error :=
  let req := Origin t <| Expires := None |> <| Contact := ContactRaw "*" |> <| Expires := Some 0 |> in
  let req := req <| Via := false |> in
  (t <| Origin := req <| Via := true |> |>, sent_by do_ req, match doRequest do_ auth with inl _ => None | inr e => Some e end).

(** ** Diago.Register *)

(** The requests the refresh loop sends for the turns it takes. *)
Definition refresh_sent (turns : list attempt) (req : request) : list request := flat_map (fun a => sent_by (a_do a) (req <| Via := false |>)) turns.

(** The loop over [QualifyLoop], each round with the turns of its refresh loop; the
    requests sent, and how it ends, [None] while it goes on. *)
Fixpoint qualify_rounds (rounds : list (list attempt)) (t : transaction) : transaction * list request * option loop_end :=
  match rounds with
  | [] => (t, [], None)
  | turns :: rounds =>
    let '(waits, r, e) := QualifyLoop turns (reg t) in
    (** A wait that is not cut short is followed by a refresh. *)
    let asked := match e with Some Cancelled => filter (fun a => a_cancelled a = false) (take (length waits) turns) | _ => take (length waits) turns end in
    let t := t <| reg := r |> in
    let sent := refresh_sent asked (Origin t) in
    match e with
    | None => (t, sent, None)
    | Some e =>
      match afterQualify e r with
      | None => (t, sent, Some e)
      | Some r => let '(t, sent', e) := qualify_rounds rounds (t <| reg := r |>) in (t, sent ++ sent', e)
      end
    end
  end.

Inductive registration :=
| NotRegistered (o : outcome)
| Refreshing (t : transaction) (sent : list request)
| Ended_ (t : transaction) (sent : list request) (e : loop_end).

Definition Diago_Register (e : register_env) (rounds : list (list attempt)) (do_ auth : response + error) (c : address) (opts : RegisterOptions) : registration :=
  match (Register_ e (newRegisterTransaction c opts)).1 with
  | Returned t sent None =>
    match qualify_rounds rounds t with
    | (t, sent', None) => Refreshing t (sent ++ sent')
    | (t, sent', Some l) => let '(t, last, _) := Unregister do_ auth t in Ended_ t (sent ++ sent' ++ last) l
    end
  | o => NotRegistered o
  end.

End Registering.

(** * Registering: theorems

    What a registration tells the registrar from its first request to its last, and
    what is recorded of the binding. *)
Import GoStrings Register Registering.

Module RegisteringProps.

(** ** The first request *)

(** The contact the first request has: that of the options, or the local address of
    the connection when they have an IP without a port. *)
Definition own_contact (e : register_env) (c : address) : address :=
  if (Port c =? 0) && is_IP (Host c) then match e_local e with inl local => local | inr _ => c end else c.
(** The final answer to it. *)
Definition first_answer (e : register_env) (c : address) : option answer :=
  match if (Port c =? 0) && is_IP (Host c) then await (e_events e) else Some match e_do e with inl a => inl a | inr err => inr (Some err) end with
  | Some (inl a) => Some a
  | _ => None
  end.

Lemma first_request_answered e c req req' sent a : first_request e c req = Some (req', sent, inl a) -> Contact req = ContactHeader c ->
  first_answer e c = Some a /\ sent = true /\ req' = req <| Contact := ContactHeader (own_contact e c) |> <| Via := true |>.
Proof.
  unfold first_request, first_answer, own_contact. intros H Hc. destruct req as [co ex al de vi]. cbn in Hc. subst co. destruct (_ && _).
  - destruct (e_tx e); [done|]. destruct (e_local e); [|done]. destruct (e_init e); [done|]. destruct (await _) as [r|]; [|done]. cbn in H. by injection H as <- <- ->.
  - destruct (e_do e); [|done]. by injection H as <- <- ->.
Qed.

(** What registering successfully has done: [c'] is the contact it left for the
    refreshes, what the answer to the first request told of a NAT put in. *)
Definition registered (e : register_env) (c : address) (t t' : transaction) (sent : list request) (c' : address) : Prop :=
  exists a v r, first_answer e c = Some a /\ a_via a = Some v /\ StatusCode r = 200 /\
    c' = default (own_contact e c) (nat_contact v c) /\
    (let req c := Origin t <| Contact := ContactHeader c |> <| Via := true |> in
     if isDigestChallenge (res a) then sent = [req (own_contact e c); req c'] /\ e_auth e = inl r
     else sent = [req (own_contact e c)] /\ res a = r) /\
    t' = {| reg := recordGrant (grantedExpiry r (opts_Expiry (reg t))) (e_now e) (reg t);
            Origin := Origin t <| Contact := ContactHeader c' |> <| Via := true |> |}.

(** The final response a failure has, as the client got it. *)
Definition final_response (e : register_env) (c : address) : option response :=
  a ← first_answer e c; if isDigestChallenge (res a) then match e_auth e with inl r => Some r | inr _ => None end else Some (res a).

Lemma register_spec e t c : Contact (Origin t) = ContactHeader c ->
  match register e t with
  | Returned t' sent None => exists c', registered e c t t' sent c'
  | Returned t' sent (Some err) => reg t' = reg t /\ (forall r, err = RegisterResponseError r -> final_response e c = Some r /\ StatusCode r <> 200)
  | _ => True
  end.
Proof.
  intros Hc. unfold register. rewrite Hc. destruct (first_request e c (Origin t)) as [[[req sent] [a|[err|]]]|] eqn:Ef; [|by split|done..].
  destruct (first_request_answered e c _ _ _ _ Ef Hc) as (Ha & -> & ->). destruct t as [rt [co ex al de vi]]. cbn in Hc. subst co.
  destruct (a_via a) as [v|] eqn:Ev; [|by split].
  set (req := nat_rewrite _ _ _).
  assert (req = {| Contact := ContactHeader (default (own_contact e c) (nat_contact v c)); Expires := ex; Allow := al; Destination := de; Via := true |}) as Hreq by (subst req; unfold nat_rewrite; by destruct (nat_contact v c)).
  clearbody req. subst req. unfold final_response. rewrite Ha. cbn [mbind option_bind]. destruct (isDigestChallenge (res a)) eqn:Ed.
  - destruct (e_auth e) as [r|err] eqn:Ea; [|by split]. destruct (Z.eqb_spec (StatusCode r) 200) as [Hs|Hs]; cbn [negb].
    + eexists. exists a, v, r. rewrite Ed. by repeat (split; [done|]).
    + split; [done|]. intros r' [= <-]. done.
  - destruct (Z.eqb_spec (StatusCode (res a)) 200) as [Hs|Hs]; cbn [negb].
    + eexists. exists a, v, (res a). rewrite Ed. by repeat (split; [done|]).
    + split; [done|]. intros r' [= <-]. done.
Qed.

(** ** Refreshes *)

Lemma qualify_rounds_sent rounds t t' sent e : qualify_rounds rounds t = (t', sent, e) ->
  Origin t' = Origin t /\ Forall (fun r => r = Origin t <| Via := false |>) sent /\
  (forall l, e = Some l -> l = Cancelled \/ exists r, l = GaveUp (RegisterResponseError r)).
Proof.
  assert (forall l req, Forall (fun r => r = req <| Via := false |>) (refresh_sent l req)) as HF.
  { intros l req. unfold refresh_sent. induction l as [|a l IH]; cbn [flat_map]; [constructor|]. apply Forall_app. split; [|exact IH].
    unfold sent_by. destruct (a_do a) as [r|]; [destruct (isDigestChallenge r)|]; repeat constructor. }
  revert t t' sent e. induction rounds as [|turns rounds IH]; intros t t' sent e; cbn [qualify_rounds]; [intros [= <- <- <-]; by split|].
  destruct (QualifyLoop turns (reg t)) as [[waits r] [l|]].
  - destruct (afterQualify l r) as [r'|] eqn:Eaf.
    + destruct (qualify_rounds rounds _) as [[t1 s1] e1] eqn:E1. intros [= <- <- <-]. destruct (IH _ _ _ _ E1) as (H1 & H2 & H3). cbn in H1, H2.
      split; [done|]. split; [|done]. apply Forall_app. split; [apply HF|exact H2].
    + intros [= <- <- <-]. split; [done|]. split; [apply HF|]. intros l' [= <-]. destruct l as [|[e|res]]; [by left|done|]. right. by exists res.
  - intros [= <- <- <-]. split; [done|]. split; [apply HF|done].
Qed.

(** C38. The life of a registration. It is made with the contact of the first request, the
    one a NAT was seen to have put in its place once the registrar's first answer is
    there. All requests from then on have that one, also those that refresh it, until
    the last, which asks to remove the binding: a [Register] that returns after it
    had registered has always asked so, and for nothing after. One that never
    registered has not asked, and has recorded no grant. *)
Theorem registration_life e rounds do_ auth c opts :
  let t0 := newRegisterTransaction c opts in
  let req a := Origin t0 <| Contact := ContactHeader a |> in
  let life sent := exists t1 first refreshes c', registered e c t0 t1 first c' /\
    sent = first ++ refreshes /\ Forall (fun r => r = req c' <| Via := false |>) refreshes in
  match Diago_Register e rounds do_ auth c opts with
  | Ended_ t sent l => exists before last, sent = before ++ last /\ last <> [] /\ life before /\
      Forall (fun r => Contact r = ContactRaw "*" /\ Expires r = Some 0) last /\
      (l = Cancelled \/ exists r, l = GaveUp (RegisterResponseError r))
  | Refreshing t sent => life sent
  | NotRegistered (Returned t sent err) => err <> None /\ lastRegistered (reg t) = time_zero
  | NotRegistered _ => True
  end.
Proof.
  intros t0 req life. assert (Contact (Origin t0) = ContactHeader c) as Hc by (unfold t0, newRegisterTransaction; by repeat case_match).
  unfold Diago_Register, Register_. fold t0. pose proof (register_spec e t0 c Hc) as HR.
  destruct (register e t0) as [| | |t1 first [err|]]; cbn [fst]; try done.
  { destruct HR as [HR _]. split; [done|]. rewrite HR. unfold t0, newRegisterTransaction. by repeat case_match. }
  destruct HR as [c' R]. destruct (qualify_rounds rounds t1) as [[t2 sent] el] eqn:Eq. destruct (qualify_rounds_sent _ _ _ _ _ Eq) as (H1 & H2 & H3).
  assert (Forall (fun r => r = req c' <| Via := false |>) sent) as HS.
  { eapply Forall_impl; [exact H2|]. intros r ->. destruct R as (? & ? & ? & _ & _ & _ & _ & _ & ->). done. }
  destruct el as [l|].
  - unfold Unregister. exists (first ++ sent), (sent_by do_ (Origin t2 <| Expires := None |> <| Contact := ContactRaw "*" |> <| Expires := Some 0 |> <| Via := false |>)).
    split; [by rewrite <- app_assoc|]. split; [unfold sent_by; by repeat case_match|]. split; [|split; [|by apply H3]].
    + by exists t1, first, sent, c'.
    + unfold sent_by. repeat case_match; repeat constructor.
  - by exists t1, first, sent, c'.
Qed.

(** ** Behind a NAT

    The registrar's answers tell of a NAT: one challenges first, the other does not. *)
Definition ex_response (code : Z) : response :=
  {| StatusCode := code; contactExpires := None;
     header := fun h => if (code =? 401) && String.eqb h "WWW-Authenticate" then Some "Digest"%string else if String.eqb h "Expires" then Some "60"%string else None |}.
Definition ex_via : via := {| rport := "40001"; received := "203.0.113.9" |}.
Definition ex_env (first : Z) : register_env :=
  {| e_tx := None; e_local := inl {| Host := "192.168.1.5"; Port := 5060 |}; e_init := None;
     e_events := [Response {| res := ex_response 100; a_via := Some ex_via |}; Response {| res := ex_response first; a_via := Some ex_via |}];
     e_do := inr io_EOF; e_auth := inl (ex_response 200); e_now := 10 * Second |}.
Definition ex_opts : RegisterOptions := {| o_ProxyHost := ""; o_Expiry := 3600 * Second; o_RetryInterval := 0; o_AllowHeaders := None |}.
Definition ex_own : address := {| Host := "192.168.1.5"; Port := 0 |}.
Definition ex_rounds : list (list attempt) :=
  [[{| a_cancelled := false; a_do := inl (ex_response 200); a_auth := inl (ex_response 200); a_now := 55 * Second; a_ended := false |};
    {| a_cancelled := true; a_do := inr io_EOF; a_auth := inr io_EOF; a_now := 60 * Second; a_ended := false |}]].
Definition contacts (r : registration) : list contact := match r with Ended_ _ sent _ => Contact <$> sent | _ => [] end.

(** With a challenge the binding is made at the address the NAT gave; without, it is
    made at the private one and stays there until the first refresh. *)
Lemma nat_seen_in_time :
  let public := ContactHeader {| Host := "203.0.113.9"; Port := 40001 |} in
  let private := ContactHeader {| Host := "192.168.1.5"; Port := 5060 |} in
  contacts (Diago_Register (ex_env 401) ex_rounds (inl (ex_response 200)) (inr io_EOF) ex_own ex_opts) = [private; public; public; ContactRaw "*"] /\
  contacts (Diago_Register (ex_env 200) ex_rounds (inl (ex_response 200)) (inr io_EOF) ex_own ex_opts) = [private; public; ContactRaw "*"].
Proof. split; vm_compute; reflexivity. Qed.

End RegisteringProps.
