(* ===== verification/Playback.v ===== *)
(** * Playing audio on a call

    [playback.go], [playback_control.go] and [playback_url.go], with [WriteAll] of
    [media/rtp_utils.go]: bodies of audio coded frame by frame into a writer, the
    control that mutes or stops it, and bodies fetched over HTTP by ranges. What a body
    gives a reader, the parser of WAV files and the HTTP server are arguments. *)
From S2P Require Import Prelude GoStrings Codec Pcm TwoParty TwoPartyProps PcmCoding.
Import GoStrings Codecs.

Module Playback.

Definition PlaybackBufferSize : Z := 3840.

Record AudioPlayback (W : Type) := {
  codec : Codec;
  onPlay : option (W -> W);
  BitDepth : Z;
  NumChannels : Z;
  totalWritten : Z }.
Arguments codec {W} _.
Arguments onPlay {W} _.
Arguments BitDepth {W} _.
Arguments NumChannels {W} _.
Arguments totalWritten {W} _.
#[export] Instance eta_playback {W} : Eta (AudioPlayback W) := fun p =>
  {| codec := codec p; onPlay := onPlay p; BitDepth := BitDepth p; NumChannels := NumChannels p; totalWritten := totalWritten p |}.

Definition NewAudioPlayback {W} (c : Codec) : AudioPlayback W :=
  {| codec := c; onPlay := None; BitDepth := 16; NumChannels := Codecs.NumChannels c; totalWritten := 0 |}.

Definition calcPlayoutSize {W} (p : AudioPlayback W) : Z :=
  let sampleDurMS := Z.quot (SampleDur (codec p)) Millisecond in
  i64 (Z.quot (i64 (i64 (Z.quot (BitDepth p) 8 * NumChannels p) * SampleRate (codec p))) 1000 * sampleDurMS).

(** What a body gives to reads into a buffer of a size. *)
Definition body : Type := nat -> list (bytes * option error).

Record wav_header := { BitsPerSample : Z; wavSampleRate : Z; wavNumChannels : Z }.

(** How playing ends: a slice out of range, the body still to give more, or the bytes
    written and an error. *)
Inductive run (W : Type) := Panics | Waits (w : W) | Ends (w : W) (written : Z) (err : option error).
Arguments Panics {W}.
Arguments Waits {W} _.
Arguments Ends {W} _ _ _.

(** ** Playing *)

Section Playing.
Context (EncodeUlawFrame EncodeAlawFrame : Z -> Z).
Context {W : Type} (Write : W -> bytes -> W * Z * option error).

(** [PCMEncoderWriter.Write]. *)
Definition EncoderWriter_Write (EncoderTo : PcmCoding.coder) (w : W) (lpcm : bytes) : W * Z * option error :=
  match EncoderTo PcmCoding.RTPBufSize lpcm with
  | inr e => (w, 0, Some e)
  | inl encoded =>
    match Write w encoded with
    | (w, nn, Some e) => (w, nn, Some e)
    | (w, nn, None) => if nn =? len encoded then (w, len lpcm, None) else (w, 0, Some io_ErrShortWrite)
    end
  end.

(** The copy through the buffer of [payloadSize] bytes of the pool's. *)
Definition copy (wr : W -> bytes -> W * Z * option error) (payloadSize : Z) (b : body) (w : W) : run W :=
  if (payloadSize <? 0) || (PlaybackBufferSize <? payloadSize) then Panics
  else match TwoParty.CopyWithBuf wr (b (Z.to_nat payloadSize)) 0 w with
  | (w, None) => Waits w
  | (w, Some (n, e)) => Ends w n (Some e)
  end.

Definition copy_encoded (p : AudioPlayback W) (payloadSize : Z) (b : body) (w : W) : run W :=
  if (payloadSize <? 0) || (PlaybackBufferSize <? payloadSize) then Panics
  else match PcmCoding.PCMEncoder_Init EncodeUlawFrame EncodeAlawFrame (codec p) with
  | inr e => Ends w 0 (Some (ErrWrap "failed to create PCM encoder" e))
  | inl enc => copy (EncoderWriter_Write enc) payloadSize b w
  end.

Definition stream (p : AudioPlayback W) (b : body) (w : W) : run W := copy Write (calcPlayoutSize p) b w.
Definition streamPCM (p : AudioPlayback W) (b : body) (w : W) : run W := copy_encoded p (calcPlayoutSize p) b w.

(** [wav]: what the parser makes of the body, the headers and then the audio. *)
Definition streamWav (p : AudioPlayback W) (wav : (wav_header * body) + error) (w : W) : run W :=
  match wav with
  | inr e => Ends w 0 (Some e)
  | inl (h, b) =>
    let refuse what := Ends w 0 (Some (ErrNew ("wav file " +:+ what +:+ " does not match expected"))) in
    if negb (BitsPerSample h =? u16 (BitDepth p)) then refuse "bitdepth"
    else if negb (wavSampleRate h =? SampleRate (codec p)) then refuse "samplerate"
    else if negb (wavNumChannels h =? u16 (Codecs.NumChannels (codec p))) then refuse "numchannels"
    else copy_encoded p (SamplesPCM (codec p) (BitsPerSample h)) b w
  end.

Definition wavTypes : list string := ["audio/wav"; "audio/x-wav"; "audio/wav-x"; "audio/vnd.wave"].

(** The end of [Play]: a body that ended is no error. *)
Definition settle (p : AudioPlayback W) (r : run W) : AudioPlayback W * run W :=
  match r with
  | Ends w n err =>
    (p <| totalWritten := i64 (totalWritten p + n) |>, Ends w n (match err with Some e => if errors_Is e io_EOF then None else Some e | None => None end))
  | r => (p, r)
  end.

Definition Play (p : AudioPlayback W) (mimeType : string) (b : body) (wav : (wav_header * body) + error) (w : W) : AudioPlayback W * run W :=
  let w := match onPlay p with Some f => f w | None => w end in
  if String.eqb mimeType "" then settle p (stream p b w)
  else if bool_decide (mimeType ∈ wavTypes) then settle p (streamWav p wav w)
  else if String.eqb mimeType "audio/pcm" then settle p (streamPCM p b w)
  else (p, Ends w 0 (Some (ErrNew ("unsuported content type " +:+ mimeType)))).

(** [file]: the extension and the body of the file, or the error of opening it. *)
Definition PlayFile (p : AudioPlayback W) (file : (string * ((wav_header * body) + error)) + error) (w : W) : AudioPlayback W * run W :=
  match file with
  | inr e => (p, Ends w 0 (Some e))
  | inl (ext, wav) =>
    if negb (String.eqb ext ".wav") then (p, Ends w 0 (Some (ErrNew ("only playing wav file is now supported, but detected=" +:+ ext))))
    else Play p "audio/wav" (fun _ => []) wav w
  end.

(** [WriteAll]; the total is that of the chunks so far, but nothing after an error. *)
Fixpoint write_chunks (fuel : nat) (data : bytes) (sampleSize : nat) (total : Z) (w : W) : option (W * (Z + error)) :=
  match data with
  | [] => Some (w, inl total)
  | _ =>
    match fuel with
    | O => None
    | S fuel =>
      match Write w (take sampleSize data) with
      | (w, _, Some e) => Some (w, inr e)
      | (w, n, None) => write_chunks fuel (drop sampleSize data) sampleSize (i64 (total + n)) w
      end
    end
  end.
Definition WriteAll (data : bytes) (sampleSize : nat) (w : W) : option (W * (Z + error)) := write_chunks (length data) data sampleSize 0 w.

End Playing.

(** ** The control *)

Record audioControl (W : Type) := { Writer : W; muted : bool; stop : bool }.
Arguments Writer {W} _.
Arguments muted {W} _.
Arguments stop {W} _.
#[export] Instance eta_control {W} : Eta (audioControl W) := fun c => {| Writer := Writer c; muted := muted c; stop := stop c |}.

Definition Mute {W} (mute : bool) (c : audioControl W) : audioControl W := c <| muted := mute |>.
Definition Stop {W} (c : audioControl W) : audioControl W := c <| stop := true |>.

(** The bytes of a slice set to 0. *)
Definition zeros (b : bytes) : bytes := replicate (length b) 0.

Definition control_Write {W} (Write : W -> bytes -> W * Z * option error) (c : audioControl W) (b : bytes) : audioControl W * Z * option error :=
  if stop c then (c, 0, Some io_EOF)
  else
    let b := if muted c then zeros b else b in
    let '(w, n, e) := Write (Writer c) b in (c <| Writer := w |>, n, e).

(** [read]: what the reader below gave. *)
Definition control_Read {W} (c : audioControl W) (read : bytes * option error) : bytes * option error :=
  if stop c then ([], Some io_EOF)
  else match read with
  | (b, Some e) => (b, Some e)
  | (b, None) => (if muted c then zeros b else b, None)
  end.

Definition NewAudioPlaybackControl {W} (p : AudioPlayback W) (w : W) : AudioPlayback (audioControl W) * audioControl W :=
  ({| codec := codec p; onPlay := match onPlay p with Some f => Some (fun c => c <| Writer := f (Writer c) |>) | None => None end;
      BitDepth := BitDepth p; NumChannels := NumChannels p; totalWritten := totalWritten p |},
   {| Writer := w; muted := false; stop := false |}).

(** Calls of the owner's, made while it plays. *)
Inductive call := CMute (mute : bool) | CStop.
Definition apply_call {W} (c : audioControl W) (k : call) : audioControl W := match k with CMute m => Mute m c | CStop => Stop c end.

(** A control with the calls still to be made, a list of them before each write. *)
Definition calls_Write {W} (Write : W -> bytes -> W * Z * option error) (s : audioControl W * list (list call)) (b : bytes) : audioControl W * list (list call) * Z * option error :=
  let '(c, l) := s in
  let '(c, n, e) := control_Write Write (foldl apply_call c (default [] (head l))) b in (c, tail l, n, e).

(** ** Bodies over HTTP *)

Definition DefaultPlaybackURLRangeSize : Z := 65536.

Record http_response := {
  StatusCode : Z;
  MediaType : string + error;
  ContentRange : string;
  ContentLength : Z;
  Body : bytes + error }.

Fixpoint after_last (c : ascii) (s : string) : option string :=
  match s with
  | EmptyString => None
  | String d s => match after_last c s with Some t => Some t | None => if Ascii.eqb c d then Some s else None end
  end.

Section URL.
(** The answer to a request of a range, both ends included. *)
Context (fetch : Z -> Z -> http_response + error).
(** How much the player takes before it closes the pipe, if it does. *)
Context (closed : option nat).

(** A write into the pipe. *)
Definition pipe_Write (out chunk : bytes) : bytes * option error :=
  match closed with
  | None => (out ++ chunk, None)
  | Some n => if (length (out ++ chunk) <=? n)%nat then (out ++ chunk, None) else (take n (out ++ chunk), Some io_ErrClosedPipe)
  end.

(** The loop of [httpPartial] from [start]; [None] when the bound was not enough. *)
Fixpoint ranges (fuel : nat) (start offset maxSize : Z) (out : bytes) : option (bytes * option error) :=
  if negb (start <? maxSize) then Some (out, None)
  else match fuel with
  | O => None
  | S fuel =>
    match fetch start (Z.min (start + offset - 1) maxSize) with
    | inr e => Some (out, Some (ErrWrap "failed to request range" e))
    | inl res =>
      if (StatusCode res =? 416) && (ContentLength res =? 0) then Some (out, None)
      else if negb (StatusCode res =? 206) then Some (out, Some (ErrNew "expected partial content response"))
      else match Body res with
      | inr e => Some (out, Some (ErrWrap "reading chunk stopped" e))
      | inl chunk =>
        match pipe_Write out chunk with
        | (out, Some e) => Some (out, Some e)
        | (out, None) => ranges fuel (start + offset) offset maxSize out
        end
      end
    end
  end.

Definition httpPartial (res : http_response) (maxSize size : Z) : option (bytes * option error) :=
  match Body res with
  | inr e => Some ([], Some (ErrWrap "reading chunk stopped" e))
  | inl chunk =>
    match pipe_Write [] chunk with
    | (out, Some e) => Some (out, Some e)
    | (out, None) => ranges (Z.to_nat maxSize) size (size * 2) maxSize out
    end
  end.

Definition httpErr_join (e1 e2 : option error) : option error :=
  match e1, e2 with
  | Some e1, Some e2 => Some (ErrJoin e1 e2)
  | Some e, None | None, Some e => Some e
  | None, None => None
  end.

Section Player.
Context (EncodeUlawFrame EncodeAlawFrame : Z -> Z).
Context {W : Type} (Write : W -> bytes -> W * Z * option error).
(** The parser of WAV files, over all that a reader gives until its end. *)
Context (wavOf : bytes -> (wav_header * body) + error).

(** The first request has been answered with [res]. *)
Definition playURL (p : AudioPlayback W) (w : W) : option (AudioPlayback W * run W) :=
  let play bytes := streamWav EncodeUlawFrame EncodeAlawFrame Write p (wavOf bytes) w in
  let count (r : run W) := match r with Ends _ n _ => p <| totalWritten := i64 (totalWritten p + n) |> | _ => p end in
  let fails e := Some (p, Ends w 0 (Some e)) in
  let pcmSamples := Samples16 (codec p) in
  if pcmSamples =? 0 then Some (p, Panics)
  else
    let readSize := Z.quot DefaultPlaybackURLRangeSize pcmSamples * pcmSamples in
    match fetch 0 (readSize - 1) with
    | inr e => fails e
    | inl res =>
      if negb (StatusCode res =? 200) && negb (StatusCode res =? 206) then fails (ErrNew "non 200 received")
      else match MediaType res with
      | inr e => fails e
      | inl t =>
        if negb (bool_decide (t ∈ wavTypes)) then fails (ErrNew ("unsuported content type " +:+ t))
        else if StatusCode res =? 206 then
          match after_last "/" (ContentRange res) with
          | None => fails (ErrNew "full audio size in Content-Range not present")
          | Some size =>
            match Atoi size with
            | (_, Some e) => fails (num_error_value e)
            | (maxSize, None) =>
              if maxSize <=? 0 then fails (ErrNew "parsing audio size failed")
              else match httpPartial res maxSize readSize with
              | None => None
              | Some (out, herr) =>
                let r := play out in
                Some (count r, match r with Ends w n err => Ends w n (httpErr_join herr err) | r => r end)
              end
            end
          end
        else match Body res with
        | inr e => fails e
        | inl samples => let r := play samples in Some (count r, r)
        end
      end
    end.

Definition PlayURL (p : AudioPlayback W) (w : W) : option (AudioPlayback W * run W) :=
  match playURL p w with
  | Some (p, Ends w n (Some e)) => Some (p, Ends w n (if errors_Is e io_EOF then None else Some e))
  | r => r
  end.

End Player.
End URL.
End Playback.

(** * Playing audio: theorems

    A body is played frame by frame, as its control has it; one fetched by ranges is
    played as one fetched whole. *)
Import GoStrings Codecs Playback.

Module PlaybackProps.

Lemma i64_i64 x : i64 (i64 x) = i64 x.
Proof. pose proof (TwoPartyProps.i64_plus x 0) as H. by rewrite !Z.add_0_r in H. Qed.

(** ** What a listener hears *)

(** The frames as the control lets them through, with the calls made on it before
    each. *)
Fixpoint heard (calls : list (list call)) (mute stopped : bool) (frames : list bytes) : list bytes :=
  match frames with
  | [] => []
  | f :: frames =>
    let c := foldl apply_call {| Writer := tt; muted := mute; stop := stopped |} (default [] (head calls)) in
    if stop c then [] else (if muted c then zeros f else f) :: heard (tail calls) (muted c) (stop c) frames
  end.

Section Delivery.
Context {W : Type} (Write : W -> bytes -> W * Z * option error).

(** Frames written one after the other until one fails: how many were written. *)
Fixpoint deliver (frames : list bytes) (w : W) : W * nat * option error :=
  match frames with
  | [] => (w, 0%nat, None)
  | f :: frames =>
    match Write w f with
    | (w, _, Some e) => (w, 0%nat, Some e)
    | (w, _, None) => let '(w, k, e) := deliver frames w in (w, S k, e)
    end
  end.

Hypothesis Write_whole : forall w b, (Write w b).2 = None -> (Write w b).1.2 = len b.

Definition total (frames : list bytes) : Z := foldr (fun f n => len f + n) 0 frames.

Lemma calls_Writer l (c : audioControl W) : let c' := foldl apply_call c l in
  let d := foldl apply_call {| Writer := tt; muted := muted c; stop := stop c |} l in Writer c' = Writer c /\ muted c' = muted d /\ stop c' = stop d.
Proof.
  revert c. induction l as [|k l IH]; intros c; [done|]. cbn [foldl]. destruct (IH (apply_call c k)) as (H1 & H2 & H3). destruct k; exact (conj H1 (conj H2 H3)).
Qed.

Lemma encoder_whole enc (V : W -> bytes -> W * Z * option error) w lpcm encoded : enc PcmCoding.RTPBufSize lpcm = inl encoded ->
  ((V w encoded).2 = None -> (V w encoded).1.2 = len encoded) ->
  EncoderWriter_Write V enc w lpcm = let '(w', n, e) := V w encoded in (w', match e with Some _ => n | None => len lpcm end, e).
Proof.
  intros He HV. unfold EncoderWriter_Write. rewrite He. destruct (V w encoded) as [[w' n] [e|]]; [done|]. cbn in HV. by rewrite HV, Z.eqb_refl.
Qed.

End Delivery.

Section Controlled.
Context {W : Type} (Write : W -> bytes -> W * Z * option error).
Hypothesis Write_whole : forall w b, (Write w b).2 = None -> (Write w b).1.2 = len b.
Context (enc : PcmCoding.coder) (ef : Z -> Z).
Hypothesis enc_frames : forall lpcm, len lpcm <= 3000 -> enc PcmCoding.RTPBufSize lpcm = inl (PcmCoding.encode_frames ef lpcm).

Lemma control_spec s b : let '(c, l) := s in
  let d := foldl apply_call {| Writer := tt; muted := muted c; stop := stop c |} (default [] (head l)) in
  exists c', calls_Write Write s b =
    (if stop d then (c', tail l, 0, Some io_EOF)
     else let '(_, n, e) := Write (Writer c) (if muted d then zeros b else b) in (c', tail l, n, e)) /\
    muted c' = muted d /\ stop c' = stop d /\ Writer c' = if stop d then Writer c else (Write (Writer c) (if muted d then zeros b else b)).1.1.
Proof.
  destruct s as [c l]. cbv zeta. destruct (calls_Writer (default [] (head l)) c) as (H1 & H2 & H3). unfold calls_Write, control_Write.
  set (c1 := foldl apply_call c _) in *. clearbody c1. set (d := foldl apply_call _ _) in *. rewrite H2, H3, H1. destruct (stop d) eqn:Es.
  - exists c1. repeat split; congruence.
  - destruct (Write _ _) as [[w' n] e]. exists (c1 <| Writer := w' |>). cbn. repeat split; congruence.
Qed.

Lemma zeros_len (b : bytes) : len (zeros b) = len b.
Proof. unfold len, zeros. by rewrite length_replicate. Qed.

Lemma copy_controlled frames calls c n0 : Forall (fun f => len f <= 3000) frames ->
  let '(w', k, err) := deliver Write (heard calls (muted c) (stop c) (PcmCoding.encode_frames ef <$> frames)) (Writer c) in
  exists c' l', TwoParty.CopyWithBuf (EncoderWriter_Write (calls_Write Write) enc) (map (fun f => (f, None)) frames ++ [([], Some io_EOF)]) (i64 n0) (c, calls) =
    ((c', l'), Some (i64 (n0 + total (take k frames)), default io_EOF err)) /\ Writer c' = w'.
Proof.
  intros HF. revert calls c n0. induction HF as [|f frames Hf HF IH]; intros calls c n0; cbn [fmap list_fmap heard].
  - cbn. rewrite Z.add_0_r. by exists c, calls.
  - pose proof (control_spec (c, calls) (PcmCoding.encode_frames ef f)) as (c' & Hw & Hm & Hs & HW). cbn [map app TwoParty.CopyWithBuf].
    set (d := foldl apply_call _ _) in *. set (g := if muted d then _ else _) in *.
    assert (len g = len (PcmCoding.encode_frames ef f)) as Hg by (subst g; destruct (muted d); [apply zeros_len|done]). pose proof (Write_whole (Writer c) g) as Hl.
    rewrite (encoder_whole enc (calls_Write Write) (c, calls) f _ (enc_frames f Hf)); [|rewrite Hw; destruct (stop d); [done|]; fold g; clear - Hl Hg; destruct (Write (Writer c) g) as [[w' n] e]; cbn in *; rewrite <- Hg; exact Hl].
    rewrite Hw. destruct (stop d); [cbn; rewrite Z.add_0_r; by exists c', (tail calls)|]. cbn [deliver]. fold g.
    destruct (Write (Writer c) g) as [[w' n] [e|]]; cbn [fst snd] in *; [cbn; rewrite Z.add_0_r; by exists c', (tail calls)|].
    rewrite Z.ltb_irrefl, TwoPartyProps.i64_plus. specialize (IH (tail calls) c' (n0 + len f)). rewrite Hm, Hs, HW in IH.
    destruct (deliver _ _ w') as [[w'' k] err]. destruct IH as (c2 & l2 & -> & <-). exists c2, l2. cbn [take total foldr]. by rewrite Z.add_assoc.
Qed.

End Controlled.

(** ** Playing *)

Section Play.
Context (EncodeUlawFrame EncodeAlawFrame : Z -> Z).
Context {W : Type} (Write : W -> bytes -> W * Z * option error).

Abbreviation Play_with := (Play EncodeUlawFrame EncodeAlawFrame).
Abbreviation PCMEncoder_Init := (PcmCoding.PCMEncoder_Init EncodeUlawFrame EncodeAlawFrame).

Definition g711 (ef : Z -> Z) (c : Codec) : Prop :=
  (PcmCoding.codecIs c CodecAudioUlaw = true /\ ef = EncodeUlawFrame) \/ (PcmCoding.codecIs c CodecAudioUlaw = false /\ PcmCoding.codecIs c CodecAudioAlaw = true /\ ef = EncodeAlawFrame).

Lemma g711_encoder ef c : g711 ef c -> exists enc, PCMEncoder_Init c = inl enc /\
  forall lpcm, len lpcm <= 3000 -> enc PcmCoding.RTPBufSize lpcm = inl (PcmCoding.encode_frames ef lpcm).
Proof.
  unfold PcmCoding.PCMEncoder_Init. intros [[H ->]|(H1 & H2 & ->)]; [rewrite H|rewrite H1, H2]; eexists; (split; [reflexivity|]); intros lpcm Hl;
    unfold PcmCoding.EncodeUlawTo, PcmCoding.EncodeAlawTo, PcmCoding.RTPBufSize, len in *; by rewrite (proj2 (Nat.ltb_ge _ _)) by lia.
Qed.

(** What the reads of a whole body give, frame by frame. *)
Definition gives (b : body) (size : Z) (frames : list bytes) : Prop := b (Z.to_nat size) = map (fun f => (f, None)) frames ++ [([], Some io_EOF)].

(** C36. PCM played on a call in G.711 is heard as its control has it, whatever the calls
    made on the control in between: the writer gets the frames of the body, each coded,
    in order, those muted as zeros, up to the call that stops it or the first write
    that fails; what is returned is the PCM of the frames that were written, and an
    error only when a write failed. *)
Theorem played_as_controlled ef c b wav frames calls w : (forall w b, (Write w b).2 = None -> (Write w b).1.2 = len b) ->
  g711 ef c -> 0 <= calcPlayoutSize (NewAudioPlayback (W := W) c) <= PlaybackBufferSize ->
  gives b (calcPlayoutSize (NewAudioPlayback (W := W) c)) frames -> Forall (fun f => len f <= 3000) frames ->
  let '(w', k, err) := deliver Write (heard calls false false (PcmCoding.encode_frames ef <$> frames)) w in
  let n := i64 (total (take k frames)) in
  exists c' l', Play_with (calls_Write Write) (NewAudioPlayback c) "audio/pcm" b wav ({| Writer := w; muted := false; stop := false |}, calls) =
    (NewAudioPlayback c <| totalWritten := n |>, Ends (c', l') n (err ≫= fun e => if errors_Is e io_EOF then None else Some e)) /\ Writer c' = w'.
Proof.
  intros HW Hg Hs Hb HF. destruct (g711_encoder ef c Hg) as (enc & Hi & He).
  pose proof (copy_controlled Write HW enc ef He frames calls {| Writer := w; muted := false; stop := false |} 0 HF) as HC. cbn [muted stop Writer] in HC.
  destruct (deliver _ _ w) as [[w' k] err]. destruct HC as (c' & l' & HC & Hw'). exists c', l'. split; [|done].
  unfold Play. cbn [onPlay NewAudioPlayback]. change (String.eqb "audio/pcm" "") with false. cbv iota. change (bool_decide ("audio/pcm"%string ∈ wavTypes)) with false. cbv iota.
  change (String.eqb "audio/pcm" "audio/pcm") with true. cbv iota. unfold streamPCM, copy_encoded, copy.
  change (calcPlayoutSize (NewAudioPlayback (W := audioControl W * list (list call)) c)) with (calcPlayoutSize (NewAudioPlayback (W := W) c)).
  set (size := calcPlayoutSize _) in *. replace ((size <? 0) || (PlaybackBufferSize <? size)) with false by lia. cbn [codec NewAudioPlayback]. rewrite Hi. rewrite Hb.
  change (i64 0) with 0 in HC. rewrite HC. cbn [settle]. cbn [totalWritten NewAudioPlayback]. rewrite !Z.add_0_l, i64_i64. by destruct err.
Qed.

End Play.

(** ** Bodies over HTTP *)

(** A server that has the file [F] and gives the ranges asked for, and one that gives
    the whole of it. *)
Definition serves_ranges (F : bytes) (fetch : Z -> Z -> http_response + error) : Prop :=
  forall s e, 0 <= s < len F -> s <= e -> exists r size, fetch s e = inl r /\ StatusCode r = 206 /\
    Body r = inl (take (Z.to_nat (e + 1 - s)) (drop (Z.to_nat s) F)) /\
    MediaType r = inl "audio/wav"%string /\ after_last "/" (ContentRange r) = Some size /\ Atoi size = (len F, None).
Definition serves_whole (F : bytes) (fetch : Z -> Z -> http_response + error) : Prop :=
  forall s e, exists r, fetch s e = inl r /\ StatusCode r = 200 /\ Body r = inl F /\ MediaType r = inl "audio/wav"%string.

Lemma ranges_whole F fetch offset fuel start : serves_ranges F fetch -> 0 < offset -> 0 <= start -> len F - start <= Z.of_nat fuel ->
  ranges fetch None fuel start offset (len F) (take (Z.to_nat start) F) = Some (F, None).
Proof.
  intros HS Ho. revert start. induction fuel as [|fuel IH]; intros start H0 Hf; cbn [ranges]; destruct (Z.ltb_spec start (len F)) as [Hl|Hl]; cbn [negb];
    try (by rewrite take_ge by (unfold len in Hl; lia)); [lia|].
  destruct (HS start (Z.min (start + offset - 1) (len F)) ltac:(lia) ltac:(lia)) as (r & size & -> & -> & -> & _). cbn [Z.eqb Pos.eqb negb andb]. unfold pipe_Write.
  rewrite take_take_drop. replace (take (Z.to_nat start + _) F) with (take (Z.to_nat (start + offset)) F); [apply IH; lia|].
  destruct (Z.le_gt_cases (start + offset - 1) (len F)); [f_equal; lia|]. rewrite !take_ge; [done|unfold len in *; lia..].
Qed.

(** A file fetched by ranges is played as the file fetched whole: the same bytes to
    the call, the same count, the same error or none. *)
Theorem ranges_played_as_whole eu ea {W : Type} (Write : W -> bytes -> W * Z * option error) wavOf p w F fetch whole :
  serves_ranges F fetch -> serves_whole F whole -> 0 < len F -> 0 < Samples16 (codec p) <= DefaultPlaybackURLRangeSize ->
  PlayURL fetch None eu ea Write wavOf p w = PlayURL whole None eu ea Write wavOf p w.
Proof.
  intros HS HW HF Hs. unfold PlayURL, playURL. replace (Samples16 (codec p) =? 0) with false by lia.
  set (size := Z.quot _ _ * _). assert (0 < size) as Hsize.
  { subst size. assert (0 < Z.quot DefaultPlaybackURLRangeSize (Samples16 (codec p))); [|nia]. rewrite Z.quot_div_nonneg by (unfold DefaultPlaybackURLRangeSize; lia).
    apply Z.div_str_pos. lia. }
  destruct (HW 0 (size - 1)) as (r & -> & -> & -> & ->). destruct (HS 0 (size - 1) ltac:(lia) ltac:(lia)) as (r' & s & -> & -> & HB & -> & -> & ->).
  cbn [Z.eqb Pos.eqb negb andb]. change (bool_decide ("audio/wav"%string ∈ wavTypes)) with true. cbn [negb]. replace (len F <=? 0) with false by lia.
  unfold httpPartial. rewrite HB. unfold pipe_Write. cbn [app]. rewrite drop_0. replace (Z.to_nat (size - 1 + 1 - 0)) with (Z.to_nat size) by lia.
  rewrite (ranges_whole F fetch (size * 2) (Z.to_nat (len F)) size HS) by lia. by destruct (streamWav _ _ _ _ _ _) as [|w'|w' n [e|]].
Qed.

(** ** Concrete bodies *)

Definition ex_writer (w : list bytes) (b : bytes) : list bytes * Z * option error := (w ++ [b], len b, None).
Definition ex_frames : list bytes := (fun v => concat (replicate 160 [v; 0])) <$> [1; 2; 3; 4].
Definition ex_body : body := fun _ => map (fun f => (f, None)) ex_frames ++ [([], Some io_EOF)].
(** Muted for the second frame, stopped before the fourth. *)
Definition ex_calls : list (list call) := [[]; [CMute true]; [CMute false]; [CStop]].

Lemma played_as_controlled_witness : exists p c' l',
  Play id id (calls_Write ex_writer) (NewAudioPlayback CodecAudioUlaw) "audio/pcm" ex_body (inr io_EOF) ({| Writer := []; muted := false; stop := false |}, ex_calls) =
    (p, Ends (c', l') 960 None) /\ Writer c' = [replicate 160 1; replicate 160 0; replicate 160 3].
Proof.
  destruct (played_as_controlled id id ex_writer id CodecAudioUlaw ex_body (inr io_EOF) ex_frames ex_calls []) as (c' & l' & H & Hw).
  - done.
  - left. by split.
  - by vm_compute.
  - reflexivity.
  - repeat (constructor; [by vm_compute|]). constructor.
  - eexists _, c', l'. split; [exact H|exact Hw].
Defined.

Definition ex_F : bytes := replicate (Z.to_nat 70000) 7.
Definition ex_response (code : Z) (b : bytes) : http_response :=
  {| StatusCode := code; MediaType := inl "audio/wav"%string; ContentRange := "bytes 0-65279/70000"; ContentLength := len b; Body := inl b |}.
Definition ex_fetch (s e : Z) : http_response + error := inl (ex_response 206 (take (Z.to_nat (e + 1 - s)) (drop (Z.to_nat s) ex_F))).
Definition ex_wavOf (b : bytes) : (wav_header * body) + error :=
  inl ({| BitsPerSample := 16; wavSampleRate := 8000; wavNumChannels := 1 |}, fun n => [(take n b, None); ([], Some io_EOF)]).

Lemma ranges_played_as_whole_witness :
  PlayURL ex_fetch None id id ex_writer ex_wavOf (NewAudioPlayback CodecAudioUlaw) [] =
  PlayURL (fun _ _ => inl (ex_response 200 ex_F)) None id id ex_writer ex_wavOf (NewAudioPlayback CodecAudioUlaw) [].
Proof.
  assert (len ex_F = 70000) as HF by (unfold len, ex_F; rewrite length_replicate; reflexivity).
  apply (ranges_played_as_whole id id ex_writer ex_wavOf (NewAudioPlayback CodecAudioUlaw) [] ex_F).
  - intros s e _ _. rewrite HF. exists (ex_response 206 (take (Z.to_nat (e + 1 - s)) (drop (Z.to_nat s) ex_F))), "70000"%string.
    unfold ex_fetch. generalize ex_F. intros F. repeat (split; [reflexivity|]). reflexivity.
  - intros s e. exists (ex_response 200 ex_F). generalize ex_F. intros F. by repeat (split; [reflexivity|]).
  - rewrite HF. lia.
  - clear HF. by vm_compute.
Defined.

(** A range that can not be fetched is not reported: the pipe of the download ends as
    a file does, the player returns [io.EOF], and what joins it with the error of the
    download is still an [io.EOF]. *)
Definition ex_fetch_once (s e : Z) : http_response + error := if s =? 0 then ex_fetch s e else inr (ErrNew "context deadline exceeded").
Lemma failed_download_unreported : exists p w,
  (httpPartial ex_fetch_once None (ex_response 206 (take (Z.to_nat 65280) ex_F)) 70000 65280 ≫= snd) = Some (ErrWrap "failed to request range" (ErrNew "context deadline exceeded")) /\
  PlayURL ex_fetch_once None id id ex_writer ex_wavOf (NewAudioPlayback CodecAudioUlaw) [] = Some (p, Ends w 320 None).
Proof. eexists _, _. split; vm_compute; reflexivity. Qed.

End PlaybackProps.
