(* ===== verification/DtmfBridge.v ===== *)
(** * Digits across a bridge

    [DTMFReader] and [DTMFWriter] of [dialog_media.go], which follow the media of
    their dialog, and [proxyMediaWithDTMF] of [bridge.go], which passes the audio and
    the digits of one dialog on to another. Media sessions are numbers; the codecs a
    session runs on are an argument. *)
From S2P Require Import Prelude GoStrings Rtp Sequencer Codec PacketIO Dtmf.
Import GoStrings PacketIO Dtmf.

Module DtmfBridge.

Section Follow.
(** The active codecs of a media session. *)
Context (active : nat -> list Codecs.Codec).

Definition dtmfCodec (s : nat) : Codecs.Codec := default Codecs.CodecTelephoneEvent8000 (Codecs.CodecTelephoneEventFromSession (active s)).

(** ** Readers and writers of a dialog *)

Record DTMFReader := { r_session : nat; dtmfReader : RTPDtmfReader }.
#[export] Instance eta_reader : Eta DTMFReader := fun r => {| r_session := r_session r; dtmfReader := dtmfReader r |}.
Record DTMFWriter := { w_session : nat; w_codec : Codecs.Codec }.

Definition initDTMFReader (s : nat) : DTMFReader := {| r_session := s; dtmfReader := NewRTPDTMFReader (dtmfCodec s) |}.
Definition initDTMFWriter (s : nat) : DTMFWriter := {| w_session := s; w_codec := dtmfCodec s |}.

(** [sess]: the dialog's media session of the moment. *)
Definition reader_followMedia (sess : option nat) (r : DTMFReader) : DTMFReader :=
  match sess with
  | None => r
  | Some s => if (s =? r_session r)%nat then r else {| r_session := s; dtmfReader := UpdateCodec (dtmfCodec s) (dtmfReader r) |}
  end.
Definition writer_followMedia (sess : option nat) (w : DTMFWriter) : DTMFWriter :=
  match sess with
  | None => w
  | Some s => if (s =? w_session w)%nat then w else initDTMFWriter s
  end.

(** [Read] once the packet with header [hdr] was read into the buffer [b]; the digit
    [onDTMF] is called with. *)
Definition DTMFReader_Read (sess : option nat) (hdr : rtp_header) (b : bytes) (r : DTMFReader) : DTMFReader * option Z :=
  let r := reader_followMedia sess r in
  let '(dr, d, ok) := ReadDTMF (Read hdr b (dtmfReader r)) in
  (r <| dtmfReader := dr |>, if ok then Some d else None).

Definition WriteDTMF (sess : option nat) (d : Z) (w : DTMFWriter) (pw : RTPPacketWriter) : DTMFWriter * ((RTPPacketWriter * list rtp_packet) + error) :=
  let w := writer_followMedia sess w in (w, writeDTMF (w_codec w) d pw).

(** ** The proxy *)

Record proxy := { reader : DTMFReader; writer : DTMFWriter; packetWriter : RTPPacketWriter; buf : bytes }.

(** A packet read: the media sessions of both dialogs, the codec of the session the
    packet writer was moved to in the meantime, the packet and the clock. *)
Record turn := { sess1 : option nat; sess2 : option nat; moved : option Codecs.Codec; packet : rtp_packet; now : Z }.

Definition proxy_turn (t : turn) (p : proxy) : (proxy * list rtp_packet * option Z) + error :=
  let payload := Payload (packet t) in
  let b := payload ++ drop (length payload) (buf p) in
  let '(r, d) := DTMFReader_Read (sess1 t) (Header (packet t)) b (reader p) in
  let pw := match moved t with Some c => UpdateRTPSession c (packetWriter p) | None => packetWriter p end in
  match match d with
        | Some d => match WriteDTMF (sess2 t) d (writer p) pw with (w, inl (pw, ps)) => inl (w, pw, ps) | (_, inr e) => inr e end
        | None => inl (writer p, pw, [])
        end with
  | inr e => inr e
  | inl (w, pw, ps) =>
    let '(pw, q) := Write payload (now t) pw in
    inl ({| reader := r; writer := w; packetWriter := pw; buf := b |}, ps ++ [q], d)
  end.

(** The packets sent, the digits passed on, and the error that ended the copying. *)
Fixpoint proxyMediaWithDTMF (turns : list turn) (p : proxy) : proxy * list rtp_packet * list Z * option error :=
  match turns with
  | [] => (p, [], [], None)
  | t :: turns =>
    match proxy_turn t p with
    | inr e => (p, [], [], Some e)
    | inl (p, ps, d) =>
      let '(p, qs, ds, e) := proxyMediaWithDTMF turns p in (p, ps ++ qs, option_list d ++ ds, e)
    end
  end.

Definition start (s1 s2 : nat) (pw : RTPPacketWriter) (b : bytes) : proxy :=
  {| reader := initDTMFReader s1; writer := initDTMFWriter s2; packetWriter := pw; buf := b |}.

(** ** What crosses *)

Lemma wrun_snoc ops op w : (wrun (ops ++ [op]) w).1 = (wstep op (wrun ops w).1).1.
Proof.
  revert w. induction ops as [|o ops IH]; intros w; cbn [app wrun fst].
  - destruct (wstep op w). done.
  - destruct (wstep o w) as [v ps]. specialize (IH v). destruct (wrun (ops ++ [op]) v), (wrun ops v). exact IH.
Qed.

Lemma write_events_codec evs first pt w : codec (write_events evs first pt w).1 = codec w.
Proof.
  revert first w. induction evs as [|e evs IH]; intros first w; cbn [write_events]; [done|]. unfold WriteSamples, writeSamplesUnsafe. destruct (Sequencer.NextSeqNumber _) as [sq n].
  set (w' := w <| seqWriter := _ |> <| nextTimestamp := _ |> <| PacketHeader := _ |>). specialize (IH false w'). destruct (write_events evs false pt w'). exact IH.
Qed.

Lemma dial_whole c ds w last : Codecs.SampleRate c = 8000 -> Forall (fun x => digit x.2) ds -> 0 <= nextTimestamp w < 2 ^ 32 ->
  heard last (dial c ds w) (snd <$> dial c ds w).
Proof.
  intros Hc HF. revert w last. induction HF as [|[ops d] ds Hd HF IH]; intros w last Hw; cbn [dial]; [done|].
  pose proof (u32_next ops w Hw) as Hu. set (u := (wrun ops w).1) in *. destruct (writeDTMF c d u) as [[v ps]|] eqn:E; [|unfold writeDTMF in E; by rewrite Hc in E].
  destruct (digit_packets c d u v ps Hd Hu E) as (Hv & _ & _ & _ & Hl & _). cbn [heard fmap list_fmap snd]. split; [|apply IH; by rewrite Hv].
  exists (take 4 ps), (drop 4 ps). split; [by rewrite take_drop|]. split; [done|]. split; [done|]. split.
  - intros H. apply (f_equal length) in H. rewrite length_drop, Hl in H. discriminate.
  - left. destruct ps as [|p ps]; [done|]. exists p. split; [done|]. cbn. left.
Qed.

Lemma digit_rune ev : 0 <= ev < 16 -> digit (DTMFToRune ev).
Proof. intros H. unfold digit, DTMFToRune. apply list_elem_of_In, nth_In. change (length dtmf_runes) with 16%nat. lia. Qed.

(** A packet of the format [c] carries a whole event, of a digit; others may be anything. *)
Definition whole_event (c : Codecs.Codec) (p : rtp_packet) : Prop :=
  is_event c p = true -> exists ev b1 b2 b3 rest, Payload p = ev :: b1 :: b2 :: b3 :: rest /\ 0 <= ev < 16.

Lemma read_whole c p b r : dr_codec r = c -> whole_event c p -> Read (Header p) (Payload p ++ b) r = Read (Header p) (Payload p) r.
Proof.
  intros Hc Hp. unfold Read. rewrite Hc. unfold whole_event, is_event in Hp. destruct (PayloadType (Header p) =? Codecs.PayloadType c) eqn:E; [|done]. cbn [negb].
  destruct (Hp eq_refl) as (ev & b1 & b2 & b3 & rest & -> & _). done.
Qed.

Lemma listened_digit c p r : dr_codec r = c -> dtmfEnd r = false -> whole_event c p -> Forall digit (listen_one p r).2.
Proof.
  intros Hc He Hp. unfold listen_one, ReadDTMF, Read. rewrite Hc. unfold whole_event, is_event in Hp. destruct (PayloadType (Header p) =? Codecs.PayloadType c) eqn:E; cbn [negb].
  - destruct (Hp eq_refl) as (ev & b1 & b2 & b3 & rest & -> & Hev). cbn [DTMFDecode default]. unfold processDTMFEvent. cbn [EndOfEvent Event].
    cbn [snd]. generalize (Z.land b1 128 =? 0), (Z.lor (Z.shiftl b2 8) b3), (Z.land b1 127). intros x du vo.
    destruct x; cbn [negb]; [destruct (Marker _ || negb _); cbn; rewrite He; apply Forall_nil_2|].
    destruct (Duration (lastEv r) =? 0); [cbn; rewrite He; apply Forall_nil_2|].
    match goal with |- context [if negb (?a =? ?b) then r else _] => destruct (a =? b) end; cbn [negb].
    + apply Forall_singleton. by apply digit_rune.
    + cbn. rewrite He. apply Forall_nil_2.
  - rewrite He. constructor.
Qed.

(** *** A run *)

(** Both calls stay on their sessions for as long as the proxy runs. *)
Definition settled (s1 s2 : nat) (t : turn) : Prop :=
  (sess1 t = Some s1 \/ sess1 t = None) /\ (sess2 t = Some s2 \/ sess2 t = None) /\ moved t = None.

Lemma reader_stays s1 t r : sess1 t = Some s1 \/ sess1 t = None -> r_session r = s1 -> reader_followMedia (sess1 t) r = r.
Proof. intros [->| ->] <-; [|done]. unfold reader_followMedia. by rewrite Nat.eqb_refl. Qed.
Lemma writer_stays s2 t : sess2 t = Some s2 \/ sess2 t = None -> writer_followMedia (sess2 t) (initDTMFWriter s2) = initDTMFWriter s2.
Proof. intros [->| ->]; [|done]. unfold writer_followMedia. cbn [initDTMFWriter w_session]. by rewrite Nat.eqb_refl. Qed.

(** A proxy between the sessions [s1] and [s2]. *)
Definition between (s1 s2 : nat) (p : proxy) : Prop :=
  r_session (reader p) = s1 /\ writer p = initDTMFWriter s2 /\ dr_codec (dtmfReader (reader p)) = dtmfCodec s1 /\ dtmfEnd (dtmfReader (reader p)) = false.

(** One turn: the digit is the one a listener hears in the packet, the packets are
    those of the digit and one with the payload. *)
Lemma turn_passes s1 s2 t p : settled s1 s2 t -> between s1 s2 p -> whole_event (dtmfCodec s1) (packet t) -> Codecs.SampleRate (dtmfCodec s2) = 8000 ->
  let '(r', ds) := listen_one (packet t) (dtmfReader (reader p)) in
  exists p' ps d, proxy_turn t p = inl (p', ps, d) /\ between s1 s2 p' /\ dtmfReader (reader p') = r' /\ option_list d = ds /\ Forall digit ds /\
    match d with
    | None => ps = (wstep (OpWrite (Payload (packet t)) (now t)) (packetWriter p)).2 /\ packetWriter p' = (wstep (OpWrite (Payload (packet t)) (now t)) (packetWriter p)).1
    | Some d => exists v qs, writeDTMF (dtmfCodec s2) d (packetWriter p) = inl (v, qs) /\
        ps = qs ++ (wstep (OpWrite (Payload (packet t)) (now t)) v).2 /\ packetWriter p' = (wstep (OpWrite (Payload (packet t)) (now t)) v).1
    end.
Proof.
  intros (H1 & H2 & Hm) (Hb1 & Hb2 & Hb3 & Hb4) Hw Hr. pose proof (listened_digit _ (packet t) (dtmfReader (reader p)) Hb3 Hb4 Hw) as HD.
  pose proof (listen_codec (packet t) (dtmfReader (reader p))) as [HC1 HC2]. rewrite Hb3 in HC1. unfold listen_one in *. unfold proxy_turn, DTMFReader_Read. rewrite (reader_stays s1) by done. rewrite (read_whole (dtmfCodec s1)) by done.
  destruct (ReadDTMF _) as [[dr d] ok]. cbn [fst snd] in *. rewrite Hm, Hb2. destruct ok.
  - unfold WriteDTMF. rewrite writer_stays by done. cbn [w_codec initDTMFWriter]. destruct (writeDTMF (dtmfCodec s2) d (packetWriter p)) as [[v qs]|] eqn:E; [|unfold writeDTMF in E; by rewrite Hr in E].
    destruct (Write _ _ v) as [pw q] eqn:EW. do 3 eexists. split; [reflexivity|]. split; [done|]. split; [done|]. split; [done|]. split; [done|].
    exists v, qs. cbn [wstep]. by rewrite EW.
  - cbn [wstep]. destruct (Write _ _ (packetWriter p)) as [pw q]. do 3 eexists. split; [reflexivity|]. by repeat (split; [done|]).
Qed.

Lemma write_audio payload now w : let '(v, q) := Write payload now w in
  codec v = codec w /\ PayloadType (Header q) = Codecs.PayloadType (codec w) /\ Payload q = payload.
Proof. unfold Write, writeSamplesUnsafe. by destruct (Sequencer.NextSeqNumber _). Qed.

Lemma digit_filter c d w v ps : digit d -> 0 <= nextTimestamp w < 2 ^ 32 -> writeDTMF c d w = inl (v, ps) ->
  List.filter (is_event c) ps = ps /\ List.filter (fun q => negb (is_event c q)) ps = [] /\ codec v = codec w /\ 0 <= nextTimestamp v < 2 ^ 32.
Proof.
  intros Hd Hw E. destruct (digit_packets c d w v ps Hd Hw E) as (Hv & H1 & H2 & _).
  assert (Forall (fun q => is_event c q = true) ps) as HF.
  { rewrite <- (take_drop 4 ps). apply Forall_app. split; [eapply Forall_impl; [exact H1|]; intros q (m & e & Hq & _)|eapply Forall_impl; [exact H2|]; intros q (e & Hq & _)];
      unfold is_event; destruct Hq as (-> & _); apply Z.eqb_refl. }
  split; [|split; [|split; [|lia]]].
  - clear - HF. induction HF as [|q ps Hq HF IH]; [done|]. cbn. by rewrite Hq, IH.
  - clear - HF. induction HF as [|q ps Hq HF IH]; [done|]. cbn. by rewrite Hq.
  - unfold writeDTMF in E. destruct (negb _); [done|]. apply inl_eq in E. pose proof (write_events_codec (RTPDTMFEncode8000 d) true (Codecs.PayloadType c) w) as HE. by rewrite E in HE.
Qed.

Lemma run_passes s1 s2 turns : Codecs.SampleRate (dtmfCodec s2) = 8000 -> Forall (fun t => settled s1 s2 t /\ whole_event (dtmfCodec s1) (packet t)) turns ->
  forall p w0 ops, between s1 s2 p -> packetWriter p = (wrun ops w0).1 -> 0 <= nextTimestamp w0 < 2 ^ 32 ->
  Codecs.PayloadType (codec (packetWriter p)) <> Codecs.PayloadType (dtmfCodec s2) ->
  let c := dtmfCodec s2 in
  let '(_, out, ds, e) := proxyMediaWithDTMF turns p in
  e = None /\ ds = (listen (packet <$> turns) (dtmfReader (reader p))).2 /\ Forall digit ds /\
  (Payload <$> List.filter (fun q => negb (is_event c q)) out) = Payload ∘ packet <$> turns /\
  exists ds', snd <$> ds' = ds /\ List.filter (is_event c) out = concat (snd <$> dial c ds' w0).
Proof.
  intros Hr HF. induction HF as [|t turns [Ht He] HF IH]; intros p w0 ops Hp Hpw Hw0 Hc; cbn [proxyMediaWithDTMF fmap list_fmap listen].
  - repeat (split; [done|]). by exists [].
  - pose proof (turn_passes s1 s2 t p Ht Hp He Hr) as HT. destruct (listen_one (packet t) _) as [r' dl]. destruct HT as (p' & ps & d & -> & Hp' & <- & <- & HD & HT).
    pose proof (u32_next ops w0 Hw0) as Hn. rewrite <- Hpw in Hn. destruct d as [d|]; cbn [option_list] in *.
    + destruct HT as (v & qs & Ed & -> & HT). apply Forall_cons in HD as [HD _]. destruct (digit_filter _ d _ v qs HD Hn Ed) as (F1 & F2 & F3 & F4).
      cbn [wstep] in HT. pose proof (write_audio (Payload (packet t)) (now t) v) as HW. destruct (Write _ _ v) as [pw q] eqn:EW. destruct HW as (W1 & W2 & W3).
      specialize (IH p' v [OpWrite (Payload (packet t)) (now t)] Hp'). cbn [wrun wstep] in IH. rewrite EW in IH. specialize (IH HT F4). rewrite HT in IH. cbn [fst] in IH. rewrite W1, F3 in IH. specialize (IH Hc).
      destruct (proxyMediaWithDTMF turns p') as [[[p2 out] ds] e]. destruct IH as (-> & -> & IH3 & IH4 & ds' & IH5 & IH6).
      split; [done|]. cbn [wstep]. rewrite EW. cbn [snd]. destruct (listen (packet <$> turns) _) as [r2 es]. cbn [snd] in *. split; [done|]. split; [by constructor|].
      assert (is_event (dtmfCodec s2) q = false) as Hq by (unfold is_event; rewrite W2, F3; by apply Z.eqb_neq).
      rewrite !List.filter_app, F1, F2. cbn [List.filter]. rewrite Hq. cbn [negb app]. split; [cbn; by rewrite W3, IH4|].
      exists ((ops, d) :: ds'). cbn [snd fmap list_fmap dial]. split; [f_equal; exact IH5|].
      rewrite <- Hpw, Ed. cbn [fmap list_fmap snd concat]. rewrite app_nil_r. f_equal. exact IH6.
    + destruct HT as [-> HT]. cbn [wstep] in *. pose proof (write_audio (Payload (packet t)) (now t) (packetWriter p)) as HW. destruct (Write _ _ _) as [pw q] eqn:EW. destruct HW as (W1 & W2 & W3).
      specialize (IH p' w0 (ops ++ [OpWrite (Payload (packet t)) (now t)]) Hp'). rewrite wrun_snoc, <- Hpw in IH. cbn [wstep] in IH. rewrite EW in IH. specialize (IH HT Hw0). rewrite HT in IH. cbn [fst] in IH. rewrite W1 in IH. specialize (IH Hc).
      destruct (proxyMediaWithDTMF turns p') as [[[p2 out] ds] e]. destruct IH as (-> & -> & IH3 & IH4 & ds' & IH5 & IH6).
      split; [done|]. cbn [snd app]. destruct (listen (packet <$> turns) _) as [r2 es]. cbn [snd] in *. split; [done|]. split; [done|].
      assert (is_event (dtmfCodec s2) q = false) as Hq by (unfold is_event; rewrite W2; by apply Z.eqb_neq).
      cbn [List.filter]. rewrite Hq. cbn [negb]. split; [cbn; by rewrite W3, IH4|].
      by exists ds'.
Qed.

(** C31. Digits cross the bridge: while no media update comes, from packets each of which
    is audio or a full packet of an event 0 to 15, to a call whose events are at 8000 Hz
    and whose audio has another payload type, a listener on that call hears the digits a
    listener on the first would have heard, each once and in order, in the payload type
    of the other call's session; the copying goes on, and the payload of every packet read
    is sent on as audio. An event that is no digit does not cross as it is, see
    [flash_crosses_as_zero]. *)
Theorem digits_cross_bridge s1 s2 turns pw b : Codecs.SampleRate (dtmfCodec s2) = 8000 ->
  Forall (fun t => settled s1 s2 t /\ whole_event (dtmfCodec s1) (packet t)) turns ->
  0 <= nextTimestamp pw < 2 ^ 32 -> Codecs.PayloadType (codec pw) <> Codecs.PayloadType (dtmfCodec s2) ->
  let '(_, out, ds, e) := proxyMediaWithDTMF turns (start s1 s2 pw b) in
  e = None /\
  ds = (listen (packet <$> turns) (NewRTPDTMFReader (dtmfCodec s1))).2 /\
  (listen out (NewRTPDTMFReader (dtmfCodec s2))).2 = ds /\
  Payload <$> List.filter (fun q => negb (is_event (dtmfCodec s2) q)) out = Payload ∘ packet <$> turns.
Proof.
  intros Hr HF Hw Hc. assert (between s1 s2 (start s1 s2 pw b)) as Hb by done.
  pose proof (run_passes s1 s2 turns Hr HF (start s1 s2 pw b) pw [] Hb eq_refl Hw Hc) as H. cbv zeta in H.
  destruct (proxyMediaWithDTMF turns _) as [[[p out] ds] e]. destruct H as (-> & H1 & H2 & H3 & ds' & H4 & H5).
  split; [done|]. split; [exact H1|]. split; [|exact H3]. rewrite <- H4.
  rewrite (listen_filter (dtmfCodec s2)) by done. rewrite H5. eapply listen_dialled; [exact Hr| |exact Hw|done|].
  - rewrite <- H4 in H2. apply (proj1 (Forall_fmap _ _ _)) in H2. exact H2.
  - apply dial_whole; [exact Hr| |exact Hw]. rewrite <- H4 in H2. apply (proj1 (Forall_fmap _ _ _)) in H2. exact H2.
Qed.

(** A media update moves both to the payload types of the new sessions. *)
Lemma follow_update s r w : dr_codec (dtmfReader (reader_followMedia (Some s) r)) = (if (s =? r_session r)%nat then dr_codec (dtmfReader r) else dtmfCodec s) /\
  w_codec (writer_followMedia (Some s) w) = if (s =? w_session w)%nat then w_codec w else dtmfCodec s.
Proof. unfold reader_followMedia, writer_followMedia. by destruct (s =? r_session r)%nat, (s =? w_session w)%nat. Qed.

End Follow.

(** ** Concrete calls *)

(** The second call numbers telephone events 96. *)
Definition ex_active (s : nat) : list Codecs.Codec :=
  [Codecs.CodecAudioUlaw; {| Codecs.Name := "telephone-event"; Codecs.PayloadType := if (s =? 1)%nat then 101 else 96; Codecs.SampleRate := 8000; Codecs.SampleDur := 20 * Millisecond; Codecs.NumChannels := 1 |}].
Definition ex_packet (pt seq ts : Z) (marker : bool) (payload : bytes) : rtp_packet :=
  {| Header := {| Version := 2; Padding := false; Marker := marker; PayloadType := pt; SequenceNumber := seq; Timestamp := ts; SSRC := 1; PaddingSize := 0 |}; Payload := payload |}.
Definition ex_turn (now : Z) (p : rtp_packet) : turn := {| sess1 := Some 1%nat; sess2 := Some 2%nat; moved := None; packet := p; now := now |}.
Definition event_turns (ev : Z) : list turn :=
  [ex_turn 10 (ex_packet 0 1 160 false [255; 255]); ex_turn 20 (ex_packet 101 2 320 true [ev; 10; 0; 160]);
   ex_turn 30 (ex_packet 101 3 320 false [ev; 10; 1; 64]); ex_turn 40 (ex_packet 101 4 320 false [ev; 138; 3; 32])].
Definition ex_writer : RTPPacketWriter := NewRTPPacketWriter 7 9 Codecs.CodecAudioUlaw.

Lemma digits_cross_bridge_witness :
  let '(_, out, ds, e) := proxyMediaWithDTMF ex_active (event_turns 5) (start ex_active 1 2 ex_writer []) in
  e = None /\ (listen out (NewRTPDTMFReader (dtmfCodec ex_active 2))).2 = [rune "5"].
Proof.
  pose proof (digits_cross_bridge ex_active 1 2 (event_turns 5) ex_writer [] eq_refl) as H.
  destruct (proxyMediaWithDTMF _ _ _) as [[[p out] ds] e]. destruct H as (-> & -> & H & _).
  - repeat (constructor; [split; [split; [by left|split; [by left|done]]|]; intros Hev; first [vm_compute in Hev; discriminate Hev|do 5 eexists; split; [reflexivity|lia]]|]). constructor.
  - vm_compute. split; congruence.
  - vm_compute. congruence.
  - split; [done|]. rewrite H. vm_compute. reflexivity.
Defined.

(** The event 16, a flash, is no digit of the tables: its rune is 0, and what is
    dialled for that is the digit 0. *)
Lemma flash_crosses_as_zero :
  let '(_, out, ds, _) := proxyMediaWithDTMF ex_active (event_turns 16) (start ex_active 1 2 ex_writer []) in
  ds = [0] /\ (listen out (NewRTPDTMFReader (dtmfCodec ex_active 2))).2 = [rune "0"].
Proof. vm_compute. done. Qed.

End DtmfBridge.
