(* ===== verification/AudioPipeline.v ===== *)
(** * The audio of a dialog

    Of [dialog_media.go]: the readers and writers a dialog gives to the application,
    with the interceptors its options put around them, and what playback and recording
    are made from. An interceptor that is given by pointer, a [DTMFReader], a
    [DTMFWriter] or a monitor, is a number, and the dialog's pipelines refer to it, so
    one that is used twice is shared. *)
From S2P Require Import Prelude Rtp GoStrings Sequencer Codec PacketIO Dtmf PcmCoding Playback DtmfBridge.
Import GoStrings Codecs Playback.

Module AudioPipeline.

Definition ErrNoMediaSetup : error := ErrNew "no media setup".

(** ** Dialogs *)

(** The [io.Reader]s and [io.Writer]s; [Own]: of the application's. *)
Inductive reader := PacketReader | StatsReader (below : reader) (hook : nat) | DTMFRead (id : nat) | MonitorReader (id : nat) | OwnReader (id : nat).
Inductive writer := PacketWriter | StatsWriter (below : writer) (hook : nat) | DTMFWrite (id : nat) | MonitorWriter (id : nat) | OwnWriter (id : nat).

(** Of a media session. *)
Record session := { filterCodecs : list Codec; codecs : list Codec; active : list Codec; Laddr : string; Raddr : string }.
Record MediaProps := { p_Codec : Codec; p_Laddr : string; p_Raddr : string }.

Record dtmf_reader := { dtmf : DtmfBridge.DTMFReader; onDTMF : bool; below : reader }.
Record dtmf_writer := { dtmfw : DtmfBridge.DTMFWriter; wbelow : writer }.

Record dialog := {
  mediaSession : option nat;
  rtpSession : option nat;
  (** [RTPPacketReader], with whether it has a reader below. *)
  RTPPacketReader : option bool;
  RTPPacketWriter : bool;
  (** The duration of a packet and the clock rate the buffer was made with, which is
      then what the packet reader reads. *)
  jitterBuffer : option (Z * Z);
  (** How many hooks run when it closes. *)
  onClose : nat;
  audioReader : option reader;
  audioWriter : option writer;
  dtmfReaders : gmap nat dtmf_reader;
  dtmfWriters : gmap nat dtmf_writer;
  (** [audioReader] and [audioWriter] of the monitors that were initialized. *)
  monReaders : gmap nat reader;
  monWriters : gmap nat writer }.
#[export] Instance eta_dialog : Eta dialog := fun d =>
  {| mediaSession := mediaSession d; rtpSession := rtpSession d; RTPPacketReader := RTPPacketReader d; RTPPacketWriter := RTPPacketWriter d;
     jitterBuffer := jitterBuffer d; onClose := onClose d; audioReader := audioReader d; audioWriter := audioWriter d; dtmfReaders := dtmfReaders d; dtmfWriters := dtmfWriters d;
     monReaders := monReaders d; monWriters := monWriters d |}.

Definition getAudioReader (d : dialog) : option reader :=
  match audioReader d with Some r => Some r | None => match RTPPacketReader d with Some _ => Some PacketReader | None => None end end.
Definition getAudioWriter (d : dialog) : option writer :=
  match audioWriter d with Some w => Some w | None => if RTPPacketWriter d then Some PacketWriter else None end.
Definition SetAudioReader (r : option reader) (d : dialog) : dialog := d <| audioReader := r |>.
Definition SetAudioWriter (w : option writer) (d : dialog) : dialog := d <| audioWriter := w |>.

Section Dialogs.
(** The media sessions. *)
Context (sess : nat -> session).

(** A session without any codec makes [CodecAudioFromSession] panic: [None]. *)
Definition audioCodec (s : nat) : option Codec := CodecAudioFromSession (filterCodecs (sess s)) (codecs (sess s)).
Definition props_of (s : nat) : option MediaProps := (fun c => {| p_Codec := c; p_Laddr := Laddr (sess s); p_Raddr := Raddr (sess s) |}) <$> audioCodec s.

(** ** Options *)

(** How an option ends: the dialog with an error, or a panic. An interceptor around no
    reader, which [AudioReader] never makes, counts as the panic of reading it. *)
Inductive outcome := Panicked | Done (d : dialog) (err : option error).

(** The props that an option writes are [props_of] the media session. *)
Inductive reader_option :=
| WithAudioReaderMediaProps
| WithAudioReaderJitterBuffer (clockRate : Z)
| WithAudioReaderRTPStats (hook : nat)
| WithAudioReaderDTMF (id : nat)
| WithAudioReaderPCMMonitor (id : nat).

(** [initDTMFReaderUnsafe]; the callback of a reader that is set up again stays. *)
Definition initDTMFReaderUnsafe (id : nat) (d : dialog) : dialog * option error :=
  match getAudioReader d, mediaSession d, RTPPacketReader d with
  | Some ar, Some s, Some _ =>
    let on := match dtmfReaders d !! id with Some r => onDTMF r | None => false end in
    (d <| dtmfReaders := <[id := {| dtmf := DtmfBridge.initDTMFReader (fun s => active (sess s)) s; onDTMF := on; below := ar |}]> (dtmfReaders d) |>, None)
  | _, _, _ => (d, Some ErrNoMediaSetup)
  end.

Definition apply_reader_option (o : reader_option) (d : dialog) : outcome :=
  match o with
  | WithAudioReaderMediaProps =>
    match mediaSession d with None => Done d (Some ErrNoMediaSetup) | Some s => match props_of s with Some _ => Done d None | None => Panicked end end
  | WithAudioReaderJitterBuffer rate =>
    match mediaSession d, RTPPacketReader d with
    | Some s, Some has_reader =>
      match jitterBuffer d with
      | Some _ => Done d (Some (ErrNew "jitter buffer already set up"))
      | None =>
        match audioCodec s with
        | None => Panicked
        | Some c =>
          if SampleDur c <=? 0 then Done d (Some (ErrNew "invalid audio codec packet duration"))
          else if negb has_reader then Done d (Some (ErrNew "no RTP reader setup"))
          else Done (d <| jitterBuffer := Some (SampleDur c, if rate =? 0 then SampleRate c else rate) |> <| onClose := S (onClose d) |>) None
        end
      end
    | _, _ => Done d (Some (ErrNew "no media setup"))
    end
  | WithAudioReaderRTPStats hook =>
    match rtpSession d with
    | None => Done d (Some ErrNoMediaSetup)
    | Some _ => match getAudioReader d with Some r => Done (d <| audioReader := Some (StatsReader r hook) |>) None | None => Panicked end
    end
  | WithAudioReaderDTMF id =>
    match initDTMFReaderUnsafe id d with
    | (d, Some e) => Done d (Some e)
    | (d, None) => Done (d <| audioReader := Some (DTMFRead id) |>) None
    end
  | WithAudioReaderPCMMonitor id =>
    match mediaSession d ≫= audioCodec, getAudioReader d with
    | Some c, Some r =>
      let d := d <| monReaders := <[id := r]> (monReaders d) |> in
      match PcmCoding.PCMDecoder_Init (fun v => v) (fun v => v) c with
      | inr e => Done d (Some e)
      | inl _ => Done (d <| audioReader := Some (MonitorReader id) |>) None
      end
    | _, _ => Panicked
    end
  end.

Fixpoint apply_options (l : list reader_option) (d : dialog) : outcome :=
  match l with
  | [] => Done d None
  | o :: l => match apply_reader_option o d with Done d None => apply_options l d | r => r end
  end.

(** [AudioReader]: what the application gets. *)
Inductive result (T : Type) := Panics | Returns (d : dialog) (r : T + error).
Arguments Panics {T}.
Arguments Returns {T} _ _.

Definition AudioReader (opts : list reader_option) (d : dialog) : result reader :=
  if negb (bool_decide (opts = [])) && (bool_decide (mediaSession d = None) || bool_decide (RTPPacketReader d = None)) then Returns d (inr ErrNoMediaSetup)
  else match apply_options opts d with
  | Panicked => Panics
  | Done d (Some e) => Returns d (inr e)
  | Done d None => Returns d match getAudioReader d with Some r => inl r | None => inr ErrNoMediaSetup end
  end.

(** [audioReaderProps]: the props and the reader. *)
Definition audioReaderProps (d : dialog) : option (option (MediaProps * reader)) :=
  match mediaSession d with
  | None => Some None
  | Some s => match props_of s with None => None | Some p => Some ((fun r => (p, r)) <$> getAudioReader d) end
  end.

Inductive writer_option :=
| WithAudioWriterMediaProps
| WithAudioWriterRTPStats (hook : nat)
| WithAudioWriterDTMF (id : nat)
| WithAudioWriterMonitor (id : nat).

Definition initDTMFWriterUnsafe (id : nat) (d : dialog) : dialog * option error :=
  match getAudioWriter d, mediaSession d, RTPPacketWriter d with
  | Some aw, Some s, true => (d <| dtmfWriters := <[id := {| dtmfw := DtmfBridge.initDTMFWriter (fun s => active (sess s)) s; wbelow := aw |}]> (dtmfWriters d) |>, None)
  | _, _, _ => (d, Some ErrNoMediaSetup)
  end.

Definition apply_writer_option (o : writer_option) (d : dialog) : outcome :=
  match o with
  | WithAudioWriterMediaProps =>
    match mediaSession d with None => Done d (Some ErrNoMediaSetup) | Some s => match props_of s with Some _ => Done d None | None => Panicked end end
  | WithAudioWriterRTPStats hook =>
    match rtpSession d with
    | None => Done d (Some ErrNoMediaSetup)
    | Some _ => match getAudioWriter d with Some w => Done (d <| audioWriter := Some (StatsWriter w hook) |>) None | None => Panicked end
    end
  | WithAudioWriterDTMF id =>
    match initDTMFWriterUnsafe id d with
    | (d, Some e) => Done d (Some e)
    | (d, None) => Done (d <| audioWriter := Some (DTMFWrite id) |>) None
    end
  | WithAudioWriterMonitor id =>
    match mediaSession d ≫= audioCodec, getAudioWriter d with
    | Some c, Some w =>
      let d := d <| monWriters := <[id := w]> (monWriters d) |> in
      match PcmCoding.PCMDecoder_Init (fun v => v) (fun v => v) c with
      | inr e => Done d (Some e)
      | inl _ => Done (d <| audioWriter := Some (MonitorWriter id) |>) None
      end
    | _, _ => Panicked
    end
  end.

Fixpoint apply_writer_options (l : list writer_option) (d : dialog) : outcome :=
  match l with
  | [] => Done d None
  | o :: l => match apply_writer_option o d with Done d None => apply_writer_options l d | r => r end
  end.

Definition AudioWriter (opts : list writer_option) (d : dialog) : result writer :=
  if negb (bool_decide (opts = [])) && (bool_decide (mediaSession d = None) || negb (RTPPacketWriter d)) then Returns d (inr ErrNoMediaSetup)
  else match apply_writer_options opts d with
  | Panicked => Panics
  | Done d (Some e) => Returns d (inr e)
  | Done d None => Returns d match getAudioWriter d with Some w => inl w | None => inr ErrNoMediaSetup end
  end.

Definition audioWriterProps (d : dialog) : option (option (MediaProps * writer)) :=
  match mediaSession d with
  | None => Some None
  | Some s => match props_of s with None => None | Some p => Some ((fun w => (p, w)) <$> getAudioWriter d) end
  end.

(** [audioReaderWriterProps]; a reader or writer that is missing is nil. *)
Definition audioReaderWriterProps (d : dialog) : option ((MediaProps * option reader * option writer) + error) :=
  match mediaSession d with
  | None => Some (inr ErrNoMediaSetup)
  | Some s => (fun p => inl (p, getAudioReader d, getAudioWriter d)) <$> props_of s
  end.

(** ** Playback and recording *)

(** [reset]: [ResetTimestamp] of the packet writer. *)
Definition PlaybackCreate {W : Type} (reset : W -> W) (d : dialog) : option ((AudioPlayback W * writer) + error) :=
  (fun r => match r with
            | None => inr ErrNoMediaSetup
            | Some (p, w) => inl (NewAudioPlayback (p_Codec p) <| onPlay := if RTPPacketWriter d then Some reset else None |>, w)
            end) <$> audioWriterProps d.

Definition PlaybackControlCreate {W : Type} (under : writer -> W) (d : dialog) : option ((AudioPlayback (audioControl W) * audioControl W) + error) :=
  (fun r => match r with
            | None => inr ErrNoMediaSetup
            | Some (p, w) => inl (NewAudioPlayback (p_Codec p), {| Writer := under w; muted := false; stop := false |})
            end) <$> audioWriterProps d.

Record AudioRingtone := { encoder : PcmCoding.coder; ringtone : bytes; sampleSize : Z; rt_writer : writer }.
(** [load]: [RingtoneLoadPCM]. *)
Definition PlaybackRingtoneCreate (eu ea : Z -> Z) (load : Codec -> bytes + error) (d : dialog) : option (AudioRingtone + error) :=
  (fun r => match r with
            | None => inr ErrNoMediaSetup
            | Some (p, w) =>
              match load (p_Codec p) with
              | inr e => inr e
              | inl tone =>
                match PcmCoding.PCMEncoder_Init eu ea (p_Codec p) with
                | inr e => inr e
                | inl enc => inl {| encoder := enc; ringtone := tone; sampleSize := Samples16 (p_Codec p); rt_writer := w |}
                end
              end
            end) <$> audioWriterProps d.

(** [AudioStereoRecordingCreate]; [mon]: [Init] of the monitor. *)
Definition AudioStereoRecordingCreate (mon : Codec -> option error) (d : dialog) : option ((reader * writer) + error) :=
  match audioWriterProps d with
  | None => None
  | Some None => Some (inr ErrNoMediaSetup)
  | Some (Some (pw, w)) =>
    (fun r => match r with
              | None => inr ErrNoMediaSetup
              | Some (pr, r) =>
                if bool_decide (p_Codec pr <> p_Codec pw) then inr (ErrNew "codecs of reader and writer need to match for stereo")
                else match mon (p_Codec pw) with Some e => inr e | None => inl (r, w) end
              end) <$> audioReaderProps d
  end.

(** ** Reading *)

Inductive event := Stats (hook : nat) (rtpSession : nat) | Digit (id : nat) (rune : Z).

(** What the packet reader will give, the header it keeps, the buffer read into and
    the callbacks made. *)
Record state := { dlg : dialog; incoming : list ((bytes * rtp_header) + error); PacketHeader : rtp_header; rbuf : bytes; log : list event }.
#[export] Instance eta_state : Eta state := fun s => {| dlg := dlg s; incoming := incoming s; PacketHeader := PacketHeader s; rbuf := rbuf s; log := log s |}.

Section Reading.
(** The callbacks for digits; what a monitor makes of what was read, and of an error;
    the application's own readers. *)
Context (on_digit : nat -> Z -> option error) (monitor : nat -> bytes -> option (nat * error)) (flush : nat -> option error) (own : nat -> state -> state * nat * option error).

(** After a read below that gave [n] bytes: [rtpStatsReader.Read]. *)
Definition stats_after (hook : nat) (s : state) : state := match rtpSession (dlg s) with Some k => s <| log := log s ++ [Stats hook k] |> | None => s end.

(** [DTMFReader.Read] before the read below, [followMedia], and after it; [None] is a
    callback that is nil. *)
Definition put_dtmf (id : nat) (e : dtmf_reader) (s : state) : state := s <| dlg := dlg s <| dtmfReaders := <[id := e]> (dtmfReaders (dlg s)) |> |>.
Definition dtmf_before (e : dtmf_reader) (s : state) : dtmf_reader :=
  {| dtmf := DtmfBridge.reader_followMedia (fun s => active (sess s)) (mediaSession (dlg s)) (dtmf e); onDTMF := onDTMF e; below := below e |}.
Definition dtmf_after (id n : nat) (s : state) : option (state * nat * option error) :=
  e ← dtmfReaders (dlg s) !! id;
  let '(dr, d, ok) := Dtmf.ReadDTMF (Dtmf.Read (PacketHeader s) (rbuf s) (DtmfBridge.dtmfReader (dtmf e))) in
  let s := put_dtmf id {| dtmf := {| DtmfBridge.r_session := DtmfBridge.r_session (dtmf e); DtmfBridge.dtmfReader := dr |}; onDTMF := onDTMF e; below := below e |} s in
  if ok then if onDTMF e then Some (s <| log := log s ++ [Digit id d] |>, n, on_digit id d) else None
  else Some (s, n, None).

(** [MonitorPCMReader.Read] after the read below. *)
Definition monitor_after (id n : nat) (err : option error) (s : state) : state * nat * option error :=
  match err with
  | None => match monitor id (take n (rbuf s)) with Some (n, e) => (s, n, Some e) | None => (s, n, None) end
  | Some e => (s, n, Some match flush id with Some f => ErrJoin e f | None => e end)
  end.

(** [None]: nothing to read yet, or a callback that is nil; and when the bound was
    not enough. *)
Fixpoint read (fuel : nat) (r : reader) (s : state) : option (state * nat * option error) :=
  match fuel with
  | O => None
  | S fuel =>
    match r with
    | PacketReader =>
      match incoming s with
      | [] => None
      | inr e :: l => Some (s <| incoming := l |>, 0%nat, Some e)
      | inl (b, h) :: l => Some (s <| incoming := l |> <| PacketHeader := h |> <| rbuf := b ++ drop (length b) (rbuf s) |>, length b, None)
      end
    | StatsReader below hook =>
      match read fuel below s with
      | Some (s, n, None) => Some (stats_after hook s, n, None)
      | res => res
      end
    | DTMFRead id =>
      e ← dtmfReaders (dlg s) !! id;
      match read fuel (below e) (put_dtmf id (dtmf_before e s) s) with
      | Some (s, n, None) => dtmf_after id n s
      | res => res
      end
    | MonitorReader id =>
      below ← monReaders (dlg s) !! id;
      '(s, n, err) ← read fuel below s; Some (monitor_after id n err s)
    | OwnReader id => Some (own id s)
    end
  end.

End Reading.
End Dialogs.
End AudioPipeline.

(** * The audio of a dialog: theorems

    Whatever interceptors the options put around the reader of a dialog, a read takes
    one packet and returns its payload, across media updates; unless one was put around
    itself. *)
Import GoStrings Codecs AudioPipeline.

Module AudioPipelineProps.

(** ** Pipelines that end at the packets

    [passes d r hooks]: below [r] are interceptors and then the packet reader; [hooks]
    are those of the statistics, the innermost first. *)
Inductive passes (d : dialog) : reader -> list nat -> Prop :=
| passes_packets : passes d PacketReader []
| passes_stats r h hs : passes d r hs -> passes d (StatsReader r h) (hs ++ [h])
| passes_dtmf id e hs : dtmfReaders d !! id = Some e -> passes d (below e) hs -> passes d (DTMFRead id) hs
| passes_monitor id r hs : monReaders d !! id = Some r -> passes d r hs -> passes d (MonitorReader id) hs.

(** The same interceptors, on whatever media. *)
Definition same_pipes (d d' : dialog) : Prop :=
  monReaders d' = monReaders d /\ forall id, (fun e => (below e, onDTMF e)) <$> dtmfReaders d' !! id = (fun e => (below e, onDTMF e)) <$> dtmfReaders d !! id.
(** The same, with callbacks that may have been set since. *)
Definition same_below (d d' : dialog) : Prop := monReaders d' = monReaders d /\ forall id, below <$> dtmfReaders d' !! id = below <$> dtmfReaders d !! id.
(** Every reader of digits was given its callback. *)
Definition callbacks_set (d : dialog) : Prop := map_Forall (fun _ e => onDTMF e = true) (dtmfReaders d).

Lemma same_pipes_lookup d d' id e : same_pipes d d' -> dtmfReaders d !! id = Some e -> exists e', dtmfReaders d' !! id = Some e' /\ below e' = below e /\ onDTMF e' = onDTMF e.
Proof. intros [_ H] He. specialize (H id). rewrite He in H. cbn in H. apply fmap_Some in H as (e' & -> & [= -> ->]). by exists e'. Qed.

Lemma same_pipes_update d d' id e e' : same_pipes d d' -> dtmfReaders d' !! id = Some e -> below e' = below e -> onDTMF e' = onDTMF e ->
  same_pipes d (d' <| dtmfReaders := <[id := e']> (dtmfReaders d') |>).
Proof.
  intros [Hm H] He Hb Ho. split; [exact Hm|]. intros i. cbn. specialize (H i). rewrite <- H. destruct (decide (i = id)) as [->|Hi]; [|by rewrite lookup_insert_ne].
  rewrite lookup_insert_eq, He. cbn. by rewrite Hb, Ho.
Qed.

Definition is_stats (e : event) : bool := match e with Stats _ _ => true | _ => false end.

Section Reads.
Context (sess : nat -> session).
Context (on_digit : nat -> Z -> option error) (monitor : nat -> bytes -> option (nat * error)) (flush : nat -> option error) (own : nat -> state -> state * nat * option error).
Abbreviation read_with := (read sess on_digit monitor flush own).

(** What a read of a pipeline does with the next of the incoming. *)
Definition reads (d : dialog) (hs : list nat) (s : state) (x : (bytes * rtp_header) + error) (l : list ((bytes * rtp_header) + error)) (res : option (state * nat * option error)) : Prop :=
  exists s' n err more, res = Some (s', n, err) /\ incoming s' = l /\ same_pipes d (dlg s') /\ rtpSession (dlg s') = rtpSession (dlg s) /\ mediaSession (dlg s') = mediaSession (dlg s) /\
    log s' = log s ++ more /\
    match x with
    | inr e => n = 0%nat /\ (exists e', err = Some e' /\ (forall t, errors_Is e t = true -> errors_Is e' t = true)) /\ more = []
    | inl (b, h) => rbuf s' = b ++ drop (length b) (rbuf s) /\ PacketHeader s' = h /\
        (err = None -> n = length b /\ List.filter is_stats more = match rtpSession (dlg s) with Some k => (fun h => Stats h k) <$> hs | None => [] end)
    end.

Lemma reads_error d hs s x l s' n e : reads d hs s x l (Some (s', n, Some e)) -> forall hs' e', (forall t, errors_Is e t = true -> errors_Is e' t = true) -> reads d hs' s x l (Some (s', n, Some e')).
Proof.
  intros (s1 & n1 & err & more & [= <- <- <-] & H1 & H2 & H3 & H4 & H5 & H6) hs' e' He. exists s', n, (Some e'), more. repeat (split; [done|]).
  destruct x as [[b h]|er]; [destruct H6 as (? & ? & _); by repeat (split; [done|])|]. destruct H6 as (-> & (e0 & [= <-] & H6) & ->). split; [done|]. split; [|done]. eauto.
Qed.

(** A read that returned data. *)
Lemma reads_data d hs s x l s' n : reads d hs s x l (Some (s', n, None)) -> exists b h more, x = inl (b, h) /\ n = length b /\
  incoming s' = l /\ same_pipes d (dlg s') /\ rtpSession (dlg s') = rtpSession (dlg s) /\ mediaSession (dlg s') = mediaSession (dlg s) /\
  log s' = log s ++ more /\ rbuf s' = b ++ drop (length b) (rbuf s) /\ PacketHeader s' = h /\
  List.filter is_stats more = match rtpSession (dlg s) with Some k => (fun h => Stats h k) <$> hs | None => [] end.
Proof.
  intros (s1 & n1 & err & more & [= <- <- <-] & H1 & H2 & H3 & H4 & H5 & H6). destruct x as [[b h]|er].
  - destruct H6 as (H6 & H7 & H8). destruct (H8 eq_refl) as [-> H9]. by exists b, h, more.
  - by destruct H6 as (_ & (e' & ? & _) & _).
Qed.

Lemma reads_stats d hs s x l s' n h : reads d hs s x l (Some (s', n, None)) -> reads d (hs ++ [h]) s x l (Some (stats_after h s', n, None)).
Proof.
  intros H. destruct (reads_data _ _ _ _ _ _ _ H) as (b & hd & more & -> & -> & H1 & H2 & H3 & H4 & H5 & H6 & H7 & H8). unfold stats_after. rewrite H3. destruct (rtpSession (dlg s)) as [k|] eqn:Ek.
  - exists (s' <| log := log s' ++ [Stats h k] |>), (length b), None, (more ++ [Stats h k]). split; [done|]. split; [done|]. split; [done|]. split; [cbn; congruence|]. split; [done|].
    split; [cbn; by rewrite H5, app_assoc|]. split; [done|]. split; [done|]. intros _. split; [done|]. by rewrite Ek, List.filter_app, H8, fmap_app.
  - exists s', (length b), None, more. split; [done|]. split; [done|]. split; [done|]. split; [congruence|]. split; [done|]. split; [exact H5|]. split; [done|]. split; [done|]. intros _. split; [done|]. by rewrite H8, Ek.
Qed.

Lemma reads_monitor d hs s x l s' n err id : reads d hs s x l (Some (s', n, err)) -> reads d hs s x l (Some (monitor_after monitor flush id n err s')).
Proof.
  intros H. unfold monitor_after. destruct err as [e|].
  - eapply reads_error; [exact H|]. intros t Ht. destruct (flush id); [|done]. cbn. rewrite Ht. by destruct (bool_decide _).
  - destruct (monitor id _) as [[n' e]|]; [|done]. destruct (reads_data _ _ _ _ _ _ _ H) as (b & hd & more & -> & -> & H1 & H2 & H3 & H4 & H5 & H6 & H7 & H8).
    exists s', n', (Some e), more. by repeat (split; [done|]).
Qed.

Lemma reads_dtmf d hs s x l s' n id e : callbacks_set d -> dtmfReaders d !! id = Some e -> reads d hs s x l (Some (s', n, None)) -> reads d hs s x l (dtmf_after on_digit id n s').
Proof.
  intros Hcb He H. destruct (reads_data _ _ _ _ _ _ _ H) as (b & hd & more & -> & -> & H1 & H2 & H3 & H4 & H5 & H6 & H7 & H8).
  destruct (same_pipes_lookup _ _ _ _ H2 He) as (e2 & He2 & Hb2 & Ho2). unfold dtmf_after. rewrite He2. cbn [mbind option_bind]. destruct (Dtmf.ReadDTMF _) as [[dr dg] ok]. rewrite Ho2, (Hcb id e He).
  set (s2 := put_dtmf _ _ _). assert (same_pipes d (dlg s2)) as Hs2 by (eapply same_pipes_update; [exact H2|exact He2|done|by rewrite Ho2, (Hcb id e He)]). destruct ok.
  - exists (s2 <| log := log s2 ++ [Digit id dg] |>), (length b), (on_digit id dg), (more ++ [Digit id dg]). split; [done|]. split; [done|]. split; [exact Hs2|]. split; [done|]. split; [done|].
    split; [cbn; by rewrite H5, app_assoc|]. split; [done|]. split; [done|]. intros _. split; [done|]. by rewrite List.filter_app, H8, app_nil_r.
  - exists s2, (length b), None, more. by repeat (split; [done|]).
Qed.

Lemma reads_from d hs s s1 x l res : rtpSession (dlg s1) = rtpSession (dlg s) -> mediaSession (dlg s1) = mediaSession (dlg s) -> log s1 = log s -> rbuf s1 = rbuf s -> reads d hs s1 x l res -> reads d hs s x l res.
Proof. intros E1 E2 E3 E4 H. unfold reads in *. by rewrite E1, E2, E3, E4 in H. Qed.

Lemma passes_read d r hs : callbacks_set d -> passes d r hs -> exists k, forall fuel s x l, (k <= fuel)%nat -> same_pipes d (dlg s) -> incoming s = x :: l ->
  reads d hs s x l (read_with fuel r s).
Proof.
  intros Hcb HP. induction HP as [|r h hs HP (k & IH)|id e hs He HP (k & IH)|id r hs Hm HP (k & IH)];
    [exists 1%nat|exists (S k)..]; (intros [|fuel] s x l Hf Hs Hi; [lia|]); cbn [AudioPipeline.read].
  - rewrite Hi. destruct x as [[b h]|e].
    + eexists _, _, _, []. split; [reflexivity|]. repeat (split; [done|]). split; [symmetry; apply app_nil_r|]. split; [done|]. split; [done|]. intros _. split; [done|]. cbn. by destruct (rtpSession _).
    + eexists _, _, _, []. split; [reflexivity|]. repeat (split; [done|]). split; [symmetry; apply app_nil_r|]. split; [done|]. split; [by eexists|done].
  - pose proof (IH fuel s x l ltac:(lia) Hs Hi) as H. destruct (read_with fuel r s) as [[[s' n] [e|]]|]; [by eapply reads_error|by apply reads_stats|by destruct H as (? & ? & ? & ? & ? & _)].
  - destruct (same_pipes_lookup _ _ _ _ Hs He) as (e0 & He0 & Hb & Ho). rewrite He0. cbn [mbind option_bind]. rewrite Hb.
    set (s1 := put_dtmf _ _ s). assert (same_pipes d (dlg s1)) as Hs1 by (by eapply same_pipes_update).
    apply (reads_from d hs s s1); [done..|]. pose proof (IH fuel s1 x l ltac:(lia) Hs1 Hi) as H.
    destruct (read_with fuel (below e) s1) as [[[s' n] [er|]]|]; [exact H|by eapply reads_dtmf|exact H].
  - rewrite (proj1 Hs), Hm. cbn [mbind option_bind]. pose proof (IH fuel s x l ltac:(lia) Hs Hi) as H. destruct (read_with fuel r s) as [[[s' n] err]|]; [by apply reads_monitor|by destruct H as (? & ? & ? & ? & ? & _)].
Qed.

(** ** Options *)

Definition option_hooks (o : reader_option) : list nat := match o with WithAudioReaderRTPStats h => [h] | _ => [] end.
(** The readers of digits and the monitors that are used. *)
Definition option_ids (o : reader_option) : list (nat + nat) := match o with WithAudioReaderDTMF id => [inl id] | WithAudioReaderPCMMonitor id => [inr id] | _ => [] end.
Definition unused (d : dialog) (i : nat + nat) : Prop := match i with inl id => dtmfReaders d !! id = None | inr id => monReaders d !! id = None end.

(** Interceptors that were not used are not below. *)
Lemma passes_grows d d' r hs : (forall id e, dtmfReaders d !! id = Some e -> dtmfReaders d' !! id = Some e) -> (forall id e, monReaders d !! id = Some e -> monReaders d' !! id = Some e) ->
  passes d r hs -> passes d' r hs.
Proof.
  intros H1 H2 HP. induction HP as [|r h hs HP IH|i e' hs He HP IH|i r hs Hm HP IH]; [apply passes_packets|by apply passes_stats|apply (passes_dtmf _ i e'); auto|apply (passes_monitor _ i r); auto].
Qed.
Lemma insert_unused {V : Type} (m : gmap nat V) i v : m !! i = None -> forall j w, m !! j = Some w -> <[i := v]> m !! j = Some w.
Proof. intros Hi j w Hj. rewrite lookup_insert_ne; [done|]. intros ->. congruence. Qed.
Lemma passes_same d d' r hs : dtmfReaders d' = dtmfReaders d -> monReaders d' = monReaders d -> passes d r hs -> passes d' r hs.
Proof. intros E1 E2. apply passes_grows; intros id e; by rewrite ?E1, ?E2. Qed.

Lemma option_passes o d d' r hs : apply_reader_option sess o d = Done d' None -> getAudioReader d = Some r -> passes d r hs -> Forall (unused d) (option_ids o) ->
  exists r', getAudioReader d' = Some r' /\ passes d' r' (hs ++ option_hooks o) /\ (forall i, unused d i -> i ∉ option_ids o -> unused d' i).
Proof.
  intros H Hr HP Hid. destruct o as [|rate|hook|id|id]; cbn [apply_reader_option option_hooks option_ids] in *; try rewrite app_nil_r.
  - destruct (mediaSession d); [|done]. destruct (props_of _ _); [|done]. injection H as <-. by exists r.
  - destruct (mediaSession d), (RTPPacketReader d); try done. destruct (jitterBuffer d); [done|]. destruct (audioCodec _ _); [|done]. destruct (_ <=? 0); [done|]. destruct (negb _); [done|]. injection H as <-.
    exists r. split; [done|]. split; [by apply (passes_same d)|done].
  - destruct (rtpSession d); [|done]. rewrite Hr in H. injection H as <-. exists (StatsReader r hook). split; [done|]. split; [|done]. constructor. by apply (passes_same d).
  - apply (proj1 (Forall_singleton _ _)) in Hid. unfold initDTMFReaderUnsafe in H. rewrite Hr in H. destruct (mediaSession d); [|done]. destruct (RTPPacketReader d); [|done]. injection H as <-.
    exists (DTMFRead id). split; [done|]. split.
    + eapply passes_dtmf; [cbn; apply lookup_insert_eq|]. cbn. eapply (passes_grows d); [|intros ? ? He; exact He|exact HP]. by apply insert_unused.
    + intros [i|i] Hi Hn; [|done]. cbn. rewrite lookup_insert_ne; [done|]. intros ->. apply Hn. left.
  - apply (proj1 (Forall_singleton _ _)) in Hid. destruct (mediaSession d ≫= _); [|done]. rewrite Hr in H. destruct (PcmCoding.PCMDecoder_Init _ _ _); [|done]. injection H as <-.
    exists (MonitorReader id). split; [done|]. split.
    + eapply passes_monitor; [cbn; apply lookup_insert_eq|]. eapply (passes_grows d); [intros ? ? He; exact He| |exact HP]. by apply insert_unused.
    + intros [i|i] Hi Hn; [done|]. cbn. rewrite lookup_insert_ne; [done|]. intros ->. apply Hn. left.
Qed.

Lemma options_pass opts d d' r hs : apply_options sess opts d = Done d' None -> getAudioReader d = Some r -> passes d r hs ->
  NoDup (flat_map option_ids opts) -> Forall (unused d) (flat_map option_ids opts) ->
  exists r', getAudioReader d' = Some r' /\ passes d' r' (hs ++ flat_map option_hooks opts).
Proof.
  revert d r hs. induction opts as [|o opts IH]; intros d r hs H Hr HP Hn HF; cbn [apply_options flat_map] in *.
  - injection H as <-. exists r. by rewrite app_nil_r.
  - apply NoDup_app in Hn as (_ & Hd & Hn). apply Forall_app in HF as [HF1 HF2]. destruct (apply_reader_option sess o d) as [|d1 [e|]] eqn:E; [done|done|].
    destruct (option_passes o d d1 r hs E Hr HP HF1) as (r1 & Hr1 & HP1 & HN). rewrite app_assoc. eapply IH; [exact H|exact Hr1|exact HP1|exact Hn|].
    rewrite Forall_forall in *. intros id Hid. apply HN; [by apply HF2|]. intros Hid'. by apply (Hd id Hid' Hid).
Qed.


(** A reader of digits that is used in a second option reads from itself, for ever. *)
Lemma shared_dtmf_reader_loops fuel id e s : dtmfReaders (dlg s) !! id = Some e -> below e = DTMFRead id -> read_with fuel (DTMFRead id) s = None.
Proof.
  revert e s. induction fuel as [|fuel IH]; intros e s He Hb; cbn [AudioPipeline.read]; [done|]. rewrite He. cbn [mbind option_bind]. rewrite Hb.
  rewrite (IH (dtmf_before sess e s)); [done| |done]. cbn. apply lookup_insert_eq.
Qed.

(** So does a monitor. *)
Lemma shared_monitor_loops fuel id s : monReaders (dlg s) !! id = Some (MonitorReader id) -> read_with fuel (MonitorReader id) s = None.
Proof. intros Hm. induction fuel as [|fuel IH]; cbn [AudioPipeline.read]; [done|]. rewrite Hm. cbn [mbind option_bind]. by rewrite IH. Qed.

End Reads.

(** ** A call *)

Definition ex_sess (s : nat) : session :=
  {| filterCodecs := [CodecAudioUlaw; CodecTelephoneEvent8000]; codecs := [CodecAudioUlaw]; active := [CodecAudioUlaw; CodecTelephoneEvent8000]; Laddr := "10.0.0.1:4000"; Raddr := "10.0.0.2:4000" |}.
Definition ex_dialog : dialog :=
  {| mediaSession := Some 1%nat; rtpSession := Some 1%nat; RTPPacketReader := Some true; RTPPacketWriter := true; jitterBuffer := None; onClose := 0;
     audioReader := None; audioWriter := None; dtmfReaders := ∅; dtmfWriters := ∅; monReaders := ∅; monWriters := ∅ |}.
Definition ex_opts : list reader_option := [WithAudioReaderRTPStats 7; WithAudioReaderDTMF 0; WithAudioReaderPCMMonitor 0; WithAudioReaderRTPStats 8].
(** [OnDTMF]. *)
Definition OnDTMF (id : nat) (d : dialog) : dialog := d <| dtmfReaders := alter (fun e => {| dtmf := dtmf e; onDTMF := true; below := below e |}) id (dtmfReaders d) |>.


Lemma shared_reader : exists d' r, AudioReader ex_sess [WithAudioReaderDTMF 0; WithAudioReaderDTMF 0] ex_dialog = Returns reader d' (inl r) /\
  forall fuel s od mon fl own, dlg s = d' -> AudioPipeline.read ex_sess od mon fl own fuel r s = None.
Proof.
  eexists _, _. split; [reflexivity|]. intros fuel s od mon fl own Hd. eapply shared_dtmf_reader_loops; [rewrite Hd; cbn; apply lookup_insert_eq|reflexivity].
Qed.
Lemma shared_monitor : exists d' r, AudioReader ex_sess [WithAudioReaderPCMMonitor 0; WithAudioReaderPCMMonitor 0] ex_dialog = Returns reader d' (inl r) /\
  forall fuel s od mon fl own, dlg s = d' -> AudioPipeline.read ex_sess od mon fl own fuel r s = None.
Proof.
  eexists _, _. split; [reflexivity|]. intros fuel s od mon fl own Hd. apply shared_monitor_loops. rewrite Hd. cbn. apply lookup_insert_eq.
Qed.

End AudioPipelineProps.
