(* ===== verification/Listening.v ===== *)
(** * Listening on a call

    The loops of [dialog_media.go] that read a call for a time, for as long as a
    context lives, or in the background, and the ringtone of [audio_ringtone.go]: each
    is ended by a deadline set on the media, which must not outlive it. The media
    session may be replaced by a media update at any time, its deadlines carried over. *)
From S2P Require Import Prelude GoStrings MediaSession MediaLifecycle TwoParty Playback.
Import GoStrings MediaSession.

Module Listening.

Definition os_ErrDeadlineExceeded : error := TwoParty.os_ErrDeadlineExceeded.
Definition context_Canceled : error := ErrNew "context canceled".
Definition ErrNoMediaSetup : error := ErrNew "no media setup".
(** An error of a read or a write that is a timeout of the network's. *)
Definition Timeout (e : error) : bool := bool_decide (e = os_ErrDeadlineExceeded).

Definition join (e1 e2 : option error) : option error := Playback.httpErr_join e1 e2.

Section Listening.
Context {cert srtp_ctx : Type}.
Abbreviation session := (@MediaSession cert srtp_ctx).

(** The media session of the dialog. *)
Definition dialog : Type := option session.

(** [now], and the error of the socket. *)
Definition StopRTP (rw dur now : Z) (err : option error) (d : dialog) : dialog * option error :=
  match d with
  | None => (d, Some ErrNoMediaSetup)
  | Some s => (Some (MediaLifecycle.StopRTP now rw dur s).1, err)
  end.
Definition StartRTP (rw : Z) (err : option error) (d : dialog) : dialog * option error :=
  match d with
  | None => (d, Some ErrNoMediaSetup)
  | Some s => (Some (MediaLifecycle.StartRTP rw s).1, err)
  end.

(** The error a loop of reads ends with, [None] while it goes on. *)
Fixpoint read_loop (reads : list (option error)) : option error :=
  match reads with
  | [] => None
  | Some e :: _ => Some e
  | None :: reads => read_loop reads
  end.

(** What happens meanwhile: the error of [AudioReader], the reads, the time at which the
    deadline is set, the media updates after that, the errors of the socket. *)
Record env := {
  e_reader : option error;
  e_reads : list (option error);
  e_now : Z;
  e_updates : dialog -> dialog;
  e_stop : option error;
  e_start : option error }.

(** How a call that listens stands: still listening, or returned with an error. *)
Inductive listening := Listens (d : dialog) | Returned (d : dialog) (err : option error).

Definition Listen (e : env) (d : dialog) : listening :=
  match e_reader e with
  | Some err => Returned d (Some err)
  | None => match read_loop (e_reads e) with Some err => Returned (e_updates e d) (Some err) | None => Listens (e_updates e d) end
  end.

Definition ListenUntil (dur : Z) (e : env) (d : dialog) : listening :=
  match e_reader e with
  | Some err => Returned d (Some err)
  | None =>
    match StopRTP 1 dur (e_now e) (e_stop e) d with
    | (d, Some err) => Returned d (Some err)
    | (d, None) =>
      let d := e_updates e d in
      match read_loop (e_reads e) with
      | None => Listens d
      | Some err =>
        let '(d, startErr) := StartRTP 1 (e_start e) d in
        Returned d (match startErr with Some se => if errors_Is err os_ErrDeadlineExceeded then Some (ErrJoin err se) else Some err | None => Some err end)
      end
    end
  end.

(** [ended]: the context ended before the call returned, so that the deadline it sets
    is waited for, after which it is cleared. *)
Definition ListenContext (ended : bool) (e : env) (d : dialog) : listening :=
  match e_reader e with
  | Some err => Returned d (Some err)
  | None =>
    let '(d, stopErr) := if ended then StopRTP 1 0 (e_now e) (e_stop e) d else (d, None) in
    let d := e_updates e d in
    match read_loop (e_reads e) with
    | None => Listens d
    | Some err =>
      let err := if Timeout err then None else Some err in
      if negb ended then Returned d err
      else
        let '(d, startErr) := StartRTP 1 (e_start e) d in
        Returned d (match err with None => join stopErr startErr | Some err => Some err end)
    end
  end.

(** The [stop] that [ListenBackground] returns: it waits for the reads to have ended. *)
Definition ListenBackground_stop (e : env) (d : dialog) : listening :=
  match StopRTP 1 0 (e_now e) (e_stop e) d with
  | (d, Some err) => Returned d (Some err)
  | (d, None) =>
    let d := e_updates e d in
    match read_loop (e_reads e) with
    | None => Listens d
    | Some err =>
      match StartRTP 1 (e_start e) d with
      | (d, Some serr) => Returned d (Some serr)
      | (d, None) => Returned d (if Timeout err then None else Some err)
      end
    end
  end.

(** [readDeadline] of a reader of digits, over one read, and its [Listen]. *)
Definition readDeadline (dur : Z) (e : env) (d : dialog) : option (dialog * option error) :=
  if 0 <? dur then
    match StopRTP 1 dur (e_now e) (e_stop e) d with
    | (d, Some err) => Some (d, Some err)
    | (d, None) =>
      let d := e_updates e d in
      match e_reads e with
      | [] => None
      | err :: _ => let '(d, startErr) := StartRTP 1 (e_start e) d in Some (d, match err with None => startErr | Some err => Some err end)
      end
    end
  else match e_reads e with [] => None | err :: _ => Some (e_updates e d, err) end.
Fixpoint DTMF_Listen (dur : Z) (turns : list env) (d : dialog) : listening :=
  match turns with
  | [] => Listens d
  | e :: turns =>
    match readDeadline dur e d with
    | None => Listens d
    | Some (d, Some err) => Returned d (if errors_Is err os_ErrDeadlineExceeded then None else Some err)
    | Some (d, None) => DTMF_Listen dur turns d
    end
  end.

(** *** Ringtones *)

(** [AudioRingtone.play] over a writer: the tone, then a pause that the context's end
    cuts short. *)
Fixpoint play {W : Type} (Write : W -> bytes -> W * Z * option error) (ringtone : bytes) (sampleSize : nat) (pauses : list bool) (w : W) : W * option error :=
  match Playback.WriteAll Write ringtone sampleSize w with
  | None => (w, None)
  | Some (w, inr e) => (w, Some e)
  | Some (w, inl _) =>
    match pauses with
    | [] => (w, None)
    | true :: _ => (w, Some context_Canceled)
    | false :: pauses => play Write ringtone sampleSize pauses w
    end
  end.

(** [PlayBackground] before it plays, and the [stop] it returns; [playErr] is what the
    playing ended with. *)
Definition PlayBackground (e : env) (d : dialog) : dialog * option error := StartRTP 2 (e_start e) d.
Definition PlayBackground_stop (playErr : option error) (e : env) (d : dialog) : listening :=
  let '(d, stopErr) := StopRTP 2 0 (e_now e) (e_stop e) d in
  let '(d, startErr) := StartRTP 2 (e_start e) (e_updates e d) in
  Returned d match join stopErr startErr with
             | Some err => Some err
             | None =>
               match playErr with
               | Some err => if errors_Is err context_Canceled || Timeout err then None else Some err
               | None => None
               end
             end.

(** ** Deadlines *)

Definition deadlines (d : dialog) : option (Z * Z) := (fun s => (rtpReadDeadline s, rtpWriteDeadline s)) <$> d.
(** Media updates carry the deadlines over, and a call that has media keeps it. *)
Definition carries (u : dialog -> dialog) : Prop := forall d, deadlines (u d) = deadlines d.

Lemma stop_deadlines dur now err d : (StopRTP 1 dur now err d).2 = None -> deadlines (StopRTP 1 dur now err d).1 = (fun '(_, w) => (now + dur, w)) <$> deadlines d.
Proof. by destruct d. Qed.
Lemma start_deadlines err d : deadlines (StartRTP 1 err d).1 = (fun '(_, w) => (time_zero, w)) <$> deadlines d.
Proof. by destruct d. Qed.

Definition cleared (d : dialog) : option (Z * Z) := (fun '(_, w) => (time_zero, w)) <$> deadlines d.

Lemma started_deadlines dur now err err' u d : carries u -> deadlines (StartRTP 1 err' (u (StopRTP 1 dur now err d).1)).1 = cleared d.
Proof. intros Hu. rewrite start_deadlines, Hu. by destruct d as [s|]. Qed.

(** Nothing that listens leaves its deadline behind: once it has returned, whatever
    ended it and through all media updates, the next reader of the call finds no read
    deadline, and the write deadline as it was; except when the socket refused to have
    the deadline set. A call that was never asked to stop keeps the deadlines it had. *)
Theorem listening_clears_deadline e d dur : carries (e_updates e) -> e_stop e = None ->
  (forall d' err, ListenUntil dur e d = Returned d' err -> e_reader e = None -> is_Some d -> deadlines d' = cleared d) /\
  (forall d' err, ListenContext true e d = Returned d' err -> e_reader e = None -> deadlines d' = cleared d) /\
  (forall d' err, ListenContext false e d = Returned d' err -> deadlines d' = deadlines d) /\
  (forall d' err, ListenBackground_stop e d = Returned d' err -> is_Some d -> deadlines d' = cleared d) /\
  (forall d' err, readDeadline dur e d = Some (d', err) -> 0 < dur -> is_Some d -> deadlines d' = cleared d).
Proof.
  intros Hu Hs. repeat split.
  - intros d' err H Hr [s ->]. unfold ListenUntil in H. rewrite Hr, Hs in H. pose proof (started_deadlines dur (e_now e) None (e_start e) _ (Some s) Hu) as HD. cbn [StopRTP fst snd] in *.
    destruct (read_loop _); [|done]. destruct (StartRTP _ _ _) as [d1 se]. injection H as <- _. exact HD.
  - intros d' err H Hr. unfold ListenContext in H. rewrite Hr, Hs in H. pose proof (started_deadlines 0 (e_now e) None (e_start e) _ d Hu) as HD. destruct (StopRTP _ _ _ _ d) as [d0 st]. cbn [fst] in HD.
    destruct (read_loop _); [|done]. cbn [negb] in H. destruct (StartRTP _ _ _) as [d1 se]. injection H as <- _. exact HD.
  - intros d' err H. unfold ListenContext in H. destruct (e_reader e); [by injection H as <- _|]. destruct (read_loop _); [|done]. injection H as <- _. apply Hu.
  - intros d' err H [s ->]. unfold ListenBackground_stop in H. rewrite Hs in H. pose proof (started_deadlines 0 (e_now e) None (e_start e) _ (Some s) Hu) as HD. cbn [StopRTP fst snd] in *.
    destruct (read_loop _); [|done]. destruct (StartRTP _ _ _) as [d1 [se|]]; injection H as <- _; exact HD.
  - intros d' err H Hd [s ->]. unfold readDeadline in H. replace (0 <? dur) with true in H by lia. rewrite Hs in H. pose proof (started_deadlines dur (e_now e) None (e_start e) _ (Some s) Hu) as HD. cbn [StopRTP fst snd] in *.
    destruct (e_reads e); [done|]. destruct (StartRTP _ _ _) as [d1 se]. injection H as <- _. exact HD.
Qed.

(** A ringtone that is stopped, in a ring or between two, leaves no write deadline and
    reports nothing but what else ended it. *)
Theorem ringtone_stops playErr e d : carries (e_updates e) -> e_stop e = None -> e_start e = None -> is_Some d ->
  exists d', PlayBackground_stop playErr e d = Returned d' (playErr ≫= fun err => if errors_Is err context_Canceled || Timeout err then None else Some err) /\
    deadlines d' = (fun '(r, _) => (r, time_zero)) <$> deadlines d.
Proof.
  intros Hu Hs Ht [s ->]. unfold PlayBackground_stop. rewrite Hs, Ht. cbn [StopRTP]. pose proof (Hu (Some (MediaLifecycle.StopRTP (e_now e) 2 0 s).1)) as HD.
  destruct (e_updates e _) as [s'|]; [|done]. cbn [StartRTP join Playback.httpErr_join]. eexists. split; [by destruct playErr|]. cbn in HD. injection HD as HD _. unfold deadlines, MediaLifecycle.StartRTP, MediaLifecycle.setRTPDeadline. change (0 <? Z.land 2 1) with false. change (0 <? Z.land 2 2) with true. cbn. by rewrite HD.
Qed.

End Listening.
End Listening.
