(* ===== verification/OwnReInvite.v ===== *)
(** * Our re-INVITEs

    [ReInvite], [Hold] and [Unhold] of a dialog from the wait for their turn to the
    session they install: [reInviteMedia], [reInviteMediaOnce], [reInviteSend] and
    [ack] of [dialog_client_session.go] and [dialog_server_session.go], which differ
    in what a request carries and in the wait after a 491; and the session refresh of
    [dialog_server_session.go], which acts on what [ReInvite] returns. What is done
    under [mu] are the stretches of [MediaUpdate]; between them the others act, any
    events of [MediaUpdate] that can be taken. *)
From S2P Require Import Prelude GoStrings Sdp Codec MediaSdp MediaSession MediaLifecycle MediaSecurity SessionTimer ReInvite Method MediaUpdate MediaUpdateLaws MediaUpdateInv MediaUpdateSpecs MediaUpdateTheorems.
Import GoStrings SessionTimer Method MediaUpdate.

Module OwnReInvite.
Open Scope method_scope.

Definition errDialogResponse : error := ErrNew "sipgo: dialog response".
Definition ErrDialogInviteNoContact : error := ErrNew "No contact header".
Definition ErrTransactionTimeout : error := ErrNew "transaction timeout".

(** The client generated the Call-ID of the dialog; its requests carry the contact of
    its INVITE. *)
Inductive side := Server | Client (contact : string).
Definition of_server (sd : side) : bool := match sd with Server => true | Client _ => false end.
Definition own_contact (sd : side) : list header := match sd with Server => [] | Client c => [("Contact", c)] end.

(** What leaves the dialog: requests with their target, and the waits drawn between. *)
Inductive out := Invite (target : string) (headers : list header) (body : string) | Ack (target : string) | Bye | Waited (wait : Z).
#[export] Instance out_eq_dec : EqDecision out.
Proof. solve_decision. Defined.

Section OwnReInvite.
Context {S : Type} {uo : UpdateOps S} {msg : Type} `{headerGetter msg}.

Record response := { StatusCode : Z; Contact : option string; Body : string; rs_headers : msg }.

(** [contact]: the address of [remoteContactUnsafe]; [refused]: the response of the
    last [ErrDialogResponse]. *)
Record state := {
  media : @world S;
  contact : string;
  timer : option sessionTimerState;
  refused : option response;
  outs : list out }.
#[export] Instance eta_state : Eta state := fun s =>
  {| media := media s; contact := contact s; timer := timer s; refused := refused s; outs := outs s |}.
Abbreviation method := (M state).

(** What the others do: a step of the media, or what the 2xx to a re-INVITE of the
    peer's does to the remote target and the session timer. *)
Inductive other := Media (ev : @event S uo) | Target (contact : string) | Timer (t : sessionTimerState).

(** A re-INVITE and all that goes with it. [a_turns]: the waits for its turn, with what
    the others do and the error of the context when it ended the wait; [a_Do], [a_ack]:
    what sipgo makes of the request and of its ACK; [a_sending], [a_acked], [a_keying],
    [a_waiting]: what the others do until the answer, after the ACK, during the
    handshake, and during the wait after a 491; [a_hangup]: whether the BYE of a hangup
    ends the dialog, and its error. *)
Record attempt := {
  a_turns : list (list other * option error);
  a_fork : @upd_env S uo;
  a_sending : list other;
  a_Do : response + error;
  a_ack : option error;
  a_acked : list other;
  a_upd : @upd_env S uo;
  a_keying : list other;
  a_keyed : @upd_env S uo;
  a_hangup : bool * option error;
  a_draw : Z;
  a_waiting : list other;
  a_ctx : option error;
  a_giveup : @upd_env S uo }.

(** A stretch under [mu]. *)
Definition update {A} (m : M (dialog S) A) : method A := fun s =>
  let '(d, r) := m (dlg (media s)) in (s <| media := (media s) <| dlg := d |> |>, r).
Definition progress_to (p : progress) (s : state) : state := s <| media := (media s) <| at_ := p |> |>.
Definition put (o : out) : method unit := modify (fun s => s <| outs := outs s ++ [o] |>).

(** While it is our turn neither the steps of our re-INVITE nor a re-INVITE of the peer's
    is the others' to do. A step that cannot be taken does not happen. *)
Definition of_own (ev : @event S uo) : bool :=
  match ev with EOwn _ _ | EOwnFailed _ _ | EOwnPending | EOwnAnswered _ _ _ | EOwnHandshake _ => true | _ => false end.
Definition acts_other (ours : bool) (s : state) (o : other) : state :=
  match o with
  | Media ev => if ours && of_own ev then s else s <| media := default (media s) (step ev (media s)) |>
  | Target c => if ours then s else s <| contact := c |>
  | Timer t => if ours then s else s <| timer := (fun _ => t) <$> timer s |>
  end.
Definition meanwhile (ours : bool) (l : list other) : method unit := modify (fun s => fold_left (acts_other ours) l s).

(** ** Turns *)

Fixpoint beginOwnMediaUpdate (turns : list (list other * option error)) : method unit :=
  let! s := gets id in
  if closed (dlg (media s)) then fail errMediaClosed
  else match at_ (media s), turns with
  | Idle, _ => ret tt
  | _, [] => waits
  | _, (l, ended) :: turns => meanwhile false l ;;; match ended with Some err => fail err | None => beginOwnMediaUpdate turns end
  end.
Definition endMediaUpdate : state -> state := progress_to Idle.

Definition reInviteRetryWait (sd : side) (x : attempt) : method unit :=
  put (Waited (ReInvite.reInviteRetryWait (negb (of_server sd)) (a_draw x))) ;;; meanwhile false (a_waiting x) ;;; check (a_ctx x).

(** ** The request *)

Definition IsPending (r : option response) : bool := match r with Some r => StatusCode r =? ReInvite.StatusRequestPending | None => false end.

(** The ACK goes to the contact of the 2xx. *)
Definition ack (target : string) (err : option error) : method (option error) := put (Ack target) ;;; ret err.

Definition reInviteSend (x : attempt) (target : string) (headers : list header) (body : string) : method (option response * option error) :=
  put (Invite target headers body) ;;; meanwhile true (a_sending x) ;;;
  match a_Do x with
  | inr err => ret (None, Some err)
  | inl res =>
    if negb (ReInvite.IsSuccess (StatusCode res)) then modify (fun s => s <| refused := Some res |>) ;;; ret (Some res, Some errDialogResponse)
    else match Contact res with
    | None => ret (Some res, Some (ErrWrap "reinvite: 2xx without Contact" ErrDialogInviteNoContact))
    | Some target => let! err := ack target (a_ack x) in ret (Some res, err)
    end
  end.

Definition hangupNoMedia (hangup : bool * option error) : method (option error) :=
  put Bye ;;; (if hangup.1 then update (modify (fun d => d <| ended := true |>)) else ret tt) ;;; ret hangup.2.

(** The 2xx [res]: the new remote target, its description and, when it asks for one,
    the handshake, before which [mu] is let go. *)
Definition install (sd : side) (x : attempt) (i : nat) (res : response) : method unit :=
  let! s := gets id in
  (if closed (dlg (media s)) || ended (dlg (media s)) then ret tt
   else modify (fun s => s <| contact := default (contact s) (Contact res) |>)) ;;;
  let! r := update (reInviteMediaOnce_answered (of_server sd) (a_upd x) i (Body res)) in
  match r with
  | inl i =>
    modify (progress_to (OwnHandshaking i)) ;;; meanwhile true (a_keying x) ;;;
    let! ferr := update (FinalizeContext (a_keyed x) i) in
    update (reInviteMediaOnce_keyed (a_keyed x) i ferr)
  | inr _ => ret tt
  end ;;;
  update media_updated.

(** The session timer, which only a dialog of the server's has. *)
Definition timer_of (sd : side) (s : state) : option sessionTimerState := if of_server sd then timer s else None.

(** It returns whether the answer was 491. *)
Definition reInviteMediaOnce (sd : side) (x : attempt) (i : nat) (sdp : string) : method bool :=
  let! s := gets id in
  let '(hdrs, weRefresh) := match timer_of sd s with Some t => requestHeaders t | None => ([], false) end in
  let! r := reInviteSend x (contact s) (own_contact sd ++ [("Content-Type", "application/sdp")] ++ hdrs) sdp in
  if IsPending r.1 then ret true
  else match r with
  | (_, Some err) => update (reInviteMediaOnce_failed (a_upd x) i err) ;;; ret false
  | (None, None) => panic
  | (Some res, None) =>
    modify (fun s => s <| timer := if of_server sd then (fun t => (answered (rs_headers res) weRefresh t).1) <$> timer s else timer s |>) ;;;
    meanwhile true (a_acked x) ;;;
    let! err := try (install sd x i res) in
    match err with
    | None => ret false
    | Some err =>
      if errors_Is err errMediaUpdateAfterAnswer then let! herr := hangupNoMedia (a_hangup x) in fail (join err herr)
      else fail err
    end
  end.

(** [mode]: nothing for [ReInvite], the direction for [Hold] and [Unhold]. *)
Fixpoint reInviteMedia (sd : side) (mode : option string) (l : list attempt) : method unit :=
  match l with
  | [] => waits
  | x :: l =>
    beginOwnMediaUpdate (a_turns x) ;;;
    let! r := update (reInvite_fork (a_fork x) mode) in
    modify (progress_to (Offered r.1)) ;;;
    let! pending := defer endMediaUpdate (reInviteMediaOnce sd x r.1 r.2) in
    if negb pending then ret tt
    else
      modify (fun s => s <| media := (media s) <| waiting := r.1 :: waiting (media s) |> |>) ;;;
      let! err := try (reInviteRetryWait sd x) in
      match err with
      | Some err => let! derr := update (discardForkUnsafe (a_giveup x) r.1) in fail (join err derr)
      | None => reInviteMedia sd mode l
      end
  end.

Definition ReInvite (sd : side) (l : list attempt) : method unit := reInviteMedia sd None l.
Definition Hold (sd : side) (l : list attempt) : method unit := reInviteMedia sd (Some "sendonly") l.
Definition Unhold (sd : side) (l : list attempt) : method unit := reInviteMedia sd (Some "sendrecv") l.

(** ** The session refresh *)

(** The attempts of one [ReInvite], whether the context has ended by then, the BYE of a
    hangup, and the wait for a Retry-After with whether the context ended it. *)
Record refresh_ := {
  f_attempts : list attempt;
  f_ctx : bool;
  f_hangup : bool * option error;
  f_waiting : list other;
  f_stopped : bool }.

Fixpoint refreshSession (l : list refresh_) (retried : bool) : method refreshOutcome :=
  match l with
  | [] => waits
  | x :: l =>
    let! err := try (ReInvite Server (f_attempts x)) in
    match err with
    | None => ret refreshGoesOn
    | Some err =>
      if f_ctx x then ret refreshEnded
      else if errors_Is err errReInviteAnswerWithoutSDP then ret refreshGoesOn
      else if errors_Is err errMediaClosed || errors_Is err errMediaUpdateAfterAnswer then ret refreshEnded
      else
        let! s := gets id in
        let res := if errors_Is err errDialogResponse then refused s else None in
        let status := default 0 (StatusCode <$> res) in
        if (status =? 408) || (status =? 481) || errors_Is err ErrTransactionTimeout then
          let! _ := hangupNoMedia (f_hangup x) in ret refreshEnded
        else if (status =? statusSessionIntervalTooSmall) && negb retried then
          match res ≫= fun r => parseMinSE (rs_headers r) with
          | None => ret refreshStopped
          | Some m => modify (fun s => s <| timer := raiseMinSE (seconds m) <$> timer s |>) ;;; refreshSession l true
          end
        else if ((status =? 500) || (status =? 503)) && negb retried then
          match res ≫= fun r => retryAfter (rs_headers r) with
          | None => ret refreshStopped
          | Some _ => meanwhile false (f_waiting x) ;;; if f_stopped x then ret refreshEnded else refreshSession l true
          end
        else ret refreshStopped
    end
  end.

End OwnReInvite.
End OwnReInvite.

(** * Our re-INVITEs: the theorems

    A call of [ReInvite], [Hold] or [Unhold] runs as steps of [MediaUpdate], so what
    holds of those holds of it; what it sends and what it returns; and that it returns. *)
Import GoStrings Sdp MediaSdp MediaSession SessionTimer Method MediaUpdate OwnReInvite.

Module OwnReInviteProps.
Open Scope method_scope.

Section Props.
Context {S : Type} {uo : UpdateOps S} {msg : Type} `{headerGetter msg}.
Abbreviation state := (@state S msg).
Abbreviation attempt := (@attempt S uo msg).
Implicit Types (s : state) (x : attempt) (w : @world S) (d : dialog S) (sd : side).

(** A step of the media update system. *)
Definition moves w w' : Prop := exists ev : @event S uo, step ev w = Some w'.

Lemma wp_update {A} (m : M (dialog S) A) (Q : res A -> state -> Prop) s :
  Q (m (dlg (media s))).2 (s <| media := (media s) <| dlg := (m (dlg (media s))).1 |> |>) -> wp (update m) Q s.
Proof. unfold wp, update. by destruct (m (dlg (media s))). Qed.

(** ** What the others do *)

Definition ours (p : progress) : Prop := exists i, p = Offered i \/ p = OwnHandshaking i.

Lemma run_in_inv {A} (m : M (dialog S) A) w ok failed w' : run_in m w ok failed = Some w' ->
  exists d, (exists a, w' = ok a (w <| dlg := d |>)) \/ exists e, w' = failed e (w <| dlg := d |>).
Proof. unfold run_in. destruct (m (dlg w)) as [d [a|e| |]]; [|..|done|done]; intros [= <-]; exists d; eauto. Qed.

Lemma step_keeps_turn ev w w' : ours (at_ w) -> of_own ev = false -> step ev w = Some w' -> at_ w' = at_ w.
Proof.
  intros (i & Hi) Ho. destruct Hi as [Hi|Hi]; destruct ev; try done; cbn [step]; rewrite ?Hi; try done; try (destruct (acking w); [|done]); try (destruct (acking w); [done|]);
    try case_bool_decide; try done; try (intros Hr; apply run_in_inv in Hr as (d & [(a & ->)|(err & ->)]); exact Hi); by intros [= <-].
Qed.

Lemma step_waiting ev w w' i : step ev w = Some w' -> i ∈ waiting w -> i ∈ waiting w'.
Proof.
  assert (forall w1 : @world S, waiting w1 = waiting w -> i ∈ waiting w -> i ∈ waiting w1) as Hsame by (by intros w1 ->).
  destruct ev; cbn [step]; destruct (at_ w); try done; try (destruct (acking w); [|done]); try (destruct (acking w); [done|]); try (destruct (ended (dlg w)); [done|]); try (destruct (closed (dlg w)); [done|]);
    try (destruct (negb _); [done|]); repeat case_bool_decide; try done; try (destruct sent);
    try (intros Hr; apply run_in_inv in Hr as (d & [(a & ->)|(er & ->)]); by apply Hsame); try (intros [= <-]; by apply Hsame).
  all: intros [= <-] Hi; cbn; by apply elem_of_cons; right.
Qed.

(** The others have acted and nothing was sent. *)
Definition idled (our : bool) s s' : Prop :=
  rtc moves (media s) (media s') /\ outs s' = outs s /\ (forall i, i ∈ waiting (media s) -> i ∈ waiting (media s')) /\
  (our = true -> contact s' = contact s /\ timer s' = timer s /\ (ours (at_ (media s)) -> at_ (media s') = at_ (media s))).
Lemma idled_refl our s : idled our s s.
Proof. by split_and!. Qed.
Lemma idled_trans our s1 s2 s3 : idled our s1 s2 -> idled our s2 s3 -> idled our s1 s3.
Proof.
  intros (R1 & O1 & W1 & K1) (R2 & O2 & W2 & K2). split; [by eapply rtc_trans|]. split; [congruence|]. split; [auto|]. intros Ho. destruct (K1 Ho) as (C1 & T1 & A1), (K2 Ho) as (C2 & T2 & A2).
  split_and!; [congruence..|]. intros Hu. rewrite A2, A1; [done|exact Hu|by rewrite A1].
Qed.
Lemma other_idled our s o : idled our s (acts_other our s o).
Proof.
  destruct o as [ev|c|t]; cbn [acts_other]; [|by destruct our; split_and!..]. destruct (our && of_own ev) eqn:Eo; [apply idled_refl|].
  destruct (step ev (media s)) as [w|] eqn:Hst; cbn [default]; [|by split_and!]. split; [apply rtc_once; by exists ev|]. split; [done|]. split; [by intros i; apply (step_waiting ev)|]. intros ->. split_and!; [done..|].
  intros Hu. by apply (step_keeps_turn ev).
Qed.
Lemma meanwhile_spec our l (Q : res unit -> state -> Prop) s : (forall s', idled our s s' -> Q (Return tt) s') -> wp (meanwhile our l) Q s.
Proof.
  intros HQ. apply wp_modify, HQ. clear HQ Q. revert s. induction l as [|o l IH]; intros s; cbn [fold_left]; [apply idled_refl|]. eapply idled_trans; [apply other_idled|apply IH].
Qed.

(** ** What a stretch that succeeds has done *)

Ltac wp_auto := repeat first [progress wp_step | match goal with |- wp (match ?x with _ => _ end) _ _ => destruct x end | match goal with |- wp (if ?x then _ else _) _ _ => destruct x end].
Lemma wp_any {A} (m : M (dialog S) A) (P : res A -> dialog S -> Prop) d : (forall r d', P r d') -> wp m P d.
Proof. intros HP. apply HP. Qed.
Lemma wp_after {A B} (m : M (dialog S) A) (f : A -> M (dialog S) B) (P : res B -> dialog S -> Prop) d :
  (forall a d', wp (f a) P d') -> (forall r d', (forall b, r <> Return b) -> P r d') -> wp (bind m f) P d.
Proof. intros Hf HP. apply wp_bind, wp_any. intros [a|e| |] d'; [apply Hf|..]; by apply HP. Qed.

Definition succeeded (i : nat) (r : res unit) d : Prop := r = Return tt -> mediaSession d = Some i.
Lemma succeeded_not i r d : (forall b, r <> Return b) -> succeeded i r d.
Proof. intros Hr E. by destruct (Hr tt). Qed.

Lemma replaceRTPSessionUnsafe_installs e i d : wp (replaceRTPSessionUnsafe e i) (succeeded i) d.
Proof.
  unfold replaceRTPSessionUnsafe. wp_step. wp_step. wp_step. cbn [id]. destruct (closed _); [by wp_step|]. destruct (rtpSession _); [|by wp_step].
  wp_step. wp_step. wp_step. apply wp_after; [intros _ d1|apply succeeded_not]. destruct (u_monitor e) as [err|]; [by wp_step|].
  apply wp_after; [intros _ d2|apply succeeded_not]. apply wp_after; [intros _ d3|apply succeeded_not]. destruct (mediaSession d) as [o|]; [|by wp_step].
  apply wp_after; [intros old d4|apply succeeded_not]. apply wp_after; [intros si d5|apply succeeded_not]. wp_step. wp_step. wp_step. set (d6 := d5 <| iceAgentOwner := _ |> <| mediaSession := _ |> <| rtpSession := _ |>).
  assert (mediaSession d6 = Some i) as H6 by done. clearbody d6. wp_step. eapply (wp_mono _ (fun _ d => mediaSession d = Some i)).
  { destruct (Nat.eqb o i); [by wp_step|]. destruct (uo_CarryRTPDeadlines _ _ _) as [s1 err]. unfold save. wp_steps. by destruct (ErrWrap _ <$> err). }
  intros [[]|err| |] d7 H7; wp_step; [|done..]. cbv beta in H7. wp_step. wp_step. wp_step. destruct (_ && _); [|wp_step; by intros _]. wp_step. wp_step. eapply (wp_mono _ (fun _ d => mediaSession d = Some i)).
  { unfold close_session. wp_step. unfold load. wp_step. wp_step. wp_step. cbn [id]. destruct (store d7 !! o); [|by wp_step]. unfold save, did. wp_steps. by destruct (u_close e). }
  intros [[]|err| |] d8 H8; wp_steps; [by intros _|done..].
Qed.

(** The fork [i], as it is in [d], takes the 2xx's description as an answer. *)
Definition takes x i (body : string) d : Prop := exists t : S, store d !! i = Some t /\ (uo_RemoteSDP (u_env (a_upd x)) body (uo_answers true t)).2 = MediaSession.Ok.
(** It took it on the way from [w] to [w']. *)
Definition took x i (body : string) (w w' : world) : Prop := exists v, rtc moves w v /\ takes x i body (dlg v) /\ rtc moves v w'.
Lemma took_from x i body u w w' : rtc moves u w -> took x i body w w' -> took x i body u w'.
Proof. intros Hu (v & Hv & Ht & Hw). exists v. split; [by etrans|done]. Qed.

Lemma failed_fails e i err d : wp (reInviteMediaOnce_failed e i err) (fun r _ => forall b, r <> Return b) d.
Proof. unfold reInviteMediaOnce_failed. apply wp_after; [intros derr d'; by wp_step|by intros]. Qed.

Lemma answered_takes sv x i body d : wp (reInviteMediaOnce_answered sv (a_upd x) i body) (fun r d' =>
  forall o, r = Return o -> closed d || ended d = false /\ takes x i body d /\ match o with inl j => j = i | inr _ => mediaSession d' = Some i end) d.
Proof.
  unfold reInviteMediaOnce_answered. wp_step. wp_step. wp_step. cbn [id].
  set (P := fun (r : res (nat + unit)) d' => forall o, r = Return o -> closed d || ended d = false /\ takes x i body d /\ match o with inl j => j = i | inr _ => mediaSession d' = Some i end).
  assert (forall err d1, wp (reInviteMediaOnce_failed (a_upd x) i err) (next (fun _ => ret (inr tt)) P) d1) as Hfail.
  { intros err d1. eapply wp_mono; [apply failed_fails|]. intros [b|e| |] d2 Hr; wp_step; try done. by destruct (Hr b). }
  destruct (closed d || ended d) eqn:Ece; [wp_step; apply Hfail|]. destruct (sv && _); [wp_step; apply Hfail|].
  unfold load. wp_step. wp_step. wp_step. wp_step. cbn [id]. destruct (store d !! i) as [t|] eqn:Et; [|by wp_step]. wp_step. wp_step. unfold save at 1. wp_step. wp_step. wp_step.
  pose proof (lookup_lt_Some _ _ _ Et) as Hlt. unfold RemoteSDP, load. wp_step. wp_step. wp_step. wp_step. wp_step. cbn [id store field_update eta_dialog]. rewrite list_lookup_insert_eq by done. wp_step. cbv beta iota.
  destruct (uo_RemoteSDP (u_env (a_upd x)) body (uo_answers true t)) as [t' o] eqn:ER. wp_step. unfold save. wp_step. wp_step.
  destruct o as [|err|]; wp_steps; [|apply Hfail|done]. assert (takes x i body d) as Htook by (exists t; by rewrite ER).
  apply wp_any. intros [pending|e| |] d3; wp_step; try done. destruct pending; [wp_steps; by intros o [= <-]|].
  wp_step. unfold replace_or_discard. wp_step. wp_step. eapply wp_mono; [apply replaceRTPSessionUnsafe_installs|]. intros [[]|err| |] d4 H4; wp_steps; [|..|done|done].
  - intros o [= <-]. split_and!; [done..|by apply H4].
  - apply wp_any. intros [derr|e| |] d5; by wp_steps.
Qed.

Lemma keyed_installs e i ferr d : wp (reInviteMediaOnce_keyed e i ferr) (succeeded i) d.
Proof.
  unfold reInviteMediaOnce_keyed, finalizeAndReplaceUnsafe_keyed. wp_step. wp_step. wp_step. wp_step. wp_step. wp_step. wp_step. wp_step. wp_step. wp_step.
  set (Q := fun (r : res unit) d' => succeeded i r d'). eapply (wp_mono _ Q).
  { destruct ferr; [by wp_step|]. destruct (closed _ || ended _); [by wp_step|]. apply replaceRTPSessionUnsafe_installs. }
  subst Q. intros [[]|err| |] d1 H1; wp_steps; [by intros _; apply H1| |done..].
  apply wp_any. intros r d'. wp_steps. destruct r; wp_steps; try done; by destruct (errors_Is _ _).
Qed.

(** ** The steps of one re-INVITE *)

Lemma media_updated_run d : exists l, media_updated d = (d <| acts := acts d ++ l |>, Return tt) /\ l = match mediaSession d with Some i => [AUpdated i] | None => [] end.
Proof.
  unfold media_updated, bind, gets. destruct (mediaSession d) as [i|] eqn:E; [by eexists|]. exists []. split; [|done]. rewrite app_nil_r. by destruct d.
Qed.

Definition at_rest w d : world := w <| dlg := d |> <| at_ := Idle |>.

Lemma step_offered e mode w d i body : at_ w = Idle -> closed (dlg w) = false -> reInvite_fork e mode (dlg w) = (d, Return (i, body)) ->
  forall w', w' = (w <| dlg := d |> <| at_ := Offered i |>) -> moves w w'.
Proof. intros Ha Hc E w' ->. exists (EOwn e mode). unfold step. rewrite Ha, Hc. unfold run_in. by rewrite E. Qed.
Lemma step_not_offered e mode w d err : at_ w = Idle -> closed (dlg w) = false -> reInvite_fork e mode (dlg w) = (d, Fail err) -> forall w', w' = at_rest w d -> moves w w'.
Proof. intros Ha Hc E w' ->. exists (EOwn e mode). unfold step. rewrite Ha, Hc. unfold run_in. by rewrite E. Qed.
Lemma step_failed e w i err d err' : at_ w = Offered i -> reInviteMediaOnce_failed e i err (dlg w) = (d, Fail err') -> forall w', w' = at_rest w d -> moves w w'.
Proof. intros Ha E w' ->. exists (EOwnFailed e err). unfold step. rewrite Ha. unfold run_in. by rewrite E. Qed.
Lemma step_to_key e sv w i body d j : at_ w = Offered i -> reInviteMediaOnce_answered sv e i body (dlg w) = (d, Return (inl j)) ->
  forall w', w' = (w <| dlg := d |> <| at_ := OwnHandshaking j |>) -> moves w w'.
Proof. intros Ha E w' ->. exists (EOwnAnswered e sv body). unfold step. rewrite Ha. unfold run_in, bind. by rewrite E. Qed.
Lemma step_answered e sv w i body d u l : at_ w = Offered i -> reInviteMediaOnce_answered sv e i body (dlg w) = (d, Return (inr u)) ->
  media_updated d = (d <| acts := l |>, Return tt) -> forall w', w' = at_rest w (d <| acts := l |>) -> moves w w'.
Proof. intros Ha E El w' ->. exists (EOwnAnswered e sv body). unfold step. rewrite Ha. unfold run_in, bind at 1. rewrite E. unfold bind. by rewrite El. Qed.
Lemma step_not_answered e sv w i body d err : at_ w = Offered i -> reInviteMediaOnce_answered sv e i body (dlg w) = (d, Fail err) -> forall w', w' = at_rest w d -> moves w w'.
Proof. intros Ha E w' ->. exists (EOwnAnswered e sv body). unfold step. rewrite Ha. unfold run_in, bind. by rewrite E. Qed.
Lemma step_keyed e w i ferr d1 d u l : at_ w = OwnHandshaking i -> FinalizeContext e i (dlg w) = (d1, Return ferr) -> reInviteMediaOnce_keyed e i ferr d1 = (d, Return u) ->
  media_updated d = (d <| acts := l |>, Return tt) -> forall w', w' = at_rest w (d <| acts := l |>) -> moves w w'.
Proof. intros Ha EF E El w' ->. exists (EOwnHandshake e). unfold step. rewrite Ha. unfold run_in, bind at 1. rewrite EF. unfold bind. by rewrite E, El. Qed.
Lemma step_not_keyed e w i ferr d1 d err : at_ w = OwnHandshaking i -> FinalizeContext e i (dlg w) = (d1, Return ferr) -> reInviteMediaOnce_keyed e i ferr d1 = (d, Fail err) ->
  forall w', w' = at_rest w d -> moves w w'.
Proof. intros Ha EF E w' ->. exists (EOwnHandshake e). unfold step. rewrite Ha. unfold run_in, bind at 1. rewrite EF. unfold bind. by rewrite E. Qed.

(** A method ends: it returns or fails. *)
Definition ended_with {A} (r : res A) : Prop := match r with Return _ | Fail _ => True | _ => False end.

(** The fork [i] is the session of the call, told to the hooks, and the target of the
    2xx the remote target. *)
Definition in_place (i : nat) (target : string) s : Prop :=
  mediaSession (dlg (media s)) = Some i /\ last (acts (dlg (media s))) = Some (AUpdated i) /\ contact s = target.

Lemma install_spec sd x i res target s : Contact res = Some target -> at_ (media s) = Offered i ->
  wp (install sd x i res) (fun r s' => ended_with r -> rtc moves (media s) (media (endMediaUpdate s')) /\ outs s' = outs s /\
    (r = Return tt -> takes x i (Body res) (dlg (media s)) /\ in_place i target s')) s.
Proof.
  intros Ht Hat. unfold install. wp_step. wp_step. wp_step. cbn [id]. set (b := closed (dlg (media s)) || ended (dlg (media s))).
  wp_step. set (s1 := if b then s else s <| contact := default (contact s) (Contact res) |>).
  assert (media s1 = media s /\ outs s1 = outs s /\ (b = false -> contact s1 = target)) as (M1 & O1 & C1) by (unfold s1; destruct b; split_and!; try done; intros _; cbn; by rewrite Ht).
  assert (wp (if b then ret tt else modify (fun s => s <| contact := default (contact s) (Contact res) |>)) (fun r s' => r = Return tt /\ s' = s1) s) as Hw by (unfold s1; destruct b; by wp_step).
  eapply wp_mono; [exact Hw|]. intros r s' [-> ->]. clear Hw. wp_step. wp_step. apply wp_update. rewrite M1.
  pose proof (answered_takes (of_server sd) x i (Body res) (dlg (media s))) as HA. unfold wp in HA.
  destruct (reInviteMediaOnce_answered (of_server sd) (a_upd x) i (Body res) (dlg (media s))) as [d [[j|u]|err| |]] eqn:EA; cbn [fst snd] in HA |- *; wp_steps; [| | |by intros []..].
  - destruct (HA _ eq_refl) as (Hb & Htook & ->). set (s2 := progress_to _ _). assert (moves (media s) (media s2)) as HM by (eapply step_to_key; [exact Hat|exact EA|reflexivity]).
    assert (at_ (media s2) = OwnHandshaking i) as Hat2 by done. assert (outs s2 = outs s /\ contact s2 = target) as [O2 C2] by (split; [done|by apply C1]). clearbody s2.
    apply meanwhile_spec. intros s3 Hi. destruct Hi as (R3 & O3 & _ & A3). destruct (A3 eq_refl) as (C3 & _ & A3'). specialize (A3' ltac:(exists i; by right)). wp_steps. apply wp_update.
    destruct (FinalizeContext (a_keyed x) i (dlg (media s3))) as [d1 [ferr|e| |]] eqn:EF; cbn [fst snd]; wp_steps; [|by destruct (MediaUpdateSpecs.FinalizeContext_returns (a_keyed x) i (dlg (media s3)) e); rewrite EF|by intros []..].
    apply wp_update. cbn. pose proof (keyed_installs (a_keyed x) i ferr d1) as HK. unfold wp in HK.
    destruct (reInviteMediaOnce_keyed (a_keyed x) i ferr d1) as [d2 [[]|err| |]] eqn:EK; cbn [fst snd] in HK |- *; wp_steps; [| |by intros []..].
    + apply wp_update. destruct (media_updated_run d2) as (l & El & ->). match goal with |- context [media_updated ?x] => change x with d2 end. rewrite El. cbn [fst snd]. specialize (HK eq_refl). intros _. split_and!; [|change (outs s3 = outs s); congruence|].
      * eapply rtc_l; [exact HM|]. eapply rtc_trans; [exact R3|]. apply rtc_once. eapply (step_keyed _ _ i); [by rewrite A3'|exact EF|exact EK|exact El|reflexivity].
      * intros _. split; [exact Htook|]. rewrite HK in *. split_and!; [done|cbn; by rewrite last_snoc|change (contact s3 = target); congruence].
    + intros _. split_and!; [|change (outs s3 = outs s); congruence|done]. eapply rtc_l; [exact HM|]. eapply rtc_trans; [exact R3|]. apply rtc_once. eapply (step_not_keyed _ _ i); [by rewrite A3'|exact EF|exact EK|reflexivity].
  - destruct (HA _ eq_refl) as (Hb & Htook & Hm). apply wp_update. destruct (media_updated_run d) as (l & El & ->). match goal with |- context [media_updated ?x] => change x with d end. rewrite El. cbn [fst snd]. intros _. split_and!; [|done|].
    + apply rtc_once. eapply step_answered; [exact Hat|exact EA|exact El|reflexivity].
    + intros _. split; [exact Htook|]. rewrite Hm. split_and!; [done|cbn; by rewrite last_snoc|by apply C1].
  - intros _. split_and!; [|done|done]. apply rtc_once. eapply step_not_answered; [exact Hat|exact EA|reflexivity].
Qed.

(** ** What is sent *)

(** The final response of an attempt: pending; a 2xx with a target for the ACK. *)
Definition pending x : bool := IsPending (match a_Do x with inl r => Some r | inr _ => None end).
Definition accepted x : option (response * string) :=
  match a_Do x with inl r => if ReInvite.IsSuccess (StatusCode r) then (fun c => (r, c)) <$> Contact r else None | inr _ => None end.

(** A re-INVITE of ours; it has the headers of the timer when there is one. *)
Definition offers sd (o : out) : Prop := exists c (t : option sessionTimerState) b, (of_server sd = false -> t = None) /\
  o = Invite c (own_contact sd ++ [("Content-Type", "application/sdp")] ++ match t with Some t => (requestHeaders t).1 | None => [] end) b.

Inductive exchange sd x : list out -> res bool -> Prop :=
| refused_pending o : offers sd o -> pending x = true -> exchange sd x [o] (Return true)
| not_accepted o err : offers sd o -> pending x = false -> accepted x = None -> exchange sd x [o] (Fail err)
| not_acked o r c e err : offers sd o -> accepted x = Some (r, c) -> a_ack x = Some e -> exchange sd x [o; Ack c] (Fail err)
| installed o r c : offers sd o -> accepted x = Some (r, c) -> a_ack x = None -> exchange sd x [o; Ack c] (Return false)
| kept_session o r c err : offers sd o -> accepted x = Some (r, c) -> a_ack x = None -> errors_Is err errMediaUpdateAfterAnswer = false -> exchange sd x [o; Ack c] (Fail err)
| hung_up o r c err : offers sd o -> accepted x = Some (r, c) -> a_ack x = None -> errors_Is err errMediaUpdateAfterAnswer = true -> exchange sd x [o; Ack c; Bye] (Fail err).

Lemma errors_Is_join e o t : errors_Is e t = true -> errors_Is (join e o) t = true.
Proof. intros He. destruct o as [e2|]; cbn [join errors_Is]; [|done]. rewrite He. by rewrite orb_true_r. Qed.

Definition sent_by sd x i s s' (r : res bool) : Prop :=
  exists l, outs s' = outs s ++ l /\ exchange sd x l r /\
    match r with Return true => rtc moves (media s) (media s') /\ at_ (media s') = Offered i | _ => rtc moves (media s) (media (endMediaUpdate s')) end /\
    (r = Return false -> exists q c, accepted x = Some (q, c) /\ took x i (Body q) (media s) (media (endMediaUpdate s')) /\ in_place i c s').

(** The response and the error of [reInviteSend], and what was sent. *)
Inductive sends x (o : out) : option response -> option error -> list out -> Prop :=
| sends_error err : a_Do x = inr err -> sends x o None (Some err) [o]
| sends_refused r : a_Do x = inl r -> accepted x = None -> sends x o (Some r) (Some errDialogResponse) [o]
| sends_without r err : a_Do x = inl r -> accepted x = None -> pending x = false -> sends x o (Some r) (Some err) [o]
| sends_accepted r c : a_Do x = inl r -> accepted x = Some (r, c) -> pending x = false -> sends x o (Some r) (a_ack x) [o; Ack c].

Lemma success_not_pending r : ReInvite.IsSuccess (StatusCode r) = true -> IsPending (Some (r : @response msg)) = false.
Proof. unfold ReInvite.IsSuccess, IsPending, ReInvite.StatusRequestPending. rewrite andb_true_iff, !Z.leb_le. intros [_ ?]. apply Z.eqb_neq. lia. Qed.

Lemma reInviteSend_spec x c hs b i s : at_ (media s) = Offered i ->
  wp (reInviteSend x c hs b) (fun r s' => exists q err l, r = Return (q, err) /\ sends x (Invite c hs b) q err l /\ outs s' = outs s ++ l /\
    rtc moves (media s) (media s') /\ at_ (media s') = Offered i) s.
Proof.
  intros Hat. unfold reInviteSend, put. wp_step. wp_step. wp_step. wp_step. apply meanwhile_spec. intros s1 (R1 & O1 & _ & K1). destruct (K1 eq_refl) as (_ & _ & A1). cbn in O1, R1, A1. rewrite Hat in A1.
  specialize (A1 ltac:(exists i; by left)). wp_step. destruct (a_Do x) as [r|err] eqn:ED; [|wp_step; eexists _, _, _; split; [done|]; split; [by apply sends_error|done]].
  destruct (ReInvite.IsSuccess (StatusCode r)) eqn:Es; cbn [negb].
  2: { wp_steps. eexists _, _, _. split; [done|]. split; [|done]. apply sends_refused; [done|]. unfold accepted. by rewrite ED, Es. }
  pose proof (success_not_pending _ Es) as Hp. destruct (Contact r) as [t|] eqn:Et.
  - unfold ack, put. wp_steps. eexists _, _, _. split; [done|]. split; [eapply sends_accepted; [done|by unfold accepted; rewrite ED, Es, Et|by unfold pending; rewrite ED]|].
    split; [|done]. cbn. rewrite O1. by rewrite <- app_assoc.
  - wp_step. eexists _, _, _. split; [done|]. split; [|done]. apply sends_without; [done|by unfold accepted; rewrite ED, Es, Et|by unfold pending; rewrite ED].
Qed.

Lemma reInviteMediaOnce_spec sd x i body s : at_ (media s) = Offered i ->
  wp (reInviteMediaOnce sd x i body) (fun r s' => ended_with r -> sent_by sd x i s s' r) s.
Proof.
  intros Hat. unfold reInviteMediaOnce. wp_step. wp_step. wp_step. cbn [id]. destruct (match timer_of sd s with Some t => requestHeaders t | None => ([], false) end) as [hdrs we] eqn:Eh.
  wp_step. wp_call reInviteSend_spec; [exact Hat|]. intros r s1 (q & err & l & -> & Hs & O1 & R1 & A1). wp_step. cbn [fst].
  set (o := Invite _ _ _) in Hs. assert (offers sd o) as Ho by (exists (contact s), (timer_of sd s), body; split; [unfold timer_of; by intros ->|]; unfold o; do 3 f_equal; by destruct (timer_of sd s); [rewrite Eh|injection Eh as <- _]). clearbody o.
  assert (pending x = IsPending q) as Hp by (unfold pending; destruct Hs as [e ED|r ED|r e ED|r c ED]; by rewrite ED). destruct (IsPending q) eqn:Ep.
  { wp_step. intros _. exists l. split; [done|]. assert (l = [o]) as -> by (destruct Hs; congruence). split; [by apply refused_pending|]. done. }
  destruct err as [err|].
  { assert (forall A (m : A), match q with Some _ | _ => m end = m) as -> by (by destruct q). wp_step. apply wp_update. pose proof (failed_fails (a_upd x) i err (dlg (media s1))) as HF. unfold wp in HF. destruct (reInviteMediaOnce_failed (a_upd x) i err (dlg (media s1))) as [d [[]|e| |]] eqn:EF; cbn [fst snd] in HF |- *;
      [by destruct (HF tt)| |wp_step; by intros []..]. wp_step. intros _. exists l. split; [exact O1|]. split.
    - inversion Hs; subst; [by apply not_accepted; [..|unfold accepted; match goal with E : a_Do x = _ |- _ => rewrite E end]|by apply not_accepted..|]. by eapply not_acked.
    - split; [|done]. eapply rtc_r; [exact R1|]. eapply step_failed; [exact A1|exact EF|reflexivity]. }
  inversion Hs as [| | |r c ED Ha Hnp Eq Ee El]; subst q l. clear Hs. wp_step. wp_step. wp_step. wp_step. apply meanwhile_spec. cbn. intros s2 (R2 & O2 & _ & K2). destruct (K2 eq_refl) as (_ & _ & A2). cbn in O2, R2, A2.
  specialize (A2 ltac:(rewrite A1; exists i; by left)). rewrite A1 in A2. wp_step. wp_step.
  assert (Contact r = Some c) as Hc by (unfold accepted in Ha; rewrite ED in Ha; destruct (ReInvite.IsSuccess _); [|done]; destruct (Contact r); cbn in Ha; congruence).
  wp_call install_spec; [exact Hc|exact A2|]. intros [[]|e| |] s3 H3; wp_step; try (by intros []); destruct (H3 I) as (R3 & O3 & H3').
  - destruct (H3' eq_refl) as [Ht Hi]. wp_step. intros _. exists [o; Ack c]. split; [congruence|]. split; [by eapply installed|].
    assert (rtc moves (media s) (media s2)) as R by (by eapply rtc_trans). split; [by eapply rtc_trans|]. intros _. exists r, c. split; [exact Ha|]. split; [by exists (media s2)|exact Hi].
  - destruct (errors_Is e errMediaUpdateAfterAnswer) eqn:Ei.
    + unfold hangupNoMedia, put. wp_step. wp_step. wp_step. wp_step. wp_step. set (s4 := s3 <| outs := _ |>). assert (outs s4 = outs s ++ [o; Ack c; Bye]) as O4 by (unfold s4; cbn; rewrite O3, O2, O1; by rewrite <- app_assoc).
      assert (rtc moves (media s) (media (endMediaUpdate s4))) as R4 by (eapply rtc_trans; [exact R1|]; by eapply rtc_trans). clearbody s4.
      eapply (wp_mono _ (fun r s' => r = Return tt /\ outs s' = outs s4 /\ rtc moves (media s) (media (endMediaUpdate s')))).
      { destruct (a_hangup x).1; [apply wp_update|by wp_step]. split; [done|]. split; [done|]. eapply rtc_r; [exact R4|]. by exists EEnd. }
      intros r' s5 (-> & O5 & R5). wp_steps. intros _. exists [o; Ack c; Bye]. split; [congruence|]. split; [eapply hung_up; try done; by apply errors_Is_join|]. done.
    + wp_step. intros _. exists [o; Ack c]. split; [congruence|]. split; [by eapply kept_session|]. split; [|done]. eapply rtc_trans; [exact R1|]. by eapply rtc_trans.
Qed.

(** ** The whole call *)

(** The waits RFC 3261 section 14.1 gives, for who generated the Call-ID and who did not. *)
Definition retry_wait sd (d : Z) : Prop :=
  match sd with Client _ => 2100 * Millisecond <= d <= 4 * Second | Server => 0 <= d <= 2 * Second end.
Definition drawn sd x : Prop := 0 <= a_draw x < ReInvite.retry_draws (negb (of_server sd)).
Lemma drawn_wait sd x : drawn sd x -> retry_wait sd (ReInvite.reInviteRetryWait (negb (of_server sd)) (a_draw x)).
Proof. unfold drawn, retry_wait, ReInvite.reInviteRetryWait, ReInvite.retry_draws. unfold Second, Millisecond. destruct sd; cbn [of_server negb]; intros ?; rewrite i64_small; lia. Qed.

Inductive exchanges sd : list attempt -> list out -> res unit -> Prop :=
| no_turn l err : exchanges sd l [] (Fail err)
| settled_ x l o : exchange sd x o (Return false) -> exchanges sd (x :: l) o (Return tt)
| failed_ x l o err : exchange sd x o (Fail err) -> exchanges sd (x :: l) o (Fail err)
| given_up x l o (d : Z) e err : exchange sd x o (Return true) -> retry_wait sd d -> a_ctx x = Some e -> exchanges sd (x :: l) (o ++ [Waited d]) (Fail err)
| retried x l o (d : Z) os r : exchange sd x o (Return true) -> retry_wait sd d -> a_ctx x = None -> exchanges sd l os r -> exchanges sd (x :: l) (o ++ Waited d :: os) r.

Lemma own_begin_spec turns s : wp (beginOwnMediaUpdate turns) (fun r s' => idled false s s' /\ (r = Return tt -> at_ (media s') = Idle /\ closed (dlg (media s')) = false)) s.
Proof.
  revert s. induction turns as [|[l e] turns IH]; intros s; cbn [beginOwnMediaUpdate]; wp_step; wp_step; wp_step; cbn [id]; destruct (closed (dlg (media s))) eqn:Ec; try by (wp_step; split; [apply idled_refl|]).
  - destruct (at_ (media s)) eqn:Ea; wp_step; (split; [apply idled_refl|done]).
  - destruct (at_ (media s)) eqn:Ea; [by wp_step; split; [apply idled_refl|]|..]; (wp_step; apply meanwhile_spec; intros s1 H1; wp_step; destruct e as [e|]; [by wp_step|]; wp_call IH; intros r s2 [H2 H2']; split; [by eapply idled_trans|done]).
Qed.

Definition outcome_of sd l s s' (r : res unit) : Prop :=
  rtc moves (media s) (media s') /\ (exists o, outs s' = outs s ++ o /\ exchanges sd l o r) /\
  (r = Return tt -> exists x q c i, x ∈ l /\ accepted x = Some (q, c) /\ took x i (Body q) (media s) (media s') /\ in_place i c s').

Lemma retry_wait_spec sd x s : drawn sd x -> wp (reInviteRetryWait sd x) (fun r s' => exists d : Z, retry_wait sd d /\ r = match a_ctx x with Some e => Fail e | None => Return tt end /\
  idled false (s <| outs := outs s ++ [Waited d] |>) s') s.
Proof.
  intros Hd. unfold reInviteRetryWait, put. wp_step. wp_step. wp_step. wp_step. apply meanwhile_spec. intros s1 H1. wp_step. wp_step.
  pose proof (drawn_wait _ _ Hd). destruct (a_ctx x); by eexists.
Qed.

Lemma reInviteMedia_spec sd mode l s : Forall (drawn sd) l -> wp (reInviteMedia sd mode l) (fun r s' => ended_with r -> outcome_of sd l s s' r) s.
Proof.
  intros Hl. revert s. induction Hl as [|x l Hx Hl IH]; intros s; cbn [reInviteMedia]; [by wp_step; intros []|].
  wp_step. wp_call own_begin_spec. intros r s1 [(R1 & O1 & _) H1]. destruct r as [[]|err| |]; wp_step; try (by intros []).
  2: { intros _. split; [done|]. split; [|done]. exists []. rewrite app_nil_r. split; [done|by constructor]. }
  destruct (H1 eq_refl) as [Ha Hc]. wp_step. apply wp_update. destruct (reInvite_fork (a_fork x) mode (dlg (media s1))) as [d [[i body]|err| |]] eqn:EF; cbn [fst snd]; wp_step; try (by intros []).
  2: { intros _. split; [|split; [|done]].
    - eapply rtc_r; [exact R1|]. eapply step_not_offered; [exact Ha|exact Hc|exact EF|]. unfold at_rest. cbn. by rewrite Ha.
    - exists []. rewrite app_nil_r. split; [exact O1|by constructor]. }
  wp_step. wp_step. set (s2 := progress_to _ _). assert (moves (media s1) (media s2)) as M2 by (eapply step_offered; [exact Ha|exact Hc|exact EF|reflexivity]).
  assert (at_ (media s2) = Offered i /\ outs s2 = outs s) as [A2 O2] by done. assert (rtc moves (media s) (media s2)) as R2 by (by eapply rtc_r). clearbody s2. wp_step. wp_step. wp_step. cbn [fst snd].
  wp_call reInviteMediaOnce_spec; [exact A2|]. intros [[]|err| |] s3 H3; cbv beta iota; try (wp_step; by intros []); destruct (H3 I) as (o & O3 & E3 & R3 & Hi3); rewrite O2 in O3.
  - destruct R3 as [R3 A3]. wp_step. cbn [negb]. wp_step. wp_step. wp_step. set (s4 := field_update media _ _). assert (moves (media s3) (media s4) /\ i ∈ waiting (media s4) /\ outs s4 = outs s ++ o) as (M4 & W4 & O4).
    { split; [exists EOwnPending; unfold step; by rewrite A3|]. split; [by apply elem_of_cons; left|done]. }
    clearbody s4. wp_step. wp_step. wp_call retry_wait_spec; [exact Hx|]. intros r s5 (w & Hw & -> & R5 & O5 & W5 & _). cbn in R5, O5, W5. rewrite O4 in O5.
    assert (rtc moves (media s) (media s5)) as R by (eapply rtc_trans; [exact R2|]; eapply rtc_trans; [exact R3|]; by eapply rtc_l). destruct (a_ctx x) as [e|] eqn:Ex; wp_step.
    + wp_step. apply wp_update. set (m := discardForkUnsafe (a_giveup x) i (dlg (media s5))). destruct m as [d' [derr|err| |]] eqn:EM; cbn [fst snd]; wp_step; try (by intros []); [wp_step|]; intros _;
        (split; [eapply rtc_r; [exact R|]; exists (EOwnGivesUp (a_giveup x) i); cbn [step]; rewrite bool_decide_true by auto; unfold run_in; subst m; by rewrite EM|]; split; [|done]);
        (exists (o ++ [Waited w]); split; [etrans; [exact O5|by rewrite <- app_assoc]|by eapply given_up]).
    + eapply wp_mono; [apply IH|]. intros r s6 H6 He. destruct (H6 He) as (R6 & (os & O6 & E6) & H6'). split; [by eapply rtc_trans|]. split.
      * exists (o ++ Waited w :: os). split; [rewrite O6, O5; by rewrite <- !app_assoc|by eapply retried].
      * intros E. destruct (H6' E) as (x' & q & c & j & Hin & Ha' & Ht' & Hr). exists x', q, c, j. split; [by apply elem_of_cons; right|]. split; [exact Ha'|]. split; [by eapply took_from|exact Hr].
  - wp_step. cbn [negb]. wp_step. intros _. split; [eapply rtc_trans; [exact R2|exact R3]|]. split; [exists o; split; [exact O3|by constructor]|]. intros _. destruct (Hi3 eq_refl) as (q & c & Ha3 & Ht3 & Hin).
    exists x, q, c, i. split; [by apply elem_of_cons; left|]. split; [exact Ha3|]. split; [by eapply took_from|exact Hin].
  - wp_step. intros _. split; [eapply rtc_trans; [exact R2|exact R3]|]. split; [|done]. exists o. split; [exact O3|by constructor].
Qed.

(** ** It returns *)

(** A method that never waits for what does not come. *)
Definition prompt {D A} (m : M D A) : Prop := forall z, (m z).2 <> Waits.
Lemma prompt_bind {D A B} (m : M D A) (f : A -> M D B) : prompt m -> (forall a, prompt (f a)) -> prompt (bind m f).
Proof. intros Hm Hf z. unfold bind. pose proof (Hm z) as Hd. destruct (m z) as [z' [a|e| |]]; try done. apply Hf. Qed.
Lemma prompt_try {D} (m : M D unit) : prompt m -> prompt (try m).
Proof. intros Hm z. unfold try. pose proof (Hm z) as Hd. by destruct (m z) as [z' [a|e| |]]. Qed.
Lemma prompt_defer {D A} f (m : M D A) : prompt m -> prompt (defer f m).
Proof. intros Hm z. unfold defer. pose proof (Hm z) as Hd. by destruct (m z) as [z' [a|e| |]]. Qed.
Lemma prompt_check {D} e : prompt (check (D := D) e).
Proof. by destruct e. Qed.
Lemma prompt_update {A} (m : M (dialog S) A) : prompt m -> prompt (update (msg := msg) m).
Proof. intros Hm s. unfold update. pose proof (Hm (dlg (media s))) as Hd. by destruct (m (dlg (media s))). Qed.
Ltac prompt :=
  cbv zeta; repeat first [match goal with HF : forall _, prompt _ |- prompt _ => solve [apply HF] end | apply prompt_bind; [|intros ?] | apply prompt_try | apply prompt_defer | apply prompt_check | apply prompt_update
    | progress unfold load, save, did, new, close_session, RemoteSDP, LocalSDP, put, ack, hangupNoMedia, meanwhile, reInviteMediaOnce_failed, replace_or_discard
    | match goal with |- prompt (match ?x with _ => _ end) => destruct x end | match goal with |- prompt (if ?x then _ else _) => destruct x end | done ].

(** The wait for a turn is bounded by the context, and a handshake by its own timers. *)
Definition bounded x : Prop :=
  (exists l e, last (a_turns x) = Some (l, Some e)) /\ forall t : S, uo_FinalizeContext (u_env (a_keyed x)) t <> None.

Lemma begin_prompt turns l e : last turns = Some (l, Some e) -> prompt (beginOwnMediaUpdate (msg := msg) turns).
Proof.
  induction turns as [|[l' e'] turns IH]; [done|]. intros Hlast. cbn [beginOwnMediaUpdate]. prompt; (destruct turns as [|t turns]; [done|]; by apply IH).
Qed.
Lemma Finalize_prompt e i : (forall t : S, uo_FinalizeContext (u_env e) t <> None) -> prompt (FinalizeContext e i).
Proof.
  intros He. unfold FinalizeContext. apply prompt_bind; [prompt|]. intros t. pose proof (He t). destruct (uo_FinalizeContext (u_env e) t) as [[t' err]|]; [prompt|done].
Qed.
Lemma install_prompt sd x i r : bounded x -> prompt (install sd x i r).
Proof.
  intros [_ Hf]. pose proof (fun i => Finalize_prompt (a_keyed x) i Hf). unfold install. prompt.
Qed.
Lemma once_prompt sd x i body : bounded x -> prompt (reInviteMediaOnce sd x i body).
Proof.
  intros Hb. unfold reInviteMediaOnce, reInviteSend. pose proof (fun ir : nat * response => install_prompt sd x ir.1 ir.2 Hb) as HI. assert (forall r, prompt (install sd x i r)) by (intros r; apply (HI (i, r))). prompt.
Qed.

Definition settles x : Prop := pending x = false \/ a_ctx x <> None.

Lemma once_settles sd x i body s : pending x = false -> at_ (media s) = Offered i -> (reInviteMediaOnce sd x i body s).2 <> Return true.
Proof. intros Hp Hat E. pose proof (reInviteMediaOnce_spec sd x i body s Hat) as Hw. unfold wp in Hw. rewrite E in Hw. destruct (Hw I) as (l & _ & Hx & _). inversion Hx; congruence. Qed.

Lemma reInviteMedia_prompt sd mode l : Forall bounded l -> Exists settles l -> prompt (reInviteMedia (msg := msg) sd mode l).
Proof.
  intros Hb He. induction He as [x l Hx|x l He IH]; apply Forall_cons in Hb as [Hx' Hb]; cbn [reInviteMedia]; destruct Hx' as [(lx & e & Ht) Hf]; assert (bounded x) as Hx' by (split; eauto).
  - apply prompt_bind; [by eapply begin_prompt|intros _]. apply prompt_bind; [prompt|intros [i body]]. intros s. unfold bind at 1, modify at 1. cbn [fst snd].
    set (s1 := progress_to (Offered i) s). assert (at_ (media s1) = Offered i) as Ha by done. clearbody s1.
    unfold bind at 1, defer. pose proof (once_prompt sd x i body Hx' s1) as Hp. pose proof (once_settles sd x i body s1) as Hn. destruct (reInviteMediaOnce sd x i body s1) as [s2 [[]|err| |]]; cbn [fst snd negb] in *; try done.
    destruct Hx as [Hx|Hx]; [by destruct (Hn Hx Ha)|]. revert Hx. clear. intros Hx. unfold reInviteRetryWait, bind, try, put, modify, meanwhile, check. cbn. destruct (a_ctx x); [|done]. cbn.
    match goal with |- context [update ?m ?z] => assert (prompt (update (msg := msg) m)) as Hd by prompt; specialize (Hd z); destruct (update m z) as [? []] end; cbn in *; done.
  - apply prompt_bind; [by eapply begin_prompt|intros _]. apply prompt_bind; [prompt|intros [i body]]. apply prompt_bind; [prompt|intros _]. apply prompt_bind; [apply prompt_defer; by apply once_prompt|intros [|]]; cbn [negb]; [|prompt].
    apply prompt_bind; [prompt|intros _]. apply prompt_bind; [unfold reInviteRetryWait; prompt|intros [e'|]]; [prompt|by apply IH].
Qed.

(** C37. A call of ReInvite, Hold or Unhold that returns, with or without an error, is a
    run of the steps of [MediaUpdate], whatever the others do while it waits for its
    turn, for the answer, for the handshake and after a 491. It sends one re-INVITE per
    attempt, waits as long as RFC 3261 asks after each 491 (the draw of the random
    generator being in its range), acknowledges each 2xx that has a contact, and hangs
    up exactly when the update behind an acknowledged 2xx fails with
    errMediaUpdateAfterAnswer.
    When it succeeds, the session of the call is a fork that in this run took the body
    of an accepted 2xx as its answer. And the call does not wait for ever, when the
    waits for a turn end with their context, the handshakes end, and some attempt is
    settled: its answer is not a 491, or its context ends. Nothing is said of what a
    run that panics leaves. *)
Theorem own_reinvite sd mode l s : Forall (drawn sd) l ->
  let '(s', r) := reInviteMedia sd mode l s in
  (ended_with r -> outcome_of sd l s s' r) /\ (Forall bounded l -> Exists settles l -> r <> Waits).
Proof.
  intros Hd. pose proof (reInviteMedia_spec sd mode l s Hd) as Hw. unfold wp in Hw. pose proof (reInviteMedia_prompt sd mode l) as Hp. destruct (reInviteMedia sd mode l s) as [s' r] eqn:E. split; [exact Hw|].
  intros Hb He. specialize (Hp Hb He s). by rewrite E in Hp.
Qed.

(** A session refresh sends at most two re-INVITEs, and ends. *)
Theorem refresh_ends (x y : @refresh_ S uo msg) (l : list (@refresh_ S uo msg)) b : Forall bounded (f_attempts x) -> Exists settles (f_attempts x) -> Forall bounded (f_attempts y) -> Exists settles (f_attempts y) ->
  prompt (refreshSession (x :: y :: l) b).
Proof.
  intros Hbx Hsx Hby Hsy.
  assert (forall z (l : list (@refresh_ S uo msg)), Forall bounded (f_attempts z) -> Exists settles (f_attempts z) -> prompt (refreshSession (z :: l) true)) as H1.
  { intros z k Hz Hs. cbn [refreshSession]. apply prompt_bind; [apply prompt_try; by apply reInviteMedia_prompt|intros [err|]; [|done]]. destruct (f_ctx z); [done|]. do 2 (match goal with |- prompt (if ?c then _ else _) => destruct c; [done|] end).
    apply prompt_bind; [done|intros st]. cbn [negb]. rewrite !andb_false_r. prompt. }
  destruct b; [by apply H1|]. pose proof (H1 y l Hby Hsy) as Hy. revert Hy. generalize (y :: l). clear H1 Hby Hsy. intros k Hy. cbn [refreshSession]. assert (forall u : unit, prompt (refreshSession k true)) by done.
  apply prompt_bind; [apply prompt_try; by apply reInviteMedia_prompt|intros [err|]; [|done]]. prompt.
Qed.

End Props.

(** ** A call put on hold at the second try *)

#[local] Existing Instance MediaUpdateTheorems.ex_update | 0.
#[local] Existing Instance SessionTimerProps.headers_getter | 0.
Definition ex_others : list (@other (@MediaSession.MediaSession unit (bytes * bytes)) MediaUpdateTheorems.ex_update) := [Media (EAck MediaUpdateTheorems.ex_upd 7 None)].
Definition ex_held : string := write_lines ["v=0"; "o=- 3 5 IN IP4 10.0.0.9"; "s=-"; "c=IN IP4 10.0.0.9"; "t=0 0"; "m=audio 7004 RTP/AVP 0"; "a=recvonly"].
Abbreviation ex_msg := (list header).
Definition ex_answer (status : Z) (body : string) : @response ex_msg := {| StatusCode := status; Contact := Some "sip:peer2"; Body := body; rs_headers := [] |}.
Definition ex_keyed : @upd_env _ MediaUpdateTheorems.ex_update :=
  {| u_env := {| ue_remote := ue_remote (u_env MediaUpdateTheorems.ex_upd); ue_local := ue_local (u_env MediaUpdateTheorems.ex_upd);
                 ue_run := Some (MediaSecurity.ex_hs None); ue_wait := MediaLifecycle.RunDone; ue_handshake := MediaSecurity.ex_hs None |};
     u_monitorClose := None; u_monitor := None; u_rtpClose := None; u_carry := None; u_close := None |}.
Definition ex_attempt (r : @response ex_msg) : @attempt _ MediaUpdateTheorems.ex_update ex_msg :=
  {| a_turns := [([], Some (ErrNew "context canceled"))]; a_fork := MediaUpdateTheorems.ex_upd; a_sending := ex_others; a_Do := inl r; a_ack := None; a_acked := []; a_upd := MediaUpdateTheorems.ex_upd; a_keying := [];
     a_keyed := ex_keyed; a_hangup := (true, None); a_draw := 7; a_waiting := []; a_ctx := None; a_giveup := MediaUpdateTheorems.ex_upd |}.
Definition ex_attempts := [ex_attempt (ex_answer 491 ""); ex_attempt (ex_answer 200 ex_held)].
Definition ex_state : @state (@MediaSession.MediaSession unit (bytes * bytes)) ex_msg :=
  {| media := set_up MediaUpdateTheorems.ex_plain false None []; contact := "sip:peer"; timer := None; refused := None; outs := [] |}.

Lemma ex_bounded r : bounded (ex_attempt r).
Proof.
  split; [by eexists [], _|]. intros t. cbn. unfold MediaLifecycle.negotiate, MediaLifecycle.FinalizeContext. destruct (ms_finalizeRun t) as [[a [err|]]|] eqn:E; cbn.
  - by rewrite E.
  - by destruct (MediaLifecycle.runNegotiation _ _ a t).
  - rewrite E. destruct (finalizeErr t); [done|]. destruct (onFinalize t) as [a|]; [|done]. by destruct (MediaLifecycle.runNegotiation _ _ a t).
Qed.

Abbreviation ex_run := (reInviteMedia (Client "sip:me") (Some "sendonly") ex_attempts ex_state).
Lemma own_reinvite_witness : exists s' r, ex_run = (s', r) /\ r = Return tt /\ length (outs s') = 4%nat /\ outcome_of (Client "sip:me") ex_attempts ex_state s' r.
Proof.
  assert ((length (outs ex_run.1), ex_run.2) = (4%nat, Return tt)) as Hr by (vm_compute; reflexivity).
  assert (Forall (drawn (Client "sip:me")) ex_attempts) as Hd by (repeat (constructor; [vm_compute; split; congruence|]); constructor).
  pose proof (own_reinvite (Client "sip:me") (Some "sendonly") ex_attempts ex_state Hd) as Ho. destruct ex_run as [s' r]. exists s', r. injection Hr as H1 H2. split; [reflexivity|]. split; [exact H2|]. split; [exact H1|].
  apply Ho. by rewrite H2.
Defined.

(** It ends, for the second answer is final. *)
Example ex_ends : Forall bounded ex_attempts /\ Exists settles ex_attempts.
Proof. split; [repeat (constructor; [apply ex_bounded|]); constructor|]. apply Exists_cons_tl, Exists_cons_hd. by left. Qed.

End OwnReInviteProps.
